(* ===== verification/_CoqProject ===== *)
-Q . S2P
Prelude.v
Memory.v
CString.v
Bitmap.v
Riscv.v
PageAlloc.v
Vmem.v
PageTable.v
UserCopy.v
Scenario.v
HeapAlloc.v
HeapInv.v
Heap.v
LinkedList.v
Spinlock.v
Coroutine.v
Mutex.v
BufferCache.v
NfsBlock.v
NfsInode.v
NfsRep.v
NfsData.v
NfsFile.v
NfsMeta.v
NfsTable.v
NfsTruncate.v
NfsDurable.v
NfsMount.v
Dentry.v
NfsDir.v
NfsFormat.v
Directory.v
PathWalk.v
Process.v
Scheduler.v
ProcessTree.v
SharedPtr.v
SharedSteps.v
Virtio.v
VirtioInv.v
VirtioDisk.v
UserSpace.v
Elf.v
UserLife.v
RamDisk.v
Cpu.v
Trap.v
TrapProof.v
TrapStart.v
Printf.v
OpenFile.v
ProcStart.v
Log.v
