(* ===== verification/Prelude.v ===== *)
(** * A verification library for the coro-core kernel

    coro-core is a small multi-core RISC-V kernel in C++20 whose long-running
    services (disk, file system, schedulers) are coroutines.  This library
    models its own logic, file by file, as executable definitions and proves
    what makes each part correct.  Paths are relative to src/os.

    ** The program and its model

    - Memory.  [Memory] is byte-addressed memory, [CString] the C library
      routines of mm/utils.cc, [Bitmap] utils/bitmap.h.  [Riscv] has the page
      table entry format of arch/riscv.h and the address layout of
      mm/layout.h.  [PageAlloc] is the physical page allocator of
      mm/allocator.cc (an intrusive list through the free pages), [Vmem] the
      three-level page tables and the copies between kernel and user memory of
      mm/vmem.cc; [PageTable] and [UserCopy] prove them correct against the
      map from virtual pages to frames, [Scenario] is a concrete machine for
      the witnesses.  [HeapAlloc], [HeapInv] and [Heap] are the slab heap of
      mm/allocator.h and allocator.cc: size classes, blocks of one page, the
      chains of blocks with free cells.
    - Lists.  [LinkedList] is the doubly linked list of utils/list.h on a
      store of nodes, refined to a sequence.
    - Concurrency.  [Spinlock] is atomic/spinlock.cc with cores interleaved at
      every access to the lock word; [Coroutine] the promise, task and
      scheduler machinery of coroutine.h, coroutine.cc and task_scheduler.h
      (suspension, resumption, failure with unwinding to the nearest handler);
      [Mutex] the wait queues of utils/wait_queue.h and the coroutine mutex of
      atomic/mutex.h.
    - Buffers.  [BufferCache] is utils/buffer_manager.h for the block buffers
      of device/block: lookup, eviction with write-back, overlapping gets.
    - The file system nfs (fs/nfs).  [NfsBlock] is the disk format and the
      block allocator of nfs.cc, over one cell per block, which is what
      [BufferCache] shows a block to be; [NfsInode] reading and writing a file
      ([data_rw], its direct blocks, its chain of address blocks and its
      position cache); [NfsRep] the representation invariant of a file,
      [NfsData] and [NfsFile] the refinement to an array of bytes; [NfsMeta]
      loading and storing inodes, truncation and the inode allocator,
      [NfsTable] and [NfsTruncate] their correctness; [NfsDurable] the marks
      that say what has to be written back, [NfsMount] mounting and unmounting,
      [NfsFormat] [make_fs] and a whole session on a device; [NfsDir] the directory
      operations of inode.cc and [Directory] their refinement to a list of
      names.
    - Names.  [Dentry] is the dentry cache and both path walks of
      fs/dentry.cc against the interface [DirOps] of a directory inode;
      [PathWalk] instantiates it with the nfs directories.
    - Open files.  [OpenFile] is fs/file.h over any inode that keeps the class
      [InodeSpec], with the nfs inode as its instance, and the console file of
      drivers/console.h.
    - Shared pointers.  [SharedPtr] is utils/shared_ptr.h: the counts, the
      pointers that hold them and the hook of the last owner; [SharedSteps] runs
      the operations on several cores, interleaved at every change of a count, of
      a pointer and of the heap.
    - Disks.  [Virtio] is drivers/virtio: the rings and descriptors of the disk
      driver, its coroutines and its interrupt, with the device as a second
      party that reads and writes the same rings; [VirtioInv] the invariant of
      the two, [VirtioDisk] the refinement to an array of blocks.  [RamDisk] is
      drivers/ramdisk with its pages from [PageAlloc], and the device registry
      of device/device.h.
    - Processes.  [Process] is the process state machine of proc/process.cc,
      [Scheduler] the run queue and the per-core loop of proc/scheduler.cc with
      the timed sleepers of arch/cpu.cc, [ProcessTree] killing a process with
      its descendants.  [UserSpace] is the construction of user address spaces
      in process.cc, [Elf] the loader of elf.cc, and [UserLife] the life of a
      user process from its first page to its last.
    - Traps.  [Cpu] has the control registers, the interrupt masking of
      arch/cpu.h, the timer and the interrupt controller.  [Trap] interprets the
      assembly of trap/trampoline.S, kernelvec.S and switch.S instruction by
      instruction and has the handlers of trap.cc and the system calls of
      syscall/; [TrapProof] shows that registers survive the way through them,
      [TrapStart] that a new process arrives at its entry point.  [ProcStart]
      is the constructor of a kernel process and [test_load_elf], which loads a
      binary and puts the arguments of main on the stack.
    - Output.  [Printf] is utils/printf.cc, fprint.cc and fprintf.h, [Log] the
      loggers of utils/log.h and the ring of trace points.

    ** How code becomes definitions

    An operation that changes state is a value of the monad [K S A] below,
    explicit state passing with four outcomes: a result, [co_return
    task_fail], a kernel panic (also a null dereference or the use of an
    uninitialised index), and exhausted fuel.  Machine integers are [Z], with
    the conversions [u8] to [u64] written where the source converts; structs
    are records, pointers are numbers into a store, null or [None].  Loops
    whose bound is not structural take fuel; the theorems prove that the run
    returns, with enough fuel stated or computed from the state: the number of
    pages of a range, of entries of a directory, of blocks of a file, the
    length of a path, the depth of a process tree.  Operations that run under
    one lock, or between two suspension points of a coroutine, are one step of
    an inductive step relation, and interleavings are sequences of such steps.
    [kspec] is total correctness: a computation with [kspec] neither panics nor
    runs out of fuel, and what holds when the task fails is its second condition.

    ** What the theorems show

    - Allocation: no sequence of allocations, frees and writes by holders gets
      a page or a heap cell twice or damages the free lists (for the heap up to
      the first request that finds no memory); the allocator starts with every
      page of its range.
    - Address translation: [mappages] and [uvmunmap] change exactly the range
      asked for, [copyout] and [copyin] move exactly the bytes asked for.
    - Lists refine sequences; spinlock and mutex exclude; the mutex loses no
      wake-up and can serve every waiter; a coroutine is in one place, and a
      failure reaches exactly the nearest handler.
    - The buffer cache is transparent for one user at a time and has one buffer
      per block under every interleaving.
    - Files are arrays of bytes: a write changes its range and nothing of
      anybody else, a read returns it, truncation gives back exactly the blocks
      of the file, inodes survive their way to the table and back, and a file
      survives unmounting and mounting.  A file system that [make_fs] made
      satisfies the invariants all this starts from.  Operations on files and
      directories fail only when a block is needed and there is none, which
      [no_room] says, and then leave the invariants as they were.
    - Directories are lists of names; [lookup], [link] and [unlink] refine the
      operations on them.  Both path walks agree with one specification and
      end on every path.
    - An open file is a stream: reads, writes, seeks and tells answer what an
      array of bytes with a position does.
    - The virtio disk and the ram disk are arrays of blocks; the driver gets every
      request answered once, keeps descriptors and status bytes apart, and can
      always go on.
    - An object behind shared pointers is destroyed once, after its last owner,
      and its counts after the last pointer of any kind, as long as no pointer
      variable is used by two operations at once, one of which changes it.
    - A process is on at most one core and in at most one queue; killing a
      process ends and reaches its descendants; timed sleepers wake when their
      time has come.  The loader puts every segment of a binary where its header
      says, and a process that ends gives back every page it had, but for at most
      one for each request for memory that failed.
    - An interrupt in user mode or in the kernel, that of the disk included,
      changes no register of the program it interrupts, also when another process
      runs in between; a system
      call changes only its result and the program counter; a fault ends the
      process; [swtch] comes back with the registers it left with; a new user
      process starts at its entry point with its arguments on its stack, a new
      kernel process in its function with its argument.
    - Numbers are printed within their buffers and read back as what they were;
      a format with matching arguments comes out piece by piece, a line of the
      console logger in one piece.

    Some theorems are runs in which the code does not do what it means to; each
    says so in its comment.  They concern the truncated heap block that stays
    linked, the position cache after truncation, the name of 28 characters, the
    dentry of a failed lookup, the comparison of cached names, the block that is
    loaded while it is being written back, the pointer that is copied while it is
    detached, the idle process and the process killed while it falls asleep.

    The list of findings beside this library has these and the smaller ones, most
    with the lemma that shows them.

    ** Bounds and fuel

    The section on definitions gives the fuel of the loops.  The instruction interpreter of
    [Trap] runs straight-line code and takes one step per instruction of a list.
    A run of the virtio driver has no fuel: its steps are a relation, in which the
    interrupt handler has nine rounds, one more than there are descriptors.  Files are
    below 2^32 bytes, the width of the size in an inode; the theorems on nfs and
    on open files say so.

    ** What is not modelled

    - The logging macros and the output of a panic; a panic is an outcome of the
      model.
    - The order of initialisation in init.cc, entry.S and the start of the other
      harts; the machine-mode registers of arch/riscv.h and the constants of
      arch/riscv/csr.h, which the kernel does not use.
    - The C++ run-time support in cxx/ and the vendored allocator ptmalloc.
    - utils/circular_queue.h, which nothing uses and which does not compile when
      it is used; the tests.
    - The fairness of the hardware and memory-model effects weaker than
      sequential consistency; the failure of [operator new], unless a file says
      otherwise.
    - [unmount] is modelled without the wait for inodes that are still in use,
      and an open file with one task at a time: what two tasks on one inode do is
      the matter of [Mutex]. *)
From stdpp Require Export base tactics numbers option gmap list.

#[global] Open Scope Z_scope.

(** ** Machine integers

    A C++ integer of width w is a [Z]; the conversions below are the
    wrap-around a store to a variable of that type performs. *)
Definition u8 (x : Z) : Z := x mod 2 ^ 8.
Definition u16 (x : Z) : Z := x mod 2 ^ 16.
Definition u32 (x : Z) : Z := x mod 2 ^ 32.
Definition u64 (x : Z) : Z := x mod 2 ^ 64.

(** Two's complement reading of a 32-bit and a 64-bit value. *)
Definition s32 (x : Z) : Z := (x + 2 ^ 31) mod 2 ^ 32 - 2 ^ 31.
Definition s64 (x : Z) : Z := (x + 2 ^ 63) mod 2 ^ 64 - 2 ^ 63.

Arguments u8 : simpl never.
Arguments u16 : simpl never.
Arguments u32 : simpl never.
Arguments u64 : simpl never.
Arguments s32 : simpl never.
Arguments s64 : simpl never.

(** [lia] with division and remainder by constants. *)
Ltac zlia := Z.to_euclidean_division_equations; lia.

(** Arithmetic on wrapped integers: unfold the conversions, then [zlia]. *)
Ltac ulia := unfold u8, u16, u32, u64, s32, s64 in *; zlia.

Lemma u8_range x : 0 <= u8 x < 256.
Proof. ulia. Qed.

Lemma u32_range x : 0 <= u32 x < 2 ^ 32.
Proof. ulia. Qed.

Lemma u64_range x : 0 <= u64 x < 2 ^ 64.
Proof. ulia. Qed.

Lemma u32_small x : 0 <= x < 2 ^ 32 -> u32 x = x.
Proof. ulia. Qed.

Lemma u64_small x : 0 <= x < 2 ^ 64 -> u64 x = x.
Proof. ulia. Qed.

Lemma u16_small x : 0 <= x < 2 ^ 16 -> u16 x = x.
Proof. ulia. Qed.

Lemma u8_small x : 0 <= x < 256 -> u8 x = x.
Proof. ulia. Qed.

Create HintDb kernel discriminated.
Create Rewrite HintDb kernel.
#[export] Hint Resolve u8_range u32_range u64_range : kernel.
#[export] Hint Rewrite u8_small u16_small u32_small u64_small using lia : kernel.

(** ** Outcomes of kernel code

    Kernel code runs on a state [S] and ends in one of four ways: it returns
    a value, it fails with [co_return task_fail] (the coroutine machinery then
    unwinds to the task executor, leaving the state as it was at that point),
    it calls [panic] (the machine stops), or it does not return at all (it
    waits for itself).  [OutOfFuel] is not a behaviour of the code: it marks a
    run whose loop bound was too small, and every theorem about a fuelled
    operation proves that it is not reached. *)
Inductive outcome (S A : Type) : Type :=
| Ret (a : A) (s : S)
| TaskFail (s : S)
| Panic
| OutOfFuel.
Arguments Ret {S A} a s.
Arguments TaskFail {S A} s.
Arguments Panic {S A}.
Arguments OutOfFuel {S A}.

(** A kernel operation: explicit state passing with these outcomes. *)
Definition K (S A : Type) : Type := S -> outcome S A.

Definition kret {S A : Type} (a : A) : K S A := fun s => Ret a s.

Definition kbind {S A B : Type} (m : K S A) (f : A -> K S B) : K S B :=
  fun s =>
    match m s with
    | Ret a s' => f a s'
    | TaskFail s' => TaskFail s'
    | Panic => Panic
    | OutOfFuel => OutOfFuel
    end.

Definition kget {S : Type} : K S S := fun s => Ret s s.
Definition kput {S : Type} (s : S) : K S unit := fun _ => Ret tt s.
Definition kmodify {S : Type} (f : S -> S) : K S unit := fun s => Ret tt (f s).
Definition kpanic {S A : Type} : K S A := fun _ => Panic.
Definition kfail {S A : Type} : K S A := fun s => TaskFail s.
Definition kfuel {S A : Type} : K S A := fun _ => OutOfFuel.

(** [kernel_assert(exp, msg)]: a failed assertion panics
    (src/os/utils/assert.h). *)
Definition kernel_assert {S : Type} (b : bool) : K S unit :=
  if b then kret tt else kpanic.

Declare Scope kernel_scope.
Delimit Scope kernel_scope with kernel.
Notation "x <- m ;; k" := (kbind m (fun x => k))
  (at level 20, m at level 90, k at level 200, right associativity) : kernel_scope.
Notation "' x <- m ;; k" := (kbind m (fun x => k))
  (at level 20, x pattern, m at level 90, k at level 200, right associativity) : kernel_scope.
Notation "m ;;; k" := (kbind m (fun _ => k))
  (at level 100, k at level 200, right associativity) : kernel_scope.
#[global] Open Scope kernel_scope.

(** Running one step of a computation whose result is known. *)
Lemma kbind_ret {S A B : Type} (m : K S A) (f : A -> K S B) s a s' :
  m s = Ret a s' -> kbind m f s = f a s'.
Proof. unfold kbind. by intros ->. Qed.

Lemma kbind_inv_ret {S A B : Type} (m : K S A) (f : A -> K S B) s b s'' :
  kbind m f s = Ret b s'' -> exists a s', m s = Ret a s' /\ f a s' = Ret b s''.
Proof. unfold kbind. destruct (m s) eqn:E; try discriminate. eauto. Qed.

(** Total correctness of a run: it neither panics nor runs out of fuel; it
    returns with [post], or fails as a task with [fail]. *)
Definition kspec {S A : Type} (o : outcome S A) (post : A -> S -> Prop) (fail : S -> Prop) : Prop :=
  match o with
  | Ret a s => post a s
  | TaskFail s => fail s
  | Panic | OutOfFuel => False
  end.

Lemma kspec_bind {S A B : Type} (m : K S A) (f : A -> K S B) s (mid : A -> S -> Prop) post (fail : S -> Prop) :
  kspec (m s) mid fail -> (forall a s', mid a s' -> kspec (f a s') post fail) -> kspec (kbind m f s) post fail.
Proof. unfold kspec, kbind. destruct (m s); try done. intros Hm Hf. by apply Hf. Qed.

Lemma kspec_seq {S A B : Type} (m : K S A) (f : A -> K S B) s (mid : A -> S -> Prop) post (fail1 fail : S -> Prop) :
  kspec (m s) mid fail1 -> (forall s', fail1 s' -> fail s') ->
  (forall a s', mid a s' -> kspec (f a s') post fail) -> kspec (kbind m f s) post fail.
Proof. unfold kspec, kbind. destruct (m s); intros Hm Hfail Hf; [by apply Hf|by apply Hfail|done|done]. Qed.

Lemma kspec_mono {S A : Type} (o : outcome S A) (post post' : A -> S -> Prop) (fail fail' : S -> Prop) :
  kspec o post fail -> (forall a s, post a s -> post' a s) -> (forall s, fail s -> fail' s) -> kspec o post' fail'.
Proof. destruct o; cbn; eauto. Qed.

(** The failure that happened, and a run that is known to return. *)
Lemma kspec_fails {S A : Type} (o : outcome S A) post fail :
  kspec o post fail -> kspec o post (fun s => o = TaskFail s /\ fail s).
Proof. by destruct o. Qed.

Lemma kspec_returns {S A : Type} (o : outcome S A) post fail :
  kspec o post fail -> (exists a s, o = Ret a s) -> exists a s, o = Ret a s /\ post a s.
Proof. intros Hk (a & s & ->). by exists a, s. Qed.

Lemma kbind_assoc {S A B C : Type} (m : K S A) (f : A -> K S B) (g : B -> K S C) s :
  kbind m (fun a => kbind (f a) g) s = kbind (kbind m f) g s.
Proof. unfold kbind. by destruct (m s). Qed.

(** The value a run returns, for runs on concrete states. *)
Definition ret_val {S A : Type} (o : outcome S A) : option A :=
  match o with
  | Ret a _ => Some a
  | _ => None
  end.

Lemma ret_val_run {S A : Type} (o : outcome S A) a : ret_val o = Some a -> exists s, o = Ret a s.
Proof. destruct o; try discriminate. intros [= ->]. eauto. Qed.

(** Split a returning run of a composed computation into its steps. *)
Ltac kinv H :=
  let a := fresh "a" in
  let s := fresh "s" in
  let H1 := fresh "Hrun" in
  apply kbind_inv_ret in H as (a & s & H1 & H).

(** ** Lists and options *)

(** A C array read: the elements outside the array are not read by the code
    that is modelled; the default makes the definition total. *)
Definition nthZ {A} `{Inhabited A} (l : list A) (i : Z) : A :=
  nth (Z.to_nat i) l inhabitant.

(** A C array write. *)
Definition updZ {A} (l : list A) (i : Z) (x : A) : list A :=
  <[Z.to_nat i := x]> l.

Lemma length_updZ {A} (l : list A) i x : length (updZ l i x) = length l.
Proof. apply length_insert. Qed.

Lemma nthZ_lookup {A} `{Inhabited A} (l : list A) i x :
  l !! Z.to_nat i = Some x -> nthZ l i = x.
Proof. intros Hl. by apply nth_lookup_Some. Qed.

Lemma nthZ_lookup_lt {A} `{Inhabited A} (l : list A) i :
  0 <= i < Z.of_nat (length l) -> l !! Z.to_nat i = Some (nthZ l i).
Proof.
  intros Hi. destruct (lookup_lt_is_Some_2 l (Z.to_nat i)) as [x Hx]; [lia|].
  by rewrite Hx, (nthZ_lookup _ _ _ Hx).
Qed.

Lemma nthZ_updZ_eq {A} `{Inhabited A} (l : list A) i x :
  0 <= i < Z.of_nat (length l) -> nthZ (updZ l i x) i = x.
Proof.
  intros Hi. apply nthZ_lookup. unfold updZ. apply list_lookup_insert_eq. lia.
Qed.

Lemma nthZ_updZ_ne {A} `{Inhabited A} (l : list A) i j x :
  0 <= i -> 0 <= j -> i <> j -> nthZ (updZ l i x) j = nthZ l j.
Proof.
  intros Hi Hj Hne. unfold nthZ, updZ.
  rewrite !nth_lookup, list_lookup_insert_ne by lia. done.
Qed.

#[export] Hint Rewrite @length_updZ : kernel.
#[export] Hint Rewrite @nthZ_updZ_eq @nthZ_updZ_ne using lia : kernel.

(** ** Maps *)

Lemma alter_at {A} (f : A -> A) (k : Z) x (m : gmap Z A) :
  m !! k = Some x -> alter f k m = <[k := f x]> m.
Proof.
  intros Hk. apply map_eq. intros j. destruct (decide (j = k)) as [->|Hne].
  - by rewrite lookup_alter_eq, lookup_insert_eq, Hk.
  - by rewrite lookup_alter_ne, lookup_insert_ne.
Qed.

(** ** Bits *)

(** Equality of integers bit by bit. *)
Ltac bitwise :=
  apply Z.bits_inj'; intros ?n ?Hn;
  rewrite ?Z.lor_spec, ?Z.land_spec, ?Z.ldiff_spec, ?Z.lnot_spec,
    ?Z.shiftl_spec, ?Z.shiftr_spec by lia.

Lemma land_lnot_ones x n :
  0 <= n -> Z.land x (Z.lnot (Z.ones n)) = x - x mod 2 ^ n.
Proof.
  intros Hn. rewrite <- Z.ldiff_land, Z.ldiff_ones_r by lia.
  rewrite Z.shiftl_mul_pow2, Z.shiftr_div_pow2 by lia.
  pose proof (Z.div_mod x (2 ^ n)). lia.
Qed.

Lemma testbit_pow2 i j : 0 <= i -> 0 <= j -> Z.testbit (2 ^ i) j = bool_decide (i = j).
Proof.
  intros Hi Hj. destruct (decide (i = j)) as [->|Hne].
  - rewrite bool_decide_eq_true_2 by done. by apply Z.pow2_bits_true.
  - rewrite bool_decide_eq_false_2 by done. by apply Z.pow2_bits_false.
Qed.

Lemma land_pow2_testbit x i :
  0 <= i -> (Z.land x (2 ^ i) =? 0) = negb (Z.testbit x i).
Proof.
  intros Hi. destruct (Z.testbit x i) eqn:E; simpl.
  - apply Z.eqb_neq. intros H0.
    assert (Z.testbit (Z.land x (2 ^ i)) i = false) as Hb
      by (rewrite H0; apply Z.testbit_0_l).
    rewrite Z.land_spec, E, Z.pow2_bits_true in Hb; done.
  - apply Z.eqb_eq. bitwise.
    rewrite testbit_pow2 by lia. rewrite Z.testbit_0_l.
    case_bool_decide; subst; [by rewrite E | by rewrite andb_false_r].
Qed.

(** ** Searching a list of nodes *)

(** A loop over a list that stops at the first node that matches: the node,
    and the list without it ([move_to_front], [erase]). *)
Fixpoint find_front (f : nat -> bool) (l : list nat) : option (nat * list nat) :=
  match l with
  | [] => None
  | d :: l' =>
      if f d then Some (d, l')
      else
        match find_front f l' with
        | Some (e, r) => Some (e, d :: r)
        | None => None
        end
  end.

Lemma find_front_spec f l d r : find_front f l = Some (d, r) -> f d = true /\ l ≡ₚ d :: r.
Proof.
  revert r. induction l as [|x l IH]; intros r; cbn [find_front]; [done|].
  destruct (f x) eqn:Hx; [by intros [= -> ->]|].
  destruct (find_front f l) as [[e r']|]; [|done]. intros [= -> <-]. destruct (IH r' eq_refl) as [? ->].
  split; [done|]. apply Permutation_swap.
Qed.

Lemma find_front_none f l d : find_front f l = None -> d ∈ l -> f d = false.
Proof.
  induction l as [|x l IH]; cbn [find_front]; [by intros _ ?%elem_of_nil|].
  destruct (f x) eqn:Hx; [done|]. destruct (find_front f l) as [[e r]|]; [done|]. intros _ [->|Hd]%elem_of_cons; [done|].
  by apply IH.
Qed.

Lemma filter_all {A : Type} (P : A -> Prop) `{!forall x, Decision (P x)} (l : list A) :
  (forall x, x ∈ l -> P x) -> filter P l = l.
Proof.
  induction l as [|x l IH]; intros Hl; [done|]. rewrite filter_cons_True by (apply Hl; by left).
  f_equal. apply IH. intros y Hy. apply Hl. by right.
Qed.

Lemma find_front_ext f g l : (forall d, d ∈ l -> f d = g d) -> find_front f l = find_front g l.
Proof.
  induction l as [|x l IH]; intros Hfg; [done|]. cbn [find_front]. rewrite (Hfg x) by by left.
  rewrite IH; [done|]. intros d Hd. apply Hfg. by right.
Qed.

(** ** Relations between the state before and after

    [m] returns only in states related to the one it started in; a transitive
    relation goes through sequences. *)
Definition krel {S A : Type} (R : S -> S -> Prop) (m : K S A) : Prop := forall s a s', m s = Ret a s' -> R s s'.

Lemma krel_ret {S A : Type} (R : S -> S -> Prop) `{!Reflexive R} (a : A) : krel R (kret a).
Proof. intros s b s' [= <- <-]. reflexivity. Qed.

Lemma krel_none {S A : Type} (R : S -> S -> Prop) (m : K S A) : (forall s a s', m s <> Ret a s') -> krel R m.
Proof. intros Hm s a s' Hs. by apply Hm in Hs. Qed.

Lemma krel_bind {S A B : Type} (R : S -> S -> Prop) `{!Transitive R} (m : K S A) (f : A -> K S B) :
  krel R m -> (forall a, krel R (f a)) -> krel R (kbind m f).
Proof.
  intros Hm Hf s b s' Hs. apply kbind_inv_ret in Hs as (a & s1 & H1 & H2).
  etransitivity; [by eapply Hm|by eapply Hf].
Qed.

Lemma kspec_krel {S A : Type} (R : S -> S -> Prop) (m : K S A) s post fail :
  kspec (m s) post fail -> krel R m -> kspec (m s) (fun a s' => post a s' /\ R s s') fail.
Proof. intros Hm HR. destruct (m s) eqn:E; try done. cbn in *. split; [done|by eapply HR]. Qed.

(** One step of such a proof; the base cases are in the hint database. *)
Create HintDb krel.
Ltac krel :=
  repeat first
    [ progress (auto with krel)
    | apply krel_ret; apply _
    | apply krel_bind; [apply _| |intros ?]
    | case_match
    | by apply krel_none ].
