(* ===== verification/Memory.v ===== *)
(** * Physical memory

    The kernel runs with its RAM direct-mapped, so a kernel pointer is a
    physical address.  Memory is a finite map from addresses to bytes; an
    address that was never written reads as zero.  Multi-byte accesses are
    little-endian, as on RISC-V.  The laws at the end (a load sees the last
    store, a store leaves disjoint ranges alone) are what every component
    that keeps a structure in memory builds on. *)
From S2P Require Import Prelude.

Abbreviation memory := (gmap Z Z).

Definition rd8 (m : memory) (a : Z) : Z := u8 (default 0 (m !! a)).
Definition wr8 (m : memory) (a v : Z) : memory := <[a := u8 v]> m.

(** Little-endian access of [n] bytes. *)
Fixpoint load (n : nat) (m : memory) (a : Z) : Z :=
  match n with
  | O => 0
  | S n' => rd8 m a + 256 * load n' m (a + 1)
  end.

Fixpoint store (n : nat) (m : memory) (a v : Z) : memory :=
  match n with
  | O => m
  | S n' => store n' (wr8 m a v) (a + 1) (v / 256)
  end.

Abbreviation load16 := (load 2).
Abbreviation load32 := (load 4).
Abbreviation load64 := (load 8).
Abbreviation store16 := (store 2).
Abbreviation store32 := (store 4).
Abbreviation store64 := (store 8).

(** A list of bytes read from, and written to, consecutive addresses. *)
Fixpoint rd_bytes (n : nat) (m : memory) (a : Z) : list Z :=
  match n with
  | O => []
  | S n' => rd8 m a :: rd_bytes n' m (a + 1)
  end.

Fixpoint wr_bytes (m : memory) (a : Z) (bs : list Z) : memory :=
  match bs with
  | [] => m
  | b :: bs' => wr_bytes (wr8 m a b) (a + 1) bs'
  end.

(** Two memories that agree on the addresses of a range. *)
Definition mem_agree (lo hi : Z) (m m' : memory) : Prop :=
  forall a, lo <= a < hi -> rd8 m' a = rd8 m a.

(** Two memories that agree everywhere. *)
Definition mem_eq (m m' : memory) : Prop := forall a, rd8 m' a = rd8 m a.

#[export] Instance mem_eq_equivalence : Equivalence mem_eq.
Proof. split; unfold mem_eq; congruence. Qed.

Arguments load : simpl never.
Arguments store : simpl never.

(** ** Laws of single bytes *)

Lemma rd8_range m a : 0 <= rd8 m a < 256.
Proof. apply u8_range. Qed.

Lemma rd8_wr8_eq m a v : rd8 (wr8 m a v) a = u8 v.
Proof. unfold rd8, wr8. rewrite lookup_insert_eq. simpl. ulia. Qed.

Lemma rd8_wr8_ne m a b v : a <> b -> rd8 (wr8 m a v) b = rd8 m b.
Proof. intros Hne. unfold rd8, wr8. by rewrite lookup_insert_ne. Qed.

Lemma rd8_wr8 m a b v : rd8 (wr8 m a v) b = if decide (a = b) then u8 v else rd8 m b.
Proof. case_decide; subst; [apply rd8_wr8_eq | by apply rd8_wr8_ne]. Qed.

(** ** Laws of little-endian accesses *)

Lemma load_S n m a : load (S n) m a = rd8 m a + 256 * load n m (a + 1).
Proof. done. Qed.

Lemma store_S n m a v : store (S n) m a v = store n (wr8 m a v) (a + 1) (v / 256).
Proof. done. Qed.

Lemma load_range n m a : 0 <= load n m a < 256 ^ Z.of_nat n.
Proof.
  revert a. induction n as [|n IH]; intros a; [by vm_compute|].
  rewrite load_S, Nat2Z.inj_succ, Z.pow_succ_r by lia.
  pose proof (rd8_range m a). pose proof (IH (a + 1)). lia.
Qed.

Lemma load_agree n m m' a :
  mem_agree a (a + Z.of_nat n) m m' -> load n m' a = load n m a.
Proof.
  revert a. induction n as [|n IH]; intros a H; [done|].
  rewrite !load_S, H, IH by (unfold mem_agree in *; intros; try apply H; lia). done.
Qed.

Lemma store_other n m a v b :
  b < a \/ a + Z.of_nat n <= b -> rd8 (store n m a v) b = rd8 m b.
Proof.
  revert m a v. induction n as [|n IH]; intros m a v Hb; [done|].
  rewrite store_S, IH, rd8_wr8_ne by lia. done.
Qed.

Lemma load_store_eq n m a v :
  0 <= v < 256 ^ Z.of_nat n -> load n (store n m a v) a = v.
Proof.
  revert m a v. induction n as [|n IH]; intros m a v Hv.
  { change (256 ^ Z.of_nat 0) with 1 in Hv. unfold load. lia. }
  rewrite Nat2Z.inj_succ, Z.pow_succ_r in Hv by lia.
  rewrite store_S, load_S, store_other, rd8_wr8_eq, IH by zlia.
  unfold u8. change (2 ^ 8) with 256. zlia.
Qed.

Lemma load_store_ne k n m a v b :
  b + Z.of_nat k <= a \/ a + Z.of_nat n <= b ->
  load k (store n m a v) b = load k m b.
Proof.
  intros Hd. apply load_agree. intros c Hc. apply store_other. lia.
Qed.

Lemma load64_range m a : 0 <= load64 m a < 2 ^ 64.
Proof. apply (load_range 8). Qed.

Lemma load64_store64_eq m a v : 0 <= v < 2 ^ 64 -> load64 (store64 m a v) a = v.
Proof. apply (load_store_eq 8). Qed.

Lemma load64_store64_ne m a v b :
  b + 8 <= a \/ a + 8 <= b -> load64 (store64 m a v) b = load64 m b.
Proof. apply (load_store_ne 8 8). Qed.

(** ** Laws of byte ranges *)

Lemma length_rd_bytes n m a : length (rd_bytes n m a) = n.
Proof. revert a. induction n; intros; simpl; by f_equal. Qed.

Lemma wr_bytes_other m a bs b :
  b < a \/ a + Z.of_nat (length bs) <= b -> rd8 (wr_bytes m a bs) b = rd8 m b.
Proof.
  revert m a. induction bs as [|x bs IH]; intros m a Hb; [done|].
  simpl in *. rewrite IH, rd8_wr8_ne by lia. done.
Qed.

Lemma wr_bytes_inside m a bs b x :
  a <= b -> bs !! Z.to_nat (b - a) = Some x -> rd8 (wr_bytes m a bs) b = u8 x.
Proof.
  revert m a. induction bs as [|y bs IH]; intros m a Hb Hx; [done|]. simpl.
  destruct (decide (b = a)) as [->|Hne].
  - rewrite wr_bytes_other by lia. rewrite Z.sub_diag in Hx. simpl in Hx.
    simplify_eq. apply rd8_wr8_eq.
  - apply IH; [lia|]. replace (Z.to_nat (b - a)) with (S (Z.to_nat (b - (a + 1)))) in Hx by lia.
    done.
Qed.

Lemma rd_bytes_agree n m m' a :
  mem_agree a (a + Z.of_nat n) m m' -> rd_bytes n m' a = rd_bytes n m a.
Proof.
  revert a. induction n as [|n IH]; intros a H; [done|]. simpl.
  rewrite H, IH by (unfold mem_agree in *; intros; try apply H; lia). done.
Qed.

Lemma rd_bytes_wr_bytes m a bs :
  Forall (fun b => 0 <= b < 256) bs -> rd_bytes (length bs) (wr_bytes m a bs) a = bs.
Proof.
  revert m a. induction bs as [|b bs IH]; intros m a Hb; [done|].
  inversion Hb; subst. simpl. f_equal; [|by apply IH].
  rewrite wr_bytes_other by lia. rewrite rd8_wr8_eq. by apply u8_small.
Qed.

Lemma rd_bytes_lookup n m a i :
  (i < n)%nat -> rd_bytes n m a !! i = Some (rd8 m (a + Z.of_nat i)).
Proof.
  revert a i. induction n as [|n IH]; intros a i Hi; [lia|].
  destruct i as [|i]; simpl; [by rewrite Z.add_0_r|].
  rewrite IH by lia. do 2 f_equal. lia.
Qed.

Lemma rd_bytes_range n m a : Forall (fun b => 0 <= b < 256) (rd_bytes n m a).
Proof. revert a. induction n; intros; simpl; constructor; auto using rd8_range. Qed.

#[export] Hint Resolve rd8_range load_range load64_range rd_bytes_range : kernel.
#[export] Hint Rewrite rd8_wr8_eq : kernel.
#[export] Hint Rewrite rd8_wr8_ne load64_store64_ne load64_store64_eq using lia : kernel.
