(* ===== verification/CString.v ===== *)
(** * Memory and string routines (src/os/mm/utils.cc)

    The freestanding [memmove], [memcpy], [memset], [memchr], [memcmp],
    [strlen], [strcmp], [strncmp], [strncpy] and [safestrcpy], loop by loop, on
    the memory of [Memory].  Loops bounded by a length recurse on it; loops
    that run to a NUL byte take fuel and return [None] when it is spent, and
    the theorems show that a string's length plus one is enough. *)
From S2P Require Import Prelude Memory.

(** ** Definitions *)

(** [for (i = 0; i < n; i++) d[i] = s[i];] from index [i] on. *)
Fixpoint copy_up (n : nat) (m : memory) (d s i : Z) : memory :=
  match n with
  | O => m
  | S n' => copy_up n' (wr8 m (d + i) (rd8 m (s + i))) d s (i + 1)
  end.

(** [for (i = n; i != 0; i--) d[i - 1] = s[i - 1];] *)
Fixpoint copy_down (n : nat) (m : memory) (d s : Z) : memory :=
  match n with
  | O => m
  | S n' => copy_down n' (wr8 m (d + Z.of_nat n') (rd8 m (s + Z.of_nat n'))) d s
  end.

Definition memmove (m : memory) (dest src : Z) (n : nat) : memory :=
  if dest <? src then copy_up n m dest src 0 else copy_down n m dest src.

Definition memcpy (m : memory) (dest src : Z) (n : nat) : memory :=
  copy_up n m dest src 0.

(** [memset] stores the low byte of its [int] argument. *)
Fixpoint memset (m : memory) (s c : Z) (n : nat) : memory :=
  match n with
  | O => m
  | S n' => memset (wr8 m s (u8 c)) (s + 1) c n'
  end.

(** [memchr] returns the address of the first match, 0 when there is none. *)
Fixpoint memchr (m : memory) (s c : Z) (n : nat) : Z :=
  match n with
  | O => 0
  | S n' => if rd8 m s =? u8 c then s else memchr m (s + 1) c n'
  end.

Fixpoint memcmp (m : memory) (s1 s2 : Z) (n : nat) : Z :=
  match n with
  | O => 0
  | S n' =>
      if rd8 m s1 =? rd8 m s2 then memcmp m (s1 + 1) (s2 + 1) n'
      else rd8 m s1 - rd8 m s2
  end.

(** [for (n = 0; s[n]; n++);] *)
Fixpoint strlen_loop (fuel : nat) (m : memory) (s n : Z) : option Z :=
  match fuel with
  | O => None
  | S fuel' => if rd8 m (s + n) =? 0 then Some n else strlen_loop fuel' m s (n + 1)
  end.

Definition strlen (fuel : nat) (m : memory) (s : Z) : option Z :=
  strlen_loop fuel m s 0.

(** [while ( *s1 && *s1 == *s2) s1++, s2++;] *)
Fixpoint strcmp (fuel : nat) (m : memory) (s1 s2 : Z) : option Z :=
  match fuel with
  | O => None
  | S fuel' =>
      if negb (rd8 m s1 =? 0) && (rd8 m s1 =? rd8 m s2)
      then strcmp fuel' m (s1 + 1) (s2 + 1)
      else Some (rd8 m s1 - rd8 m s2)
  end.

(** [while (n > 0 && *p && *p == *q) n--, p++, q++;] *)
Fixpoint strncmp (m : memory) (p q : Z) (n : nat) : Z :=
  match n with
  | O => 0
  | S n' =>
      if negb (rd8 m p =? 0) && (rd8 m p =? rd8 m q)
      then strncmp m (p + 1) (q + 1) n'
      else rd8 m p - rd8 m q
  end.

(** [while (n-- > 0 && ( *s++ = *t++) != 0);] then
    [while (n-- > 0) *s++ = 0;]: the second loop is [memset] with 0. *)
Fixpoint strncpy (m : memory) (s t : Z) (n : nat) : memory :=
  match n with
  | O => m
  | S n' =>
      let m' := wr8 m s (rd8 m t) in
      if rd8 m t =? 0 then memset m' (s + 1) 0 n' else strncpy m' (s + 1) (t + 1) n'
  end.

(** [while (--n > 0 && ( *s++ = *t++) != 0); *s = 0;]; [k] is [n - 1]. *)
Fixpoint safestrcpy_loop (k : nat) (m : memory) (s t : Z) : memory :=
  match k with
  | O => wr8 m s 0
  | S k' =>
      let m' := wr8 m s (rd8 m t) in
      if rd8 m t =? 0 then wr8 m' (s + 1) 0 else safestrcpy_loop k' m' (s + 1) (t + 1)
  end.

Definition safestrcpy (m : memory) (s t n : Z) : memory :=
  if n <=? 0 then m else safestrcpy_loop (Z.to_nat (n - 1)) m s t.

(** A C string: [cs] are the non-zero bytes before the NUL. *)
Fixpoint cstring (m : memory) (s : Z) (cs : list Z) : Prop :=
  match cs with
  | [] => rd8 m s = 0
  | c :: cs' => rd8 m s = c /\ c <> 0 /\ cstring m (s + 1) cs'
  end.

(** Byte-wise lexicographic comparison, the reference for [strcmp]. *)
Fixpoint bytes_compare (l1 l2 : list Z) : Z :=
  match l1, l2 with
  | [], [] => 0
  | [], c :: _ => - c
  | c :: _, [] => c
  | c1 :: l1', c2 :: l2' => if c1 =? c2 then bytes_compare l1' l2' else c1 - c2
  end.

(** ** Block copies *)

Lemma copy_up_spec n m d s i a :
  (d <= s \/ s + i + Z.of_nat n <= d + i \/ d + i + Z.of_nat n <= s + i) ->
  rd8 (copy_up n m d s i) a =
  if decide (d + i <= a < d + i + Z.of_nat n) then rd8 m (s + (a - d)) else rd8 m a.
Proof.
  revert m i. induction n as [|n IH]; intros m i Hd; cbn [copy_up].
  { case_decide; [lia|done]. }
  rewrite IH by lia. rewrite !rd8_wr8.
  repeat case_decide; try lia; subst; try done.
  rewrite u8_small by apply rd8_range. f_equal. lia.
Qed.

Lemma copy_down_spec n m d s a :
  (s <= d \/ d + Z.of_nat n <= s) ->
  rd8 (copy_down n m d s) a =
  if decide (d <= a < d + Z.of_nat n) then rd8 m (s + (a - d)) else rd8 m a.
Proof.
  revert m. induction n as [|n IH]; intros m Hd; cbn [copy_down].
  { case_decide; [lia|done]. }
  rewrite IH by lia. rewrite !rd8_wr8.
  repeat case_decide; try lia; subst; try done.
  rewrite u8_small by apply rd8_range. f_equal. lia.
Qed.

Lemma memset_spec m s c n a :
  rd8 (memset m s c n) a = if decide (s <= a < s + Z.of_nat n) then u8 c else rd8 m a.
Proof.
  revert m s. induction n as [|n IH]; intros m s; cbn [memset].
  { case_decide; [lia|done]. }
  rewrite IH, rd8_wr8. repeat case_decide; try lia; subst; try done.
  rewrite u8_small by apply u8_range. done.
Qed.

Lemma memset_other m s c n a :
  a < s \/ s + Z.of_nat n <= a -> rd8 (memset m s c n) a = rd8 m a.
Proof. intros Ha. rewrite memset_spec. case_decide; [lia|done]. Qed.

Lemma memset_load n m s c k a :
  a + Z.of_nat k <= s \/ s + Z.of_nat n <= a ->
  load k (memset m s c n) a = load k m a.
Proof. intros Ha. apply load_agree. intros b Hb. apply memset_other. lia. Qed.

Lemma memset_zero_load n m s k a :
  s <= a -> a + Z.of_nat k <= s + Z.of_nat n -> load k (memset m s 0 n) a = 0.
Proof.
  revert a. induction k as [|k IH]; intros a H1 H2; [done|].
  rewrite load_S, IH by lia. rewrite memset_spec, decide_True by lia. done.
Qed.

Lemma memcpy_disjoint m d s n :
  (s + Z.of_nat n <= d \/ d + Z.of_nat n <= s) ->
  rd_bytes n (memcpy m d s n) d = rd_bytes n m s.
Proof.
  intros Hd. apply list_eq. intros i.
  destruct (decide (i < n)%nat) as [Hi|Hi].
  - rewrite !rd_bytes_lookup by done. f_equal.
    unfold memcpy. rewrite copy_up_spec by lia. rewrite decide_True by lia. f_equal. lia.
  - rewrite !lookup_ge_None_2 by (rewrite length_rd_bytes; lia). done.
Qed.

Lemma memmove_spec m dest src n a :
  rd8 (memmove m dest src n) a =
  if decide (dest <= a < dest + Z.of_nat n) then rd8 m (src + (a - dest)) else rd8 m a.
Proof.
  unfold memmove. destruct (Z.ltb_spec dest src).
  - rewrite copy_up_spec by lia. by rewrite !Z.add_0_r.
  - apply copy_down_spec. lia.
Qed.

(** [memmove] copies correctly for every overlap of source and
    destination: the destination range afterwards holds the bytes the source
    range held before the call, and no byte outside it changes. *)
Theorem memmove_correct m dest src n :
  rd_bytes n (memmove m dest src n) dest = rd_bytes n m src /\
  forall a, a < dest \/ dest + Z.of_nat n <= a -> rd8 (memmove m dest src n) a = rd8 m a.
Proof.
  split.
  - apply list_eq. intros i. destruct (decide (i < n)%nat) as [Hi|Hi].
    + rewrite !rd_bytes_lookup by done. rewrite memmove_spec, decide_True by lia.
      do 2 f_equal. lia.
    + rewrite !lookup_ge_None_2 by (rewrite length_rd_bytes; lia). done.
  - intros a Ha. rewrite memmove_spec, decide_False by lia. done.
Qed.

(** ** Strings *)

Lemma strlen_loop_spec m s cs fuel n :
  cstring m (s + n) cs -> (length cs < fuel)%nat ->
  strlen_loop fuel m s n = Some (n + Z.of_nat (length cs)).
Proof.
  revert fuel n. induction cs as [|c cs IH]; intros fuel n Hs Hf;
    (destruct fuel as [|fuel]; [simpl in Hf; lia|]); simpl in *.
  - rewrite Hs. simpl. f_equal. lia.
  - destruct Hs as (Hc & Hnz & Hs). rewrite Hc, (proj2 (Z.eqb_neq _ _) Hnz).
    rewrite (IH fuel (n + 1)); [f_equal; lia | by rewrite Z.add_assoc | lia].
Qed.

Lemma strcmp_loop_spec m s1 s2 l1 l2 fuel :
  cstring m s1 l1 -> cstring m s2 l2 -> (Nat.min (length l1) (length l2) < fuel)%nat ->
  strcmp fuel m s1 s2 = Some (bytes_compare l1 l2).
Proof.
  revert l2 s1 s2 fuel. induction l1 as [|c1 l1 IH]; intros l2 s1 s2 fuel H1 H2 Hf;
    (destruct fuel as [|fuel]; [simpl in Hf; lia|]); simpl in *.
  - rewrite H1. simpl. destruct l2 as [|c2 l2]; simpl in *; destruct_and?; f_equal; lia.
  - destruct H1 as (Hc1 & Hnz & H1). rewrite Hc1, (proj2 (Z.eqb_neq _ _) Hnz). simpl.
    destruct l2 as [|c2 l2]; simpl in *.
    + rewrite H2, (proj2 (Z.eqb_neq _ _) Hnz). f_equal. lia.
    + destruct H2 as (Hc2 & _ & H2). rewrite Hc2.
      destruct (c1 =? c2); [|done]. apply IH; [done..|lia].
Qed.

Lemma bytes_compare_zero l1 l2 :
  Forall (fun c => c <> 0) l1 -> Forall (fun c => c <> 0) l2 ->
  bytes_compare l1 l2 = 0 <-> l1 = l2.
Proof.
  revert l2. induction l1 as [|c1 l1 IH]; intros [|c2 l2] H1 H2; simpl;
    try (split; [intros; inversion H1 || inversion H2; subst; lia | discriminate]).
  { done. }
  inversion H1; inversion H2; subst.
  destruct (Z.eqb_spec c1 c2) as [->|Hne].
  - rewrite IH by done. split; congruence.
  - split; [lia|congruence].
Qed.

Lemma cstring_nonzero m s cs : cstring m s cs -> Forall (fun c => c <> 0) cs.
Proof. revert s. induction cs; simpl; intros; destruct_and?; constructor; eauto. Qed.

Lemma cstring_agree m m' s cs :
  mem_agree s (s + Z.of_nat (length cs) + 1) m m' -> cstring m s cs -> cstring m' s cs.
Proof.
  revert s. induction cs as [|c cs IH]; intros s Hag; cbn [cstring length] in *.
  - intros H0. rewrite Hag; [done|lia].
  - intros (Hc & Hnz & Hs). split_and!; [rewrite Hag; [done|lia]|done|].
    apply IH; [|done]. intros a Ha. apply Hag. lia.
Qed.

Lemma strncpy_other m s t n a :
  a < s \/ s + Z.of_nat n <= a -> rd8 (strncpy m s t n) a = rd8 m a.
Proof.
  revert m s t. induction n as [|n IH]; intros m s t Ha; cbn [strncpy]; [done|].
  case_match; rewrite ?memset_other, ?IH, rd8_wr8_ne by lia; done.
Qed.

Lemma rd_bytes_memset_zero k m s n :
  (k <= n)%nat -> rd_bytes k (memset m s 0 n) s = replicate k 0.
Proof.
  intros Hk. apply list_eq. intros i. destruct (decide (i < k)%nat).
  - rewrite rd_bytes_lookup, lookup_replicate_2, memset_spec, decide_True by lia. done.
  - rewrite !lookup_ge_None_2; [done|rewrite length_replicate; lia|rewrite length_rd_bytes; lia].
Qed.

(** [strncpy] into a field that does not overlap the source: the string cut
    to the field, then NUL padding. *)
Lemma strncpy_field m s t cs n :
  cstring m t cs -> s + Z.of_nat n <= t \/ t + Z.of_nat (length cs) < s ->
  rd_bytes n (strncpy m s t n) s = take n (cs ++ replicate n 0).
Proof.
  revert m s t cs. induction n as [|n IH]; intros m s t cs Hs Hd; [done|].
  cbn [strncpy]. destruct cs as [|c cs]; cbn [cstring length] in *.
  - rewrite Hs. cbn [Z.eqb rd_bytes app replicate take].
    rewrite memset_other, rd8_wr8_eq, rd_bytes_memset_zero by lia. f_equal.
    change (0 :: replicate n 0) with (replicate (S n) 0). rewrite take_replicate.
    f_equal. lia.
  - destruct Hs as (Hc & Hnz & Hs).
    rewrite Hc, (proj2 (Z.eqb_neq _ _) Hnz). cbn [rd_bytes app take].
    rewrite strncpy_other, rd8_wr8_eq by lia.
    rewrite u8_small by (rewrite <- Hc; apply rd8_range). f_equal.
    rewrite (IH _ _ _ cs); [| |lia].
    + rewrite replicate_S_end, app_assoc. symmetry. apply take_app_le.
      rewrite length_app, length_replicate. lia.
    + eapply cstring_agree; [|done]. intros a Ha. apply rd8_wr8_ne. lia.
Qed.

(** [strlen] returns, and returns the length of the string. *)
Lemma strlen_correct m s cs :
  cstring m s cs -> strlen (S (length cs)) m s = Some (Z.of_nat (length cs)).
Proof. intros Hs. apply (strlen_loop_spec m s cs _ 0); [by rewrite Z.add_0_r | lia]. Qed.

(** [strcmp] returns on any two C strings; its result is 0 exactly when
    the strings are equal, and otherwise the difference of the first bytes
    that differ, compared as unsigned. *)
Theorem strcmp_correct m s1 s2 l1 l2 :
  cstring m s1 l1 -> cstring m s2 l2 ->
  exists r, strcmp (S (length l1)) m s1 s2 = Some r /\
    r = bytes_compare l1 l2 /\ (r = 0 <-> l1 = l2).
Proof.
  intros H1 H2. exists (bytes_compare l1 l2).
  rewrite (strcmp_loop_spec m s1 s2 l1 l2) by (done || lia).
  split_and!; try done; eapply bytes_compare_zero; eauto using cstring_nonzero.
Qed.

Arguments copy_up : simpl never.
Arguments copy_down : simpl never.
Arguments memset : simpl never.
Arguments memmove : simpl never.
Arguments memcpy : simpl never.
#[global] Opaque copy_up copy_down memset.
