(* ===== verification/Bitmap.v ===== *)
(** * Bitmaps (src/os/utils/bitmap.h)

    A bitmap is an array of [uint64] in memory, given by its base address.
    The file proves that [bitmap_find_first_zero] finds the least clear bit
    (or reports that there is none) and that [bitmap_set] and [bitmap_clear]
    change one bit and no other. *)
From S2P Require Import Prelude Memory.

(** ** Definitions *)

Definition word_at (m : memory) (bitmap i : Z) : Z := load64 m (bitmap + 8 * i).

(** First loop: the first of the [n] words from [i] on that is not all ones,
    [i + n] when there is none. *)
Fixpoint first_free_word (n : nat) (m : memory) (bitmap i : Z) : Z :=
  match n with
  | O => i
  | S n' => if word_at m bitmap i =? 2 ^ 64 - 1 then first_free_word n' m bitmap (i + 1) else i
  end.

(** Second loop: the first of the [n] bits of [w] from [j] on that is clear,
    [j + n] when there is none. *)
Fixpoint first_clear_bit (n : nat) (w j : Z) : Z :=
  match n with
  | O => j
  | S n' => if Z.land w (Z.shiftl 1 j) =? 0 then j else first_clear_bit n' w (j + 1)
  end.

(** [size] is the number of words; the [-1] of the source is returned as a
    [uint32]. *)
Definition bitmap_find_first_zero (m : memory) (bitmap size : Z) : Z :=
  let i := first_free_word (Z.to_nat size) m bitmap 0 in
  if i =? size then u32 (-1)
  else u32 (i * 64 + first_clear_bit 64 (word_at m bitmap i) 0).

Definition bitmap_set (m : memory) (bitmap index : Z) : memory :=
  store64 m (bitmap + 8 * (index / 64))
    (Z.lor (word_at m bitmap (index / 64)) (Z.shiftl 1 (index mod 64))).

Definition bitmap_clear (m : memory) (bitmap index : Z) : memory :=
  store64 m (bitmap + 8 * (index / 64))
    (Z.land (word_at m bitmap (index / 64)) (u64 (Z.lnot (Z.shiftl 1 (index mod 64))))).

Definition bitmap_get (m : memory) (bitmap index : Z) : bool :=
  negb (Z.land (word_at m bitmap (index / 64)) (Z.shiftl 1 (index mod 64)) =? 0).

(** ** The bit a bitmap operation sees *)

Lemma bitmap_get_testbit m bm i :
  bitmap_get m bm i = Z.testbit (word_at m bm (i / 64)) (i mod 64).
Proof.
  unfold bitmap_get. rewrite Z.shiftl_1_l, land_pow2_testbit by zlia.
  by rewrite negb_involutive.
Qed.

Lemma word_at_range m bm i : 0 <= word_at m bm i < 2 ^ 64.
Proof. apply load64_range. Qed.

Lemma set_word_range w k :
  0 <= w < 2 ^ 64 -> 0 <= k < 64 -> 0 <= Z.lor w (Z.shiftl 1 k) < 2 ^ 64.
Proof.
  intros Hw Hk. rewrite Z.shiftl_1_l. split.
  { apply Z.lor_nonneg. split; [lia|]. apply Z.pow_nonneg. lia. }
  assert (0 < 2 ^ k) by (apply Z.pow_pos_nonneg; lia).
  destruct (decide (Z.lor w (2 ^ k) = 0)) as [->|]; [lia|].
  assert (0 <= Z.lor w (2 ^ k)) by (apply Z.lor_nonneg; lia).
  apply Z.log2_lt_pow2; [lia|]. rewrite Z.log2_lor, Z.log2_pow2 by lia.
  assert (Z.log2 w < 64); [|lia].
  destruct (decide (w = 0)) as [->|]; [by vm_compute|]. apply Z.log2_lt_pow2; lia.
Qed.

Lemma clear_word_range w x : 0 <= w < 2 ^ 64 -> 0 <= Z.land w x < 2 ^ 64.
Proof.
  intros Hw. split; [apply Z.land_nonneg; lia|].
  rewrite <- (Z.mod_small w (2 ^ 64)), <- Z.land_ones by lia.
  rewrite <- Z.land_assoc, (Z.land_comm (Z.ones 64)), Z.land_assoc, Z.land_ones by lia.
  apply Z.mod_pos_bound. lia.
Qed.

Lemma word_at_set m bm i j :
  0 <= i -> word_at (bitmap_set m bm i) bm j =
  if decide (j = i / 64) then Z.lor (word_at m bm j) (Z.shiftl 1 (i mod 64)) else word_at m bm j.
Proof.
  intros Hi. unfold bitmap_set, word_at. case_decide as Hj.
  - subst j. rewrite load64_store64_eq; [done|].
    apply set_word_range; [apply load64_range | zlia].
  - rewrite load64_store64_ne by lia. done.
Qed.

Lemma word_at_clear m bm i j :
  0 <= i -> word_at (bitmap_clear m bm i) bm j =
  if decide (j = i / 64) then Z.ldiff (word_at m bm j) (Z.shiftl 1 (i mod 64)) else word_at m bm j.
Proof.
  intros Hi. unfold bitmap_clear, word_at. case_decide as Hj.
  - subst j. rewrite load64_store64_eq by apply clear_word_range, load64_range.
    pose proof (load64_range m (bm + 8 * (i / 64))) as Hw.
    set (w := load64 m _) in *. bitwise. unfold u64.
    destruct (Z.lt_ge_cases n 64).
    + rewrite Z.mod_pow2_bits_low, Z.lnot_spec, Z.shiftl_spec by lia. done.
    + rewrite <- (Z.mod_small w (2 ^ 64)), Z.mod_pow2_bits_high by lia. done.
  - rewrite load64_store64_ne by lia. done.
Qed.

(** [bitmap_set] sets bit [i] and leaves every other bit as it was. *)
Theorem bitmap_set_get m bm i j :
  0 <= i -> 0 <= j ->
  bitmap_get (bitmap_set m bm i) bm j = bool_decide (i = j) || bitmap_get m bm j.
Proof.
  intros Hi Hj. rewrite !bitmap_get_testbit, word_at_set by done.
  case_decide as Hw.
  - rewrite Z.lor_spec, Z.shiftl_1_l, testbit_pow2 by zlia.
    rewrite orb_comm. f_equal. apply bool_decide_ext. zlia.
  - rewrite bool_decide_eq_false_2; [done|]. intros ->. done.
Qed.

Lemma clear_get_spec m bm i j :
  0 <= i -> 0 <= j ->
  bitmap_get (bitmap_clear m bm i) bm j = negb (bool_decide (i = j)) && bitmap_get m bm j.
Proof.
  intros Hi Hj. rewrite !bitmap_get_testbit, word_at_clear by done.
  case_decide as Hw.
  - rewrite Z.ldiff_spec, Z.shiftl_1_l, testbit_pow2 by zlia.
    rewrite andb_comm. do 2 f_equal. apply bool_decide_ext. zlia.
  - rewrite bool_decide_eq_false_2; [done|]. intros ->. done.
Qed.

(** [bitmap_clear] clears bit [i] and leaves every other bit as it was. *)
Theorem bitmap_clear_get m bm i j :
  0 <= i -> 0 <= j ->
  bitmap_get (bitmap_clear m bm i) bm j = negb (bool_decide (i = j)) && bitmap_get m bm j.
Proof. apply clear_get_spec. Qed.

(** ** The search *)

Lemma first_free_word_spec n m bm i :
  let r := first_free_word n m bm i in
  i <= r <= i + Z.of_nat n /\
  (forall k, i <= k < r -> word_at m bm k = 2 ^ 64 - 1) /\
  (r < i + Z.of_nat n -> word_at m bm r <> 2 ^ 64 - 1).
Proof.
  revert i. induction n as [|n IH]; intros i; cbn [first_free_word].
  { split_and!; intros; lia. }
  destruct (Z.eqb_spec (word_at m bm i) (2 ^ 64 - 1)) as [He|Hne].
  - destruct (IH (i + 1)) as (H1 & H2 & H3). split_and!; [lia|lia| |intros; apply H3; lia].
    intros k Hk. destruct (decide (k = i)) as [->|]; [done|]. apply H2. lia.
  - split_and!; [lia|lia| |done]. intros; lia.
Qed.

Lemma first_clear_bit_spec n w j :
  0 <= j ->
  let r := first_clear_bit n w j in
  j <= r <= j + Z.of_nat n /\
  (forall k, j <= k < r -> Z.testbit w k = true) /\
  (r < j + Z.of_nat n -> Z.testbit w r = false).
Proof.
  revert j. induction n as [|n IH]; intros j Hj; cbn [first_clear_bit].
  { split_and!; intros; lia. }
  rewrite Z.shiftl_1_l, land_pow2_testbit by done.
  destruct (Z.testbit w j) eqn:Hb; simpl.
  - destruct (IH (j + 1)) as (H1 & H2 & H3); [lia|].
    split_and!; [lia|lia| |intros; apply H3; lia].
    intros k Hk. destruct (decide (k = j)) as [->|]; [done|]. apply H2. lia.
  - split_and!; [lia|lia| |done]. intros; lia.
Qed.

(** A word that is not all ones has a clear bit. *)
Lemma first_clear_bit_found w :
  0 <= w < 2 ^ 64 -> w <> 2 ^ 64 - 1 -> 0 <= first_clear_bit 64 w 0 < 64.
Proof.
  intros Hw Hne. destruct (first_clear_bit_spec 64 w 0) as (H1 & H2 & _); [lia|].
  destruct (decide (first_clear_bit 64 w 0 = 64)) as [He|]; [|lia].
  exfalso. apply Hne. change (2 ^ 64 - 1) with (Z.ones 64).
  rewrite <- (Z.mod_small w (2 ^ 64)) by lia. bitwise.
  destruct (Z.lt_ge_cases n 64).
  - rewrite Z.mod_pow2_bits_low, H2, Z.ones_spec_low by lia. done.
  - rewrite Z.mod_pow2_bits_high, Z.ones_spec_high by lia. done.
Qed.

Lemma all_ones_testbit k : 0 <= k < 64 -> Z.testbit (2 ^ 64 - 1) k = true.
Proof. intros. change (2 ^ 64 - 1) with (Z.ones 64). by apply Z.ones_spec_low. Qed.

Lemma find_first_zero_spec m bm size :
  0 <= size -> 64 * size < 2 ^ 32 ->
  let r := bitmap_find_first_zero m bm size in
  (r = 2 ^ 32 - 1 /\ forall i, 0 <= i < 64 * size -> bitmap_get m bm i = true) \/
  (0 <= r < 64 * size /\ bitmap_get m bm r = false /\
   forall i, 0 <= i < r -> bitmap_get m bm i = true).
Proof.
  intros H0 Hlt r. subst r. unfold bitmap_find_first_zero.
  destruct (first_free_word_spec (Z.to_nat size) m bm 0) as (Hr & Hfull & Hfree).
  set (i := first_free_word _ m bm 0) in *.
  assert (forall k, 0 <= k < 64 * i -> bitmap_get m bm k = true) as Hones.
  { intros k Hk. rewrite bitmap_get_testbit, Hfull by zlia. apply all_ones_testbit. zlia. }
  destruct (Z.eqb_spec i size) as [->|Hne]; [left; split; [done | apply Hones]|right].
  pose proof (first_clear_bit_found (word_at m bm i) (word_at_range m bm i)
    (Hfree ltac:(lia))) as Hj.
  destruct (first_clear_bit_spec 64 (word_at m bm i) 0) as (_ & Hset & Hclear); [lia|].
  set (j := first_clear_bit 64 _ 0) in *.
  rewrite u32_small by lia.
  assert (forall b, 0 <= b < 64 -> (i * 64 + b) / 64 = i /\ (i * 64 + b) mod 64 = b) as Hdm
    by (intros; zlia).
  split_and!; [lia|lia| |].
  - rewrite bitmap_get_testbit. destruct (Hdm j Hj) as [-> ->]. apply Hclear. lia.
  - intros k Hk. destruct (decide (k < 64 * i)) as [|Hge]; [apply Hones; lia|].
    replace k with (i * 64 + (k - i * 64)) by lia. rewrite bitmap_get_testbit.
    destruct (Hdm (k - i * 64)) as [-> ->]; [lia|]. apply Hset. lia.
Qed.

(** [bitmap_find_first_zero] over [size] words returns the least index
    whose bit is clear, and [(uint32)-1] exactly when every bit is set. *)
Theorem bitmap_find_first_zero_correct m bm size :
  0 <= size -> 64 * size < 2 ^ 32 ->
  let r := bitmap_find_first_zero m bm size in
  (r = 2 ^ 32 - 1 /\ forall i, 0 <= i < 64 * size -> bitmap_get m bm i = true) \/
  (0 <= r < 64 * size /\ bitmap_get m bm r = false /\
   forall i, 0 <= i < r -> bitmap_get m bm i = true).
Proof. apply find_first_zero_spec. Qed.
