(* ===== verification/Riscv.v ===== *)
(** * Architecture constants (src/os/arch/riscv.h, src/os/mm/layout.h)

    Page size and rounding, Sv39 page-table entries and virtual-address
    fields, and the kernel's memory layout, as the macros compute them on
    [uint64]. *)
From S2P Require Import Prelude.

(** ** Definitions *)

Definition PGSIZE : Z := 4096.
Definition PGSHIFT : Z := 12.

(** [((sz) + PGSIZE - 1) & ~(PGSIZE - 1)] *)
Definition PGROUNDUP (sz : Z) : Z := Z.land (u64 (sz + PGSIZE - 1)) (Z.lnot (PGSIZE - 1)).
(** [(a) & ~(PGSIZE - 1)] *)
Definition PGROUNDDOWN (a : Z) : Z := Z.land a (Z.lnot (PGSIZE - 1)).

Definition PTE_V : Z := Z.shiftl 1 0.
Definition PTE_R : Z := Z.shiftl 1 1.
Definition PTE_W : Z := Z.shiftl 1 2.
Definition PTE_X : Z := Z.shiftl 1 3.
Definition PTE_U : Z := Z.shiftl 1 4.

Definition PTE_MT_OFFSET : Z := 61.
Definition PTE_MT_MASK : Z := Z.shiftl 3 PTE_MT_OFFSET.
Definition PTE_MT_PMA : Z := Z.shiftl 0 PTE_MT_OFFSET.
Definition PTE_MT_NC : Z := Z.shiftl 1 PTE_MT_OFFSET.
Definition PTE_MT_IO : Z := Z.shiftl 2 PTE_MT_OFFSET.

Definition HAS_BIT (val bit : Z) : bool := negb (Z.land val bit =? 0).

Definition PA2PTE (pa : Z) : Z := u64 (Z.shiftl (Z.shiftr pa 12) 10).
Definition PTE2PA (pte : Z) : Z := u64 (Z.shiftl (Z.shiftr pte 10) 12).
Definition PTE_FLAGS (pte : Z) : Z := Z.land pte 1023.

Definition PXMASK : Z := 511.
Definition PXSHIFT (level : Z) : Z := PGSHIFT + 9 * level.
Definition PX (level va : Z) : Z := Z.land (Z.shiftr va (PXSHIFT level)) PXMASK.

Definition MAXVA : Z := Z.shiftl 1 (9 + 9 + 9 + 12 - 1).

Definition SATP_SV39 : Z := Z.shiftl 8 60.
Definition MAKE_SATP (pagetable : Z) : Z := Z.lor SATP_SV39 (Z.shiftr pagetable 12).

Definition KERNBASE : Z := 0x80200000.
Definition IO_MEM_START : Z := 0x80000000 + 127 * 1024 * 1024.
Definition PHYSTOP : Z := 0x80000000 + 128 * 1024 * 1024.
Definition VMEM_START : Z := 0x0100000000.
Definition MMAP_START : Z := 0x2000000000.
Definition KSTACK_SIZE : Z := 8192.
Definition USTACK_SIZE : Z := 4096.
Definition USER_TOP : Z := 0x2000000000.
Definition TRAMPOLINE : Z := MAXVA - PGSIZE.
Definition TRAPFRAME_SIZE : Z := PGSIZE.
Definition TRAPFRAME : Z := TRAMPOLINE - TRAPFRAME_SIZE.
Definition USER_STACK_BOTTOM : Z := USER_TOP.
Definition USER_STACK_TOP : Z := USER_TOP - USTACK_SIZE.
Definition USER_TEXT_START : Z := 0x1000.
Definition UART0 : Z := 0x10000000.
Definition VIRTIO0 : Z := 0x10001000.
Definition VIRTIO0_IRQ : Z := 1.
Definition PLIC : Z := 0x0c000000.
Definition PLIC_SENABLE (hart : Z) : Z := PLIC + 0x2080 + hart * 0x100.
Definition PLIC_SPRIORITY (hart : Z) : Z := PLIC + 0x201000 + hart * 0x2000.
Definition PLIC_SCLAIM (hart : Z) : Z := PLIC + 0x201004 + hart * 0x2000.

(** ** Rounding *)

Lemma PGROUNDDOWN_eq a : PGROUNDDOWN a = a - a mod 4096.
Proof. unfold PGROUNDDOWN, PGSIZE. apply (land_lnot_ones a 12). lia. Qed.

Lemma PGROUNDUP_eq a : 0 <= a <= 2 ^ 64 - 4096 -> PGROUNDUP a = (a + 4095) / 4096 * 4096.
Proof.
  intros Ha. unfold PGROUNDUP, PGSIZE. rewrite u64_small by lia.
  change (4096 - 1) with (Z.ones 12). rewrite land_lnot_ones by lia.
  change (2 ^ 12) with 4096. zlia.
Qed.

Lemma PGROUNDDOWN_aligned a : a mod 4096 = 0 -> PGROUNDDOWN a = a.
Proof. rewrite PGROUNDDOWN_eq. lia. Qed.

Lemma PGROUNDDOWN_bounds a : PGROUNDDOWN a <= a < PGROUNDDOWN a + 4096 /\ PGROUNDDOWN a mod 4096 = 0.
Proof. rewrite PGROUNDDOWN_eq. zlia. Qed.

(** Rounding up a size gives the least multiple of the page size that is
    at least the size, for every size whose rounding fits 64 bits. *)
Lemma PGROUNDUP_least a :
  0 <= a <= 2 ^ 64 - 4096 ->
  a <= PGROUNDUP a < a + 4096 /\ PGROUNDUP a mod 4096 = 0 /\
  forall b, b mod 4096 = 0 -> a <= b -> PGROUNDUP a <= b.
Proof. intros Ha. rewrite PGROUNDUP_eq by done. split_and!; intros; zlia. Qed.

(** ** Page-table entries *)

Lemma PX_eq level va : 0 <= level -> PX level va = (va / 2 ^ (12 + 9 * level)) mod 512.
Proof.
  intros Hl. unfold PX, PXMASK, PXSHIFT, PGSHIFT.
  change 511 with (Z.ones 9). rewrite Z.land_ones, Z.shiftr_div_pow2 by lia. done.
Qed.

Lemma PX_range level va : 0 <= level -> 0 <= PX level va < 512.
Proof. intros. rewrite PX_eq by done. apply Z.mod_pos_bound. lia. Qed.

Lemma PA2PTE_eq pa : 0 <= pa < 2 ^ 56 -> PA2PTE pa = pa / 4096 * 1024.
Proof.
  intros. unfold PA2PTE. rewrite Z.shiftl_mul_pow2, Z.shiftr_div_pow2 by lia.
  change (2 ^ 12) with 4096. change (2 ^ 10) with 1024. apply u64_small. zlia.
Qed.

Lemma PTE2PA_eq pte : 0 <= pte < 2 ^ 62 -> PTE2PA pte = pte / 1024 * 4096.
Proof.
  intros. unfold PTE2PA. rewrite Z.shiftl_mul_pow2, Z.shiftr_div_pow2 by lia.
  change (2 ^ 12) with 4096. change (2 ^ 10) with 1024. apply u64_small. zlia.
Qed.

(** Or-ing flags below bit 10 into the shifted page number is addition. *)
Lemma lor_low_flags x f : 0 <= f < 1024 -> Z.lor (x * 1024) f = x * 1024 + f.
Proof.
  intros Hf. change 1024 with (2 ^ 10) in *. rewrite <- Z.shiftl_mul_pow2 by lia.
  symmetry. apply Z.add_nocarry_lor.
  rewrite <- (Z.mod_small f (2 ^ 10)) by done. bitwise. rewrite Z.testbit_0_l.
  destruct (Z.lt_ge_cases n 10).
  - by rewrite Z.testbit_neg_r by lia.
  - by rewrite Z.mod_pow2_bits_high, andb_false_r by lia.
Qed.

Lemma PA2PTE_lor pa f :
  0 <= pa < 2 ^ 56 -> 0 <= f < 1024 -> Z.lor (PA2PTE pa) f = pa / 4096 * 1024 + f.
Proof. intros. rewrite PA2PTE_eq by done. by apply lor_low_flags. Qed.

Lemma lor_flags_range f g : 0 <= f < 1024 -> 0 <= g < 1024 -> 0 <= Z.lor f g < 1024.
Proof.
  intros Hf Hg. split; [apply Z.lor_nonneg; lia|].
  destruct (decide (Z.lor f g = 0)) as [->|]; [lia|].
  assert (0 <= Z.lor f g) by (apply Z.lor_nonneg; lia).
  apply (Z.log2_lt_pow2 _ 10); [lia|]. rewrite Z.log2_lor by lia.
  apply Z.max_lub_lt.
  - destruct (decide (f = 0)) as [->|]; [by vm_compute|]. apply Z.log2_lt_pow2; lia.
  - destruct (decide (g = 0)) as [->|]; [by vm_compute|]. apply Z.log2_lt_pow2; lia.
Qed.

(** Encoding a page-aligned physical address with its flags as a
    page-table entry and decoding it gives the address and the flags back. *)
Lemma pte_roundtrip pa flags :
  0 <= pa < 2 ^ 56 -> pa mod PGSIZE = 0 -> 0 <= flags < 1024 ->
  PTE2PA (Z.lor (PA2PTE pa) flags) = pa /\ PTE_FLAGS (Z.lor (PA2PTE pa) flags) = flags.
Proof.
  intros Hpa Hal Hf. unfold PGSIZE in Hal. rewrite PA2PTE_lor by done. split.
  - rewrite PTE2PA_eq by zlia. zlia.
  - unfold PTE_FLAGS. change 1023 with (Z.ones 10). rewrite Z.land_ones by lia.
    change (2 ^ 10) with 1024. zlia.
Qed.

(** The three indices and the page offset determine a virtual address. *)
Lemma va_split va :
  0 <= va < MAXVA ->
  va = PX 2 va * 2 ^ 30 + PX 1 va * 2 ^ 21 + PX 0 va * 2 ^ 12 + va mod 4096.
Proof.
  intros Hva. unfold MAXVA in Hva. rewrite Z.shiftl_1_l in Hva.
  rewrite !PX_eq by lia. change (12 + 9 * 2) with 30. change (12 + 9 * 1) with 21.
  change (12 + 9 * 0) with 12. zlia.
Qed.
