(* ===== verification/PageAlloc.v ===== *)
(** * The physical page allocator (src/os/mm/allocator.h, class [allocator])

    Free pages form a singly linked list threaded through the pages
    themselves: the first eight bytes of a free page hold the address of the
    next one.  The file models the constructor, [free_page] and [alloc_page] on
    the machine's memory and proves that they implement a set of free pages:
    the representation invariant is preserved, a page is handed out at most
    once until it is freed, and no page is lost.

    Each operation runs under the allocator's spinlock, so it is one atomic
    step here.  The [MEMORY_DEBUG] fills are not compiled in the default
    build (DEBUG_MODE=0) and are not modelled. *)
From S2P Require Import Prelude Memory Riscv.

(** ** Definitions *)

Record page_allocator := PageAllocator {
  free_page_list : Z;
  free_page_count : Z;
  pa_start : Z;
  pa_end : Z
}.

(** The state kernel memory code works on: RAM and the kernel's allocator. *)
Record machine := Machine { ram : memory; pages : page_allocator }.

Definition set_ram (f : memory -> memory) (s : machine) : machine :=
  Machine (f (ram s)) (pages s).

Definition free_page (pa : Z) : K machine unit := fun s =>
  let al := pages s in
  if pa =? 0 then Ret tt s
  else if negb (pa mod PGSIZE =? 0) || ((pa <? pa_start al) || (pa_end al <=? pa)) then Panic
  else Ret tt (Machine (store64 (ram s) pa (free_page_list al))
         (PageAllocator pa (u64 (free_page_count al + 1)) (pa_start al) (pa_end al))).

Definition alloc_page : K machine Z := fun s =>
  let al := pages s in
  if free_page_list al =? 0 then Ret 0 s
  else
    let page := free_page_list al in
    Ret page (Machine (ram s)
      (PageAllocator (load64 (ram s) page) (u64 (free_page_count al - 1)) (pa_start al) (pa_end al))).

Definition get_free_page_count (s : machine) : Z := free_page_count (pages s).

(** [for (p = start; p < end; p += PGSIZE) free_page(p);] *)
Fixpoint free_pages_loop (fuel : nat) (p e : Z) : K machine unit :=
  match fuel with
  | O => kfuel
  | S fuel' => if p <? e then free_page p ;;; free_pages_loop fuel' (p + PGSIZE) e else kret tt
  end.

(** The constructor: the object starts with an empty list and zero count. *)
Definition allocator_init (fuel : nat) (m : memory) (start_ end_ : Z) : outcome machine unit :=
  let st := PGROUNDUP start_ in
  let en := PGROUNDDOWN end_ in
  free_pages_loop fuel st en (Machine m (PageAllocator 0 0 st en)).

(** ** The representation invariant *)

(** [l] is the chain of free pages that starts at [p]. *)
Fixpoint free_list (m : memory) (p : Z) (l : list Z) : Prop :=
  match l with
  | [] => p = 0
  | x :: l' => p = x /\ free_list m (load64 m x) l'
  end.

Definition page_ok (al : page_allocator) (p : Z) : Prop :=
  p mod PGSIZE = 0 /\ pa_start al <= p < pa_end al.

(** The allocator manages pages of RAM, never page 0. *)
Record pages_inv (s : machine) (l : list Z) : Prop := {
  pi_bounds : 0 < pa_start (pages s) /\ pa_end (pages s) <= 2 ^ 56;
  pi_list : free_list (ram s) (free_page_list (pages s)) l;
  pi_nodup : NoDup l;
  pi_pages : Forall (page_ok (pages s)) l;
  pi_count : free_page_count (pages s) = Z.of_nat (length l)
}.

(** ** Lemmas on the chain *)

Lemma free_list_agree m m' p l :
  (forall x, x ∈ l -> load64 m' x = load64 m x) -> free_list m p l -> free_list m' p l.
Proof.
  revert p. induction l as [|x l IH]; intros p Hag; simpl; [done|].
  intros [-> Hl]. split; [done|]. rewrite Hag by set_solver.
  apply IH; [|done]. intros. apply Hag. set_solver.
Qed.

Lemma page_ok_disjoint al p q :
  page_ok al p -> page_ok al q -> p <> q -> p + 4096 <= q \/ q + 4096 <= p.
Proof. unfold page_ok, PGSIZE. intros [Hp _] [Hq _] Hne. zlia. Qed.

(** A chain without repetitions has fewer pages than the range has. *)
Lemma pages_length_bound l e :
  NoDup l -> (forall p, p ∈ l -> p mod 4096 = 0 /\ 0 < p < e) -> 0 <= e ->
  Z.of_nat (length l) <= e / 4096 + 1.
Proof.
  intros Hnd Hl He.
  assert (l ⊆+ ((fun k => k * 4096) <$> seqZ 0 (e / 4096 + 1))) as Hsub.
  { apply NoDup_submseteq; [done|]. intros p Hp. apply Hl in Hp as (Hal & Hr).
    apply list_elem_of_fmap. exists (p / 4096). rewrite elem_of_seqZ. zlia. }
  apply submseteq_length in Hsub. rewrite length_fmap, length_seqZ in Hsub. zlia.
Qed.

Lemma pages_inv_count_bound s l : pages_inv s l -> Z.of_nat (length l) < 2 ^ 60.
Proof.
  intros [Hb Hl Hnd Hp Hc].
  assert (Z.of_nat (length l) <= 2 ^ 56 / 4096 + 1) as Hlen; [|vm_compute (2 ^ 56 / 4096) in Hlen; lia].
  apply pages_length_bound; [done| |lia]. rewrite Forall_forall in Hp.
  unfold page_ok, PGSIZE in Hp. intros p Hin. specialize (Hp p Hin). lia.
Qed.

Lemma pages_inv_free_pages s l p : pages_inv s l -> p ∈ l -> page_ok (pages s) p /\ 0 < p < 2 ^ 56.
Proof.
  intros [Hb _ _ Hp _] Hin. rewrite Forall_forall in Hp. specialize (Hp p Hin).
  unfold page_ok in *. lia.
Qed.

(** Client code that leaves the link words of the free pages alone keeps the
    invariant. *)
Lemma pages_inv_client_write s l f :
  pages_inv s l -> (forall p, p ∈ l -> load64 (f (ram s)) p = load64 (ram s) p) ->
  pages_inv (set_ram f s) l.
Proof.
  intros [Hb Hl Hnd Hp Hc] Hag. split; try done. simpl. by eapply free_list_agree.
Qed.

(** ** The operations *)

(** [free_page] of an allocated page of the range puts it at the head of
    the free list: the invariant holds with one more page and only the
    page's link word is written. *)
Lemma free_page_correct s l p :
  pages_inv s l -> page_ok (pages s) p -> p ∉ l ->
  exists s', free_page p s = Ret tt s' /\ pages_inv s' (p :: l) /\
    pa_start (pages s') = pa_start (pages s) /\ pa_end (pages s') = pa_end (pages s) /\
    forall a, a < p \/ p + 8 <= a -> rd8 (ram s') a = rd8 (ram s) a.
Proof.
  intros Hinv Hok Hnot. pose proof (pages_inv_count_bound s l Hinv) as Hcb.
  destruct Hinv as [Hb Hl Hnd Hp Hc]. pose proof Hok as Hok'. destruct Hok' as [Hal Hr].
  unfold free_page. rewrite (proj2 (Z.eqb_neq p 0)) by lia.
  rewrite (proj2 (Z.eqb_eq _ 0) Hal), (proj2 (Z.ltb_ge _ _)), (proj2 (Z.leb_gt _ _)) by lia.
  eexists. split; [done|]. split_and!; try done; [|intros; by apply store_other].
  split; simpl; try done.
  - split; [done|]. assert (0 <= free_page_list (pages s) < 2 ^ 64) as Hhd.
    { destruct l as [|x l]; simpl in Hl; [lia|]. destruct Hl as [-> _].
      inversion Hp as [|?? Hx _]; subst. unfold page_ok in Hx. lia. }
    rewrite load64_store64_eq by done. eapply free_list_agree; [|done].
    intros x Hx. rewrite Forall_forall in Hp.
    assert (p <> x) by congruence.
    destruct (page_ok_disjoint (pages s) p x Hok (Hp x Hx)); [done| |];
      rewrite load64_store64_ne by lia; done.
  - by constructor.
  - by constructor.
  - rewrite Hc, u64_small by lia. lia.
Qed.

(** [alloc_page] on a non-empty free list takes its head: the invariant
    holds with that page removed and memory is unchanged; on an empty list it
    returns null and changes nothing. *)
Lemma alloc_page_correct s l :
  pages_inv s l ->
  match l with
  | [] => alloc_page s = Ret 0 s
  | p :: l' => exists s', alloc_page s = Ret p s' /\ pages_inv s' l' /\ ram s' = ram s /\
      pa_start (pages s') = pa_start (pages s) /\ pa_end (pages s') = pa_end (pages s)
  end.
Proof.
  intros Hinv. pose proof (pages_inv_count_bound s l Hinv) as Hcb.
  destruct Hinv as [Hb Hl Hnd Hp Hc]. unfold alloc_page. destruct l as [|p l]; simpl in Hl.
  { by rewrite Hl. }
  destruct Hl as [-> Hl]. inversion Hnd; inversion Hp as [|?? Hpok]; subst.
  unfold page_ok in Hpok. rewrite (proj2 (Z.eqb_neq p 0)) by lia.
  eexists. split; [done|]. split_and!; try done. split; simpl; try done.
  simpl in Hc, Hcb. rewrite Hc, u64_small by lia. lia.
Qed.

(** [free_page] rejects what is not a page of the range: it panics. *)
Theorem free_page_rejects s p :
  p <> 0 -> ~ page_ok (pages s) p -> free_page p s = Panic.
Proof.
  intros H0 Hbad. unfold free_page. rewrite (proj2 (Z.eqb_neq p 0)) by done.
  destruct (Z.eqb_spec (p mod PGSIZE) 0), (Z.ltb_spec p (pa_start (pages s))),
    (Z.leb_spec (pa_end (pages s)) p); simpl; try done.
  exfalso. apply Hbad. unfold page_ok. lia.
Qed.

(** The pages [p, p + PGSIZE, ...] pushed one after the other. *)
Fixpoint pages_from (n : nat) (p : Z) : list Z :=
  match n with
  | O => []
  | S n' => p :: pages_from n' (p + PGSIZE)
  end.

Lemma length_pages_from n p : length (pages_from n p) = n.
Proof. revert p. induction n; intros; cbn [pages_from length]; by f_equal. Qed.

Lemma elem_of_pages_from n p q :
  q ∈ pages_from n p <-> exists i, 0 <= i < Z.of_nat n /\ q = p + i * PGSIZE.
Proof.
  revert p. induction n as [|n IH]; intros p; cbn [pages_from].
  - rewrite elem_of_nil. split; [done|]. intros (i & Hi & _). lia.
  - rewrite elem_of_cons, IH. split.
    + intros [->|(i & Hi & ->)]; [exists 0; lia|]. exists (i + 1). lia.
    + intros (i & Hi & ->). destruct (decide (i = 0)) as [->|]; [left; lia|].
      right. exists (i - 1). lia.
Qed.

Lemma free_pages_loop_spec n fuel p s l :
  pages_inv s l -> p mod PGSIZE = 0 -> pa_start (pages s) <= p ->
  pa_end (pages s) = p + Z.of_nat n * PGSIZE ->
  (forall q, q ∈ l -> q < p) -> (n < fuel)%nat ->
  exists s', free_pages_loop fuel p (pa_end (pages s)) s = Ret tt s' /\
    pages_inv s' (rev (pages_from n p) ++ l) /\
    pa_start (pages s') = pa_start (pages s) /\ pa_end (pages s') = pa_end (pages s).
Proof.
  revert fuel p s l. induction n as [|n IH]; intros fuel p s l Hinv Hal Hs He Hl Hf;
    (destruct fuel as [|fuel]; [lia|]); cbn [free_pages_loop]; unfold PGSIZE in *.
  - rewrite (proj2 (Z.ltb_ge _ _)) by lia. eexists. split; [done|]. done.
  - rewrite (proj2 (Z.ltb_lt _ _)) by lia.
    destruct (free_page_correct s l p) as (s1 & Hrun & Hinv1 & Hst & Hen & _);
      [done| | |].
    { unfold page_ok, PGSIZE. lia. }
    { intros Hin. specialize (Hl p Hin). lia. }
    rewrite (kbind_ret _ _ _ _ _ Hrun), <- Hen.
    destruct (IH fuel (p + 4096) s1 (p :: l)) as (s2 & Hrun2 & Hinv2 & Hst2 & Hen2);
      [done|zlia|lia|lia| |lia|].
    { intros q [->|Hin]%elem_of_cons; [lia|]. specialize (Hl q Hin). lia. }
    exists s2. split; [done|]. rewrite Hst2, Hen2. split_and!; [|congruence..].
    cbn [pages_from rev]. unfold PGSIZE. rewrite <- app_assoc. done.
Qed.

(** The constructor returns (one loop round per page is enough) and
    leaves every page of the rounded range on the free list, once each. *)
Theorem allocator_init_correct m start_ end_ :
  0 < start_ <= 2 ^ 56 - 4096 -> PGROUNDUP start_ <= PGROUNDDOWN end_ -> end_ <= 2 ^ 56 ->
  let n := Z.to_nat ((PGROUNDDOWN end_ - PGROUNDUP start_) / PGSIZE) in
  exists s, allocator_init (S n) m start_ end_ = Ret tt s /\
    pages_inv s (rev (pages_from n (PGROUNDUP start_))) /\
    get_free_page_count s = Z.of_nat n.
Proof.
  intros Hs Hle He n. unfold allocator_init.
  destruct (PGROUNDUP_least start_) as (Hup & Hual & _); [lia|].
  destruct (PGROUNDDOWN_bounds end_) as [Hdn Hdal].
  set (s0 := Machine m (PageAllocator 0 0 (PGROUNDUP start_) (PGROUNDDOWN end_))).
  assert (pages_inv s0 []) as Hinv0.
  { split; simpl; try done; [lia|constructor]. }
  destruct (free_pages_loop_spec n (S n) (PGROUNDUP start_) s0 []) as (s & Hrun & Hinv & _);
    [done|done|done| | |lia|].
  { subst n. cbn [pages pa_end s0]. unfold PGSIZE. zlia. }
  { intros q Hq. by apply elem_of_nil in Hq. }
  exists s. rewrite app_nil_r in Hinv. split_and!; [done|done|].
  unfold get_free_page_count. rewrite (pi_count _ _ Hinv), length_rev.
  by rewrite length_pages_from.
Qed.

(** ** What clients see

    A client of the allocator allocates pages, frees pages it holds, and
    writes inside pages it holds.  The state below pairs the machine with the
    set of pages that are held. *)
Inductive client_step : machine * gset Z -> machine * gset Z -> Prop :=
| client_alloc s s' held p :
    alloc_page s = Ret p s' -> p <> 0 ->
    client_step (s, held) (s', {[p]} ∪ held)
| client_alloc_fail s s' held :
    alloc_page s = Ret 0 s' ->
    client_step (s, held) (s', held)
| client_free s s' held p :
    p ∈ held -> free_page p s = Ret tt s' ->
    client_step (s, held) (s', held ∖ {[p]})
| client_write s held p a v :
    p ∈ held -> p <= a < p + PGSIZE ->
    client_step (s, held) (set_ram (fun m => wr8 m a v) s, held).

(** Every page of the managed set is either free or held, never both. *)
Record client_inv (all : gset Z) (sh : machine * gset Z) (l : list Z) : Prop := {
  ci_pages : pages_inv sh.1 l;
  ci_all : list_to_set l ∪ sh.2 = all;
  ci_disj : forall p, p ∈ sh.2 -> p ∉ l;
  ci_ok : forall p, p ∈ all -> page_ok (pages sh.1) p
}.

Lemma page_ok_ext al al' p :
  pa_start al' = pa_start al -> pa_end al' = pa_end al -> page_ok al p -> page_ok al' p.
Proof. unfold page_ok. congruence. Qed.

Lemma client_step_inv all sh sh' l :
  client_inv all sh l -> client_step sh sh' -> exists l', client_inv all sh' l'.
Proof.
  intros [Hp Ha Hd Hok] Hstep. destruct Hstep as [s s' held p Hrun Hnz|s s' held Hrun|
    s s' held p Hin Hrun|s held p a v Hin Hra]; simpl in *.
  - pose proof (alloc_page_correct s l Hp) as Hal. destruct l as [|q l].
    { rewrite Hal in Hrun. simplify_eq. }
    destruct Hal as (s1 & Hrun1 & Hinv1 & Hram & Hst & Hen).
    rewrite Hrun1 in Hrun. simplify_eq. exists l.
    pose proof (pi_nodup _ _ Hp) as Hnd. apply NoDup_cons in Hnd as [Hnin _].
    split; simpl; [done|set_solver| |eauto using page_ok_ext].
    intros q [->%elem_of_singleton|Hq]%elem_of_union; [done|].
    specialize (Hd q Hq). set_solver.
  - pose proof (alloc_page_correct s l Hp) as Hal. destruct l as [|q l].
    { rewrite Hal in Hrun. simplify_eq. by exists []. }
    destruct Hal as (s1 & Hrun1 & Hinv1 & _). rewrite Hrun1 in Hrun. simplify_eq.
    destruct (pages_inv_free_pages s (0 :: l) 0 Hp) as [_ Hz]; [set_solver|lia].
  - destruct (free_page_correct s l p) as (s1 & Hrun1 & Hinv1 & Hst & Hen & _);
      [done|apply Hok; set_solver|by apply Hd|].
    rewrite Hrun1 in Hrun. simplify_eq. exists (p :: l).
    split; simpl; [done| | |eauto using page_ok_ext].
    + apply set_eq. intros q. destruct (decide (q = p)); set_solver.
    + intros q [Hq Hne]%elem_of_difference. rewrite elem_of_cons.
      intros [->|Hl]; [set_solver|]. by apply (Hd q).
  - exists l. split; simpl; try done. apply pages_inv_client_write; [done|].
    intros q Hq. apply load_agree. intros b Hb. apply rd8_wr8_ne.
    assert (page_ok (pages s) p) as Hpp by (apply Hok; set_solver).
    assert (page_ok (pages s) q) as Hqq by (apply Hok; set_solver).
    assert (p <> q) by (intros ->; by apply (Hd q)).
    destruct (page_ok_disjoint _ p q Hpp Hqq); [done|unfold PGSIZE in *; lia..].
Qed.

(** C1. Safety of the allocator for its clients, along every sequence of
    allocations, frees of held pages and writes inside held pages: the free
    list stays well-formed, every managed page is free or held and never both
    (so no page is lost and none is handed out twice), and freeing a held page
    never panics. *)
Theorem allocator_client_safe all s0 l0 s held :
  client_inv all (s0, ∅) l0 -> rtc client_step (s0, ∅) (s, held) ->
  exists l, client_inv all (s, held) l /\
    (forall p s', alloc_page s = Ret p s' -> p <> 0 -> p ∈ all /\ p ∉ held) /\
    (forall p, p ∈ held -> exists s', free_page p s = Ret tt s').
Proof.
  intros Hinv Hsteps.
  assert (exists l, client_inv all (s, held) l) as (l & Hl).
  { remember (s0, ∅) as sh0 eqn:E0. clear E0. remember (s, held) as sh eqn:E. clear E s held.
    revert l0 Hinv. induction Hsteps as [|x y z Hxy _ IH]; intros l0 Hinv; [eauto|].
    destruct (client_step_inv _ _ _ _ Hinv Hxy) as [l1 H1]. by apply (IH l1). }
  exists l. pose proof Hl as [Hp Ha Hd Hok]. simpl in *. split_and!; [done| |].
  - intros p s' Hrun Hnz. pose proof (alloc_page_correct s l Hp) as Hal.
    destruct l as [|q l]; [rewrite Hal in Hrun; simplify_eq|].
    destruct Hal as (s1 & Hrun1 & _). rewrite Hrun1 in Hrun. simplify_eq.
    split; [set_solver|]. intros Hh. by apply (Hd p); [|set_solver].
  - intros p Hh. destruct (free_page_correct s l p) as (s' & Hrun & _); eauto.
    apply Hok. set_solver.
Qed.

(** ** Giving back sets of pages

    A structure that owns pages gives them back one after the other, while it
    still reads those that are left. *)

(** The managed range of the allocator never changes. *)
Definition same_bounds (s s' : machine) : Prop :=
  pa_start (pages s') = pa_start (pages s) /\ pa_end (pages s') = pa_end (pages s).

#[export] Instance same_bounds_refl : Reflexive same_bounds.
Proof. by split. Qed.
#[export] Instance same_bounds_trans : Transitive same_bounds.
Proof. intros s1 s2 s3 [] []. split; congruence. Qed.

(** The pages of [B] are as they were in [m] and are not free. *)
Record intact (m : memory) (B : Z -> Prop) (s : machine) (l : list Z) : Prop := {
  in_pages_ok : pages_inv s l;
  in_same : forall x, B x -> mem_agree x (x + 4096) m (ram s);
  in_page : forall x, B x -> page_ok (pages s) x;
  in_used : forall x, B x -> x ∉ l
}.

(** The pages of [B] are free, and nothing else changed. *)
Record freed (B : Z -> Prop) (s s' : machine) (l l' : list Z) : Prop := {
  fr_pages : pages_inv s' l';
  fr_list : forall x, x ∈ l' <-> x ∈ l \/ B x;
  fr_bounds : same_bounds s s';
  fr_same : forall a, (forall x, B x -> ~ x <= a < x + 4096) -> rd8 (ram s') a = rd8 (ram s) a
}.

Lemma intact_mono m (A B : Z -> Prop) s l : (forall x, A x -> B x) -> intact m B s l -> intact m A s l.
Proof. intros HAB [I1 I2 I3 I4]. split; auto. Qed.

(** The pages of [B] are intact after those of another set were freed. *)
Lemma intact_freed m (A B : Z -> Prop) s s' l l' :
  (forall x, A x -> x mod 4096 = 0) -> (forall x, A x -> B x -> False) -> intact m B s l -> freed A s s' l l' -> intact m B s' l'.
Proof.
  intros HA Hd [I1 I2 I3 I4] [F1 F2 F3 F4]. split.
  - done.
  - intros x Hx a Ha. rewrite F4; [by apply (I2 x Hx)|]. intros y Hy Hin.
    assert (x <> y) by (intros ->; by apply (Hd y)). destruct (I3 x Hx) as [Hal _]. unfold PGSIZE in Hal. pose proof (HA y Hy). zlia.
  - intros x Hx. destruct F3. eapply page_ok_ext; [| |by apply I3]; done.
  - intros x Hx [Hl|Ha]%F2; [by apply (I4 x Hx)|by apply (Hd x)].
Qed.

Lemma freed_none (B : Z -> Prop) s l : pages_inv s l -> (forall x, ~ B x) -> freed B s s l l.
Proof. intros Hpg HB. split; try done. intros x. split; [by left|]. intros [|Hx]; [done|by destruct (HB x)]. Qed.

Lemma freed_trans (A B C : Z -> Prop) s1 s2 s3 l1 l2 l3 :
  freed A s1 s2 l1 l2 -> freed B s2 s3 l2 l3 -> (forall x, C x <-> A x \/ B x) -> freed C s1 s3 l1 l3.
Proof.
  intros [A1 A2 A3 A4] [B1 B2 B3 B4] HC. split.
  - exact B1.
  - intros x. rewrite B2, A2, HC. tauto.
  - by etrans.
  - intros a Ha. rewrite B4 by (intros x Hx; apply Ha, HC; by right). apply A4. intros x Hx. apply Ha, HC. by left.
Qed.

Lemma free_one m (B : Z -> Prop) s l p :
  intact m B s l -> B p -> exists s', free_page p s = Ret tt s' /\ freed (fun x => x = p) s s' l (p :: l).
Proof.
  intros Hin Hp. destruct (free_page_correct s l p) as (s' & Hrun & Hpg & Hst & Hen & Hmem); [apply Hin|by apply Hin|by apply Hin|].
  exists s'. split; [done|]. split; [done| |done|].
  - intros x. rewrite elem_of_cons. tauto.
  - intros a Ha. apply Hmem. specialize (Ha p eq_refl). lia.
Qed.
