(* ===== verification/Vmem.v ===== *)
(** * Virtual memory (src/os/mm/vmem.cc)

    Sv39 page tables in memory: [walk], [mappages] and its kernel and user
    front ends, [uvmunmap], the copies between kernel and user memory, and the
    process-size operations.  Page-table pages come from the page allocator of
    [PageAlloc], so every operation runs on the same machine state.

    A loop that the source ends by an address comparison takes fuel.  An
    address below [MAXVA] leaves at most 2^26 pages, and [walk] panics beyond
    it, so the theorems give the number of pages as the fuel that is enough.
    Null pointers are 0.  Log output is not modelled. *)
From S2P Require Import Prelude Memory CString Riscv PageAlloc.

(** ** Definitions *)

Definition rd_pte (s : machine) (pte : Z) : Z := load64 (ram s) pte.
Definition wr_pte (pte v : Z) : K machine unit :=
  kmodify (set_ram (fun m => store64 m pte v)).

(** The loop of [walk], from [level] down to 1; it ends with the address of
    the level-0 entry, or null. *)
Fixpoint walk_loop (level : nat) (pagetable va : Z) (alloc : bool) : K machine Z :=
  match level with
  | O => kret (pagetable + 8 * PX 0 va)
  | S lower =>
      let pte := pagetable + 8 * PX (Z.of_nat level) va in
      s <- kget ;;
      if negb (Z.land (rd_pte s pte) PTE_V =? 0)
      then walk_loop lower (PTE2PA (rd_pte s pte)) va alloc
      else if negb alloc then kret 0
      else
        child <- alloc_page ;;
        if child =? 0 then kret 0
        else
          kmodify (set_ram (fun m => memset m child 0 (Z.to_nat PGSIZE))) ;;;
          wr_pte pte (Z.lor (PA2PTE child) PTE_V) ;;;
          walk_loop lower child va alloc
  end.

Definition walk (pagetable va : Z) (alloc : bool) : K machine Z :=
  if MAXVA <=? va then kpanic else walk_loop 2 pagetable va alloc.

Definition walkaddr (pagetable va : Z) : K machine Z :=
  if MAXVA <=? va then kret 0
  else
    pte <- walk pagetable va false ;;
    if pte =? 0 then kret 0
    else
      s <- kget ;;
      if Z.land (rd_pte s pte) PTE_V =? 0 then kret 0
      else if Z.land (rd_pte s pte) PTE_U =? 0 then kret 0
      else kret (PTE2PA (rd_pte s pte)).

Definition virt_addr_to_physical (pagetable va : Z) : K machine Z :=
  page <- walkaddr pagetable va ;;
  if page =? 0 then kret 0 else kret (Z.lor page (Z.land va 0xFFF)).

(** The [for (;;)] of [mappages]. *)
Fixpoint mappages_loop (fuel : nat) (pagetable a last pa perm : Z) : K machine Z :=
  match fuel with
  | O => kfuel
  | S fuel' =>
      pte <- walk pagetable a true ;;
      if pte =? 0 then kret (-1)
      else
        s <- kget ;;
        if negb (Z.land (rd_pte s pte) PTE_V =? 0) then kpanic
        else
          wr_pte pte (Z.lor (Z.lor (PA2PTE pa) perm) PTE_V) ;;;
          if a =? last then kret 0
          else mappages_loop fuel' pagetable (u64 (a + PGSIZE)) last (u64 (pa + PGSIZE)) perm
  end.

Definition mappages (fuel : nat) (pagetable va pa size perm : Z) : K machine Z :=
  mappages_loop fuel pagetable (PGROUNDDOWN va) (PGROUNDDOWN (u64 (va + size - 1))) pa perm.

Definition kvmmap (fuel : nat) (kpgtbl va pa sz perm : Z) : K machine unit :=
  r <- mappages fuel kpgtbl va pa sz perm ;;
  if negb (r =? 0) then kpanic else kret tt.

Definition uvmmap (fuel : nat) (pagetable va pa size perm : Z) : K machine Z :=
  mappages fuel pagetable va pa size perm.

Definition map1page (pagetable va pa perm : Z) : K machine Z :=
  pte <- walk pagetable (PGROUNDDOWN va) true ;;
  if pte =? 0 then kret (-1)
  else
    s <- kget ;;
    if negb (Z.land (rd_pte s pte) PTE_V =? 0) then kret (-2)
    else
      wr_pte pte (Z.lor (Z.lor (PA2PTE pa) perm) PTE_V) ;;;
      kret PGSIZE.

(** The [for (;;)] of [uvmunmap]. *)
Fixpoint uvmunmap_loop (fuel : nat) (pagetable a last : Z) (do_free : bool) : K machine unit :=
  match fuel with
  | O => kfuel
  | S fuel' =>
      pte <- walk pagetable a false ;;
      if pte =? 0 then kpanic
      else
        s <- kget ;;
        if Z.land (rd_pte s pte) PTE_V =? 0 then kpanic
        else if PTE_FLAGS (rd_pte s pte) =? PTE_V then kpanic
        else
          (if do_free then free_page (PTE2PA (rd_pte s pte)) else kret tt) ;;;
          wr_pte pte 0 ;;;
          if a =? last then kret tt
          else uvmunmap_loop fuel' pagetable (u64 (a + PGSIZE)) last do_free
  end.

Definition uvmunmap (fuel : nat) (pagetable va size : Z) (do_free : bool) : K machine unit :=
  if negb (va mod PGSIZE =? 0) || negb (size mod PGSIZE =? 0) then kpanic
  else uvmunmap_loop fuel pagetable va (PGROUNDDOWN (u64 (va + size - 1))) do_free.

Definition kvmunmap (fuel : nat) (kpgtbl va size : Z) (do_free : bool) : K machine unit :=
  uvmunmap fuel kpgtbl va size do_free.

Definition create_empty_user_pagetable : K machine Z :=
  pagetable <- alloc_page ;;
  (if negb (pagetable =? 0)
   then kmodify (set_ram (fun m => memset m pagetable 0 (Z.to_nat PGSIZE)))
   else kret tt) ;;;
  kret pagetable.

(** The two linker symbols [e_text] and [trampoline] are arguments. *)
Definition kvmmake (fuel : nat) (e_text trampoline : Z) : K machine Z :=
  kpgtbl <- alloc_page ;;
  if kpgtbl =? 0 then kpanic
  else
    kmodify (set_ram (fun m => memset m kpgtbl 0 (Z.to_nat PGSIZE))) ;;;
    kvmmap fuel kpgtbl VIRTIO0 VIRTIO0 PGSIZE (Z.lor PTE_R PTE_W) ;;;
    kvmmap fuel kpgtbl PLIC PLIC 0x400000 (Z.lor PTE_R PTE_W) ;;;
    kvmmap fuel kpgtbl KERNBASE KERNBASE (e_text - KERNBASE) (Z.lor PTE_R PTE_X) ;;;
    kvmmap fuel kpgtbl e_text e_text (IO_MEM_START - e_text) (Z.lor PTE_R PTE_W) ;;;
    kvmmap fuel kpgtbl IO_MEM_START IO_MEM_START (PHYSTOP - IO_MEM_START)
      (Z.lor (Z.lor PTE_R PTE_W) PTE_MT_IO) ;;;
    kvmmap fuel kpgtbl TRAMPOLINE trampoline PGSIZE (Z.lor PTE_R PTE_X) ;;;
    kret kpgtbl.

Definition uvmdealloc (fuel : nat) (pagetable oldsz newsz : Z) : K machine Z :=
  if oldsz <=? newsz then kret oldsz
  else
    (if PGROUNDUP newsz <? PGROUNDUP oldsz
     then
       let npages := s32 ((PGROUNDUP oldsz - PGROUNDUP newsz) / PGSIZE) in
       uvmunmap fuel pagetable (PGROUNDUP newsz) (u64 npages) true
     else kret tt) ;;;
    kret newsz.

(** The loop of [uvmalloc]; [base] is the rounded old size.  The call of
    [mappages] has its arguments in the source's order. *)
Fixpoint uvmalloc_loop (fuel mfuel : nat) (pagetable a base newsz : Z) : K machine Z :=
  match fuel with
  | O => kfuel
  | S fuel' =>
      if a <? newsz then
        mem <- alloc_page ;;
        if mem =? 0 then uvmdealloc mfuel pagetable a base ;;; kret 0
        else
          kmodify (set_ram (fun m => memset m mem 0 (Z.to_nat PGSIZE))) ;;;
          r <- mappages mfuel pagetable a PGSIZE mem
                 (Z.lor (Z.lor (Z.lor PTE_W PTE_X) PTE_R) PTE_U) ;;
          if negb (r =? 0)
          then free_page mem ;;; uvmdealloc mfuel pagetable a base ;;; kret 0
          else uvmalloc_loop fuel' mfuel pagetable (u64 (a + PGSIZE)) base newsz
      else kret newsz
  end.

Definition uvmalloc (fuel mfuel : nat) (pagetable oldsz newsz : Z) : K machine Z :=
  if newsz <? oldsz then kret oldsz
  else uvmalloc_loop fuel mfuel pagetable (PGROUNDUP oldsz) (PGROUNDUP oldsz) newsz.

(** The loop of [free_pagetable_pages] over the entries of a table;
    [free_child] is the recursive call. *)
Fixpoint free_table_entries (free_child : Z -> K machine unit) (pagetable : Z) (n : nat) (i : Z) : K machine unit :=
  match n with
  | O => kret tt
  | S n' =>
      s <- kget ;;
      let pte := rd_pte s (pagetable + 8 * i) in
      (if negb (Z.land pte PTE_V =? 0) &&
          (Z.land pte (Z.lor (Z.lor PTE_R PTE_W) PTE_X) =? 0)
       then
         free_child (PTE2PA pte) ;;;
         wr_pte (pagetable + 8 * i) 0
       else if negb (Z.land pte PTE_V =? 0) then kpanic
       else kret tt) ;;;
      free_table_entries free_child pagetable n' (i + 1)
  end.

(** [free_pagetable_pages] recurses once per level: [depth] bounds the
    recursion, and a table of three levels needs three. *)
Fixpoint free_pagetable_pages (depth : nat) (pagetable : Z) : K machine unit :=
  match depth with
  | O => kfuel
  | S depth' =>
      if pagetable =? 0 then kret tt
      else
        free_table_entries (free_pagetable_pages depth') pagetable 512 0 ;;;
        free_page pagetable
  end.

Definition uvmclear (pagetable va : Z) : K machine unit :=
  pte <- walk pagetable va false ;;
  if pte =? 0 then kpanic
  else
    s <- kget ;;
    wr_pte pte (Z.land (rd_pte s pte) (u64 (Z.lnot PTE_U))).

(** One of the two loops of [uvmcopy]: copy the pages from [cur] up to [stop];
    the result says whether it got through, with the address it stopped at. *)
Fixpoint uvmcopy_range (fuel mfuel : nat) (old_pagetable new_pagetable cur stop : Z)
    : K machine (bool * Z) :=
  match fuel with
  | O => kfuel
  | S fuel' =>
      if cur <? stop then
        pte <- walk old_pagetable cur false ;;
        if pte =? 0 then kpanic
        else
          s <- kget ;;
          if Z.land (rd_pte s pte) PTE_V =? 0 then kpanic
          else
            let pa := PTE2PA (rd_pte s pte) in
            let flags := PTE_FLAGS (rd_pte s pte) in
            mem <- alloc_page ;;
            if mem =? 0 then kret (false, cur)
            else
              kmodify (set_ram (fun m => memmove m mem pa (Z.to_nat PGSIZE))) ;;;
              r <- mappages mfuel new_pagetable cur PGSIZE mem flags ;;
              if negb (r =? 0) then free_page mem ;;; kret (false, cur)
              else uvmcopy_range fuel' mfuel old_pagetable new_pagetable (cur + PGSIZE) stop
      else kret (true, cur)
  end.

Definition uvmcopy (fuel mfuel : nat) (old_pagetable new_pagetable total_size : Z) : K machine Z :=
  '(ok1, _) <- uvmcopy_range fuel mfuel old_pagetable new_pagetable
                 (USER_STACK_BOTTOM - USTACK_SIZE) USER_STACK_BOTTOM ;;
  if negb ok1 then
    uvmunmap mfuel new_pagetable (USER_STACK_BOTTOM - USTACK_SIZE) (USTACK_SIZE / PGSIZE) true ;;;
    kret (-1)
  else
    '(ok2, cur_addr) <- uvmcopy_range fuel mfuel old_pagetable new_pagetable
                          USER_TEXT_START (u64 (USER_TEXT_START + u64 (total_size - USTACK_SIZE))) ;;
    if negb ok2 then
      uvmunmap mfuel new_pagetable USER_TEXT_START ((cur_addr - USER_TEXT_START) / PGSIZE) false ;;;
      kret (-1)
    else kret 0.

(** Copy from the kernel buffer at [src] to user address [dstva]. *)
Fixpoint copyout (fuel : nat) (pagetable dstva src len : Z) : K machine Z :=
  match fuel with
  | O => kfuel
  | S fuel' =>
      if 0 <? len then
        let va0 := PGROUNDDOWN dstva in
        pa0 <- walkaddr pagetable va0 ;;
        if pa0 =? 0 then kret (-1)
        else
          let n := Z.min (PGSIZE - (dstva - va0)) len in
          kmodify (set_ram (fun m => memmove m (pa0 + (dstva - va0)) src (Z.to_nat n))) ;;;
          copyout fuel' pagetable (u64 (va0 + PGSIZE)) (src + n) (len - n)
      else kret 0
  end.

Fixpoint memset_user (fuel : nat) (pagetable dstva val len : Z) : K machine Z :=
  match fuel with
  | O => kfuel
  | S fuel' =>
      if 0 <? len then
        let va0 := PGROUNDDOWN dstva in
        pa0 <- walkaddr pagetable va0 ;;
        if pa0 =? 0 then kret (-1)
        else
          let n := Z.min (PGSIZE - (dstva - va0)) len in
          kmodify (set_ram (fun m => memset m (pa0 + (dstva - va0)) val (Z.to_nat n))) ;;;
          memset_user fuel' pagetable (u64 (va0 + PGSIZE)) val (len - n)
      else kret 0
  end.

(** Copy from user address [srcva] to the kernel buffer at [dst]. *)
Fixpoint copyin (fuel : nat) (pagetable dst srcva len : Z) : K machine Z :=
  match fuel with
  | O => kfuel
  | S fuel' =>
      if 0 <? len then
        let va0 := PGROUNDDOWN srcva in
        pa0 <- walkaddr pagetable va0 ;;
        if pa0 =? 0 then kret (-1)
        else
          let n := Z.min (PGSIZE - (srcva - va0)) len in
          kmodify (set_ram (fun m => memmove m dst (pa0 + (srcva - va0)) (Z.to_nat n))) ;;;
          copyin fuel' pagetable (dst + n) (u64 (va0 + PGSIZE)) (len - n)
      else kret 0
  end.

(** The inner loop of [copyinstr]: copy bytes from [p] until NUL or [n] bytes;
    returns whether a NUL was met. *)
Fixpoint copyinstr_page (n : nat) (dst p : Z) : K machine bool :=
  match n with
  | O => kret false
  | S n' =>
      s <- kget ;;
      if rd8 (ram s) p =? 0
      then kmodify (set_ram (fun m => wr8 m dst 0)) ;;; kret true
      else
        kmodify (set_ram (fun m => wr8 m dst (rd8 (ram s) p))) ;;;
        copyinstr_page n' (dst + 1) (p + 1)
  end.

Fixpoint copyinstr (fuel : nat) (pagetable dst srcva max : Z) : K machine Z :=
  match fuel with
  | O => kfuel
  | S fuel' =>
      if 0 <? max then
        let va0 := PGROUNDDOWN srcva in
        pa0 <- walkaddr pagetable va0 ;;
        if pa0 =? 0 then kret (-1)
        else
          let n := Z.min (PGSIZE - (srcva - va0)) max in
          got_null <- copyinstr_page (Z.to_nat n) dst (pa0 + (srcva - va0)) ;;
          if got_null : bool then kret 0
          else copyinstr fuel' pagetable (dst + n) (u64 (va0 + PGSIZE)) (max - n)
      else kret (-1)
  end.
