(* ===== verification/PageTable.v ===== *)
(** * Correctness of the page-table operations

    The invariant [pt_inv] assigns to every page-table page its level and the
    virtual-address prefix it serves, so that a page table is a tree although
    it is stored as words in RAM.  On top of it: [walk] finds the leaf entry
    of an address and may add table pages without changing any translation,
    [mappages] adds exactly the requested translations, [uvmunmap] removes
    exactly the requested ones. *)
From S2P Require Import Prelude Memory CString Riscv PageAlloc Vmem.

(** ** Translation, as the hardware walks the tables *)

(** Address of the leaf entry of [va], when the upper levels are present. *)
Fixpoint leaf_slot (level : nat) (m : memory) (pt va : Z) : option Z :=
  match level with
  | O => Some (pt + 8 * PX 0 va)
  | S lower =>
      let e := load64 m (pt + 8 * PX (Z.of_nat level) va) in
      if Z.testbit e 0 then leaf_slot lower m (PTE2PA e) va else None
  end.

(** The valid leaf entry of [va], if any. *)
Definition leaf_pte (level : nat) (m : memory) (pt va : Z) : option Z :=
  slot ← leaf_slot level m pt va;
  if Z.testbit (load64 m slot) 0 then Some (load64 m slot) else None.

Definition translate (m : memory) (root va : Z) : option Z := leaf_pte 2 m root va.

(** ** The invariant *)

(** What the table pages at level [level] on the path of [va] have as prefix. *)
Definition prefix (level : nat) (va : Z) : Z := va / 2 ^ (12 + 9 * (Z.of_nat level + 1)).

(** An entry without permissions points to a table. *)
Definition pointer (e : Z) : bool := Z.land e (Z.lor (Z.lor PTE_R PTE_W) PTE_X) =? 0.

(** [T] maps each table page to its level and prefix; every table below the
    root hangs in a table above it. *)
Record pt_inv (m : memory) (T : gmap Z (nat * Z)) : Prop := {
  pt_page : forall t lv pre, T !! t = Some (lv, pre) -> t mod 4096 = 0 /\ 0 < t < 2 ^ 56;
  pt_child : forall t lv pre i, T !! t = Some (S lv, pre) -> 0 <= i < 512 ->
    Z.testbit (load64 m (t + 8 * i)) 0 = true ->
    T !! PTE2PA (load64 m (t + 8 * i)) = Some (lv, pre * 512 + i);
  pt_pointer : forall t lv pre i, T !! t = Some (S lv, pre) -> 0 <= i < 512 ->
    Z.testbit (load64 m (t + 8 * i)) 0 = true -> pointer (load64 m (t + 8 * i)) = true;
  pt_parent : forall t lv pre, T !! t = Some (lv, pre) -> (lv < 2)%nat -> exists t' pre' i, T !! t' = Some (S lv, pre') /\
    0 <= i < 512 /\ Z.testbit (load64 m (t' + 8 * i)) 0 = true /\ PTE2PA (load64 m (t' + 8 * i)) = t
}.

(** Free pages are not table pages. *)
Definition tables_free (T : gmap Z (nat * Z)) (l : list Z) : Prop :=
  forall p, p ∈ l -> T !! p = None.

(** [a] is not inside a table page. *)
Definition outside_tables (T : gmap Z (nat * Z)) (a : Z) : Prop :=
  forall t, is_Some (T !! t) -> a < t \/ t + 4096 <= a.

Lemma va_range_pow va : 0 <= va < MAXVA -> 0 <= va < 2 ^ 38.
Proof. unfold MAXVA. rewrite Z.shiftl_1_l. done. Qed.

Lemma prefix_step lv va :
  0 <= va -> prefix lv va = prefix (S lv) va * 512 + PX (Z.of_nat (S lv)) va.
Proof.
  intros Hva. unfold prefix. rewrite PX_eq by lia.
  replace (12 + 9 * (Z.of_nat lv + 1)) with (12 + 9 * Z.of_nat (S lv)) by lia.
  replace (12 + 9 * (Z.of_nat (S lv) + 1)) with (12 + 9 * Z.of_nat (S lv) + 9) by lia.
  generalize (12 + 9 * Z.of_nat (S lv)) (ltac:(lia) : 0 <= 12 + 9 * Z.of_nat (S lv)).
  intros k Hk. rewrite Z.pow_add_r, <- Z.div_div by lia. change (2 ^ 9) with 512. zlia.
Qed.

Lemma prefix_root va : 0 <= va < MAXVA -> prefix 2 va = 0.
Proof.
  intros Hva%va_range_pow. unfold prefix. change (12 + 9 * (Z.of_nat 2 + 1)) with 39.
  apply Z.div_small. lia.
Qed.

(** Two addresses with the same leaf table and leaf index are in one page. *)
Lemma same_leaf va va' :
  prefix 0 va = prefix 0 va' -> PX 0 va = PX 0 va' -> va / 4096 = va' / 4096.
Proof.
  unfold prefix. rewrite !PX_eq by lia. change (12 + 9 * (Z.of_nat 0 + 1)) with 21.
  change (12 + 9 * 0) with 12. intros. zlia.
Qed.

Lemma same_page va va' lv :
  va / 4096 = va' / 4096 -> prefix lv va = prefix lv va' /\
  forall k, 0 <= k -> PX k va = PX k va'.
Proof.
  intros He. assert (forall n v, 0 <= n -> v / 2 ^ (12 + n) = v / 4096 / 2 ^ n) as Hd.
  { intros n v Hn. rewrite Z.pow_add_r, <- Z.div_div by lia. done. }
  split.
  - unfold prefix. rewrite !Hd, He by lia. done.
  - intros k Hk. rewrite !PX_eq, !Hd, He by lia. done.
Qed.

Lemma leaf_pte_same_page lv m pt va va' :
  va / 4096 = va' / 4096 -> leaf_pte lv m pt va = leaf_pte lv m pt va'.
Proof.
  intros He. destruct (same_page va va' 0 He) as [_ Hpx]. unfold leaf_pte. f_equal.
  revert pt. induction lv as [|lv IH]; intros pt; cbn [leaf_slot].
  - by rewrite (Hpx 0).
  - rewrite (Hpx (Z.of_nat (S lv))) by lia. by case_match.
Qed.

Lemma pte_valid_bit e : (Z.land e PTE_V =? 0) = negb (Z.testbit e 0).
Proof. apply (land_pow2_testbit e 0). lia. Qed.

Section tables.
Context {m : memory} {T : gmap Z (nat * Z)} (Hinv : pt_inv m T).

Lemma table_disjoint t t' :
  is_Some (T !! t) -> is_Some (T !! t') -> t <> t' -> t + 4096 <= t' \/ t' + 4096 <= t.
Proof.
  intros [[lv pre] H1] [[lv' pre'] H2] Hne.
  apply (pt_page _ _ Hinv) in H1. apply (pt_page _ _ Hinv) in H2. zlia.
Qed.

(** The walk stays on the path of [va] and ends in its leaf table. *)
Lemma leaf_slot_table lv pt va slot :
  0 <= va -> T !! pt = Some (lv, prefix lv va) -> leaf_slot lv m pt va = Some slot ->
  exists t, T !! t = Some (0%nat, prefix 0 va) /\ slot = t + 8 * PX 0 va.
Proof.
  intros Hva. revert pt. induction lv as [|lv IH]; intros pt Hpt; cbn [leaf_slot].
  - intros [= <-]. eauto.
  - case_match eqn:Hb; [|done]. apply IH. rewrite (prefix_step lv) by done.
    eapply (pt_child _ _ Hinv); [done| |done]. apply PX_range. lia.
Qed.

Lemma table_entry_range t lv pre i :
  T !! t = Some (lv, pre) -> 0 <= i < 512 -> 0 < t + 8 * i < 2 ^ 57.
Proof. intros Ht Hi. apply (pt_page _ _ Hinv) in Ht. lia. Qed.
End tables.

(** Two table entries are the same word or disjoint words. *)
Lemma entry_disjoint (t t' i i' : Z) :
  t mod 4096 = 0 -> t' mod 4096 = 0 -> 0 <= i < 512 -> 0 <= i' < 512 -> (t, i) <> (t', i') ->
  t' + 8 * i' + 8 <= t + 8 * i \/ t + 8 * i + 8 <= t' + 8 * i'.
Proof.
  intros Ht Ht' Hi Hi' Hne. destruct (decide (t = t')) as [->|Hd].
  - assert (i <> i') by congruence. lia.
  - zlia.
Qed.

(** ** Adding a table page *)

(** The memory after [walk] has hooked the zeroed page [child] into entry [i]
    of table [pt]. *)
Definition hook_child (m : memory) (pt i child : Z) : memory :=
  store64 (memset m child 0 (Z.to_nat PGSIZE)) (pt + 8 * i) (Z.lor (PA2PTE child) PTE_V).

Lemma child_pte_spec child :
  0 <= child < 2 ^ 56 -> child mod 4096 = 0 ->
  let e := Z.lor (PA2PTE child) PTE_V in
  0 <= e < 2 ^ 64 /\ Z.testbit e 0 = true /\ PTE2PA e = child.
Proof.
  intros Hc Hal. unfold PTE_V. change (Z.shiftl 1 0) with 1.
  split_and!.
  - rewrite PA2PTE_lor by lia. zlia.
  - rewrite PA2PTE_lor by lia. zlia.
  - rewrite Z.lor_spec. by rewrite orb_true_r.
  - apply (pte_roundtrip child 1); [done|done|lia].
Qed.

Lemma child_pte_pointer child : pointer (Z.lor (PA2PTE child) PTE_V) = true.
Proof.
  unfold pointer. rewrite Z.land_lor_distr_l. change (Z.land PTE_V _) with 0. rewrite Z.lor_0_r. apply Z.eqb_eq.
  change (Z.lor _ PTE_X) with 14. apply Z.bits_inj'. intros n Hn. rewrite Z.land_spec, Z.testbit_0_l.
  destruct (decide (n < 10)) as [Hlt|Hge].
  - unfold PA2PTE, u64. rewrite Z.mod_pow2_bits_low, Z.shiftl_spec_low by lia. done.
  - rewrite (Z.bits_above_log2 14 n), andb_false_r; [done|done|]. change (Z.log2 14) with 3. lia.
Qed.

Section hook.
Context {m : memory} {T : gmap Z (nat * Z)} (Hinv : pt_inv m T).
Context {pt i child pre : Z} {lv : nat}.
Context (Hpt : T !! pt = Some (S lv, pre)) (Hi : 0 <= i < 512).
Context (Hinvalid : Z.testbit (load64 m (pt + 8 * i)) 0 = false).
Context (Hnew : T !! child = None).
Context (Hch : child mod 4096 = 0 /\ 0 < child < 2 ^ 56).

Let m' := hook_child m pt i child.
Let T' := <[child := (lv, pre * 512 + i)]> T.

Lemma hook_entry_other t lt pret j :
  T !! t = Some (lt, pret) -> 0 <= j < 512 -> (t, j) <> (pt, i) ->
  load64 m' (t + 8 * j) = load64 m (t + 8 * j).
Proof.
  intros Ht Hj Hne. pose proof (pt_page _ _ Hinv _ _ _ Ht) as Htp.
  pose proof (pt_page _ _ Hinv _ _ _ Hpt) as Hptp.
  assert (t <> child) by congruence.
  unfold m', hook_child. rewrite load64_store64_ne.
  - apply (memset_load _ _ _ _ 8). unfold PGSIZE. zlia.
  - apply entry_disjoint; [lia..|congruence].
Qed.

Lemma hook_entry_self : load64 m' (pt + 8 * i) = Z.lor (PA2PTE child) PTE_V.
Proof.
  unfold m', hook_child. apply load64_store64_eq.
  apply (child_pte_spec child); lia.
Qed.

Lemma hook_entry_child j : 0 <= j < 512 -> load64 m' (child + 8 * j) = 0.
Proof.
  intros Hj. pose proof (pt_page _ _ Hinv _ _ _ Hpt) as Hptp.
  assert (pt <> child) by congruence.
  unfold m', hook_child. rewrite load64_store64_ne by zlia.
  apply (memset_zero_load _ _ _ 8); unfold PGSIZE; lia.
Qed.

Lemma hook_inv : pt_inv m' T'.
Proof.
  split.
  - intros t lt pret. unfold T'. rewrite lookup_insert. case_decide; [naive_solver|].
    apply (pt_page _ _ Hinv).
  - intros t lt pret j. unfold T' at 1. rewrite lookup_insert. case_decide as Hd.
    + subst t. intros _ Hj. rewrite hook_entry_child by done. by rewrite Z.testbit_0_l.
    + intros Ht Hj. destruct (decide ((t, j) = (pt, i))) as [[= -> ->]|Hne].
      * rewrite Hpt in Ht. simplify_eq. intros _. rewrite hook_entry_self.
        destruct (child_pte_spec child) as (_ & _ & ->); [lia..|].
        unfold T'. by rewrite lookup_insert_eq.
      * rewrite (hook_entry_other _ _ _ _ Ht Hj Hne). intros Hb.
        pose proof (pt_child _ _ Hinv _ _ _ _ Ht Hj Hb) as Hc.
        unfold T'. rewrite lookup_insert_ne; [done|]. intros Heq. congruence.
  - intros t lt pret j. unfold T' at 1. rewrite lookup_insert. case_decide as Hd.
    + subst t. intros _ Hj. rewrite hook_entry_child by done. by rewrite Z.testbit_0_l.
    + intros Ht Hj. destruct (decide ((t, j) = (pt, i))) as [[= -> ->]|Hne].
      * intros _. rewrite hook_entry_self. apply child_pte_pointer.
      * rewrite (hook_entry_other _ _ _ _ Ht Hj Hne). by apply (pt_pointer _ _ Hinv _ _ _ _ Ht Hj).
  - intros t lt pret. unfold T' at 1. rewrite lookup_insert. assert (child <> pt) by congruence. case_decide as Hd.
    + intros [= <- <-] Hlt. subst t. exists pt, pre, i. unfold T'. rewrite lookup_insert_ne, hook_entry_self by done.
      destruct (child_pte_spec child) as (_ & -> & ->); [lia..|]. done.
    + intros Ht Hlt. destruct (pt_parent _ _ Hinv _ _ _ Ht Hlt) as (t' & pre' & j & Ht' & Hj & Hb & Hpa). exists t', pre', j.
      unfold T'. rewrite lookup_insert_ne by congruence. rewrite (hook_entry_other _ _ _ _ Ht' Hj); [done|]. congruence.
Qed.

(** No translation changes: the new subtree is empty. *)
Lemma hook_leaf_pte t lt va :
  0 <= va -> T !! t = Some (lt, prefix lt va) -> leaf_pte lt m' t va = leaf_pte lt m t va.
Proof.
  intros Hva. revert t. unfold leaf_pte.
  induction lt as [|lt IH]; intros t Ht; cbn [leaf_slot mbind option_bind].
  - rewrite (hook_entry_other t 0 (prefix 0 va)); [done|done|apply PX_range; lia|].
    intros [= -> _]. congruence.
  - set (j := PX (Z.of_nat (S lt)) va).
    assert (0 <= j < 512) as Hj by (apply PX_range; lia).
    destruct (decide ((t, j) = (pt, i))) as [[= Ht' Hj']|Hne].
    + subst t. rewrite Hj', hook_entry_self, Hinvalid.
      destruct (child_pte_spec child) as (_ & -> & ->); [lia..|].
      clear IH Ht. destruct lt as [|lt]; cbn [leaf_slot].
      * cbn [mbind option_bind]. rewrite hook_entry_child by (apply PX_range; lia). done.
      * rewrite hook_entry_child by (apply PX_range; lia). done.
    + rewrite (hook_entry_other _ _ _ _ Ht Hj Hne). case_match eqn:Hb; [|done].
      apply IH. rewrite (prefix_step lt) by done.
      by apply (pt_child _ _ Hinv).
Qed.

Lemma hook_page_other p :
  p mod PGSIZE = 0 -> p <> child -> p <> pt -> load64 m' p = load64 m p.
Proof.
  intros Hp Hc Hpt'. pose proof (pt_page _ _ Hinv _ _ _ Hpt) as Hptp. unfold PGSIZE in Hp.
  unfold m', hook_child. rewrite load64_store64_ne by zlia.
  apply (memset_load _ _ _ _ 8). unfold PGSIZE. zlia.
Qed.

(** Only the new page and the hooked table are written. *)
Lemma hook_other a : outside_tables T' a -> rd8 m' a = rd8 m a.
Proof.
  intros Ha. unfold m', hook_child.
  destruct (Ha child) as [Hc|Hc]; [by unfold T'; rewrite lookup_insert_eq| |];
  (destruct (Ha pt) as [Hp|Hp];
    [unfold T'; rewrite lookup_insert_ne by congruence; by rewrite Hpt| |];
    rewrite store_other, memset_other by (unfold PGSIZE; lia); done).
Qed.
End hook.

#[local] Opaque hook_child.

(** ** [walk] *)

(** One round of the loop of [walk]. *)
Lemma walk_loop_S lower pt va alloc s :
  let pte := pt + 8 * PX (Z.of_nat (S lower)) va in
  let e := load64 (ram s) pte in
  walk_loop (S lower) pt va alloc s =
  if Z.testbit e 0 then walk_loop lower (PTE2PA e) va alloc s
  else if alloc then
    match alloc_page s with
    | Ret child s1 =>
        if child =? 0 then Ret 0 s1
        else walk_loop lower child va alloc
               (Machine (hook_child (ram s1) pt (PX (Z.of_nat (S lower)) va) child) (pages s1))
    | TaskFail s1 => TaskFail s1
    | Panic => Panic
    | OutOfFuel => OutOfFuel
    end
  else Ret 0 s.
Proof.
  intros pte e. cbn [walk_loop]. unfold kbind at 1, kget, rd_pte. fold pte. fold e.
  rewrite pte_valid_bit, negb_involutive. destruct (Z.testbit e 0); [done|].
  destruct alloc; [|done]. cbn [negb]. unfold kbind at 1.
  destruct (alloc_page s) as [child s1|s1| |]; try done. by destruct (child =? 0).
Qed.

Lemma walk_loop_noalloc lv pt va s :
  walk_loop lv pt va false s = Ret (default 0 (leaf_slot lv (ram s) pt va)) s.
Proof.
  revert pt. induction lv as [|lv IH]; intros pt; [done|].
  rewrite walk_loop_S. cbn [leaf_slot]. case_match; [apply IH|done].
Qed.

Lemma walk_noalloc pt va s :
  va < MAXVA -> walk pt va false s = Ret (default 0 (leaf_slot 2 (ram s) pt va)) s.
Proof. intros. unfold walk. rewrite (proj2 (Z.leb_gt _ _)) by done. apply walk_loop_noalloc. Qed.

(** A table below the root that serves addresses below [MAXVA]. *)
Definition lower_table (lv : nat) (pre : Z) : Prop := (lv < 2)%nat /\ 0 <= pre < 2 ^ (17 - 9 * Z.of_nat lv).

Lemma lower_prefix lv va : (lv < 2)%nat -> 0 <= va < MAXVA -> lower_table lv (prefix lv va).
Proof.
  intros Hlv Hva%va_range_pow. split; [done|]. unfold prefix. destruct lv as [|[|lv]]; [|..|lia].
  - change (2 ^ (12 + 9 * (Z.of_nat 0 + 1))) with 2097152. change (2 ^ (17 - 9 * Z.of_nat 0)) with 131072. zlia.
  - change (2 ^ (12 + 9 * (Z.of_nat 1 + 1))) with 1073741824. change (2 ^ (17 - 9 * Z.of_nat 1)) with 256. zlia.
Qed.

(** What a run that may have added table pages leaves alone. *)
Record tables_grown (s s' : machine) (T T' : gmap Z (nat * Z)) (l l' : list Z) : Prop := {
  tg_inv : pt_inv (ram s') T';
  tg_pages : pages_inv s' l';
  tg_free : tables_free T' l';
  tg_sub : T ⊆ T';
  tg_suffix : l' `suffix_of` l;
  tg_new : forall t, is_Some (T' !! t) -> is_Some (T !! t) \/ (t ∈ l /\ t ∉ l');
  tg_level : forall t lv pre, T' !! t = Some (lv, pre) -> T !! t = Some (lv, pre) \/ lower_table lv pre;
  tg_used : forall p, p ∈ l -> p ∈ l' \/ is_Some (T' !! p);
  tg_start : pa_start (pages s') = pa_start (pages s);
  tg_end : pa_end (pages s') = pa_end (pages s);
  tg_other : forall a, outside_tables T' a -> rd8 (ram s') a = rd8 (ram s) a
}.

Lemma outside_tables_mono T T' a : T ⊆ T' -> outside_tables T' a -> outside_tables T a.
Proof. intros Hsub Ha t [x Ht]. apply Ha. exists x. by eapply lookup_weaken. Qed.

Lemma tables_grown_refl s T l :
  pt_inv (ram s) T -> pages_inv s l -> tables_free T l -> tables_grown s s T T l l.
Proof. intros. split; auto. Qed.

Lemma tables_grown_trans s1 s2 s3 T1 T2 T3 l1 l2 l3 :
  tables_grown s1 s2 T1 T2 l1 l2 -> tables_grown s2 s3 T2 T3 l2 l3 ->
  tables_grown s1 s3 T1 T3 l1 l3.
Proof.
  intros [] []. split; try done; try congruence.
  - by etrans.
  - by etrans.
  - intros t Ht. destruct (tg_new1 t Ht) as [H2|[H2 H3]].
    + destruct (tg_new0 t H2) as [|[H3 H4]]; [by left|right].
      split; [done|]. intros H5. apply H4.
      by eapply elem_of_suffix.
    + right. split; [by eapply elem_of_suffix|done].
  - intros t lv pre [Ht|]%tg_level1; [by apply tg_level0|by right].
  - intros p [Hp|[x Hx]]%tg_used0; [by apply tg_used1|]. right. exists x. by eapply lookup_weaken.
  - intros a Ha. rewrite tg_other1 by done. apply tg_other0.
    by eapply outside_tables_mono.
Qed.

(** Entries that are valid stay as they are, and so do all translations. *)
Record walk_keeps (m m' : memory) (T : gmap Z (nat * Z)) : Prop := {
  wk_valid : forall t lt pre j, T !! t = Some (lt, pre) -> 0 <= j < 512 ->
    Z.testbit (load64 m (t + 8 * j)) 0 = true -> load64 m' (t + 8 * j) = load64 m (t + 8 * j);
  wk_leaf : forall t lt va, 0 <= va -> T !! t = Some (lt, prefix lt va) ->
    leaf_pte lt m' t va = leaf_pte lt m t va
}.

Lemma walk_keeps_refl m T : walk_keeps m m T.
Proof. by split. Qed.

Lemma walk_keeps_trans m1 m2 m3 T1 T2 :
  T1 ⊆ T2 -> walk_keeps m1 m2 T1 -> walk_keeps m2 m3 T2 -> walk_keeps m1 m3 T1.
Proof.
  intros Hsub [V1 L1] [V2 L2]. split.
  - intros t lt pre j Ht Hj Hb. rewrite (V2 t lt pre j), (V1 t lt pre j); try done.
    + by eapply lookup_weaken.
    + by rewrite (V1 t lt pre j).
  - intros t lt va Hva Ht. rewrite L2, L1; try done. by eapply lookup_weaken.
Qed.

Lemma walk_loop_alloc lv pt va s T l :
  0 <= va < MAXVA -> pt_inv (ram s) T -> pages_inv s l -> tables_free T l ->
  T !! pt = Some (lv, prefix lv va) -> (lv <= 2)%nat ->
  exists r s' T' l', walk_loop lv pt va true s = Ret r s' /\
    tables_grown s s' T T' l l' /\ walk_keeps (ram s) (ram s') T /\
    ((r = 0 /\ l' = []) \/
     (exists t, T' !! t = Some (0%nat, prefix 0 va) /\ r = t + 8 * PX 0 va /\
        leaf_slot lv (ram s') pt va = Some r)).
Proof.
  intros Hvm. assert (0 <= va) as Hva by lia. revert pt s T l. induction lv as [|lv IH]; intros pt s T l Hinv Hpg Hfr Hpt Hlv.
  { exists (pt + 8 * PX 0 va), s, T, l. split_and!;
      [done|by apply tables_grown_refl|apply walk_keeps_refl|right; eauto]. }
  set (i := PX (Z.of_nat (S lv)) va).
  assert (0 <= i < 512) as Hi by (apply PX_range; lia).
  rewrite walk_loop_S. cbv zeta. fold i.
  destruct (Z.testbit (load64 (ram s) (pt + 8 * i)) 0) eqn:Hb.
  - destruct (IH (PTE2PA (load64 (ram s) (pt + 8 * i))) s T l) as
      (r & s' & T' & l' & Hrun & Htg & Hwk & Hres); [done|done|done| |lia|].
    { rewrite (prefix_step lv) by done. by apply (pt_child _ _ Hinv). }
    exists r, s', T', l'. split_and!; [done|done|done|].
    destruct Hres as [|(t & Ht & -> & Hs)]; [by left|right]. exists t.
    split_and!; [done|done|]. cbn [leaf_slot]. fold i.
    by rewrite (wk_valid _ _ _ Hwk pt (S lv) _ i Hpt Hi Hb), Hb.
  - pose proof (alloc_page_correct s l Hpg) as Hal.
    destruct l as [|child l].
    { rewrite Hal. exists 0, s, T, [].
      split_and!; [done|by apply tables_grown_refl|apply walk_keeps_refl|by left]. }
    destruct Hal as (s1 & Hrun1 & Hpg1 & Hram1 & Hst1 & Hen1).
    destruct (pages_inv_free_pages _ _ child Hpg) as [Hcok Hcr]; [by left|].
    assert (child mod 4096 = 0 /\ 0 < child < 2 ^ 56) as Hch by (destruct Hcok; done).
    assert (T !! child = None) as Hnew by (apply Hfr; by left).
    rewrite Hrun1, (proj2 (Z.eqb_neq child 0)) by lia.
    set (s2 := Machine _ _).
    assert (ram s2 = hook_child (ram s) pt i child) as Hram2
      by (subst s2; cbn [ram]; by rewrite Hram1).
    assert (pages_inv s2 l) as Hpg2.
    { subst s2. apply (pages_inv_client_write s1 l (fun _ => _) Hpg1). rewrite Hram1.
      intros p Hp. destruct (pages_inv_free_pages _ _ p Hpg) as [[Hpal _] _]; [by right|].
      pose proof (pi_nodup _ _ Hpg) as [Hnin _]%NoDup_cons.
      assert (p <> child) by congruence.
      assert (p <> pt).
      { intros ->. assert (T !! pt = None) by (apply Hfr; by right). congruence. }
      by apply (hook_page_other Hinv Hpt Hi Hch). }
    assert (pages s2 = pages s1) as Hps2 by done. clearbody s2.
    pose proof (hook_inv Hinv Hpt Hi Hb Hnew Hch) as Hinv2.
    set (T2 := <[child := (lv, prefix (S lv) va * 512 + i)]> T) in *.
    assert (tables_grown s s2 T T2 (child :: l) l) as Htg2.
    { pose proof (pi_nodup _ _ Hpg) as [Hnin _]%NoDup_cons.
      split.
      - by rewrite Hram2.
      - done.
      - intros p Hp. subst T2. rewrite lookup_insert_ne by congruence. apply Hfr. by right.
      - by apply insert_subseteq.
      - by exists [child].
      - intros t. subst T2. rewrite lookup_insert. case_decide; [|by left].
        subst. intros _. right. by split; [left|].
      - intros t lt pret. subst T2. rewrite lookup_insert. case_decide; [|by left]. intros [= <- <-]. right.
        unfold i. rewrite <- prefix_step by done. apply lower_prefix; [lia|done].
      - intros p [->|Hp]%elem_of_cons; [right; subst T2; by rewrite lookup_insert_eq|by left].
      - by rewrite Hps2.
      - by rewrite Hps2.
      - intros a Ha. rewrite Hram2. by apply (hook_other Hpt Hi Hnew). }
    assert (walk_keeps (ram s) (ram s2) T) as Hwk2.
    { rewrite Hram2. split.
      - intros t lt pre j Ht Hj Hbj. 
        apply (hook_entry_other Hinv Hpt Hi Hnew Hch t lt pre j Ht Hj). congruence.
      - intros t lt va' Hva' Ht. apply (hook_leaf_pte Hinv Hpt Hi Hb Hnew Hch); auto. }
    destruct (IH child s2 T2 l) as (r & s' & T' & l' & Hrun & Htg & Hwk & Hres).
    { by rewrite Hram2. }
    { by destruct Htg2. }
    { by destruct Htg2. }
    { subst T2. rewrite lookup_insert_eq, (prefix_step lv) by done. done. }
    { lia. }
    exists r, s', T', l'. split_and!; [done|by eapply tables_grown_trans| |].
    { eapply walk_keeps_trans; [|done|done]. by destruct Htg2. }
    destruct Hres as [|(t & Ht & -> & Hs)]; [by left|right]. exists t.
    split_and!; [done|done|]. cbn [leaf_slot]. fold i.
    destruct (child_pte_spec child) as (_ & Hv & Hpa); [lia..|].
    assert (load64 (ram s2) (pt + 8 * i) = Z.lor (PA2PTE child) PTE_V) as Hself
      by (rewrite Hram2; by apply (hook_entry_self Hch)).
    rewrite (wk_valid _ _ _ Hwk pt (S lv) (prefix (S lv) va) i);
      [by rewrite Hself, Hv, Hpa| |done|by rewrite Hself].
    subst T2. rewrite lookup_insert_ne by congruence. done.
Qed.

(** ** Writing a leaf entry *)

Section leaf.
Context {m : memory} {T : gmap Z (nat * Z)} (Hinv : pt_inv m T).
Context {t i pre v : Z} (Ht : T !! t = Some (0%nat, pre)) (Hi : 0 <= i < 512).
Context (Hv : 0 <= v < 2 ^ 64).

Let m' := store64 m (t + 8 * i) v.

Lemma leaf_entry_other t' lt pret j :
  T !! t' = Some (lt, pret) -> 0 <= j < 512 -> (t', j) <> (t, i) ->
  load64 m' (t' + 8 * j) = load64 m (t' + 8 * j).
Proof.
  intros Ht' Hj Hne. pose proof (pt_page _ _ Hinv _ _ _ Ht).
  pose proof (pt_page _ _ Hinv _ _ _ Ht'). unfold m'.
  apply load64_store64_ne, entry_disjoint; [lia..|congruence].
Qed.

Lemma leaf_inv : pt_inv m' T.
Proof.
  split; [apply (pt_page _ _ Hinv)|..].
  - intros t' lt pret j Ht' Hj. rewrite (leaf_entry_other t' (S lt) pret j Ht' Hj) by congruence. by apply (pt_child _ _ Hinv).
  - intros t' lt pret j Ht' Hj. rewrite (leaf_entry_other t' (S lt) pret j Ht' Hj) by congruence. by apply (pt_pointer _ _ Hinv _ lt pret).
  - intros t' lt pret Ht' Hlt. destruct (pt_parent _ _ Hinv _ _ _ Ht' Hlt) as (p & pre' & j & Hp & Hj & Hb). exists p, pre', j.
    by rewrite (leaf_entry_other p (S lt) pre' j Hp Hj) by congruence.
Qed.

Lemma leaf_slot_kept r lt va :
  0 <= va -> T !! r = Some (lt, prefix lt va) -> leaf_slot lt m' r va = leaf_slot lt m r va.
Proof.
  intros Hva. revert r. induction lt as [|lt IH]; intros r Hr; cbn [leaf_slot]; [done|].
  assert (0 <= PX (Z.of_nat (S lt)) va < 512) as Hj by (apply PX_range; lia).
  rewrite (leaf_entry_other r (S lt) _ _ Hr Hj) by congruence.
  case_match eqn:Hb; [|done]. apply IH. rewrite (prefix_step lt) by done.
  by apply (pt_child _ _ Hinv).
Qed.

Lemma leaf_pte_written r lt va :
  0 <= va -> T !! r = Some (lt, prefix lt va) -> leaf_slot lt m r va = Some (t + 8 * i) ->
  leaf_pte lt m' r va = if Z.testbit v 0 then Some v else None.
Proof.
  intros Hva Hr Hs. unfold leaf_pte. rewrite leaf_slot_kept, Hs by done.
  cbn [mbind option_bind]. unfold m'. by rewrite load64_store64_eq.
Qed.

Lemma leaf_pte_kept r lt va :
  0 <= va -> T !! r = Some (lt, prefix lt va) -> (prefix 0 va, PX 0 va) <> (pre, i) ->
  leaf_pte lt m' r va = leaf_pte lt m r va.
Proof.
  intros Hva Hr Hne. unfold leaf_pte. rewrite leaf_slot_kept by done.
  destruct (leaf_slot lt m r va) as [slot|] eqn:Hs; [|done].
  destruct (leaf_slot_table Hinv lt r va slot) as (t' & Ht' & ->); [done..|].
  cbn [mbind option_bind].
  rewrite (leaf_entry_other t' 0 (prefix 0 va)); [done|done|apply PX_range; lia|congruence].
Qed.
End leaf.

(** ** A well-formed address space *)

Record vm_ok (s : machine) (root : Z) (T : gmap Z (nat * Z)) (l : list Z) : Prop := {
  vm_inv : pt_inv (ram s) T;
  vm_pages : pages_inv s l;
  vm_free : tables_free T l;
  vm_root : T !! root = Some (2%nat, 0);
  vm_top : forall t lv pre, T !! t = Some (lv, pre) -> t = root \/ lower_table lv pre
}.

Lemma vm_root_prefix s root T l va :
  vm_ok s root T l -> 0 <= va < MAXVA -> T !! root = Some (2%nat, prefix 2 va).
Proof. intros Hok Hva. rewrite prefix_root by done. apply (vm_root _ _ _ _ Hok). Qed.

Lemma vm_grown s s' root T T' l l' :
  vm_ok s root T l -> tables_grown s s' T T' l l' -> vm_ok s' root T' l'.
Proof.
  intros Hok [] . split; try done.
  - eapply lookup_weaken; [apply (vm_root _ _ _ _ Hok)|done].
  - intros t lv pre [Ht|]%tg_level0; [by apply (vm_top _ _ _ _ Hok t lv pre)|by right].
Qed.

(** Writing one leaf entry keeps the address space well-formed. *)
Lemma vm_write_leaf s root T l t pre i v :
  vm_ok s root T l -> T !! t = Some (0%nat, pre) -> 0 <= i < 512 ->
  tables_grown s (set_ram (fun m => store64 m (t + 8 * i) v) s) T T l l.
Proof.
  intros [Hinv Hpg Hfr Hroot Htop] Ht Hi. pose proof (pt_page _ _ Hinv _ _ _ Ht) as Htp.
  split; try done.
  - by apply (leaf_inv Hinv Ht Hi).
  - apply pages_inv_client_write; [done|]. intros p Hp.
    destruct (pages_inv_free_pages _ _ _ Hpg Hp) as [[Hal _] _]. unfold PGSIZE in Hal.
    assert (p <> t). { intros ->. rewrite (Hfr _ Hp) in Ht. congruence. }
    apply load64_store64_ne. zlia.
  - intros tt. by left.
  - by left.
  - by left.
  - intros a Ha. apply store_other. destruct (Ha t); [by rewrite Ht|lia..].
Qed.

(** The entry [mappages] writes. *)
Definition map_pte (pa perm : Z) : Z := Z.lor (Z.lor (PA2PTE pa) perm) PTE_V.

Lemma lor_range64 a b : 0 <= a < 2 ^ 64 -> 0 <= b < 2 ^ 64 -> 0 <= Z.lor a b < 2 ^ 64.
Proof.
  intros Ha Hb. split; [apply Z.lor_nonneg; lia|].
  rewrite <- (Z.mod_small a (2 ^ 64)), <- (Z.mod_small b (2 ^ 64)) by done.
  rewrite <- !Z.land_ones, <- Z.land_lor_distr_l, Z.land_ones by lia.
  apply Z.mod_pos_bound. lia.
Qed.

Lemma map_pte_spec pa perm :
  0 <= perm < 2 ^ 64 -> 0 <= map_pte pa perm < 2 ^ 64 /\ Z.testbit (map_pte pa perm) 0 = true.
Proof.
  intros Hp. unfold map_pte. split.
  - apply lor_range64; [|by vm_compute]. apply lor_range64; [apply u64_range|done].
  - rewrite Z.lor_spec. by rewrite orb_true_r.
Qed.

(** One round of [mappages] on an unmapped page: either memory ran out, or
    the page is mapped and nothing else changed. *)
Lemma map_one_page s root T l a e :
  vm_ok s root T l -> 0 <= a < MAXVA -> translate (ram s) root a = None ->
  0 <= e < 2 ^ 64 -> Z.testbit e 0 = true ->
  exists r s1 T1 l1, walk root a true s = Ret r s1 /\ tables_grown s s1 T T1 l l1 /\
    (forall va, 0 <= va < MAXVA -> translate (ram s1) root va = translate (ram s) root va) /\
    ((r = 0 /\ l1 = []) \/
     (r <> 0 /\ Z.testbit (load64 (ram s1) r) 0 = false /\
      let s2 := set_ram (fun m => store64 m r e) s1 in
      tables_grown s s2 T T1 l l1 /\
      forall va, 0 <= va < MAXVA -> translate (ram s2) root va =
        if decide (va / 4096 = a / 4096) then Some e else translate (ram s) root va)).
Proof.
  intros Hok Ha Hnone He Hb. pose proof (vm_root_prefix _ _ _ _ a Hok Ha) as Hroot.
  destruct (walk_loop_alloc 2 root a s T l) as (r & s1 & T1 & l1 & Hrun & Htg & Hwk & Hres);
    [lia|apply Hok..|done|done|].
  exists r, s1, T1, l1. unfold walk. rewrite (proj2 (Z.leb_gt _ _)) by lia.
  assert (forall va, 0 <= va < MAXVA -> translate (ram s1) root va = translate (ram s) root va) as Hsame.
  { intros va Hva. apply (wk_leaf _ _ _ Hwk); [lia|by eapply vm_root_prefix]. }
  split_and!; [done|done|done|]. destruct Hres as [|(t & Ht & -> & Hslot)]; [by left|right].
  pose proof (vm_grown _ _ _ _ _ _ _ Hok Htg) as Hok1.
  assert (0 <= PX 0 a < 512) as Hi by (apply PX_range; lia).
  pose proof (pt_page _ _ (vm_inv _ _ _ _ Hok1) _ _ _ Ht) as Htp.
  split_and!; [lia| | |].
  - specialize (Hsame a Ha). rewrite Hnone in Hsame. unfold translate, leaf_pte in Hsame.
    rewrite Hslot in Hsame. cbn [mbind option_bind] in Hsame. by case_match.
  - eapply tables_grown_trans; [done|]. by apply (vm_write_leaf _ root _ _ _ (prefix 0 a)).
  - intros va Hva. cbn [set_ram ram]. case_decide as Hpage.
    + unfold translate. rewrite (leaf_pte_same_page _ _ _ va a Hpage).
      rewrite (leaf_pte_written (vm_inv _ _ _ _ Hok1) Ht Hi He);
        [by rewrite Hb|lia|by eapply vm_root_prefix|done].
    + rewrite <- Hsame by done. apply (leaf_pte_kept (vm_inv _ _ _ _ Hok1) Ht Hi);
        [lia|by eapply vm_root_prefix|].
      intros [= H1 H2]. by apply Hpage, same_leaf.
Qed.

(** ** [mappages] *)

(** One round of the loop of [mappages]. *)
Lemma mappages_loop_S fuel pt a last pa perm s :
  mappages_loop (S fuel) pt a last pa perm s =
  match walk pt a true s with
  | Ret pte s1 =>
      if pte =? 0 then Ret (-1) s1
      else if Z.testbit (load64 (ram s1) pte) 0 then Panic
      else
        let s2 := set_ram (fun m => store64 m pte (map_pte pa perm)) s1 in
        if a =? last then Ret 0 s2
        else mappages_loop fuel pt (u64 (a + PGSIZE)) last (u64 (pa + PGSIZE)) perm s2
  | TaskFail s1 => TaskFail s1
  | Panic => Panic
  | OutOfFuel => OutOfFuel
  end.
Proof.
  cbn [mappages_loop]. unfold kbind at 1. destruct (walk pt a true s) as [pte s1|s1| |]; try done.
  destruct (pte =? 0); [done|]. unfold kbind at 1, kget, rd_pte.
  rewrite pte_valid_bit, negb_involutive. destruct (Z.testbit (load64 (ram s1) pte) 0); [done|].
  unfold kbind, wr_pte, kmodify. by destruct (a =? last).
Qed.

Lemma mappages_loop_correct n a pa perm s root T l :
  vm_ok s root T l -> a mod 4096 = 0 -> 0 <= a -> a + (Z.of_nat n + 1) * 4096 <= MAXVA ->
  0 <= pa -> pa + (Z.of_nat n + 1) * 4096 <= 2 ^ 56 -> 0 <= perm < 2 ^ 64 ->
  (forall va, a <= va < a + (Z.of_nat n + 1) * 4096 -> translate (ram s) root va = None) ->
  exists r s' T' l', mappages_loop (S n) root a (a + Z.of_nat n * 4096) pa perm s = Ret r s' /\
    tables_grown s s' T T' l l' /\
    (forall va, 0 <= va < MAXVA -> ~ a <= va < a + (Z.of_nat n + 1) * 4096 ->
      translate (ram s') root va = translate (ram s) root va) /\
    ((r = -1 /\ l' = []) \/
     (r = 0 /\ forall va, a <= va < a + (Z.of_nat n + 1) * 4096 ->
       translate (ram s') root va = Some (map_pte (pa + (PGROUNDDOWN va - a)) perm))).
Proof.
  revert a pa s T l. induction n as [|n IH]; intros a pa s T l Hok Hal Ha Hmax Hpa Hpm Hperm Hun;
    rewrite mappages_loop_S.
  all: pose proof (va_range_pow a ltac:(lia)) as Hpow.
  all: destruct (map_pte_spec pa perm Hperm) as [He Hb].
  all: destruct (map_one_page s root T l a (map_pte pa perm)) as
    (r & s1 & T1 & l1 & -> & Htg1 & Hsame1 & Hres); [done|lia|apply Hun; lia|done|done|].
  all: destruct Hres as [[-> ->]|(Hr & Hinvalid & Htg2 & Htr)];
    [exists (-1), s1, T1, []; split_and!; [done|done|intros; by apply Hsame1|by left]|].
  all: rewrite (proj2 (Z.eqb_neq _ _) Hr), Hinvalid; cbv zeta in *.
  all: set (s2 := set_ram _ s1) in *; clearbody s2.
  - rewrite (proj2 (Z.eqb_eq _ _)) by lia. exists 0, s2, T1, l1. split_and!; [done|done| |right; split; [done|]].
    + intros va Hva Hout. rewrite Htr by done. rewrite decide_False by zlia. done.
    + intros va Hva. rewrite Htr by lia. rewrite decide_True by zlia.
      rewrite PGROUNDDOWN_eq. do 2 f_equal. zlia.
  - rewrite (proj2 (Z.eqb_neq _ _)) by lia.
    unfold PGSIZE. rewrite !u64_small by lia.
    destruct (IH (a + 4096) (pa + 4096) s2 T1 l1) as (r' & s' & T' & l' & Hrun & Htg & Hout & Hin);
      [by eapply vm_grown|zlia|lia|lia|lia|lia|done| |].
    { intros va Hva. rewrite Htr, decide_False by zlia. apply Hun. lia. }
    replace (a + 4096 + Z.of_nat n * 4096) with (a + Z.of_nat (S n) * 4096) in Hrun by lia.
    exists r', s', T', l'. split_and!; [done|by eapply tables_grown_trans| |].
    + intros va Hva Hn. rewrite Hout, Htr, decide_False by zlia. done.
    + destruct Hin as [|[-> Hin]]; [by left|right]. split; [done|]. intros va Hva.
      destruct (decide (va < a + 4096)) as [Hlt|Hge].
      * rewrite Hout, Htr, decide_True by zlia.
        rewrite PGROUNDDOWN_eq. do 2 f_equal. zlia.
      * rewrite Hin by lia. do 2 f_equal. lia.
Qed.

(** The pages a byte range touches. *)
Definition in_pages (va size va' : Z) : Prop :=
  PGROUNDDOWN va <= va' < PGROUNDDOWN (va + size - 1) + 4096.

#[export] Instance in_pages_dec va size va' : Decision (in_pages va size va').
Proof. unfold in_pages. apply _. Defined.

(** C7. [mappages] on an unmapped range below [MAXVA] always returns.  On
    success every address of the touched pages translates to the entry of the
    corresponding physical page with the requested permissions; on failure the
    allocator has run out of pages.  In both cases every other address
    translates as before, and no memory outside the tables is written. *)
Theorem mappages_correct s root T l va pa size perm :
  vm_ok s root T l -> 0 <= va -> 0 < size -> va + size <= MAXVA ->
  0 <= pa -> pa + size + 8192 <= 2 ^ 56 -> 0 <= perm < 2 ^ 64 ->
  (forall va', in_pages va size va' -> translate (ram s) root va' = None) ->
  let n := Z.to_nat ((PGROUNDDOWN (va + size - 1) - PGROUNDDOWN va) / PGSIZE) in
  exists r s' T' l', mappages (S n) root va pa size perm s = Ret r s' /\
    vm_ok s' root T' l' /\ T ⊆ T' /\
    (forall a, outside_tables T' a -> rd8 (ram s') a = rd8 (ram s) a) /\
    (forall va', 0 <= va' < MAXVA -> ~ in_pages va size va' ->
      translate (ram s') root va' = translate (ram s) root va') /\
    ((r = -1 /\ l' = []) \/
     (r = 0 /\ forall va', in_pages va size va' ->
       translate (ram s') root va' = Some (map_pte (pa + (PGROUNDDOWN va' - PGROUNDDOWN va)) perm))).
Proof.
  intros Hok Hva Hsz Hmax Hpa Hpm Hperm Hun n.
  assert (MAXVA = 2 ^ 38) as HM by done.
  pose proof (PGROUNDDOWN_bounds va) as [Hb1 Hal1].
  pose proof (PGROUNDDOWN_bounds (va + size - 1)) as [Hb2 Hal2].
  set (a := PGROUNDDOWN va) in *. set (last := PGROUNDDOWN (va + size - 1)) in *.
  assert (a <= last) as Hle by (subst a last; rewrite !PGROUNDDOWN_eq; zlia).
  assert (last = a + Z.of_nat n * 4096) as Hlast by (subst n; unfold PGSIZE; zlia).
  assert (0 <= a) as Ha0 by zlia.
  assert (last + 4096 <= MAXVA) as Hlm by (rewrite HM in *; zlia).
  destruct (mappages_loop_correct n a pa perm s root T l) as
    (r & s' & T' & l' & Hrun & Htg & Hout & Hres); [done|done|done|lia|done|lia|done| |].
  { intros va' Hva'. apply Hun. unfold in_pages. fold a last. lia. }
  exists r, s', T', l'. unfold mappages. rewrite u64_small by lia. fold a last.
  rewrite Hlast. unfold in_pages. fold a last. rewrite Hlast.
  split_and!; [done|by eapply vm_grown|apply Htg|apply Htg| |].
  - intros va' Hva' Hn. apply Hout; [done|]. lia.
  - destruct Hres as [|[-> Hin]]; [by left|right]. split; [done|].
    intros va' Hva'. apply Hin. lia.
Qed.

(** On an address whose tables exist, [walk] finds the entry and changes
    nothing. *)
Lemma walk_loop_present lv pt va alloc s slot :
  leaf_slot lv (ram s) pt va = Some slot -> walk_loop lv pt va alloc s = Ret slot s.
Proof.
  revert pt. induction lv as [|lv IH]; intros pt; [by intros [= <-]|].
  rewrite walk_loop_S. cbn [leaf_slot]. case_match; [apply IH|done].
Qed.

Lemma walk_mapped s root T l a alloc e :
  vm_ok s root T l -> 0 <= a < MAXVA -> translate (ram s) root a = Some e ->
  exists slot, leaf_slot 2 (ram s) root a = Some slot /\ walk root a alloc s = Ret slot s /\
    slot <> 0 /\ load64 (ram s) slot = e /\ Z.testbit e 0 = true.
Proof.
  intros Hok Ha He. unfold translate, leaf_pte in He.
  destruct (leaf_slot 2 (ram s) root a) as [slot|] eqn:Hs; [|done].
  cbn [mbind option_bind] in He. exists slot.
  destruct (leaf_slot_table (vm_inv _ _ _ _ Hok) 2 root a slot) as (t & Ht & Hslot);
    [lia|by eapply vm_root_prefix|done|].
  pose proof (pt_page _ _ (vm_inv _ _ _ _ Hok) _ _ _ Ht) as Htp.
  pose proof (PX_range 0 a ltac:(lia)) as Hpx.
  unfold walk. rewrite (proj2 (Z.leb_gt _ _)) by lia.
  case_match eqn:Hb; [|done]. simplify_eq.
  split_and!; [done|by apply walk_loop_present|lia|done|done].
Qed.

(** [mappages] refuses to map over an existing mapping: when the first
    page of the range is already mapped, it panics ("remap"). *)
Theorem mappages_remap_panics fuel s root T l va pa size perm e :
  vm_ok s root T l -> 0 <= va < MAXVA -> translate (ram s) root va = Some e ->
  mappages (S fuel) root va pa size perm s = Panic.
Proof.
  intros Hok Hva He. pose proof (PGROUNDDOWN_bounds va) as [Hb Hal].
  unfold mappages. rewrite mappages_loop_S. set (a := PGROUNDDOWN va) in *.
  assert (0 <= a < MAXVA) as Ha by zlia.
  destruct (walk_mapped s root T l a true e) as (slot & Hslot & Hrun & Hnz & Hload & Hbit);
    [done|done| |].
  { rewrite <- He. apply leaf_pte_same_page. subst a. rewrite PGROUNDDOWN_eq. zlia. }
  by rewrite Hrun, (proj2 (Z.eqb_neq _ _) Hnz), Hload, Hbit.
Qed.

(** ** [uvmunmap] *)

(** One round of the loop of [uvmunmap]. *)
Lemma uvmunmap_loop_S fuel pt a last do_free s :
  uvmunmap_loop (S fuel) pt a last do_free s =
  match walk pt a false s with
  | Ret pte s1 =>
      let e := load64 (ram s1) pte in
      if pte =? 0 then Panic
      else if negb (Z.testbit e 0) then Panic
      else if PTE_FLAGS e =? PTE_V then Panic
      else
        match (if do_free then free_page (PTE2PA e) else kret tt) s1 with
        | Ret _ s2 =>
            let s3 := set_ram (fun m => store64 m pte 0) s2 in
            if a =? last then Ret tt s3
            else uvmunmap_loop fuel pt (u64 (a + PGSIZE)) last do_free s3
        | TaskFail s2 => TaskFail s2
        | Panic => Panic
        | OutOfFuel => OutOfFuel
        end
  | TaskFail s1 => TaskFail s1
  | Panic => Panic
  | OutOfFuel => OutOfFuel
  end.
Proof.
  cbn [uvmunmap_loop]. unfold kbind at 1. destruct (walk pt a false s) as [pte s1|s1| |]; try done.
  destruct (pte =? 0); [done|]. unfold kbind at 1, kget, rd_pte. rewrite pte_valid_bit.
  destruct (Z.testbit (load64 (ram s1) pte) 0); [|done]. cbn [negb].
  destruct (PTE_FLAGS (load64 (ram s1) pte) =? PTE_V); [done|]. unfold kbind at 1.
  destruct do_free.
  1: destruct (free_page (PTE2PA (load64 (ram s1) pte)) s1) as [u s2|s2| |]; try done.
  all: unfold kbind, wr_pte, kmodify, kret; by destruct (a =? last).
Qed.

(** Memory that agrees on the table pages has the same tables. *)
Definition tables_agree (T : gmap Z (nat * Z)) (m m' : memory) : Prop :=
  forall t, is_Some (T !! t) -> mem_agree t (t + 4096) m m'.

Lemma tables_agree_entry T m m' t x j :
  tables_agree T m m' -> T !! t = Some x -> 0 <= j < 512 ->
  load64 m' (t + 8 * j) = load64 m (t + 8 * j).
Proof. intros Hag Ht Hj. apply load_agree. intros b Hb. apply (Hag t); [by rewrite Ht|lia]. Qed.

Lemma pt_inv_agree T m m' : tables_agree T m m' -> pt_inv m T -> pt_inv m' T.
Proof.
  intros Hag Hinv. split; [apply (pt_page _ _ Hinv)|..].
  - intros t lt pre j Ht Hj. rewrite (tables_agree_entry _ _ _ _ _ _ Hag Ht Hj). by apply (pt_child _ _ Hinv).
  - intros t lt pre j Ht Hj. rewrite (tables_agree_entry _ _ _ _ _ _ Hag Ht Hj). by apply (pt_pointer _ _ Hinv _ lt pre).
  - intros t lt pre Ht Hlt. destruct (pt_parent _ _ Hinv _ _ _ Ht Hlt) as (p & pre' & j & Hp & Hj & Hb). exists p, pre', j.
    by rewrite (tables_agree_entry _ _ _ _ _ _ Hag Hp Hj).
Qed.

Lemma leaf_slot_agree T m m' lt t va :
  tables_agree T m m' -> pt_inv m T -> 0 <= va -> T !! t = Some (lt, prefix lt va) ->
  leaf_slot lt m' t va = leaf_slot lt m t va.
Proof.
  intros Hag Hinv Hva. revert t.
  induction lt as [|lt IH]; intros t Ht; cbn [leaf_slot]; [done|].
  assert (0 <= PX (Z.of_nat (S lt)) va < 512) as Hj by (apply PX_range; lia).
  rewrite (tables_agree_entry _ _ _ _ _ _ Hag Ht Hj).
  case_match eqn:Hb; [|done]. apply IH. rewrite (prefix_step lt) by done.
  by apply (pt_child _ _ Hinv).
Qed.

Lemma leaf_pte_agree T m m' lt t va :
  tables_agree T m m' -> pt_inv m T -> 0 <= va -> T !! t = Some (lt, prefix lt va) ->
  leaf_pte lt m' t va = leaf_pte lt m t va.
Proof.
  intros Hag Hinv Hva Ht. unfold leaf_pte. rewrite (leaf_slot_agree T m) by done.
  destruct (leaf_slot lt m t va) as [slot|] eqn:Hs; [|done].
  destruct (leaf_slot_table Hinv lt t va slot) as (t' & Ht' & ->); [done..|].
  cbn [mbind option_bind].
  rewrite (tables_agree_entry _ _ _ _ _ _ Hag Ht') by (apply PX_range; lia). done.
Qed.

(** Freeing a page that is not a table page keeps the address space. *)
Lemma vm_free_page s root T l p :
  vm_ok s root T l -> page_ok (pages s) p -> p ∉ l -> T !! p = None ->
  exists s', free_page p s = Ret tt s' /\ vm_ok s' root T (p :: l) /\
    tables_agree T (ram s) (ram s') /\
    pa_start (pages s') = pa_start (pages s) /\ pa_end (pages s') = pa_end (pages s).
Proof.
  intros [Hinv Hpg Hfr Hroot Htop] Hp Hnl Hnt.
  destruct (free_page_correct s l p) as (s' & Hrun & Hpg' & Hst & Hen & Hmem); [done..|].
  assert (tables_agree T (ram s) (ram s')) as Hag.
  { intros t [[lt pre] Ht] a Ha. apply Hmem. pose proof (pt_page _ _ Hinv _ _ _ Ht).
    assert (t <> p) by congruence. destruct Hp as [Hal _]. unfold PGSIZE in Hal. zlia. }
  exists s'. split_and!; [done| |done|done|done]. split; [by eapply pt_inv_agree|done| |done|done].
  intros q [->|Hq]%elem_of_cons; [done|by apply Hfr].
Qed.

(** What [uvmunmap] needs to free the pages behind the entries [es]. *)
Definition freeable (s : machine) (T : gmap Z (nat * Z)) (l : list Z) (es : list Z) : Prop :=
  NoDup (PTE2PA <$> es) /\
  forall e, e ∈ es -> page_ok (pages s) (PTE2PA e) /\ (PTE2PA e ∉ l) /\ T !! (PTE2PA e) = None.

(** One round of [uvmunmap] on a mapped page. *)
Lemma unmap_one_page s root T l a e do_free :
  vm_ok s root T l -> 0 <= a < MAXVA -> translate (ram s) root a = Some e ->
  PTE_FLAGS e <> PTE_V ->
  (do_free = true -> page_ok (pages s) (PTE2PA e) /\ (PTE2PA e ∉ l) /\ T !! (PTE2PA e) = None) ->
  exists slot s2, walk root a false s = Ret slot s /\ slot <> 0 /\ load64 (ram s) slot = e /\
    (if do_free then free_page (PTE2PA e) else kret tt) s = Ret tt s2 /\
    let s3 := set_ram (fun m => store64 m slot 0) s2 in
    vm_ok s3 root T (if do_free then PTE2PA e :: l else l) /\
    pa_start (pages s3) = pa_start (pages s) /\ pa_end (pages s3) = pa_end (pages s) /\
    forall va, 0 <= va < MAXVA -> translate (ram s3) root va =
      if decide (va / 4096 = a / 4096) then None else translate (ram s) root va.
Proof.
  intros Hok Ha He Hfl Hfree.
  destruct (walk_mapped s root T l a false e) as (slot & Hslot & Hrun & Hnz & Hload & Hbit);
    [done..|].
  destruct (leaf_slot_table (vm_inv _ _ _ _ Hok) 2 root a slot) as (t & Ht & Hst);
    [lia|by eapply vm_root_prefix|done|].
  assert (exists s2, (if do_free then free_page (PTE2PA e) else kret tt) s = Ret tt s2 /\
    vm_ok s2 root T (if do_free then PTE2PA e :: l else l) /\ tables_agree T (ram s) (ram s2) /\
    pa_start (pages s2) = pa_start (pages s) /\ pa_end (pages s2) = pa_end (pages s))
    as (s2 & Hrun2 & Hok2 & Hag & Hps & Hpe).
  { destruct do_free; [|by exists s].
    destruct Hfree as (H1 & H2 & H3); [done|]. by apply vm_free_page. }
  exists slot, s2. split_and!; try done. subst slot.
  assert (0 <= PX 0 a < 512) as Hi by (apply PX_range; lia).
  assert (0 <= 0 < 2 ^ 64) as Hz by lia.
  split_and!; [eapply vm_grown; [done|]; by apply (vm_write_leaf _ root _ _ _ (prefix 0 a))|done|done|].
  assert (forall va, 0 <= va < MAXVA -> translate (ram s2) root va = translate (ram s) root va) as Hsame.
  { intros va Hva. apply (leaf_pte_agree T); [done|apply Hok|lia|by eapply vm_root_prefix]. }
  intros va Hva. cbn [set_ram ram]. case_decide as Hpage.
  - unfold translate. rewrite (leaf_pte_same_page _ _ _ va a Hpage).
    rewrite (leaf_pte_written (vm_inv _ _ _ _ Hok2) Ht Hi Hz);
      [done|lia|by eapply vm_root_prefix|].
    rewrite <- Hslot. apply (leaf_slot_agree T); [done|apply Hok|lia|by eapply vm_root_prefix].
  - rewrite <- Hsame by done. apply (leaf_pte_kept (vm_inv _ _ _ _ Hok2) Ht Hi);
      [lia|by eapply vm_root_prefix|].
    intros [= H1 H2]. by apply Hpage, same_leaf.
Qed.

Lemma uvmunmap_loop_correct es a s root T l do_free :
  vm_ok s root T l -> a mod 4096 = 0 -> 0 <= a -> es <> [] ->
  a + Z.of_nat (length es) * 4096 <= MAXVA ->
  (forall i e, es !! i = Some e ->
    translate (ram s) root (a + Z.of_nat i * 4096) = Some e /\ PTE_FLAGS e <> PTE_V) ->
  (do_free = true -> freeable s T l es) ->
  exists s', uvmunmap_loop (length es) root a (a + (Z.of_nat (length es) - 1) * 4096) do_free s = Ret tt s' /\
    vm_ok s' root T (if do_free then rev (PTE2PA <$> es) ++ l else l) /\
    forall va, 0 <= va < MAXVA -> translate (ram s') root va =
      if decide (a <= va < a + Z.of_nat (length es) * 4096) then None
      else translate (ram s) root va.
Proof.
  revert a s l. induction es as [|e es IH]; intros a s l Hok Hal Ha Hne Hmax Hes Hfr; [done|].
  assert (MAXVA = 2 ^ 38) as HM by done.
  cbn [length] in *. rewrite uvmunmap_loop_S.
  destruct (Hes 0%nat e) as [He Hfl]; [done|]. rewrite Z.add_0_r in He.
  destruct (unmap_one_page s root T l a e do_free) as
    (slot & s2 & -> & Hnz & Hload & Hrun2 & Hok3 & Hps & Hpe & Htr); [done|lia|done|done| |].
  { intros ->. destruct (Hfr eq_refl) as [_ Hf]. apply Hf. by left. }
  pose proof (walk_mapped s root T l a false e Hok ltac:(lia) He) as (_ & _ & _ & _ & _ & Hbit).
  cbv zeta in *. rewrite (proj2 (Z.eqb_neq _ _) Hnz), Hload, Hbit. cbn [negb].
  rewrite (proj2 (Z.eqb_neq _ _) Hfl), Hrun2.
  set (s3 := set_ram _ s2) in *. clearbody s3.
  destruct es as [|e' es].
  { rewrite (proj2 (Z.eqb_eq _ _)) by (cbn [length]; lia). exists s3. split_and!; [done| |].
    - by destruct do_free.
    - intros va Hva. rewrite Htr by done. cbn [length].
      repeat case_decide; try done; zlia. }
  rewrite (proj2 (Z.eqb_neq _ _)) by (cbn [length]; lia).
  unfold PGSIZE. rewrite u64_small by (cbn [length] in *; lia).
  destruct (IH (a + 4096) s3 (if do_free then PTE2PA e :: l else l)) as (s' & Hrun & Hok' & Htr');
    [done|zlia|lia|done|lia| | |].
  { intros i x Hx. destruct (Hes (S i) x Hx) as [Hx1 Hx2]. split; [|done].
    assert (S i < S (length (e' :: es)))%nat as Hil by (apply lookup_lt_Some in Hx; lia).
    rewrite Htr, decide_False by zlia. rewrite <- Hx1. f_equal. lia. }
  { intros ->. destruct (Hfr eq_refl) as [Hnd Hf]. rewrite fmap_cons in Hnd.
    apply NoDup_cons in Hnd as [Hnin Hnd]. split; [done|]. intros x Hx.
    destruct (Hf x) as (H1 & H2 & H3); [by right|]. split_and!; [by eapply page_ok_ext| |done].
    rewrite not_elem_of_cons. split; [|done]. intros Heq. apply Hnin.
    rewrite <- Heq. apply list_elem_of_fmap. eauto. }
  replace (a + 4096 + (Z.of_nat (length (e' :: es)) - 1) * 4096)
    with (a + (Z.of_nat (S (length (e' :: es))) - 1) * 4096) in Hrun by lia.
  exists s'. split_and!; [done| |].
  - destruct do_free; [|done]. rewrite fmap_cons. cbn [rev]. by rewrite <- app_assoc.
  - intros va Hva. rewrite Htr', Htr by done. repeat case_decide; try done; zlia.
Qed.

(** C10. [uvmunmap] of a mapped range returns, leaves no address of the range
    mapped and every other translation unchanged, and, when asked to free,
    puts the physical pages back on the free list, each once. *)
Theorem uvmunmap_correct s root T l va es do_free :
  vm_ok s root T l -> va mod PGSIZE = 0 -> 0 <= va -> es <> [] ->
  va + Z.of_nat (length es) * PGSIZE <= MAXVA ->
  (forall i e, es !! i = Some e ->
    translate (ram s) root (va + Z.of_nat i * PGSIZE) = Some e /\ PTE_FLAGS e <> PTE_V) ->
  (do_free = true -> freeable s T l es) ->
  let size := Z.of_nat (length es) * PGSIZE in
  exists s', uvmunmap (length es) root va size do_free s = Ret tt s' /\
    vm_ok s' root T (if do_free then rev (PTE2PA <$> es) ++ l else l) /\
    (forall va', va <= va' < va + size -> translate (ram s') root va' = None) /\
    (forall va', 0 <= va' < MAXVA -> ~ va <= va' < va + size ->
      translate (ram s') root va' = translate (ram s) root va').
Proof.
  intros Hok Hal Ha Hne Hmax Hes Hfr size. unfold PGSIZE in *.
  assert (MAXVA = 2 ^ 38) as HM by done.
  assert (0 < Z.of_nat (length es)) by (destruct es; [done|cbn [length]; lia]).
  destruct (uvmunmap_loop_correct es va s root T l do_free) as (s' & Hrun & Hok' & Htr); [done..|].
  exists s'. unfold uvmunmap, PGSIZE. subst size.
  rewrite Hal, Z.mod_mul by lia. rewrite u64_small, PGROUNDDOWN_eq by lia.
  replace (va + _ - 1 - _) with (va + (Z.of_nat (length es) - 1) * 4096) by zlia.
  split_and!; [done|done| |].
  - intros va' Hva'. rewrite Htr, decide_True by lia. done.
  - intros va' Hva' Hn. rewrite Htr, decide_False by done. done.
Qed.
