(* ===== verification/UserCopy.v ===== *)
(** * Copies between kernel and user memory

    [walkaddr], [copyout], [copyin] and [memset_user] of src/os/mm/vmem.cc move
    bytes page by page through the page table.  The theorems say that they
    move exactly the bytes of the range, at the physical addresses the range
    translates to, and that what is copied out is copied in again. *)
From S2P Require Import Prelude Memory CString Riscv PageAlloc Vmem PageTable.

(** ** User translation *)

(** The physical page a user address may be accessed at. *)
Definition user_page (m : memory) (root va : Z) : option Z :=
  if MAXVA <=? va then None
  else e ← translate m root va; if Z.testbit e 4 then Some (PTE2PA e) else None.

(** The physical address of the byte at [va]; 0 is never a valid page. *)
Definition user_pa (m : memory) (root va : Z) : Z :=
  default 0 (user_page m root va) + va mod 4096.

Definition user_mapped (m : memory) (root va : Z) : Prop :=
  exists pa, user_page m root va = Some pa /\ pa <> 0.

Lemma pte_user_bit e : (Z.land e PTE_U =? 0) = negb (Z.testbit e 4).
Proof. apply (land_pow2_testbit e 4). lia. Qed.

Lemma walkaddr_run s root T l va :
  vm_ok s root T l -> 0 <= va ->
  walkaddr root va s = Ret (default 0 (user_page (ram s) root va)) s.
Proof.
  intros Hok Hva. unfold walkaddr, user_page. destruct (Z.leb_spec MAXVA va) as [|Hlt]; [done|].
  unfold kbind. rewrite walk_noalloc by done. unfold translate, leaf_pte.
  destruct (leaf_slot 2 (ram s) root va) as [slot|] eqn:Hs; [|done].
  destruct (leaf_slot_table (vm_inv _ _ _ _ Hok) 2 root va slot) as (t & Ht & Hslot);
    [done|by eapply vm_root_prefix|done|].
  pose proof (pt_page _ _ (vm_inv _ _ _ _ Hok) _ _ _ Ht) as Htp.
  pose proof (PX_range 0 va ltac:(lia)) as Hpx.
  cbn [default mbind option_bind from_option id]. rewrite (proj2 (Z.eqb_neq _ _)) by lia.
  unfold kget, rd_pte. rewrite pte_valid_bit, pte_user_bit.
  destruct (Z.testbit (load64 (ram s) slot) 0); [|done]. cbn [negb mbind option_bind].
  by destruct (Z.testbit (load64 (ram s) slot) 4).
Qed.

Lemma user_page_same_page m root va va' :
  0 <= va < MAXVA -> 0 <= va' < MAXVA -> va / 4096 = va' / 4096 ->
  user_page m root va = user_page m root va'.
Proof.
  intros H1 H2 He. unfold user_page, translate.
  rewrite !(proj2 (Z.leb_gt _ _)), (leaf_pte_same_page _ _ _ va va') by (lia || done). done.
Qed.

Lemma user_page_agree s root T l m' va :
  vm_ok s root T l -> tables_agree T (ram s) m' -> 0 <= va ->
  user_page m' root va = user_page (ram s) root va.
Proof.
  intros Hok Hag Hva. unfold user_page. destruct (Z.leb_spec MAXVA va); [done|].
  unfold translate. rewrite (leaf_pte_agree T (ram s)); try done; [apply Hok|].
  by eapply vm_root_prefix.
Qed.

Lemma user_pa_agree s root T l m' va :
  vm_ok s root T l -> tables_agree T (ram s) m' -> 0 <= va ->
  user_pa m' root va = user_pa (ram s) root va.
Proof. intros. unfold user_pa. by erewrite user_page_agree. Qed.

(** Inside one page, physical addresses advance with virtual ones. *)
Lemma user_pa_offset m root va k :
  0 <= va -> 0 <= k -> va mod 4096 + k < 4096 -> va + k < MAXVA ->
  user_pa m root (va + k) = user_pa m root va + k.
Proof.
  intros Hva Hk Hpage Hmax. unfold user_pa.
  rewrite (user_page_same_page m root (va + k) va) by zlia. zlia.
Qed.

(** Writes outside the tables and the free pages keep the address space. *)
Lemma vm_data_write s root T l f :
  vm_ok s root T l -> tables_agree T (ram s) (f (ram s)) ->
  (forall p, p ∈ l -> load64 (f (ram s)) p = load64 (ram s) p) ->
  vm_ok (set_ram f s) root T l.
Proof.
  intros [Hinv Hpg Hfr Hroot Htop] Hag Hl. split; [|by apply pages_inv_client_write|done|done|done].
  by apply (pt_inv_agree T (ram s)).
Qed.

(** A user range whose bytes are mapped, are not page-table or free memory,
    and are pairwise distinct. *)
Record user_range (s : machine) (root : Z) (T : gmap Z (nat * Z)) (l : list Z) (va len : Z) : Prop := {
  ur_bounds : 0 <= va /\ va + len <= MAXVA;
  ur_mapped : forall k, 0 <= k < len -> user_mapped (ram s) root (va + k);
  ur_tables : forall k, 0 <= k < len -> outside_tables T (user_pa (ram s) root (va + k));
  ur_free : forall k p, 0 <= k < len -> p ∈ l ->
    user_pa (ram s) root (va + k) < p \/ p + 4096 <= user_pa (ram s) root (va + k);
  ur_inj : forall j k, 0 <= j < len -> 0 <= k < len ->
    user_pa (ram s) root (va + j) = user_pa (ram s) root (va + k) -> j = k
}.

(** The number of pages a range touches: what the copy loops need as fuel. *)
Definition pages_touched (va len : Z) : Z :=
  if len <=? 0 then 0 else (va + len - 1) / 4096 - va / 4096 + 1.

Lemma pages_touched_step va len :
  0 <= va -> 0 < len -> let n := Z.min (4096 - va mod 4096) len in
  pages_touched (PGROUNDDOWN va + 4096) (len - n) = pages_touched va len - 1 /\
  (len - n = 0 \/ PGROUNDDOWN va + 4096 = va + n).
Proof.
  intros Hva Hlen. cbv zeta. rewrite PGROUNDDOWN_eq. unfold pages_touched.
  destruct (Z.leb_spec len 0); [lia|].
  destruct (Z.leb_spec (len - Z.min (4096 - va mod 4096) len) 0); zlia.
Qed.

(** The machine after a write through a chunk of a user range. *)
Lemma user_chunk_written s root T l va len n f :
  vm_ok s root T l -> user_range s root T l va len -> 0 <= n <= len ->
  (forall a, (forall k, 0 <= k < n -> a <> user_pa (ram s) root (va + k)) -> rd8 (f (ram s)) a = rd8 (ram s) a) ->
  tables_agree T (ram s) (f (ram s)) /\ vm_ok (set_ram f s) root T l.
Proof.
  intros Hok Hur Hn Hf.
  assert (tables_agree T (ram s) (f (ram s))) as Hag.
  { intros t Ht a Ha. apply Hf. intros k Hk Heq.
    destruct (ur_tables _ _ _ _ _ _ Hur k ltac:(lia) t Ht); lia. }
  split; [done|]. apply vm_data_write; [done|done|]. intros p Hp. apply load_agree.
  intros a Ha. apply Hf. intros k Hk Heq.
  destruct (ur_free _ _ _ _ _ _ Hur k p ltac:(lia) Hp); lia.
Qed.

(** The rest of a range, after a write that keeps the address space. *)
Lemma user_range_rest s root T l va len n f :
  vm_ok s root T l -> user_range s root T l va len -> 0 <= n <= len ->
  tables_agree T (ram s) (f (ram s)) ->
  user_range (set_ram f s) root T l (va + n) (len - n).
Proof.
  intros Hok [Hb Hm Ht Hf Hi] Hn Hag. cbn [set_ram ram].
  assert (forall k, 0 <= k < len - n ->
    user_pa (f (ram s)) root (va + n + k) = user_pa (ram s) root (va + (n + k))) as Hpa.
  { intros k Hk. rewrite <- Z.add_assoc. eapply user_pa_agree; [done|done|lia]. }
  split.
  - lia.
  - intros k Hk. destruct (Hm (n + k)) as (pa & Hpa' & Hnz); [lia|]. exists pa.
    split; [|done]. rewrite <- Z.add_assoc. cbn [ram set_ram].
    rewrite (user_page_agree _ _ _ _ _ _ Hok Hag) by lia. done.
  - intros k Hk. cbn [ram set_ram]. rewrite Hpa by done. apply Ht. lia.
  - intros k p Hk Hp. cbn [ram set_ram]. rewrite Hpa by done. apply Hf; [lia|done].
  - intros j k Hj Hk. cbn [ram set_ram]. rewrite !Hpa by done. intros Heq.
    apply Hi in Heq; lia.
Qed.

(** ** [copyout] *)

(** One round of the copy loop of [copyout] on a mapped page. *)
Lemma copyout_round fuel s root T l va src len :
  vm_ok s root T l -> 0 <= va < MAXVA -> 0 < len -> user_mapped (ram s) root va ->
  let n := Z.min (4096 - va mod 4096) len in
  copyout (S fuel) root va src len s =
  copyout fuel root (u64 (PGROUNDDOWN va + 4096)) (src + n) (len - n)
    (set_ram (fun m => memmove m (user_pa (ram s) root va) src (Z.to_nat n)) s).
Proof.
  intros Hok Hva Hlen (pa & Hpa & Hnz) n. cbn [copyout].
  rewrite (proj2 (Z.ltb_lt _ _)) by done. pose proof (PGROUNDDOWN_bounds va) as [Hb _].
  assert (0 <= PGROUNDDOWN va) by (rewrite PGROUNDDOWN_eq; zlia).
  rewrite (kbind_ret _ _ _ _ _ (walkaddr_run s root T l (PGROUNDDOWN va) Hok ltac:(lia))).
  rewrite (user_page_same_page _ _ _ va) by (rewrite ?PGROUNDDOWN_eq; zlia).
  unfold user_pa. rewrite Hpa. cbn [default from_option id].
  rewrite (proj2 (Z.eqb_neq _ _) Hnz). unfold kbind, kmodify, PGSIZE.
  replace (va - PGROUNDDOWN va) with (va mod 4096) by (rewrite PGROUNDDOWN_eq; lia). done.
Qed.

(** The bytes a range of physical addresses holds after [memmove] to it. *)
Lemma memmove_chunk m root va src n a :
  0 <= va -> 0 <= n -> va mod 4096 + n <= 4096 -> va + n <= MAXVA ->
  (forall k, 0 <= k < n -> a <> user_pa m root (va + k)) ->
  rd8 (memmove m (user_pa m root va) src (Z.to_nat n)) a = rd8 m a.
Proof.
  intros Hva Hn Hpg Hmax Ha. rewrite memmove_spec, decide_False; [done|]. intros Hr.
  apply (Ha (a - user_pa m root va)); [lia|]. rewrite user_pa_offset by lia. lia.
Qed.

Lemma copyout_loop_correct fuel s root T l va src len :
  vm_ok s root T l -> user_range s root T l va len -> 0 <= len ->
  (forall k, 0 <= k < len -> ~ src <= user_pa (ram s) root (va + k) < src + len) ->
  pages_touched va len < Z.of_nat fuel ->
  exists s', copyout fuel root va src len s = Ret 0 s' /\
    vm_ok s' root T l /\ tables_agree T (ram s) (ram s') /\
    (forall k, 0 <= k < len -> rd8 (ram s') (user_pa (ram s) root (va + k)) = rd8 (ram s) (src + k)) /\
    (forall a, (forall k, 0 <= k < len -> a <> user_pa (ram s) root (va + k)) ->
      rd8 (ram s') a = rd8 (ram s) a).
Proof.
  revert s va src len. induction fuel as [|fuel IH]; intros s va src len Hok Hur Hlen Hsrc Hf.
  { unfold pages_touched in Hf. case_match; zlia. }
  destruct (decide (len = 0)) as [->|Hpos].
  { exists s. split_and!; [done|done|by intros t _ a _| |]; intros; [lia|done]. }
  pose proof (ur_bounds _ _ _ _ _ _ Hur) as [Hva Hmax].
  rewrite (copyout_round fuel s root T l) by
    (done || lia || (rewrite <- (Z.add_0_r va); apply (ur_mapped _ _ _ _ _ _ Hur); lia)).
  cbv zeta. destruct (pages_touched_step va len) as [Hpt Hnext]; [lia..|]. cbv zeta in *.
  set (n := Z.min (4096 - va mod 4096) len) in *.
  assert (0 < n <= len /\ va mod 4096 + n <= 4096) as [Hn Hpage] by zlia.
  set (f := fun m : memory => memmove m (user_pa (ram s) root va) src (Z.to_nat n)).
  assert (forall a, (forall k, 0 <= k < n -> a <> user_pa (ram s) root (va + k)) ->
    rd8 (f (ram s)) a = rd8 (ram s) a) as Hfo by (intros; apply memmove_chunk; lia || done).
  destruct (user_chunk_written s root T l va len n f) as [Hag Hok1]; [done|done|lia|done|].
  assert (MAXVA = 2 ^ 38) as HM by done.
  rewrite u64_small by (rewrite PGROUNDDOWN_eq; zlia).
  assert (exists s', copyout fuel root (PGROUNDDOWN va + 4096) (src + n) (len - n) (set_ram f s) = Ret 0 s' /\
    vm_ok s' root T l /\ tables_agree T (f (ram s)) (ram s') /\
    (forall k, 0 <= k < len - n ->
      rd8 (ram s') (user_pa (ram s) root (va + (n + k))) = rd8 (f (ram s)) (src + n + k)) /\
    (forall a, (forall k, 0 <= k < len - n -> a <> user_pa (ram s) root (va + (n + k))) ->
      rd8 (ram s') a = rd8 (f (ram s)) a)) as (s' & Hrun & Hok' & Hag' & Hin & Hout).
  { destruct Hnext as [Hz|Heq].
    - rewrite Hz. exists (set_ram f s). split_and!; [|done|by intros t _ a _|intros; lia|done].
      rewrite Hz in Hpt. change (pages_touched (PGROUNDDOWN va + 4096) 0) with 0 in Hpt.
      destruct fuel; [lia|done].
    - rewrite Heq. assert (forall k, 0 <= k < len - n ->
        user_pa (f (ram s)) root (va + n + k) = user_pa (ram s) root (va + (n + k))) as Hpa.
      { intros k Hk. rewrite <- Z.add_assoc. eapply user_pa_agree; [done|done|lia]. }
      destruct (IH (set_ram f s) (va + n) (src + n) (len - n)) as (s' & Hrun & Hok' & Hag' & Hin & Hout).
      + done.
      + by apply user_range_rest; [| |lia|].
      + lia.
      + intros k Hk. cbn [ram set_ram]. rewrite Hpa by done. specialize (Hsrc (n + k)). lia.
      + rewrite <- Heq. lia.
      + exists s'. split_and!; [done|done|done| |].
        * intros k Hk. rewrite <- Hpa by done. by apply Hin.
        * intros a Ha. apply Hout. intros k Hk. cbn [ram set_ram]. rewrite Hpa by done. by apply Ha. }
  exists s'. split_and!; [done|done| | |].
  - intros t Ht a Ha. rewrite (Hag' t Ht a Ha). apply (Hag t Ht a Ha).
  - intros k Hk. destruct (decide (k < n)) as [Hlt|Hge].
    + rewrite Hout.
      * unfold f. rewrite memmove_spec, user_pa_offset, decide_True by lia. f_equal. lia.
      * intros j Hj Heq. apply (ur_inj _ _ _ _ _ _ Hur) in Heq; lia.
    + replace k with (n + (k - n)) by lia. rewrite Hin by lia. rewrite Hfo; [f_equal; lia|].
      intros j Hj Heq. apply (Hsrc j); [lia|]. rewrite <- Heq. lia.
  - intros a Ha. rewrite Hout, Hfo; [done| |]; intros k Hk; apply Ha; lia.
Qed.

(** C11. [copyout] of a buffer to a mapped user range returns 0 (one loop
    round per page is enough); every byte of the range then holds the buffer's
    byte, read through the page table, no other byte of memory changes, and
    the page tables are untouched. *)
Theorem copyout_correct s root T l va src len :
  vm_ok s root T l -> user_range s root T l va len -> 0 <= len ->
  (forall k, 0 <= k < len -> ~ src <= user_pa (ram s) root (va + k) < src + len) ->
  exists s', copyout (S (Z.to_nat (pages_touched va len))) root va src len s = Ret 0 s' /\
    vm_ok s' root T l /\ tables_agree T (ram s) (ram s') /\
    (forall k, 0 <= k < len -> rd8 (ram s') (user_pa (ram s') root (va + k)) = rd8 (ram s) (src + k)) /\
    (forall a, (forall k, 0 <= k < len -> a <> user_pa (ram s) root (va + k)) ->
      rd8 (ram s') a = rd8 (ram s) a).
Proof.
  intros Hok Hur Hlen Hsrc. pose proof (ur_bounds _ _ _ _ _ _ Hur) as [Hva _].
  destruct (copyout_loop_correct (S (Z.to_nat (pages_touched va len))) s root T l va src len)
    as (s' & Hrun & Hok' & Hag & Hin & Hout); [done..|lia|].
  exists s'. split_and!; try done. intros k Hk.
  rewrite (user_pa_agree _ _ _ _ _ _ Hok Hag) by lia. by apply Hin.
Qed.

(** [copyout] to an address that is not mapped for the user returns -1
    and changes nothing. *)
Theorem copyout_fault fuel s root T l va src len :
  vm_ok s root T l -> 0 <= va < MAXVA -> 0 < len -> user_page (ram s) root va = None ->
  copyout (S fuel) root va src len s = Ret (-1) s.
Proof.
  intros Hok Hva Hlen Hnone. cbn [copyout]. rewrite (proj2 (Z.ltb_lt _ _)) by done.
  pose proof (PGROUNDDOWN_bounds va) as [Hb _].
  assert (0 <= PGROUNDDOWN va) by (rewrite PGROUNDDOWN_eq; zlia).
  rewrite (kbind_ret _ _ _ _ _ (walkaddr_run s root T l (PGROUNDDOWN va) Hok ltac:(lia))).
  rewrite (user_page_same_page _ _ _ va) by (rewrite ?PGROUNDDOWN_eq; zlia). by rewrite Hnone.
Qed.

(** ** [memset_user] *)

Lemma memset_round fuel s root T l va val len :
  vm_ok s root T l -> 0 <= va < MAXVA -> 0 < len -> user_mapped (ram s) root va ->
  let n := Z.min (4096 - va mod 4096) len in
  memset_user (S fuel) root va val len s =
  memset_user fuel root (u64 (PGROUNDDOWN va + 4096)) val (len - n)
    (set_ram (fun m => memset m (user_pa (ram s) root va) val (Z.to_nat n)) s).
Proof.
  intros Hok Hva Hlen (pa & Hpa & Hnz) n. cbn [memset_user].
  rewrite (proj2 (Z.ltb_lt _ _)) by done. pose proof (PGROUNDDOWN_bounds va) as [Hb _].
  assert (0 <= PGROUNDDOWN va) by (rewrite PGROUNDDOWN_eq; zlia).
  rewrite (kbind_ret _ _ _ _ _ (walkaddr_run s root T l (PGROUNDDOWN va) Hok ltac:(lia))).
  rewrite (user_page_same_page _ _ _ va) by (rewrite ?PGROUNDDOWN_eq; zlia).
  unfold user_pa. rewrite Hpa. cbn [default from_option id].
  rewrite (proj2 (Z.eqb_neq _ _) Hnz). unfold kbind, kmodify, PGSIZE.
  replace (va - PGROUNDDOWN va) with (va mod 4096) by (rewrite PGROUNDDOWN_eq; lia). done.
Qed.

(** One round per page is enough; every byte of the range is set and no other
    byte changes. *)
Lemma memset_user_correct fuel s root T l va val len :
  vm_ok s root T l -> user_range s root T l va len -> 0 <= len -> pages_touched va len < Z.of_nat fuel ->
  exists s', memset_user fuel root va val len s = Ret 0 s' /\
    vm_ok s' root T l /\ tables_agree T (ram s) (ram s') /\
    (forall k, 0 <= k < len -> rd8 (ram s') (user_pa (ram s) root (va + k)) = u8 val) /\
    (forall a, (forall k, 0 <= k < len -> a <> user_pa (ram s) root (va + k)) -> rd8 (ram s') a = rd8 (ram s) a) /\
    pages s' = pages s.
Proof.
  revert s va len. induction fuel as [|fuel IH]; intros s va len Hok Hur Hlen Hf.
  { unfold pages_touched in Hf. case_match; zlia. }
  destruct (decide (len = 0)) as [->|Hpos].
  { exists s. split_and!; [done|done|by intros t _ a _| |done|done]. intros. lia. }
  pose proof (ur_bounds _ _ _ _ _ _ Hur) as [Hva Hmax].
  rewrite (memset_round fuel s root T l) by
    (done || lia || (rewrite <- (Z.add_0_r va); apply (ur_mapped _ _ _ _ _ _ Hur); lia)).
  cbv zeta. destruct (pages_touched_step va len) as [Hpt Hnext]; [lia..|]. cbv zeta in *.
  set (n := Z.min (4096 - va mod 4096) len) in *.
  assert (0 < n <= len /\ va mod 4096 + n <= 4096) as [Hn Hpage] by zlia.
  set (f := fun m : memory => memset m (user_pa (ram s) root va) val (Z.to_nat n)).
  assert (forall k, 0 <= k < n -> user_pa (ram s) root (va + k) = user_pa (ram s) root va + k) as Hoff
    by (intros; apply user_pa_offset; lia).
  assert (forall a, (forall k, 0 <= k < n -> a <> user_pa (ram s) root (va + k)) -> rd8 (f (ram s)) a = rd8 (ram s) a) as Hfo.
  { intros a Ha. unfold f. rewrite memset_spec, decide_False; [done|]. intros Hr.
    apply (Ha (a - user_pa (ram s) root va)); [lia|]. rewrite Hoff by lia. lia. }
  destruct (user_chunk_written s root T l va len n f) as [Hag Hok1]; [done|done|lia|done|].
  assert (MAXVA = 2 ^ 38) as HM by done. rewrite u64_small by (rewrite PGROUNDDOWN_eq; zlia).
  destruct Hnext as [Hz|Heq].
  - exists (set_ram f s). rewrite Hz. rewrite Hz in Hpt. change (pages_touched (PGROUNDDOWN va + 4096) 0) with 0 in Hpt.
    assert (n = len) as Hnl by lia. split_and!; [destruct fuel; [lia|done]|done|done| |by rewrite <- Hnl|done].
    intros k Hk. cbn [set_ram ram]. unfold f. rewrite memset_spec, Hoff, decide_True by lia. done.
  - rewrite Heq. assert (forall k, 0 <= k < len - n ->
      user_pa (f (ram s)) root (va + n + k) = user_pa (ram s) root (va + (n + k))) as Hpa.
    { intros k Hk. rewrite <- Z.add_assoc. eapply user_pa_agree; [done|done|lia]. }
    destruct (IH (set_ram f s) (va + n) (len - n)) as (s' & Hrun & Hok' & Hag' & Hin & Hout & Hpg);
      [done|by apply user_range_rest; [| |lia|]|lia|rewrite <- Heq; lia|]. cbn [set_ram ram pages] in *.
    exists s'. split_and!; [done|done| | | |done].
    + intros t Ht a Ha. rewrite (Hag' t Ht a Ha). apply (Hag t Ht a Ha).
    + intros k Hk. destruct (decide (k < n)) as [Hlt|Hge].
      * rewrite Hout; [unfold f; rewrite memset_spec, Hoff, decide_True by lia; done|].
        intros j Hj Hjk. rewrite Hpa in Hjk by done. apply (ur_inj _ _ _ _ _ _ Hur) in Hjk; lia.
      * replace (va + k) with (va + (n + (k - n))) by lia. rewrite <- Hpa by lia. apply Hin. lia.
    + intros a Ha. rewrite Hout; [apply Hfo; intros k Hk; apply Ha; lia|]. intros k Hk. rewrite Hpa by done. apply Ha. lia.
Qed.

(** ** [copyin] *)

(** A kernel buffer apart from the page tables, the free pages and the user
    range it is filled from. *)
Record kernel_buffer (s : machine) (root : Z) (T : gmap Z (nat * Z)) (l : list Z) (dst va len : Z) : Prop := {
  kb_tables : forall k, 0 <= k < len -> outside_tables T (dst + k);
  kb_free : forall k p, 0 <= k < len -> p ∈ l -> dst + k < p \/ p + 4096 <= dst + k;
  kb_user : forall j k, 0 <= j < len -> 0 <= k < len -> dst + j <> user_pa (ram s) root (va + k)
}.

Lemma copyin_round fuel s root T l va dst len :
  vm_ok s root T l -> 0 <= va < MAXVA -> 0 < len -> user_mapped (ram s) root va ->
  let n := Z.min (4096 - va mod 4096) len in
  copyin (S fuel) root dst va len s =
  copyin fuel root (dst + n) (u64 (PGROUNDDOWN va + 4096)) (len - n)
    (set_ram (fun m => memmove m dst (user_pa (ram s) root va) (Z.to_nat n)) s).
Proof.
  intros Hok Hva Hlen (pa & Hpa & Hnz) n. cbn [copyin].
  rewrite (proj2 (Z.ltb_lt _ _)) by done. pose proof (PGROUNDDOWN_bounds va) as [Hb _].
  assert (0 <= PGROUNDDOWN va) by (rewrite PGROUNDDOWN_eq; zlia).
  rewrite (kbind_ret _ _ _ _ _ (walkaddr_run s root T l (PGROUNDDOWN va) Hok ltac:(lia))).
  rewrite (user_page_same_page _ _ _ va) by (rewrite ?PGROUNDDOWN_eq; zlia).
  unfold user_pa. rewrite Hpa. cbn [default from_option id].
  rewrite (proj2 (Z.eqb_neq _ _) Hnz). unfold kbind, kmodify, PGSIZE.
  replace (va - PGROUNDDOWN va) with (va mod 4096) by (rewrite PGROUNDDOWN_eq; lia). done.
Qed.

(** The machine after the first [n] bytes of the buffer were filled. *)
Lemma kernel_chunk_written s root T l va dst len n f :
  vm_ok s root T l -> kernel_buffer s root T l dst va len -> 0 <= n <= len ->
  (forall a, a < dst \/ dst + n <= a -> rd8 (f (ram s)) a = rd8 (ram s) a) ->
  tables_agree T (ram s) (f (ram s)) /\ vm_ok (set_ram f s) root T l.
Proof.
  intros Hok [Ht Hfr _] Hn Hf.
  assert (tables_agree T (ram s) (f (ram s))) as Hag.
  { intros t Hts a Ha. apply Hf. destruct (decide (dst <= a < dst + n)) as [Hin|]; [|lia].
    destruct (Ht (a - dst) ltac:(lia) t Hts); lia. }
  split; [done|]. apply vm_data_write; [done|done|]. intros p Hp. apply load_agree.
  intros a Ha. apply Hf. destruct (decide (dst <= a < dst + n)) as [Hin|]; [|lia].
  destruct (Hfr (a - dst) p ltac:(lia) Hp); lia.
Qed.

Lemma copyin_loop_correct fuel s root T l va dst len :
  vm_ok s root T l -> 0 <= va -> va + len <= MAXVA -> 0 <= len ->
  (forall k, 0 <= k < len -> user_mapped (ram s) root (va + k)) ->
  kernel_buffer s root T l dst va len ->
  pages_touched va len < Z.of_nat fuel ->
  exists s', copyin fuel root dst va len s = Ret 0 s' /\
    vm_ok s' root T l /\ tables_agree T (ram s) (ram s') /\
    (forall k, 0 <= k < len -> rd8 (ram s') (dst + k) = rd8 (ram s) (user_pa (ram s) root (va + k))) /\
    (forall a, a < dst \/ dst + len <= a -> rd8 (ram s') a = rd8 (ram s) a).
Proof.
  revert s va dst len. induction fuel as [|fuel IH]; intros s va dst len Hok Hva Hmax Hlen Hm Hkb Hf.
  { unfold pages_touched in Hf. case_match; zlia. }
  destruct (decide (len = 0)) as [->|Hpos].
  { exists s. split_and!; [done|done|by intros t _ a _| |]; intros; [lia|done]. }
  rewrite (copyin_round fuel s root T l) by
    (done || lia || (rewrite <- (Z.add_0_r va); apply Hm; lia)).
  cbv zeta. destruct (pages_touched_step va len) as [Hpt Hnext]; [lia..|]. cbv zeta in *.
  set (n := Z.min (4096 - va mod 4096) len) in *.
  assert (0 < n <= len /\ va mod 4096 + n <= 4096) as [Hn Hpage] by zlia.
  set (f := fun m : memory => memmove m dst (user_pa (ram s) root va) (Z.to_nat n)).
  assert (forall a, a < dst \/ dst + n <= a -> rd8 (f (ram s)) a = rd8 (ram s) a) as Hfo.
  { intros a Ha. unfold f. rewrite memmove_spec, decide_False by lia. done. }
  destruct (kernel_chunk_written s root T l va dst len n f) as [Hag Hok1]; [done|done|lia|done|].
  assert (forall k, 0 <= k < n -> rd8 (f (ram s)) (dst + k) = rd8 (ram s) (user_pa (ram s) root (va + k))) as Hfi.
  { intros k Hk. unfold f. rewrite memmove_spec, decide_True, user_pa_offset by lia. f_equal. lia. }
  assert (MAXVA = 2 ^ 38) as HM by done.
  rewrite u64_small by (rewrite PGROUNDDOWN_eq; zlia).
  destruct Hnext as [Hz|Heq].
  { rewrite Hz in *. change (pages_touched (PGROUNDDOWN va + 4096) 0) with 0 in Hpt.
    exists (set_ram f s). assert (n = len) as Hnl by lia. rewrite Hnl in *.
    split_and!; [destruct fuel; [lia|done]|done|done|done|done]. }
  rewrite Heq in *.
  assert (forall k, 0 <= k < len - n ->
    user_pa (f (ram s)) root (va + n + k) = user_pa (ram s) root (va + (n + k))) as Hpa.
  { intros k Hk. rewrite <- Z.add_assoc. eapply user_pa_agree; [done|done|lia]. }
  destruct (IH (set_ram f s) (va + n) (dst + n) (len - n)) as (s' & Hrun & Hok' & Hag' & Hin & Hout);
    [done|lia|lia|lia| | |lia|].
  { intros k Hk. destruct (Hm (n + k)) as (pa & Hpa' & Hnz); [lia|]. exists pa.
    split; [|done]. rewrite <- Z.add_assoc. cbn [ram set_ram].
    rewrite (user_page_agree _ _ _ _ _ _ Hok Hag) by lia. done. }
  { destruct Hkb as [H1 H2 H3]. split.
    - intros k Hk. rewrite <- Z.add_assoc. apply H1. lia.
    - intros k p Hk Hp. rewrite <- Z.add_assoc. apply H2; [lia|done].
    - intros j k Hj Hk. cbn [ram set_ram]. rewrite Hpa, <- Z.add_assoc by lia. apply H3; lia. }
  exists s'. split_and!; [done|done| | |].
  - intros t Ht a Ha. rewrite (Hag' t Ht a Ha). apply (Hag t Ht a Ha).
  - intros k Hk. destruct (decide (k < n)) as [Hlt|Hge].
    + rewrite Hout by lia. apply Hfi. lia.
    + replace (dst + k) with (dst + n + (k - n)) by lia. rewrite Hin by lia.
      cbn [ram set_ram]. rewrite Hpa by lia. replace (n + (k - n)) with k by lia.
      apply Hfo. pose proof (kb_user _ _ _ _ _ _ _ Hkb) as H3.
      destruct (decide (dst <= user_pa (ram s) root (va + k) < dst + n)) as [Hbad|]; [|lia].
      exfalso. apply (H3 (user_pa (ram s) root (va + k) - dst) k); lia.
  - intros a Ha. rewrite Hout by lia. apply Hfo. lia.
Qed.

(** [copyin] of a mapped user range into a kernel buffer apart from it
    returns 0, fills the buffer with the range's bytes and changes nothing
    else. *)
Theorem copyin_correct s root T l va dst len :
  vm_ok s root T l -> 0 <= va -> va + len <= MAXVA -> 0 <= len ->
  (forall k, 0 <= k < len -> user_mapped (ram s) root (va + k)) ->
  kernel_buffer s root T l dst va len ->
  exists s', copyin (S (Z.to_nat (pages_touched va len))) root dst va len s = Ret 0 s' /\
    vm_ok s' root T l /\
    (forall k, 0 <= k < len -> rd8 (ram s') (dst + k) = rd8 (ram s) (user_pa (ram s) root (va + k))) /\
    (forall a, a < dst \/ dst + len <= a -> rd8 (ram s') a = rd8 (ram s) a).
Proof.
  intros Hok Hva Hmax Hlen Hm Hkb.
  destruct (copyin_loop_correct (S (Z.to_nat (pages_touched va len))) s root T l va dst len)
    as (s' & Hrun & Hok' & _ & Hin & Hout); [done..|lia|]. by exists s'.
Qed.

(** What the kernel copies out to a user range it reads back with
    [copyin]: the second buffer ends up with the bytes of the first. *)
Theorem copyout_copyin_roundtrip s root T l va src dst len :
  vm_ok s root T l -> user_range s root T l va len -> 0 <= len ->
  (forall k, 0 <= k < len -> ~ src <= user_pa (ram s) root (va + k) < src + len) ->
  kernel_buffer s root T l dst va len ->
  let fuel := S (Z.to_nat (pages_touched va len)) in
  exists s1 s2, copyout fuel root va src len s = Ret 0 s1 /\
    copyin fuel root dst va len s1 = Ret 0 s2 /\
    rd_bytes (Z.to_nat len) (ram s2) dst = rd_bytes (Z.to_nat len) (ram s) src.
Proof.
  intros Hok Hur Hlen Hsrc Hkb fuel. pose proof (ur_bounds _ _ _ _ _ _ Hur) as [Hva Hmax].
  destruct (copyout_loop_correct fuel s root T l va src len)
    as (s1 & Hrun1 & Hok1 & Hag1 & Hin1 & Hout1); [done..|lia|].
  destruct (copyin_loop_correct fuel s1 root T l va dst len)
    as (s2 & Hrun2 & Hok2 & _ & Hin2 & _); [done..| | |lia|].
  { intros k Hk. destruct (ur_mapped _ _ _ _ _ _ Hur k Hk) as (pa & Hpa & Hnz). exists pa.
    split; [|done]. by rewrite (user_page_agree _ _ _ _ _ _ Hok Hag1) by lia. }
  { destruct Hkb as [H1 H2 H3]. split; [done|done|]. intros j k Hj Hk.
    rewrite (user_pa_agree _ _ _ _ _ _ Hok Hag1) by lia. by apply H3. }
  exists s1, s2. split_and!; [done|done|]. apply list_eq. intros i.
  destruct (decide (i < Z.to_nat len)%nat) as [Hi|Hi].
  - rewrite !rd_bytes_lookup, Hin2 by lia.
    rewrite (user_pa_agree _ _ _ _ _ _ Hok Hag1), Hin1 by lia. done.
  - rewrite !lookup_ge_None_2 by (rewrite length_rd_bytes; lia). done.
Qed.
