(* ===== verification/Scenario.v ===== *)
(** * A concrete machine

    A small machine on which the theorems of the memory components are
    applied: RAM from 0x1000 to 0x9000, a page table with one user page, and
    free pages left over.  The invariants of [PageAlloc] and [PageTable] are
    established for it with executable checks. *)
From S2P Require Import Prelude Memory CString Bitmap Riscv PageAlloc Vmem PageTable UserCopy.

(** ** Executable forms of the invariants *)

Definition pt_inv_check (m : memory) (T : gmap Z (nat * Z)) : bool :=
  forallb (fun '(t, (lv, pre)) =>
    (t mod 4096 =? 0) && (0 <? t) && (t <? 2 ^ 56) &&
    match lv with
    | O => true
    | S lv' => forallb (fun i =>
        negb (Z.testbit (load64 m (t + 8 * i)) 0) ||
        (pointer (load64 m (t + 8 * i)) &&
         bool_decide (T !! PTE2PA (load64 m (t + 8 * i)) = Some (lv', pre * 512 + i)))) (seqZ 0 512)
    end &&
    ((2 <=? lv)%nat ||
     existsb (fun '(t', (lv', _)) => (lv' =? S lv)%nat &&
       existsb (fun i => Z.testbit (load64 m (t' + 8 * i)) 0 && (PTE2PA (load64 m (t' + 8 * i)) =? t)) (seqZ 0 512))
       (map_to_list T))) (map_to_list T).

Lemma pt_inv_check_sound m T : pt_inv_check m T = true -> pt_inv m T.
Proof.
  unfold pt_inv_check. rewrite forallb_forall. intros Hall.
  assert (forall t lv pre, T !! t = Some (lv, pre) ->
    In (t, (lv, pre)) (map_to_list T)) as Hin.
  { intros t lv pre Ht. by apply list_elem_of_In, elem_of_map_to_list. }
  assert (forall t lv pre i, T !! t = Some (S lv, pre) -> 0 <= i < 512 -> Z.testbit (load64 m (t + 8 * i)) 0 = true ->
    pointer (load64 m (t + 8 * i)) = true /\ T !! PTE2PA (load64 m (t + 8 * i)) = Some (lv, pre * 512 + i)) as Hentry.
  { intros t lv pre i Ht Hi Hb. pose proof (Hall _ (Hin _ _ _ Ht)) as Hc. cbn beta iota in Hc.
    rewrite !andb_true_iff in Hc. destruct Hc as [[_ Hc] _]. rewrite forallb_forall in Hc.
    assert (In i (seqZ 0 512)) as Hi' by (apply list_elem_of_In, elem_of_seqZ; lia).
    specialize (Hc i Hi'). rewrite Hb in Hc. cbn [negb orb] in Hc. apply andb_true_iff in Hc as [Hp Hc].
    by apply bool_decide_eq_true in Hc. }
  split.
  - intros t lv pre Ht. pose proof (Hall _ (Hin _ _ _ Ht)) as Hc. cbn beta iota in Hc.
    rewrite !andb_true_iff in Hc. lia.
  - intros t lv pre i Ht Hi Hb. by apply Hentry.
  - intros t lv pre i Ht Hi Hb. by apply (Hentry t lv pre).
  - intros t lv pre Ht Hlt. pose proof (Hall _ (Hin _ _ _ Ht)) as Hc. cbn beta iota in Hc.
    apply andb_true_iff in Hc as [_ Hc]. rewrite (proj2 (Nat.leb_gt _ _)) in Hc by done. cbn [orb] in Hc.
    apply existsb_exists in Hc as ([t' [lv' pre']] & Hin' & Hc). apply andb_true_iff in Hc as [->%Nat.eqb_eq Hc].
    apply existsb_exists in Hc as (i & Hi & Hc). apply list_elem_of_In, elem_of_seqZ in Hi. apply list_elem_of_In, elem_of_map_to_list in Hin'.
    apply andb_true_iff in Hc as [Hb Hpa%Z.eqb_eq]. exists t', pre', i. split_and!; try done; lia.
Qed.

(** ** The machine *)

Definition demo_leaf : Z := map_pte 0x4000 (Z.lor (Z.lor PTE_R PTE_W) PTE_U).

Definition demo_ram : memory :=
  store64 (store64 (store64 (store64 (store64 (wr_bytes ∅ 0x7000 [104; 105; 33])
    0x5000 0x6000) 0x6000 0)
    0x1000 (Z.lor (PA2PTE 0x2000) PTE_V)) 0x2000 (Z.lor (PA2PTE 0x3000) PTE_V))
    0x3008 demo_leaf.

Definition demo : machine := Machine demo_ram (PageAllocator 0x5000 2 0x1000 0x9000).
Definition demo_root : Z := 0x1000.
Definition demo_tables : gmap Z (nat * Z) :=
  {[ 0x1000 := (2%nat, 0); 0x2000 := (1%nat, 0); 0x3000 := (0%nat, 0) ]}.
Definition demo_free : list Z := [0x5000; 0x6000].

Lemma demo_pages : pages_inv demo demo_free.
Proof.
  split; [by vm_compute|by vm_compute| | |done].
  - by apply (bool_decide_unpack _); vm_compute.
  - repeat constructor; by vm_compute.
Qed.

Lemma demo_ok : vm_ok demo demo_root demo_tables demo_free.
Proof.
  split; [by apply pt_inv_check_sound; vm_compute|apply demo_pages| |by vm_compute|].
  - intros p [->|[->|[]%elem_of_nil]%elem_of_cons]%elem_of_cons; by vm_compute.
  - unfold demo_tables. intros t lv pre Ht. repeat (apply lookup_insert_Some in Ht as [[<- [= <- <-]]|[_ Ht]]; [first [by left|right; split; [lia|by vm_compute]]|]).
    apply lookup_singleton_Some in Ht as [<- [= <- <-]]. right. split; [lia|by vm_compute].
Qed.

Lemma demo_translate va :
  0x1000 <= va < 0x2000 -> translate (ram demo) demo_root va = Some demo_leaf.
Proof.
  intros Hva. unfold translate.
  rewrite (leaf_pte_same_page _ _ _ va 0x1000) by zlia.
  by vm_compute.
Qed.

(** The user page of the machine is at 0x4000. *)
Lemma demo_user va :
  0x1000 <= va < 0x2000 -> user_page (ram demo) demo_root va = Some 0x4000 /\
  user_pa (ram demo) demo_root va = 0x4000 + (va - 0x1000).
Proof.
  intros Hva. assert (user_page (ram demo) demo_root va = Some 0x4000) as Hp.
  { unfold user_page. rewrite (proj2 (Z.leb_gt _ _)) by (change MAXVA with (2 ^ 38); lia).
    rewrite demo_translate by done. by vm_compute. }
  split; [done|]. unfold user_pa. rewrite Hp. cbn [default from_option id]. zlia.
Qed.

Lemma demo_tables_elem t : is_Some (demo_tables !! t) -> t = 0x1000 \/ t = 0x2000 \/ t = 0x3000.
Proof.
  intros [x Hx]. apply elem_of_map_to_list in Hx. vm_compute in Hx.
  repeat (apply elem_of_cons in Hx as [Hx|Hx]; [simplify_eq; lia|]). by apply elem_of_nil in Hx.
Qed.

Lemma demo_free_elem p : p ∈ demo_free -> p = 0x5000 \/ p = 0x6000.
Proof. intros [->|[->|[]%elem_of_nil]%elem_of_cons]%elem_of_cons; lia. Qed.

(** A range of the user page. *)
Lemma demo_range va len :
  0x1000 <= va -> 0 <= len -> va + len <= 0x2000 ->
  user_range demo demo_root demo_tables demo_free va len.
Proof.
  intros Hva Hlen Hend.
  assert (forall k, 0 <= k < len -> user_page (ram demo) demo_root (va + k) = Some 0x4000 /\
    user_pa (ram demo) demo_root (va + k) = 0x4000 + (va + k - 0x1000)) as Hu
    by (intros; apply demo_user; lia).
  split.
  - change MAXVA with (2 ^ 38). lia.
  - intros k Hk. exists 0x4000. by destruct (Hu k Hk).
  - intros k Hk t Ht. destruct (Hu k Hk) as [_ ->]. apply demo_tables_elem in Ht. lia.
  - intros k p Hk Hp. destruct (Hu k Hk) as [_ ->]. apply demo_free_elem in Hp. lia.
  - intros j k Hj Hk. destruct (Hu j Hj) as [_ ->], (Hu k Hk) as [_ ->]. lia.
Qed.

(** A buffer in the page at 0x8000. *)
Lemma demo_buffer va len :
  0x1000 <= va -> 0 <= len -> va + len <= 0x2000 ->
  kernel_buffer demo demo_root demo_tables demo_free 0x8000 va len.
Proof.
  intros Hva Hlen Hend. split.
  - intros k Hk t Ht. apply demo_tables_elem in Ht. lia.
  - intros k p Hk Hp. apply demo_free_elem in Hp. lia.
  - intros j k Hj Hk. destruct (demo_user (va + k)) as [_ ->]; lia.
Qed.

(** ** The theorems on this machine *)

Lemma allocator_client_safe_witness :
  exists s l, rtc client_step (demo, ∅) (s, {[0x5000]}) /\
    client_inv {[0x5000; 0x6000]} (s, {[0x5000]}) l /\
    exists s', free_page 0x5000 s = Ret tt s'.
Proof.
  destruct (allocator_client_safe {[0x5000; 0x6000]} demo demo_free
    (Machine demo_ram (PageAllocator 0x6000 1 0x1000 0x9000)) ({[0x5000]} ∪ ∅)) as (l & Hinv & _ & Hfree).
  - split; simpl; [apply demo_pages|set_solver|set_solver|].
    intros p [->%elem_of_singleton| ->%elem_of_singleton]%elem_of_union; by vm_compute.
  - apply rtc_once. apply (client_alloc demo); [by vm_compute|done].
  - rewrite (union_empty_r_L {[0x5000]}) in *. eexists _, l. split_and!; [|done|].
    + apply rtc_once. rewrite <- (union_empty_r_L {[0x5000]}).
      apply (client_alloc demo); [by vm_compute|done].
    + apply Hfree. set_solver.
Defined.

Lemma allocator_init_correct_witness :
  exists s, allocator_init 4 ∅ 0x1001 0x5fff = Ret tt s /\
    pages_inv s [0x4000; 0x3000; 0x2000] /\ get_free_page_count s = 3.
Proof. apply (allocator_init_correct ∅ 0x1001 0x5fff); vm_compute; done || lia. Defined.

Lemma free_page_rejects_witness : free_page 0x5008 demo = Panic.
Proof. apply free_page_rejects; [done|]. intros [Hal _]. by vm_compute in Hal. Defined.

Lemma mappages_correct_witness :
  exists r s' T' l', mappages 1 demo_root 0x2000 0x7000 4096 PTE_R demo = Ret r s' /\
    vm_ok s' demo_root T' l' /\
    ((r = -1 /\ l' = []) \/ (r = 0 /\ translate (ram s') demo_root 0x2000 = Some (map_pte 0x7000 PTE_R))).
Proof.
  assert (in_pages 0x2000 4096 0x2000) as Hpage by (vm_compute; done).
  destruct (mappages_correct demo demo_root demo_tables demo_free 0x2000 0x7000 4096 PTE_R)
    as (r & s' & T' & l' & Hrun & Hok & _ & _ & _ & Hres);
    [apply demo_ok|vm_compute; done..| |].
  { intros va Hva. unfold translate. rewrite (leaf_pte_same_page _ _ _ va 0x2000); [by vm_compute|].
    unfold in_pages in Hva. vm_compute (PGROUNDDOWN _) in Hva. zlia. }
  exists r, s', T', l'. split_and!; [done|done|].
  destruct Hres as [|[-> Hin]]; [by left|right]. split; [done|]. exact (Hin 0x2000 Hpage).
Defined.

Lemma mappages_remap_panics_witness :
  mappages 1 demo_root 0x1000 0x7000 4096 PTE_R demo = Panic.
Proof.
  apply (mappages_remap_panics 0 demo demo_root demo_tables demo_free 0x1000 0x7000 4096 PTE_R demo_leaf);
    [apply demo_ok|by vm_compute|by apply demo_translate].
Defined.

Lemma uvmunmap_correct_witness :
  exists s', uvmunmap 1 demo_root 0x1000 4096 true demo = Ret tt s' /\
    vm_ok s' demo_root demo_tables (0x4000 :: demo_free) /\
    translate (ram s') demo_root 0x1000 = None.
Proof.
  destruct (uvmunmap_correct demo demo_root demo_tables demo_free 0x1000 [demo_leaf] true)
    as (s' & Hrun & Hok & Hin & _); [apply demo_ok|done|lia|done|by vm_compute| | |].
  { intros [|i] e He; [|done]. injection He as <-. by vm_compute. }
  { intros _. split; [by apply (bool_decide_unpack _); vm_compute|].
    intros e [->|[]%elem_of_nil]%elem_of_cons.
    split_and!; [by vm_compute| |by vm_compute]. by apply (bool_decide_unpack _); vm_compute. }
  exists s'. split_and!; [exact Hrun| |apply Hin; unfold PGSIZE; cbn [length]; lia].
  change (0x4000 :: demo_free) with (rev (PTE2PA <$> [demo_leaf]) ++ demo_free). done.
Defined.

Lemma copyout_correct_witness :
  exists s', copyout 2 demo_root 0x1ffd 0x7000 3 demo = Ret 0 s' /\
    vm_ok s' demo_root demo_tables demo_free /\ rd8 (ram s') (user_pa (ram s') demo_root (0x1ffd + 1)) = 105.
Proof.
  destruct (copyout_correct demo demo_root demo_tables demo_free 0x1ffd 0x7000 3)
    as (s' & Hrun & Hok & _ & Hin & _); [apply demo_ok|apply demo_range; lia|lia| |].
  { intros k Hk. destruct (demo_user (0x1ffd + k)) as [_ ->]; lia. }
  exists s'. split_and!; [done|done|]. rewrite Hin by lia. by vm_compute.
Defined.

Lemma copyout_fault_witness : copyout 2 demo_root 0x3000 0x7000 3 demo = Ret (-1) demo.
Proof.
  apply (copyout_fault 1 demo demo_root demo_tables demo_free);
    [apply demo_ok|by vm_compute|lia|by vm_compute].
Defined.

Lemma copyin_correct_witness :
  exists s', copyin 2 demo_root 0x8000 0x1ff0 16 demo = Ret 0 s' /\
    vm_ok s' demo_root demo_tables demo_free /\ rd8 (ram s') (0x8000 + 3) = 0.
Proof.
  destruct (copyin_correct demo demo_root demo_tables demo_free 0x1ff0 0x8000 16)
    as (s' & Hrun & Hok & Hin & _);
    [apply demo_ok|lia|by vm_compute|lia| |apply demo_buffer; lia|].
  { intros k Hk. exists 0x4000. by destruct (demo_user (0x1ff0 + k)); [lia|]. }
  exists s'. split_and!; [done|done|]. rewrite Hin by lia. by vm_compute.
Defined.

Lemma copyout_copyin_roundtrip_witness :
  exists s1 s2, copyout 2 demo_root 0x1000 0x7000 3 demo = Ret 0 s1 /\
    copyin 2 demo_root 0x8000 0x1000 3 s1 = Ret 0 s2 /\
    rd_bytes 3 (ram s2) 0x8000 = [104; 105; 33].
Proof.
  apply (copyout_copyin_roundtrip demo demo_root demo_tables demo_free 0x1000 0x7000 0x8000 3);
    [apply demo_ok|apply demo_range; lia|lia| |apply demo_buffer; lia].
  intros k Hk. destruct (demo_user (0x1000 + k)) as [_ ->]; lia.
Defined.

(** Two strings, "hi!" at 0x7000 and "hi" at 0x7010. *)
Lemma strcmp_correct_witness :
  let m := wr_bytes (wr_bytes ∅ 0x7000 [104; 105; 33; 0]) 0x7010 [104; 105; 0] in
  exists r, strcmp 4 m 0x7000 0x7010 = Some r /\ r = 33.
Proof.
  intros m. destruct (strcmp_correct m 0x7000 0x7010 [104; 105; 33] [104; 105])
    as (r & Hr & Hc & _); [by vm_compute|by vm_compute|]. exists r. split; [exact Hr|]. by rewrite Hc.
Defined.

Lemma bitmap_set_get_witness :
  bitmap_get (bitmap_set ∅ 0 70) 0 70 = true /\ bitmap_get (bitmap_set ∅ 0 70) 0 6 = false.
Proof. split; rewrite bitmap_set_get by lia; by vm_compute. Defined.

Lemma bitmap_clear_get_witness :
  bitmap_get (bitmap_clear (bitmap_set ∅ 0 70) 0 70) 0 70 = false.
Proof. rewrite bitmap_clear_get by lia. by vm_compute. Defined.

Lemma bitmap_find_first_zero_correct_witness :
  let m := bitmap_set ∅ 0 0 in
  let r := bitmap_find_first_zero m 0 2 in
  (r = 2 ^ 32 - 1 /\ forall i, 0 <= i < 128 -> bitmap_get m 0 i = true) \/
  (0 <= r < 128 /\ bitmap_get m 0 r = false /\ forall i, 0 <= i < r -> bitmap_get m 0 i = true).
Proof. apply (bitmap_find_first_zero_correct (bitmap_set ∅ 0 0) 0 2); vm_compute; done. Defined.
