(* ===== verification/HeapAlloc.v ===== *)
(** * The kernel heap (src/os/mm/allocator.h and allocator.cc)

    Small allocations come from eight slab allocators, [heap_allocator<8>] to
    [heap_allocator<1024>].  Each cuts pages of the page allocator into slots
    behind a header and threads the free slots of a page by index.  The file
    models the slab page ([heap_block_t]), the slab allocator, the choice of
    the size class by [log2_64], and [operator new]/[delete] over them, and the
    large-memory allocator that maps pages above [VMEM_START].

    The template parameter [size] is an argument.  The header
    [__heap_block_info_t] is 24 bytes padded to its alignment [size]:
    [_size] at 0, [used] at 2, [next_free_index] at 4, [next_block] at 8 and
    [next_free_block] at 16.  Statistics and log output, and the
    [MEMORY_DEBUG] code, are not modelled; [use_ptmalloc] is false, as it is
    initialised.  Every operation holds the allocator's lock. *)
From S2P Require Import Prelude Memory CString Riscv PageAlloc Vmem.

(** ** Definitions *)

Definition info_size (size : Z) : Z := (24 + size - 1) / size * size.
Definition capacity (size : Z) : Z := (PGSIZE - info_size size) / size.

(** The address of [data[i]] in the block at [b]. *)
Definition slot_addr (size b i : Z) : Z := b + info_size size + i * size.

Definition blk_size (m : memory) (b : Z) : Z := load16 m b.
Definition blk_used (m : memory) (b : Z) : Z := load16 m (b + 2).
Definition blk_next_free_index (m : memory) (b : Z) : Z := load32 m (b + 4).
Definition blk_next_block (m : memory) (b : Z) : Z := load64 m (b + 8).
Definition blk_next_free_block (m : memory) (b : Z) : Z := load64 m (b + 16).

(** [for (i = 0; i < capacity - 1; i++) *(uint32* )data[i] = i + 1;] *)
Fixpoint link_slots (n : nat) (size b i : Z) (m : memory) : memory :=
  match n with
  | O => m
  | S n' => link_slots n' size b (i + 1) (store32 m (slot_addr size b i) (i + 1))
  end.

(** The constructor: the member initialisers (header, then [data] zeroed),
    then the links. *)
Definition heap_block_init (size b : Z) (m : memory) : memory :=
  let m := store16 m b size in
  let m := store16 m (b + 2) 0 in
  let m := store32 m (b + 4) 0 in
  let m := store64 m (b + 8) 0 in
  let m := store64 m (b + 16) 0 in
  let m := memset m (b + info_size size) 0 (Z.to_nat (capacity size * size)) in
  let m := link_slots (Z.to_nat (capacity size - 1)) size b 0 m in
  store32 m (slot_addr size b (capacity size - 1)) (u32 (-1)).

Definition heap_block_full (size b : Z) (m : memory) : bool := blk_used m b =? capacity size.
Definition heap_block_empty (b : Z) (m : memory) : bool := blk_used m b =? 0.

Definition heap_block_alloc (size b : Z) (m : memory) : Z * memory :=
  if heap_block_full size b m then (0, m)
  else
    let ret := slot_addr size b (blk_next_free_index m b) in
    let m := store32 m (b + 4) (load32 m ret) in
    let m := store16 m (b + 2) (u16 (blk_used m b + 1)) in
    (ret, m).

(** The pointer difference is signed and its division truncates; the result
    is stored in a [uint32]. *)
Definition heap_block_free (size b ptr : Z) : K memory unit := fun m =>
  let index := u32 (Z.quot (ptr - (b + info_size size)) size) in
  if capacity size <=? index then Panic
  else
    let m := store32 m ptr (blk_next_free_index m b) in
    let m := store32 m (b + 4) index in
    Ret tt (store16 m (b + 2) (u16 (blk_used m b - 1))).

Record heap_allocator := HeapAllocator {
  head_block : Z;
  next_free_block : Z;
  allocated : Z;
  used : Z
}.

(** The constructor's member initialisers. *)
Definition heap_allocator_new : heap_allocator := HeapAllocator 0 0 0 0.

(** One slab allocator on the machine. *)
Record hstate := HState { hm : machine; ha : heap_allocator }.

Definition hmem (s : hstate) : memory := ram (hm s).
Definition set_hmem (m : memory) (s : hstate) : hstate := HState (set_ram (fun _ => m) (hm s)) (ha s).

(** Run a page-allocator operation from slab code. *)
Definition on_machine {A} (k : K machine A) : K hstate A := fun s =>
  match k (hm s) with
  | Ret a m => Ret a (HState m (ha s))
  | TaskFail m => TaskFail (HState m (ha s))
  | Panic => Panic
  | OutOfFuel => OutOfFuel
  end.

(** Get a page, construct a block in it and put it in front of both lists;
    [false] when there is no page. *)
Definition heap_grow (size : Z) : K hstate bool :=
  b <- on_machine alloc_page ;;
  if b =? 0 then
    kmodify (fun s => HState (hm s) (HeapAllocator (head_block (ha s)) 0 (allocated (ha s)) (used (ha s)))) ;;;
    kret false
  else
    kmodify (fun s =>
      let m := heap_block_init size b (hmem s) in
      let m := store64 m (b + 8) (head_block (ha s)) in
      HState (set_ram (fun _ => m) (hm s))
        (HeapAllocator b b (u64 (allocated (ha s) + PGSIZE)) (used (ha s)))) ;;;
    kret true.

Definition heap_alloc (size : Z) : K hstate Z :=
  s <- kget ;;
  ok <- (if next_free_block (ha s) =? 0 then heap_grow size else kret true) ;;
  if negb ok then kret 0
  else
    s <- kget ;;
    let b := next_free_block (ha s) in
    let '(ret, m) := heap_block_alloc size b (hmem s) in
    let nfb := if heap_block_full size b m then blk_next_free_block m b else b in
    kput (HState (set_ram (fun _ => m) (hm s))
      (HeapAllocator (head_block (ha s)) nfb (allocated (ha s)) (u64 (used (ha s) + size)))) ;;;
    kret ret.

Definition heap_free (size ptr : Z) : K hstate unit := fun s =>
  let block := PGROUNDDOWN ptr in
  let full := heap_block_full size block (hmem s) in
  match heap_block_free size block ptr (hmem s) with
  | Ret _ m =>
      let a := ha s in
      let '(m, nfb) :=
        if full then (store64 m (block + 16) (next_free_block a), block) else (m, next_free_block a) in
      Ret tt (HState (set_ram (fun _ => m) (hm s))
        (HeapAllocator (head_block a) nfb (allocated a) (u64 (used a - size))))
  | TaskFail _ | Panic => Panic
  | OutOfFuel => OutOfFuel
  end.

(** The loop of [truncate]; [prev] is 0 for [nullptr]. *)
Fixpoint heap_truncate_loop (fuel : nat) (block prev : Z) : K hstate unit :=
  match fuel with
  | O => kfuel
  | S fuel' =>
      if block =? 0 then kret tt
      else
        s <- kget ;;
        let next_block := blk_next_block (hmem s) block in
        if heap_block_empty block (hmem s) then
          (if negb (prev =? 0)
           then kmodify (fun s => set_hmem (store64 (hmem s) (prev + 8) next_block) s)
           else kmodify (fun s => HState (hm s)
                  (HeapAllocator next_block (next_free_block (ha s)) (allocated (ha s)) (used (ha s))))) ;;;
          on_machine (free_page block) ;;;
          kmodify (fun s => HState (hm s)
            (HeapAllocator (head_block (ha s)) (next_free_block (ha s))
               (u64 (allocated (ha s) - PGSIZE)) (used (ha s)))) ;;;
          heap_truncate_loop fuel' next_block prev
        else heap_truncate_loop fuel' next_block block
  end.

Definition heap_truncate (fuel : nat) : K hstate unit :=
  s <- kget ;; heap_truncate_loop fuel (head_block (ha s)) 0.

(** ** Choice of the size class *)

Definition tab64 : list Z :=
  [63;  0; 58;  1; 59; 47; 53;  2;
   60; 39; 48; 27; 54; 33; 42;  3;
   61; 51; 37; 40; 49; 18; 28; 20;
   55; 30; 34; 11; 43; 14; 22;  4;
   62; 57; 46; 52; 38; 26; 32; 41;
   50; 36; 17; 19; 29; 10; 13; 21;
   56; 45; 25; 31; 35; 16;  9; 12;
   44; 24; 15;  8; 23;  7;  6;  5].

Definition log2_64 (value : Z) : Z :=
  let value := Z.lor value (Z.shiftr value 1) in
  let value := Z.lor value (Z.shiftr value 2) in
  let value := Z.lor value (Z.shiftr value 4) in
  let value := Z.lor value (Z.shiftr value 8) in
  let value := Z.lor value (Z.shiftr value 16) in
  let value := Z.lor value (Z.shiftr value 32) in
  nthZ tab64 (Z.shiftr (u64 (u64 (value - Z.shiftr value 1) * 0x07EDD5E59A4E28C2)) 58).

(** The slab allocator [__alloc] picks for a size of at most 1024 bytes;
    [None] is the [default] case of the switch.  [size - 1] is unsigned. *)
Definition size_class (size : Z) : option Z :=
  if size =? 1 then Some 8
  else
    match log2_64 (u64 (size - 1)) with
    | 0 | 1 | 2 => Some 8
    | 3 => Some 16
    | 4 => Some 32
    | 5 => Some 64
    | 6 => Some 128
    | 7 => Some 256
    | 8 => Some 512
    | 9 => Some 1024
    | _ => None
    end.

(** ** The global allocators *)

(** [heaps] holds the eight [kernel_heap_allocator_N], by [N]; [vmem_top] is
    the member of [kernel_large_mem_allocator]. *)
Record kheap := KHeap {
  km : machine;
  heaps : gmap Z heap_allocator;
  vmem_top : Z;
  kernel_pagetable : Z
}.

Definition heap_of (s : kheap) (c : Z) : heap_allocator := default heap_allocator_new (heaps s !! c).

(** Run an operation of [kernel_heap_allocator_c]. *)
Definition on_heap {A} (c : Z) (k : K hstate A) : K kheap A := fun s =>
  let back h := KHeap (hm h) (<[c := ha h]> (heaps s)) (vmem_top s) (kernel_pagetable s) in
  match k (HState (km s) (heap_of s c)) with
  | Ret a h => Ret a (back h)
  | TaskFail h => TaskFail (back h)
  | Panic => Panic
  | OutOfFuel => OutOfFuel
  end.

Definition on_km {A} (k : K machine A) : K kheap A := fun s =>
  let back m := KHeap m (heaps s) (vmem_top s) (kernel_pagetable s) in
  match k (km s) with
  | Ret a m => Ret a (back m)
  | TaskFail m => TaskFail (back m)
  | Panic => Panic
  | OutOfFuel => OutOfFuel
  end.

(** The physical address behind a kernel virtual address; an access without
    a valid entry traps, and a trap of the kernel panics. *)
Definition kernel_pa (va : Z) : K kheap Z :=
  s <- kget ;;
  pte <- on_km (walk (kernel_pagetable s) va false) ;;
  if pte =? 0 then kpanic
  else
    s <- kget ;;
    let e := rd_pte (km s) pte in
    if Z.land e PTE_V =? 0 then kpanic else kret (Z.lor (PTE2PA e) (Z.land va 0xFFF)).

(** The mapping loop of [large_mem_allocator::alloc]: the number of pages
    mapped when it ends, and whether it got through. *)
Fixpoint large_map_loop (n : nat) (vaddr mapped : Z) : K kheap (Z * bool) :=
  match n with
  | O => kret (mapped, true)
  | S n' =>
      page <- on_km alloc_page ;;
      if page =? 0 then kret (mapped, false)
      else
        s <- kget ;;
        on_km (kvmmap 1 (kernel_pagetable s) vaddr page PGSIZE (Z.lor (Z.lor PTE_W PTE_R) PTE_X)) ;;;
        large_map_loop n' (u64 (vaddr + PGSIZE)) (mapped + 1)
  end.

(** [sizeof(large_mem_info)] is 16; the argument is an [int]. *)
Definition large_page_count (size : Z) : Z := s32 (u64 (u64 (s32 size) + 16 + PGSIZE - 1) / PGSIZE).

Definition large_alloc (fuel : nat) (size : Z) : K kheap Z :=
  s <- kget ;;
  let vaddr_start := vmem_top s in
  let page_count := large_page_count size in
  '(mapped, ok) <- large_map_loop (Z.to_nat page_count) vaddr_start 0 ;;
  if negb ok then
    (if 0 <? mapped
     then on_km (kvmunmap fuel (kernel_pagetable s) vaddr_start (mapped * PGSIZE) true)
     else kret tt) ;;;
    kret 0
  else
    kmodify (fun s => KHeap (km s) (heaps s) (u64 (vmem_top s + page_count * PGSIZE)) (kernel_pagetable s)) ;;;
    pa <- kernel_pa vaddr_start ;;
    on_km (kmodify (set_ram (fun m => store64 m pa (u64 page_count)))) ;;;
    pa <- kernel_pa (vaddr_start + 8) ;;
    on_km (kmodify (set_ram (fun m => store64 m pa (u64 (s32 size))))) ;;;
    kret (vaddr_start + 16).

Definition large_free (fuel : nat) (ptr : Z) : K kheap unit :=
  let info := ptr - 16 in
  kernel_assert (Z.land info (PGSIZE - 1) =? 0) ;;;
  kernel_assert (VMEM_START <=? info) ;;;
  pa <- kernel_pa info ;;
  s <- kget ;;
  on_km (kvmunmap fuel (kernel_pagetable s) info (u64 (load64 (ram (km s)) pa * PGSIZE)) true).

Definition __alloc (fuel : nat) (size : Z) : K kheap Z :=
  if 1024 <? size then large_alloc fuel size
  else
    match size_class size with
    | Some c => on_heap c (heap_alloc c)
    | None => kpanic
    end.

Definition heap_classes : list Z := [8; 16; 32; 64; 128; 256; 512; 1024].

Fixpoint truncate_all (fuel : nat) (cs : list Z) : K kheap unit :=
  match cs with
  | [] => kret tt
  | c :: cs' => on_heap c (heap_truncate fuel) ;;; truncate_all fuel cs'
  end.

Definition default_alloc (fuel : nat) (size : Z) : K kheap Z :=
  ptr <- __alloc fuel size ;;
  if ptr =? 0 then truncate_all fuel heap_classes ;;; __alloc fuel size else kret ptr.

Definition default_delete (fuel : nat) (ptr : Z) : K kheap unit :=
  if VMEM_START <=? ptr then large_free fuel ptr
  else
    s <- kget ;;
    let size := load16 (ram (km s)) (PGROUNDDOWN ptr) in
    match size / 8 with
    | 1 => on_heap 8 (heap_free 8 ptr)
    | 2 => on_heap 16 (heap_free 16 ptr)
    | 4 => on_heap 32 (heap_free 32 ptr)
    | 8 => on_heap 64 (heap_free 64 ptr)
    | 16 => on_heap 128 (heap_free 128 ptr)
    | 32 => on_heap 256 (heap_free 256 ptr)
    | 64 => on_heap 512 (heap_free 512 ptr)
    | 128 => on_heap 1024 (heap_free 1024 ptr)
    | _ => kpanic
    end.

(** ** [log2_64] is the logarithm *)

(** Bit [n] of [x] says whether [v] has a bit among the [w] from [n] on. *)
Definition smeared (v w x : Z) : Prop :=
  forall n, 0 <= n -> Z.testbit x n = true <-> exists j, 0 <= j < w /\ Z.testbit v (n + j) = true.

Lemma smeared_start v : smeared v 1 v.
Proof.
  intros n Hn. split.
  - intros Hb. exists 0. by rewrite Z.add_0_r.
  - intros (j & Hj & Hb). by replace (n + j) with n in Hb by lia.
Qed.

Lemma smeared_double v w x :
  0 <= w -> smeared v w x -> smeared v (2 * w) (Z.lor x (Z.shiftr x w)).
Proof.
  intros Hw Hx n Hn. rewrite Z.lor_spec, Z.shiftr_spec, orb_true_iff by lia.
  rewrite (Hx n Hn), (Hx (n + w) ltac:(lia)). split.
  - intros [(j & Hj & Hb)|(j & Hj & Hb)].
    + exists j. split; [lia|done].
    + exists (w + j). split; [lia|]. by rewrite Z.add_assoc.
  - intros (j & Hj & Hb). destruct (decide (j < w)); [left; exists j; split; [lia|done]|].
    right. exists (j - w). split; [lia|]. by replace (n + w + (j - w)) with (n + j) by lia.
Qed.

(** Smearing over the whole width gives all ones up to the leading bit. *)
Lemma smeared_ones v x :
  0 < v < 2 ^ 64 -> smeared v 64 x -> 0 <= x -> x = Z.ones (Z.log2 v + 1).
Proof.
  intros Hv Hx Hx0. pose proof (Z.log2_nonneg v).
  assert (Z.log2 v < 64) by (apply Z.log2_lt_pow2; lia).
  apply Z.bits_inj'. intros n Hn. destruct (decide (n < Z.log2 v + 1)).
  - rewrite Z.ones_spec_low by lia. apply Hx; [done|]. exists (Z.log2 v - n). split; [lia|].
    rewrite Z.add_sub_assoc, Z.add_simpl_l. apply Z.bit_log2. lia.
  - rewrite Z.ones_spec_high by lia. apply not_true_iff_false. rewrite (Hx n Hn).
    intros (j & Hj & Hb). rewrite Z.bits_above_log2 in Hb by lia. done.
Qed.

Lemma tab64_pow2 k :
  0 <= k < 64 -> nthZ tab64 (Z.shiftr (u64 (2 ^ k * 0x07EDD5E59A4E28C2)) 58) = k.
Proof.
  intros Hk.
  assert (Forall (fun k => nthZ tab64 (Z.shiftr (u64 (2 ^ k * 0x07EDD5E59A4E28C2)) 58) = k) (seqZ 0 64))
    as Hall by (apply (bool_decide_unpack _); vm_compute; exact I).
  rewrite Forall_forall in Hall. apply Hall. by apply elem_of_seqZ.
Qed.

Lemma log2_64_spec v : 0 < v < 2 ^ 64 -> log2_64 v = Z.log2 v.
Proof.
  intros Hv. unfold log2_64. pose proof (Z.log2_nonneg v).
  assert (Z.log2 v < 64) by (apply Z.log2_lt_pow2; lia).
  pose proof (smeared_start v) as S1.
  apply (smeared_double v 1) in S1; [|lia]. apply (smeared_double v 2) in S1; [|lia].
  apply (smeared_double v 4) in S1; [|lia]. apply (smeared_double v 8) in S1; [|lia].
  apply (smeared_double v 16) in S1; [|lia]. apply (smeared_double v 32) in S1; [|lia].
  set (x := Z.lor _ (Z.shiftr _ 32)) in *.
  assert (0 <= x) as Hx0.
  { subst x. repeat (apply Z.lor_nonneg; split); try (apply Z.shiftr_nonneg);
      repeat (apply Z.lor_nonneg; split); try lia.
    all: repeat (apply Z.shiftr_nonneg || (apply Z.lor_nonneg; split)); lia. }
  rewrite (smeared_ones v x) by done. set (k := Z.log2 v) in *.
  assert (Z.ones (k + 1) - Z.shiftr (Z.ones (k + 1)) 1 = 2 ^ k) as ->.
  { rewrite Z.shiftr_div_pow2, !Z.ones_equiv by lia. rewrite Z.pow_add_r by lia.
    change (2 ^ 1) with 2. zlia. }
  rewrite (u64_small (2 ^ k)).
  - apply tab64_pow2. lia.
  - split; [lia|]. apply Z.pow_lt_mono_r; lia.
Qed.

(** The size class of every request from 1 to 1024 bytes. *)
Lemma size_class_spec size :
  1 <= size <= 1024 -> size_class size = Some (Z.max 8 (2 ^ Z.log2_up size)).
Proof.
  intros Hs. unfold size_class. destruct (Z.eqb_spec size 1) as [->|Hne]; [done|].
  rewrite u64_small, log2_64_spec by lia.
  assert (Z.log2_up size = Z.log2 (size - 1) + 1) as ->.
  { unfold Z.log2_up. rewrite (proj2 (Z.compare_lt_iff _ _)) by lia.
    rewrite <- Z.add_1_r. do 2 f_equal. }
  assert (0 <= Z.log2 (size - 1) <= 9) as Hk.
  { split; [apply Z.log2_nonneg|]. apply (Z.log2_le_mono _ 1023). lia. }
  set (k := Z.log2 (size - 1)) in *. clearbody k.
  assert (k = 0 \/ k = 1 \/ k = 2 \/ k = 3 \/ k = 4 \/ k = 5 \/ k = 6 \/ k = 7 \/ k = 8 \/ k = 9) as Hc by lia.
  by destruct_or! Hc; subst k.
Qed.

Lemma size_class_bounds size :
  1 <= size <= 1024 -> exists c, size_class size = Some c /\ c ∈ heap_classes /\ size <= c.
Proof.
  intros Hs. exists (Z.max 8 (2 ^ Z.log2_up size)). rewrite size_class_spec by done.
  assert (0 <= Z.log2_up size <= 10) as Hk.
  { split; [apply Z.log2_up_nonneg|]. apply (Z.log2_up_le_mono _ 1024). lia. }
  assert (size <= 2 ^ Z.log2_up size) as Hfit by (apply Z.log2_up_le_pow2; lia).
  set (k := Z.log2_up size) in *. clearbody k. split_and!; [done| |lia].
  assert (k = 0 \/ k = 1 \/ k = 2 \/ k = 3 \/ k = 4 \/ k = 5 \/ k = 6 \/ k = 7 \/ k = 8 \/ k = 9 \/ k = 10)
    as Hc by lia. by destruct_or! Hc; subst k; apply (bool_decide_unpack _); vm_compute.
Qed.

(** For every request of 1 to 1024 bytes, [__alloc] picks the least of the
    eight slab sizes that the request fits in. *)
Theorem size_class_least size :
  1 <= size <= 1024 ->
  exists c, size_class size = Some c /\ c ∈ heap_classes /\ size <= c /\
    forall c', c' ∈ heap_classes -> size <= c' -> c <= c'.
Proof.
  intros Hs. destruct (size_class_bounds size Hs) as (c & Hc & Hin & Hle).
  exists c. split_and!; [done..|]. intros c' Hc' Hle'. rewrite size_class_spec in Hc by done. simplify_eq.
  assert (forall j, 0 <= j -> size <= 2 ^ j -> Z.log2_up size <= j) as Hleast
    by (intros; apply Z.log2_up_le_pow2; lia).
  apply Z.max_lub.
  - apply list_elem_of_In in Hc'. simpl in Hc'. lia.
  - assert (exists j, 0 <= j /\ c' = 2 ^ j) as (j & Hj & ->).
    { apply list_elem_of_In in Hc'. simpl in Hc'.
      destruct_or! Hc'; [exists 3|exists 4|exists 5|exists 6|exists 7|exists 8|exists 9|exists 10];
        subst c'; done. }
    apply Z.pow_le_mono_r; [lia|]. by apply Hleast.
Qed.

Lemma size_class_least_witness :
  exists c, size_class 100 = Some c /\ 100 <= c /\ c = 128.
Proof.
  destruct (size_class_least 100) as (c & Hc & _ & Hle & _); [lia|]. exists c.
  split_and!; [done|done|]. vm_compute in Hc. congruence.
Defined.

(** [__alloc(0)] computes [log2_64(2^64 - 1) = 63] and panics: [operator
    new(0)] stops the kernel. *)
Theorem alloc_zero_panics fuel s : __alloc fuel 0 s = Panic.
Proof. reflexivity. Qed.
