(* ===== verification/HeapInv.v ===== *)
(** * The slab allocator keeps its promises

    The invariant of [heap_allocator<size>] on memory: every block page has a
    well-formed header, its free slots are chained by index, the blocks are
    chained from [head_block] and the blocks with a free slot from
    [next_free_block].  [heap_alloc] and [heap_free] preserve it; a slot is
    handed out to one client at a time, lies inside its block, and neither
    operation writes to a slot in use. *)
From S2P Require Import Prelude Memory CString Riscv PageAlloc Vmem HeapAlloc.

(** What the [static_assert] of the constructor demands. *)
Definition slab_size (size : Z) : Prop := 8 <= size <= 1024 /\ size mod 8 = 0.

(** The free slots of a block, chained from index [idx]; -1 ends the chain. *)
Fixpoint idx_chain (m : memory) (size b idx : Z) (fl : list Z) : Prop :=
  match fl with
  | [] => idx = 2 ^ 32 - 1
  | i :: fl' => idx = i /\ idx_chain m size b (load32 m (slot_addr size b i)) fl'
  end.

Record block_inv (m : memory) (size b : Z) (fl : list Z) : Prop := {
  bi_size : blk_size m b = size;
  bi_used : blk_used m b = capacity size - Z.of_nat (length fl);
  bi_chain : idx_chain m size b (blk_next_free_index m b) fl;
  bi_nodup : NoDup fl;
  bi_range : forall i, i ∈ fl -> 0 <= i < capacity size
}.

(** Pages chained by a pointer at offset [off]. *)
Fixpoint link_chain (off : Z) (m : memory) (p : Z) (l : list Z) : Prop :=
  match l with
  | [] => p = 0
  | x :: l' => p = x /\ link_chain off m (load64 m (x + off)) l'
  end.

(** [B] gives the free slots of each block, [H] the blocks in the order of
    [head_block], [F] the chain of [next_free_block]. *)
Record heap_inv (size : Z) (m : memory) (a : heap_allocator) (B : gmap Z (list Z)) (H F : list Z) : Prop := {
  hi_block : forall b fl, B !! b = Some fl -> b mod 4096 = 0 /\ 0 < b < 2 ^ 56 /\ block_inv m size b fl;
  hi_heads : link_chain 8 m (head_block a) H;
  hi_heads_nodup : NoDup H;
  hi_heads_elem : forall b, b ∈ H <-> is_Some (B !! b);
  hi_free : link_chain 16 m (next_free_block a) F;
  hi_free_nodup : NoDup F;
  hi_free_elem : forall b, b ∈ F <-> exists i fl, B !! b = Some (i :: fl)
}.

(** The slot at [p] is in use. *)
Definition slot_used (size : Z) (B : gmap Z (list Z)) (p : Z) : Prop :=
  exists b fl i, B !! b = Some fl /\ 0 <= i < capacity size /\ i ∉ fl /\ p = slot_addr size b i.

(** ** Layout *)

Lemma slab_layout size :
  slab_size size ->
  24 <= info_size size /\ info_size size mod size = 0 /\ 2 <= capacity size <= 509 /\
  info_size size + capacity size * size <= 4096.
Proof.
  intros [Hs Hm]. unfold capacity, info_size, PGSIZE.
  pose proof (Z.div_mod (24 + size - 1) size ltac:(lia)) as H1.
  pose proof (Z.mod_pos_bound (24 + size - 1) size ltac:(lia)) as H2.
  set (q := (24 + size - 1) / size) in *.
  pose proof (Z.div_mod (4096 - q * size) size ltac:(lia)) as H3.
  pose proof (Z.mod_pos_bound (4096 - q * size) size ltac:(lia)) as H4.
  set (c := (4096 - q * size) / size) in *.
  split_and!; [nia|by apply Z.mod_mul; lia|nia|nia|nia].
Qed.

Lemma slot_bounds size b i :
  slab_size size -> 0 <= i < capacity size ->
  b + 24 <= slot_addr size b i /\ slot_addr size b i + size <= b + 4096.
Proof.
  intros Hs Hi. destruct (slab_layout size Hs) as (H1 & _ & _ & H4). destruct Hs as [Hs _].
  unfold slot_addr. pose proof (Z.mul_le_mono_nonneg_r (i + 1) (capacity size) size). nia.
Qed.

Lemma slot_disjoint size b i j :
  slab_size size -> i <> j ->
  slot_addr size b i + size <= slot_addr size b j \/ slot_addr size b j + size <= slot_addr size b i.
Proof. intros [Hs _] Hne. unfold slot_addr. destruct (Z.lt_total i j) as [|[|]]; nia. Qed.

(** A slot address determines its block and index. *)
Lemma slot_addr_inj size b b' i j :
  slab_size size -> b mod 4096 = 0 -> b' mod 4096 = 0 ->
  0 <= i < capacity size -> 0 <= j < capacity size ->
  slot_addr size b i = slot_addr size b' j -> b = b' /\ i = j.
Proof.
  intros Hs Hb Hb' Hi Hj He. pose proof (slot_bounds size b i Hs Hi).
  pose proof (slot_bounds size b' j Hs Hj). assert (b = b') as -> by (destruct Hs; zlia).
  split; [done|]. destruct (decide (i = j)) as [|Hne]; [done|].
  destruct (slot_disjoint size b' i j Hs Hne); destruct Hs; lia.
Qed.

Lemma slot_page size b i :
  slab_size size -> b mod 4096 = 0 -> 0 <= i < capacity size -> PGROUNDDOWN (slot_addr size b i) = b.
Proof.
  intros Hs Hb Hi. pose proof (slot_bounds size b i Hs Hi). rewrite PGROUNDDOWN_eq.
  destruct Hs. zlia.
Qed.

(** ** One block *)

Lemma idx_chain_agree m m' size b idx fl :
  (forall i, i ∈ fl -> load32 m' (slot_addr size b i) = load32 m (slot_addr size b i)) ->
  idx_chain m size b idx fl -> idx_chain m' size b idx fl.
Proof.
  revert idx. induction fl as [|i fl IH]; intros idx Hag; cbn [idx_chain]; [done|].
  intros [-> Hc]. split; [done|]. rewrite Hag by set_solver. apply IH; [|done].
  intros. apply Hag. set_solver.
Qed.

(** A block does not change with memory outside its page. *)
Lemma block_inv_agree m m' size b fl :
  slab_size size -> mem_agree b (b + 4096) m m' -> block_inv m size b fl -> block_inv m' size b fl.
Proof.
  intros Hs Hag [H1 H2 H3 H4 H5]. unfold blk_size, blk_used, blk_next_free_index in *.
  assert (forall k a, b <= a -> a + Z.of_nat k <= b + 4096 -> load k m' a = load k m a) as Hl
    by (intros; apply load_agree; intros x Hx; apply Hag; lia).
  split; unfold blk_size, blk_used, blk_next_free_index; [by rewrite Hl by lia|by rewrite Hl by lia| |done|done].
  rewrite Hl by lia. eapply idx_chain_agree; [|done]. intros i Hi. apply Hl.
  - pose proof (slot_bounds size b i Hs (H5 i Hi)). lia.
  - pose proof (slot_bounds size b i Hs (H5 i Hi)). destruct Hs. lia.
Qed.

Lemma link_slots_other n size b i m a :
  slab_size size -> 0 <= i ->
  (forall j, i <= j < i + Z.of_nat n -> a < slot_addr size b j \/ slot_addr size b j + 4 <= a) ->
  rd8 (link_slots n size b i m) a = rd8 m a.
Proof.
  intros Hs. revert i m. induction n as [|n IH]; intros i m Hi Ha; [done|]. cbn [link_slots].
  rewrite IH by (lia || (intros; apply Ha; lia)). apply store_other. apply Ha. lia.
Qed.

Lemma link_slots_spec n size b i m j :
  slab_size size -> 0 <= i -> i + Z.of_nat n < 2 ^ 32 -> i <= j < i + Z.of_nat n ->
  load32 (link_slots n size b i m) (slot_addr size b j) = j + 1.
Proof.
  intros Hs. revert i m. induction n as [|n IH]; intros i m Hi Hb Hj; [lia|]. cbn [link_slots].
  destruct (decide (j = i)) as [->|Hne]; [|apply IH; lia].
  rewrite (load_agree 4 (store32 m (slot_addr size b i) (i + 1))).
  - apply (load_store_eq 4). change (256 ^ Z.of_nat 4) with (2 ^ 32). lia.
  - intros a Ha. apply link_slots_other; [done|lia|]. intros k Hk.
    destruct (slot_disjoint size b i k Hs); destruct Hs; lia.
Qed.

(** The chain the constructor builds: 0, 1, ..., capacity - 1. *)
Lemma idx_chain_seq m size b n i :
  (forall j, i <= j < i + Z.of_nat n - 1 -> load32 m (slot_addr size b j) = j + 1) ->
  (0 < n)%nat -> load32 m (slot_addr size b (i + Z.of_nat n - 1)) = 2 ^ 32 - 1 ->
  idx_chain m size b i (seqZ i (Z.of_nat n)).
Proof.
  revert i. induction n as [|n IH]; intros i Hl Hn Hlast; [lia|].
  rewrite seqZ_cons by lia. cbn [idx_chain]. split; [done|].
  destruct n as [|n]; [rewrite seqZ_nil by lia; replace (i + Z.of_nat 1 - 1) with i in Hlast by lia; done|].
  rewrite Hl by lia. replace (Z.pred (Z.of_nat (S (S n)))) with (Z.of_nat (S n)) by lia.
  replace (Z.succ i) with (i + 1) by lia.
  apply IH; [intros; apply Hl; lia|lia|]. rewrite <- Hlast. do 2 f_equal. lia.
Qed.

Lemma heap_block_init_other size b m a :
  slab_size size -> a < b \/ b + 4096 <= a -> rd8 (heap_block_init size b m) a = rd8 m a.
Proof.
  intros Hs Ha. destruct (slab_layout size Hs) as (H1 & _ & Hc & H4).
  pose proof (slot_bounds size b (capacity size - 1) Hs ltac:(lia)). pose proof Hs as [? _].
  unfold heap_block_init. rewrite store_other by lia.
  rewrite link_slots_other; [|done|lia|].
  - rewrite memset_other by lia. rewrite !store_other by lia. done.
  - intros j Hj. pose proof (slot_bounds size b j Hs ltac:(lia)). lia.
Qed.

Lemma heap_block_init_header size b m n a :
  slab_size size -> b <= a -> a + Z.of_nat n <= b + 24 ->
  load n (heap_block_init size b m) a =
  load n (store64 (store64 (store32 (store16 (store16 m b size) (b + 2) 0) (b + 4) 0) (b + 8) 0) (b + 16) 0) a.
Proof.
  intros Hs Ha Hn. destruct (slab_layout size Hs) as (H1 & _ & Hc & H4).
  pose proof (slot_bounds size b (capacity size - 1) Hs ltac:(lia)). pose proof Hs as [? _].
  apply load_agree. intros x Hx. unfold heap_block_init. rewrite store_other by lia.
  rewrite link_slots_other; [|done|lia|].
  - rewrite memset_other by lia. done.
  - intros j Hj. pose proof (slot_bounds size b j Hs ltac:(lia)). lia.
Qed.

Lemma heap_block_init_inv size b m :
  slab_size size ->
  block_inv (heap_block_init size b m) size b (seqZ 0 (capacity size)) /\
  blk_next_free_block (heap_block_init size b m) b = 0.
Proof.
  intros Hs. destruct (slab_layout size Hs) as (H1 & _ & Hc & H4). pose proof Hs as [Hs' _].
  split; [split|]; unfold blk_size, blk_used, blk_next_free_index, blk_next_free_block.
  - rewrite heap_block_init_header by (done || lia). rewrite !load_store_ne by lia.
    apply (load_store_eq 2). change (256 ^ Z.of_nat 2) with 65536. lia.
  - rewrite heap_block_init_header by (done || lia). rewrite !load_store_ne by lia.
    rewrite (load_store_eq 2) by done. rewrite length_seqZ. lia.
  - rewrite heap_block_init_header by (done || lia). rewrite !load_store_ne by lia.
    rewrite (load_store_eq 4) by done.
    replace (capacity size) with (Z.of_nat (Z.to_nat (capacity size))) at 1 by lia.
    apply idx_chain_seq; [|lia|].
    + intros j Hj. unfold heap_block_init. rewrite load_store_ne.
      * apply link_slots_spec; [done|lia|lia|lia].
      * destruct (slot_disjoint size b j (capacity size - 1) Hs); lia.
    + replace (0 + Z.of_nat (Z.to_nat (capacity size)) - 1) with (capacity size - 1) by lia.
      apply (load_store_eq 4). by vm_compute.
  - apply NoDup_seqZ.
  - intros i Hi. apply elem_of_seqZ in Hi. lia.
  - rewrite heap_block_init_header by (done || lia). by apply (load_store_eq 8).
Qed.

Lemma full_iff c (fl : list Z) : (c - Z.of_nat (length fl) =? c) = bool_decide (fl = []).
Proof.
  destruct fl; cbn [length].
  - rewrite Z.sub_0_r. apply Z.eqb_refl.
  - rewrite bool_decide_eq_false_2 by done. apply Z.eqb_neq. lia.
Qed.

Lemma heap_block_alloc_spec size b m i fl :
  slab_size size -> block_inv m size b (i :: fl) ->
  exists m', heap_block_alloc size b m = (slot_addr size b i, m') /\
    block_inv m' size b fl /\ heap_block_full size b m' = bool_decide (fl = []) /\
    forall a, a < b + 2 \/ b + 8 <= a -> rd8 m' a = rd8 m a.
Proof.
  intros Hs [H1 H2 H3 H4 H5]. destruct (slab_layout size Hs) as (_ & _ & Hc & _).
  cbn [length] in H2. destruct H3 as [H3 Hch]. apply NoDup_cons in H4 as [Hni Hnd].
  assert (length fl < Z.to_nat (capacity size))%nat as Hlen.
  { assert ((i :: fl) ⊆+ seqZ 0 (capacity size)) as Hsub.
    { apply NoDup_submseteq; [by constructor|]. intros j Hj. apply elem_of_seqZ. specialize (H5 j Hj). lia. }
    apply submseteq_length in Hsub. rewrite length_seqZ in Hsub. cbn [length] in Hsub. lia. }
  unfold heap_block_alloc, heap_block_full. rewrite H2, (proj2 (Z.eqb_neq _ _)), H3 by lia.
  set (lnk := load32 m (slot_addr size b i)) in *.
  set (m1 := store32 m (b + 4) lnk).
  assert (0 <= lnk < 2 ^ 32) as Hlnk by apply (load_range 4).
  assert (blk_used m1 b = capacity size - Z.of_nat (S (length fl))) as Hu.
  { unfold blk_used, m1. by rewrite load_store_ne by lia. }
  rewrite Hu, u16_small by lia. set (m2 := store16 m1 (b + 2) _).
  assert (forall a, a < b + 2 \/ b + 8 <= a -> rd8 m2 a = rd8 m a) as Hother.
  { intros a Ha. unfold m2, m1. by rewrite !store_other by lia. }
  assert (blk_used m2 b = capacity size - Z.of_nat (length fl)) as Hu2.
  { unfold blk_used, m2. rewrite (load_store_eq 2); [lia|]. change (256 ^ Z.of_nat 2) with 65536. lia. }
  exists m2. split_and!; [done| |rewrite Hu2; apply full_iff|done].
  split; [| done| |done|intros j Hj; apply H5; by right].
  - rewrite <- H1. apply load_agree. intros a Ha. apply Hother. lia.
  - unfold blk_next_free_index, m2, m1. rewrite load_store_ne, (load_store_eq 4) by (lia || done).
    eapply idx_chain_agree; [|done]. intros j Hj. apply load_agree. intros a Ha. apply Hother.
    pose proof (slot_bounds size b j Hs (H5 j ltac:(by right))). lia.
Qed.

Lemma heap_block_free_spec size b m i fl :
  slab_size size -> block_inv m size b fl -> 0 <= i < capacity size -> i ∉ fl ->
  heap_block_full size b m = bool_decide (fl = []) /\
  exists m', heap_block_free size b (slot_addr size b i) m = Ret tt m' /\
    block_inv m' size b (i :: fl) /\
    forall a, (a < b + 2 \/ b + 8 <= a) -> (a < slot_addr size b i \/ slot_addr size b i + 4 <= a) ->
      rd8 m' a = rd8 m a.
Proof.
  intros Hs [H1 H2 H3 H4 H5] Hi Hni. destruct (slab_layout size Hs) as (_ & _ & Hc & _).
  pose proof Hs as [Hs' _].
  assert (length (i :: fl) <= Z.to_nat (capacity size))%nat as Hlen.
  { assert ((i :: fl) ⊆+ seqZ 0 (capacity size)) as Hsub.
    { apply NoDup_submseteq; [by constructor|]. intros j [->|Hj]%elem_of_cons; apply elem_of_seqZ; [lia|].
      specialize (H5 j Hj). lia. }
    apply submseteq_length in Hsub. by rewrite length_seqZ in Hsub. }
  cbn [length] in Hlen. unfold heap_block_full. rewrite H2.
  split; [apply full_iff|].
  unfold heap_block_free.
  replace (slot_addr size b i - (b + info_size size)) with (i * size) by (unfold slot_addr; lia).
  rewrite Z.quot_mul, u32_small, (proj2 (Z.leb_gt _ _)) by lia.
  set (p := slot_addr size b i). pose proof (slot_bounds size b i Hs Hi) as Hp. fold p in Hp.
  set (m1 := store32 m p _). set (m2 := store32 m1 (b + 4) i).
  assert (blk_used m2 b = capacity size - Z.of_nat (length fl)) as Hu.
  { unfold blk_used, m2, m1. by rewrite !load_store_ne by lia. }
  rewrite Hu, u16_small by lia. set (m3 := store16 m2 (b + 2) _).
  assert (forall a, a < b + 2 \/ b + 8 <= a -> a < p \/ p + 4 <= a -> rd8 m3 a = rd8 m a) as Hother.
  { intros a Ha Hb. unfold m3, m2, m1. by rewrite !store_other by lia. }
  exists m3. split_and!; [done| |done].
  split; [| | |by constructor|intros j [->|Hj]%elem_of_cons; [lia|by apply H5]].
  - rewrite <- H1. apply load_agree. intros a Ha. apply Hother; lia.
  - unfold blk_used, m3. rewrite (load_store_eq 2); [cbn [length]; lia|].
    change (256 ^ Z.of_nat 2) with 65536. lia.
  - unfold blk_next_free_index, m3, m2. rewrite load_store_ne, (load_store_eq 4)
      by (lia || (change (256 ^ Z.of_nat 4) with (2 ^ 32); lia)).
    fold m1 m2 m3. cbn [idx_chain]. split; [done|]. fold p.
    assert (load32 m3 p = blk_next_free_index m b) as ->.
    { unfold m3, m2, m1. rewrite !load_store_ne by lia. apply (load_store_eq 4), (load_range 4). }
    eapply idx_chain_agree; [|exact H3]. intros j Hj. apply load_agree. intros a Ha.
    assert (i <> j) by congruence. pose proof (slot_bounds size b j Hs (H5 j Hj)).
    apply Hother; [lia|]. destruct (slot_disjoint size b i j Hs) as [Hd|Hd]; [done| |]; fold p in Hd; lia.
Qed.

(** ** Chains of pages *)

Lemma link_chain_agree off m m' p l :
  (forall x, x ∈ l -> load64 m' (x + off) = load64 m (x + off)) ->
  link_chain off m p l -> link_chain off m' p l.
Proof.
  revert p. induction l as [|x l IH]; intros p Hag; cbn [link_chain]; [done|].
  intros [-> Hl]. split; [done|]. rewrite Hag by set_solver. apply IH; [|done].
  intros. apply Hag. set_solver.
Qed.

Lemma pages_apart b b' : b mod 4096 = 0 -> b' mod 4096 = 0 -> b <> b' -> b + 4096 <= b' \/ b' + 4096 <= b.
Proof. zlia. Qed.

(** [a] is not inside a block. *)
Definition outside_blocks (B : gmap Z (list Z)) (a : Z) : Prop :=
  forall b, is_Some (B !! b) -> a < b \/ b + 4096 <= a.

(** The invariant does not depend on memory outside the blocks. *)
Lemma heap_inv_agree size m m' a B H F :
  slab_size size -> (forall b, is_Some (B !! b) -> mem_agree b (b + 4096) m m') ->
  heap_inv size m a B H F -> heap_inv size m' a B H F.
Proof.
  intros Hs Hag [H1 H2 H3 H4 H5 H6 H7].
  assert (forall b off, is_Some (B !! b) -> 0 <= off -> off + 8 <= 4096 ->
    load64 m' (b + off) = load64 m (b + off)) as Hl.
  { intros b off Hb Ho1 Ho2. apply load_agree. intros x Hx. apply (Hag b Hb). lia. }
  split; try done.
  - intros b fl Hb. destruct (H1 b fl Hb) as (? & ? & ?). split_and!; try done; [lia|lia|].
    eapply block_inv_agree; [done| |done]. apply Hag. by rewrite Hb.
  - eapply link_chain_agree; [|done]. intros x Hx. apply Hl; [by apply H4|lia..].
  - eapply link_chain_agree; [|done]. intros x Hx. apply Hl; [|lia..].
    apply H7 in Hx as (i & fl & Hx). by rewrite Hx.
Qed.

(** The invariant after one block changed from [fl] to [fl']. *)
Lemma heap_inv_update size m m' a a' B H F F' b fl fl' :
  slab_size size -> heap_inv size m a B H F -> B !! b = Some fl -> block_inv m' size b fl' ->
  (forall x, x < b \/ b + 4096 <= x -> rd8 m' x = rd8 m x) ->
  blk_next_block m' b = blk_next_block m b -> head_block a' = head_block a ->
  link_chain 16 m' (next_free_block a') F' -> NoDup F' ->
  (forall b', b' ∈ F' <-> if decide (b' = b) then fl' <> [] else b' ∈ F) ->
  heap_inv size m' a' (<[b := fl']> B) H F'.
Proof.
  intros Hs [H1 H2 H3 H4 H5 H6 H7] Hb Hbi Hother Hnext Hhead Hch Hnd Hel.
  destruct (H1 b fl Hb) as (Hal & Hr & _). split; [|rewrite Hhead|done| |done|done|].
  - intros b' fl'' [[<- <-]|[Hne Hb']]%lookup_insert_Some; [done|].
    destruct (H1 b' fl'' Hb') as (Hal' & Hr' & Hbi'). split_and!; [done|lia|lia|].
    eapply block_inv_agree; [done| |done]. intros x Hx. apply Hother. zlia.
  - eapply link_chain_agree; [|done]. intros x Hx. destruct (decide (x = b)) as [->|Hne]; [done|].
    apply H4 in Hx as [fx Hx]. destruct (H1 x fx Hx) as (Halx & _). apply load_agree.
    intros y Hy. apply Hother. zlia.
  - intros b'. rewrite H4. destruct (decide (b' = b)) as [->|Hne].
    + rewrite lookup_insert_eq, Hb. split; eauto.
    + by rewrite lookup_insert_ne.
  - intros b'. rewrite Hel. case_decide as Hd.
    + subst b'. rewrite lookup_insert_eq. destruct fl' as [|i' fl']; [|naive_solver].
      split; [done|]. by intros (? & ? & ?).
    + rewrite lookup_insert_ne by done. apply H7.
Qed.

(** A slab allocator next to the page allocator it draws from. *)
Record heap_ok (size : Z) (s : hstate) (B : gmap Z (list Z)) (H F l : list Z) : Prop := {
  ho_inv : heap_inv size (hmem s) (ha s) B H F;
  ho_pages : pages_inv (hm s) l;
  ho_apart : forall b, is_Some (B !! b) -> b ∉ l;
  ho_range : forall b, is_Some (B !! b) -> page_ok (pages (hm s)) b
}.

(** Writing inside the blocks keeps the page allocator. *)
Lemma pages_inv_block_write size s B H F l m' :
  heap_ok size s B H F l -> (forall a, outside_blocks B a -> rd8 m' a = rd8 (hmem s) a) ->
  pages_inv (set_ram (fun _ => m') (hm s)) l.
Proof.
  intros [[Hbl _ _ _ _ _ _] Hpg Hap Hrg] Hout. apply pages_inv_client_write; [done|].
  intros p Hp. apply load_agree. intros a Ha. apply Hout. intros b Hb.
  destruct (pages_inv_free_pages _ _ _ Hpg Hp) as [[Hpal _] _]. destruct Hb as [fl Hb].
  destruct (Hbl b fl Hb) as (Hbal & _). unfold PGSIZE in Hpal.
  assert (p <> b). { intros ->. apply (Hap b); [by rewrite Hb|done]. } zlia.
Qed.

Lemma on_machine_ret {A} (k : K machine A) s a m :
  k (hm s) = Ret a m -> on_machine k s = Ret a (HState m (ha s)).
Proof. unfold on_machine. by intros ->. Qed.

(** Growing: a fresh page becomes the only block with free slots. *)
Lemma heap_grow_spec size s B H l :
  slab_size size -> heap_ok size s B H [] l ->
  match l with
  | [] => heap_grow size s = Ret false s
  | b :: l' => exists s', heap_grow size s = Ret true s' /\
      heap_ok size s' (<[b := seqZ 0 (capacity size)]> B) (b :: H) [b] l' /\ B !! b = None /\
      pa_start (pages (hm s')) = pa_start (pages (hm s)) /\ pa_end (pages (hm s')) = pa_end (pages (hm s)) /\
      forall a, a < b \/ b + 4096 <= a -> rd8 (hmem s') a = rd8 (hmem s) a
  end.
Proof.
  intros Hs [Hinv Hpg Hap Hrg]. pose proof Hinv as [H1 H2 H3 H4 H5 H6 H7]. cbn [link_chain] in H5.
  pose proof (alloc_page_correct _ _ Hpg) as Hal.
  destruct l as [|b l].
  { unfold heap_grow. rewrite (kbind_ret _ _ _ _ _ (on_machine_ret _ _ _ _ Hal)).
    unfold kbind, kmodify, kret. destruct s as [ms [? ? ? ?]]. cbn in *. by rewrite H5. }
  destruct Hal as (s1 & Hal & Hpg1 & Hram & Hst & Hen).
  destruct (pages_inv_free_pages _ _ b Hpg ltac:(by left)) as [[Hbal Hbr] Hb0]. unfold PGSIZE in Hbal.
  unfold heap_grow. rewrite (kbind_ret _ _ _ _ _ (on_machine_ret _ _ _ _ Hal)).
  rewrite (proj2 (Z.eqb_neq _ _)) by lia. unfold kbind, kmodify, kret. cbv zeta. change (hmem (HState s1 (ha s))) with (ram s1). cbn [hm ha].
  assert (B !! b = None) as Hnew.
  { destruct (B !! b) eqn:E; [|done]. exfalso. apply (Hap b); [by rewrite E|by left]. }
  pose proof (pi_nodup _ _ Hpg) as Hnd. apply NoDup_cons in Hnd as [Hbl _].
  set (m0 := heap_block_init size b (ram s1)). set (m1 := store64 m0 (b + 8) (head_block (ha s))).
  destruct (heap_block_init_inv size b (ram s1) Hs) as [Hbi Hnf]. fold m0 in Hbi, Hnf.
  assert (forall a, a < b \/ b + 4096 <= a -> rd8 m1 a = rd8 (hmem s) a) as Hother.
  { intros a Ha. unfold m1. rewrite store_other by lia. unfold m0.
    rewrite heap_block_init_other by done. by rewrite Hram. }
  assert (forall x, is_Some (B !! x) -> mem_agree x (x + 4096) (hmem s) m1) as Hagree.
  { intros x [fx Hx] a Ha. apply Hother. destruct (H1 x fx Hx) as (Hxal & _).
    assert (x <> b) by congruence. zlia. }
  assert (heap_inv size m1 (ha s) B H []) as Hinv1 by (by eapply heap_inv_agree).
  eexists. split; [done|]. destruct (slab_layout size Hs) as (_ & _ & Hc & _).
  split_and!; [split|done|done|done|done].
  - destruct Hinv1 as [I1 I2 I3 I4 I5 I6 I7]. cbn [hmem hm ha set_ram ram].
    split; cbn [head_block next_free_block link_chain].
    + intros x fx [[<- <-]|[Hne Hx]]%lookup_insert_Some; [|by apply I1].
      split_and!; [done|lia|lia|]. destruct Hbi as [B1 B2 B3 B4 B5].
      split; try done; unfold blk_size, blk_used, blk_next_free_index, m1 in *.
      * by rewrite load_store_ne by lia.
      * by rewrite load_store_ne by lia.
      * rewrite load_store_ne by lia. eapply idx_chain_agree; [|done]. intros i Hi.
        pose proof (slot_bounds size b i Hs (B5 i Hi)). apply load_store_ne. lia.
    + split; [done|]. assert (load64 m1 (b + 8) = head_block (ha s)) as ->; [|done].
      apply load64_store64_eq. destruct H as [|x H]; cbn [link_chain] in H2; [lia|].
      destruct H2 as [-> _]. destruct (proj1 (H4 x)) as [fx Hx]; [by left|].
      destruct (H1 x fx Hx) as (_ & ? & _). lia.
    + constructor; [|done]. rewrite H4, Hnew. by intros [].
    + intros x. rewrite elem_of_cons, I4. destruct (decide (x = b)) as [->|Hne].
      * rewrite lookup_insert_eq. split; eauto.
      * rewrite lookup_insert_ne by done. naive_solver.
    + split; [done|]. unfold m1. rewrite load64_store64_ne by lia. apply Hnf.
    + apply NoDup_singleton.
    + intros x. rewrite list_elem_of_singleton. destruct (decide (x = b)) as [->|Hne].
      * rewrite lookup_insert_eq, seqZ_cons by lia. naive_solver.
      * rewrite lookup_insert_ne, <- I7, elem_of_nil by done. naive_solver.
  - apply (pages_inv_client_write s1 l (fun _ => m1)); [done|]. intros p Hp. apply load_agree.
    intros a Ha. rewrite Hram. apply Hother.
    destruct (pages_inv_free_pages _ _ p Hpg ltac:(by right)) as [[Hpal _] _]. unfold PGSIZE in Hpal.
    assert (p <> b) by congruence. zlia.
  - intros x Hx. destruct (decide (x = b)) as [->|Hne]; [done|]. rewrite lookup_insert_ne in Hx by done.
    specialize (Hap x Hx). set_solver.
  - intros x Hx. cbn [pages hm set_ram]. eapply page_ok_ext; [done..|].
    destruct (decide (x = b)) as [->|Hne]; [by split|]. rewrite lookup_insert_ne in Hx by done. by apply Hrg.
Qed.

(** The part of [heap_alloc] after the allocator has a block with a free
    slot. *)
Definition heap_take (size : Z) (s : hstate) : Z * hstate :=
  let b := next_free_block (ha s) in
  let '(ret, m) := heap_block_alloc size b (hmem s) in
  let nfb := if heap_block_full size b m then blk_next_free_block m b else b in
  (ret, HState (set_ram (fun _ => m) (hm s))
    (HeapAllocator (head_block (ha s)) nfb (allocated (ha s)) (u64 (used (ha s) + size)))).

Lemma heap_take_spec size s B H b F i fl l :
  slab_size size -> heap_ok size s B H (b :: F) l -> B !! b = Some (i :: fl) ->
  exists s' F', heap_take size s = (slot_addr size b i, s') /\
    heap_ok size s' (<[b := fl]> B) H F' l /\
    pa_start (pages (hm s')) = pa_start (pages (hm s)) /\ pa_end (pages (hm s')) = pa_end (pages (hm s)) /\
    forall a, a < b + 2 \/ b + 8 <= a -> rd8 (hmem s') a = rd8 (hmem s) a.
Proof.
  intros Hs Hok Hb. pose proof Hok as [Hinv Hpg Hap Hrg]. pose proof Hinv as [H1 H2 H3 H4 H5 H6 H7].
  destruct H5 as [H5 H5']. destruct (H1 _ _ Hb) as (Hal & Hr & Hbi).
  unfold heap_take. rewrite H5.
  destruct (heap_block_alloc_spec size b (hmem s) i fl Hs Hbi) as (m' & -> & Hbi' & Hfull & Hother).
  rewrite Hfull. assert (blk_next_free_block m' b = blk_next_free_block (hmem s) b) as Hnf.
  { apply load_agree. intros a Ha. apply Hother. lia. }
  assert (forall x, x ∈ b :: F -> load64 m' (x + 16) = load64 (hmem s) (x + 16)) as Hl16.
  { intros x Hx. apply load_agree. intros a Ha. apply Hother. apply H7 in Hx as (j & fx & Hx).
    destruct (H1 _ _ Hx) as (Hxal & _). destruct (decide (x = b)) as [->|]; zlia. }
  eexists _, (if bool_decide (fl = []) then F else b :: F). split; [done|].
  assert (is_Some (B !! b)) as Hsome by (by rewrite Hb).
  split_and!; [split|done|done|done].
  - unfold hmem. cbn [hm ha set_ram ram]. apply NoDup_cons in H6 as [Hbf HndF].
    eapply (heap_inv_update size (hmem s)); [done|exact Hinv|exact Hb|done| |by apply load_agree; intros a Ha; apply Hother; lia|done| | |].
    + intros x Hx. apply Hother. lia.
    + cbn [next_free_block]. case_bool_decide.
      * rewrite Hnf. eapply link_chain_agree; [|done]. intros x Hx. apply Hl16. by right.
      * cbn [link_chain]. split; [done|]. rewrite (Hl16 b) by by left.
        eapply link_chain_agree; [|done]. intros x Hx. apply Hl16. by right.
    + case_bool_decide; [done|by constructor].
    + intros b'. case_decide as Hd.
      * subst b'. case_bool_decide as Hfl; [naive_solver|]. rewrite elem_of_cons. naive_solver.
      * case_bool_decide; rewrite ?elem_of_cons; naive_solver.
  - eapply pages_inv_block_write; [done|]. intros a Ha. apply Hother. destruct (Ha b Hsome); lia.
  - intros x Hx. apply Hap. destruct (decide (x = b)) as [->|]; [done|]. by rewrite lookup_insert_ne in Hx.
  - intros x Hx. apply Hrg. destruct (decide (x = b)) as [->|]; [done|]. by rewrite lookup_insert_ne in Hx.
Qed.

(** Taking a slot out of a block marks that slot used and no other. *)
Lemma slot_used_take size m a B H F b i fl p :
  slab_size size -> heap_inv size m a B H F -> B !! b = Some (i :: fl) ->
  slot_used size (<[b := fl]> B) p <-> p = slot_addr size b i \/ slot_used size B p.
Proof.
  intros Hs Hinv Hb. destruct (hi_block _ _ _ _ _ _ Hinv _ _ Hb) as (Hal & _ & Hbi).
  pose proof (bi_nodup _ _ _ _ Hbi) as Hnd. apply NoDup_cons in Hnd as [Hni _].
  pose proof (bi_range _ _ _ _ Hbi i ltac:(by left)) as Hi. split.
  - intros (b' & fl' & j & [[<- <-]|[Hne Hb']]%lookup_insert_Some & Hj & Hnj & ->).
    + destruct (decide (j = i)) as [->|Hji]; [by left|right]. exists b, (i :: fl), j.
      split_and!; [done|lia|lia| |done]. set_solver.
    + right. by exists b', fl', j.
  - intros [->|(b' & fl' & j & Hb' & Hj & Hnj & ->)].
    + exists b, fl, i. rewrite lookup_insert_eq. done.
    + destruct (decide (b' = b)) as [->|Hne].
      * exists b, fl, j. rewrite lookup_insert_eq. simplify_eq. split_and!; [done|lia|lia| |done]. set_solver.
      * exists b', fl', j. by rewrite lookup_insert_ne.
Qed.

Lemma slot_unused_free size m a B H F b i fl :
  slab_size size -> heap_inv size m a B H F -> B !! b = Some fl -> i ∈ fl ->
  ~ slot_used size B (slot_addr size b i).
Proof.
  intros Hs Hinv Hb Hi (b' & fl' & j & Hb' & Hj & Hnj & Heq).
  destruct (hi_block _ _ _ _ _ _ Hinv _ _ Hb) as (Hal & _ & Hbi).
  destruct (hi_block _ _ _ _ _ _ Hinv _ _ Hb') as (Hal' & _ & _).
  pose proof (bi_range _ _ _ _ Hbi i Hi) as Hir.
  destruct (slot_addr_inj size b b' i j Hs Hal Hal' Hir Hj Heq) as [<- <-]. by simplify_eq.
Qed.

(** The slots of a fresh block are all free. *)
Lemma slot_used_fresh size B b p :
  B !! b = None ->
  slot_used size (<[b := seqZ 0 (capacity size)]> B) p <-> slot_used size B p.
Proof.
  intros Hnew. split.
  - intros (b' & fl' & j & [[<- <-]|[Hne Hb']]%lookup_insert_Some & Hj & Hnj & ->); [|by exists b', fl', j].
    exfalso. apply Hnj, elem_of_seqZ. lia.
  - intros (b' & fl' & j & Hb' & Hj & Hnj & ->). exists b', fl', j.
    rewrite lookup_insert_ne by congruence. done.
Qed.

Lemma heap_alloc_eq size s :
  heap_alloc size s =
  match (if next_free_block (ha s) =? 0 then heap_grow size else kret true) s with
  | Ret true s1 => Ret (heap_take size s1).1 (heap_take size s1).2
  | Ret false s1 => Ret 0 s1
  | TaskFail s1 => TaskFail s1
  | Panic => Panic
  | OutOfFuel => OutOfFuel
  end.
Proof.
  unfold heap_alloc. unfold kbind at 1, kget. unfold kbind at 1.
  destruct ((if next_free_block (ha s) =? 0 then heap_grow size else kret true) s) as [[] s1|s1| |]; try done.
  cbn [negb]. unfold kbind, kput, kret, heap_take.
  by destruct (heap_block_alloc size (next_free_block (ha s1)) (hmem s1)).
Qed.

(** What a slab operation that ends in [s'] has kept. *)
Record heap_kept (size : Z) (s s' : hstate) (B B' : gmap Z (list Z)) (l l' : list Z) : Prop := {
  hk_suffix : l' `suffix_of` l;
  hk_blocks : forall b, is_Some (B' !! b) -> is_Some (B !! b) \/ (b ∈ l /\ b ∉ l');
  hk_start : pa_start (pages (hm s')) = pa_start (pages (hm s));
  hk_end : pa_end (pages (hm s')) = pa_end (pages (hm s));
  hk_other : forall a, outside_blocks B' a -> rd8 (hmem s') a = rd8 (hmem s) a
}.

Lemma heap_alloc_spec size s B H F l :
  slab_size size -> heap_ok size s B H F l ->
  exists r s' B' H' F' l', heap_alloc size s = Ret r s' /\ heap_ok size s' B' H' F' l' /\
    heap_kept size s s' B B' l l' /\
    (forall p a, slot_used size B p -> p <= a < p + size -> rd8 (hmem s') a = rd8 (hmem s) a) /\
    ((r = 0 /\ F = [] /\ l = [] /\ s' = s /\ B' = B) \/
     (exists b i, r = slot_addr size b i /\ 0 <= i < capacity size /\ is_Some (B' !! b) /\
      ~ slot_used size B r /\ forall p, slot_used size B' p <-> p = r \/ slot_used size B p)).
Proof.
  intros Hs Hok. rewrite heap_alloc_eq. pose proof (ho_inv _ _ _ _ _ _ Hok) as Hinv.
  assert (forall b p, slot_used size B p -> b mod 4096 = 0 -> forall a, p <= a < p + size ->
    a < b + 2 \/ b + 8 <= a) as Hslots.
  { intros b p (b' & fl' & j & Hb' & Hj & _ & ->) Hal a Ha.
    destruct (hi_block _ _ _ _ _ _ Hinv _ _ Hb') as (Hal' & _). pose proof (slot_bounds size b' j Hs Hj).
    destruct (decide (b = b')) as [->|]; zlia. }
  destruct F as [|b F].
  - pose proof (hi_free _ _ _ _ _ _ Hinv) as Hz. cbn [link_chain] in Hz. rewrite Hz. cbn [Z.eqb].
    pose proof (heap_grow_spec size s B H l Hs Hok) as Hg. destruct l as [|b l].
    { rewrite Hg. exists 0, s, B, H, [], []. split_and!; try done; [|by left].
      split; try done. intros; by left. }
    destruct Hg as (s1 & -> & Hok1 & Hnew & Hst1 & Hen1 & Hoth1).
    destruct (slab_layout size Hs) as (_ & _ & Hc & _).
    assert (<[b := seqZ 0 (capacity size)]> B !! b = Some (0 :: seqZ 1 (capacity size - 1))) as Hb.
    { rewrite lookup_insert_eq, seqZ_cons by lia. do 2 f_equal. }
    destruct (heap_take_spec size s1 _ _ b [] 0 _ l Hs Hok1 Hb) as (s2 & F2 & Ht & Hok2 & Hst2 & Hen2 & Hoth2).
    rewrite Ht. cbn [fst snd]. rewrite insert_insert_eq in Hok2.
    pose proof (ho_inv _ _ _ _ _ _ Hok1) as Hinv1.
    destruct (hi_block _ _ _ _ _ _ Hinv1 _ _ Hb) as (Hbal & _).
    eexists _, s2, _, _, F2, l. split_and!; [done|done| | |right].
    + pose proof (pi_nodup _ _ (ho_pages _ _ _ _ _ _ Hok)) as Hnd. apply NoDup_cons in Hnd as [Hbl _].
      split; [by exists [b]| |congruence|congruence|].
      * intros x Hx. destruct (decide (x = b)) as [->|]; [right; split; [by left|done]|left].
        by rewrite lookup_insert_ne in Hx.
      * intros a Ha. destruct (Ha b) as [|]; [by rewrite lookup_insert_eq| |]; rewrite Hoth2, Hoth1 by lia; done.
    + intros p a Hp Ha. rewrite Hoth2 by (eapply Hslots; eauto). apply Hoth1.
      destruct Hp as (b' & fl' & j & Hb' & Hj & _ & ->).
      destruct (hi_block _ _ _ _ _ _ Hinv _ _ Hb') as (Hal' & _). pose proof (slot_bounds size b' j Hs Hj).
      assert (b <> b') by congruence. zlia.
    + exists b, 0. split_and!; [done|lia|lia|by rewrite lookup_insert_eq| |].
      * rewrite <- (slot_used_fresh size B b) by done. eapply slot_unused_free; [done|done|exact Hb|by left].
      * intros p. rewrite <- (slot_used_fresh size B b p) by done.
        rewrite <- (slot_used_take size _ _ _ _ _ b 0 _ p Hs Hinv1 Hb). by rewrite insert_insert_eq.
  - pose proof (hi_free _ _ _ _ _ _ Hinv) as [Hnf _].
    destruct (proj1 (hi_free_elem _ _ _ _ _ _ Hinv b)) as (i & fl & Hb); [by left|].
    destruct (hi_block _ _ _ _ _ _ Hinv _ _ Hb) as (Hbal & Hbr & Hbi). rewrite Hnf, (proj2 (Z.eqb_neq _ _)) by lia.
    unfold kret. destruct (heap_take_spec size s B H b F i fl l Hs Hok Hb) as (s' & F' & Ht & Hok' & Hst & Hen & Hoth).
    rewrite Ht. cbn [fst snd]. eexists _, s', _, H, F', l. split_and!; [done|done| | |right].
    + split; [done| |done|done|].
      * intros x Hx. left. destruct (decide (x = b)) as [->|]; [by rewrite Hb|]. by rewrite lookup_insert_ne in Hx.
      * intros a Ha. destruct (Ha b) as [|]; [by rewrite lookup_insert_eq|..]; apply Hoth; lia.
    + intros p a Hp Ha. apply Hoth. by eapply Hslots.
    + exists b, i. pose proof (bi_range _ _ _ _ Hbi i ltac:(by left)).
      split_and!; [done|lia|lia|by rewrite lookup_insert_eq| |].
      * eapply slot_unused_free; [done|done|exact Hb|by left].
      * intros p. by eapply slot_used_take.
Qed.

Lemma slot_used_give size m a B H F b i fl p :
  slab_size size -> heap_inv size m a B H F -> B !! b = Some fl -> 0 <= i < capacity size -> i ∉ fl ->
  slot_used size (<[b := i :: fl]> B) p <-> slot_used size B p /\ p <> slot_addr size b i.
Proof.
  intros Hs Hinv Hb Hi Hni. destruct (hi_block _ _ _ _ _ _ Hinv _ _ Hb) as (Hal & _). split.
  - intros (b' & fl' & j & [[<- <-]|[Hne Hb']]%lookup_insert_Some & Hj & Hnj & ->).
    + split; [exists b, fl, j; split_and!; [done|lia|lia|set_solver|done]|].
      intros He. apply (slot_addr_inj size b b j i) in He as [_ ->]; [set_solver|done..].
    + split; [by exists b', fl', j|]. intros He.
      destruct (hi_block _ _ _ _ _ _ Hinv _ _ Hb') as (Hal' & _).
      apply (slot_addr_inj size b' b j i) in He as [-> _]; done.
  - intros [(b' & fl' & j & Hb' & Hj & Hnj & ->) Hne].
    destruct (decide (b' = b)) as [->|Hbb].
    + exists b, (i :: fl), j. rewrite lookup_insert_eq. simplify_eq. split_and!; [done|lia|lia| |done].
      apply not_elem_of_cons. split; [|done]. intros ->. done.
    + exists b', fl', j. by rewrite lookup_insert_ne.
Qed.

Lemma heap_free_spec size s B H F l p :
  slab_size size -> heap_ok size s B H F l -> slot_used size B p ->
  exists s' B' F', heap_free size p s = Ret tt s' /\ heap_ok size s' B' H F' l /\
    heap_kept size s s' B B' l l /\
    (forall q a, slot_used size B q -> q <> p -> q <= a < q + size -> rd8 (hmem s') a = rd8 (hmem s) a) /\
    forall q, slot_used size B' q <-> slot_used size B q /\ q <> p.
Proof.
  intros Hs Hok (b & fl & i & Hb & Hi & Hni & ->). pose proof Hok as [Hinv Hpg Hap Hrg].
  pose proof Hinv as [H1 H2 H3 H4 H5 H6 H7]. destruct (H1 _ _ Hb) as (Hal & Hr & Hbi).
  unfold heap_free. rewrite slot_page by done.
  destruct (heap_block_free_spec size b (hmem s) i fl Hs Hbi Hi Hni) as (-> & m1 & -> & Hbi1 & Hoth1).
  pose proof (slot_bounds size b i Hs Hi) as Hsl. pose proof Hs as [Hs' _].
  set (m2 := if bool_decide (fl = []) then store64 m1 (b + 16) (next_free_block (ha s)) else m1).
  set (F' := if bool_decide (fl = []) then b :: F else F).
  assert (forall a, a < b + 2 \/ b + 8 <= a -> a < b + 16 \/ b + 24 <= a ->
    a < slot_addr size b i \/ slot_addr size b i + 4 <= a -> rd8 m2 a = rd8 (hmem s) a) as Hoth.
  { intros a Ha1 Ha2 Ha3. unfold m2. case_bool_decide; rewrite ?store_other, Hoth1 by lia; done. }
  assert (forall a, b <= a < b + 8 \/ b + 24 <= a -> rd8 m2 a = rd8 m1 a) as Hm2.
  { intros a Ha. unfold m2. case_bool_decide; [apply store_other; lia|done]. }
  assert (block_inv m2 size b (i :: fl)) as Hbi2.
  { destruct Hbi1 as [B1 B2 B3 B4 B5]. split; unfold blk_size, blk_used, blk_next_free_index in *; try done.
    - rewrite (load_agree 2 m1); [done|]. intros x Hx. apply Hm2. lia.
    - rewrite (load_agree 2 m1); [done|]. intros x Hx. apply Hm2. lia.
    - rewrite (load_agree 4 m1) by (intros x Hx; apply Hm2; lia). eapply idx_chain_agree; [|done].
      intros j Hj. apply load_agree. intros x Hx. apply Hm2.
      pose proof (slot_bounds size b j Hs (B5 j Hj)). lia. }
  assert (forall x, x ∈ F -> load64 m2 (x + 16) = load64 (hmem s) (x + 16)) as Hl16.
  { intros x Hx. unfold m2. assert (x = b -> fl <> []) as Hxb.
    { intros ->. apply H7 in Hx as (j & fx & Hx). congruence. }
    apply H7 in Hx as (j & fx & Hx). destruct (H1 _ _ Hx) as (Hxal & _).
    case_bool_decide as Hfl; rewrite ?load64_store64_ne by (assert (x <> b) by naive_solver; zlia).
    all: apply load_agree; intros a Ha; apply Hoth1; destruct (decide (x = b)) as [->|]; zlia. }
  assert (0 <= next_free_block (ha s) < 2 ^ 64) as Hnf.
  { destruct F as [|x F]; cbn [link_chain] in H5; [lia|]. destruct H5 as [-> _].
    destruct (proj1 (H7 x)) as (j & fx & Hx); [by left|]. destruct (H1 _ _ Hx) as (_ & ? & _). lia. }
  exists (HState (set_ram (fun _ => m2) (hm s)) (HeapAllocator (head_block (ha s))
    (if bool_decide (fl = []) then b else next_free_block (ha s)) (allocated (ha s)) (u64 (used (ha s) - size)))),
    (<[b := i :: fl]> B), F'.
  assert (is_Some (B !! b)) as Hsome by (by rewrite Hb).
  assert (forall x, is_Some (<[b := i :: fl]> B !! x) -> is_Some (B !! x)) as Hdom.
  { intros x Hx. destruct (decide (x = b)) as [->|]; [done|]. by rewrite lookup_insert_ne in Hx. }
  split_and!.
  - unfold m2. by case_bool_decide.
  - split; [|eapply pages_inv_block_write; [done|]|intros x Hx; by apply Hap, Hdom|intros x Hx; by apply Hrg, Hdom].
    + unfold hmem. cbn [hm ha set_ram ram].
      eapply (heap_inv_update size (hmem s)); [done|exact Hinv|exact Hb|done| | |done| | |].
      * intros x Hx. apply Hoth; lia.
      * apply load_agree. intros a Ha. apply Hoth; lia.
      * cbn [next_free_block]. unfold F'. case_bool_decide as Hfl.
        -- cbn [link_chain]. split; [done|].
           assert (load64 m2 (b + 16) = next_free_block (ha s)) as ->; [|by eapply link_chain_agree].
           unfold m2. by apply load64_store64_eq.
        -- by eapply link_chain_agree.
      * unfold F'. case_bool_decide; [|done]. constructor; [|done]. rewrite H7. intros (? & ? & ?). simplify_eq.
      * intros x. unfold F'. clear -H7 Hb. case_decide as Hd; case_bool_decide as Hfl; rewrite ?elem_of_cons.
        -- split; [done|by left].
        -- subst x. split; [done|]. intros _. apply H7. destruct fl; [done|eauto].
        -- split; [intros [?|?]; done|by right].
        -- done.
    + intros a Ha. apply Hoth; destruct (Ha b Hsome); lia.
  - split; [done|intros; left; by apply Hdom|done|done|]. intros a Ha.
    apply Hoth; destruct (Ha b); rewrite ?lookup_insert_eq; eauto; lia.
  - intros q a (b' & fl' & j & Hb' & Hj & _ & ->) Hne Ha. destruct (H1 _ _ Hb') as (Hal' & _).
    pose proof (slot_bounds size b' j Hs Hj). unfold hmem. cbn [hm set_ram ram].
    destruct (decide (b' = b)) as [->|].
    + apply Hoth; [lia|lia|]. destruct (slot_disjoint size b i j Hs); [congruence|lia..].
    + apply Hoth; zlia.
  - intros q. by eapply slot_used_give.
Qed.
