(* ===== verification/Heap.v ===== *)
(** * [operator new] and [operator delete]

    The eight slab allocators together, over one page allocator: an
    allocation of up to 1024 bytes is served by the least slab it fits in, and
    along every sequence of allocations, frees and writes by the holders the
    live allocations do not overlap.  This holds up to the first allocation that
    finds no memory: [default_alloc] then runs [truncate], whose effect on the
    free-block list is shown at the end. *)
From S2P Require Import Prelude Memory CString Riscv PageAlloc Vmem Scenario HeapAlloc HeapInv.

(** ** The invariant *)

(** The slot of class [c] at [p] is in use; [BB] gives the blocks of each
    class. *)
Definition kslot_used (BB : Z -> gmap Z (list Z)) (c p : Z) : Prop :=
  c ∈ heap_classes /\ slot_used c (BB c) p.

Record kheap_ok (s : kheap) (BB : Z -> gmap Z (list Z)) (l : list Z) : Prop := {
  ko_heap : forall c, c ∈ heap_classes ->
    exists H F, heap_ok c (HState (km s) (heap_of s c)) (BB c) H F l;
  ko_disj : forall c c' b, c ∈ heap_classes -> c' ∈ heap_classes -> c <> c' ->
    is_Some (BB c !! b) -> BB c' !! b = None;
  ko_low : pa_end (pages (km s)) <= VMEM_START
}.

Lemma class_slab c : c ∈ heap_classes -> slab_size c /\ 4096 mod c = 0.
Proof. intros Hc. apply list_elem_of_In in Hc. simpl in Hc. destruct_or! Hc; subst c; by vm_compute. Qed.

Lemma kslot_used_bounds s BB l c p :
  kheap_ok s BB l -> kslot_used BB c p ->
  exists b fl, BB c !! b = Some fl /\ b mod 4096 = 0 /\ b + 24 <= p /\ p + c <= b + 4096 /\ 0 < b.
Proof.
  intros Hok [Hc (b & fl & i & Hb & Hi & Hni & ->)]. destruct (ko_heap _ _ _ Hok c Hc) as (H & F & Hh).
  destruct (hi_block _ _ _ _ _ _ (ho_inv _ _ _ _ _ _ Hh) _ _ Hb) as (Hal & Hr & _).
  destruct (class_slab c Hc) as [Hs _]. pose proof (slot_bounds c b i Hs Hi).
  exists b, fl. split_and!; [done|done|lia..].
Qed.

(** Two slots in use do not overlap. *)
Lemma kslots_disjoint s BB l c c' p q :
  kheap_ok s BB l -> kslot_used BB c p -> kslot_used BB c' q -> p <> q ->
  p + c <= q \/ q + c' <= p.
Proof.
  intros Hok Hp Hq Hne.
  destruct (kslot_used_bounds _ _ _ _ _ Hok Hp) as (b & fl & Hb & Hal & Hp1 & Hp2 & _).
  destruct (kslot_used_bounds _ _ _ _ _ Hok Hq) as (b' & fl' & Hb' & Hal' & Hq1 & Hq2 & _).
  destruct (decide (b = b')) as [<-|Hbb].
  - destruct (decide (c = c')) as [<-|Hcc].
    + destruct Hp as [Hc (b1 & fl1 & i & Hb1 & Hi & _ & ->)], Hq as [_ (b2 & fl2 & j & Hb2 & Hj & _ & ->)].
      destruct (class_slab c Hc) as [Hs _]. destruct (ko_heap _ _ _ Hok c Hc) as (H & F & Hh).
      destruct (hi_block _ _ _ _ _ _ (ho_inv _ _ _ _ _ _ Hh) _ _ Hb1) as (Hal1 & _).
      destruct (hi_block _ _ _ _ _ _ (ho_inv _ _ _ _ _ _ Hh) _ _ Hb2) as (Hal2 & _).
      pose proof (slot_bounds c b1 i Hs Hi). pose proof (slot_bounds c b2 j Hs Hj).
      assert (b1 = b2) as <- by (destruct Hs; zlia). apply slot_disjoint; [done|congruence].
    + exfalso. pose proof (ko_disj _ _ _ Hok c c' b (proj1 Hp) (proj1 Hq) Hcc ltac:(by rewrite Hb)). congruence.
  - destruct (class_slab c (proj1 Hp)) as [[? _] _], (class_slab c' (proj1 Hq)) as [[? _] _]. zlia.
Qed.

(** An operation of one slab allocator keeps the others. *)
Lemma heap_ok_frame c s s' a B B' H F l l' :
  slab_size c -> heap_ok c (HState (hm s) a) B H F l -> pages_inv (hm s') l' ->
  l' `suffix_of` l ->
  pa_start (pages (hm s')) = pa_start (pages (hm s)) -> pa_end (pages (hm s')) = pa_end (pages (hm s)) ->
  (forall x, outside_blocks B' x -> rd8 (hmem s') x = rd8 (hmem s) x) ->
  (forall b, is_Some (B' !! b) -> b mod 4096 = 0 /\ B !! b = None) ->
  heap_ok c (HState (hm s') a) B H F l'.
Proof.
  intros Hs [Hinv Hpg Hap Hrg] Hpg' Hsuf Hst Hen Hout Hdis. split.
  - eapply heap_inv_agree; [done| |exact Hinv]. intros b [fl Hb] x Hx. unfold hmem in *. cbn [hm] in *.
    apply Hout. intros b' Hb'. destruct (Hdis b' Hb') as [Hal' Hnone].
    destruct (hi_block _ _ _ _ _ _ Hinv _ _ Hb) as (Hal & _). assert (b <> b') by congruence. zlia.
  - done.
  - intros b Hb Hin. apply (Hap b Hb). by eapply elem_of_suffix.
  - intros b Hb. eapply page_ok_ext; [done..|]. by apply Hrg.
Qed.

Definition upd_class (BB : Z -> gmap Z (list Z)) (c : Z) (B : gmap Z (list Z)) : Z -> gmap Z (list Z) :=
  fun c' => if decide (c' = c) then B else BB c'.

(** Lifting an operation of the slab allocator of class [c]. *)
Lemma kheap_lift {A} c (k : K hstate A) s BB l a h' B' H' F' l' :
  kheap_ok s BB l -> c ∈ heap_classes ->
  k (HState (km s) (heap_of s c)) = Ret a h' -> heap_ok c h' B' H' F' l' ->
  heap_kept c (HState (km s) (heap_of s c)) h' (BB c) B' l l' ->
  exists s', on_heap c k s = Ret a s' /\ kheap_ok s' (upd_class BB c B') l' /\ km s' = hm h'.
Proof.
  intros Hok Hc Hrun Hh' [Hsuf Hblk Hst Hen Hoth]. unfold on_heap. rewrite Hrun. eexists. split; [done|].
  split; [|done]. cbn [hm] in *.
  assert (forall c' b, c' ∈ heap_classes -> c' <> c -> is_Some (B' !! b) -> BB c' !! b = None) as Hdis.
  { intros c' b Hc' Hne Hb. destruct (Hblk b Hb) as [Hb'|[Hin _]].
    - by apply (ko_disj _ _ _ Hok c c').
    - destruct (ko_heap _ _ _ Hok c' Hc') as (H & F & Hh).
      destruct (BB c' !! b) eqn:E; [|done]. exfalso.
      apply (ho_apart _ _ _ _ _ _ Hh b); [by rewrite E|done]. }
  assert (forall b, is_Some (B' !! b) -> b mod 4096 = 0) as Hal.
  { intros b [fl Hb]. by destruct (hi_block _ _ _ _ _ _ (ho_inv _ _ _ _ _ _ Hh') _ _ Hb). }
  split; cbn [km heaps pages].
  - intros c' Hc'. unfold heap_of, upd_class. cbn [heaps]. case_decide as Hd.
    + subst c'. rewrite lookup_insert_eq. exists H', F'. by destruct h'.
    + rewrite lookup_insert_ne by done. destruct (ko_heap _ _ _ Hok c' Hc') as (H & F & Hh). exists H, F.
      eapply (heap_ok_frame c' (HState (km s) (heap_of s c)) h'); [by apply class_slab|exact Hh|apply Hh'|done|done|done|exact Hoth|].
      intros b Hb. split; [by apply Hal|by apply Hdis].
  - intros c1 c2 b Hc1 Hc2 Hne. unfold upd_class. repeat case_decide; subst; try done.
    + intros Hb. by apply Hdis.
    + intros Hb. destruct (B' !! b) eqn:E; [|done].
      pose proof (Hdis c1 b Hc1 Hne ltac:(by rewrite E)) as Hn. rewrite Hn in Hb. by destruct Hb.
    + by apply (ko_disj _ _ _ Hok).
  - rewrite Hen. apply (ko_low _ _ _ Hok).
Qed.

(** ** Allocation and deletion *)

Lemma kslot_used_upd BB c B' p c' :
  kslot_used (upd_class BB c B') c' p <->
  c' ∈ heap_classes /\ if decide (c' = c) then slot_used c B' p else slot_used c' (BB c') p.
Proof. unfold kslot_used, upd_class. case_decide; subst; done. Qed.

(** The bytes of slots of other classes are outside the blocks of [c]. *)
Lemma other_class_outside s BB l B' c' q a :
  kheap_ok s BB l -> (forall b, is_Some (B' !! b) -> b mod 4096 = 0 /\ BB c' !! b = None) ->
  kslot_used BB c' q -> q <= a < q + c' -> outside_blocks B' a.
Proof.
  intros Hok Hdis Hq Ha b Hb. destruct (Hdis b Hb) as [Hal Hn].
  destruct (kslot_used_bounds _ _ _ _ _ Hok Hq) as (b' & fl & Hb' & Hal' & H1 & H2 & _).
  assert (b <> b') by congruence. zlia.
Qed.

Lemma alloc_spec fuel s BB l n :
  kheap_ok s BB l -> 1 <= n <= 1024 ->
  exists r s' BB' l', __alloc fuel n s = Ret r s' /\ kheap_ok s' BB' l' /\
    (forall c p a, kslot_used BB c p -> p <= a < p + c -> rd8 (ram (km s')) a = rd8 (ram (km s)) a) /\
    ((r = 0 /\ l = [] /\ forall c p, kslot_used BB' c p <-> kslot_used BB c p) \/
     (exists c, r <> 0 /\ n <= c /\ r mod c = 0 /\ kslot_used BB' c r /\ (forall c', ~ kslot_used BB c' r) /\
      forall c' p, kslot_used BB' c' p <-> (c' = c /\ p = r) \/ kslot_used BB c' p)).
Proof.
  intros Hok Hn.
  destruct (size_class_bounds n Hn) as (c & Hcl & Hc & Hle). destruct (class_slab c Hc) as [Hs Hdiv].
  unfold __alloc. rewrite (proj2 (Z.ltb_ge _ _)), Hcl by lia.
  destruct (ko_heap _ _ _ Hok c Hc) as (H & F & Hh).
  destruct (heap_alloc_spec c _ _ _ _ _ Hs Hh) as (r & h' & B' & H' & F' & l' & Hrun & Hok' & Hkept & Hbytes & Hres).
  destruct (kheap_lift c _ s BB l r h' B' H' F' l' Hok Hc Hrun Hok' Hkept) as (s' & Hlift & Hkok & Hkm).
  exists r, s', (upd_class BB c B'), l'. split_and!; [done|done| |].
  - intros c' p a Hp Ha. rewrite Hkm. destruct (decide (c' = c)) as [->|Hne].
    + apply (Hbytes p a); [apply Hp|done].
    + apply (hk_other _ _ _ _ _ _ _ Hkept). eapply (other_class_outside s BB l B' c' p a); try done.
      intros b Hb. split.
      * destruct Hb as [fl Hb]. by destruct (hi_block _ _ _ _ _ _ (ho_inv _ _ _ _ _ _ Hok') _ _ Hb).
      * pose proof (ko_disj _ _ _ Hkok c c' b Hc (proj1 Hp) ltac:(done)) as Hd. unfold upd_class in Hd.
        rewrite decide_True in Hd by done. rewrite decide_False in Hd by done. by apply Hd.
  - destruct Hres as [(-> & _ & -> & _ & ->)|(b & i & -> & Hi & Hb & Hnew & Hused)].
    + left. split_and!; [done..|]. intros c' p. rewrite kslot_used_upd. unfold kslot_used. by case_decide; subst.
    + right. exists c. destruct Hb as [fl Hb].
      destruct (hi_block _ _ _ _ _ _ (ho_inv _ _ _ _ _ _ Hok') _ _ Hb) as (Hal & Hr & _).
      pose proof (slot_bounds c b i Hs Hi).
      assert (forall c' p, kslot_used (upd_class BB c B') c' p <->
        (c' = c /\ p = slot_addr c b i) \/ kslot_used BB c' p) as Hiff.
      { intros c' p. rewrite kslot_used_upd. unfold kslot_used. case_decide; subst; rewrite ?Hused; naive_solver. }
      split_and!; [lia|done| |apply Hiff; by left| |done].
      * unfold slot_addr. destruct (slab_layout c Hs) as (_ & Him & _).
        apply Z.mod_divide in Hdiv; [|destruct Hs; lia]. destruct Hdiv as [k Hk].
        rewrite Z.add_mod, Z.mod_mul, Z.add_0_r, Z.mod_mod, Z.add_mod, Him, Z.add_0_r, Z.mod_mod
          by (destruct Hs; lia).
        apply Z.mod_divide; [destruct Hs; lia|]. exists (b / 4096 * k). rewrite <- Z.mul_assoc, <- Hk. zlia.
      * intros c' Hu. destruct (decide (c' = c)) as [->|Hne]; [by apply Hnew, Hu|].
        assert (kslot_used (upd_class BB c B') c' (slot_addr c b i)) as Hu1 by (apply Hiff; by right).
        destruct (kslot_used_bounds _ _ _ _ _ Hkok Hu1) as (b' & fl' & Hb' & Hal' & ? & ? & _).
        destruct (class_slab c' (proj1 Hu)) as [[? _] _].
        assert (b' = b) as -> by (destruct Hs; zlia). unfold upd_class in Hb'. rewrite decide_False in Hb' by done.
        pose proof (ko_disj _ _ _ Hkok c' c b (proj1 Hu) Hc Hne) as Hd. unfold upd_class in Hd.
        rewrite decide_False, decide_True in Hd by done. rewrite Hd in Hb; [done|]. by rewrite Hb'.
Qed.

Lemma delete_dispatch fuel s c p :
  c ∈ heap_classes -> p < VMEM_START -> load16 (ram (km s)) (PGROUNDDOWN p) = c ->
  default_delete fuel p s = on_heap c (heap_free c p) s.
Proof.
  intros Hc Hp Hload. unfold default_delete. rewrite (proj2 (Z.leb_gt _ _)) by done.
  unfold kbind, kget. rewrite Hload. clear Hload. apply list_elem_of_In in Hc. simpl in Hc.
  by destruct_or! Hc; subst c.
Qed.

Lemma delete_spec fuel s BB l c p :
  kheap_ok s BB l -> kslot_used BB c p ->
  exists s' BB', default_delete fuel p s = Ret tt s' /\ kheap_ok s' BB' l /\
    (forall c' q a, kslot_used BB c' q -> q <> p -> q <= a < q + c' ->
      rd8 (ram (km s')) a = rd8 (ram (km s)) a) /\
    forall c' q, kslot_used BB' c' q <-> kslot_used BB c' q /\ q <> p.
Proof.
  intros Hok Hp. pose proof Hp as [Hc Hu]. destruct (class_slab c Hc) as [Hs _].
  destruct (ko_heap _ _ _ Hok c Hc) as (H & F & Hh).
  destruct (heap_free_spec c _ _ _ _ _ p Hs Hh Hu) as (h' & B' & F' & Hrun & Hok' & Hkept & Hbytes & Hused).
  destruct (kheap_lift c _ s BB l tt h' B' H F' l Hok Hc Hrun Hok' Hkept) as (s' & Hlift & Hkok & Hkm).
  exists s', (upd_class BB c B'). split_and!; [|done| |].
  - rewrite <- Hlift. apply delete_dispatch; [done| |].
    + destruct (kslot_used_bounds _ _ _ _ _ Hok Hp) as (b & fl & Hb & Hal & H1 & H2 & _).
      pose proof (ho_range _ _ _ _ _ _ Hh b ltac:(by rewrite Hb)) as [Hpm Hpe]. cbn [hm] in *.
      pose proof (ko_low _ _ _ Hok) as Hlow. destruct Hs as [Hs _].
      unfold PGSIZE, VMEM_START in *. destruct Hu as (b1 & fl1 & i & Hb1 & _).
      assert (pa_end (pages (km s)) <= 4294967296) by lia. zlia.
    + destruct Hu as (b & fl & i & Hb & Hi & _ & ->).
      destruct (hi_block _ _ _ _ _ _ (ho_inv _ _ _ _ _ _ Hh) _ _ Hb) as (Hal & _ & Hbi).
      rewrite slot_page by done. apply (bi_size _ _ _ _ Hbi).
  - intros c' q a Hq Hne Ha. rewrite Hkm. destruct (decide (c' = c)) as [->|Hcc].
    + apply (Hbytes q a); [apply Hq|done|done].
    + apply (hk_other _ _ _ _ _ _ _ Hkept). eapply (other_class_outside s BB l B' c' q a); try done.
      intros b Hb. destruct (hk_blocks _ _ _ _ _ _ _ Hkept b Hb) as [Hb'|[Hin Hni]]; [|done].
      split; [|by apply (ko_disj _ _ _ Hok c c'); [|apply Hq|done|]].
      destruct Hb' as [fl Hb']. by destruct (hi_block _ _ _ _ _ _ (ho_inv _ _ _ _ _ _ Hh) _ _ Hb').
  - intros c' q. rewrite kslot_used_upd. unfold kslot_used. case_decide as Hd; [subst; rewrite Hused; naive_solver|].
    split; [|naive_solver]. intros [Hc' Hq]. split; [done|]. intros ->.
    assert (kslot_used BB c' p) as Hp' by done.
    destruct (kslot_used_bounds _ _ _ _ _ Hok Hp) as (b & fl & Hb & Hal & H1 & H2 & _).
    destruct (kslot_used_bounds _ _ _ _ _ Hok Hp') as (b' & fl' & Hb' & Hal' & H1' & H2' & _).
    destruct (class_slab c' Hc') as [[? _] _]. destruct Hs as [? _].
    assert (b' = b) as -> by zlia.
    pose proof (ko_disj _ _ _ Hok c c' b Hc Hc' ltac:(done) ltac:(by rewrite Hb)). congruence.
Qed.

(** A write inside a slot in use keeps every slab allocator. *)
Definition write_km (s : kheap) (a v : Z) : kheap :=
  KHeap (set_ram (fun m => wr8 m a v) (km s)) (heaps s) (vmem_top s) (kernel_pagetable s).

Lemma block_inv_slot_write m c b fl i a v :
  slab_size c -> block_inv m c b fl -> 0 <= i < capacity c -> i ∉ fl ->
  slot_addr c b i <= a < slot_addr c b i + c -> block_inv (wr8 m a v) c b fl.
Proof.
  intros Hs [B1 B2 B3 B4 B5] Hi Hni Ha. pose proof (slot_bounds c b i Hs Hi). pose proof Hs as [Hs' _].
  assert (forall n x, x + Z.of_nat n <= a \/ a < x -> load n (wr8 m a v) x = load n m x) as Hl.
  { intros n x Hx. apply load_agree. intros y Hy. apply rd8_wr8_ne. lia. }
  split; unfold blk_size, blk_used, blk_next_free_index in *; try done; rewrite ?Hl by lia; try done.
  eapply idx_chain_agree; [|done]. intros j Hj. apply Hl.
  pose proof (slot_bounds c b j Hs (B5 j Hj)). destruct (slot_disjoint c b i j Hs); [congruence|lia..].
Qed.

Lemma write_spec s BB l c p a v :
  kheap_ok s BB l -> kslot_used BB c p -> p <= a < p + c -> kheap_ok (write_km s a v) BB l.
Proof.
  intros Hok Hp Ha. destruct (kslot_used_bounds _ _ _ _ _ Hok Hp) as (b & fl & Hb & Hal & Hp1 & Hp2 & _).
  destruct (class_slab c (proj1 Hp)) as [Hs _]. pose proof Hs as [Hs' _].
  assert (forall n x, x + Z.of_nat n <= a \/ a < x -> load n (wr8 (ram (km s)) a v) x = load n (ram (km s)) x) as Hl.
  { intros n x Hx. apply load_agree. intros y Hy. apply rd8_wr8_ne. lia. }
  split; [|apply (ko_disj _ _ _ Hok)|apply (ko_low _ _ _ Hok)].
  intros c' Hc'. destruct (ko_heap _ _ _ Hok c' Hc') as (H & F & Hh). exists H, F.
  destruct (class_slab c' Hc') as [Hsc' _].
  pose proof Hh as [[I1 I2 I3 I4 I5 I6 I7] Hpg Hap Hrg]. split; [split| |done|done]; try done.
  - intros x fx Hx. destruct (I1 x fx Hx) as (Hxal & Hxr & Hbi). split_and!; [done|lia|lia|].
    unfold hmem. cbn [hm km set_ram ram write_km].
    destruct (decide (x = b)) as [->|Hne].
    + assert (c' = c) as ->.
      { destruct (decide (c = c')) as [|Hcc]; [done|]. exfalso.
        pose proof (ko_disj _ _ _ Hok c c' b (proj1 Hp) Hc' Hcc ltac:(by rewrite Hb)). congruence. }
      destruct Hp as [_ (b1 & fl1 & i & Hb1 & Hi & Hni & ->)].
      destruct (I1 _ _ Hb1) as (Hal1 & _). pose proof (slot_bounds c b1 i Hs Hi).
      assert (b1 = b) as -> by zlia. simplify_eq. by eapply block_inv_slot_write.
    + eapply block_inv_agree; [done| |exact Hbi]. intros y Hy. apply rd8_wr8_ne. zlia.
  - unfold hmem. cbn [hm km set_ram ram write_km ha]. eapply link_chain_agree; [|exact I2].
    intros x Hx. apply I4 in Hx as [fx Hx]. destruct (I1 _ _ Hx) as (Hxal & _). apply Hl. zlia.
  - unfold hmem. cbn [hm km set_ram ram write_km ha]. eapply link_chain_agree; [|exact I5].
    intros x Hx. apply I7 in Hx as (j & fx & Hx). destruct (I1 _ _ Hx) as (Hxal & _). apply Hl. zlia.
  - apply pages_inv_client_write; [done|]. intros x Hx. apply Hl.
    destruct (pages_inv_free_pages _ _ _ Hpg Hx) as [[Hxal _] _]. unfold PGSIZE in Hxal.
    destruct (ko_heap _ _ _ Hok c (proj1 Hp)) as (H1 & F1 & Hh1).
    assert (x <> b). { intros ->. apply (ho_apart _ _ _ _ _ _ Hh1 b); [by rewrite Hb|done]. } zlia.
Qed.

(** ** What clients see *)

(** The first try of [default_alloc] finds no memory. *)
Definition out_of_memory (n : Z) (s : kheap) : bool :=
  match __alloc 0 n s with Ret r _ => r =? 0 | _ => false end.

(** Clients request up to 1024 bytes, delete what they hold and write inside
    what they requested; [held] gives the requested size of each live
    pointer.  A request that finds no memory ends the sequence. *)
Inductive heap_step : kheap * gmap Z Z -> kheap * gmap Z Z -> Prop :=
| heap_new n s s' held r :
    1 <= n <= 1024 -> out_of_memory n s = false -> default_alloc 0 n s = Ret r s' ->
    heap_step (s, held) (s', <[r := n]> held)
| heap_delete s s' held p :
    is_Some (held !! p) -> default_delete 0 p s = Ret tt s' ->
    heap_step (s, held) (s', delete p held)
| heap_write s held p n a v :
    held !! p = Some n -> p <= a < p + n ->
    heap_step (s, held) (write_km s a v, held).

(** The live pointers are the slots in use, each at least as large as the
    request. *)
Definition heap_client_inv (sh : kheap * gmap Z Z) : Prop :=
  exists BB l, kheap_ok sh.1 BB l /\
    (forall p n, sh.2 !! p = Some n -> exists c, kslot_used BB c p /\ n <= c) /\
    (forall c p, kslot_used BB c p -> is_Some (sh.2 !! p)).

Lemma default_alloc_run n s r s' :
  __alloc 0 n s = Ret r s' -> r <> 0 -> out_of_memory n s = false /\ default_alloc 0 n s = Ret r s'.
Proof.
  intros Hrun Hr. unfold out_of_memory, default_alloc. rewrite (kbind_ret _ _ _ _ _ Hrun), Hrun.
  by rewrite (proj2 (Z.eqb_neq _ _) Hr).
Qed.

Lemma heap_step_inv sh sh' : heap_client_inv sh -> heap_step sh sh' -> heap_client_inv sh'.
Proof.
  intros (BB & l & Hok & Hheld & Hall) Hstep.
  destruct Hstep as [n s s' held r Hn Hoom Hrun|s s' held p Hp Hrun|s held p n a v Hp Ha];
    cbn [fst snd] in *.
  - destruct (alloc_spec 0 s BB l n Hok Hn) as (r' & s1 & BB' & l' & Hrun' & Hok' & _ & Hres).
    assert (r' <> 0) as Hr' by (unfold out_of_memory in Hoom; rewrite Hrun' in Hoom; lia).
    rewrite (proj2 (default_alloc_run n s r' s1 Hrun' Hr')) in Hrun. injection Hrun as -> ->.
    destruct Hres as [(-> & _)|(c & _ & Hle & _ & Hu & _ & Hiff)]; [done|]. exists BB', l'. cbn [fst snd].
    split_and!; [done| |].
    + intros p m [[<- <-]|[Hne Hp]]%lookup_insert_Some; [by exists c|].
      destruct (Hheld p m Hp) as (c' & Hc' & Hm). exists c'. split; [|done]. apply Hiff. by right.
    + intros c' p [[-> ->]|Hp]%Hiff; [by rewrite lookup_insert_eq|].
      destruct (decide (p = r)) as [->|]; [by rewrite lookup_insert_eq|].
      rewrite lookup_insert_ne by done. by apply (Hall c').
  - destruct Hp as [n Hp]. destruct (Hheld p n Hp) as (c & Hc & Hle).
    destruct (delete_spec 0 s BB l c p Hok Hc) as (s1 & BB' & Hrun' & Hok' & _ & Hiff).
    rewrite Hrun' in Hrun. injection Hrun as ->. exists BB', l. cbn [fst snd]. split_and!; [done| |].
    + intros q m [Hne Hq]%lookup_delete_Some. destruct (Hheld q m Hq) as (c' & Hc' & Hm).
      exists c'. split; [|done]. apply Hiff. done.
    + intros c' q [Hq Hne]%Hiff. rewrite lookup_delete_ne by done. by apply (Hall c').
  - destruct (Hheld p n Hp) as (c & Hc & Hle). exists BB, l. cbn [fst snd]. split_and!; [|done|done].
    eapply write_spec; [done|done|lia].
Qed.

Lemma heap_steps_inv sh sh' : heap_client_inv sh -> rtc heap_step sh sh' -> heap_client_inv sh'.
Proof. intros Hinv Hsteps. induction Hsteps; [done|]. eauto using heap_step_inv. Qed.

(** C14. Safety of [operator new] and [delete] for requests of up to 1024 bytes,
    along every sequence of allocations, deletions of live pointers and writes
    inside live allocations, up to the first allocation that finds no memory:
    live allocations do not overlap; deleting a live pointer never panics and
    leaves the bytes of all others alone; and the next allocation either finds no
    memory, with the page allocator empty, or returns fresh memory apart from every
    live allocation, whose bytes are kept. *)
Theorem heap_client_safe s0 s held :
  heap_client_inv (s0, ∅) -> rtc heap_step (s0, ∅) (s, held) ->
  (forall p n q m, held !! p = Some n -> held !! q = Some m -> p <> q -> p + n <= q \/ q + m <= p) /\
  (forall p, is_Some (held !! p) -> exists s', default_delete 0 p s = Ret tt s' /\
    forall q m a, held !! q = Some m -> q <> p -> q <= a < q + m ->
      rd8 (ram (km s')) a = rd8 (ram (km s)) a) /\
  (forall n, 1 <= n <= 1024 ->
    (out_of_memory n s = true /\ free_page_list (pages (km s)) = 0) \/
    (out_of_memory n s = false /\ exists r s', default_alloc 0 n s = Ret r s' /\ r <> 0 /\
      (forall q m, held !! q = Some m -> r + n <= q \/ q + m <= r) /\
      (forall q m a, held !! q = Some m -> q <= a < q + m -> rd8 (ram (km s')) a = rd8 (ram (km s)) a))).
Proof.
  intros Hinv0 Hsteps. destruct (heap_steps_inv _ _ Hinv0 Hsteps) as (BB & l & Hok & Hheld & Hall).
  cbn [fst snd] in *. split_and!.
  - intros p n q m Hp Hq Hne. destruct (Hheld _ _ Hp) as (c & Hc & Hn), (Hheld _ _ Hq) as (c' & Hc' & Hm).
    destruct (kslots_disjoint _ _ _ _ _ _ _ Hok Hc Hc' Hne); lia.
  - intros p [n Hp]. destruct (Hheld _ _ Hp) as (c & Hc & _).
    destruct (delete_spec 0 s BB l c p Hok Hc) as (s' & BB' & Hrun & _ & Hbytes & _).
    exists s'. split; [done|]. intros q m a Hq Hne Ha. destruct (Hheld _ _ Hq) as (c' & Hc' & Hm).
    apply (Hbytes c' q a); [done|done|lia].
  - intros n Hn. destruct (alloc_spec 0 s BB l n Hok Hn) as (r & s' & BB' & l' & Hrun & Hok' & Hbytes & Hres).
    destruct Hres as [(-> & -> & _)|(c & Hr & Hle & _ & Hu & Hnew & Hiff)].
    + left. split; [unfold out_of_memory; by rewrite Hrun|]. destruct (ko_heap _ _ _ Hok 8) as (H & F & Hh); [by left|].
      apply (pi_list _ _ (ho_pages _ _ _ _ _ _ Hh)).
    + right. destruct (default_alloc_run n s r s' Hrun Hr) as [Ho Hd]. split; [done|]. exists r, s'.
      split_and!; [done|done| |].
      * intros q m Hq. destruct (Hheld _ _ Hq) as (c' & Hc' & Hm).
        assert (r <> q) as Hne by (intros ->; by apply (Hnew c')).
        destruct (kslots_disjoint _ _ _ _ _ _ _ Hok' Hu (proj2 (Hiff c' q) (or_intror Hc')) Hne); lia.
      * intros q m a Hq Ha. destruct (Hheld _ _ Hq) as (c' & Hc' & Hm). apply (Hbytes c' q a); [done|lia].
Qed.

(** ** The start of the kernel *)

Definition kheap_start (m : machine) (pt : Z) : kheap := KHeap m ∅ VMEM_START pt.

Lemma heap_ok_new c m l : pages_inv m l -> heap_ok c (HState m heap_allocator_new) ∅ [] [] l.
Proof.
  intros Hpg. split; [|done|by intros b [? ?]|by intros b [? ?]].
  split; [done|done|constructor| |done|constructor|].
  - intros b. rewrite elem_of_nil, lookup_empty. by split; intros [].
  - intros b. rewrite elem_of_nil, lookup_empty. split; [done|]. by intros (? & ? & ?).
Qed.

(** The invariant holds before the first allocation. *)
Lemma heap_start_inv m pt l :
  pages_inv m l -> pa_end (pages m) <= VMEM_START -> heap_client_inv (kheap_start m pt, ∅).
Proof.
  intros Hpg Hlow. exists (fun _ => ∅), l. cbn [fst snd]. split_and!.
  - split; [|by intros c c' b _ _ _ [? ?]|done]. intros c Hc. exists [], []. by apply heap_ok_new.
  - intros p n Hp. by rewrite lookup_empty in Hp.
  - by intros c p [_ (b & fl & i & Hb & _)].
Qed.

Lemma heap_client_safe_witness :
  exists s, rtc heap_step (kheap_start demo 0, ∅) (s, {[0x5018 := 5]}) /\
    (exists s', default_delete 0 0x5018 s = Ret tt s') /\
    exists r s', default_alloc 0 100 s = Ret r s' /\ (r + 100 <= 0x5018 \/ 0x5018 + 5 <= r).
Proof.
  destruct (ret_val_run (default_alloc 0 5 (kheap_start demo 0)) 0x5018) as (s & Hrun); [by vm_compute|].
  assert (rtc heap_step (kheap_start demo 0, ∅) (s, {[0x5018 := 5]})) as Hs.
  { apply rtc_once, (heap_new 5); [lia|by vm_compute|exact Hrun]. }
  assert (free_page_list (pages (km s)) <> 0) as Hleft.
  { change s with (match (Ret (0x5018 : Z) s : outcome kheap Z) with Ret _ s => s | _ => s end). rewrite <- Hrun. by vm_compute. }
  clear Hrun. exists s. split; [exact Hs|].
  destruct (heap_client_safe (kheap_start demo 0) s {[0x5018 := 5]}) as (_ & Hdel & Hnew).
  - apply (heap_start_inv demo 0 demo_free); [apply demo_pages|by vm_compute].
  - exact Hs.
  - split.
    + destruct (Hdel 0x5018) as (s' & Hdrun & _); [by rewrite lookup_singleton_eq|]. by exists s'.
    + destruct (Hnew 100 (conj (Z.lt_le_incl 1 100 eq_refl) (Z.lt_le_incl 100 1024 eq_refl))) as [[_ Hno]|(_ & r & s' & Hr & _ & Hdis & _)];
        [exact (False_ind _ (Hleft Hno))|]. exists r, s'. split; [exact Hr|].
      apply Hdis. by rewrite lookup_singleton_eq.
Defined.

(** ** [truncate] leaves a dangling block *)

(** Allocate, delete, truncate; then someone takes a page and someone else
    allocates. *)
Definition truncate_reuse : K hstate (Z * Z * Z) :=
  p <- heap_alloc 8 ;;
  heap_free 8 p ;;;
  heap_truncate 2 ;;;
  page <- on_machine alloc_page ;;
  q <- heap_alloc 8 ;;
  kret (p, page, q).

(** [truncate] gives the page of an empty block back to the page allocator
    but leaves the block on the [next_free_block] chain.  After one allocation
    and its deletion, [truncate], and a page allocation, the next allocation
    hands out a slot of the page that someone else now owns. *)
Theorem truncate_dangling :
  exists p page q s',
    truncate_reuse (HState demo heap_allocator_new) = Ret (p, page, q) s' /\ page <= q < page + PGSIZE.
Proof.
  destruct (ret_val_run (truncate_reuse (HState demo heap_allocator_new)) (0x5018, 0x5000, 0x5018))
    as [s' Hrun]; [vm_compute; reflexivity|].
  exists 0x5018, 0x5000, 0x5018, s'. split; [exact Hrun|]. clear Hrun. by vm_compute.
Qed.
