(* ===== verification/LinkedList.v ===== *)
(** * The kernel's linked list (src/os/utils/list.h)

    A doubly linked list with two sentinel nodes and a small cache of removed
    nodes.  Nodes live in a store indexed by address; [new node] takes an
    unused address and fails ([nullptr]) when the heap is exhausted, which the
    store's [budget] of nodes stands for.  The file translates the operations
    pointer update by pointer update and proves that they implement the
    sequence operations they are named after. *)
From S2P Require Import Prelude.

Section list.
Context {A : Type} `{Inhabited A}.

(** ** Definitions *)

Record node := Node { data : A; next : Z; prev : Z }.

(** The nodes that are allocated, and how many more the heap can give. *)
Record store := Store { nodes : gmap Z node; budget : nat }.

(** The members of a list object. *)
Record dlist := DList { head : Z; tail : Z; _size : Z; node_cache : list Z }.

#[local] Instance node_inhabited : Inhabited node := populate (Node inhabitant 0 0).

Abbreviation L := (K (store * dlist)).

Definition get_node (m : gmap Z node) (p : Z) : node := default inhabitant (m !! p).

Definition set_next (p v : Z) (m : gmap Z node) : gmap Z node :=
  alter (fun n => Node (data n) v (prev n)) p m.
Definition set_prev (p v : Z) (m : gmap Z node) : gmap Z node :=
  alter (fun n => Node (data n) (next n) v) p m.
Definition set_data (p : Z) (x : A) (m : gmap Z node) : gmap Z node :=
  alter (fun n => Node x (next n) (prev n)) p m.

Definition upd_nodes (f : gmap Z node -> gmap Z node) : L unit :=
  kmodify (fun '(st, l) => (Store (f (nodes st)) (budget st), l)).
Definition upd_list (f : dlist -> dlist) : L unit := kmodify (fun '(st, l) => (st, f l)).

Definition set_size (n : Z) (l : dlist) : dlist := DList (head l) (tail l) n (node_cache l).
Definition set_cache (c : list Z) (l : dlist) : dlist := DList (head l) (tail l) (_size l) c.

(** [new node] and [delete]: a fresh non-null address, 0 when the heap is
    exhausted. *)
Definition fresh_addr (m : gmap Z node) : Z := fresh ({[0]} ∪ dom m : gset Z).

Definition new_node : L Z := fun '(st, l) =>
  match budget st with
  | O => Ret 0 (st, l)
  | S b =>
      let p := fresh_addr (nodes st) in
      Ret p (Store (<[p := inhabitant]> (nodes st)) b, l)
  end.

Definition delete_node (p : Z) : L unit :=
  kmodify (fun '(st, l) => (Store (delete p (nodes st)) (S (budget st)), l)).

(** The cache array is a stack: [node_cache[--node_cache_size]] is its last
    element. *)
Definition alloc_node : L Z :=
  '(st, l) <- kget ;;
  match last (node_cache l) with
  | Some p =>
      upd_list (set_cache (take (length (node_cache l) - 1) (node_cache l))) ;;; kret p
  | None => new_node
  end.

Definition free_node (p : Z) : L unit :=
  '(st, l) <- kget ;;
  if bool_decide (length (node_cache l) < 8)%nat
  then upd_list (set_cache (node_cache l ++ [p]))
  else delete_node p.

(** The constructor. *)
Definition list_init : L unit :=
  h <- new_node ;;
  t <- new_node ;;
  upd_nodes (set_next h t) ;;;
  upd_nodes (set_prev t h) ;;;
  upd_list (fun _ => DList h t 0 []).

Definition nx (p : Z) : L Z := '(st, l) <- kget ;; kret (next (get_node (nodes st) p)).
Definition pv (p : Z) : L Z := '(st, l) <- kget ;; kret (prev (get_node (nodes st) p)).
Definition bump (d : Z) : L unit := upd_list (fun l => set_size (_size l + d) l).

Definition push_back_node : L Z :=
  new_node <- alloc_node ;;
  if new_node =? 0 then kret 0
  else
    '(st, l) <- kget ;;
    tp <- pv (tail l) ;;
    upd_nodes (set_next new_node (tail l)) ;;;
    upd_nodes (set_prev new_node tp) ;;;
    upd_nodes (set_next tp new_node) ;;;
    upd_nodes (set_prev (tail l) new_node) ;;;
    bump 1 ;;;
    kret new_node.

Definition push_front_node : L Z :=
  new_node <- alloc_node ;;
  if new_node =? 0 then kret 0
  else
    '(st, l) <- kget ;;
    hn <- nx (head l) ;;
    upd_nodes (set_next new_node hn) ;;;
    upd_nodes (set_prev new_node (head l)) ;;;
    upd_nodes (set_prev hn new_node) ;;;
    upd_nodes (set_next (head l) new_node) ;;;
    bump 1 ;;;
    kret new_node.

(** The iterator that is returned is the node, 0 for [nullptr]. *)
Definition push_back (x : A) : L Z :=
  p <- push_back_node ;;
  (if p =? 0 then kret tt else upd_nodes (set_data p x)) ;;;
  kret p.

Definition push_front (x : A) : L Z :=
  p <- push_front_node ;;
  (if p =? 0 then kret tt else upd_nodes (set_data p x)) ;;;
  kret p.

Definition front : L A :=
  '(st, l) <- kget ;; p <- nx (head l) ;; kret (data (get_node (nodes st) p)).
Definition back : L A :=
  '(st, l) <- kget ;; p <- pv (tail l) ;; kret (data (get_node (nodes st) p)).

Definition remove_node (p : Z) : L unit :=
  a <- pv p ;;
  b <- nx p ;;
  upd_nodes (set_next a b) ;;;
  upd_nodes (set_prev b a) ;;;
  free_node p ;;;
  bump (-1).

Definition pop_front : L unit :=
  '(st, l) <- kget ;;
  p <- nx (head l) ;;
  if p =? tail l then kret tt else remove_node p.

Definition pop_back : L unit :=
  '(st, l) <- kget ;;
  p <- pv (tail l) ;;
  if p =? head l then kret tt else remove_node p.

Definition list_empty : L bool :=
  '(st, l) <- kget ;; p <- nx (head l) ;; kret (p =? tail l).

Definition erase (p : Z) : L unit :=
  '(st, l) <- kget ;;
  if (p =? head l) || (p =? tail l) then kpanic else remove_node p.

(** The source does not test the result of [alloc_node] here: a null node is
    written to, which traps. *)
Definition insert_after (p : Z) (x : A) : L unit :=
  '(st, l) <- kget ;;
  if p =? tail l then kpanic
  else
    new_node <- alloc_node ;;
    if new_node =? 0 then kpanic
    else
      b <- nx p ;;
      upd_nodes (set_data new_node x) ;;;
      upd_nodes (set_next new_node b) ;;;
      upd_nodes (set_prev new_node p) ;;;
      upd_nodes (set_prev b new_node) ;;;
      upd_nodes (set_next p new_node) ;;;
      bump 1.

Definition insert_before (p : Z) (x : A) : L unit :=
  '(st, l) <- kget ;;
  if p =? head l then kpanic
  else
    new_node <- alloc_node ;;
    if new_node =? 0 then kpanic
    else
      a <- pv p ;;
      upd_nodes (set_data new_node x) ;;;
      upd_nodes (set_next new_node p) ;;;
      upd_nodes (set_prev new_node a) ;;;
      upd_nodes (set_next a new_node) ;;;
      upd_nodes (set_prev p new_node) ;;;
      bump 1.

Definition move_to_front (p : Z) : L unit :=
  '(st, l) <- kget ;;
  if (p =? head l) || (p =? tail l) then kpanic
  else
    a <- pv p ;;
    if a =? head l then kret tt
    else
      b <- nx p ;;
      upd_nodes (set_next a b) ;;;
      upd_nodes (set_prev b a) ;;;
      hn <- nx (head l) ;;
      upd_nodes (set_next p hn) ;;;
      upd_nodes (set_prev p (head l)) ;;;
      upd_nodes (set_prev hn p) ;;;
      upd_nodes (set_next (head l) p).

(** The loop of [clear] over the nodes, then over the cache. *)
Fixpoint clear_loop (fuel : nat) (current : Z) : L unit :=
  match fuel with
  | O => kfuel
  | S fuel' =>
      '(st, l) <- kget ;;
      if current =? tail l then kret tt
      else
        nxt <- nx current ;;
        delete_node current ;;;
        clear_loop fuel' nxt
  end.

Fixpoint clear_cache (c : list Z) : L unit :=
  match c with
  | [] => kret tt
  | p :: c' => delete_node p ;;; clear_cache c'
  end.

Definition clear (fuel : nat) : L unit :=
  '(st, l) <- kget ;;
  p <- nx (head l) ;;
  clear_loop fuel p ;;;
  upd_list (set_size 0) ;;;
  upd_nodes (set_next (head l) (tail l)) ;;;
  upd_nodes (set_prev (tail l) (head l)) ;;;
  clear_cache (rev (node_cache l)) ;;;
  upd_list (set_cache []).

(** [merge(other)]: the other list object is passed and returned. *)
Definition merge_all (other : dlist) : L dlist :=
  '(st, l) <- kget ;;
  ofirst <- nx (head other) ;;
  if ofirst =? tail other then kret other
  else
    tp <- pv (tail l) ;;
    upd_nodes (set_next tp ofirst) ;;;
    upd_nodes (set_prev ofirst tp) ;;;
    ob <- pv (tail other) ;;
    upd_nodes (set_prev (tail l) ob) ;;;
    upd_nodes (set_next ob (tail l)) ;;;
    bump (_size other) ;;;
    upd_nodes (set_next (head other) (tail other)) ;;;
    upd_nodes (set_prev (tail other) (head other)) ;;;
    kret (set_size 0 other).

(** [merge(other, it)]: move one node of the other list to the back. *)
Definition merge_one (other : dlist) (p : Z) : L dlist :=
  if p =? tail other then kret other
  else
    a <- pv p ;;
    b <- nx p ;;
    upd_nodes (set_next a b) ;;;
    upd_nodes (set_prev b a) ;;;
    '(st, l) <- kget ;;
    tp <- pv (tail l) ;;
    upd_nodes (set_next tp p) ;;;
    tp <- pv (tail l) ;;
    upd_nodes (set_prev p tp) ;;;
    upd_nodes (set_prev (tail l) p) ;;;
    upd_nodes (set_next p (tail l)) ;;;
    bump 1 ;;;
    kret (set_size (_size other - 1) other).

(** ** The representation *)

(** Consecutive nodes of [l] point to each other. *)
Fixpoint linked (m : gmap Z node) (l : list Z) : Prop :=
  match l with
  | a :: (b :: _) as l' =>
      next (get_node m a) = b /\ prev (get_node m b) = a /\ linked m l'
  | _ => True
  end.

(** The list object [l] with the nodes [ids] between its sentinels holds the
    elements [xs]; the cached nodes are allocated and unused. *)
Record is_list (st : store) (l : dlist) (ids : list Z) (xs : list A) : Prop := {
  il_linked : linked (nodes st) (head l :: ids ++ [tail l]);
  il_nodup : NoDup (node_cache l ++ head l :: ids ++ [tail l]);
  il_nodes : forall p, p ∈ node_cache l ++ head l :: ids ++ [tail l] -> p <> 0 /\ is_Some (nodes st !! p);
  il_data : (fun p => data (get_node (nodes st) p)) <$> ids = xs;
  il_size : _size l = Z.of_nat (length ids);
  il_cache : (length (node_cache l) <= 8)%nat
}.

(** ** Pointer updates *)

Lemma get_node_alter f (p q : Z) (m : gmap Z node) :
  get_node (alter f p m) q = if decide (p = q) then (if decide (is_Some (m !! p)) then f (get_node m q) else get_node m q)
                             else get_node m q.
Proof.
  unfold get_node. case_decide as Hpq; [subst q|by rewrite lookup_alter_ne].
  rewrite lookup_alter_eq. destruct (m !! p) as [n|] eqn:E.
  - by rewrite decide_True.
  - rewrite decide_False by (by intros []). done.
Qed.

Lemma is_Some_alter (f : node -> node) (p q : Z) (m : gmap Z node) : is_Some (alter f p m !! q) <-> is_Some (m !! q).
Proof.
  destruct (decide (p = q)) as [->|]; [rewrite lookup_alter_eq|by rewrite lookup_alter_ne].
  apply fmap_is_Some.
Qed.

(** The fields of node [q] after an update of node [p]. *)
Lemma next_set_next p q v m : is_Some (m !! p) ->
  next (get_node (set_next p v m) q) = if decide (p = q) then v else next (get_node m q).
Proof. intros Hs. unfold set_next. rewrite get_node_alter. case_decide; [by rewrite decide_True|done]. Qed.
Lemma prev_set_next p q v m : prev (get_node (set_next p v m) q) = prev (get_node m q).
Proof. unfold set_next. rewrite get_node_alter. by repeat case_decide. Qed.
Lemma data_set_next p q v m : data (get_node (set_next p v m) q) = data (get_node m q).
Proof. unfold set_next. rewrite get_node_alter. by repeat case_decide. Qed.
Lemma next_set_prev p q v m : next (get_node (set_prev p v m) q) = next (get_node m q).
Proof. unfold set_prev. rewrite get_node_alter. by repeat case_decide. Qed.
Lemma prev_set_prev p q v m : is_Some (m !! p) ->
  prev (get_node (set_prev p v m) q) = if decide (p = q) then v else prev (get_node m q).
Proof. intros Hs. unfold set_prev. rewrite get_node_alter. case_decide; [by rewrite decide_True|done]. Qed.
Lemma data_set_prev p q v m : data (get_node (set_prev p v m) q) = data (get_node m q).
Proof. unfold set_prev. rewrite get_node_alter. by repeat case_decide. Qed.
Lemma next_set_data p q v m : next (get_node (set_data p v m) q) = next (get_node m q).
Proof. unfold set_data. rewrite get_node_alter. by repeat case_decide. Qed.
Lemma prev_set_data p q v m : prev (get_node (set_data p v m) q) = prev (get_node m q).
Proof. unfold set_data. rewrite get_node_alter. by repeat case_decide. Qed.
Lemma data_set_data p q v m : is_Some (m !! p) ->
  data (get_node (set_data p v m) q) = if decide (p = q) then v else data (get_node m q).
Proof. intros Hs. unfold set_data. rewrite get_node_alter. case_decide; [by rewrite decide_True|done]. Qed.

Lemma set_next_some p q v m : is_Some (set_next p v m !! q) <-> is_Some (m !! q).
Proof. apply is_Some_alter. Qed.
Lemma set_prev_some p q v m : is_Some (set_prev p v m !! q) <-> is_Some (m !! q).
Proof. apply is_Some_alter. Qed.
Lemma set_data_some p q v m : is_Some (set_data p v m !! q) <-> is_Some (m !! q).
Proof. apply is_Some_alter. Qed.

(** Updates keep nodes allocated. *)
Ltac somes :=
  intros; cbn [nodes];
  repeat first [rewrite set_data_some | rewrite set_prev_some | rewrite set_next_some]; done.

(** Fields of nodes after a sequence of updates to allocated nodes. *)
Ltac fields :=
  repeat first
    [ rewrite prev_set_next | rewrite data_set_next | rewrite next_set_prev | rewrite data_set_prev
    | rewrite next_set_data | rewrite prev_set_data
    | rewrite next_set_next by somes
    | rewrite prev_set_prev by somes
    | rewrite data_set_data by somes ].

(** ** Linked sequences *)

Lemma linked_app m l1 a l2 :
  linked m (l1 ++ a :: l2) <-> linked m (l1 ++ [a]) /\ linked m (a :: l2).
Proof.
  induction l1 as [|x l1 IH]; simpl; [by split; [|intros [_ ?]]|].
  destruct l1 as [|y l1]; simpl in *; [tauto|]. rewrite IH. tauto.
Qed.

(** Changes to the [next] of the last node, and to the [prev] of the first,
    do not matter. *)
Lemma linked_frame_l m m' l a :
  (forall q, q ∈ l -> next (get_node m' q) = next (get_node m q)) ->
  (forall q, q ∈ l ++ [a] -> prev (get_node m' q) = prev (get_node m q)) ->
  linked m (l ++ [a]) -> linked m' (l ++ [a]).
Proof.
  induction l as [|x l IH]; intros Hn Hp; [done|]. cbn [app].
  destruct l as [|y l]; cbn [app linked] in *; intros (H1 & H2 & H3).
  - split_and!; [rewrite Hn by set_solver; done|rewrite Hp by set_solver; done|done].
  - split_and!; [rewrite Hn by set_solver; done|rewrite Hp by set_solver; done|].
    apply IH; [|intros; apply Hp; set_solver|done]. intros; apply Hn. set_solver.
Qed.

Lemma linked_frame_r m m' b l :
  (forall q, q ∈ b :: l -> next (get_node m' q) = next (get_node m q)) ->
  (forall q, q ∈ l -> prev (get_node m' q) = prev (get_node m q)) ->
  linked m (b :: l) -> linked m' (b :: l).
Proof.
  revert b. induction l as [|x l IH]; intros b Hn Hp; [done|]. cbn [linked].
  intros (H1 & H2 & H3). split_and!; [rewrite Hn by set_solver; done|rewrite Hp by set_solver; done|].
  apply IH; [intros; apply Hn; set_solver|intros; apply Hp; set_solver|done].
Qed.

(** Linking [x] in between [a] and [b]. *)
Lemma linked_insert m m' l1 a x b l2 :
  linked m (l1 ++ a :: b :: l2) -> NoDup (l1 ++ a :: x :: b :: l2) ->
  (forall q, next (get_node m' q) =
     if decide (q = a) then x else if decide (q = x) then b else next (get_node m q)) ->
  (forall q, prev (get_node m' q) =
     if decide (q = b) then x else if decide (q = x) then a else prev (get_node m q)) ->
  linked m' (l1 ++ a :: x :: b :: l2).
Proof.
  intros Hl Hnd Hn Hp. apply linked_app in Hl as [Hl1 Hl2]. cbn [linked] in Hl2.
  destruct Hl2 as (_ & _ & Hl2). apply linked_app.
  apply NoDup_app in Hnd as (_ & Hd1 & Hnd). apply NoDup_cons in Hnd as [Ha Hnd].
  apply NoDup_cons in Hnd as [Hx Hnd]. apply NoDup_cons in Hnd as [Hb _]. split.
  - eapply linked_frame_l; [| |done]; intros q Hq.
    + specialize (Hd1 q Hq). rewrite Hn. rewrite !decide_False; [done|set_solver..].
    + assert (q <> b /\ q <> x) as [? ?].
      { apply elem_of_app in Hq as [Hq| ->%list_elem_of_singleton]; [specialize (Hd1 q Hq)|]; set_solver. }
      rewrite Hp, !decide_False by done. done.
  - cbn [linked]. split_and!.
    + by rewrite Hn, decide_True.
    + rewrite Hp, decide_False, decide_True; [done|done|set_solver].
    + rewrite Hn, decide_False, decide_True; [done|done|set_solver].
    + by rewrite Hp, decide_True.
    + eapply linked_frame_r; [| |done]; intros q Hq.
      * rewrite Hn, !decide_False; [done|set_solver..].
      * rewrite Hp, !decide_False; [done|set_solver..].
Qed.

(** Unlinking [x] between [a] and [b]. *)
Lemma linked_remove m m' l1 a x b l2 :
  linked m (l1 ++ a :: x :: b :: l2) -> NoDup (l1 ++ a :: x :: b :: l2) ->
  (forall q, q <> x -> next (get_node m' q) = if decide (q = a) then b else next (get_node m q)) ->
  (forall q, q <> x -> prev (get_node m' q) = if decide (q = b) then a else prev (get_node m q)) ->
  linked m' (l1 ++ a :: b :: l2).
Proof.
  intros Hl Hnd Hn Hp. apply linked_app in Hl as [Hl1 Hl2]. cbn [linked] in Hl2.
  destruct Hl2 as (_ & _ & _ & _ & Hl2). apply linked_app.
  apply NoDup_app in Hnd as (_ & Hd1 & Hnd). apply NoDup_cons in Hnd as [Ha Hnd].
  apply NoDup_cons in Hnd as [Hx Hnd]. apply NoDup_cons in Hnd as [Hb _]. split.
  - eapply linked_frame_l; [| |done]; intros q Hq.
    + specialize (Hd1 q Hq). rewrite Hn, decide_False; [done|set_solver..].
    + assert (q <> b /\ q <> x) as [? ?].
      { apply elem_of_app in Hq as [Hq| ->%list_elem_of_singleton]; [specialize (Hd1 q Hq)|]; set_solver. }
      rewrite Hp, decide_False by done. done.
  - cbn [linked]. split_and!.
    + rewrite Hn, decide_True; [done|done|set_solver].
    + rewrite Hp, decide_True; [done|done|set_solver].
    + eapply linked_frame_r; [| |done]; intros q Hq.
      * rewrite Hn, !decide_False; [done|set_solver..].
      * rewrite Hp, !decide_False; [done|set_solver..].
Qed.

(** ** Linking and unlinking a node of a list *)

Lemma last_split {X} (l : list X) a : last l = Some a -> exists l', l = l' ++ [a].
Proof. rewrite last_Some. eauto. Qed.

Lemma data_agree m m' (ids : list Z) :
  (forall q, q ∈ ids -> data (get_node m' q) = data (get_node m q)) ->
  (fun p => data (get_node m' p)) <$> ids = (fun p => data (get_node m p)) <$> ids.
Proof.
  induction ids as [|q ids IH]; intros Hag; [done|]. rewrite !fmap_cons. f_equal.
  - apply Hag. by left.
  - apply IH. intros. apply Hag. by right.
Qed.

Lemma is_list_insert st st' l l' ids1 ids2 xs1 xs2 p d a b :
  is_list st l (ids1 ++ ids2) (xs1 ++ xs2) -> length ids1 = length xs1 ->
  last (head l :: ids1) = Some a -> hd_error (ids2 ++ [tail l]) = Some b ->
  p <> 0 -> p ∉ node_cache l ++ head l :: (ids1 ++ ids2) ++ [tail l] ->
  head l' = head l -> tail l' = tail l -> node_cache l' = node_cache l -> _size l' = _size l + 1 ->
  is_Some (nodes st' !! p) -> (forall q, is_Some (nodes st !! q) -> is_Some (nodes st' !! q)) ->
  (forall q, next (get_node (nodes st') q) =
     if decide (q = a) then p else if decide (q = p) then b else next (get_node (nodes st) q)) ->
  (forall q, prev (get_node (nodes st') q) =
     if decide (q = b) then p else if decide (q = p) then a else prev (get_node (nodes st) q)) ->
  (forall q, data (get_node (nodes st') q) = if decide (q = p) then d else data (get_node (nodes st) q)) ->
  is_list st' l' (ids1 ++ p :: ids2) (xs1 ++ d :: xs2).
Proof.
  intros [Hl Hnd Hno Hda Hsz Hca] Hlen Ha Hb Hp0 Hp Hh Ht Hc Hs Hps Hsome Hn Hpr Hd.
  apply last_split in Ha as [l1 Hl1]. destruct (ids2 ++ [tail l]) as [|b' l2] eqn:Hl2; [done|].
  injection Hb as ->.
  assert (head l :: (ids1 ++ ids2) ++ [tail l] = l1 ++ a :: b :: l2) as Heq.
  { rewrite <- app_assoc, Hl2, app_comm_cons, Hl1, <- app_assoc. done. }
  assert (head l :: (ids1 ++ p :: ids2) ++ [tail l] = l1 ++ a :: p :: b :: l2) as Heq'.
  { rewrite <- app_assoc. cbn [app]. rewrite Hl2, app_comm_cons, Hl1, <- app_assoc. done. }
  rewrite Heq in *. apply NoDup_app in Hnd as (Hnc & Hdis & Hnd).
  assert (NoDup (l1 ++ a :: p :: b :: l2)) as Hnd'.
  { replace (l1 ++ a :: p :: b :: l2) with ((l1 ++ [a]) ++ p :: b :: l2) by (by rewrite <- app_assoc).
    rewrite <- Permutation_middle. rewrite <- app_assoc. cbn [app]. constructor; [set_solver|done]. }
  split; rewrite ?Hh, ?Ht, ?Hc, ?Heq'; try done.
  - by eapply linked_insert.
  - apply NoDup_app. split_and!; [done| |done]. intros q Hq Hin.
    destruct (decide (q = p)) as [->|]; [set_solver|]. apply (Hdis q Hq). set_solver.
  - intros q Hq. destruct (decide (q = p)) as [->|Hne]; [done|].
    destruct (Hno q) as [? ?]; [set_solver|]. split; [done|by apply Hsome].
  - rewrite fmap_app in Hda. apply app_inj_1 in Hda as [Hd1 Hd2]; [|by rewrite length_fmap].
    rewrite fmap_app, fmap_cons. f_equal; [|f_equal].
    + rewrite <- Hd1. apply data_agree. intros q Hq. rewrite Hd, decide_False; [done|].
      intros ->. apply Hp. rewrite <- Heq. set_solver.
    + by rewrite Hd, decide_True.
    + rewrite <- Hd2. apply data_agree. intros q Hq. rewrite Hd, decide_False; [done|].
      intros ->. apply Hp. rewrite <- Heq. set_solver.
  - rewrite Hs, Hsz, !length_app. cbn [length]. lia.
Qed.

(** Unlinking [p]; the node goes to the cache or is deleted. *)
Lemma is_list_remove st st' l l' ids1 ids2 xs1 x xs2 p a b :
  is_list st l (ids1 ++ p :: ids2) (xs1 ++ x :: xs2) -> length ids1 = length xs1 ->
  last (head l :: ids1) = Some a -> hd_error (ids2 ++ [tail l]) = Some b ->
  head l' = head l -> tail l' = tail l -> _size l' = _size l - 1 ->
  (node_cache l' = node_cache l \/ (node_cache l' = node_cache l ++ [p] /\ is_Some (nodes st' !! p))) ->
  (length (node_cache l') <= 8)%nat ->
  (forall q, q <> p -> is_Some (nodes st !! q) -> is_Some (nodes st' !! q)) ->
  (forall q, q <> p -> next (get_node (nodes st') q) = if decide (q = a) then b else next (get_node (nodes st) q)) ->
  (forall q, q <> p -> prev (get_node (nodes st') q) = if decide (q = b) then a else prev (get_node (nodes st) q)) ->
  (forall q, q <> p -> data (get_node (nodes st') q) = data (get_node (nodes st) q)) ->
  is_list st' l' (ids1 ++ ids2) (xs1 ++ xs2).
Proof.
  intros [Hl Hnd Hno Hda Hsz Hca] Hlen Ha Hb Hh Ht Hs Hc Hcl Hsome Hn Hpr Hd.
  apply last_split in Ha as [l1 Hl1]. destruct (ids2 ++ [tail l]) as [|b' l2] eqn:Hl2; [done|].
  injection Hb as ->.
  assert (head l :: (ids1 ++ ids2) ++ [tail l] = l1 ++ a :: b :: l2) as Heq.
  { rewrite <- app_assoc, Hl2, app_comm_cons, Hl1, <- app_assoc. done. }
  assert (head l :: (ids1 ++ p :: ids2) ++ [tail l] = l1 ++ a :: p :: b :: l2) as Heq'.
  { rewrite <- app_assoc. cbn [app]. rewrite Hl2, app_comm_cons, Hl1, <- app_assoc. done. }
  rewrite Heq' in *. apply NoDup_app in Hnd as (Hnc & Hdis & Hnd).
  pose proof Hnd as Hnd0.
  replace (l1 ++ a :: p :: b :: l2) with ((l1 ++ [a]) ++ p :: b :: l2) in Hnd0 by (by rewrite <- app_assoc).
  rewrite <- Permutation_middle, <- app_assoc in Hnd0. cbn [app] in Hnd0.
  apply NoDup_cons in Hnd0 as [Hpn Hnd'].
  split; rewrite ?Hh, ?Ht, ?Heq; try done.
  - by eapply linked_remove.
  - apply NoDup_app. split_and!; [|intros q Hq Hin|done].
    + destruct Hc as [-> |[-> _]]; [done|]. apply NoDup_app. split_and!; [done| |apply NoDup_singleton].
      intros q Hq ->%list_elem_of_singleton. apply (Hdis p Hq). set_solver.
    + assert (q <> p) by (intros ->; done).
      apply (Hdis q); [|set_solver]. destruct Hc as [Hc|[Hc _]]; rewrite Hc in Hq; set_solver.
  - intros q Hq. destruct (decide (q = p)) as [->|Hne].
    + destruct Hc as [Hc|[Hc Hps]]; rewrite Hc in Hq.
      * exfalso. apply elem_of_app in Hq as [Hq|Hq]; [|done]. apply (Hdis p Hq). set_solver.
      * split; [|done]. apply Hno. set_solver.
    + destruct (Hno q) as [? ?]; [|split; [done|by apply Hsome]].
      destruct Hc as [Hc|[Hc _]]; rewrite Hc in Hq; set_solver.
  - rewrite fmap_app, fmap_cons in Hda. apply app_inj_1 in Hda as [Hd1 Hd2]; [|by rewrite length_fmap].
    injection Hd2 as _ Hd2.
    assert (forall q, q ∈ ids1 ++ ids2 -> q <> p) as Hqp.
    { intros q Hq ->. apply Hpn. rewrite <- Heq. set_solver. }
    rewrite fmap_app. f_equal.
    + rewrite <- Hd1. apply data_agree. intros q Hq. apply Hd, Hqp. set_solver.
    + rewrite <- Hd2. apply data_agree. intros q Hq. apply Hd, Hqp. set_solver.
  - rewrite Hs, Hsz, !length_app. cbn [length]. lia.
Qed.

(** The two nodes around a position point to each other. *)
Lemma position_links st l ids1 ids2 xs a b :
  is_list st l (ids1 ++ ids2) xs ->
  last (head l :: ids1) = Some a -> hd_error (ids2 ++ [tail l]) = Some b ->
  next (get_node (nodes st) a) = b /\ prev (get_node (nodes st) b) = a.
Proof.
  intros [Hl _ _ _ _ _] Ha Hb. apply last_split in Ha as [l1 Hl1].
  destruct (ids2 ++ [tail l]) as [|b' l2] eqn:Hl2; [done|]. injection Hb as ->.
  rewrite <- app_assoc, Hl2, app_comm_cons, Hl1, <- app_assoc in Hl.
  apply linked_app in Hl as [_ Hl]. cbn [app linked] in Hl. tauto.
Qed.

Lemma list_member st l ids xs p :
  is_list st l ids xs -> p ∈ head l :: ids ++ [tail l] -> is_Some (nodes st !! p).
Proof. intros Hil Hp. apply (il_nodes _ _ _ _ Hil). set_solver. Qed.

Lemma position_members st l ids1 ids2 xs a b :
  is_list st l (ids1 ++ ids2) xs ->
  last (head l :: ids1) = Some a -> hd_error (ids2 ++ [tail l]) = Some b ->
  is_Some (nodes st !! a) /\ is_Some (nodes st !! b) /\ a <> tail l /\ b <> head l.
Proof.
  intros Hil Ha Hb. pose proof (il_nodup _ _ _ _ Hil) as Hnd.
  apply NoDup_app in Hnd as (_ & _ & Hnd). rewrite <- app_assoc, app_comm_cons in Hnd.
  apply NoDup_app in Hnd as (_ & Hdis & Hnd2).
  assert (a ∈ head l :: ids1) as Hai. { apply last_split in Ha as [l1 ->]. set_solver. }
  assert (b ∈ ids2 ++ [tail l]) as Hbi.
  { destruct (ids2 ++ [tail l]); [done|]. injection Hb as ->. by left. }
  split_and!.
  - eapply list_member; [done|]. set_solver.
  - eapply list_member; [done|]. set_solver.
  - intros ->. apply (Hdis _ Hai). set_solver.
  - intros ->. apply (Hdis (head l)); [set_solver|done].
Qed.

(** ** Allocation of nodes *)

Lemma is_list_extend st l ids xs p n :
  is_list st l ids xs -> nodes st !! p = None ->
  forall b, is_list (Store (<[p := n]> (nodes st)) b) l ids xs.
Proof.
  intros [Hl Hnd Hno Hda Hsz Hca] Hp b.
  assert (forall q, q ∈ node_cache l ++ head l :: ids ++ [tail l] ->
    get_node (<[p := n]> (nodes st)) q = get_node (nodes st) q) as Hg.
  { intros q Hq. destruct (Hno q Hq) as [_ [x Hx]]. unfold get_node.
    rewrite lookup_insert_ne by congruence. done. }
  split; cbn [nodes]; try done.
  - rewrite app_comm_cons in *. eapply linked_frame_l; [| |done]; intros q Hq; rewrite Hg; done || set_solver.
  - intros q Hq. destruct (Hno q Hq) as [? ?]. split; [done|].
    apply lookup_insert_is_Some'. by right.
  - rewrite <- Hda. apply data_agree. intros q Hq. rewrite Hg; [done|]. set_solver.
Qed.

Lemma alloc_node_spec st l ids xs :
  is_list st l ids xs -> (0 < budget st)%nat ->
  exists p st1 l1, alloc_node (st, l) = Ret p (st1, l1) /\ p <> 0 /\ is_list st1 l1 ids xs /\
    p ∉ node_cache l1 ++ head l1 :: ids ++ [tail l1] /\ is_Some (nodes st1 !! p) /\
    head l1 = head l /\ tail l1 = tail l /\ (budget st <= S (budget st1))%nat.
Proof.
  intros Hil Hb. pose proof Hil as [Hl Hnd Hno Hda Hsz Hca].
  unfold alloc_node, kbind, kget, upd_list, kmodify, kret.
  destruct (last (node_cache l)) as [p|] eqn:Hlast.
  - apply last_split in Hlast as [c Hc]. rewrite Hc in *.
    assert (take (length (c ++ [p]) - 1) (c ++ [p]) = c) as Htk.
    { rewrite length_app. cbn [length]. replace (length c + 1 - 1)%nat with (length c) by lia.
      by rewrite take_app_length. }
    rewrite Htk. exists p, st, (set_cache c l). rewrite <- app_assoc in Hnd. cbn [app] in Hnd.
    rewrite <- Permutation_middle in Hnd. apply NoDup_cons in Hnd as [Hpn Hnd].
    destruct (Hno p) as [Hp0 Hps]; [set_solver|]. unfold set_cache.
    cbn [node_cache head tail]. split_and!; try done; [|lia].
    split; cbn [node_cache head tail _size nodes]; try done.
    + intros q Hq. apply Hno. set_solver.
    + rewrite length_app in Hca. cbn [length] in Hca. lia.
  - unfold new_node. destruct (budget st) as [|b] eqn:Eb; [lia|].
    pose proof (is_fresh ({[0]} ∪ dom (nodes st) : gset Z)) as Hf. fold (fresh_addr (nodes st)) in Hf.
    set (p := fresh_addr (nodes st)) in *. clearbody p.
    apply not_elem_of_union in Hf as [Hp0 Hpd]. apply not_elem_of_dom in Hpd.
    exists p, (Store (<[p := inhabitant]> (nodes st)) b), l. split_and!; try done.
    + set_solver.
    + by apply is_list_extend.
    + intros Hin. destruct (Hno p Hin) as [_ [x Hx]]. congruence.
    + cbn [nodes]. by rewrite lookup_insert_eq.

Qed.

(** Solves the field equations of an insertion or a removal. *)
Ltac field_eqs := intros; cbn [nodes]; fields; repeat case_decide; congruence.

(** Runs a chain of pointer updates on a concrete state. *)
Ltac lrun :=
  unfold bump, upd_list, upd_nodes, pv, nx, kbind, kget, kret, kmodify; cbv beta iota zeta; cbn [nodes budget].

(** ** The operations refine sequence operations *)

Lemma push_back_spec st l ids xs x :
  is_list st l ids xs -> (0 < budget st)%nat ->
  exists p st' l', push_back x (st, l) = Ret p (st', l') /\ is_list st' l' (ids ++ [p]) (xs ++ [x]) /\
    (budget st <= S (budget st'))%nat.
Proof.
  intros Hil Hb. destruct (alloc_node_spec st l ids xs Hil Hb) as
    (p & st1 & l1 & Hrun & Hp0 & Hil1 & Hpn & Hps & Hh & Ht & Hbud).
  destruct (last (head l1 :: ids)) as [a|] eqn:Ha; [|by apply last_None in Ha].
  pose proof Hil1 as Hil2. rewrite <- (app_nil_r ids), <- (app_nil_r xs) in Hil2.
  destruct (position_links st1 l1 ids [] _ a (tail l1) Hil2 Ha eq_refl) as [Hn Hp].
  destruct (position_members st1 l1 ids [] _ a (tail l1) Hil2 Ha eq_refl) as (Has & Hbs & _ & _).
  exists p. unfold push_back, push_back_node. lrun. rewrite Hrun, !(proj2 (Z.eqb_neq p 0)) by done. cbn [nodes budget].
  rewrite Hp. do 2 eexists. split; [done|]. split; [|done].
  eapply (is_list_insert st1 _ l1 _ ids [] xs [] p x a (tail l1)); try done;
    [by rewrite <- (il_data _ _ _ _ Hil1), length_fmap|by rewrite app_nil_r|somes|somes|field_eqs..].
Qed.

Lemma push_front_spec st l ids xs x :
  is_list st l ids xs -> (0 < budget st)%nat ->
  exists p st' l', push_front x (st, l) = Ret p (st', l') /\ is_list st' l' (p :: ids) (x :: xs) /\
    (budget st <= S (budget st'))%nat.
Proof.
  intros Hil Hb. destruct (alloc_node_spec st l ids xs Hil Hb) as
    (p & st1 & l1 & Hrun & Hp0 & Hil1 & Hpn & Hps & Hh & Ht & Hbud).
  destruct (hd_error (ids ++ [tail l1])) as [b|] eqn:Hbq; [|by destruct ids].
  destruct (position_links st1 l1 [] ids _ (head l1) b Hil1 eq_refl Hbq) as [Hn Hp].
  destruct (position_members st1 l1 [] ids _ (head l1) b Hil1 eq_refl Hbq) as (Has & Hbs & _ & _).
  exists p. unfold push_front, push_front_node. lrun. rewrite Hrun, !(proj2 (Z.eqb_neq p 0)) by done. cbn [nodes budget].
  rewrite Hn. do 2 eexists. split; [done|]. split; [|done].
  eapply (is_list_insert st1 _ l1 _ [] ids [] xs p x (head l1) b); try done; [somes|somes|field_eqs..].
Qed.

(** Inserting before the node [p] of the list, or before its end. *)
Lemma insert_before_spec st l ids1 ids2 xs1 xs2 p x :
  is_list st l (ids1 ++ ids2) (xs1 ++ xs2) -> length ids1 = length xs1 -> (0 < budget st)%nat ->
  hd_error (ids2 ++ [tail l]) = Some p ->
  exists q st' l', insert_before p x (st, l) = Ret tt (st', l') /\
    is_list st' l' (ids1 ++ q :: ids2) (xs1 ++ x :: xs2) /\ (budget st <= S (budget st'))%nat.
Proof.
  intros Hil Hlen Hb Hpos. destruct (alloc_node_spec st l _ _ Hil Hb) as
    (q & st1 & l1 & Hrun & Hq0 & Hil1 & Hqn & Hqs & Hh & Ht & Hbud).
  destruct (last (head l1 :: ids1)) as [a|] eqn:Ha; [|by apply last_None in Ha].
  rewrite <- Ht in Hpos.
  destruct (position_links st1 l1 ids1 ids2 _ a p Hil1 Ha Hpos) as [Hn Hp].
  destruct (position_members st1 l1 ids1 ids2 _ a p Hil1 Ha Hpos) as (Has & Hbs & _ & Hph).
  exists q. unfold insert_before. lrun. rewrite (proj2 (Z.eqb_neq p (head l))) by congruence.
  rewrite Hrun, !(proj2 (Z.eqb_neq q 0)) by done. cbn [nodes budget]. rewrite Hp. do 2 eexists. split; [done|]. split; [|done].
  eapply (is_list_insert st1 _ l1 _ ids1 ids2 xs1 xs2 q x a p); try done; [somes|somes|field_eqs..].
Qed.

Lemma insert_after_spec st l ids1 ids2 xs1 xs2 p x :
  is_list st l (ids1 ++ ids2) (xs1 ++ xs2) -> length ids1 = length xs1 -> (0 < budget st)%nat ->
  last (head l :: ids1) = Some p ->
  exists q st' l', insert_after p x (st, l) = Ret tt (st', l') /\
    is_list st' l' (ids1 ++ q :: ids2) (xs1 ++ x :: xs2) /\ (budget st <= S (budget st'))%nat.
Proof.
  intros Hil Hlen Hb Hpos. destruct (alloc_node_spec st l _ _ Hil Hb) as
    (q & st1 & l1 & Hrun & Hq0 & Hil1 & Hqn & Hqs & Hh & Ht & Hbud).
  destruct (hd_error (ids2 ++ [tail l1])) as [b|] eqn:Hbq; [|by destruct ids2].
  rewrite <- Hh in Hpos.
  destruct (position_links st1 l1 ids1 ids2 _ p b Hil1 Hpos Hbq) as [Hn Hp].
  destruct (position_members st1 l1 ids1 ids2 _ p b Hil1 Hpos Hbq) as (Has & Hbs & Hpt & _).
  exists q. unfold insert_after. lrun. rewrite (proj2 (Z.eqb_neq p (tail l))) by congruence.
  rewrite Hrun, !(proj2 (Z.eqb_neq q 0)) by done. cbn [nodes budget]. rewrite Hn. do 2 eexists. split; [done|]. split; [|done].
  eapply (is_list_insert st1 _ l1 _ ids1 ids2 xs1 xs2 q x p b); try done; [somes|somes|field_eqs..].
Qed.

Lemma remove_node_spec st l ids1 ids2 xs1 y xs2 p :
  is_list st l (ids1 ++ p :: ids2) (xs1 ++ y :: xs2) -> length ids1 = length xs1 ->
  exists st' l', remove_node p (st, l) = Ret tt (st', l') /\ is_list st' l' (ids1 ++ ids2) (xs1 ++ xs2) /\
    (budget st <= budget st')%nat.
Proof.
  intros Hil Hlen. pose proof (il_cache _ _ _ _ Hil) as Hca.
  destruct (last (head l :: ids1)) as [a|] eqn:Ha; [|by apply last_None in Ha].
  destruct (hd_error (ids2 ++ [tail l])) as [b|] eqn:Hb; [|by destruct ids2].
  destruct (position_links st l ids1 (p :: ids2) _ a p Hil Ha eq_refl) as [Hn1 Hp1].
  destruct (position_members st l ids1 (p :: ids2) _ a p Hil Ha eq_refl) as (Has & Hps & _ & _).
  assert (is_list st l ((ids1 ++ [p]) ++ ids2) (xs1 ++ y :: xs2)) as Hil' by (by rewrite <- app_assoc).
  assert (last (head l :: ids1 ++ [p]) = Some p) as Hlp by (by rewrite app_comm_cons, last_snoc).
  destruct (position_links st l (ids1 ++ [p]) ids2 _ p b Hil' Hlp Hb) as [Hn2 Hp2].
  destruct (position_members st l (ids1 ++ [p]) ids2 _ p b Hil' Hlp Hb) as (_ & Hbs & _ & _).
  unfold remove_node, free_node. lrun. rewrite Hp1, Hn2.
  destruct (bool_decide (length (node_cache l) < 8)%nat) eqn:Hc.
  - apply bool_decide_eq_true in Hc. do 2 eexists. split; [done|]. split; [|done].
    eapply (is_list_remove st _ l _ ids1 ids2 xs1 y xs2 p a b); try done; [| |somes|field_eqs..].
    + right. split; [done|somes].
    + cbn [node_cache set_cache set_size]. rewrite length_app. cbn [length]. lia.
  - unfold delete_node, kmodify. do 2 eexists. split; [done|]. split; [|cbn [budget]; lia].
    assert (forall m q, q <> p -> get_node (delete p m) q = get_node m q) as Hdel.
    { intros m q Hq. unfold get_node. by rewrite lookup_delete_ne. }
    eapply (is_list_remove st _ l _ ids1 ids2 xs1 y xs2 p a b); try done.
    + by left.
    + intros q Hq Hs. cbn [nodes]. rewrite lookup_delete_ne by done. revert Hs. somes.
    + intros q Hq. cbn [nodes]. rewrite Hdel by done. revert q Hq. field_eqs.
    + intros q Hq. cbn [nodes]. rewrite Hdel by done. revert q Hq. field_eqs.
    + intros q Hq. cbn [nodes]. rewrite Hdel by done. revert q Hq. field_eqs.
Qed.

Lemma ids_length st l ids xs : is_list st l ids xs -> length ids = length xs.
Proof. intros Hil. rewrite <- (il_data _ _ _ _ Hil). by rewrite length_fmap. Qed.

Lemma inner_node st l ids xs p :
  is_list st l ids xs -> p ∈ ids -> (p =? head l) = false /\ (p =? tail l) = false.
Proof.
  intros Hil Hp. pose proof (il_nodup _ _ _ _ Hil) as Hnd. apply NoDup_app in Hnd as (_ & _ & Hnd).
  apply NoDup_cons in Hnd as [Hh Hnd]. apply NoDup_app in Hnd as (_ & Ht & _).
  split; apply Z.eqb_neq.
  - intros ->. set_solver.
  - intros ->. apply (Ht _ Hp). set_solver.
Qed.

Lemma pop_front_spec st l ids xs :
  is_list st l ids xs ->
  exists st' l' ids', pop_front (st, l) = Ret tt (st', l') /\ is_list st' l' ids' (drop 1 xs) /\
    (budget st <= budget st')%nat.
Proof.
  intros Hil. pose proof (ids_length _ _ _ _ Hil) as Hlen.
  unfold pop_front. unfold nx, kbind, kget, kret. cbv beta iota zeta.
  destruct ids as [|p ids], xs as [|x xs]; try done.
  - destruct (position_links st l [] [] _ (head l) (tail l) Hil eq_refl eq_refl) as [-> _].
    rewrite Z.eqb_refl. by exists st, l, [].
  - destruct (position_links st l [] (p :: ids) _ (head l) p Hil eq_refl eq_refl) as [-> _].
    destruct (inner_node _ _ _ _ p Hil) as [_ ->]; [by left|].
    destruct (remove_node_spec st l [] ids [] x xs p Hil eq_refl) as (st' & l' & Hrun & Hil' & Hb).
    rewrite Hrun. by exists st', l', ids.
Qed.

Lemma pop_back_spec st l ids xs :
  is_list st l ids xs ->
  exists st' l' ids', pop_back (st, l) = Ret tt (st', l') /\ is_list st' l' ids' (take (length xs - 1) xs) /\
    (budget st <= budget st')%nat.
Proof.
  intros Hil. pose proof (ids_length _ _ _ _ Hil) as Hlen.
  unfold pop_back. unfold pv, kbind, kget, kret. cbv beta iota zeta.
  destruct ids as [|p ids _] using rev_ind.
  { destruct xs; [|done].
    destruct (position_links st l [] [] _ (head l) (tail l) Hil eq_refl eq_refl) as [_ ->].
    rewrite Z.eqb_refl. by exists st, l, []. }
  destruct xs as [|x xs _] using rev_ind; [rewrite length_app in Hlen; cbn in Hlen; lia|].
  rewrite !length_app in Hlen. cbn [length] in Hlen.
  assert (is_list st l ((ids ++ [p]) ++ []) (xs ++ [x])) as Hil' by (by rewrite app_nil_r).
  destruct (position_links st l (ids ++ [p]) [] _ p (tail l) Hil') as [_ ->];
    [by rewrite app_comm_cons, last_snoc|done|].
  destruct (inner_node _ _ _ _ p Hil) as [-> _]; [set_solver|].
  destruct (remove_node_spec st l ids [] xs x [] p Hil) as (st' & l' & Hrun & Hil2 & Hb); [lia|].
  rewrite Hrun, length_app. cbn [length].
  replace (length xs + 1 - 1)%nat with (length xs) by lia. rewrite take_app_length.
  rewrite !app_nil_r in Hil2. by exists st', l', ids.
Qed.

Lemma erase_spec st l ids1 ids2 xs1 y xs2 p :
  is_list st l (ids1 ++ p :: ids2) (xs1 ++ y :: xs2) -> length ids1 = length xs1 ->
  exists st' l', erase p (st, l) = Ret tt (st', l') /\ is_list st' l' (ids1 ++ ids2) (xs1 ++ xs2) /\
    (budget st <= budget st')%nat.
Proof.
  intros Hil Hlen. unfold erase, kbind, kget. cbv beta iota.
  destruct (inner_node _ _ _ _ p Hil) as [-> ->]; [set_solver|]. cbn [orb]. by eapply remove_node_spec.
Qed.

Lemma move_to_front_spec st l ids1 ids2 xs1 y xs2 p :
  is_list st l (ids1 ++ p :: ids2) (xs1 ++ y :: xs2) -> length ids1 = length xs1 ->
  exists st' l', move_to_front p (st, l) = Ret tt (st', l') /\
    is_list st' l' (p :: ids1 ++ ids2) (y :: xs1 ++ xs2) /\ budget st' = budget st.
Proof.
  intros Hil Hlen. destruct (last (head l :: ids1)) as [a|] eqn:Ha; [|by apply last_None in Ha].
  destruct (hd_error (ids2 ++ [tail l])) as [b|] eqn:Hb; [|by destruct ids2].
  destruct (position_links st l ids1 (p :: ids2) _ a p Hil Ha eq_refl) as [Hn1 Hp1].
  destruct (position_members st l ids1 (p :: ids2) _ a p Hil Ha eq_refl) as (Has & Hps & _ & _).
  assert (is_list st l ((ids1 ++ [p]) ++ ids2) (xs1 ++ y :: xs2)) as Hil' by (by rewrite <- app_assoc).
  assert (last (head l :: ids1 ++ [p]) = Some p) as Hlp by (by rewrite app_comm_cons, last_snoc).
  destruct (position_links st l (ids1 ++ [p]) ids2 _ p b Hil' Hlp Hb) as [Hn2 Hp2].
  destruct (position_members st l (ids1 ++ [p]) ids2 _ p b Hil' Hlp Hb) as (_ & Hbs & _ & _).
  unfold move_to_front. lrun.
  destruct (inner_node _ _ _ _ p Hil) as [-> ->]; [set_solver|]. cbn [orb]. rewrite Hp1.
  destruct ids1 as [|i ids1].
  { injection Ha as <-. rewrite Z.eqb_refl. destruct xs1; [|done]. by exists st, l. }
  assert (a <> head l) as Hah.
  { assert (a ∈ i :: ids1) as Hai. { cbn [last] in Ha. apply last_split in Ha as [k ->]. set_solver. }
    destruct (inner_node _ _ _ _ a Hil) as [Hh _]; [set_solver|]. by apply Z.eqb_neq in Hh. }
  rewrite (proj2 (Z.eqb_neq _ _) Hah). cbv beta iota zeta. cbn [nodes budget]. rewrite Hn2.
  set (m1 := set_prev b a (set_next a b (nodes st))). set (l1 := set_size (_size l - 1) l).
  assert (is_list (Store m1 (budget st)) l1 ((i :: ids1) ++ ids2) (xs1 ++ xs2)) as Hil1.
  { eapply (is_list_remove st _ l _ (i :: ids1) ids2 xs1 y xs2 p a b); try done;
      [by left|apply (il_cache _ _ _ _ Hil)|subst m1; somes|subst m1; field_eqs..]. }
  assert (is_Some (m1 !! p)) as Hps1 by (subst m1; somes).
  assert (p ∉ node_cache l1 ++ head l1 :: ((i :: ids1) ++ ids2) ++ [tail l1]) as Hpn.
  { pose proof (il_nodup _ _ _ _ Hil) as Hnd.
    replace (node_cache l ++ head l :: ((i :: ids1) ++ p :: ids2) ++ [tail l]) with
      ((node_cache l ++ head l :: i :: ids1) ++ p :: (ids2 ++ [tail l])) in Hnd
      by (cbn [app]; rewrite <- ?app_assoc; cbn [app]; by rewrite <- ?app_assoc).
    rewrite <- Permutation_middle in Hnd. apply NoDup_cons in Hnd as [Hnd _]. set_solver. }
  assert (data (get_node m1 p) = y) as Hdp.
  { subst m1. fields. pose proof (il_data _ _ _ _ Hil) as Hd. rewrite fmap_app in Hd.
    apply app_inj_1 in Hd as [_ Hd]; [|by rewrite length_fmap]. rewrite fmap_cons in Hd.
    by injection Hd as Hd _. }
  destruct (position_links _ _ [] ((i :: ids1) ++ ids2) _ (head l1) i Hil1 eq_refl eq_refl) as [Hhn _].
  destruct (position_members _ _ [] ((i :: ids1) ++ ids2) _ (head l1) i Hil1 eq_refl eq_refl) as (Hhs & His & _ & _).
  change (head l1) with (head l) in *. cbn [nodes] in *. rewrite Hhn.
  destruct (il_nodes _ _ _ _ Hil p) as [Hp0 _]; [set_solver|].
  do 2 eexists. split; [done|]. split; [|done].
  eapply (is_list_insert (Store m1 (budget st)) _ l1 _ [] ((i :: ids1) ++ ids2) [] (xs1 ++ xs2) p y (head l) i);
    try done; [cbn [_size l1 set_size]; lia|somes|somes|field_eqs|field_eqs|field_eqs].
Qed.

Definition delete_all (ids : list Z) (m : gmap Z node) : gmap Z node := foldr delete m ids.

Lemma get_node_delete_all ids m q : q ∉ ids -> delete_all ids m !! q = m !! q.
Proof.
  induction ids as [|p ids IH]; intros Hq; [done|]. cbn [delete_all foldr].
  rewrite lookup_delete_ne by set_solver. apply IH. set_solver.
Qed.

Lemma delete_all_comm p ids m : delete_all ids (delete p m) = delete p (delete_all ids m).
Proof. induction ids as [|q ids IH]; [done|]. unfold delete_all in *. cbn [foldr]. by rewrite IH, delete_delete. Qed.

Lemma clear_loop_spec fuel st l ids p :
  linked (nodes st) (ids ++ [tail l]) -> NoDup (ids ++ [tail l]) -> (length ids < fuel)%nat ->
  hd_error (ids ++ [tail l]) = Some p ->
  clear_loop fuel p (st, l) = Ret tt (Store (delete_all ids (nodes st)) (length ids + budget st), l).
Proof.
  revert st ids p. induction fuel as [|fuel IH]; intros st ids p Hl Hnd Hf Hp; [lia|].
  cbn [clear_loop]. unfold kbind, kget. cbv beta iota. destruct ids as [|i ids].
  { injection Hp as <-. rewrite Z.eqb_refl. by destruct st. }
  injection Hp as <-. cbn [app] in *. pose proof Hnd as Hnd0. apply NoDup_cons in Hnd0 as [Hi Hnd'].
  rewrite (proj2 (Z.eqb_neq i (tail l))) by set_solver. unfold nx, kbind, kget, kret, delete_node, kmodify.
  cbv beta iota. cbn [length] in *.
  assert (linked (nodes st) (ids ++ [tail l])) as Hl'.
  { destruct ids; [done|]. cbn [app linked] in Hl. tauto. }
  assert (hd_error (ids ++ [tail l]) = Some (next (get_node (nodes st) i))) as Hhd.
  { destruct ids; cbn [app linked] in Hl; destruct Hl as [-> _]; done. }
  rewrite (IH (Store (delete i (nodes st)) (S (budget st))) ids); [| |done|lia|done].
  - cbn [nodes budget]. rewrite delete_all_comm. do 2 f_equal. f_equal. lia.
  - cbn [nodes]. eapply linked_frame_l; [| |done]; intros q Hq; unfold get_node;
      rewrite lookup_delete_ne by set_solver; done.
Qed.

Lemma clear_cache_spec c st l :
  clear_cache c (st, l) = Ret tt (Store (delete_all c (nodes st)) (length c + budget st), l).
Proof.
  revert st. induction c as [|p c IH]; intros st; [by destruct st|]. cbn [clear_cache].
  unfold kbind, delete_node, kmodify. rewrite IH. cbn [nodes budget length].
  rewrite delete_all_comm. do 2 f_equal. f_equal. lia.
Qed.

Lemma clear_spec fuel st l ids xs :
  is_list st l ids xs -> (length xs < fuel)%nat ->
  exists st' l', clear fuel (st, l) = Ret tt (st', l') /\ is_list st' l' [] [] /\
    budget st' = (length (node_cache l) + (length ids + budget st))%nat.
Proof.
  intros Hil Hf. pose proof Hil as [Hl Hnd Hno Hda Hsz Hca].
  pose proof (ids_length _ _ _ _ Hil) as Hlen. apply NoDup_app in Hnd as (Hnc & Hdis & Hnd).
  apply NoDup_cons in Hnd as [Hh Hnd].
  destruct (hd_error (ids ++ [tail l])) as [b|] eqn:Hb; [|by destruct ids].
  destruct (position_links st l [] ids _ (head l) b Hil eq_refl Hb) as [Hn _].
  assert (linked (nodes st) (ids ++ [tail l])) as Hl'.
  { destruct ids; [done|]. cbn [app linked] in Hl. tauto. }
  unfold clear. unfold nx, kbind at 1 2, kget. cbv beta iota. unfold kbind at 1, kret. rewrite Hn.
  unfold kbind at 1. rewrite (clear_loop_spec fuel st l ids b) by (done || lia).
  unfold kbind, upd_list, upd_nodes, kmodify. cbv beta iota. rewrite clear_cache_spec.
  do 2 eexists. split; [done|]. cbn [nodes budget]. rewrite length_rev. split; [|done].
  apply NoDup_app in Hnd as (Hndi & Hti & _).
  assert (head l ∉ ids /\ tail l ∉ ids /\ head l <> tail l) as (Hhi & Htl & Hht) by set_solver.
  assert (head l ∉ rev (node_cache l) /\ tail l ∉ rev (node_cache l)) as [Hhc Htc].
  { rewrite !list_elem_of_In, <- !in_rev, <- !list_elem_of_In.
    split; intros Hin; apply (Hdis _ Hin); set_solver. }
  assert (forall q, q = head l \/ q = tail l -> is_Some (nodes st !! q)) as Hsome.
  { intros q Hq. apply Hno. set_solver. }
  set (m1 := delete_all ids (nodes st)).
  assert (is_Some (m1 !! head l) /\ is_Some (m1 !! tail l)) as [Hs1 Hs2].
  { subst m1. rewrite !get_node_delete_all by done. split; apply Hsome; auto. }
  set (m2 := set_prev (tail l) (head l) (set_next (head l) (tail l) m1)).
  assert (forall q, q = head l \/ q = tail l -> get_node (delete_all (rev (node_cache l)) m2) q = get_node m2 q) as Hg.
  { intros q Hq. unfold get_node. by rewrite get_node_delete_all by (destruct Hq; subst q; done). }
  split; cbn [head tail _size node_cache set_size set_cache nodes app]; try done; [| | |cbn [length]; lia].
  - cbn [linked]. rewrite !Hg by auto. subst m2. fields. repeat case_decide; congruence || done.
  - constructor; [set_solver|apply NoDup_singleton].
  - intros q Hq. destruct (Hno q) as [Hq0 _]; [set_solver|]. split; [done|].
    assert (q = head l \/ q = tail l) as Hqq by set_solver.
    rewrite get_node_delete_all by (destruct Hqq; subst q; done). subst m2.
    rewrite set_prev_some, set_next_some. destruct Hqq; by subst q.
Qed.

(** ** Sequences of operations *)

(** The operations of a client; positions are iterators that many steps from
    [begin()]. *)
Inductive list_op :=
| PushBack (x : A)
| PushFront (x : A)
| PopFront
| PopBack
| EraseAt (i : nat)
| InsertBefore (i : nat) (x : A)
| InsertAfter (i : nat) (x : A)
| MoveToFront (i : nat)
| Clear.

(** [begin()] advanced [i] times. *)
Fixpoint advance (i : nat) (p : Z) : L Z :=
  match i with
  | O => kret p
  | S i' => q <- nx p ;; advance i' q
  end.

Definition iterator_at (i : nat) : L Z := '(st, l) <- kget ;; p <- nx (head l) ;; advance i p.

Definition exec_op (fuel : nat) (op : list_op) : L unit :=
  match op with
  | PushBack x => push_back x ;;; kret tt
  | PushFront x => push_front x ;;; kret tt
  | PopFront => pop_front
  | PopBack => pop_back
  | EraseAt i => p <- iterator_at i ;; erase p
  | InsertBefore i x => p <- iterator_at i ;; insert_before p x
  | InsertAfter i x => p <- iterator_at i ;; insert_after p x
  | MoveToFront i => p <- iterator_at i ;; move_to_front p
  | Clear => clear fuel
  end.

Fixpoint exec_ops (fuel : nat) (ops : list list_op) : L unit :=
  match ops with
  | [] => kret tt
  | op :: ops' => exec_op fuel op ;;; exec_ops fuel ops'
  end.

(** What they do to a sequence; [None] outside the sequence. *)
Definition spec_op (op : list_op) (xs : list A) : option (list A) :=
  match op with
  | PushBack x => Some (xs ++ [x])
  | PushFront x => Some (x :: xs)
  | PopFront => Some (drop 1 xs)
  | PopBack => Some (take (length xs - 1) xs)
  | EraseAt i => if decide (i < length xs)%nat then Some (take i xs ++ drop (S i) xs) else None
  | InsertBefore i x => if decide (i <= length xs)%nat then Some (take i xs ++ x :: drop i xs) else None
  | InsertAfter i x => if decide (i < length xs)%nat then Some (take (S i) xs ++ x :: drop (S i) xs) else None
  | MoveToFront i => y ← xs !! i; Some (y :: take i xs ++ drop (S i) xs)
  | Clear => Some []
  end.

Fixpoint spec_ops (ops : list list_op) (xs : list A) : option (list A) :=
  match ops with
  | [] => Some xs
  | op :: ops' => ys ← spec_op op xs; spec_ops ops' ys
  end.

Lemma advance_spec st l ids1 ids2 xs p :
  is_list st l (ids1 ++ ids2) xs -> last (head l :: ids1) = Some p ->
  forall i q, (ids2 ++ [tail l]) !! i = Some q ->
  (x <- nx p ;; advance i x) (st, l) = Ret q (st, l).
Proof.
  intros Hil Hp i. revert ids1 ids2 p Hil Hp. induction i as [|i IH]; intros ids1 ids2 p Hil Hp q Hq.
  - destruct (ids2 ++ [tail l]) as [|b l2] eqn:Hl2; [done|]. injection Hq as ->.
    destruct (position_links st l ids1 ids2 _ p q Hil Hp) as [Hn _]; [by rewrite Hl2|].
    unfold nx, kbind, kget, kret. cbn. by rewrite Hn.
  - destruct ids2 as [|b ids2]; [by destruct i|]. cbn [app] in Hq.
    destruct (position_links st l ids1 (b :: ids2) _ p b Hil Hp eq_refl) as [Hn _].
    cbn [advance]. unfold nx at 1, kbind at 1 2, kget, kret. rewrite Hn.
    apply (IH (ids1 ++ [b]) ids2); [by rewrite <- app_assoc|by rewrite app_comm_cons, last_snoc|done].
Qed.

Lemma iterator_at_spec st l ids xs i q :
  is_list st l ids xs -> (ids ++ [tail l]) !! i = Some q -> iterator_at i (st, l) = Ret q (st, l).
Proof.
  intros Hil Hq. unfold iterator_at. unfold kbind at 1, kget. by apply (advance_spec st l [] ids xs (head l)).
Qed.

(** A position splits a list. *)
Lemma split_at {X} (xs : list X) i x :
  xs !! i = Some x -> xs = take i xs ++ x :: drop (S i) xs.
Proof. intros Hx. symmetry. by apply take_drop_middle. Qed.

Lemma exec_op_refines fuel op st l ids xs ys :
  is_list st l ids xs -> spec_op op xs = Some ys -> (0 < budget st)%nat -> (length xs < fuel)%nat ->
  exists st' l' ids', exec_op fuel op (st, l) = Ret tt (st', l') /\ is_list st' l' ids' ys /\
    (budget st <= S (budget st'))%nat /\ (length ys <= S (length xs))%nat.
Proof.
  intros Hil Hspec Hb Hf. pose proof (ids_length _ _ _ _ Hil) as Hlen.
  destruct op as [x|x| | |i|i x|i x|i|]; cbn [spec_op exec_op] in *.
  - simplify_eq. destruct (push_back_spec st l ids xs x Hil Hb) as (p & st' & l' & Hrun & Hil' & Hbud).
    unfold kbind. rewrite Hrun. exists st', l', (ids ++ [p]). rewrite length_app. cbn [length]. split_and!; done || lia.
  - simplify_eq. destruct (push_front_spec st l ids xs x Hil Hb) as (p & st' & l' & Hrun & Hil' & Hbud).
    unfold kbind. rewrite Hrun. exists st', l', (p :: ids). cbn [length]. split_and!; done || lia.
  - simplify_eq. destruct (pop_front_spec st l ids xs Hil) as (st' & l' & ids' & Hrun & Hil' & Hbud).
    exists st', l', ids'. rewrite length_drop. split_and!; done || lia.
  - simplify_eq. destruct (pop_back_spec st l ids xs Hil) as (st' & l' & ids' & Hrun & Hil' & Hbud).
    exists st', l', ids'. rewrite length_take. split_and!; done || lia.
  - case_decide as Hi; [|done]. simplify_eq.
    destruct (lookup_lt_is_Some_2 ids i) as [p Hp]; [lia|]. destruct (lookup_lt_is_Some_2 xs i) as [y Hy]; [done|].
    assert ((ids ++ [tail l]) !! i = Some p) as Hpt by (by apply lookup_app_l_Some).
    unfold kbind. rewrite (iterator_at_spec st l ids xs i p Hil Hpt).
    pose proof Hil as Hil2. rewrite (split_at ids i p Hp), (split_at xs i y Hy) in Hil2.
    destruct (erase_spec st l _ _ _ _ _ _ Hil2) as (st' & l' & Hrun & Hil' & Hbud); [rewrite !length_take; lia|].
    eexists st', l', _. split_and!; [done|done|lia|]. rewrite length_app, length_take, length_drop. lia.
  - case_decide as Hi; [|done]. simplify_eq.
    destruct (lookup_lt_is_Some_2 (ids ++ [tail l]) i) as [p Hp]; [rewrite length_app; cbn [length]; lia|].
    unfold kbind. rewrite (iterator_at_spec st l ids xs i p Hil Hp).
    pose proof Hil as Hil2. rewrite <- (take_drop i ids), <- (take_drop i xs) in Hil2.
    destruct (insert_before_spec st l _ _ _ _ p x Hil2) as (q & st' & l' & Hrun & Hil' & Hbud);
      [rewrite !length_take; lia|done| |].
    { rewrite <- drop_app_le by lia. rewrite <- (Nat.add_0_r i) in Hp. rewrite <- lookup_drop in Hp.
      by destruct (drop i (ids ++ [tail l])). }
    eexists st', l', _. split_and!; [done|done|lia|]. rewrite length_app, length_take. cbn [length]. rewrite length_drop. lia.
  - case_decide as Hi; [|done]. simplify_eq.
    destruct (lookup_lt_is_Some_2 ids i) as [p Hp]; [lia|].
    assert ((ids ++ [tail l]) !! i = Some p) as Hpt by (by apply lookup_app_l_Some).
    unfold kbind. rewrite (iterator_at_spec st l ids xs i p Hil Hpt).
    pose proof Hil as Hil2. rewrite <- (take_drop (S i) ids), <- (take_drop (S i) xs) in Hil2.
    destruct (insert_after_spec st l _ _ _ _ p x Hil2) as (q & st' & l' & Hrun & Hil' & Hbud);
      [rewrite !length_take; lia|done| |].
    { rewrite (take_S_r ids i p Hp), app_comm_cons. by rewrite last_snoc. }
    eexists st', l', _. split_and!; [done|done|lia|]. rewrite length_app, length_take. cbn [length]. rewrite length_drop. lia.
  - destruct (xs !! i) as [y|] eqn:Hy; [|done]. cbn in Hspec. simplify_eq.
    pose proof (lookup_lt_Some _ _ _ Hy) as Hi. destruct (lookup_lt_is_Some_2 ids i) as [p Hp]; [lia|].
    assert ((ids ++ [tail l]) !! i = Some p) as Hpt by (by apply lookup_app_l_Some).
    unfold kbind. rewrite (iterator_at_spec st l ids xs i p Hil Hpt).
    pose proof Hil as Hil2. rewrite (split_at ids i p Hp), (split_at xs i y Hy) in Hil2.
    destruct (move_to_front_spec st l _ _ _ _ _ _ Hil2) as (st' & l' & Hrun & Hil' & Hbud); [rewrite !length_take; lia|].
    eexists st', l', _. split_and!; [done|done|lia|]. cbn [length]. rewrite length_app, length_take, length_drop. lia.
  - simplify_eq. destruct (clear_spec fuel st l ids xs Hil Hf) as (st' & l' & Hrun & Hil' & Hbud).
    exists st', l', []. split_and!; [done|done|lia|cbn [length]; lia].
Qed.

(** C31. The list implements the sequence it stands for, along every sequence of
    operations at valid positions, when the heap can provide a node per
    operation: the operations return and the list holds what the abstract
    operations give. *)
Theorem list_refines ops : forall fuel st l ids xs ys,
  is_list st l ids xs -> spec_ops ops xs = Some ys ->
  (length ops <= budget st)%nat -> (length xs + length ops < fuel)%nat ->
  exists st' l' ids', exec_ops fuel ops (st, l) = Ret tt (st', l') /\ is_list st' l' ids' ys.
Proof.
  induction ops as [|op ops IH]; intros fuel st l ids xs ys Hil Hspec Hb Hf; cbn [spec_ops exec_ops length] in *.
  { simplify_eq. by exists st, l, ids. }
  destruct (spec_op op xs) as [zs|] eqn:Hop; [|done]. cbn in Hspec.
  destruct (exec_op_refines fuel op st l ids xs zs Hil Hop) as (st1 & l1 & ids1 & Hrun & Hil1 & Hb1 & Hl1); [lia..|].
  unfold kbind. rewrite Hrun. apply (IH fuel st1 l1 ids1 zs ys); [done|done|lia|lia].
Qed.

(** The constructor makes an empty list. *)
Lemma list_init_spec st l0 :
  (2 <= budget st)%nat ->
  exists st' l, list_init (st, l0) = Ret tt (st', l) /\ is_list st' l [] [] /\ budget st = S (S (budget st')).
Proof.
  intros Hb. unfold list_init, new_node. lrun. destruct st as [m [|[|b]]]; cbn [budget] in Hb; try lia.
  cbn [nodes budget]. pose proof (is_fresh ({[0]} ∪ dom m : gset Z)) as Hf1. fold (fresh_addr m) in Hf1.
  set (h := fresh_addr m) in *. clearbody h.
  set (m1 := <[h := inhabitant]> m). pose proof (is_fresh ({[0]} ∪ dom m1 : gset Z)) as Hf2.
  fold (fresh_addr m1) in Hf2. set (t := fresh_addr m1) in *. clearbody t.
  apply not_elem_of_union in Hf1 as [Hh0 _]. apply not_elem_of_union in Hf2 as [Ht0 Htd].
  apply not_elem_of_dom in Htd. assert (h <> t) as Hht.
  { intros ->. subst m1. by rewrite lookup_insert_eq in Htd. }
  set (m2 := <[t := inhabitant]> m1).
  assert (is_Some (m2 !! h) /\ is_Some (m2 !! t)) as [Hs1 Hs2].
  { subst m2 m1. rewrite lookup_insert_ne, !lookup_insert_eq by done. done. }
  do 2 eexists. split; [done|]. split; [|done].
  split; cbn [head tail _size node_cache nodes app]; try done; [| | |cbn [length]; lia].
  - cbn [linked]. fields. repeat case_decide; congruence || done.
  - constructor; [set_solver|apply NoDup_singleton].
  - intros q Hq. split; [set_solver|]. rewrite set_prev_some, set_next_some.
    assert (q = h \/ q = t) as [-> | ->] by set_solver; done.
Qed.
End list.

Arguments node : clear implicits.
Arguments store : clear implicits.
Arguments list_op : clear implicits.

(** A client that uses the list as a queue and moves an element. *)
Definition demo_ops : list (list_op Z) :=
  [PushBack 1; PushBack 2; PushFront 0; MoveToFront 2; InsertBefore 1 9; PopFront; EraseAt 1].

Lemma list_refines_witness :
  exists st l st' l' ids', list_init (Store (A := Z) ∅ 9, DList 0 0 0 []) = Ret tt (st, l) /\
    exec_ops 8 demo_ops (st, l) = Ret tt (st', l') /\ is_list st' l' ids' [9; 1].
Proof.
  destruct (list_init_spec (A := Z) (Store ∅ 9) (DList 0 0 0 [])) as (st & l & Hinit & Hil & Hb);
    [cbn [budget]; lia|].
  destruct (list_refines demo_ops 8 st l [] [] [9; 1]) as (st' & l' & ids' & Hrun & Hil');
    [exact Hil|by vm_compute|cbn [budget length demo_ops] in *; lia|cbn [length demo_ops]; lia|].
  by exists st, l, st', l', ids'.
Defined.
