(* ===== verification/Spinlock.v ===== *)
(** * Spinlocks (src/os/atomic/spinlock.h, spinlock.cc)

    [spinlock::lock] and [unlock] instruction by instruction, on any number of
    cores that interleave freely: a core saves and disables its interrupts,
    checks that it does not hold the lock already, spins on an atomic
    test-and-set, and then records its id and its interrupt state in the lock.
    The theorem says that at most one core is in the critical section, that
    neither of the two [__panic] calls is reachable for cores that pair [lock]
    with [unlock], and that a core leaves [unlock] with the interrupt state it
    entered [lock] with.

    [cpu::local_irq_save] and [local_irq_restore] (src/os/arch/cpu.h) act on
    the [sie] bit of the core. *)
From S2P Require Import Prelude.

(** ** Definitions *)

(** The members of the lock; [core_id] is a [uint16]. *)
Record spinlock := Spinlock { sl_locked : bool; sl_old_status : bool; sl_core_id : Z }.

(** The constructor ([old_status] is not initialised there; it is written
    before it is read). *)
Definition spinlock_new (garbage : bool) : spinlock := Spinlock false garbage (u16 (-1)).

Definition __holding (l : spinlock) (core : Z) : bool := sl_locked l && (sl_core_id l =? core).

(** Where a core is in [lock] or [unlock]; [old] is the local variable of that
    name. *)
Inductive pc :=
| Outside
| LockCheck (old : bool)
| LockSpin (old : bool)
| LockSetCore (old : bool)
| LockSetOld (old : bool)
| Critical
| UnlockSetCore
| UnlockTakeOld
| UnlockRelease (old : bool)
| UnlockRestore (old : bool).

Record lstate := LState {
  lk : spinlock;
  irq : Z -> bool;
  pcs : Z -> pc;
  panicked : bool
}.

Definition upd {A} (f : Z -> A) (c : Z) (x : A) : Z -> A := fun c' => if decide (c' = c) then x else f c'.

Definition goto (s : lstate) (c : Z) (p : pc) : lstate := LState (lk s) (irq s) (upd (pcs s) c p) (panicked s).
Definition with_lk (s : lstate) (l : spinlock) : lstate := LState l (irq s) (pcs s) (panicked s).
Definition with_irq (s : lstate) (c : Z) (b : bool) : lstate := LState (lk s) (upd (irq s) c b) (pcs s) (panicked s).
Definition do_panic (s : lstate) : lstate := LState (lk s) (irq s) (pcs s) true.

(** One step of core [c].  A spinning core that finds the lock taken stays
    where it is. *)
Definition core_step (c : Z) (s : lstate) : lstate :=
  let l := lk s in
  match pcs s c with
  | Outside => goto (with_irq s c false) c (LockCheck (irq s c))
  | LockCheck old => if __holding l c then do_panic s else goto s c (LockSpin old)
  | LockSpin old =>
      if sl_locked l then s
      else goto (with_lk s (Spinlock true (sl_old_status l) (sl_core_id l))) c (LockSetCore old)
  | LockSetCore old =>
      goto (with_lk s (Spinlock (sl_locked l) (sl_old_status l) (u16 c))) c (LockSetOld old)
  | LockSetOld old =>
      goto (with_lk s (Spinlock (sl_locked l) old (sl_core_id l))) c Critical
  | Critical => if __holding l c then goto s c UnlockSetCore else do_panic s
  | UnlockSetCore =>
      goto (with_lk s (Spinlock (sl_locked l) (sl_old_status l) (u16 (-1)))) c UnlockTakeOld
  | UnlockTakeOld =>
      goto (with_lk s (Spinlock (sl_locked l) false (sl_core_id l))) c (UnlockRelease (sl_old_status l))
  | UnlockRelease old =>
      goto (with_lk s (Spinlock false (sl_old_status l) (sl_core_id l))) c (UnlockRestore old)
  | UnlockRestore old => goto (if old then with_irq s c true else s) c Outside
  end.

(** Some core of the machine takes a step. *)
Definition lock_step (ncpu : Z) (s s' : lstate) : Prop :=
  exists c, 0 <= c < ncpu /\ s' = core_step c s.

(** ** Safety *)

(** The core is between its test-and-set and its release. *)
Definition owns (p : pc) : bool :=
  match p with
  | LockSetCore _ | LockSetOld _ | Critical | UnlockSetCore | UnlockTakeOld | UnlockRelease _ => true
  | _ => false
  end.

(** The lock's [core_id] is the core's. *)
Definition marked (p : pc) : bool :=
  match p with
  | LockSetOld _ | Critical | UnlockSetCore => true
  | _ => false
  end.

(** What a core in each place knows; [irq0] is its interrupt state outside. *)
Definition pc_ok (l : spinlock) (irq0 irqc : bool) (p : pc) : Prop :=
  match p with
  | Outside => irqc = irq0
  | LockCheck old | LockSpin old | LockSetCore old | LockSetOld old => irqc = false /\ old = irq0
  | Critical | UnlockSetCore | UnlockTakeOld => irqc = false /\ sl_old_status l = irq0
  | UnlockRelease old | UnlockRestore old => irqc = false /\ old = irq0
  end.

Record lock_inv (ncpu : Z) (irq0 : Z -> bool) (s : lstate) : Prop := {
  li_outside : forall c, ~ 0 <= c < ncpu -> pcs s c = Outside;
  li_unique : forall c c', owns (pcs s c) = true -> owns (pcs s c') = true -> c = c';
  li_locked : sl_locked (lk s) = true <-> exists c, owns (pcs s c) = true;
  li_marked : forall c, marked (pcs s c) = true -> sl_core_id (lk s) = c;
  li_core : sl_core_id (lk s) = 65535 \/ exists c, sl_core_id (lk s) = c /\ marked (pcs s c) = true;
  li_pc : forall c, pc_ok (lk s) (irq0 c) (irq s c) (pcs s c);
  li_panic : panicked s = false
}.

Lemma marked_owns p : marked p = true -> owns p = true.
Proof. by destruct p. Qed.

Lemma upd_eq {A} (f : Z -> A) c x : upd f c x c = x.
Proof. unfold upd. by rewrite decide_True. Qed.

Lemma upd_ne {A} (f : Z -> A) c c' x : c' <> c -> upd f c x c' = f c'.
Proof. intros. unfold upd. by rewrite decide_False. Qed.

(** [__holding] answers for the core that asks: it is true exactly in the
    stretch where the lock is marked with its id. *)
Lemma holding_marked ncpu irq0 s c :
  lock_inv ncpu irq0 s -> 0 <= c < ncpu -> ncpu <= 65535 -> __holding (lk s) c = marked (pcs s c).
Proof.
  intros [_ _ Hlk Hm Hc _ _] Hr Hn. unfold __holding. destruct (marked (pcs s c)) eqn:E.
  - rewrite (proj2 Hlk) by (exists c; by apply marked_owns). rewrite (Hm c E). apply Z.eqb_refl.
  - apply andb_false_iff. right. apply Z.eqb_neq. destruct Hc as [->|(c' & -> & Hc')]; [lia|].
    intros ->. congruence.
Qed.

(** A step of core [c] to [p'] keeps the invariant when the lock's fields
    follow the core's place. *)
Lemma lock_inv_move ncpu irq0 s c p' l' irq' :
  lock_inv ncpu irq0 s -> 0 <= c < ncpu ->
  (owns p' = true -> owns (pcs s c) = true \/ sl_locked (lk s) = false) ->
  sl_locked l' = owns p' || (negb (owns (pcs s c)) && sl_locked (lk s)) ->
  (if marked p' then sl_core_id l' = c
   else if marked (pcs s c) then sl_core_id l' = 65535 else sl_core_id l' = sl_core_id (lk s)) ->
  (sl_old_status l' = sl_old_status (lk s) \/ owns (pcs s c) = true) ->
  (forall c', c' <> c -> irq' c' = irq s c') ->
  pc_ok l' (irq0 c) (irq' c) p' ->
  lock_inv ncpu irq0 (LState l' irq' (upd (pcs s) c p') (panicked s)).
Proof.
  intros [Ho Hu Hl Hm Hc Hp Hpn] Hr Hown Hlk Hmark Hold Hirq Hpc.
  assert (forall c', c' <> c -> owns (pcs s c') = true -> owns (pcs s c) = false /\ sl_locked (lk s) = true) as Hoth.
  { intros c' Hne Hc'. split; [|apply Hl; by exists c'].
    destruct (owns (pcs s c)) eqn:E; [|done]. by rewrite (Hu c' c Hc' E) in Hne. }
  split; cbn [lk irq pcs panicked]; [| | | | | |done].
  - intros c' Hc'. rewrite upd_ne by (intros ->; lia). by apply Ho.
  - intros c1 c2. destruct (decide (c1 = c)) as [->|N1], (decide (c2 = c)) as [->|N2];
      rewrite ?upd_eq, ?upd_ne by done; intros H1 H2; try done; [| |by apply Hu].
    + destruct (Hoth c2 N2 H2). destruct (Hown H1); congruence.
    + destruct (Hoth c1 N1 H1). destruct (Hown H2); congruence.
  - rewrite Hlk, orb_true_iff, andb_true_iff, negb_true_iff. split.
    + intros [H1|[H1 H2]]; [exists c; by rewrite upd_eq|]. apply Hl in H2 as [c' Hc']. exists c'.
      rewrite upd_ne; [done|]. intros ->. congruence.
    + intros [c' Hc']. destruct (decide (c' = c)) as [->|Hne]; [rewrite upd_eq in Hc'; by left|].
      rewrite upd_ne in Hc' by done. right. by apply (Hoth c').
  - intros c' Hc'. destruct (decide (c' = c)) as [->|Hne].
    + rewrite upd_eq in Hc'. by rewrite Hc' in Hmark.
    + rewrite upd_ne in Hc' by done. destruct (Hoth c' Hne (marked_owns _ Hc')) as [Hno Hlo].
      assert (marked (pcs s c) = false) as Hmc.
      { destruct (marked (pcs s c)) eqn:E; [|done]. by rewrite (marked_owns _ E) in Hno. }
      rewrite Hmc in Hmark. destruct (marked p') eqn:E'.
      * destruct (Hown (marked_owns _ E')); congruence.
      * rewrite Hmark. by apply Hm.
  - destruct (marked p') eqn:E'; [right; exists c; by rewrite upd_eq|].
    destruct (marked (pcs s c)) eqn:E; [by left|]. rewrite Hmark.
    destruct Hc as [|(c' & Hc1 & Hc2)]; [by left|right]. exists c'. split; [done|].
    rewrite upd_ne; [done|]. intros ->. congruence.
  - intros c'. destruct (decide (c' = c)) as [->|Hne]; [by rewrite upd_eq|].
    rewrite upd_ne, Hirq by done. specialize (Hp c').
    destruct Hold as [Heq|Hoc].
    + unfold pc_ok in *. by destruct (pcs s c'); rewrite ?Heq.
    + destruct (owns (pcs s c')) eqn:E'; [destruct (Hoth c' Hne E'); congruence|].
      by destruct (pcs s c').
Qed.

Lemma core_step_inv ncpu irq0 s c :
  lock_inv ncpu irq0 s -> 0 <= c < ncpu -> ncpu <= 65535 -> lock_inv ncpu irq0 (core_step c s).
Proof.
  intros Hinv Hr Hn. pose proof (holding_marked ncpu irq0 s c Hinv Hr Hn) as Hh.
  pose proof (li_pc _ _ _ Hinv c) as Hp. pose proof (li_marked _ _ _ Hinv c) as Hm.
  assert (owns (pcs s c) = true -> sl_locked (lk s) = true) as Hlk.
  { intros Ho. apply (li_locked _ _ _ Hinv). by exists c. }
  unfold core_step. destruct (pcs s c) as [|old|old|old|old| | | |old|old] eqn:E;
    cbn [pc_ok owns marked] in *; rewrite ?Hh.
  3: destruct (sl_locked (lk s)) eqn:El; [done|].
  all: unfold goto, with_lk, with_irq.
  10: destruct old.
  all: cbn [lk irq pcs panicked];
    eapply lock_inv_move; rewrite ?E;
      cbn [owns marked pc_ok orb andb negb sl_locked sl_core_id sl_old_status lk irq pcs panicked]; try done.
  all: try (rewrite Hlk by done; done).
  all: try (by intros c' Hne; rewrite upd_ne).
  all: try (by rewrite ?upd_eq; destruct_and?; auto).
  all: try (right; done).
  - rewrite (u16_small c) by lia. done.
  - destruct Hp. congruence.
Qed.

Definition lock_start (irq0 : Z -> bool) (garbage : bool) : lstate :=
  LState (spinlock_new garbage) irq0 (fun _ => Outside) false.

Lemma lock_start_inv ncpu irq0 garbage : lock_inv ncpu irq0 (lock_start irq0 garbage).
Proof.
  split; try done; cbn.
  - split; [done|]. by intros [? ?].
  - by left.
Qed.

(** C20. Along every interleaving of cores that pair [lock] with [unlock]: no two
    cores are in the critical section, the lock never panics ("acquiring an
    acquired lock", "release a lock when not holding it"), interrupts are off
    inside, and a core that is back outside has the interrupt state it came
    with. *)
Theorem spinlock_safe ncpu irq0 garbage s :
  ncpu <= 65535 -> rtc (lock_step ncpu) (lock_start irq0 garbage) s ->
  panicked s = false /\
  (forall c c', pcs s c = Critical -> pcs s c' = Critical -> c = c') /\
  (forall c, pcs s c = Critical -> irq s c = false) /\
  (forall c, pcs s c = Outside -> irq s c = irq0 c).
Proof.
  intros Hn Hsteps. assert (lock_inv ncpu irq0 s) as [_ Hu _ _ _ Hp Hpn].
  { pose proof (lock_start_inv ncpu irq0 garbage) as Hinv. revert Hinv.
    induction Hsteps as [|s1 s2 s3 (c & Hc & ->) _ IH]; [done|]. intros Hinv.
    apply IH. by apply core_step_inv. }
  split_and!; [done| | |].
  - intros c c' H1 H2. apply Hu; [by rewrite H1|by rewrite H2].
  - intros c Hc. specialize (Hp c). rewrite Hc in Hp. by destruct Hp.
  - intros c Hc. specialize (Hp c). by rewrite Hc in Hp.
Qed.

(** Two cores, one in the critical section and one spinning. *)
Lemma spinlock_safe_witness :
  let s0 := lock_start (fun _ => true) false in
  let s := core_step 1 (core_step 1 (core_step 1 (core_step 0 (core_step 0 (core_step 0
             (core_step 0 (core_step 0 s0))))))) in
  pcs s 0 = Critical /\ pcs s 1 = LockSpin true /\ panicked s = false.
Proof.
  intros s0 s. assert (rtc (lock_step 2) s0 s) as Hsteps.
  { assert (forall x c, 0 <= c < 2 -> rtc (lock_step 2) s0 x -> rtc (lock_step 2) s0 (core_step c x)) as Hgo.
    { intros x c Hc Hx. eapply rtc_r; [exact Hx|]. by exists c. }
    subst s. do 8 (apply Hgo; [lia|]). apply rtc_refl. }
  split_and!; [done|done|]. by destruct (spinlock_safe 2 (fun _ => true) false s) as (Hp & _); [lia|exact Hsteps|].
Defined.
