(* ===== verification/Coroutine.v ===== *)
(** * Coroutines and their scheduler (src/os/coroutine.h, coroutine.cc, task_scheduler.h)

    A coroutine is its promise; control moves between coroutines by the
    handles that the awaiters return.  The file models the promise fields, the
    awaiters ([task_awaiter], [yield_awaiter], [this_scheduler_t],
    [wait_queue_done]), the error path [coroutine_handle_fail], the task queue
    and the scheduler, and then the system they make up: any number of cores
    that run coroutines from one queue while the bodies await each other,
    sleep, yield, return and fail in any order.

    The bodies are C++ code of their own; a body is here whatever it asks of
    this machinery next.  A handle is the promise's address, [None] is
    [noop_coroutine()] (back to the scheduler).  Storage of returned values and
    the backtrace fields are not modelled. *)
From S2P Require Import Prelude.

(** ** Definitions *)

Inductive status := Init | Running | Suspend | Done | Fail.

#[export] Instance status_eq_dec : EqDecision status.
Proof. solve_decision. Defined.

Record promise := Promise {
  caller : option Z;
  self_scheduler : option Z;
  has_error_handler : bool;
  no_yield : bool;
  _status : status
}.

(** The member initialisers. *)
Definition promise_new : promise := Promise None None false false Init.

Abbreviation promises := (gmap Z promise).
Abbreviation P := (K promises).

(** Reading through a pointer that is not a live promise traps. *)
Definition the (p : Z) : P promise := fun m =>
  match m !! p with
  | Some x => Ret x m
  | None => Panic
  end.

Definition set_status (p : Z) (st : status) : P unit :=
  kmodify (alter (fun x => Promise (caller x) (self_scheduler x) (has_error_handler x) (no_yield x) st) p).
Definition set_caller (p : Z) (c : option Z) : P unit :=
  kmodify (alter (fun x => Promise c (self_scheduler x) (has_error_handler x) (no_yield x) (_status x)) p).
Definition set_scheduler (p : Z) (s : option Z) : P unit :=
  kmodify (alter (fun x => Promise (caller x) s (has_error_handler x) (no_yield x) (_status x)) p).
Definition set_handler (p : Z) (b : bool) : P unit :=
  kmodify (alter (fun x => Promise (caller x) (self_scheduler x) b (no_yield x) (_status x)) p).
Definition set_no_yield (p : Z) (b : bool) : P unit :=
  kmodify (alter (fun x => Promise (caller x) (self_scheduler x) (has_error_handler x) b (_status x)) p).

(** [promise_base::~promise_base]. *)
Definition destroy (p : Z) : P unit :=
  x <- the p ;;
  if bool_decide (_status x = Init) then kpanic else kmodify (delete p).

(** The loop climbs the callers: [fuel] bounds its rounds. *)
Fixpoint coroutine_handle_fail (fuel : nat) (curr : Z) : P Z :=
  match fuel with
  | O => kfuel
  | S fuel' =>
      x <- the curr ;;
      match caller x with
      | None => kpanic
      | Some c =>
          if has_error_handler x then set_status curr Fail ;;; kret c
          else coroutine_handle_fail fuel' c
      end
  end.

(** [yield_awaiter::await_suspend], run when [t] yields a value or ends. *)
Definition yield_await_suspend (fuel : nat) (t : Z) : P (option Z) :=
  x <- the t ;;
  if bool_decide (_status x = Fail) then h <- coroutine_handle_fail fuel t ;; kret (Some h)
  else
    match caller x with
    | Some c => kret (Some c)
    | None =>
        (if bool_decide (_status x <> Suspend) then destroy t else kret tt) ;;;
        kret None
    end.

(** [co_return task_ok] or a value, [co_return task_fail], [co_yield]: set
    the status, then the awaiter. *)
Definition return_ok (fuel : nat) (t : Z) : P (option Z) :=
  set_status t Done ;;; yield_await_suspend fuel t.
Definition return_fail (fuel : nat) (t : Z) : P (option Z) :=
  set_status t Fail ;;; yield_await_suspend fuel t.
Definition yield_value (fuel : nat) (t : Z) : P (option Z) :=
  set_status t Suspend ;;; yield_await_suspend fuel t.

(** [task_awaiter::await_suspend]: [caller_promise] awaits [p]. *)
Definition task_await_suspend (fuel : nat) (alloc_fail : bool) (p caller_promise : Z) : P Z :=
  if alloc_fail then set_status caller_promise Fail ;;; coroutine_handle_fail fuel caller_promise
  else
    x <- the p ;;
    y <- the caller_promise ;;
    (match self_scheduler x with
     | None => set_scheduler p (self_scheduler y)
     | Some _ => kret tt
     end) ;;;
    (if negb (no_yield x) then set_no_yield p (no_yield y) else kret tt) ;;;
    set_caller p (Some caller_promise) ;;;
    set_status p Running ;;;
    kret p.

(** [task_awaiter::await_resume]: whether the awaited task left a result. *)
Definition task_await_resume (alloc_fail : bool) (p : Z) : P bool :=
  if alloc_fail then kret false
  else x <- the p ;; kret (bool_decide (_status x <> Fail)).

(** ** The scheduler's state *)

(** [rq] is the task queue; [cores] says which coroutine a core runs;
    [sleeping] are the coroutines parked in wait queues or sleep lists;
    [execs] gives the argument of the task executors that have not run yet. *)
Record cstate := CState {
  proms : promises;
  rq : list Z;
  cores : gmap Z Z;
  sleeping : gset Z;
  execs : gmap Z Z
}.

Definition with_proms (s : cstate) (m : promises) : cstate := CState m (rq s) (cores s) (sleeping s) (execs s).

(** [task_queue::push] and [try_pop]. *)
Definition task_push (p : Z) (s : cstate) : cstate :=
  CState (proms s) (rq s ++ [p]) (cores s) (sleeping s) (execs s).
Definition task_try_pop (s : cstate) : option Z * cstate :=
  match rq s with
  | [] => (None, s)
  | p :: q => (Some p, CState (proms s) q (cores s) (sleeping s) (execs s))
  end.

(** [task_scheduler::__schedule] of scheduler [sched]. *)
Definition __schedule (sched : Z) (h : Z) : K cstate unit := fun s =>
  match set_scheduler h (Some sched) (proms s) with
  | Ret _ m => Ret tt (task_push h (with_proms s m))
  | TaskFail _ | Panic => Panic
  | OutOfFuel => OutOfFuel
  end.

(** [task_scheduler::schedule]: a coroutine without a caller is wrapped in a
    task executor, a new coroutine at the address [e]. *)
Definition schedule (sched : Z) (e h : Z) : K cstate unit := fun s =>
  match proms s !! h with
  | None => Panic
  | Some x =>
      match caller x with
      | None =>
          __schedule sched e
            (CState (<[e := promise_new]> (proms s)) (rq s) (cores s) (sleeping s) (<[e := h]> (execs s)))
      | Some _ => __schedule sched h s
      end
  end.

(** [task_base::wake_up]. *)
Definition wake_up (p : Z) : K cstate unit := fun s =>
  match proms s !! p with
  | None => Panic
  | Some x =>
      match self_scheduler x with
      | Some sched => __schedule sched p s
      | None => Ret tt (task_push p s)
      end
  end.

(** One round of [task_scheduler::start] on an idle core: [try_pop], then
    [resume]. *)
Definition start_round (core : Z) : K cstate bool := fun s =>
  match task_try_pop s with
  | (None, s') => Ret false s'
  | (Some t, s') =>
      match set_status t Running (proms s') with
      | Ret _ m => Ret true (CState m (rq s') (<[core := t]> (cores s')) (sleeping s') (execs s'))
      | TaskFail _ | Panic => Panic
      | OutOfFuel => OutOfFuel
      end
  end.

(** [this_scheduler_t::await_suspend], run by [t]. *)
Definition this_scheduler_suspend (e t : Z) : K cstate (option Z) := fun s =>
  match proms s !! t with
  | None => Panic
  | Some x =>
      if no_yield x then Ret (Some t) s
      else
        match self_scheduler x with
        | None => Ret (Some t) s
        | Some sched =>
            if bool_decide (rq s = []) then Ret (Some t) s
            else (schedule sched e t ;;; kret None) s
        end
  end.

(** Where control goes after an awaiter ran on [core]. *)
Definition transfer (core : Z) (h : option Z) (m : promises) (s : cstate) : cstate :=
  CState m (rq s) (match h with Some t => <[core := t]> (cores s) | None => delete core (cores s) end)
    (sleeping s) (execs s).

(** A coroutine that was created and has not been awaited or scheduled. *)
Definition fresh_task (s : cstate) (p : Z) : Prop :=
  exists x, proms s !! p = Some x /\ caller x = None /\ _status x = Init /\
    execs s !! p = None /\ (forall e, execs s !! e <> Some p).

(** A generator that yielded a value may be awaited again. *)
Definition awaitable (s : cstate) (p : Z) : Prop :=
  fresh_task s p \/ exists x, proms s !! p = Some x /\ _status x = Suspend.

(** What the cores do, in any order.  [co_destroy] is [~task] of a caller that
    has consumed the result. *)
Inductive co_step : cstate -> cstate -> Prop :=
| co_create s p :
    proms s !! p = None -> (forall e, execs s !! e <> Some p) ->
    co_step s (with_proms s (<[p := promise_new]> (proms s)))
| co_configure s p b1 b2 m1 m2 :
    fresh_task s p -> set_handler p b1 (proms s) = Ret tt m1 -> set_no_yield p b2 m1 = Ret tt m2 ->
    co_step s (with_proms s m2)
| co_push_task s s' sched e p :
    fresh_task s p -> proms s !! e = None -> execs s !! e = None -> (forall e', execs s !! e' <> Some e) ->
    schedule sched e p s = Ret tt s' -> co_step s s'
| co_start s s' core :
    cores s !! core = None -> start_round core s = Ret true s' -> co_step s s'
| co_executor s core e p m1 m2 h :
    cores s !! core = Some e -> execs s !! e = Some p ->
    set_handler p true (proms s) = Ret tt m1 -> task_await_suspend 0 false p e m1 = Ret h m2 ->
    co_step s (CState m2 (rq s) (<[core := h]> (cores s)) (sleeping s) (delete e (execs s)))
| co_await s core t y p m h :
    cores s !! core = Some t -> execs s !! t = None -> proms s !! t = Some y -> is_Some (caller y) ->
    awaitable s p ->
    task_await_suspend 0 false p t (proms s) = Ret h m ->
    co_step s (transfer core (Some h) m s)
| co_sleep s core t x :
    cores s !! core = Some t -> execs s !! t = None -> proms s !! t = Some x -> no_yield x = false ->
    co_step s (CState (proms s) (rq s) (delete core (cores s)) ({[t]} ∪ sleeping s) (execs s))
| co_wake s s' t :
    t ∈ sleeping s ->
    wake_up t (CState (proms s) (rq s) (cores s) (sleeping s ∖ {[t]}) (execs s)) = Ret tt s' ->
    co_step s s'
| co_yield s s' core t x e h :
    cores s !! core = Some t -> execs s !! t = None -> proms s !! t = Some x -> is_Some (caller x) ->
    this_scheduler_suspend e t s = Ret h s' ->
    co_step s (transfer core h (proms s') s')
| co_destroy s p x m :
    proms s !! p = Some x -> _status x = Done \/ _status x = Fail \/ _status x = Suspend ->
    destroy p (proms s) = Ret tt m ->
    co_step s (with_proms s m)
| co_return s core t m h fuel :
    cores s !! core = Some t -> execs s !! t = None ->
    return_ok fuel t (proms s) = Ret h m ->
    co_step s (transfer core h m s)
| co_yield_value s core t x m h fuel :
    cores s !! core = Some t -> execs s !! t = None -> proms s !! t = Some x -> is_Some (caller x) ->
    yield_value fuel t (proms s) = Ret h m ->
    co_step s (transfer core h m s)
| co_fail s core t x m h fuel :
    cores s !! core = Some t -> execs s !! t = None -> proms s !! t = Some x -> is_Some (caller x) ->
    return_fail fuel t (proms s) = Ret h m ->
    co_step s (transfer core h m s).

Definition co_start_state : cstate := CState ∅ [] ∅ ∅ ∅.

(** ** The invariant: call stacks

    The coroutines that can run are the leaves of chains of callers, each
    ending in a task executor: a chain is the call stack of one task. *)

(** A member of a chain has run, or is an executor about to. *)
Definition active (s : cstate) (x : Z) (pr : promise) : Prop :=
  proms s !! x = Some pr /\ (_status pr = Running \/ (_status pr = Init /\ is_Some (execs s !! x))).

Fixpoint chain_ok (s : cstate) (c : list Z) : Prop :=
  match c with
  | [] => False
  | [e] => exists pr, active s e pr /\ caller pr = None
  | x :: (y :: r) as c' =>
      (exists pr, active s x pr /\ caller pr = Some y /\ execs s !! x = None /\
        (r = [] -> has_error_handler pr = true)) /\ chain_ok s c'
  end.

(** Where coroutines wait for a core, or have one. *)
Definition places (s : cstate) : list Z :=
  rq s ++ (map_to_list (cores s)).*2 ++ elements (sleeping s).

Definition leaves (C : list (list Z)) : list Z := hd 0 <$> C.

(** The argument of an executor is not in use. *)
Definition pending (s : cstate) (p : Z) : Prop :=
  exists x, proms s !! p = Some x /\ caller x = None /\ _status x = Init /\ execs s !! p = None.

Record co_inv (s : cstate) (C : list (list Z)) : Prop := {
  ci_nodup : NoDup (concat C);
  ci_chain : Forall (chain_ok s) C;
  ci_place : places s ≡ₚ leaves C;
  ci_exec : forall e p, execs s !! e = Some p -> [e] ∈ C /\ pending s p;
  ci_inj : forall e e' p, execs s !! e = Some p -> execs s !! e' = Some p -> e = e';
  ci_core : forall core t, cores s !! core = Some t ->
    exists pr, proms s !! t = Some pr /\ _status pr = Running
}.

Lemma chain_ok_agree s s' c :
  (forall x, x ∈ c -> proms s' !! x = proms s !! x /\ execs s' !! x = execs s !! x) ->
  chain_ok s c -> chain_ok s' c.
Proof.
  unfold active. induction c as [|x c IH]; intros Hag; [done|]. destruct c as [|y r].
  - intros (pr & [Hx Hs] & Hc). exists pr. unfold active. destruct (Hag x) as [-> ->]; [by left|]. done.
  - intros [(pr & [Hx Hs] & Hc & He & Hh) Hr]. split.
    + exists pr. unfold active. destruct (Hag x) as [-> ->]; [by left|]. done.
    + apply IH; [|done]. intros z Hz. apply Hag. by right.
Qed.

Lemma chain_active s c x : chain_ok s c -> x ∈ c -> exists pr, active s x pr.
Proof.
  induction c as [|y c IH]; intros Hc Hx; [done|]. destruct c as [|z r].
  - destruct Hc as (pr & Ha & _). apply list_elem_of_singleton in Hx as ->. eauto.
  - destruct Hc as [(pr & Ha & _) Hr]. apply elem_of_cons in Hx as [->|Hx]; eauto.
Qed.

Lemma co_inv_perm s C C' : C ≡ₚ C' -> co_inv s C -> co_inv s C'.
Proof.
  intros HC [H1 H2 H3 H4 H5 H6]. split; [| | | |done|done].
  - by rewrite <- HC.
  - by rewrite <- HC.
  - unfold leaves in *. by rewrite <- HC.
  - intros e p He. destruct (H4 e p He). split; [by rewrite <- HC|done].
Qed.

(** The chain of a coroutine that has a place comes first. *)
Lemma co_inv_pick s C t :
  co_inv s C -> t ∈ places s -> exists r C0, co_inv s ((t :: r) :: C0).
Proof.
  intros Hinv Ht. rewrite (ci_place _ _ Hinv) in Ht. apply list_elem_of_fmap in Ht as (c & -> & Hc).
  pose proof (ci_chain _ _ Hinv) as Hch. rewrite Forall_forall in Hch. pose proof (Hch c Hc) as Hcc.
  destruct c as [|t r]; [done|]. exists r.
  apply elem_of_Permutation in Hc as [C0 HC]. exists C0. by apply (co_inv_perm s C).
Qed.

Lemma elem_of_concat (C : list (list Z)) x : x ∈ concat C <-> exists c, c ∈ C /\ x ∈ c.
Proof.
  rewrite list_elem_of_In, in_concat. split; intros (c & H1 & H2); exists c;
    rewrite !list_elem_of_In in *; done.
Qed.

Lemma member_active s C x : co_inv s C -> x ∈ concat C -> exists pr, active s x pr.
Proof.
  intros Hinv (c & Hc & Hx)%elem_of_concat. pose proof (ci_chain _ _ Hinv) as Hch.
  rewrite Forall_forall in Hch. eapply chain_active; eauto.
Qed.

(** Coroutines that were not started, or wait as generators, are in no
    chain. *)
Lemma idle_not_member s C p x :
  co_inv s C -> proms s !! p = Some x -> _status x <> Running -> execs s !! p = None -> p ∉ concat C.
Proof.
  intros Hinv Hp Hst Hex Hin. destruct (member_active s C p Hinv Hin) as (pr & Hpr & Ha).
  simplify_eq. destruct Ha as [|[_ [? ?]]]; congruence.
Qed.

Lemma exec_not_suspended s C p x :
  co_inv s C -> proms s !! p = Some x -> _status x = Suspend -> execs s !! p = None.
Proof.
  intros Hinv Hp Hst. destruct (execs s !! p) as [q|] eqn:He; [|done]. exfalso.
  destruct (ci_exec _ _ Hinv p q He) as [Hc _].
  destruct (member_active s C p Hinv) as (pr & Hpr & Ha).
  { apply elem_of_concat. exists [p]. split; [done|by left]. }
  simplify_eq. destruct Ha as [|[? _]]; congruence.
Qed.

(** Replacing the chains [R] by [D] (one chain or none each). *)
Lemma co_inv_replace s s' R C0 D :
  co_inv s (R ++ C0) ->
  NoDup (concat D) -> Forall (chain_ok s') D ->
  (forall x, x ∈ concat D -> x ∈ concat R \/ x ∉ concat C0) ->
  (forall x, x ∈ concat C0 -> proms s' !! x = proms s !! x /\ execs s' !! x = execs s !! x) ->
  places s' ≡ₚ leaves D ++ leaves C0 ->
  (forall e p, execs s' !! e = Some p ->
    (execs s !! e = Some p /\ ([e] ∈ C0 \/ [e] ∈ D) /\ proms s' !! p = proms s !! p /\ execs s' !! p = execs s !! p) \/
    ([e] ∈ D /\ pending s' p /\ forall e', execs s !! e' <> Some p)) ->
  (forall e e', [e] ∈ D -> [e'] ∈ D -> e = e') ->
  (forall core t, cores s' !! core = Some t ->
    (exists pr, proms s' !! t = Some pr /\ _status pr = Running) \/
    (cores s !! core = Some t /\ proms s' !! t = proms s !! t)) ->
  co_inv s' (D ++ C0).
Proof.
  intros [H1 H2 H3 H4 H5 H6] Hnd Hch Hnew Hfr Hpl Hex Hone Hrun. rewrite concat_app in H1.
  apply NoDup_app in H1 as (Hc & Hdis & Hnd0). apply Forall_app in H2 as [_ Hch0].
  assert (forall x, x ∈ concat D -> x ∉ concat C0) as HD.
  { intros x Hx. destruct (Hnew x Hx) as [Hin|]; [by apply Hdis|done]. }
  split.
  - rewrite concat_app. apply NoDup_app. split_and!; [done|apply HD|done].
  - apply Forall_app. split; [done|]. rewrite Forall_forall in *. intros d Hd.
    eapply chain_ok_agree; [|by apply Hch0]. intros x Hx. apply Hfr, elem_of_concat. eauto.
  - rewrite Hpl. unfold leaves. by rewrite fmap_app.
  - intros e p He. destruct (Hex e p He) as [(He0 & Hin & Hp1 & Hp2)|(Hin & Hp & _)].
    + split; [set_solver|]. destruct (H4 e p He0) as [_ (x & Hx & ? & ? & Hxe)]. exists x.
      rewrite Hp1, Hp2. done.
    + split; [set_solver|done].
  - intros e e' p He He'. destruct (Hex e p He) as [(He0 & _)|(Hin & _ & Hno)],
      (Hex e' p He') as [(He0' & _)|(Hin' & _ & Hno')].
    + by apply (H5 e e' p).
    + by destruct (Hno' e).
    + by destruct (Hno e').
    + by apply Hone.
  - intros core t Hct. destruct (Hrun core t Hct) as [|[Hct0 Heq]]; [done|].
    destruct (H6 core t Hct0) as (pr & ? & ?). exists pr. by rewrite Heq.
Qed.

(** ** Places *)

Lemma places_core s core t :
  cores s !! core = Some t ->
  places s ≡ₚ t :: rq s ++ (map_to_list (delete core (cores s))).*2 ++ elements (sleeping s).
Proof.
  intros Hc. unfold places. rewrite <- (insert_delete_id (cores s) core t Hc) at 1.
  rewrite map_to_list_insert by apply lookup_delete_eq. rewrite fmap_cons. cbn [snd].
  rewrite <- app_comm_cons. by rewrite <- Permutation_middle.
Qed.

Lemma places_set_core (m : gmap Z Z) core t :
  (map_to_list (<[core := t]> m)).*2 ≡ₚ t :: (map_to_list (delete core m)).*2.
Proof.
  rewrite <- insert_delete_eq, map_to_list_insert by apply lookup_delete_eq. by rewrite fmap_cons.
Qed.

(** What a coroutine on a core leaves behind in the other places. *)
Lemma rest_places s core t r C0 :
  co_inv s ((t :: r) :: C0) -> cores s !! core = Some t ->
  rq s ++ (map_to_list (delete core (cores s))).*2 ++ elements (sleeping s) ≡ₚ leaves C0.
Proof.
  intros Hinv Hc. pose proof (ci_place _ _ Hinv) as Hp. rewrite (places_core s core t Hc) in Hp.
  unfold leaves in Hp. rewrite fmap_cons in Hp. cbn [hd] in Hp. by apply (Permutation_cons_inv Hp).
Qed.

Lemma core_in_places s core t : cores s !! core = Some t -> t ∈ places s.
Proof. intros Hc. rewrite (places_core s core t Hc). by left. Qed.

(** A coroutine has one place only. *)
Lemma places_nodup s C : co_inv s C -> NoDup (places s).
Proof.
  intros Hinv. rewrite (ci_place _ _ Hinv). pose proof (ci_nodup _ _ Hinv) as Hnd.
  pose proof (ci_chain _ _ Hinv) as Hch. clear Hinv. induction C as [|c C IH]; [constructor|].
  cbn [concat] in Hnd. apply NoDup_app in Hnd as (Hc & Hdis & Hnd). inversion Hch as [|?? Hcc Hch']; subst.
  unfold leaves. rewrite fmap_cons. constructor; [|by apply IH].
  intros (d & Hd & Hin)%list_elem_of_fmap. destruct c as [|x c]; [done|]. cbn [hd] in Hd.
  apply (Hdis x); [by left|]. apply elem_of_concat. exists d. split; [done|].
  rewrite Forall_forall in Hch'. specialize (Hch' d Hin). destruct d as [|y d]; [done|]. cbn [hd] in Hd.
  subst. by left.
Qed.

(** ** Effects of the awaiters *)

Lemma await_eq fuel p t x y m h m' :
  m !! p = Some x -> m !! t = Some y ->
  task_await_suspend fuel false p t m = Ret h m' ->
  h = p /\ exists sch ny, m' = <[p := Promise (Some t) sch (has_error_handler x) ny Running]> m.
Proof.
  intros Hp Ht. unfold task_await_suspend, kbind, the. rewrite Hp, Ht.
  destruct (self_scheduler x) as [sc|] eqn:Es, (no_yield x) eqn:En; cbn [negb];
    unfold set_scheduler, set_no_yield, set_caller, set_status, kmodify, kret; intros [= <- <-];
    (split; [done|]);
    rewrite ?(alter_at _ p x m Hp); rewrite ?(alter_at _ p _ _ (lookup_insert_eq _ _ _));
    rewrite ?insert_insert_eq; cbn [self_scheduler has_error_handler no_yield]; eauto.
Qed.

(** The caller pointers of [m] follow the chain [c]. *)
Fixpoint linked_callers (m : promises) (c : list Z) : Prop :=
  match c with
  | [] => True
  | [e] => exists x, m !! e = Some x /\ caller x = None
  | a :: (b :: _) as c' => (exists x, m !! a = Some x /\ caller x = Some b) /\ linked_callers m c'
  end.

(** Unwinding: the first coroutine of the chain with an error handler, and
    the rest of the chain, which handles the error. *)
Fixpoint unwind (m : promises) (c : list Z) : option (Z * Z * list Z) :=
  match c with
  | a :: (b :: r) as c' =>
      if from_option has_error_handler false (m !! a) then Some (a, b, r) else unwind m c'
  | _ => None
  end.

Definition handles (m : promises) (x : Z) : bool := from_option has_error_handler false (m !! x).

Lemma unwind_nearest m c a b r :
  unwind m c = Some (a, b, r) ->
  exists pre, c = pre ++ a :: b :: r /\ (forall x, x ∈ pre -> handles m x = false) /\ handles m a = true.
Proof.
  induction c as [|x c IH]; [done|]. destruct c as [|y c]; [done|]. cbn [unwind].
  fold (handles m x). destruct (handles m x) eqn:Hx.
  - intros [= <- <- <-]. exists []. split_and!; [done|by intros z []%elem_of_nil|done].
  - intros Hu. destruct (IH Hu) as (pre & -> & Hpre & Ha). exists (x :: pre). split_and!; [done| |done].
    intros z [->|Hz]%elem_of_cons; [done|by apply Hpre].
Qed.

Lemma handle_fail_spec m c curr fuel :
  linked_callers m (curr :: c) -> (length c < fuel)%nat ->
  coroutine_handle_fail fuel curr m =
  match unwind m (curr :: c) with
  | Some (a, b, _) =>
      Ret b (alter (fun x => Promise (caller x) (self_scheduler x) (has_error_handler x) (no_yield x) Fail) a m)
  | None => Panic
  end.
Proof.
  revert curr fuel. induction c as [|b c IH]; intros curr fuel Hl Hf;
    (destruct fuel as [|fuel]; [lia|]); cbn [coroutine_handle_fail]; unfold kbind, the.
  - destruct Hl as (x & -> & Hc). by rewrite Hc.
  - destruct Hl as [(x & Hx & Hc) Hl]. rewrite Hx, Hc. cbn [unwind]. rewrite Hx. cbn [from_option].
    destruct (has_error_handler x); [done|]. apply IH; [done|]. cbn [length] in Hf. lia.
Qed.

(** [coroutine_handle_fail] terminates on every finite chain of callers.  It
    marks the nearest coroutine with an error handler as failed, leaves every
    other promise alone and resumes that coroutine's caller; it panics exactly
    when no coroutine below the top has a handler. *)
Theorem handle_fail_correct m c curr :
  linked_callers m (curr :: c) ->
  (exists a b r m', unwind m (curr :: c) = Some (a, b, r) /\
     coroutine_handle_fail (length (curr :: c)) curr m = Ret b m' /\
     (exists x, m' !! a = Some x /\ _status x = Fail) /\
     (forall q, q <> a -> m' !! q = m !! q)) \/
  ((forall a, a ∈ removelast (curr :: c) -> from_option has_error_handler false (m !! a) = false) /\
   coroutine_handle_fail (length (curr :: c)) curr m = Panic).
Proof.
  intros Hl. pose proof (handle_fail_spec m c curr (length (curr :: c)) Hl ltac:(cbn [length]; lia)) as Hrun.
  destruct (unwind m (curr :: c)) as [[[a b] r]|] eqn:Hu.
  - left. eexists a, b, r, _. split_and!; [done|exact Hrun| |].
    + assert (is_Some (m !! a)) as [x Hx].
      { clear Hrun Hl. revert curr Hu. induction c as [|d c IH]; intros curr; cbn [unwind]; [done|].
        destruct (m !! curr) eqn:E; cbn [from_option].
        - case_match; [intros; by simplify_eq; rewrite E|apply IH].
        - apply IH. }
      rewrite lookup_alter_eq, Hx. cbn. eauto.
    + intros q Hq. by rewrite lookup_alter_ne.
  - right. split; [|exact Hrun]. clear Hrun Hl. revert curr Hu. induction c as [|d c IH]; intros curr;
      [by intros _ a []%elem_of_nil|].
    cbn [unwind]. case_match eqn:E; [done|]. intros Hu a.
    change (removelast (curr :: d :: c)) with (curr :: removelast (d :: c)).
    intros [->|Ha]%elem_of_cons; [done|]. by apply (IH d).
Qed.

(** ** Every step keeps the invariant *)

(** Changes to coroutines outside the chains that no executor waits for. *)
Lemma co_inv_frame s C m' :
  co_inv s C -> (forall x, x ∈ concat C -> m' !! x = proms s !! x) ->
  (forall e p, execs s !! e = Some p -> m' !! p = proms s !! p) ->
  co_inv (with_proms s m') C.
Proof.
  intros Hinv Hm He. pose proof (core_in_places s) as Hcp.
  apply (co_inv_replace s (with_proms s m') [] C [] Hinv).
  - constructor.
  - constructor.
  - by intros x Hx%elem_of_nil.
  - intros x Hx. cbn [proms execs with_proms]. split; [by apply Hm|done].
  - apply (ci_place _ _ Hinv).
  - intros e p Hep. left. destruct (ci_exec _ _ Hinv e p Hep) as [Hin _].
    split_and!; [done|by left|by eapply He|done].
  - by intros e e' He1%elem_of_nil.
  - intros core t Hct. right. split; [done|]. apply Hm.
    destruct (co_inv_pick s C t Hinv (Hcp core t Hct)) as (r & C0 & Hinv').
    assert (t ∈ leaves C) as Hl by (rewrite <- (ci_place _ _ Hinv); by eapply Hcp).
    apply list_elem_of_fmap in Hl as (c & -> & Hc). apply elem_of_concat. exists c. split; [done|].
    pose proof (ci_chain _ _ Hinv) as Hch. rewrite Forall_forall in Hch. specialize (Hch c Hc).
    destruct c; [done|by left].
Qed.

Lemma leaf_facts s t r C0 :
  co_inv s ((t :: r) :: C0) ->
  NoDup (t :: r) /\ (forall x, x ∈ t :: r -> x ∉ concat C0) /\ NoDup (concat C0) /\ chain_ok s (t :: r) /\
  (forall e p, execs s !! e = Some p -> e = t /\ r = [] \/ [e] ∈ C0).
Proof.
  intros [H1 H2 _ H4 _ _]. cbn [concat] in H1. apply NoDup_app in H1 as (Hc & Hdis & Hnd).
  inversion H2; subst. split_and!; try done. intros e p He.
  destruct (H4 e p He) as [[Heq|Hin]%elem_of_cons _]; [left|by right]. by injection Heq as -> ->.
Qed.

(** A leaf that changes places without changing its chain. *)
Lemma co_inv_same_chain s s' t r C0 :
  co_inv s ((t :: r) :: C0) -> chain_ok s' (t :: r) ->
  (forall x, x <> t -> proms s' !! x = proms s !! x) -> execs s' = execs s ->
  places s' ≡ₚ t :: leaves C0 ->
  (forall core t', cores s' !! core = Some t' ->
    (exists pr, proms s' !! t' = Some pr /\ _status pr = Running) \/
    (cores s !! core = Some t' /\ proms s' !! t' = proms s !! t')) ->
  co_inv s' ((t :: r) :: C0).
Proof.
  intros Hinv Hch Hpr Hex Hpl Hrun. destruct (leaf_facts _ _ _ _ Hinv) as (Hnd & Hdis & Hnd0 & _ & Hexe).
  apply (co_inv_replace s s' [t :: r] C0 [t :: r] Hinv).
  - cbn [concat]. by rewrite app_nil_r.
  - by repeat constructor.
  - cbn [concat]. rewrite app_nil_r. by left.
  - intros x Hx. rewrite Hex. split; [|done]. apply Hpr. intros ->. apply (Hdis t); [by left|done].
  - done.
  - intros e p He. rewrite Hex in *. left. split_and!; [done| | |done].
    + destruct (Hexe e p He) as [[-> ->]|]; [right; by left|by left].
    + apply Hpr. intros ->. destruct (ci_exec _ _ Hinv e t He) as [_ (x & Hx & Hc & Hst & Hxe)].
      eapply (idle_not_member s _ t x); [done|done|congruence|done|]. cbn [concat]. by left.
  - intros e e' [= -> ->]%list_elem_of_singleton [= -> ]%list_elem_of_singleton. done.
  - done.
Qed.

Lemma co_start_inv s s' core C :
  co_inv s C -> cores s !! core = None -> start_round core s = Ret true s' -> exists C', co_inv s' C'.
Proof.
  intros Hinv Hc. unfold start_round, task_try_pop. destruct (rq s) as [|t q] eqn:Hq; [done|].
  unfold set_status, kmodify. cbn [proms cores sleeping execs rq]. intros [= <-].
  assert (t ∈ places s) as Ht by (unfold places; rewrite Hq; by left).
  destruct (co_inv_pick s C t Hinv Ht) as (r & C0 & Hinv'). exists ((t :: r) :: C0).
  destruct (leaf_facts _ _ _ _ Hinv') as (Hnd & Hdis & _ & Hch & _).
  assert (exists pr, proms s !! t = Some pr) as [pr Hpr].
  { destruct (chain_active _ _ t Hch) as (pr & Hpr & _); [by left|]. eauto. }
  rewrite (alter_at _ _ _ _ Hpr). apply (co_inv_same_chain s _ t r C0 Hinv'); cbn [proms execs rq cores sleeping].
  - apply NoDup_cons in Hnd as [Htr _]. destruct r as [|y r].
    + destruct Hch as (pr' & [Hpr' _] & Hca). simplify_eq. eexists. unfold active. cbn [proms execs].
      rewrite lookup_insert_eq. split; [split; [done|by left]|done].
    + destruct Hch as [(pr' & [Hpr' _] & Hca & He & Hh) Hch]. simplify_eq. split.
      * eexists. unfold active. cbn [proms execs]. rewrite lookup_insert_eq.
        split_and!; [done|by left|done|done|done].
      * eapply chain_ok_agree; [|done]. intros x Hx. cbn [proms execs].
        rewrite lookup_insert_ne by set_solver. done.
  - intros x Hx. by rewrite lookup_insert_ne.
  - done.
  - unfold places. cbn [rq cores sleeping]. rewrite map_to_list_insert by done. rewrite fmap_cons. cbn [snd].
    rewrite <- app_comm_cons, <- Permutation_middle.
    pose proof (ci_place _ _ Hinv') as Hp. unfold places, leaves in Hp. rewrite Hq, fmap_cons in Hp.
    exact Hp.
  - intros core' t'. rewrite lookup_insert_Some. intros [[<- <-]|[Hne Hct]].
    + left. rewrite lookup_insert_eq. eauto.
    + right. split; [done|]. rewrite lookup_insert_ne; [done|]. intros ->.
      pose proof (places_nodup _ _ Hinv) as Hndp. unfold places in Hndp. rewrite Hq in Hndp.
      cbn [app] in Hndp. apply NoDup_cons in Hndp as [Hnin _]. apply Hnin.
      apply elem_of_app. right. apply elem_of_app. left. apply list_elem_of_fmap. exists (core', t').
      split; [done|]. by apply elem_of_map_to_list.
Qed.

Lemma chain_suffix s pre y r : chain_ok s (pre ++ y :: r) -> chain_ok s (y :: r).
Proof.
  induction pre as [|x pre IH]; [done|]. intros Hc. apply IH. cbn [app] in Hc.
  destruct (pre ++ y :: r) eqn:E; [by destruct pre|]. by destruct Hc.
Qed.

Lemma leaf_member s C t : co_inv s C -> t ∈ leaves C -> t ∈ concat C.
Proof.
  intros Hinv (c & -> & Hc)%list_elem_of_fmap. apply elem_of_concat. exists c. split; [done|].
  pose proof (ci_chain _ _ Hinv) as Hall. rewrite Forall_forall in Hall. specialize (Hall c Hc).
  destruct c; [done|by left].
Qed.

(** The coroutine on another core is in another chain. *)
Lemma other_core_member s core core' t t' r C0 :
  co_inv s ((t :: r) :: C0) -> cores s !! core = Some t -> cores s !! core' = Some t' -> core' <> core ->
  t' ∈ concat C0.
Proof.
  intros Hinv Hct Hct' Hne.
  assert (t' ∈ leaves C0) as (c & -> & Hc)%list_elem_of_fmap.
  { rewrite <- (rest_places s core t r C0 Hinv Hct). apply elem_of_app. right. apply elem_of_app. left.
    apply list_elem_of_fmap. exists (core', t'). split; [done|]. apply elem_of_map_to_list.
    by rewrite lookup_delete_ne. }
  apply elem_of_concat. exists c. split; [done|]. pose proof (ci_chain _ _ Hinv) as Hall.
  inversion Hall as [|?? _ Hall0]; subst. rewrite Forall_forall in Hall0. specialize (Hall0 c Hc).
  destruct c; [done|by left].
Qed.

(** The leaf on a core hands control to [y] further up its chain; the part of
    the chain below [y] is given up. *)
Lemma co_inv_pop s core t pre y r C0 m' :
  co_inv s ((t :: pre ++ y :: r) :: C0) -> cores s !! core = Some t ->
  (forall x, x ∈ concat ((y :: r) :: C0) -> m' !! x = proms s !! x) ->
  (forall e p, execs s !! e = Some p -> m' !! p = proms s !! p) ->
  co_inv (transfer core (Some y) m' s) ((y :: r) :: C0).
Proof.
  intros Hinv Hct Hm He. destruct (leaf_facts _ _ _ _ Hinv) as (Hnd & Hdis & Hnd0 & Hch & Hexe).
  rewrite app_comm_cons in Hnd, Hch. pose proof (chain_suffix _ _ _ _ Hch) as Hchy.
  apply NoDup_app in Hnd as (_ & Hpre & Hnd).
  assert (forall x, x ∈ y :: r -> m' !! x = proms s !! x) as Hm1.
  { intros x Hx. apply Hm. cbn [concat]. set_solver. }
  apply (co_inv_replace s _ [t :: pre ++ y :: r] C0 [y :: r] Hinv); unfold transfer; cbn [proms execs cores].
  - cbn [concat]. by rewrite app_nil_r.
  - repeat constructor. eapply chain_ok_agree; [|done]. intros x Hx. cbn [proms execs]. split; [by apply Hm1|done].
  - cbn [concat]. rewrite !app_nil_r. set_solver.
  - intros x Hx. split; [|done]. apply Hm. cbn [concat]. set_solver.
  - unfold places. cbn [rq cores sleeping]. rewrite places_set_core, <- app_comm_cons, <- Permutation_middle.
    cbn [leaves fmap list_fmap hd app]. constructor. by apply (rest_places s core t (pre ++ y :: r)).
  - intros e p Hep. left. split_and!; [done| |by eapply He|done].
    destruct (Hexe e p Hep) as [[_ Hr]|]; [by destruct pre|by left].
  - intros e e' [= -> ->]%list_elem_of_singleton [= -> ]%list_elem_of_singleton. done.
  - intros core' t'. rewrite lookup_insert_Some. intros [[<- <-]|[Hne Hct']].
    + left. destruct (chain_active _ _ y Hchy) as (py & Hpy & Hst); [by left|]. exists py.
      rewrite Hm1 by by left. split; [done|]. destruct Hst as [|[_ [p Hp]]]; [done|].
      destruct (Hexe y p Hp) as [[-> Hr]|Hin]; [by destruct pre|]. exfalso. apply (Hdis y); [set_solver|].
      apply elem_of_concat. exists [y]. split; [done|by left].
    + right. split; [done|]. apply Hm. cbn [concat]. apply elem_of_app. right.
      by apply (other_core_member s core core' t t' (pre ++ y :: r) C0).
Qed.

(** An argument of an executor is outside the chains. *)
Lemma exec_arg_not_member s C e p : co_inv s C -> execs s !! e = Some p -> p ∉ concat C.
Proof.
  intros Hinv He. destruct (ci_exec _ _ Hinv e p He) as [_ (x & Hx & _ & Hst & Hex)].
  eapply idle_not_member; [done|done|congruence|done].
Qed.

Lemma core_chain s C core t :
  co_inv s C -> cores s !! core = Some t -> execs s !! t = None ->
  exists r C0 pr, co_inv s ((t :: r) :: C0) /\ proms s !! t = Some pr /\ caller pr = head r /\
    _status pr = Running.
Proof.
  intros Hinv Hct Hex. destruct (co_inv_pick s C t Hinv (core_in_places _ _ _ Hct)) as (r & C0 & Hinv').
  destruct (leaf_facts _ _ _ _ Hinv') as (_ & _ & _ & Hch & _).
  destruct (ci_core _ _ Hinv' core t Hct) as (pr & Hpr & Hst). exists r, C0, pr. split_and!; try done.
  destruct r as [|y r].
  - destruct Hch as (pr' & [Hpr' _] & Hc). by simplify_eq.
  - destruct Hch as [(pr' & [Hpr' _] & Hc & _) _]. by simplify_eq.
Qed.

Lemma co_return_inv s C core t m h fuel :
  co_inv s C -> cores s !! core = Some t -> execs s !! t = None ->
  return_ok fuel t (proms s) = Ret h m -> exists C', co_inv (transfer core h m s) C'.
Proof.
  intros Hinv Hct Hex. destruct (core_chain s C core t Hinv Hct Hex) as (r & C0 & pr & Hinv' & Hpr & Hcal & Hst).
  destruct (leaf_facts _ _ _ _ Hinv') as (Hnd & Hdis & Hnd0 & Hch & Hexe).
  apply NoDup_cons in Hnd as [Htr Hnd].
  assert (forall e p, execs s !! e = Some p -> p <> t) as Hnt.
  { intros e p He ->. apply (exec_arg_not_member s _ e t Hinv' He). cbn [concat]. by left. }
  unfold return_ok, yield_await_suspend, kbind, set_status, kmodify, the.
  rewrite (alter_at _ _ _ _ Hpr), lookup_insert_eq. cbn [_status caller]. rewrite Hcal.
  rewrite bool_decide_eq_false_2 by done. destruct r as [|y r]; cbn [head].
  - rewrite bool_decide_eq_true_2 by done. unfold destroy, kbind, the. rewrite lookup_insert_eq. cbn [_status].
    rewrite bool_decide_eq_false_2 by done. unfold kmodify, kret. intros [= <- <-]. exists C0.
    rewrite delete_insert_eq.
    apply (co_inv_replace s _ [[t]] C0 [] Hinv'); unfold transfer; cbn [proms execs cores].
    + constructor.
    + constructor.
    + by intros x Hx%elem_of_nil.
    + intros x Hx. split; [|done]. apply lookup_delete_ne. intros ->. apply (Hdis x); [by left|done].
    + unfold places. cbn [rq cores sleeping leaves fmap list_fmap app]. by apply (rest_places s core t []).
    + intros e p He. left. split_and!; [done| |apply lookup_delete_ne; by eapply not_eq_sym, Hnt|done].
      destruct (Hexe e p He) as [[-> _]|]; [congruence|by left].
    + by intros e e' He1%elem_of_nil.
    + intros core' t' [Hne Hct']%lookup_delete_Some. right. split; [done|]. apply lookup_delete_ne. intros ->.
      apply (Hdis t'); [by left|]. by apply (other_core_member s core core' t' t' [] C0).
  - unfold kret. intros [= <- <-]. eexists. apply (co_inv_pop s core t [] y r C0); [done|done| |].
    + intros x Hx. apply lookup_insert_ne. intros ->. cbn [concat] in Hx.
      apply elem_of_app in Hx as [|Hx]; [done|]. apply (Hdis x); [by left|done].
    + intros e p He. apply lookup_insert_ne. by eapply not_eq_sym, Hnt.
Qed.

Lemma co_yield_value_inv s C core t x m h fuel :
  co_inv s C -> cores s !! core = Some t -> execs s !! t = None -> proms s !! t = Some x -> is_Some (caller x) ->
  yield_value fuel t (proms s) = Ret h m -> exists C', co_inv (transfer core h m s) C'.
Proof.
  intros Hinv Hct Hex Hx [y Hy]. destruct (core_chain s C core t Hinv Hct Hex) as (r & C0 & pr & Hinv' & Hpr & Hcal & Hst).
  assert (x = pr) as -> by congruence. destruct (leaf_facts _ _ _ _ Hinv') as (Hnd & Hdis & Hnd0 & Hch & Hexe).
  apply NoDup_cons in Hnd as [Htr Hnd]. rewrite Hy in Hcal. destruct r as [|y' r]; [done|]. injection Hcal as <-.
  unfold yield_value, yield_await_suspend, kbind, set_status, kmodify, the, kret.
  rewrite (alter_at _ _ _ _ Hpr), lookup_insert_eq. cbn [_status caller]. rewrite Hy.
  rewrite bool_decide_eq_false_2 by done. intros [= <- <-]. eexists.
  apply (co_inv_pop s core t [] y r C0); [done|done| |].
  - intros z Hz. apply lookup_insert_ne. intros ->. cbn [concat] in Hz.
    apply elem_of_app in Hz as [|Hz]; [done|]. apply (Hdis z); [by left|done].
  - intros e p He. apply lookup_insert_ne. intros ->.
    apply (exec_arg_not_member s _ e p Hinv' He). cbn [concat]. by left.
Qed.

(** A chain with more than the executor unwinds: its second last coroutine
    has a handler. *)
Lemma chain_linked s c : chain_ok s c -> linked_callers (proms s) c.
Proof.
  induction c as [|x c IH]; [done|]. destruct c as [|y r].
  - intros (pr & [Hx _] & Hc). by exists pr.
  - intros [(pr & [Hx _] & Hc & _) Hr]. split; [by exists pr|by apply IH].
Qed.

Lemma chain_unwinds s c :
  chain_ok s c -> (1 < length c)%nat ->
  exists a b r, unwind (proms s) c = Some (a, b, r).
Proof.
  induction c as [|x c IH]; [done|]. destruct c as [|y r]; [cbn [length]; lia|].
  intros [(pr & [Hx _] & Hc & _ & Hh) Hr] _. cbn [unwind]. rewrite Hx. cbn [from_option].
  destruct (has_error_handler pr) eqn:E.
  - by exists x, y, r.
  - destruct r as [|z r]; [discriminate (Hh eq_refl)|]. apply IH; [done|cbn [length]; lia].
Qed.

Lemma unwind_agree m m' c :
  (forall x, x ∈ c -> from_option has_error_handler false (m' !! x) = from_option has_error_handler false (m !! x)) ->
  unwind m' c = unwind m c.
Proof.
  induction c as [|x c IH]; intros Hag; [done|]. destruct c as [|y r]; [done|].
  cbn [unwind]. rewrite Hag by (by left). case_match; [done|]. apply IH. intros z Hz. apply Hag. by right.
Qed.

Lemma linked_agree m m' c :
  (forall x, x ∈ c -> is_Some (m !! x) -> is_Some (m' !! x) /\ (caller <$> m' !! x) = (caller <$> m !! x)) ->
  linked_callers m c -> linked_callers m' c.
Proof.
  induction c as [|x c IH]; intros Hag; [done|].
  assert (forall pr, m !! x = Some pr -> exists pr', m' !! x = Some pr' /\ caller pr' = caller pr) as Hx.
  { intros pr Hpr. destruct (Hag x) as [[pr' Hpr'] Hc]; [by left|by rewrite Hpr|].
    exists pr'. rewrite Hpr, Hpr' in Hc. cbn in Hc. split; [done|congruence]. }
  destruct c as [|y r].
  - intros (pr & Hpr & Hc). destruct (Hx pr Hpr) as (pr' & ? & ?). exists pr'. split; [done|congruence].
  - intros [(pr & Hpr & Hc) Hr]. split.
    + destruct (Hx pr Hpr) as (pr' & ? & ?). exists pr'. split; [done|congruence].
    + apply IH; [|done]. intros z Hz. apply Hag. by right.
Qed.

(** Failing from a leaf: control goes to the caller of the nearest coroutine
    with a handler, that coroutine has failed, and besides only the leaf's status
    changes. *)
Lemma return_fail_spec s t r pr fuel :
  chain_ok s (t :: r) -> NoDup (t :: r) -> proms s !! t = Some pr -> is_Some (caller pr) -> (length r < fuel)%nat ->
  exists pre a b r' m', t :: r = pre ++ a :: b :: r' /\ return_fail fuel t (proms s) = Ret (Some b) m' /\
    (forall x, x ∈ pre -> handles (proms s) x = false) /\ handles (proms s) a = true /\
    (_status <$> m' !! a) = Some Fail /\
    forall x, x <> t -> x <> a -> m' !! x = proms s !! x.
Proof.
  intros Hch Hnd Hpr [y Hy] Hf.
  assert (1 < length (t :: r))%nat as Hlen.
  { destruct r as [|z r]; [|cbn [length]; lia]. destruct Hch as (pr' & [Hpr' _] & Hc). congruence. }
  destruct (chain_unwinds s _ Hch Hlen) as (a & b & r' & Hu).
  destruct (unwind_nearest _ _ _ _ _ Hu) as (pre & Heq & Hpre & Ha).
  assert (is_Some (proms s !! a)) as [pa Hpa] by (unfold handles in Ha; by destruct (proms s !! a)).
  unfold return_fail, yield_await_suspend, kbind, set_status, kmodify, the, kret.
  rewrite (alter_at _ _ _ _ Hpr), lookup_insert_eq. cbn [_status caller]. rewrite bool_decide_eq_true_2 by done.
  set (m1 := <[t := _]> (proms s)).
  assert (forall x, from_option has_error_handler false (m1 !! x) =
    from_option has_error_handler false (proms s !! x)) as Hh.
  { intros x. unfold m1. destruct (decide (x = t)) as [->|]; [by rewrite lookup_insert_eq, Hpr|by rewrite lookup_insert_ne]. }
  rewrite (handle_fail_spec m1 r t fuel); [|apply (linked_agree (proms s)); [|by apply chain_linked]|done].
  - rewrite (unwind_agree (proms s) m1) by (intros; apply Hh). rewrite Hu.
    eexists pre, a, b, r', _. split_and!; [done|done|done|done| |].
    + rewrite lookup_alter_eq. unfold m1. destruct (decide (a = t)) as [->|]; [by rewrite lookup_insert_eq|].
      by rewrite lookup_insert_ne, Hpa.
    + intros x Hxt Hxa. rewrite lookup_alter_ne by done. by apply lookup_insert_ne.
  - intros x _ Hs. unfold m1. destruct (decide (x = t)) as [->|].
    + rewrite lookup_insert_eq, Hpr. split; [by eexists|done].
    + by rewrite lookup_insert_ne.
Qed.

Lemma handle_fail_fuel fuel fuel' curr m h m' :
  coroutine_handle_fail fuel curr m = Ret h m' -> (fuel <= fuel')%nat ->
  coroutine_handle_fail fuel' curr m = Ret h m'.
Proof.
  revert fuel' curr. induction fuel as [|fuel IH]; intros fuel' curr Hrun Hf; [done|].
  destruct fuel' as [|fuel']; [lia|]. cbn [coroutine_handle_fail] in *. unfold kbind, the in *.
  destruct (m !! curr) as [x|]; [|done]. destruct (caller x); [|done].
  destruct (has_error_handler x); [done|]. apply IH; [done|lia].
Qed.

Lemma return_fail_fuel fuel fuel' t m h m' :
  return_fail fuel t m = Ret h m' -> (fuel <= fuel')%nat -> return_fail fuel' t m = Ret h m'.
Proof.
  unfold return_fail, yield_await_suspend, kbind, set_status, kmodify, the, kret. intros Hrun Hf.
  destruct (alter _ t m !! t) as [x|]; [|done]. case_bool_decide; [|done].
  destruct (coroutine_handle_fail fuel t _) as [h1 m1|m1| |] eqn:E; try done.
  by rewrite (handle_fail_fuel fuel fuel' _ _ _ _ E Hf).
Qed.

Lemma co_fail_inv s C core t x m h fuel :
  co_inv s C -> cores s !! core = Some t -> execs s !! t = None -> proms s !! t = Some x -> is_Some (caller x) ->
  return_fail fuel t (proms s) = Ret h m -> exists C', co_inv (transfer core h m s) C'.
Proof.
  intros Hinv Hct Hex Hx Hy Hrun.
  destruct (core_chain s C core t Hinv Hct Hex) as (r & C0 & pr & Hinv' & Hpr & Hcal & Hst).
  assert (x = pr) as -> by congruence.
  destruct (leaf_facts _ _ _ _ Hinv') as (Hnd & Hdis & Hnd0 & Hch & Hexe).
  destruct (return_fail_spec s t r pr (fuel + S (length r)) Hch Hnd Hpr Hy) as
    (pre & a & b & r' & m' & Heq & Hrun' & _ & _ & _ & Hoth); [lia|].
  rewrite (return_fail_fuel _ (fuel + S (length r)) _ _ _ _ Hrun) in Hrun' by lia. injection Hrun' as -> ->.
  eexists. assert (exists pre', t :: r = t :: pre' ++ b :: r' /\ (a = t \/ a ∈ pre')) as (pre' & Heq' & Ha).
  { destruct pre as [|p0 pre]; cbn [app] in Heq; injection Heq as -> ->.
    - exists []. split; [done|by left].
    - exists (pre ++ [a]). rewrite <- app_assoc. split; [done|]. right. set_solver. }
  rewrite Heq' in *.
  assert (forall z, z ∈ concat ((b :: r') :: C0) -> z <> t /\ z <> a) as Hne.
  { intros z Hz. cbn [concat] in Hz. rewrite app_comm_cons in Hnd. apply NoDup_app in Hnd as (_ & Hpre & _).
    apply elem_of_app in Hz as [Hz|Hz].
    - split; intros ->; [apply (Hpre t)|apply (Hpre a)]; set_solver.
    - split; intros ->; [apply (Hdis t)|apply (Hdis a)]; set_solver. }
  apply (co_inv_pop s core t pre' b r' C0); [done|done| |].
  - intros z Hz. by apply Hoth; apply Hne.
  - intros e p He. pose proof (exec_arg_not_member s _ e p Hinv' He) as Hn. cbn [concat] in Hn.
    apply Hoth; intros ->; apply Hn; set_solver.
Qed.

(** A coroutine awaited by the leaf of a chain becomes the leaf. *)
Lemma co_inv_push s core t r C0 p x pr' ex' :
  co_inv s ((t :: r) :: C0) -> cores s !! core = Some t ->
  proms s !! p = Some x -> p ∉ concat ((t :: r) :: C0) -> execs s !! p = None ->
  caller pr' = Some t -> _status pr' = Running -> (r = [] -> has_error_handler pr' = true) ->
  ex' = delete t (execs s) -> (forall e, execs s !! e = Some p -> e = t) ->
  co_inv (CState (<[p := pr']> (proms s)) (rq s) (<[core := p]> (cores s)) (sleeping s) ex') ((p :: t :: r) :: C0).
Proof.
  intros Hinv Hct Hp Hpn Hpe Hcal Hst Hh Hex Harg. subst ex'.
  destruct (leaf_facts _ _ _ _ Hinv) as (Hnd & Hdis & Hnd0 & Hch & Hexe).
  destruct (ci_core _ _ Hinv core t Hct) as (pt & Hpt & Hstt).
  cbn [concat] in Hpn. apply not_elem_of_app in Hpn as [Hpt' Hp0].
  assert (forall y, y ∈ t :: r -> execs s !! y = None \/ y = t) as Hexr.
  { intros y Hy. destruct (execs s !! y) as [q|] eqn:E; [right|by left].
    destruct (Hexe y q E) as [[-> _]|Hin]; [done|]. exfalso. apply (Hdis y Hy), elem_of_concat.
    exists [y]. split; [done|by left]. }
  apply (co_inv_replace s _ [t :: r] C0 [p :: t :: r] Hinv); cbn [proms execs cores].
  - cbn [concat]. rewrite app_nil_r. by constructor.
  - repeat constructor.
    + eexists. unfold active. cbn [proms execs]. rewrite lookup_insert_eq.
      split_and!; [done|by left|done| |done]. rewrite lookup_delete_ne by set_solver. done.
    + assert (forall y, y ∈ t :: r -> <[p := pr']> (proms s) !! y = proms s !! y) as Hm.
      { intros y Hy. apply lookup_insert_ne. intros ->. done. }
      destruct r as [|z r].
      * destruct Hch as (q & [Hq _] & Hc). exists q. unfold active. cbn [proms execs].
        rewrite Hm by by left. simplify_eq. split; [|done]. split; [done|by left].
      * destruct Hch as [(q & [Hq _] & Hc & He & Hhq) Hch]. split.
        -- exists q. unfold active. cbn [proms execs]. rewrite Hm by by left. simplify_eq.
           rewrite lookup_delete_eq. split_and!; [done|by left|done|done|done].
        -- eapply chain_ok_agree; [|done]. intros y Hy. cbn [proms execs].
           rewrite Hm by by right. apply NoDup_cons in Hnd as [Htz _].
           rewrite lookup_delete_ne by set_solver. done.
  - cbn [concat]. rewrite !app_nil_r. intros y [->|Hy]%elem_of_cons; [by right|by left].
  - intros y Hy. rewrite lookup_insert_ne by (intros ->; done).
    rewrite lookup_delete_ne; [done|]. intros ->. apply (Hdis y); [by left|done].
  - unfold places. cbn [rq cores sleeping]. rewrite places_set_core, <- app_comm_cons, <- Permutation_middle.
    cbn [leaves fmap list_fmap hd app]. constructor. by apply (rest_places s core t r).
  - intros e q [Hne He]%lookup_delete_Some. left. split_and!; [done| | |].
    + destruct (Hexe e q He) as [[-> _]|]; [done|by left].
    + apply lookup_insert_ne. intros ->. by rewrite (Harg e He) in Hne.
    + apply lookup_delete_ne. intros ->. apply (exec_arg_not_member s _ e q Hinv He). cbn [concat]. by left.
  - intros e e' He _. apply list_elem_of_singleton in He. discriminate.
  - intros core' t'. rewrite lookup_insert_Some. intros [[<- <-]|[Hne Hct']].
    + left. rewrite lookup_insert_eq. eauto.
    + right. split; [done|]. apply lookup_insert_ne. intros ->. apply Hp0.
      by apply (other_core_member s core core' t t' r C0).
Qed.

Lemma co_await_inv s C core t y p m h :
  co_inv s C -> cores s !! core = Some t -> execs s !! t = None -> proms s !! t = Some y -> is_Some (caller y) ->
  awaitable s p -> task_await_suspend 0 false p t (proms s) = Ret h m ->
  exists C', co_inv (transfer core (Some h) m s) C'.
Proof.
  intros Hinv Hct Hex Hy Hcy Haw Hrun.
  destruct (core_chain s C core t Hinv Hct Hex) as (r & C0 & pr & Hinv' & Hpr & Hcal & Hst).
  assert (y = pr) as -> by congruence.
  assert (exists x, proms s !! p = Some x /\ _status x <> Running /\ execs s !! p = None /\
    forall e, execs s !! e <> Some p) as (x & Hx & Hxs & Hxe & Hxn).
  { destruct Haw as [(x & Hx & _ & Hs & He & Hn)|(x & Hx & Hs)]; exists x.
    - split_and!; [done|congruence|done|done].
    - split_and!; [done|congruence|by eapply exec_not_suspended|]. intros e He.
      destruct (ci_exec _ _ Hinv' e p He) as [_ (x' & Hx' & _ & Hs' & _)]. congruence. }
  destruct (await_eq 0 p t x pr (proms s) h m Hx Hpr Hrun) as (-> & sch & ny & ->).
  eexists. unfold transfer.
  eapply (co_inv_push s core t r C0 p x); try done.
  - by eapply idle_not_member.
  - intros ->. rewrite Hcal in Hcy. by destruct Hcy.
  - by rewrite delete_id.
  - intros e He. by destruct (Hxn e).
Qed.

Lemma co_executor_inv s C core e p m1 m2 h :
  co_inv s C -> cores s !! core = Some e -> execs s !! e = Some p ->
  set_handler p true (proms s) = Ret tt m1 -> task_await_suspend 0 false p e m1 = Ret h m2 ->
  exists C', co_inv (CState m2 (rq s) (<[core := h]> (cores s)) (sleeping s) (delete e (execs s))) C'.
Proof.
  intros Hinv Hct He Hh Hrun.
  destruct (co_inv_pick s C e Hinv (core_in_places _ _ _ Hct)) as (r & C0 & Hinv').
  destruct (ci_exec _ _ Hinv' e p He) as [_ (x & Hx & Hc & Hst & Hpe)].
  destruct (ci_core _ _ Hinv' core e Hct) as (pr & Hpr & Hrs).
  assert (p <> e) as Hpe' by congruence.
  unfold set_handler, kmodify in Hh. rewrite (alter_at _ _ _ _ Hx) in Hh. injection Hh as <-.
  eapply (await_eq 0 p e) in Hrun as (-> & sch & ny & ->);
    [|apply lookup_insert_eq|rewrite lookup_insert_ne by done; done].
  rewrite insert_insert_eq. cbn [has_error_handler].
  eexists. eapply (co_inv_push s core e r C0 p x); try done.
  - by eapply idle_not_member; [done|done|congruence|].
  - intros e' He'. by apply (ci_inj _ _ Hinv' e' e p).
Qed.

Lemma co_sleep_inv s C core t :
  co_inv s C -> cores s !! core = Some t ->
  exists C', co_inv (CState (proms s) (rq s) (delete core (cores s)) ({[t]} ∪ sleeping s) (execs s)) C'.
Proof.
  intros Hinv Hct. pose proof (places_nodup _ _ Hinv) as Hndp.
  destruct (co_inv_pick s C t Hinv (core_in_places _ _ _ Hct)) as (r & C0 & Hinv'). exists ((t :: r) :: C0).
  destruct (leaf_facts _ _ _ _ Hinv') as (_ & _ & _ & Hch & _).
  apply (co_inv_same_chain s _ t r C0 Hinv'); cbn [proms execs cores]; try done.
  - eapply chain_ok_agree; [|exact Hch]. done.
  - unfold places. cbn [rq cores sleeping]. rewrite elements_union_singleton.
    + rewrite <- !Permutation_middle. constructor. by apply (rest_places s core t r).
    + intros Hin. rewrite (places_core s core t Hct) in Hndp. apply NoDup_cons in Hndp as [Hn _]. apply Hn.
      apply elem_of_app. right. apply elem_of_app. right. by apply elem_of_elements.
  - intros core' t' [Hne Hct']%lookup_delete_Some. by right.
Qed.

(** Scheduler pointers do not matter for the chains. *)
Lemma chain_ok_scheduler s t r pr sch :
  chain_ok s (t :: r) -> NoDup (t :: r) -> proms s !! t = Some pr ->
  forall rq' co' sl', chain_ok (CState (<[t := Promise (caller pr) sch (has_error_handler pr) (no_yield pr) (_status pr)]>
    (proms s)) rq' co' sl' (execs s)) (t :: r).
Proof.
  intros Hch Hnd Hpr rq' co' sl'. apply NoDup_cons in Hnd as [Htr _]. destruct r as [|y r].
  - destruct Hch as (pr' & [Hpr' Ha] & Hc). assert (pr' = pr) as -> by congruence.
    eexists. unfold active. cbn [proms execs]. by rewrite lookup_insert_eq.
  - destruct Hch as [(pr' & [Hpr' Ha] & Hc & He & Hh) Hch]. assert (pr' = pr) as -> by congruence. split.
    + eexists. unfold active. cbn [proms execs]. by rewrite lookup_insert_eq.
    + eapply chain_ok_agree; [|done]. intros x Hx. cbn [proms execs]. rewrite lookup_insert_ne by set_solver. done.
Qed.

(** A leaf goes to the end of the queue. *)
Lemma co_inv_requeue s t r C0 co' sl' sch pr :
  co_inv s ((t :: r) :: C0) -> proms s !! t = Some pr ->
  rq s ++ (map_to_list co').*2 ++ elements sl' ≡ₚ leaves C0 -> co' ⊆ cores s ->
  (forall core t', co' !! core = Some t' -> t' <> t) ->
  co_inv (CState (<[t := Promise (caller pr) sch (has_error_handler pr) (no_yield pr) (_status pr)]> (proms s))
    (rq s ++ [t]) co' sl' (execs s)) ((t :: r) :: C0).
Proof.
  intros Hinv Hpr Hpl Hsub Hne. destruct (leaf_facts _ _ _ _ Hinv) as (Hnd & _ & _ & Hch & _).
  apply (co_inv_same_chain s _ t r C0 Hinv); cbn [proms execs cores].
  - by apply chain_ok_scheduler.
  - intros x Hx. by apply lookup_insert_ne.
  - done.
  - unfold places. cbn [rq cores sleeping]. rewrite <- app_assoc. cbn [app]. rewrite <- Permutation_middle.
    by constructor.
  - intros core t' Hct. right. split; [by eapply lookup_weaken|]. apply lookup_insert_ne. symmetry. by eapply Hne.
Qed.

Lemma co_wake_inv s s' C t :
  co_inv s C -> t ∈ sleeping s ->
  wake_up t (CState (proms s) (rq s) (cores s) (sleeping s ∖ {[t]}) (execs s)) = Ret tt s' ->
  exists C', co_inv s' C'.
Proof.
  intros Hinv Ht Hrun. pose proof (places_nodup _ _ Hinv) as Hndp.
  assert (elements (sleeping s) ≡ₚ t :: elements (sleeping s ∖ {[t]})) as Hel.
  { rewrite <- elements_union_singleton by set_solver. f_equiv. rewrite <- union_difference_L; [done|set_solver]. }
  assert (places s ≡ₚ t :: rq s ++ (map_to_list (cores s)).*2 ++ elements (sleeping s ∖ {[t]})) as Hpl.
  { unfold places. rewrite Hel. by rewrite <- !Permutation_middle. }
  assert (t ∈ places s) as Hin by (rewrite Hpl; by left).
  destruct (co_inv_pick s C t Hinv Hin) as (r & C0 & Hinv'). exists ((t :: r) :: C0).
  destruct (leaf_facts _ _ _ _ Hinv') as (_ & _ & _ & Hch & _).
  destruct (chain_active _ _ t Hch) as (pr & Hpr & _); [by left|].
  pose proof (ci_place _ _ Hinv') as Hpl'. rewrite Hpl in Hpl'. unfold leaves in Hpl'. rewrite fmap_cons in Hpl'.
  apply Permutation_cons_inv in Hpl'.
  assert (forall core t', cores s !! core = Some t' -> t' <> t) as Hnc.
  { intros core t' Hc ->. rewrite Hpl in Hndp. apply NoDup_cons in Hndp as [Hn _]. apply Hn.
    apply elem_of_app. right. apply elem_of_app. left. apply list_elem_of_fmap. exists (core, t).
    split; [done|]. by apply elem_of_map_to_list. }
  unfold wake_up, __schedule, set_scheduler, kmodify, task_push, with_proms in Hrun. cbn [proms rq cores sleeping execs] in Hrun.
  rewrite Hpr in Hrun. destruct (self_scheduler pr) as [sch|] eqn:Es.
  - injection Hrun as <-. rewrite (alter_at _ _ _ _ Hpr). by apply co_inv_requeue.
  - injection Hrun as <-.
    replace (proms s) with (<[t := Promise (caller pr) None (has_error_handler pr) (no_yield pr) (_status pr)]> (proms s)).
    + by apply co_inv_requeue.
    + apply insert_id. rewrite Hpr. f_equal. rewrite <- Es. by destruct pr.
Qed.

Lemma co_yield_inv s s' C core t x e h :
  co_inv s C -> cores s !! core = Some t -> proms s !! t = Some x -> is_Some (caller x) ->
  this_scheduler_suspend e t s = Ret h s' ->
  exists C', co_inv (transfer core h (proms s') s') C'.
Proof.
  intros Hinv Hct Hx [c Hc] Hrun.
  assert (transfer core (Some t) (proms s) s = s) as Hid.
  { unfold transfer. rewrite insert_id by done. by destruct s. }
  unfold this_scheduler_suspend in Hrun. rewrite Hx in Hrun.
  destruct (no_yield x); [injection Hrun as <- <-; rewrite Hid; eauto|].
  destruct (self_scheduler x) as [sched|]; [|injection Hrun as <- <-; rewrite Hid; eauto].
  case_bool_decide; [injection Hrun as <- <-; rewrite Hid; eauto|].
  unfold kbind, kret, schedule in Hrun. rewrite Hx, Hc in Hrun.
  destruct (co_inv_pick s C t Hinv (core_in_places _ _ _ Hct)) as (r & C0 & Hinv'). exists ((t :: r) :: C0).
  unfold __schedule, set_scheduler, kmodify, task_push, with_proms in Hrun. cbn [proms rq cores sleeping execs] in Hrun.
  injection Hrun as <- <-. rewrite (alter_at _ _ _ _ Hx). unfold transfer. cbn [proms rq cores sleeping execs].
  apply co_inv_requeue; [done|done|by apply (rest_places s core t r)|apply delete_subseteq|].
  intros core' t' [Hne Hct']%lookup_delete_Some ->.
  destruct (leaf_facts _ _ _ _ Hinv') as (_ & Hdis & _). apply (Hdis t); [by left|].
  by apply (other_core_member s core core' t t r C0).
Qed.

Lemma co_destroy_inv s C p x m :
  co_inv s C -> proms s !! p = Some x -> _status x = Done \/ _status x = Fail \/ _status x = Suspend ->
  destroy p (proms s) = Ret tt m -> co_inv (with_proms s m) C.
Proof.
  intros Hinv Hx Hst Hrun. unfold destroy, kbind, the, kmodify in Hrun. rewrite Hx in Hrun.
  case_bool_decide; [done|]. injection Hrun as <-. apply co_inv_frame; [done| |].
  - intros y Hy. apply lookup_delete_ne. intros <-.
    destruct (member_active s C p Hinv Hy) as (pr & Hpr & Ha). simplify_eq.
    destruct Ha as [|[? _]]; intuition congruence.
  - intros e q He. apply lookup_delete_ne. intros <-.
    destruct (ci_exec _ _ Hinv e p He) as [_ (y & Hy & _ & ? & _)]. simplify_eq.
Qed.

Lemma co_push_task_inv s s' C sched e p :
  co_inv s C -> fresh_task s p -> proms s !! e = None -> execs s !! e = None -> (forall e', execs s !! e' <> Some e) ->
  schedule sched e p s = Ret tt s' -> exists C', co_inv s' C'.
Proof.
  intros Hinv (x & Hx & Hc & Hst & Hpe & Hpn) Hne Hee Hen Hrun. exists ([[e]] ++ C).
  unfold schedule, __schedule, set_scheduler, kmodify, task_push, with_proms in Hrun.
  cbn [proms rq cores sleeping execs] in Hrun. rewrite Hx, Hc in Hrun. injection Hrun as <-.
  rewrite (alter_at _ e promise_new) by apply lookup_insert_eq. rewrite insert_insert_eq.
  assert (p <> e) as Hpe' by congruence.
  assert (e ∉ concat C) as HeC.
  { intros Hin. destruct (member_active s C e Hinv Hin) as (pr & Hpr & _). congruence. }
  apply (co_inv_replace s _ [] C [[e]] Hinv); cbn [proms execs cores].
  - apply NoDup_singleton.
  - repeat constructor. eexists. unfold active. cbn [proms execs]. rewrite !lookup_insert_eq.
    split; [split; [reflexivity|]|done]. right. by split.
  - cbn [concat app]. intros y ->%list_elem_of_singleton. by right.
  - intros y Hy. rewrite !lookup_insert_ne by congruence. done.
  - unfold places. cbn [rq cores sleeping leaves fmap list_fmap hd app]. rewrite <- app_assoc. cbn [app].
    rewrite <- Permutation_middle. constructor. apply (ci_place _ _ Hinv).
  - intros e' q. rewrite lookup_insert_Some. intros [[<- <-]|[Hne' He']].
    + right. split_and!; [by left| |done]. exists x. cbn [proms execs]. rewrite !lookup_insert_ne by done. done.
    + left. destruct (ci_exec _ _ Hinv e' q He') as [Hin _]. split_and!; [done|by left| |].
      * apply lookup_insert_ne. intros ->. by destruct (Hen e').
      * apply lookup_insert_ne. intros ->. by destruct (Hen e').
  - intros e1 e2 [= ->]%list_elem_of_singleton [= ->]%list_elem_of_singleton. done.
  - intros core t Hct. right. split; [done|]. apply lookup_insert_ne. intros ->. apply HeC.
    apply (leaf_member s); [done|]. rewrite <- (ci_place _ _ Hinv). by eapply core_in_places.
Qed.

Lemma co_step_inv s s' C : co_inv s C -> co_step s s' -> exists C', co_inv s' C'.
Proof.
  intros Hinv Hstep. destruct Hstep.
  - exists C. apply co_inv_frame; [done| |].
    + intros x Hx. apply lookup_insert_ne. intros ->.
      destruct (member_active s C x Hinv Hx) as (pr & Hpr & _). congruence.
    + intros e q He. apply lookup_insert_ne. intros ->. congruence.
  - destruct H as (x & Hx & Hc & Hst & Hpe & Hpn). exists C.
    unfold set_handler, set_no_yield, kmodify in *. injection H0 as <-. injection H1 as <-.
    apply co_inv_frame; [done| |].
    + intros y Hy. assert (y <> p) as Hne.
      { intros ->. apply (idle_not_member s C p x Hinv Hx); [congruence|done|done]. }
      by rewrite !lookup_alter_ne by done.
    + intros e q He. assert (q <> p) as Hne by congruence. by rewrite !lookup_alter_ne by done.
  - by eapply co_push_task_inv.
  - by eapply co_start_inv.
  - by eapply co_executor_inv.
  - by eapply co_await_inv.
  - by eapply co_sleep_inv.
  - by eapply co_wake_inv.
  - by eapply co_yield_inv.
  - exists C. by eapply co_destroy_inv.
  - by eapply co_return_inv.
  - by eapply co_yield_value_inv.
  - by eapply co_fail_inv.
Qed.

Lemma co_reachable_inv s : rtc co_step co_start_state s -> exists C, co_inv s C.
Proof.
  intros Hsteps. assert (exists C, co_inv co_start_state C) as Hinv.
  { exists []. split; try done; try constructor. }
  revert Hinv. induction Hsteps as [|s1 s2 s3 Hst _ IH]; [done|]. intros [C Hinv].
  apply IH. by eapply co_step_inv.
Qed.

(** The failing coroutine [t] of a chain of callers hands over to the nearest error
    handler: [pre] are the coroutines without one, [a] has one, and its caller [b]
    is resumed. *)
Definition fails_to_handler (m : promises) (t : Z) : Prop :=
  exists fuel pre a b r m', linked_callers m (pre ++ a :: b :: r) /\ head (pre ++ a :: b :: r) = Some t /\
    (forall x, x ∈ pre -> handles m x = false) /\ handles m a = true /\
    return_fail fuel t m = Ret (Some b) m' /\ (_status <$> m' !! a) = Some Fail /\
    forall x, x <> t -> x <> a -> m' !! x = m !! x.

(** C13. The coroutine system is safe in every reachable state, for any number of
    cores and any behaviour of the coroutine bodies:
    a coroutine that can be resumed is in exactly one place (on one core, or
    once in the queue, or asleep), so none is ever resumed while it runs;
    it is the leaf of a finite chain of callers that ends in a task executor;
    and when it fails, [coroutine_handle_fail] terminates without a panic: it
    passes the coroutines of that chain that have no error handler, marks the
    first one that has as failed, leaves every other promise alone and resumes
    that coroutine's caller. *)
Theorem coroutine_safe s :
  rtc co_step co_start_state s ->
  NoDup (places s) /\
  (forall t, t ∈ places s -> exists r, linked_callers (proms s) (t :: r)) /\
  (forall core t x, cores s !! core = Some t -> execs s !! t = None ->
    proms s !! t = Some x -> is_Some (caller x) -> fails_to_handler (proms s) t).
Proof.
  intros Hsteps. destruct (co_reachable_inv s Hsteps) as [C Hinv]. split_and!.
  - by eapply places_nodup.
  - intros t Ht. destruct (co_inv_pick s C t Hinv Ht) as (r & C0 & Hinv'). exists r.
    apply chain_linked. by destruct (leaf_facts _ _ _ _ Hinv') as (_ & _ & _ & Hch & _).
  - intros core t x Hct Hex Hx Hc.
    destruct (core_chain s C core t Hinv Hct Hex) as (r & C0 & pr & Hinv' & Hpr & _).
    assert (x = pr) as -> by congruence. destruct (leaf_facts _ _ _ _ Hinv') as (Hnd & _ & _ & Hch & _).
    destruct (return_fail_spec s t r pr (S (length r)) Hch Hnd Hpr Hc) as
      (pre & a & b & r' & m' & Heq & Hrun & Hpre & Ha & Hst & Hoth); [lia|].
    exists (S (length r)), pre, a, b, r', m'. rewrite <- Heq. split_and!; [by apply chain_linked|done|done|done|done|done|done].
Qed.

(** A run: a task is created, scheduled, started on core 0 and awaited by its
    executor; then it awaits another one, which has no error handler. *)
Definition demo_run : cstate :=
  CState {[ 8 := Promise (Some 16) (Some 1) true false Running; 16 := Promise None (Some 1) false false Running ]}
    [] {[ 0 := 8 ]} ∅ ∅.
Definition demo_nested : cstate :=
  CState {[ 8 := Promise (Some 16) (Some 1) true false Running; 16 := Promise None (Some 1) false false Running;
            24 := Promise (Some 8) (Some 1) false false Running ]} [] {[ 0 := 24 ]} ∅ ∅.

Lemma demo_reachable : rtc co_step co_start_state demo_nested.
Proof.
  eapply rtc_l; [by apply (co_create _ 8)|].
  eapply rtc_l; [eapply (co_push_task _ _ 1 16 8); [|done|done|done|reflexivity]; by exists promise_new|].
  eapply rtc_l; [by apply (co_start _ _ 0)|].
  eapply rtc_l; [by eapply (co_executor _ 0 16 8)|].
  replace (CState _ _ _ _ _) with demo_run by (vm_compute; reflexivity).
  eapply rtc_l; [apply (co_create _ 24); [reflexivity|intros e; cbn [demo_run execs]; by rewrite lookup_empty]|].
  eapply rtc_l; [eapply (co_await _ 0 8 _ 24); [reflexivity|reflexivity|reflexivity|by eexists| |reflexivity]|].
  { left. exists promise_new. split_and!; [reflexivity|done|done|reflexivity|]. intros e. cbn [demo_run with_proms execs]. by rewrite lookup_empty. }
  replace (transfer _ _ _ _) with demo_nested; [done|]. vm_compute. reflexivity.
Qed.

(** When 24 fails its caller 8 fails with it, and the executor goes on. *)
Lemma coroutine_safe_witness :
  NoDup (places demo_nested) /\ fails_to_handler (proms demo_nested) 24 /\
  exists m, return_fail 3 24 (proms demo_nested) = Ret (Some 16) m /\ (_status <$> m !! 8) = Some Fail.
Proof.
  destruct (coroutine_safe demo_nested demo_reachable) as (H1 & _ & H3). split; [exact H1|]. split.
  - apply (H3 0 24 (Promise (Some 8) (Some 1) false false Running)); [reflexivity|reflexivity|reflexivity|by eexists].
  - eexists. split; [reflexivity|]. vm_compute. reflexivity.
Defined.

Lemma handle_fail_correct_witness :
  linked_callers (proms demo_run) [8; 16] /\
  exists a b r m', unwind (proms demo_run) [8; 16] = Some (a, b, r) /\
     coroutine_handle_fail 2 8 (proms demo_run) = Ret b m'.
Proof.
  assert (linked_callers (proms demo_run) [8; 16]) as Hl.
  { split; eexists; by split. }
  split; [done|]. destruct (handle_fail_correct (proms demo_run) [16] 8 Hl) as [(a & b & r & m' & H1 & H2 & _)|[Hn _]].
  - exists a, b, r, m'. by split.
  - exfalso. specialize (Hn 8 ltac:(by left)). by vm_compute in Hn.
Defined.
