(* ===== verification/Mutex.v ===== *)
(** * Wait queues and the coroutine mutex (src/os/utils/wait_queue.h, src/os/atomic/mutex.cc)

    [coro_mutex] is the lock of every buffer: a flag and a wait queue, guarded
    by a spinlock.  A pass through the loop of [lock], and [unlock], run with
    the guard held, so they are atomic steps (the file Spinlock); the
    steps of different coroutines interleave freely between them.

    The mutex does not know its owner.  The theorems say what it gives to
    clients that unlock what they locked, and what happens when one of them
    unlocks twice, as [nfs::alloc_block] does: it calls [buf_ref->put()], which
    unlocks, and the guard [buf_ref] unlocks again when the frame dies. *)
From S2P Require Import Prelude Spinlock.

(** ** Definitions *)

(** [wait_queue]: the sleepers in order of arrival.  The wake-up operations
    return the sleepers on which [wake_up()] is called. *)
Definition wait_queue : Type := list Z.
Definition wq_sleep (sleeper : Z) (q : wait_queue) : wait_queue := q ++ [sleeper].
Definition wake_up_all (q : wait_queue) : list Z * wait_queue := (q, []).
Definition wake_up_one (q : wait_queue) : list Z * wait_queue :=
  match q with
  | [] => ([], [])
  | s :: q' => ([s], q')
  end.

(** [single_wait_queue]: one sleeper. *)
Definition single_wait_queue : Type := option Z.
Definition single_sleep (sleeper : Z) (q : single_wait_queue) : single_wait_queue := Some sleeper.
Definition single_wake_up (q : single_wait_queue) : list Z * single_wait_queue :=
  match q with
  | Some s => ([s], None)
  | None => ([], None)
  end.

(** Where a coroutine is with respect to the mutex: not using it; asleep in
    its queue; about to take the guard again after [wait_queue_done]; between
    [lock] and [unlock]. *)
Inductive tstate := TIdle | TWaiting | TReady | THolding.

#[export] Instance tstate_eq_dec : EqDecision tstate.
Proof. solve_decision. Defined.

Record mstate := MState {
  _locked : bool;
  _wait_queue : wait_queue;
  tasks : Z -> tstate
}.

Definition mutex_new : mstate := MState false [] (fun _ => TIdle).

(** One pass of coroutine [t] through the loop of [lock], from taking the
    guard to releasing it: [wait_queue_done::await_suspend] puts [t] to sleep,
    or resumes it at once when it must not yield. *)
Definition mutex_lock_pass (no_yield : bool) (t : Z) (s : mstate) : mstate :=
  if _locked s then
    if no_yield then MState (_locked s) (_wait_queue s) (upd (tasks s) t TReady)
    else MState (_locked s) (wq_sleep t (_wait_queue s)) (upd (tasks s) t TWaiting)
  else MState true (_wait_queue s) (upd (tasks s) t THolding).

Definition set_all (st : tstate) (l : list Z) (f : Z -> tstate) : Z -> tstate :=
  foldr (fun t f => upd f t st) f l.

(** [unlock], called by [t]. *)
Definition mutex_unlock (t : Z) (s : mstate) : mstate :=
  let '(woken, q) := wake_up_one (_wait_queue s) in
  let own := if decide (tasks s t = THolding) then upd (tasks s) t TIdle else tasks s in
  MState false q (set_all TReady woken own).

(** Coroutines that unlock only what they hold. *)
Inductive mutex_step (no_yield : Z -> bool) : mstate -> mstate -> Prop :=
| step_lock s t :
    tasks s t = TIdle \/ tasks s t = TReady -> mutex_step no_yield s (mutex_lock_pass (no_yield t) t s)
| step_unlock s t :
    tasks s t = THolding -> mutex_step no_yield s (mutex_unlock t s).

(** ** The invariant *)

Record mutex_inv (s : mstate) : Prop := {
  mi_unique : forall t t', tasks s t = THolding -> tasks s t' = THolding -> t = t';
  mi_locked : _locked s = true <-> exists t, tasks s t = THolding;
  mi_queue : forall t, t ∈ _wait_queue s <-> tasks s t = TWaiting;
  mi_nodup : NoDup (_wait_queue s);
  mi_wakeup : _wait_queue s <> [] -> _locked s = true \/ exists t, tasks s t = TReady
}.

Lemma mutex_new_inv : mutex_inv mutex_new.
Proof.
  split; cbn; try done.
  - split; [done|]. by intros [t Ht].
  - intros t. split; [|done]. by intros ?%elem_of_nil.
  - constructor.
Qed.

Ltac task_cases t t0 := destruct (decide (t = t0)) as [->|?]; [rewrite ?upd_eq in *|rewrite ?upd_ne in * by done].

Lemma lock_pass_inv ny t s :
  mutex_inv s -> tasks s t = TIdle \/ tasks s t = TReady -> mutex_inv (mutex_lock_pass ny t s).
Proof.
  intros [Hu Hl Hq Hn Hw] Ht. unfold mutex_lock_pass. destruct (_locked s) eqn:El.
  - assert (exists h, tasks s h = THolding) as [h Hh] by by apply Hl.
    assert (h <> t) as Hht by (intros ->; destruct Ht; congruence).
    assert (t ∉ _wait_queue s) as Hnt by (rewrite Hq; destruct Ht; congruence).
    destruct ny; split; cbn.
    + intros a b Ha Hb. task_cases a t; [done|]. task_cases b t; [done|]. by apply Hu.
    + split; [|done]. exists h. by rewrite upd_ne.
    + intros a. rewrite Hq. task_cases a t; [|done]. split; [|done]. destruct Ht; congruence.
    + done.
    + by left.
    + intros a b Ha Hb. task_cases a t; [done|]. task_cases b t; [done|]. by apply Hu.
    + split; [|done]. exists h. by rewrite upd_ne.
    + intros a. unfold wq_sleep. rewrite elem_of_app, list_elem_of_singleton, Hq. task_cases a t; naive_solver.
    + unfold wq_sleep. apply NoDup_app. split_and!; [done| |by apply NoDup_singleton].
      intros a Ha ->%list_elem_of_singleton. done.
    + by left.
  - assert (forall h, tasks s h <> THolding) as Hno.
    { intros h Hh. assert (false = true) by (apply Hl; eauto). done. }
    split; cbn.
    + intros a b Ha Hb. task_cases a t; task_cases b t; try done; by edestruct Hno.
    + split; [|done]. exists t. apply upd_eq.
    + intros a. rewrite Hq. task_cases a t; [|done]. split; [|done]. destruct Ht; congruence.
    + done.
    + by left.
Qed.

Lemma unlock_inv t s : mutex_inv s -> tasks s t = THolding -> mutex_inv (mutex_unlock t s).
Proof.
  intros [Hu Hl Hq Hn Hw] Ht. unfold mutex_unlock. rewrite decide_True by done.
  assert (forall h, h <> t -> tasks s h <> THolding) as Hno.
  { intros h Hne Hh. apply Hne. by apply Hu. }
  destruct (_wait_queue s) as [|f q] eqn:Eq; cbn.
  - split; cbn; [| | |done|done].
    + intros a b Ha Hb. task_cases a t; [done|]. by edestruct Hno.
    + split; [done|]. intros [a Ha]. task_cases a t; [done|]. by edestruct Hno.
    + intros a. rewrite Hq. task_cases a t; [|done]. split; [congruence|done].
  - assert (tasks s f = TWaiting) as Hf by (apply Hq; by left).
    assert (f <> t) as Hft by congruence. apply NoDup_cons in Hn as [Hfq Hn]. split; cbn.
    + intros a b Ha Hb. task_cases a f; [done|]. task_cases a t; [done|]. by edestruct (Hno a).
    + split; [done|]. intros [a Ha]. task_cases a f; [done|]. task_cases a t; [done|]. by edestruct (Hno a).
    + intros a. task_cases a f; [naive_solver|]. task_cases a t.
      * split; [|done]. intros Hin. assert (tasks s t = TWaiting) by (apply Hq; by right). congruence.
      * rewrite <- Hq, elem_of_cons. naive_solver.
    + done.
    + right. exists f. apply upd_eq.
Qed.

Lemma mutex_reachable_inv ny s : rtc (mutex_step ny) mutex_new s -> mutex_inv s.
Proof.
  apply (rtc_ind_r (fun s => mutex_inv s)); [apply mutex_new_inv|].
  intros y z _ Hst IH. destruct Hst; [by apply lock_pass_inv|by apply unlock_inv].
Qed.

(** C19. For any coroutines that unlock only what they hold, in any interleaving:
    at most one is between [lock] and [unlock]; the sleepers are exactly the
    coroutines in the queue, once each; and no wake-up is lost: while somebody
    sleeps, somebody holds the mutex, or an awake coroutine is about to pass
    through [lock] and gets it. *)
Theorem mutex_safe ny s :
  rtc (mutex_step ny) mutex_new s ->
  (forall t t', tasks s t = THolding -> tasks s t' = THolding -> t = t') /\
  NoDup (_wait_queue s) /\ (forall t, t ∈ _wait_queue s <-> tasks s t = TWaiting) /\
  (_wait_queue s <> [] ->
    exists t, tasks s t = THolding \/
      (tasks s t = TReady /\ tasks (mutex_lock_pass (ny t) t s) t = THolding)).
Proof.
  intros [Hu Hl Hq Hn Hw]%mutex_reachable_inv. split_and!; [done|done|done|]. intros Hne.
  destruct (_locked s) eqn:El.
  - destruct Hl as [Hl _]. destruct (Hl eq_refl) as [t Ht]. eauto.
  - destruct (Hw Hne) as [|[t Ht]]; [congruence|]. exists t. right. split; [done|].
    unfold mutex_lock_pass. rewrite El. cbn. apply upd_eq.
Qed.

(** The steps that serve the queue down to its element [t]. *)
Lemma serve_queue ny t pre : forall s post,
  mutex_inv s -> _wait_queue s = pre ++ t :: post ->
  exists s', rtc (mutex_step ny) s s' /\ tasks s' t = THolding.
Proof.
  induction pre as [|f pre IH]; intros s post Hinv Hq.
  all: assert (exists s1 h, rtc (mutex_step ny) s s1 /\ mutex_inv s1 /\ tasks s1 h = THolding /\
      _wait_queue s1 = _wait_queue s) as (s1 & h & Hs1 & Hinv1 & Hh & Hq1).
  1, 3: destruct (_locked s) eqn:El;
    [apply (mi_locked _ Hinv) in El as [h Hh]; by exists s, h|];
    destruct (mi_wakeup _ Hinv) as [|[r Hr]]; [by rewrite Hq|congruence|];
    exists (mutex_lock_pass (ny r) r s), r; split_and!;
    [apply rtc_once; apply step_lock; by right|apply lock_pass_inv; [done|by right]| |];
    unfold mutex_lock_pass; rewrite El; cbn; [apply upd_eq|done].
  all: rewrite Hq in Hq1; pose proof (unlock_inv h s1 Hinv1 Hh) as Hinv2.
  - set (s2 := mutex_unlock h s1) in *.
    assert (_locked s2 = false /\ tasks s2 t = TReady) as [El Ht].
    { subst s2. unfold mutex_unlock. rewrite Hq1. cbn. by rewrite upd_eq. }
    exists (mutex_lock_pass (ny t) t s2). split.
    + etransitivity; [exact Hs1|]. eapply rtc_l; [by apply step_unlock|].
      apply rtc_once, step_lock. by right.
    + unfold mutex_lock_pass. rewrite El. cbn. apply upd_eq.
  - set (s2 := mutex_unlock h s1) in *.
    assert (_wait_queue s2 = pre ++ t :: post) as Hq2.
    { subst s2. unfold mutex_unlock. by rewrite Hq1. }
    destruct (IH s2 post Hinv2 Hq2) as (s' & Hs' & Ht). exists s'. split; [|done].
    etransitivity; [exact Hs1|]. eapply rtc_l; [by apply step_unlock|done].
Qed.

(** C33. No deadlock: from every reachable state, each coroutine that sleeps on the
    mutex can still be given it. *)
Theorem mutex_waiter_served ny s t :
  rtc (mutex_step ny) mutex_new s -> tasks s t = TWaiting ->
  exists s', rtc (mutex_step ny) s s' /\ tasks s' t = THolding.
Proof.
  intros Hs Ht. pose proof (mutex_reachable_inv ny s Hs) as Hinv.
  apply (mi_queue _ Hinv) in Ht as (pre & post & Hq)%list_elem_of_split. by eapply serve_queue.
Qed.

(** Two unlocks by one holder, as [nfs::alloc_block] makes them, release
    somebody else's lock: coroutine 1 locks and unlocks, 2 locks, 1 unlocks
    again, 3 locks; then 2 and 3 both hold the mutex. *)
Theorem double_put_two_holders :
  let s := mutex_lock_pass false 3 (mutex_unlock 1 (mutex_lock_pass false 2
             (mutex_unlock 1 (mutex_lock_pass false 1 mutex_new)))) in
  tasks s 2 = THolding /\ tasks s 3 = THolding.
Proof. done. Qed.

(** Coroutine 1 holds the mutex, 2 and 3 wait. *)
Definition demo_mutex : mstate :=
  mutex_lock_pass false 3 (mutex_lock_pass false 2 (mutex_lock_pass false 1 mutex_new)).

Lemma demo_mutex_reachable : rtc (mutex_step (fun _ => false)) mutex_new demo_mutex.
Proof.
  eapply rtc_l; [by apply (step_lock _ _ 1); left|].
  eapply rtc_l; [by apply (step_lock _ _ 2); left|].
  apply rtc_once. apply (step_lock (fun _ => false) _ 3). by left.
Qed.

Lemma mutex_safe_witness :
  _wait_queue demo_mutex = [2; 3] /\ NoDup (_wait_queue demo_mutex) /\
  exists t, tasks demo_mutex t = THolding \/
    (tasks demo_mutex t = TReady /\ tasks (mutex_lock_pass false t demo_mutex) t = THolding).
Proof.
  split; [done|]. destruct (mutex_safe (fun _ => false) demo_mutex demo_mutex_reachable) as (_ & Hn & _ & Hw).
  split; [done|]. by apply Hw.
Defined.

Lemma mutex_waiter_served_witness :
  exists s', rtc (mutex_step (fun _ => false)) demo_mutex s' /\ tasks s' 3 = THolding.
Proof.
  apply (mutex_waiter_served (fun _ => false) demo_mutex 3 demo_mutex_reachable). reflexivity.
Defined.
