(* ===== verification/BufferCache.v ===== *)
(** * The buffer cache (src/os/utils/buffer_manager.h, buffer.h, device/block/buf.h, buf.cc)

    [buffer_manager::get_derived] finds the buffer of a block or makes one,
    evicting a buffer nobody uses.  It runs under the lock of the manager
    except while a dirty victim is written back: the victim waits in
    [flush_list], and whoever asks for its block waits too.

    One atomic step is what runs between two points where the coroutine can
    be suspended: [get_start] up to the write-back, [flush_node], [get_finish].
    The users of a buffer load it, change it and give it up in between. *)
From S2P Require Import Prelude Memory.

(** ** Definitions *)

(** A block: its device and its number. *)
Definition bkey : Type := Z * Z.

(** [block_buffer_node]; [bkey] is [None] after [init()] without arguments.
    [users] counts the shared pointers outside the manager. *)
Record node : Type := Node { n_key : option bkey; n_valid : bool; n_dirty : bool; n_data : memory; users : nat }.

Record manager : Type := Manager {
  nodes : gmap nat node;
  buffer_list : list nat;
  flush_list : list nat;
  disk : gmap bkey memory;
  next_node : nat
}.

(** How [get_derived] goes on: it waits for a flush, returns a buffer, fails,
    or writes back the victim before it returns. *)
Inductive started : Type := Waiting | Done (n : nat) | Failed | Flushing (n : nat).

Definition match_node (s : manager) (k : bkey) (n : nat) : bool :=
  match nodes s !! n with
  | Some b => bool_decide (n_key b = Some k)
  | None => false
  end.

(** [try_detach_weak]: the list holds the only shared pointer. *)
Definition unused (s : manager) (n : nat) : bool :=
  match nodes s !! n with
  | Some b => bool_decide (users b = 0%nat)
  | None => false
  end.

Definition upd_node (n : nat) (g : node -> node) (s : manager) : manager :=
  Manager (alter g n (nodes s)) (buffer_list s) (flush_list s) (disk s) (next_node s).
Definition with_list (l : list nat) (s : manager) : manager :=
  Manager (nodes s) l (flush_list s) (disk s) (next_node s).
Definition with_flush (l : list nat) (s : manager) : manager :=
  Manager (nodes s) (buffer_list s) l (disk s) (next_node s).

Definition init_node (k : option bkey) (b : node) : node := Node k false (n_dirty b) (n_data b) (users b).
Definition set_users (u : nat) (b : node) : node := Node (n_key b) (n_valid b) (n_dirty b) (n_data b) u.
Definition add_user (b : node) : node := set_users (S (users b)) b.

Section manager.
(** The template arguments, and what a new buffer holds. *)
Context (min_buffer_count max_buffer_count : Z) (uninit : memory).

Definition size (s : manager) : Z := Z.of_nat (length (buffer_list s)).

(** The victim, searched from the back, and the list without it. *)
Definition find_unused (s : manager) : option (nat * list nat) :=
  if min_buffer_count <=? size s then
    match find_front (unused s) (rev (buffer_list s)) with
    | Some (n, r) => Some (n, rev r)
    | None => None
    end
  else None.

(** [buf->init(key); buffer_list.push_front(buf)]. *)
Definition install (n : nat) (k : bkey) (s : manager) : manager :=
  let s := upd_node n (init_node (Some k)) s in
  with_list (n :: buffer_list s) s.

Definition is_dirty (s : manager) (n : nat) : bool :=
  match nodes s !! n with Some b => n_dirty b | None => false end.

(** [get_derived] up to the write-back. *)
Definition get_start (k : bkey) (s : manager) : started * manager :=
  if existsb (match_node s k) (flush_list s) then (Waiting, s)
  else
    match find_front (match_node s k) (buffer_list s) with
    | Some (n, r) => (Done n, upd_node n add_user (with_list (n :: r) s))
    | None =>
        match find_unused s with
        | None =>
            if max_buffer_count <=? size s then (Failed, s)
            else
              let n := next_node s in
              let s := Manager (<[n := Node None false false uninit 1]> (nodes s)) (buffer_list s) (flush_list s) (disk s) (S n) in
              (Done n, install n k s)
        | Some (n, r) =>
            let s := upd_node n (set_users 1) (with_list r s) in
            if is_dirty s n then (Flushing n, with_flush (flush_list s ++ [n]) s)
            else (Done n, install n k s)
        end
    end.

(** [referenceable_buffer::load] and [flush] of a block buffer. *)
Definition load_node (n : nat) (s : manager) : manager :=
  match nodes s !! n with
  | Some b =>
      if n_valid b then s
      else
        match n_key b with
        | Some k => upd_node n (fun b => Node (n_key b) true false (default ∅ (disk s !! k)) (users b)) s
        | None => s
        end
  | None => s
  end.
Definition flush_node (n : nat) (s : manager) : manager :=
  match nodes s !! n with
  | Some b =>
      if n_valid b && n_dirty b then
        match n_key b with
        | Some k =>
            let s := upd_node n (fun b => Node (n_key b) (n_valid b) false (n_data b) (users b)) s in
            Manager (nodes s) (buffer_list s) (flush_list s) (<[k := n_data b]> (disk s)) (next_node s)
        | None => s
        end
      else s
  | None => s
  end.

(** [get_derived] after the write-back: the buffer returned. *)
Definition get_finish (n : nat) (k : bkey) (s : manager) : nat * manager :=
  let s := with_flush (filter (fun m => m <> n) (flush_list s)) s in
  match find_front (match_node s k) (buffer_list s) with
  | None => (n, install n k s)
  | Some (m, _) =>
      let s := upd_node n (fun b => set_users 0 (init_node None b)) s in
      (m, upd_node m add_user (with_list (buffer_list s ++ [n]) s))
  end.

(** The users: a change of the contents, and the end of a use. *)
Definition modify_node (n : nat) (m : memory) (s : manager) : manager :=
  upd_node n (fun b => Node (n_key b) (n_valid b) true m (users b)) s.
Definition put_node (n : nat) (s : manager) : manager := upd_node n (fun b => set_users (Nat.pred (users b)) b) s.

(** [get_derived] without anything in between. *)
Definition get (k : bkey) (s : manager) : started * manager :=
  match get_start k s with
  | (Flushing n, s) => let '(m, s) := get_finish n k (flush_node n s) in (Done m, s)
  | r => r
  end.

(** [block_buffer_node::match(device_id)]. *)
Definition match_device (s : manager) (dev : Z) (n : nat) : bool :=
  match nodes s !! n with
  | Some b => match n_key b with Some (d, _) => d =? dev | None => false end
  | None => false
  end.

(** [destroy]: the buffers of a device that are not in use are written back,
    reset and kept, those in use are only dropped from the list. *)
Definition reset_node (s : manager) (n : nat) : manager := upd_node n (init_node None) (flush_node n s).
Definition destroy (dev : Z) (s : manager) : Z * manager :=
  let victims := filter (fun n => match_device s dev n && unused s n) (buffer_list s) in
  let failed := filter (fun n => match_device s dev n && negb (unused s n)) (buffer_list s) in
  let rest := filter (fun n => negb (match_device s dev n)) (buffer_list s) in
  let s1 := foldl reset_node (with_list rest s) victims in
  (Z.of_nat (length failed), with_list (rest ++ victims) s1).

(** ** Interleavings

    [pending] are the gets that are writing back: the victim, the block they
    want, and whether the write-back is done. *)
Definition pending : Type := list (nat * bkey * bool).
Definition victims (pd : pending) : list nat := pd.*1.*1.

Inductive bstep : manager * pending -> manager * pending -> Prop :=
| step_get k s pd r s' :
    get_start k s = (r, s') -> (forall n, r <> Flushing n) -> bstep (s, pd) (s', pd)
| step_evict k s pd n s' :
    get_start k s = (Flushing n, s') -> bstep (s, pd) (s', (n, k, false) :: pd)
| step_flush s pd1 pd2 n k :
    bstep (s, pd1 ++ (n, k, false) :: pd2) (flush_node n s, pd1 ++ (n, k, true) :: pd2)
| step_finish s pd1 pd2 n k m s' :
    get_finish n k s = (m, s') -> bstep (s, pd1 ++ (n, k, true) :: pd2) (s', pd1 ++ pd2)
| step_load s pd n b :
    nodes s !! n = Some b -> users b <> 0%nat -> n ∉ victims pd -> bstep (s, pd) (load_node n s, pd)
| step_modify s pd n b m :
    nodes s !! n = Some b -> users b <> 0%nat -> n ∉ victims pd -> n_valid b = true -> bstep (s, pd) (modify_node n m s, pd)
| step_put s pd n b :
    nodes s !! n = Some b -> users b <> 0%nat -> n ∉ victims pd -> bstep (s, pd) (put_node n s, pd).

End manager.

(** A manager without buffers. *)
Definition empty_manager (d : gmap bkey memory) : manager := Manager ∅ [] [] d 0.

(** ** The invariant *)

Definition key_of (s : manager) (n : nat) : option bkey := nodes s !! n ≫= n_key.

Record binv (s : manager) (pd : pending) : Prop := {
  bi_nodup : NoDup (buffer_list s ++ victims pd);
  bi_flush : flush_list s ≡ₚ victims pd;
  bi_nodes : forall n, n ∈ buffer_list s ++ victims pd -> is_Some (nodes s !! n);
  bi_fresh : forall n, is_Some (nodes s !! n) -> (n < next_node s)%nat;
  bi_unique : forall n m k, n ∈ buffer_list s -> m ∈ buffer_list s -> key_of s n = Some k -> key_of s m = Some k -> n = m
}.

Lemma match_node_key s k n : match_node s k n = true <-> key_of s n = Some k.
Proof. unfold match_node, key_of. destruct (nodes s !! n) as [b|]; cbn; [by rewrite bool_decide_eq_true|done]. Qed.

Lemma key_of_is_Some s n k : key_of s n = Some k -> is_Some (nodes s !! n).
Proof. unfold key_of. destruct (nodes s !! n); [by eexists|done]. Qed.

Lemma key_of_upd s n g m :
  (forall b, n_key (g b) = n_key b) -> key_of (upd_node n g s) m = key_of s m.
Proof.
  intros Hg. unfold key_of. cbn [upd_node nodes]. destruct (decide (m = n)) as [->|].
  - rewrite lookup_alter_eq. destruct (nodes s !! n); cbn; [apply Hg|done].
  - by rewrite lookup_alter_ne.
Qed.

Lemma upd_is_Some s n g m : is_Some (nodes (upd_node n g s) !! m) <-> is_Some (nodes s !! m).
Proof.
  cbn [upd_node nodes]. destruct (decide (m = n)) as [->|].
  - by rewrite lookup_alter_eq, fmap_is_Some.
  - by rewrite lookup_alter_ne.
Qed.

(** Nothing changed but contents, flags, counters and the order of the list. *)
Lemma binv_same s s' pd :
  binv s pd -> (forall n, key_of s' n = key_of s n) -> (forall n, is_Some (nodes s' !! n) <-> is_Some (nodes s !! n)) ->
  buffer_list s' ≡ₚ buffer_list s -> flush_list s' = flush_list s -> next_node s' = next_node s -> binv s' pd.
Proof.
  intros [H1 H2 H3 H4 H5] Hk Hn Hl Hf Hx. split.
  - by rewrite Hl.
  - by rewrite Hf.
  - intros n. rewrite Hl, Hn. apply H3.
  - intros n. rewrite Hn, Hx. apply H4.
  - intros n m k. rewrite Hl, !Hk. apply H5.
Qed.

Lemma binv_upd s pd n g : binv s pd -> (forall b, n_key (g b) = n_key b) -> binv (upd_node n g s) pd.
Proof.
  intros Hi Hg. eapply binv_same; [exact Hi|intros m; by apply key_of_upd|intros m; apply upd_is_Some|done|done|done].
Qed.

(** A node that is nowhere becomes the node of a block that has none. *)
Lemma binv_install s pd n k :
  binv s pd -> n ∉ buffer_list s ++ victims pd -> is_Some (nodes s !! n) ->
  (forall m, m ∈ buffer_list s -> key_of s m <> Some k) -> binv (install n k s) pd.
Proof.
  intros [H1 H2 H3 H4 H5] Hn Hs Hk.
  assert (forall m, m ∈ buffer_list s -> key_of (install n k s) m = key_of s m) as Hold.
  { intros m Hm. unfold key_of, install. cbn [with_list upd_node nodes]. rewrite lookup_alter_ne; [done|].
    intros ->. apply Hn, elem_of_app. by left. }
  assert (key_of (install n k s) n = Some k) as Hnew.
  { unfold key_of, install. cbn [with_list upd_node nodes]. rewrite lookup_alter_eq. by destruct Hs as [b ->]. }
  split; [constructor; done|done| | |].
  - intros m Hm. apply (upd_is_Some s n). unfold install in Hm. cbn [with_list upd_node buffer_list app] in Hm.
    apply elem_of_cons in Hm as [->|Hm]; [done|by apply H3].
  - intros m Hm. apply H4. by apply (upd_is_Some s n) in Hm.
  - intros a b k' Ha Hb. unfold install in Ha, Hb. cbn [with_list upd_node buffer_list] in Ha, Hb.
    apply elem_of_cons in Ha as [->|Ha], Hb as [->|Hb]; [done| | |].
    + rewrite Hnew, Hold by done. intros [= <-] Hb'. by apply Hk in Hb'.
    + rewrite Hnew, Hold by done. intros Ha' [= <-]. by apply Hk in Ha'.
    + rewrite !Hold by done. by apply H5.
Qed.

(** A node leaves the list. *)
Lemma binv_remove s pd n r : binv s pd -> buffer_list s ≡ₚ n :: r -> binv (with_list r s) pd /\ n ∉ r ++ victims pd.
Proof.
  intros [H1 H2 H3 H4 H5] Hp. rewrite Hp in H1. cbn [app] in H1. apply NoDup_cons in H1 as [Hn H1]. split; [|done].
  split; cbn [with_list buffer_list flush_list nodes next_node]; [done|done| |done|].
  - intros m Hm. apply H3. rewrite Hp. by right.
  - intros a b k Ha Hb. apply H5; rewrite Hp; by right.
Qed.

Lemma not_matched s k l m : find_front (match_node s k) l = None -> m ∈ l -> key_of s m <> Some k.
Proof. intros Hf Hm Hk%match_node_key. by rewrite (find_front_none _ _ _ Hf Hm) in Hk. Qed.

Section steps.
Context (min_buffer_count max_buffer_count : Z) (uninit : memory).
Notation get_start := (get_start min_buffer_count max_buffer_count uninit).
Notation bstep := (bstep min_buffer_count max_buffer_count uninit).

Lemma find_unused_spec s n r :
  find_unused min_buffer_count s = Some (n, r) -> unused s n = true /\ buffer_list s ≡ₚ n :: r.
Proof.
  unfold find_unused. destruct (_ <=? _); [|done]. destruct (find_front _ _) as [[m q]|] eqn:Ef; [|done].
  intros [= -> <-]. apply find_front_spec in Ef as [Hu Hp]. split; [done|].
  by rewrite <- (Permutation_rev q), <- Hp, <- Permutation_rev.
Qed.

Lemma binv_new s pd b :
  binv s pd ->
  let s' := Manager (<[next_node s := b]> (nodes s)) (buffer_list s) (flush_list s) (disk s) (S (next_node s)) in
  binv s' pd /\ next_node s ∉ buffer_list s ++ victims pd /\ (forall m, m ∈ buffer_list s -> key_of s' m = key_of s m).
Proof.
  intros [H1 H2 H3 H4 H5] s'.
  assert (next_node s ∉ buffer_list s ++ victims pd) as Hn by (intros Hn%H3%H4; lia).
  assert (forall m, m ∈ buffer_list s -> key_of s' m = key_of s m) as Hk.
  { intros m Hm. unfold key_of, s'. cbn [nodes]. rewrite lookup_insert_ne; [done|].
    intros <-. apply Hn, elem_of_app. by left. }
  split_and!; [|done|done]. split; [done|done| | |].
  - intros n Hin. unfold s'. cbn [nodes]. destruct (decide (n = next_node s)) as [->|].
    + rewrite lookup_insert_eq. by eexists.
    + rewrite lookup_insert_ne by done. by apply H3.
  - intros n. unfold s'. cbn [nodes next_node]. destruct (decide (n = next_node s)) as [->|]; [lia|].
    rewrite lookup_insert_ne by done. intros Hs%H4. lia.
  - intros a c k Ha Hc. cbn [buffer_list s'] in Ha, Hc. rewrite !Hk by done. by apply H5.
Qed.

Lemma binv_push_flush s pd n k f :
  binv s pd -> n ∉ buffer_list s ++ victims pd -> is_Some (nodes s !! n) ->
  binv (with_flush (flush_list s ++ [n]) s) ((n, k, f) :: pd).
Proof.
  intros [H1 H2 H3 H4 H5] Hn Hs. split; cbn [with_flush buffer_list flush_list nodes next_node victims fmap list_fmap fst].
  - change (victims ((n, k, f) :: pd)) with (n :: victims pd). rewrite <- Permutation_middle. by constructor.
  - change (victims ((n, k, f) :: pd)) with (n :: victims pd). rewrite H2. symmetry. apply Permutation_cons_append.
  - intros m. change (victims ((n, k, f) :: pd)) with (n :: victims pd). rewrite <- Permutation_middle.
    intros [->|Hm]%elem_of_cons; [done|by apply H3].
  - done.
  - done.
Qed.

Lemma get_start_binv k s pd r s' :
  binv s pd -> get_start k s = (r, s') ->
  match r with Flushing n => binv s' ((n, k, false) :: pd) | _ => binv s' pd end.
Proof.
  intros Hi. unfold get_start. destruct (existsb _ _); [by intros [= <- <-]|].
  destruct (find_front _ (buffer_list s)) as [[n l]|] eqn:Ef.
  { intros [= <- <-]. apply find_front_spec in Ef as [_ Hp]. apply binv_upd; [|done].
    eapply binv_same; [exact Hi|done|done|by rewrite Hp|done|done]. }
  destruct (find_unused _ s) as [[n l]|] eqn:Eu.
  - apply find_unused_spec in Eu as [_ Hp]. destruct (binv_remove s pd n l Hi Hp) as [Hr Hn].
    assert (binv (upd_node n (set_users 1) (with_list l s)) pd) as Hr1 by by apply binv_upd.
    assert (is_Some (nodes (upd_node n (set_users 1) (with_list l s)) !! n)) as Hs.
    { apply upd_is_Some, (bi_nodes _ _ Hi). rewrite Hp. by left. }
    destruct (is_dirty _ n); intros [= <- <-].
    + exact (binv_push_flush _ _ n k false Hr1 Hn Hs).
    + apply binv_install; [done|done|done|]. intros m Hm. rewrite key_of_upd by done.
      change (key_of s m <> Some k). apply (not_matched _ _ _ _ Ef). rewrite Hp. by right.
  - destruct (_ <=? _); [by intros [= <- <-]|]. intros [= <- <-].
    destruct (binv_new s pd (Node None false false uninit 1) Hi) as (Hn & Hnot & Hk).
    apply binv_install; [done|done|cbn [nodes]; rewrite lookup_insert_eq; by eexists|].
    intros m Hm. rewrite Hk by done. by apply (not_matched _ _ _ _ Ef).
Qed.

Lemma victims_mid pd1 n k f pd2 : victims (pd1 ++ (n, k, f) :: pd2) ≡ₚ n :: victims (pd1 ++ pd2).
Proof. unfold victims. rewrite !fmap_app. cbn. by rewrite <- Permutation_middle. Qed.

Lemma binv_pending s pd pd' : binv s pd -> victims pd' ≡ₚ victims pd -> binv s pd'.
Proof.
  intros [H1 H2 H3 H4 H5] Hv. split; [by rewrite Hv|by rewrite Hv| |done|done]. intros n. rewrite Hv. apply H3.
Qed.

Lemma flush_node_binv s pd n : binv s pd -> binv (flush_node n s) pd.
Proof.
  intros Hi. unfold flush_node. destruct (nodes s !! n) as [b|]; [|done]. destruct (_ && _); [|done].
  destruct (n_key b) as [k|]; [|done].
  eapply binv_same; [exact Hi| | |done|done|done].
  - intros m. by apply (key_of_upd s n (fun b => Node (n_key b) (n_valid b) false (n_data b) (users b)) m).
  - intros m. apply (upd_is_Some s n).
Qed.

(** The victim is no longer pending. *)
Lemma binv_done s pd1 n k f pd2 :
  binv s (pd1 ++ (n, k, f) :: pd2) ->
  let s' := with_flush (filter (fun m => m <> n) (flush_list s)) s in
  binv s' (pd1 ++ pd2) /\ n ∉ buffer_list s' ++ victims (pd1 ++ pd2) /\ is_Some (nodes s' !! n).
Proof.
  intros [H1 H2 H3 H4 H5] s'. pose proof (victims_mid pd1 n k f pd2) as Hv. rewrite Hv in H1, H2.
  rewrite <- Permutation_middle in H1. apply NoDup_cons in H1 as [Hn H1].
  split_and!; [|done|apply H3; rewrite Hv; set_solver]. split; [done| | |done|done].
  - cbn [s' with_flush flush_list]. rewrite H2, filter_cons_False by naive_solver. rewrite filter_all; [done|].
    intros m Hm ->. apply Hn, elem_of_app. by right.
  - intros m Hm. apply H3. rewrite Hv. set_solver.
Qed.

Lemma get_finish_binv n k f s pd1 pd2 m s' :
  binv s (pd1 ++ (n, k, f) :: pd2) -> get_finish n k s = (m, s') -> binv s' (pd1 ++ pd2).
Proof.
  intros Hi%binv_done. revert Hi. unfold get_finish. set (s1 := with_flush _ s). intros (Hi & Hn & Hs).
  destruct (find_front _ _) as [[j r]|] eqn:Ef; intros [= <- <-].
  - apply binv_upd; [|done]. pose proof Hi as [H1 H2 H3 H4 H5]. set (g := fun b => set_users 0 (init_node None b)).
    assert (forall a, a ∈ buffer_list s1 -> key_of (upd_node n g s1) a = key_of s1 a) as Hold.
    { intros a Ha. unfold key_of. cbn [upd_node nodes]. rewrite lookup_alter_ne; [done|]. set_solver. }
    assert (key_of (upd_node n g s1) n = None) as Hnull.
    { unfold key_of. cbn [upd_node nodes]. rewrite lookup_alter_eq. by destruct (nodes s1 !! n). }
    split; cbn [with_list buffer_list upd_node flush_list next_node].
    + rewrite <- app_assoc. cbn [app]. rewrite <- Permutation_middle. by constructor.
    + done.
    + intros a. rewrite <- app_assoc. cbn [app]. rewrite <- Permutation_middle. intros [->|Ha]%elem_of_cons.
      * by apply (upd_is_Some s1 n g).
      * apply (upd_is_Some s1 n g). by apply H3.
    + intros a Ha. apply (upd_is_Some s1 n g) in Ha. by apply H4.
    + intros a b k' [Ha|Ha]%elem_of_app [Hb|Hb]%elem_of_app.
      all: change (key_of (upd_node n g s1) a = Some k' -> key_of (upd_node n g s1) b = Some k' -> a = b).
      2, 4: apply list_elem_of_singleton in Hb as ->; by rewrite Hnull.
      2: apply list_elem_of_singleton in Ha as ->; by rewrite Hnull.
      rewrite !Hold by done. by apply H5.
  - apply binv_install; [done|done|done|]. intros a Ha. by apply (not_matched _ _ _ _ Ef).
Qed.

Lemma load_node_binv s pd n : binv s pd -> binv (load_node n s) pd.
Proof.
  intros Hi. unfold load_node. destruct (nodes s !! n) as [b|]; [|done]. destruct (n_valid b); [done|].
  destruct (n_key b) as [k|]; [|done]. by apply binv_upd.
Qed.

Lemma bstep_binv s pd s' pd' : binv s pd -> bstep (s, pd) (s', pd') -> binv s' pd'.
Proof.
  intros Hi Hst. inversion Hst; subst.
  - match goal with H : get_start _ _ = (?r, _) |- _ => pose proof (get_start_binv _ _ _ _ _ Hi H); destruct r; naive_solver end.
  - match goal with H : get_start _ _ = _ |- _ => exact (get_start_binv _ _ _ _ _ Hi H) end.
  - apply flush_node_binv. eapply binv_pending; [exact Hi|]. by rewrite !victims_mid.
  - by eapply get_finish_binv.
  - by apply load_node_binv.
  - by apply binv_upd.
  - by apply binv_upd.
Qed.

End steps.

Lemma empty_binv d : binv (empty_manager d) [].
Proof. split; cbn; [apply NoDup_nil_2|done|by intros n ?%elem_of_nil|by intros n [? ?]|by intros n m k ?%elem_of_nil]. Qed.

(** C32. One buffer per block: in every state that overlapping gets, write-backs and
    uses reach from an empty cache, no two buffers of the list are for the same
    block, and every buffer is in one place, the list or the list of buffers
    being flushed. *)
Theorem one_buffer_per_block min max uninit d s pd :
  rtc (bstep min max uninit) (empty_manager d, []) (s, pd) ->
  (forall n m k, n ∈ buffer_list s -> m ∈ buffer_list s -> key_of s n = Some k -> key_of s m = Some k -> n = m) /\
  NoDup (buffer_list s ++ flush_list s).
Proof.
  intros Hr. assert (binv s pd) as [H1 H2 H3 H4 H5]; [|split; [done|by rewrite H2]].
  apply (rtc_ind_r (fun x => binv x.1 x.2)) in Hr; [done|apply empty_binv|].
  intros [s1 pd1] [s2 pd2] _ Hst Hs1. by eapply bstep_binv.
Qed.

(** ** What the users of the cache see *)

Definition disk_of (s : manager) (k : bkey) : memory := default ∅ (disk s !! k).

(** The current contents of a block: those of its buffer, or of the device. *)
Definition view (s : manager) (k : bkey) : memory :=
  match find_front (match_node s k) (buffer_list s) with
  | Some (n, _) =>
      match nodes s !! n with
      | Some b => if n_valid b then n_data b else disk_of s k
      | None => disk_of s k
      end
  | None => disk_of s k
  end.

Definition no_buffer (s : manager) (k : bkey) : Prop := forall n, n ∈ buffer_list s -> key_of s n <> Some k.

Lemma view_spec s k :
  (exists n b, n ∈ buffer_list s /\ nodes s !! n = Some b /\ n_key b = Some k) \/ (no_buffer s k /\ view s k = disk_of s k).
Proof.
  unfold view. destruct (find_front _ _) as [[n r]|] eqn:Ef; [left|right].
  - pose proof (find_front_spec _ _ _ _ Ef) as [Hm Hp]. apply match_node_key in Hm.
    destruct (key_of_is_Some _ _ _ Hm) as [b Hb]. exists n, b. unfold key_of in Hm. rewrite Hb in Hm.
    split_and!; [rewrite Hp; by left|done|done].
  - split; [|done]. intros n Hn. by apply (not_matched _ _ _ _ Ef).
Qed.

Lemma view_in s pd n b k :
  binv s pd -> n ∈ buffer_list s -> nodes s !! n = Some b -> n_key b = Some k ->
  view s k = if n_valid b then n_data b else disk_of s k.
Proof.
  intros Hi Hn Hb Hk. assert (key_of s n = Some k) as Hkn by (unfold key_of; by rewrite Hb).
  unfold view. destruct (find_front _ _) as [[m r]|] eqn:Ef.
  - apply find_front_spec in Ef as [Hm Hp]. apply match_node_key in Hm.
    assert (m = n) as ->; [|by rewrite Hb]. eapply (bi_unique _ _ Hi); [|done|done|done]. rewrite Hp. by left.
  - by apply (not_matched _ _ _ _ Ef) in Hkn.
Qed.

Lemma view_out s k : no_buffer s k -> view s k = disk_of s k.
Proof.
  intros Hn. destruct (view_spec s k) as [(n & b & Hin & Hb & Hk)|[_ Hv]]; [|done].
  exfalso. apply (Hn n Hin). unfold key_of. by rewrite Hb.
Qed.

(** A buffer for a block that has none does not change what is seen. *)
Lemma view_install s pd n k k' :
  binv s pd -> n ∉ buffer_list s ++ victims pd -> is_Some (nodes s !! n) -> no_buffer s k ->
  view (install n k s) k' = view s k'.
Proof.
  intros Hi Hn Hs Hk. pose proof (binv_install s pd n k Hi Hn Hs Hk) as Hi'.
  assert (forall m, m ∈ buffer_list s -> nodes (install n k s) !! m = nodes s !! m) as Hold.
  { intros m Hm. unfold install. cbn [with_list upd_node nodes]. apply lookup_alter_ne. set_solver. }
  destruct Hs as [b0 Hb0]. assert (nodes (install n k s) !! n = Some (init_node (Some k) b0)) as Hnew.
  { unfold install. cbn [with_list upd_node nodes]. by rewrite lookup_alter_eq, Hb0. }
  destruct (decide (k' = k)) as [->|Hne].
  - rewrite (view_in _ _ n _ k Hi' (ltac:(by left)) Hnew eq_refl). by rewrite view_out.
  - destruct (view_spec s k') as [(m & b & Hin & Hb & Hkb)|[Hno ->]].
    + rewrite (view_in _ _ m b k' Hi Hin Hb Hkb). rewrite <- Hold in Hb by done.
      by rewrite (view_in _ _ m b k' Hi' (ltac:(by right)) Hb Hkb).
    + rewrite view_out; [done|]. intros m [->|Hm]%elem_of_cons; unfold key_of; [by rewrite Hnew; cbn; congruence|].
      rewrite Hold by done. by apply Hno.
Qed.

(** What a clean buffer holds is on the device. *)
Definition clean_synced (s : manager) : Prop := forall n b k,
  n ∈ buffer_list s -> nodes s !! n = Some b -> n_key b = Some k -> n_valid b = true -> n_dirty b = false ->
  n_data b = disk_of s k.

(** Taking the buffer [n] out, written back if it must be. *)
Lemma view_evict s pd n b r d k' :
  binv s pd -> buffer_list s ≡ₚ n :: r -> nodes s !! n = Some b ->
  (forall k, n_key b = Some k -> default ∅ (d !! k) = (if n_valid b then n_data b else disk_of s k)) ->
  (forall k, n_key b <> Some k -> d !! k = disk s !! k) ->
  view (Manager (nodes s) r (flush_list s) d (next_node s)) k' = view s k'.
Proof.
  intros Hi Hp Hb Hd1 Hd2. destruct (binv_remove s pd n r Hi Hp) as [Hr Hn]. set (s' := Manager _ _ _ _ _).
  assert (binv s' pd) as Hi' by by eapply binv_same; [exact Hr|..].
  destruct (decide (n_key b = Some k')) as [Hk|Hk].
  - rewrite (view_in s pd n b k' Hi (ltac:(rewrite Hp; by left)) Hb Hk), <- Hd1 by done. apply view_out.
    intros m Hm Hkm. assert (m = n) as ->; [|set_solver].
    eapply (bi_unique _ _ Hi); [rewrite Hp; by right|rewrite Hp; by left|exact Hkm|unfold key_of; by rewrite Hb].
  - assert (disk_of s' k' = disk_of s k') as Hdk by (unfold disk_of; cbn [s' disk]; by rewrite Hd2).
    destruct (view_spec s' k') as [(m & c & Hin & Hc & Hkc)|[Hno ->]].
    + rewrite (view_in s' pd m c k' Hi' Hin Hc Hkc), Hdk. symmetry. apply (view_in s pd m c k' Hi); [|done|done].
      rewrite Hp. by right.
    + rewrite Hdk. symmetry. apply view_out. intros m Hm. rewrite Hp in Hm.
      apply elem_of_cons in Hm as [->|Hm]; [unfold key_of; by rewrite Hb|by apply Hno].
Qed.

(** Only the buffers of the list and the device are seen. *)
Lemma view_agree s s' k :
  buffer_list s' = buffer_list s -> disk s' = disk s ->
  (forall n, n ∈ buffer_list s -> nodes s' !! n = nodes s !! n) -> view s' k = view s k.
Proof.
  intros Hl Hd Hn. unfold view. rewrite Hl. rewrite (find_front_ext (match_node s' k) (match_node s k)).
  - destruct (find_front _ _) as [[n r]|] eqn:Ef; [|unfold disk_of; by rewrite Hd].
    apply find_front_spec in Ef as [_ Hp]. rewrite Hn by (rewrite Hp; by left). unfold disk_of. by rewrite Hd.
  - intros n Hin. unfold match_node. by rewrite Hn.
Qed.

Lemma view_upd s n g k :
  (forall b, n_key (g b) = n_key b /\ n_valid (g b) = n_valid b /\ n_data (g b) = n_data b) ->
  view (upd_node n g s) k = view s k.
Proof.
  intros Hg. unfold view. rewrite (find_front_ext (match_node (upd_node n g s) k) (match_node s k)).
  - cbn [upd_node buffer_list nodes]. destruct (find_front _ _) as [[m r]|]; [|done].
    destruct (decide (m = n)) as [->|].
    + rewrite lookup_alter_eq. destruct (nodes s !! n) as [b|]; [|done]. cbn. by destruct (Hg b) as (_ & -> & ->).
    + by rewrite lookup_alter_ne.
  - intros m _. apply eq_bool_prop_intro. rewrite !Is_true_true, !match_node_key, key_of_upd; [done|]. intros b. by apply Hg.
Qed.

(** Between two operations of the users: nobody holds a buffer. *)
Record idle (s : manager) : Prop := {
  id_inv : binv s [];
  id_sync : clean_synced s;
  id_users : forall n b, n ∈ buffer_list s -> nodes s !! n = Some b -> users b = 0%nat
}.

(** [n] is the buffer of [k], held by one user; the others are not in use. *)
Record holds_buffer (k : bkey) (n : nat) (s : manager) : Prop := {
  hb_inv : binv s [];
  hb_sync : clean_synced s;
  hb_in : n ∈ buffer_list s;
  hb_node : exists b, nodes s !! n = Some b /\ n_key b = Some k /\ users b = 1%nat;
  hb_users : forall m b, m ∈ buffer_list s -> m <> n -> nodes s !! m = Some b -> users b = 0%nat
}.

(** A node that was taken out of the list, or made, becomes the buffer. *)
Lemma install_spec t n k b :
  idle t -> n ∉ buffer_list t -> nodes t !! n = Some b -> users b = 1%nat -> no_buffer t k ->
  holds_buffer k n (install n k t) /\ forall k', view (install n k t) k' = view t k'.
Proof.
  intros [Hi Hs Hu] Hn Hb Hb1 Hk. assert (n ∉ buffer_list t ++ victims []) as Hn' by (cbn; by rewrite app_nil_r).
  assert (forall m, m ∈ buffer_list t -> nodes (install n k t) !! m = nodes t !! m) as Hold.
  { intros m Hm. unfold install. cbn [with_list upd_node nodes]. apply lookup_alter_ne. set_solver. }
  assert (nodes (install n k t) !! n = Some (init_node (Some k) b)) as Hnew.
  { unfold install. cbn [with_list upd_node nodes]. by rewrite lookup_alter_eq, Hb. }
  split; [|intros k'; by eapply view_install]. split.
  - by eapply binv_install.
  - intros m c k' [->|Hm]%elem_of_cons; [rewrite Hnew; by intros [= <-]|]. rewrite Hold by done. by apply Hs.
  - by left.
  - by exists (init_node (Some k) b).
  - intros m c [->|Hm]%elem_of_cons Hne; [done|]. rewrite Hold by done. by apply Hu.
Qed.

Lemma no_buffer_find t k : no_buffer t k -> find_front (match_node t k) (buffer_list t) = None.
Proof.
  intros Hn. destruct (find_front _ _) as [[m r]|] eqn:Ef; [|done]. apply find_front_spec in Ef as [Hm Hp].
  exfalso. apply (Hn m); [rewrite Hp; by left|by apply match_node_key].
Qed.

(** The state with [n] evicted: its contents are on the device [d], where
    nothing else changed. *)
Lemma evicted s n b r N b' d k :
  idle s -> buffer_list s ≡ₚ n :: r -> nodes s !! n = Some b ->
  (forall m, m <> n -> N !! m = nodes s !! m) -> N !! n = Some b' ->
  (forall k, n_key b = Some k -> default ∅ (d !! k) = (if n_valid b then n_data b else disk_of s k)) ->
  (forall k, n_key b <> Some k -> d !! k = disk s !! k) -> no_buffer s k ->
  let t := Manager N r [] d (next_node s) in
  idle t /\ n ∉ r /\ no_buffer t k /\ forall k', view t k' = view s k'.
Proof.
  intros [Hi Hs Hu] Hp Hb HN Hn Hd1 Hd2 Hk t. destruct (binv_remove s [] n r Hi Hp) as [Hr Hnr].
  assert (n ∉ r) as Hnr' by set_solver.
  assert (forall m, m ∈ r -> N !! m = nodes s !! m) as Hold by (intros m Hm; apply HN; set_solver).
  assert (forall m, m ∈ r -> m ∈ buffer_list s) as Hsub by (intros m Hm; rewrite Hp; by right).
  split_and!.
  - split.
    + destruct Hr as [H1 H2 H3 H4 H5]. split; [done|done| | |].
      * intros m Hm. cbn [t nodes buffer_list] in *. cbn [victims fmap list_fmap] in Hm. rewrite app_nil_r in Hm. rewrite Hold by done.
        apply (bi_nodes _ _ Hi). rewrite Hp. set_solver.
      * intros m. cbn [t nodes next_node]. destruct (decide (m = n)) as [->|]; [intros _; apply (bi_fresh _ _ Hi); by eexists|].
        rewrite HN by done. apply (bi_fresh _ _ Hi).
      * intros a c k'. cbn [t buffer_list]. intros Ha Hc. unfold key_of. cbn [t nodes]. rewrite !Hold by done.
        apply (bi_unique _ _ Hi); auto.
    + intros m c k' Hm. cbn [t buffer_list nodes] in *. rewrite Hold by done. intros Hc Hkc Hv Hd.
      rewrite (Hs m c k') by auto. unfold disk_of. cbn [t disk]. rewrite Hd2; [done|]. intros Hkb. apply Hnr'.
      assert (m = n) as ->; [|done]. eapply (bi_unique _ _ Hi); [auto|rewrite Hp; by left| |]; unfold key_of; [by rewrite Hc|by rewrite Hb].
    + intros m c Hm. cbn [t buffer_list nodes] in *. rewrite Hold by done. by apply Hu; auto.
  - done.
  - intros m Hm. cbn [t buffer_list] in Hm. unfold key_of. cbn [t nodes]. rewrite Hold by done. by apply Hk; auto.
  - intros k'. rewrite <- (view_evict s [] n b r d k' Hi Hp Hb Hd1 Hd2). apply view_agree; [done|done|]. cbn [buffer_list]. done.
Qed.

Section get.
Context (min_buffer_count max_buffer_count : Z) (uninit : memory).
Hypothesis Hmin : min_buffer_count <= max_buffer_count.
Hypothesis Hmax : 1 <= max_buffer_count.

Lemma find_unused_some s :
  idle s -> max_buffer_count <= size s -> exists n r, find_unused min_buffer_count s = Some (n, r).
Proof.
  intros [Hi _ Hu] Hsz. unfold find_unused. rewrite (proj2 (Z.leb_le _ _)) by lia.
  destruct (find_front _ _) as [[n r]|] eqn:Ef; [by eexists _, _|exfalso].
  unfold size in Hsz. destruct (buffer_list s) as [|n l] eqn:El; [cbn in Hsz; lia|].
  assert (n ∈ rev (n :: l)) as Hn by (rewrite <- Permutation_rev; by left).
  pose proof (find_front_none _ _ _ Ef Hn) as Hf. unfold unused in Hf.
  destruct (bi_nodes _ _ Hi n) as [b Hb]; [rewrite El; by left|]. rewrite Hb in Hf.
  apply bool_decide_eq_false in Hf. apply Hf, (Hu n); [by left|done].
Qed.

Lemma get_spec s k :
  idle s -> exists n s', get min_buffer_count max_buffer_count uninit k s = (Done n, s') /\ holds_buffer k n s' /\
    forall k', view s' k' = view s k'.
Proof.
  intros Hid. pose proof Hid as [Hi Hs Hu]. pose proof (bi_flush _ _ Hi) as Hfl. apply Permutation_nil_r in Hfl.
  unfold get, get_start. rewrite Hfl. cbn [existsb].
  destruct (find_front _ (buffer_list s)) as [[n l]|] eqn:Ef.
  { apply find_front_spec in Ef as [Hm Hp]. apply match_node_key in Hm. destruct (key_of_is_Some _ _ _ Hm) as [b Hb].
    eexists n, _. split; [reflexivity|].
    assert (binv (with_list (n :: l) s) []) as Hi1 by (eapply binv_same; [exact Hi|done|done|by rewrite Hp|done|done]).
    split.
    - split.
      + by apply binv_upd.
      + intros m c k'. cbn [upd_node with_list buffer_list nodes]. intros Hin. rewrite <- Hp in Hin.
        destruct (decide (m = n)) as [->|].
        * rewrite lookup_alter_eq, Hb. intros [= <-]. by apply (Hs n b).
        * rewrite lookup_alter_ne by done. by apply Hs.
      + by left.
      + exists (add_user b). cbn [upd_node with_list nodes]. rewrite lookup_alter_eq, Hb. unfold key_of in Hm. rewrite Hb in Hm.
        split_and!; [done|done|]. cbn. f_equal. apply (Hu n); [rewrite Hp; by left|done].
      + intros m c. cbn [upd_node with_list buffer_list nodes]. intros Hin Hne. rewrite <- Hp in Hin.
        rewrite lookup_alter_ne by done. by apply Hu.
    - intros k'. rewrite view_upd by done. destruct (view_spec s k') as [(m & c & Hin & Hc & Hkc)|[Hno ->]].
      + rewrite (view_in s [] m c k' Hi Hin Hc Hkc). rewrite Hp in Hin.
        by rewrite (view_in (with_list (n :: l) s) [] m c k' Hi1 Hin Hc Hkc).
      + rewrite view_out; [done|]. intros m Hin. cbn [with_list buffer_list] in Hin. rewrite <- Hp in Hin. by apply Hno. }
  assert (no_buffer s k) as Hnok by (intros m Hm; by apply (not_matched _ _ _ _ Ef)).
  destruct (find_unused _ s) as [[n r]|] eqn:Eu.
  - apply find_unused_spec in Eu as [_ Hp]. destruct (bi_nodes _ _ Hi n) as [b Hb]; [rewrite Hp; by left|].
    assert (n ∈ buffer_list s) as Hin by (rewrite Hp; by left).
    set (N := alter (set_users 1) n (nodes s)). assert (N !! n = Some (set_users 1 b)) as HNn by (unfold N; by rewrite lookup_alter_eq, Hb).
    unfold is_dirty. cbn [upd_node with_list nodes]. fold N. rewrite HNn. cbn [set_users n_dirty].
    destruct (n_dirty b) eqn:Hdb.
    + unfold with_flush, upd_node, with_list. cbn [nodes buffer_list flush_list disk next_node]. fold N. rewrite Hfl. cbn [app].
      assert (exists N2 b2 d, flush_node n (Manager N r [n] (disk s) (next_node s)) = Manager N2 r [n] d (next_node s) /\
        (forall m, m <> n -> N2 !! m = nodes s !! m) /\ N2 !! n = Some b2 /\ users b2 = 1%nat /\
        (forall k, n_key b = Some k -> default ∅ (d !! k) = (if n_valid b then n_data b else disk_of s k)) /\
        (forall k, n_key b <> Some k -> d !! k = disk s !! k)) as (N2 & b2 & d & -> & HN2 & Hn2 & Hu2 & Hd1 & Hd2).
      { unfold flush_node. cbn [nodes]. rewrite HNn. cbn [set_users n_valid n_dirty n_key n_data]. rewrite Hdb, andb_true_r.
        assert (forall m, m <> n -> N !! m = nodes s !! m) as HN by (intros m Hm; by apply lookup_alter_ne).
        destruct (n_valid b) eqn:Hv; [destruct (n_key b) as [k0|] eqn:Hk0|].
        - eexists _, _, _. split; [reflexivity|]. cbn [upd_node nodes disk]. split_and!.
          + intros m Hm. rewrite lookup_alter_ne by done. by apply HN.
          + rewrite lookup_alter_eq, HNn. reflexivity.
          + reflexivity.
          + intros k1 [= <-]. by rewrite lookup_insert_eq.
          + intros k1 Hk1. apply lookup_insert_ne. congruence.
        - eexists N, _, _. split_and!; [reflexivity|done|exact HNn|done|done|done].
        - eexists N, _, _. split_and!; [reflexivity|done|exact HNn|done|done|done]. }
      destruct (evicted s n b r N2 b2 d k Hid Hp Hb HN2 Hn2 Hd1 Hd2 Hnok) as (Ht & Hnr & Hnot & Hview).
      unfold get_finish, with_flush. cbn [flush_list nodes buffer_list disk next_node].
      rewrite filter_cons_False, filter_nil by naive_solver.
      pose proof (no_buffer_find _ _ Hnot) as Hff. cbn [buffer_list] in Hff. rewrite Hff.
      eexists _, _. split; [reflexivity|].
      destruct (install_spec _ n k b2 Ht Hnr Hn2 Hu2 Hnot) as [Hhb Hv]. split; [done|]. intros k'. by rewrite Hv.
    + destruct (evicted s n b r N (set_users 1 b) (disk s) k Hid Hp Hb) as (Ht & Hnr & Hnot & Hview); [|done| |done|done|].
      { intros m Hm. by apply lookup_alter_ne. }
      { intros k0 Hk0. destruct (n_valid b) eqn:Hv; [|done]. by rewrite (Hs n b k0). }
      eexists _, _. split; [reflexivity|].
      unfold upd_node, with_list. cbn [nodes buffer_list flush_list disk next_node]. rewrite Hfl. fold N.
      destruct (install_spec _ n k _ Ht Hnr HNn eq_refl Hnot) as [Hhb Hv]. split; [done|]. intros k'. by rewrite Hv.
  - destruct (Z.leb_spec max_buffer_count (size s)) as [Hge|_].
    { destruct (find_unused_some s Hid Hge) as (n & r & E). by rewrite E in Eu. }
    eexists _, _. split; [reflexivity|].
    destruct (binv_new s [] (Node None false false uninit 1) Hi) as (Hn & Hnot & Hk).
    cbn [victims fmap list_fmap] in Hnot. rewrite app_nil_r in Hnot.
    match goal with |- holds_buffer _ _ (install _ _ ?t) /\ _ => set (t0 := t) end.
    assert (forall m, m ∈ buffer_list s -> nodes t0 !! m = nodes s !! m) as Hold.
    { intros m Hm. unfold t0. cbn [nodes]. apply lookup_insert_ne. set_solver. }
    assert (idle t0) as Ht.
    { split; [rewrite Hfl in Hn; exact Hn| |].
      - intros m c k' Hm. rewrite Hold by done. by apply Hs.
      - intros m c Hm. rewrite Hold by done. by apply Hu. }
    destruct (install_spec t0 (next_node s) k (Node None false false uninit 1) Ht Hnot) as [Hhb Hv]; [apply lookup_insert_eq|done| |].
    { intros m Hm. unfold key_of. rewrite Hold by done. by apply Hnok. }
    split; [done|]. intros k'. rewrite Hv. by apply view_agree.
Qed.

End get.

(** ** The cache is an array of blocks *)

(** Changing the held buffer. *)
Lemma holds_upd k n s g b :
  holds_buffer k n s -> nodes s !! n = Some b -> n_key (g b) = Some k -> users (g b) = 1%nat ->
  (n_valid (g b) = true -> n_dirty (g b) = false -> n_data (g b) = disk_of s k) ->
  holds_buffer k n (upd_node n g s) /\ nodes (upd_node n g s) !! n = Some (g b) /\
  forall k', view (upd_node n g s) k' =
    if decide (k' = k) then (if n_valid (g b) then n_data (g b) else disk_of s k) else view s k'.
Proof.
  intros [Hi Hs Hin (b0 & Hb0 & Hk & Hu1) Hu] Hb Hkg Hug Hsg. rewrite Hb in Hb0. injection Hb0 as <-.
  assert (nodes (upd_node n g s) !! n = Some (g b)) as Hgn by (cbn; by rewrite lookup_alter_eq, Hb).
  assert (forall m, m <> n -> nodes (upd_node n g s) !! m = nodes s !! m) as Hold by (intros m Hm; by apply lookup_alter_ne).
  assert (forall m, key_of (upd_node n g s) m = key_of s m) as Hkey.
  { intros m. unfold key_of. destruct (decide (m = n)) as [->|]; [rewrite Hgn, Hb; cbn; congruence|by rewrite Hold]. }
  assert (binv (upd_node n g s) []) as Hi' by (eapply binv_same; [exact Hi|done|intros; apply upd_is_Some|done|done|done]).
  split_and!; [|done|].
  - split; [done| |done|by exists (g b)|].
    + intros m c k' Hm. destruct (decide (m = n)) as [->|].
      * rewrite Hgn. intros [= <-] Hkc. rewrite Hkg in Hkc. injection Hkc as <-. exact Hsg.
      * rewrite Hold by done. by apply Hs.
    + intros m c Hm Hne. rewrite Hold by done. by apply Hu.
  - intros k'. case_decide as Hkk.
    + subst k'. exact (view_in (upd_node n g s) [] n (g b) k Hi' Hin Hgn Hkg).
    + destruct (view_spec s k') as [(m & c & Hm & Hc & Hkc)|[Hno ->]].
      * assert (m <> n) as Hmn by congruence. rewrite (view_in s [] m c k' Hi Hm Hc Hkc). rewrite <- Hold in Hc by done.
        by rewrite (view_in _ [] m c k' Hi' Hm Hc Hkc).
      * rewrite view_out; [done|]. intros m Hm. rewrite Hkey. by apply Hno.
Qed.

Lemma load_holds k n s :
  holds_buffer k n s -> exists b, holds_buffer k n (load_node n s) /\ nodes (load_node n s) !! n = Some b /\
    n_key b = Some k /\ users b = 1%nat /\ n_valid b = true /\ n_data b = view s k /\ (forall k', view (load_node n s) k' = view s k') /\
    disk_of (load_node n s) k = disk_of s k.
Proof.
  intros Hh. pose proof Hh as [Hi Hs Hin (b & Hb & Hk & Hu1) Hu]. unfold load_node. rewrite Hb.
  pose proof (view_in s [] n b k Hi Hin Hb Hk) as Hview.
  destruct (n_valid b) eqn:Hv.
  - exists b. split_and!; done.
  - rewrite Hk. set (g := fun b => Node (n_key b) true false (default ∅ (disk s !! k)) (users b)).
    destruct (holds_upd k n s g b Hh Hb) as (Hh' & Hn' & Hv'); [done|done|done|].
    exists (g b). split_and!; try done. intros k'. rewrite Hv'. case_decide; [subst k'; cbn; by rewrite Hview|done].
Qed.

Lemma put_idle k n s : holds_buffer k n s -> idle (put_node n s) /\ forall k', view (put_node n s) k' = view s k'.
Proof.
  intros [Hi Hs Hin (b & Hb & Hk & Hu1) Hu]. unfold put_node. split; [|intros k'; by apply view_upd]. split.
  - by apply binv_upd.
  - intros m c k' Hm. cbn [upd_node nodes]. destruct (decide (m = n)) as [->|].
    + rewrite lookup_alter_eq, Hb. intros [= <-]. by apply (Hs n b).
    + rewrite lookup_alter_ne by done. by apply Hs.
  - intros m c Hm. cbn [upd_node nodes]. destruct (decide (m = n)) as [->|].
    + rewrite lookup_alter_eq, Hb. intros [= <-]. cbn. by rewrite Hu1.
    + rewrite lookup_alter_ne by done. by apply Hu.
Qed.

(** A use of a block: get, load, read or change the contents, give it up. *)
Inductive block_op : Type := ReadBlock (k : bkey) | WriteBlock (k : bkey) (m : memory).

Section ops.
Context (min_buffer_count max_buffer_count : Z) (uninit : memory).
Notation get := (get min_buffer_count max_buffer_count uninit).

Definition run_op (o : block_op) (s : manager) : option (memory * manager) :=
  let 'k := match o with ReadBlock k | WriteBlock k _ => k end in
  match get k s with
  | (Done n, s) =>
      let s := load_node n s in
      let s := match o with ReadBlock _ => s | WriteBlock _ m => modify_node n m s end in
      match nodes s !! n with
      | Some b => Some (n_data b, put_node n s)
      | None => None
      end
  | _ => None
  end.

Fixpoint run_ops (os : list block_op) (s : manager) : option (list memory * manager) :=
  match os with
  | [] => Some ([], s)
  | o :: os' =>
      match run_op o s with
      | Some (m, s1) =>
          match run_ops os' s1 with
          | Some (ms, s2) => Some (m :: ms, s2)
          | None => None
          end
      | None => None
      end
  end.

(** The same on an array of blocks. *)
Definition spec_op (o : block_op) (f : bkey -> memory) : memory * (bkey -> memory) :=
  match o with
  | ReadBlock k => (f k, f)
  | WriteBlock k m => (m, fun k' => if decide (k' = k) then m else f k')
  end.
Fixpoint spec_ops (os : list block_op) (f : bkey -> memory) : list memory * (bkey -> memory) :=
  match os with
  | [] => ([], f)
  | o :: os' => let '(m, f1) := spec_op o f in let '(ms, f2) := spec_ops os' f1 in (m :: ms, f2)
  end.

Lemma run_op_spec o s f :
  min_buffer_count <= max_buffer_count -> 1 <= max_buffer_count -> idle s -> (forall k, view s k = f k) ->
  exists s', run_op o s = Some (fst (spec_op o f), s') /\ idle s' /\ forall k, view s' k = snd (spec_op o f) k.
Proof.
  intros Hmin Hmax Hid Hf. set (k := match o with ReadBlock k | WriteBlock k _ => k end).
  destruct (get_spec _ _ uninit Hmin Hmax s k Hid) as (n & s1 & Hget & Hh & Hv1).
  destruct (load_holds k n s1 Hh) as (b & Hh2 & Hb & Hkb & Hub & Hvb & Hdb & Hv2 & Hdk).
  unfold run_op. fold k. rewrite Hget. cbv beta iota zeta. destruct o as [k0|k0 m].
  - rewrite Hb. destruct (put_idle k n _ Hh2) as [Hid3 Hv3]. eexists. split; [do 2 f_equal; cbn; by rewrite Hdb, Hv1, Hf|].
    split; [done|]. intros k'. by rewrite Hv3, Hv2, Hv1, Hf.
  - unfold modify_node. set (g := fun b => Node (n_key b) (n_valid b) true m (users b)).
    destruct (holds_upd k n (load_node n s1) g b Hh2 Hb) as (Hh3 & Hn3 & Hv3); [done|done|done|].
    rewrite Hn3. destruct (put_idle k n _ Hh3) as [Hid4 Hv4]. eexists. split; [reflexivity|]. split; [done|].
    intros k'. rewrite Hv4, Hv3. cbn [g n_valid n_data spec_op snd]. rewrite Hvb. change k with k0. case_decide; [done|]. by rewrite Hv2, Hv1, Hf.
Qed.

End ops.

(** C8. The cache is transparent: with one user at a time every sequence of reads
    and writes of blocks runs to its end and returns what it would return on
    an array of blocks, whatever is evicted, written back and loaded again on
    the way. *)
Theorem cache_refines_array min max uninit os s f :
  min <= max -> 1 <= max -> idle s -> (forall k, view s k = f k) ->
  exists s', run_ops min max uninit os s = Some (fst (spec_ops os f), s') /\ idle s' /\
    forall k, view s' k = snd (spec_ops os f) k.
Proof.
  intros Hmin Hmax. revert s f. induction os as [|o os IH]; intros s f Hid Hf; cbn [run_ops spec_ops].
  { exists s. done. }
  destruct (run_op_spec min max uninit o s f Hmin Hmax Hid Hf) as (s1 & -> & Hid1 & Hf1).
  destruct (spec_op o f) as [m f1]. cbn [fst snd] in *. destruct (IH s1 f1 Hid1 Hf1) as (s2 & -> & Hid2 & Hf2).
  destruct (spec_ops os f1) as [ms f2]. exists s2. done.
Qed.

Lemma empty_idle d : idle (empty_manager d).
Proof.
  split; [apply empty_binv|by intros n b k ?%elem_of_nil|by intros n b ?%elem_of_nil].
Qed.

Lemma cache_refines_array_witness :
  exists s', run_ops 1 2 ∅ [WriteBlock (0, 5) {[0 := 7]}; ReadBlock (0, 6); ReadBlock (0, 5)] (empty_manager ∅) =
      Some ([{[0 := 7]}; ∅; {[0 := 7]}], s') /\ idle s' /\
    forall k, view s' k = if decide (k = (0, 5)) then {[0 := 7]} else ∅.
Proof.
  apply (cache_refines_array 1 2 ∅ [WriteBlock (0, 5) {[0 := 7]}; ReadBlock (0, 6); ReadBlock (0, 5)] (empty_manager ∅) (fun _ => ∅));
    [lia|lia|exact (empty_idle ∅)|reflexivity].
Defined.

(** ** Emptying the cache *)

Lemma reset_node_spec s n b :
  nodes s !! n = Some b ->
  nodes (reset_node s n) !! n = Some (init_node None (Node (n_key b) (n_valid b)
    (n_dirty b && negb (n_valid b && bool_decide (is_Some (n_key b)))) (n_data b) (users b))) /\
  (forall m, m <> n -> nodes (reset_node s n) !! m = nodes s !! m) /\
  (forall k, disk_of (reset_node s n) k =
     if bool_decide (n_key b = Some k) && n_valid b && n_dirty b then n_data b else disk_of s k).
Proof.
  intros Hb. unfold reset_node, flush_node. rewrite Hb.
  destruct (n_valid b) eqn:Hv, (n_dirty b) eqn:Hd, (n_key b) as [k0|] eqn:Hk; cbn [andb negb].
  all: split_and!; [cbn [upd_node nodes]; rewrite ?lookup_alter_eq, ?Hb; cbn; unfold init_node; cbn; rewrite ?Hv, ?Hd, ?Hk; reflexivity
    |intros m Hm; cbn [upd_node nodes]; by rewrite ?lookup_alter_ne by done|].
  all: intros k; unfold disk_of; cbn [upd_node disk]; rewrite ?andb_false_r, ?andb_true_r; try done.
  case_bool_decide as Hkk; [injection Hkk as ->; by rewrite lookup_insert_eq|]. by rewrite lookup_insert_ne by congruence.
Qed.

Definition synced_node (s : manager) (n : nat) : Prop := forall b k,
  nodes s !! n = Some b -> n_key b = Some k -> n_valid b = true -> n_dirty b = false -> n_data b = disk_of s k.

(** A block without a buffer in the list is not written. *)
Lemma reset_disk_other l s k :
  NoDup l -> (forall m, m ∈ l -> is_Some (nodes s !! m)) -> (forall m, m ∈ l -> key_of s m <> Some k) ->
  disk_of (foldl reset_node s l) k = disk_of s k.
Proof.
  revert s. induction l as [|m l IH]; intros s Hnd Hs Hk; [done|]. apply NoDup_cons in Hnd as [Hml Hnd].
  cbn [foldl]. destruct (Hs m) as [c Hc]; [by left|]. destruct (reset_node_spec s m c Hc) as (J1 & J2 & J3). rewrite IH.
  - rewrite J3, bool_decide_eq_false_2; [done|]. intros Hkc. apply (Hk m); [by left|]. unfold key_of. by rewrite Hc.
  - done.
  - intros q Hq. rewrite J2 by set_solver. apply Hs. by right.
  - intros q Hq. unfold key_of. rewrite J2 by set_solver. apply Hk. by right.
Qed.

Lemma reset_all l s :
  NoDup l -> (forall n, n ∈ l -> is_Some (nodes s !! n)) ->
  (forall n m k, n ∈ l -> m ∈ l -> key_of s n = Some k -> key_of s m = Some k -> n = m) ->
  (forall n, n ∈ l -> synced_node s n) ->
  let s' := foldl reset_node s l in
  (forall m, m ∉ l -> nodes s' !! m = nodes s !! m) /\ (forall n, n ∈ l -> key_of s' n = None) /\
  (forall n b k, n ∈ l -> nodes s !! n = Some b -> n_key b = Some k ->
     disk_of s' k = if n_valid b then n_data b else disk_of s k).
Proof.
  revert s. induction l as [|n l IH]; intros s Hnd Hn Hu Hs; cbn [foldl].
  { split_and!; [done|by intros n ?%elem_of_nil|by intros n b k ?%elem_of_nil]. }
  apply NoDup_cons in Hnd as [Hnl Hnd]. destruct (Hn n) as [b Hb]; [by left|].
  destruct (reset_node_spec s n b Hb) as (H1 & H2 & H3).
  assert (forall m, m ∈ l -> nodes (reset_node s n) !! m = nodes s !! m) as H2' by (intros m Hm; apply H2; set_solver).
  assert (forall m k, m ∈ l -> key_of s m = Some k -> disk_of (reset_node s n) k = disk_of s k) as Hdisk.
  { intros m k Hm Hk. rewrite H3. rewrite bool_decide_eq_false_2; [done|]. intros Hkb. apply Hnl.
    rewrite (Hu n m k); [done|by left|by right|unfold key_of; by rewrite Hb|done]. }
  destruct (IH (reset_node s n) Hnd) as (I1 & I2 & I3).
  - intros m Hm. rewrite H2' by done. apply Hn. by right.
  - intros a c k Ha Hc. unfold key_of. rewrite !H2' by done. apply Hu; by right.
  - intros m Hm c k. rewrite H2' by done. intros Hc Hk Hv Hd. rewrite (Hdisk m k Hm); [|unfold key_of; by rewrite Hc].
    apply (Hs m (ltac:(by right)) c k); done.
  - split_and!.
    + intros m Hm. rewrite I1, H2 by set_solver. done.
    + intros m [->|Hm]%elem_of_cons; [|by apply I2]. unfold key_of. rewrite I1 by done. by rewrite H1.
    + intros m c k [->|Hm]%elem_of_cons Hc Hk.
      * rewrite Hb in Hc. injection Hc as <-.
        assert (disk_of (foldl reset_node (reset_node s n) l) k = disk_of (reset_node s n) k) as ->.
        { apply reset_disk_other; [done| |].
          - intros m Hm. rewrite H2' by done. apply Hn. by right.
          - intros m Hm Hkm. unfold key_of in Hkm. rewrite H2' in Hkm by done. apply Hnl.
            rewrite (Hu n m k); [done|by left|by right|unfold key_of; by rewrite Hb|done]. }
        rewrite H3, bool_decide_eq_true_2 by done. destruct (n_valid b) eqn:Hv; [|done]. destruct (n_dirty b) eqn:Hd; [done|].
        cbn. symmetry. apply (Hs n (ltac:(by left)) b k); done.
      * rewrite (I3 m c k Hm); [|by rewrite H2'|done]. destruct (n_valid c); [done|]. apply (Hdisk m); [done|].
        unfold key_of. by rewrite Hc.
Qed.

Lemma match_device_key s dev n : match_device s dev n = true <-> exists k, key_of s n = Some k /\ fst k = dev.
Proof.
  unfold match_device, key_of. destruct (nodes s !! n) as [b|]; cbn; [|naive_solver].
  destruct (n_key b) as [[d x]|]; [|naive_solver]. rewrite Z.eqb_eq. split; [intros ->; by exists (dev, x)|]. by intros (k & [= <-] & <-).
Qed.

(** Unmounting: when nobody uses a buffer, [destroy] reports no failure, what
    the users saw of every block of the device is on the device afterwards, and
    no buffer of the device is left. *)
Theorem destroy_writes_back dev s failed s' :
  idle s -> destroy dev s = (failed, s') ->
  failed = 0 /\ forall k, fst k = dev -> disk_of s' k = view s k /\ no_buffer s' k.
Proof.
  intros [Hi Hs Hu] [= <- <-]. pose proof (bi_nodup _ _ Hi) as Hnd. cbn in Hnd. rewrite app_nil_r in Hnd.
  assert (forall n, n ∈ buffer_list s -> unused s n = true) as Hun.
  { intros n Hn. unfold unused. destruct (bi_nodes _ _ Hi n) as [b Hb]; [by apply elem_of_app; left|].
    rewrite Hb. apply bool_decide_eq_true. by apply (Hu n). }
  split.
  { assert (filter (fun n => match_device s dev n && negb (unused s n)) (buffer_list s) = []) as ->; [|done].
    apply elem_of_nil_inv. intros n [Hf Hn]%list_elem_of_filter. rewrite (Hun n Hn), andb_false_r in Hf. done. }
  set (vs := filter (fun n => match_device s dev n && unused s n) (buffer_list s)).
  set (rest := filter (fun n => negb (match_device s dev n)) (buffer_list s)).
  assert (forall n, n ∈ vs <-> n ∈ buffer_list s /\ match_device s dev n = true) as Hvs.
  { intros n. unfold vs. rewrite list_elem_of_filter, Is_true_true, andb_true_iff. naive_solver. }
  destruct (reset_all vs (with_list rest s)) as (R1 & R2 & R3).
  { by apply NoDup_filter. }
  { intros n [Hn _]%Hvs. apply (bi_nodes _ _ Hi), elem_of_app. by left. }
  { intros n m k [Hn _]%Hvs [Hm _]%Hvs. by apply (bi_unique _ _ Hi). }
  { intros n [Hn _]%Hvs b k. by apply Hs. }
  set (s1 := foldl reset_node (with_list rest s) vs) in *.
  intros k Hk. change (disk_of s1 k = view s k /\ no_buffer (with_list (rest ++ vs) s1) k). split.
  - destruct (view_spec s k) as [(n & b & Hn & Hb & Hkb)|[Hno ->]].
    + rewrite (view_in s [] n b k Hi Hn Hb Hkb). apply (R3 n b k); [|done|done]. apply Hvs. split; [done|].
      apply match_device_key. exists k. split; [unfold key_of; by rewrite Hb|done].
    + apply (reset_disk_other vs (with_list rest s) k); [by apply NoDup_filter| |].
      * intros n [Hn _]%Hvs. apply (bi_nodes _ _ Hi), elem_of_app. by left.
      * intros n [Hn _]%Hvs. by apply Hno.
  - intros n. cbn [with_list buffer_list]. intros [Hn|Hn]%elem_of_app.
    + apply list_elem_of_filter in Hn as [Hm Hn]. apply Is_true_true, negb_true_iff in Hm.
      assert (n ∉ vs) as Hnv by (rewrite Hvs; naive_solver congruence).
      change (key_of s1 n <> Some k). unfold key_of. rewrite R1 by done. intros Hkn.
      assert (match_device s dev n = true) as Hm'; [|congruence]. apply match_device_key. by exists k.
    + change (key_of s1 n <> Some k). by rewrite R2.
Qed.

(** ** Overlapping gets *)

(** The cache (one buffer before it evicts) has one dirty buffer, of block 1,
    which nobody uses; block 2 is all zeros on the device. *)
Definition race_start : manager :=
  Manager {[0%nat := Node (Some (0, 1)) true true {[0 := 11]} 0]} [0%nat] [] {[(0, 2) := {[0 := 0]}]} 1.

(** A asks for block 2 and begins to write block 1 back. *)
Definition race_1 : manager := snd (get_start 1 4 ∅ (0, 2) race_start).
(** B asks for block 2, gets a new buffer, stores 22 and gives it up. *)
Definition race_2 : manager :=
  put_node 1 (modify_node 1 {[0 := 22]} (load_node 1 (snd (get_start 1 4 ∅ (0, 2) race_1)))).
(** C asks for block 3 and begins to write block 2 back. *)
Definition race_3 : manager := snd (get_start 1 4 ∅ (0, 3) race_2).
(** A has written block 1 back, makes its buffer that of block 2, and loads it. *)
Definition race_4 : manager := load_node 0 (snd (get_finish 0 (0, 2) (flush_node 0 race_3))).

(** A stale read: this run of three gets is possible, and at its end A holds
    for block 2 the old contents of the device, although B's change was
    complete before; B's buffer is still waiting to be written back.  After a
    write-back the code looks for the block in the list of buffers only, not in
    the list of buffers being flushed. *)
Theorem get_race_stale :
  rtc (bstep 1 4 ∅) (race_start, []) (race_4, [(1%nat, (0, 3), false)]) /\
  n_data <$> nodes race_4 !! 0%nat = Some {[0 := 0]} /\ key_of race_4 0 = Some (0, 2) /\
  n_data <$> nodes race_4 !! 1%nat = Some {[0 := 22]} /\ key_of race_4 1 = Some (0, 2) /\
  flush_list race_4 = [1%nat].
Proof.
  split; [|split_and!; vm_compute; reflexivity].
  eapply rtc_l; [by apply (step_evict 1 4 ∅ (0, 2) race_start [] 0%nat race_1)|].
  eapply rtc_l; [eapply (step_get 1 4 ∅ (0, 2) race_1 _ (Done 1) (snd (get_start 1 4 ∅ (0, 2) race_1))); done|].
  eapply rtc_l; [eapply (step_load 1 4 ∅ _ _ 1%nat); [vm_compute; reflexivity|done|by apply (bool_decide_unpack _)]|].
  eapply rtc_l; [eapply (step_modify 1 4 ∅ _ _ 1%nat _ {[0 := 22]}); [vm_compute; reflexivity|done|by apply (bool_decide_unpack _)|done]|].
  eapply rtc_l; [eapply (step_put 1 4 ∅ _ _ 1%nat); [vm_compute; reflexivity|done|by apply (bool_decide_unpack _)]|].
  fold race_2.
  eapply rtc_l; [by apply (step_evict 1 4 ∅ (0, 3) race_2 _ 1%nat race_3)|].
  eapply rtc_l; [apply (step_flush 1 4 ∅ race_3 [(1%nat, (0, 3), false)] [] 0%nat (0, 2))|].
  eapply rtc_l; [apply (step_finish 1 4 ∅ (flush_node 0 race_3) [(1%nat, (0, 3), false)] [] 0%nat (0, 2) 0%nat
    (snd (get_finish 0 (0, 2) (flush_node 0 race_3)))); vm_compute; reflexivity|].
  eapply rtc_l; [eapply (step_load 1 4 ∅ _ _ 0%nat); [vm_compute; reflexivity|done|by apply (bool_decide_unpack _)]|].
  apply rtc_refl.
Qed.

Lemma one_buffer_per_block_witness :
  rtc (bstep 1 4 ∅) (empty_manager ∅, []) (snd (get_start 1 4 ∅ (0, 2) (empty_manager ∅)), []) /\
  NoDup [0%nat].
Proof.
  assert (rtc (bstep 1 4 ∅) (empty_manager ∅, []) (snd (get_start 1 4 ∅ (0, 2) (empty_manager ∅)), [])) as Hr.
  { apply rtc_once. apply (step_get 1 4 ∅ (0, 2) _ _ (Done 0)); [reflexivity|discriminate]. }
  split; [exact Hr|]. exact (proj2 (one_buffer_per_block 1 4 ∅ ∅ _ _ Hr)).
Defined.

Lemma destroy_writes_back_witness :
  exists s', destroy 0 race_start = (0, s') /\ disk_of s' (0, 1) = {[0 := 11]} /\ no_buffer s' (0, 1).
Proof.
  assert (idle race_start) as Hid.
  { split; [split|..]; cbn.
    - apply NoDup_singleton.
    - done.
    - intros n ->%list_elem_of_singleton. by eexists.
    - intros n [b Hb]. apply lookup_singleton_Some in Hb as [<- _]. lia.
    - by intros n m k ->%list_elem_of_singleton ->%list_elem_of_singleton.
    - intros n b k ->%list_elem_of_singleton. by intros [= <-].
    - intros n b ->%list_elem_of_singleton. by intros [= <-]. }
  destruct (destroy 0 race_start) as [failed s'] eqn:Hd.
  destruct (destroy_writes_back 0 race_start failed s' Hid Hd) as [-> Hk].
  exists s'. split; [reflexivity|]. exact (Hk (0, 1) eq_refl).
Defined.
