(* ===== verification/NfsBlock.v ===== *)
(** * The block layer of nfs (src/os/fs/nfs/common.h, nfs.cc)

    The on-disk format and the allocation of blocks: [nfs::alloc_block] and
    [nfs::free_block] on the bitmap blocks and the superblock.

    A block is reached through [kernel_block_buffer.get] and [get_ref], which
    give its current contents (the file BufferCache
    shows that they do, as long as gets do not overlap).  What
    is left of the buffer cache here is one cell per block of the device: the
    contents its users see, whether the buffer was marked dirty, and the
    contents on the device.  When the cache drops the buffer ([evict]) a dirty
    buffer is written back and a clean one is forgotten. *)
From S2P Require Import Prelude Memory Bitmap.

(** ** The format *)

Definition NFS_MAGIC : Z := 0x10203040.
Definition BLOCK_SIZE : Z := 1024.
Definition INODE_TABLE_NUMBER : Z := 0.
Definition ROOT_INODE_NUMBER : Z := 1.
Definition SUPER_BLOCK_INDEX : Z := 1.
Definition BITMAP_BLOCK_INDEX : Z := 2.
Definition BITMAP_BLOCK_SIZE : Z := BLOCK_SIZE * 8.
Definition MAX_NAME_LENGTH : Z := 28.
Definition NUM_DIRECT_DATA : Z := 13.
Definition NUM_ADDRS : Z := BLOCK_SIZE / 4 - 1.
Definition ADDR_BLOCK_DATA_SIZE : Z := NUM_ADDRS * BLOCK_SIZE.
Definition DIRECT_DATA_SIZE : Z := NUM_DIRECT_DATA * BLOCK_SIZE.

(** [(uint32)-1], which stands for "no block". *)
Definition NO_BLOCK : Z := u32 (-1).

Record dinode := Dinode {
  d_size : Z;
  d_nlinks : Z;
  d_perm : Z;
  d_type : Z;
  d_next_addr_block : Z;
  d_addrs : list Z
}.

Record superblock := Superblock {
  magic : Z;
  total_blocks : Z;
  total_generic_blocks : Z;
  used_generic_blocks : Z;
  ninodes : Z;
  generic_block_start : Z;
  next_free_bitmap : Z;
  sb_inode_table : dinode
}.

(** Arithmetic with the constants of the format. *)
Ltac nconst :=
  change NUM_DIRECT_DATA with 13 in *; change DIRECT_DATA_SIZE with 13312 in *;
  change ADDR_BLOCK_DATA_SIZE with 261120 in *; change NUM_ADDRS with 255 in *;
  change BITMAP_BLOCK_INDEX with 2 in *; change BITMAP_BLOCK_SIZE with 8192 in *;
  change BLOCK_SIZE with 1024 in *; change MAX_NAME_LENGTH with 28 in *.
Ltac nlia := nconst; zlia.

(** ** The state of a mounted file system *)

Record cell := Cell { cur : memory; dirty : bool; ondisk : memory }.

(** An inode in memory: [metadata], the block addresses, the position cache of
    [data_rw], and the flags of [referenceable_buffer]. *)
Record minode := Minode {
  i_size : Z;
  i_nlinks : Z;
  i_perm : Z;
  i_type : Z;
  addrs : list Z;
  next_addr_block : Z;
  cache_raw_indirect_offset : Z;
  cache_offset : Z;
  cache_addr_block : Z;
  i_valid : bool;
  i_dirty : bool
}.

Record fs := FS {
  cells : gmap Z cell;
  sb : superblock;
  sb_dirty : bool;
  inodes : gmap Z minode
}.

Definition with_cells (s : fs) (c : gmap Z cell) : fs := FS c (sb s) (sb_dirty s) (inodes s).

(** [sb.next_free_bitmap = n]. *)
Definition set_next_free (n : Z) (b : superblock) : superblock :=
  Superblock (magic b) (total_blocks b) (total_generic_blocks b) (used_generic_blocks b) (ninodes b)
    (generic_block_start b) n (sb_inode_table b).
(** [sb.used_generic_blocks = n]. *)
Definition set_used (n : Z) (b : superblock) : superblock :=
  Superblock (magic b) (total_blocks b) (total_generic_blocks b) n (ninodes b)
    (generic_block_start b) (next_free_bitmap b) (sb_inode_table b).

(** [*co_await kernel_block_buffer.get(bdev, b)], [get_ref] and [data].  A
    block that the device does not have cannot be loaded. *)
Definition bget (b : Z) : K fs memory := fun s =>
  match cells s !! b with
  | Some c => Ret (cur c) s
  | None => TaskFail s
  end.

(** Stores through [data] of the buffer of block [b]. *)
Definition bset (b : Z) (m : memory) : K fs unit :=
  kmodify (fun s => with_cells s (alter (fun c => Cell m (dirty c) (ondisk c)) b (cells s))).
Definition bmark_dirty (b : Z) : K fs unit :=
  kmodify (fun s => with_cells s (alter (fun c => Cell (cur c) true (ondisk c)) b (cells s))).

(** The cache drops the buffer of [b]: [flush] when it is dirty. *)
Definition evict_cell (c : cell) : cell :=
  if dirty c then Cell (cur c) false (cur c) else Cell (ondisk c) false (ondisk c).
Definition evict (b : Z) (s : fs) : fs := with_cells s (alter evict_cell b (cells s)).

(** ** Allocation *)

(** The loop over the bitmap blocks: the result is the block whose buffer is
    held, its index and what the search in it gave. *)
Fixpoint alloc_search (fuel : nat) (gbs bitmap_index : Z) (last : option (Z * Z)) : K fs (Z * option (Z * Z)) :=
  if bitmap_index <? gbs then
    match fuel with
    | O => kfuel
    | S fuel' =>
        m <- bget bitmap_index ;;
        let i := bitmap_find_first_zero m 0 (BLOCK_SIZE / 8) in
        if i =? NO_BLOCK then alloc_search fuel' gbs (u32 (bitmap_index + 1)) (Some (bitmap_index, i))
        else kret (bitmap_index, Some (bitmap_index, i))
    end
  else kret (bitmap_index, last).

(** One round per bitmap block is enough.  Without any round the code would
    use an uninitialised index, which [kpanic] stands for. *)
Definition alloc_block : K fs Z :=
  s0 <- kget ;;
  if total_generic_blocks (sb s0) <=? used_generic_blocks (sb s0) then kfail
  else
    (if generic_block_start (sb s0) <=? next_free_bitmap (sb s0)
     then kmodify (fun s => FS (cells s) (set_next_free BITMAP_BLOCK_INDEX (sb s)) (sb_dirty s) (inodes s))
     else kret tt) ;;;
    s <- kget ;;
    let gbs := generic_block_start (sb s) in
    '(bitmap_index, found) <- alloc_search (Z.to_nat gbs) gbs (next_free_bitmap (sb s)) None ;;
    match found with
    | None => kpanic
    | Some (buf, __block_index) =>
        let block_index := u32 ((bitmap_index - BITMAP_BLOCK_INDEX) * BITMAP_BLOCK_SIZE + __block_index) in
        if total_blocks (sb s) <=? block_index then kfail
        else
          m <- bget buf ;;
          bset buf (bitmap_set m 0 __block_index) ;;;
          bmark_dirty buf ;;;
          if block_index <? gbs then kpanic
          else
            kmodify (fun s => FS (cells s)
              (set_next_free bitmap_index (set_used (u32 (used_generic_blocks (sb s) + 1)) (sb s)))
              true (inodes s)) ;;;
            kret block_index
    end.

(** The buffer of the bitmap block is not marked dirty. *)
Definition free_block (block_index : Z) : K fs unit :=
  s <- kget ;;
  if total_blocks (sb s) <=? block_index then kfail
  else
    let bitmap_index := u32 (BITMAP_BLOCK_INDEX + block_index / BITMAP_BLOCK_SIZE) in
    let __block_index := block_index mod BITMAP_BLOCK_SIZE in
    m <- bget bitmap_index ;;
    bset bitmap_index (bitmap_clear m 0 __block_index) ;;;
    kmodify (fun s => FS (cells s) (set_used (u32 (used_generic_blocks (sb s) - 1)) (sb s)) true (inodes s)).

(** ** The invariant of the block layer *)

(** The contents of block [b] as its users see them. *)
Definition contents (s : fs) (b : Z) : memory := from_option cur ∅ (cells s !! b).

(** The bit of block [b]. *)
Definition allocated (s : fs) (b : Z) : bool :=
  bitmap_get (contents s (BITMAP_BLOCK_INDEX + b / BITMAP_BLOCK_SIZE)) 0 (b mod BITMAP_BLOCK_SIZE).

(** The layout of the superblock, every block on the device, and the blocks
    that are not generic marked as allocated. *)
Record blocks_ok (s : fs) : Prop := {
  bo_start : BITMAP_BLOCK_INDEX < generic_block_start (sb s) <= total_blocks (sb s);
  bo_bitmaps : total_blocks (sb s) < (generic_block_start (sb s) - BITMAP_BLOCK_INDEX) * BITMAP_BLOCK_SIZE < 2 ^ 32;
  bo_next : BITMAP_BLOCK_INDEX <= next_free_bitmap (sb s);
  bo_cells : forall b, 0 <= b < total_blocks (sb s) -> is_Some (cells s !! b);
  bo_meta : forall b, 0 <= b < generic_block_start (sb s) -> allocated s b = true
}.

(** The blocks that are neither bitmap blocks nor below them keep their
    contents: the frame of the two operations. *)
Definition same_outside_bitmaps (s s' : fs) : Prop :=
  forall b, ~ (BITMAP_BLOCK_INDEX <= b < generic_block_start (sb s)) -> cells s' !! b = cells s !! b.

(** The superblock fields that never change while mounted. *)
Definition same_layout (s s' : fs) : Prop :=
  total_blocks (sb s') = total_blocks (sb s) /\ generic_block_start (sb s') = generic_block_start (sb s) /\
  total_generic_blocks (sb s') = total_generic_blocks (sb s).

Lemma bget_ok s b c : cells s !! b = Some c -> bget b s = Ret (cur c) s.
Proof. unfold bget. by intros ->. Qed.

Lemma contents_some s b c : cells s !! b = Some c -> contents s b = cur c.
Proof. unfold contents. by intros ->. Qed.

(** What the search finds, from [bi] on. *)
Lemma alloc_search_spec s fuel bi last :
  (forall b, BITMAP_BLOCK_INDEX <= b < generic_block_start (sb s) -> is_Some (cells s !! b)) ->
  BITMAP_BLOCK_INDEX <= bi <= generic_block_start (sb s) -> generic_block_start (sb s) < 2 ^ 32 ->
  generic_block_start (sb s) - bi <= Z.of_nat fuel ->
  (exists b i c, alloc_search fuel (generic_block_start (sb s)) bi last s = Ret (b, Some (b, i)) s /\
     bi <= b < generic_block_start (sb s) /\ cells s !! b = Some c /\
     0 <= i < BITMAP_BLOCK_SIZE /\ bitmap_get (cur c) 0 i = false /\
     forall x j, bi <= x -> 0 <= j < BITMAP_BLOCK_SIZE -> x * BITMAP_BLOCK_SIZE + j < b * BITMAP_BLOCK_SIZE + i ->
       bitmap_get (contents s x) 0 j = true) \/
  ((forall b i, bi <= b < generic_block_start (sb s) -> 0 <= i < BITMAP_BLOCK_SIZE ->
      bitmap_get (contents s b) 0 i = true) /\
   exists l, alloc_search fuel (generic_block_start (sb s)) bi last s = Ret (generic_block_start (sb s), l) s /\
     (bi = generic_block_start (sb s) -> l = last) /\
     (bi < generic_block_start (sb s) -> exists b, l = Some (b, NO_BLOCK))).
Proof.
  intros Hc. revert bi last. induction fuel as [|fuel IH]; intros bi last Hbi Hgbs Hf;
    cbn [alloc_search]; destruct (Z.ltb_spec bi (generic_block_start (sb s))) as [Hlt|Hge]; try lia.
  1, 3: right; assert (bi = generic_block_start (sb s)) as -> by lia; split; [intros b i Hb; exfalso; lia|];
    exists last; split_and!; [done|done|lia].
  destruct (Hc bi) as [c Hbc]; [lia|]. rewrite (kbind_ret _ _ _ _ _ (bget_ok _ _ _ Hbc)).
  destruct (find_first_zero_spec (cur c) 0 (BLOCK_SIZE / 8)) as [[Hi Hfull]|(Hi & Hclear & Hset)];
    [done|done| |].
  - rewrite Hi. change NO_BLOCK with (2 ^ 32 - 1). rewrite Z.eqb_refl, u32_small by nlia.
    destruct (IH (bi + 1) (Some (bi, 2 ^ 32 - 1))) as [(b & i & c' & Hr & Hb & Hbc' & Hi' & Hcl & Hpre)|(Hall & l & Hr & Hl1 & Hl2)];
      [lia|lia|lia| |].
    + left. exists b, i, c'. split_and!; [done|lia|lia|done|lia|lia|done|]. intros x j Hx Hj Hlt'.
      destruct (decide (x = bi)) as [->|]; [|apply Hpre; lia].
      rewrite (contents_some _ _ _ Hbc). by apply Hfull.
    + right. split.
      * intros b i Hb Hi'. destruct (decide (b = bi)) as [->|]; [|apply Hall; lia].
        rewrite (contents_some _ _ _ Hbc). by apply Hfull.
      * exists l. split_and!; [done|lia|]. intros _.
        destruct (decide (bi + 1 = generic_block_start (sb s))) as [He|]; [|apply Hl2; lia].
        exists bi. by apply Hl1.
  - rewrite (proj2 (Z.eqb_neq _ _)).
    + left. eexists bi, _, c. split_and!; [done|lia|lia|done|apply Hi|apply Hi|done|].
      intros x j Hx Hj Hlt'. assert (x = bi) as -> by nlia.
      rewrite (contents_some _ _ _ Hbc). apply Hset. nlia.
    + change NO_BLOCK with (2 ^ 32 - 1). change (64 * (BLOCK_SIZE / 8)) with 8192 in Hi. lia.
Qed.

Lemma bset_eq s b c m :
  cells s !! b = Some c -> bset b m s = Ret tt (with_cells s (<[b := Cell m (dirty c) (ondisk c)]> (cells s))).
Proof. intros Hb. unfold bset, kmodify. by rewrite (alter_at _ _ _ _ Hb). Qed.

Lemma bmark_eq s b c :
  cells s !! b = Some c ->
  bmark_dirty b s = Ret tt (with_cells s (<[b := Cell (cur c) true (ondisk c)]> (cells s))).
Proof. intros Hb. unfold bmark_dirty, kmodify. by rewrite (alter_at _ _ _ _ Hb). Qed.

(** The bits after a bit of bitmap block [b] changed. *)
Lemma allocated_insert s s' b c i f :
  cells s !! b = Some c -> cells s' = <[b := f]> (cells s) -> 0 <= i < BITMAP_BLOCK_SIZE ->
  BITMAP_BLOCK_INDEX <= b ->
  (forall v, 0 <= v -> bitmap_get (cur f) 0 v = if decide (v = i) then bitmap_get (cur f) 0 i else bitmap_get (cur c) 0 v) ->
  forall x, 0 <= x -> allocated s' x =
    if decide (x = (b - BITMAP_BLOCK_INDEX) * BITMAP_BLOCK_SIZE + i) then bitmap_get (cur f) 0 i else allocated s x.
Proof.
  intros Hb Hs' Hi Hlo Hbits x Hx. unfold allocated, contents. rewrite Hs'.
  destruct (decide (BITMAP_BLOCK_INDEX + x / BITMAP_BLOCK_SIZE = b)) as [He|Hne].
  - rewrite He, lookup_insert_eq, Hb. cbn [from_option]. rewrite Hbits by nlia.
    repeat case_decide; try done; exfalso; nlia.
  - rewrite lookup_insert_ne by congruence. rewrite decide_False by nlia. done.
Qed.

(** The state in which the search starts. *)
Definition reset_next (s : fs) : fs :=
  if generic_block_start (sb s) <=? next_free_bitmap (sb s)
  then FS (cells s) (set_next_free BITMAP_BLOCK_INDEX (sb s)) (sb_dirty s) (inodes s) else s.

Lemma reset_next_facts s :
  blocks_ok s ->
  cells (reset_next s) = cells s /\ inodes (reset_next s) = inodes s /\ same_layout s (reset_next s) /\
  used_generic_blocks (sb (reset_next s)) = used_generic_blocks (sb s) /\ blocks_ok (reset_next s) /\
  BITMAP_BLOCK_INDEX <= next_free_bitmap (sb (reset_next s)) < generic_block_start (sb s) /\
  next_free_bitmap (sb (reset_next s)) <= next_free_bitmap (sb s).
Proof.
  intros Hok. pose proof Hok as [H1 H2 H3 H4 H5]. unfold reset_next, same_layout.
  destruct (Z.leb_spec (generic_block_start (sb s)) (next_free_bitmap (sb s))); [|split_and!; done || lia].
  cbn. split_and!; try done; try lia.
Qed.

(** Marking a clear bit as allocated and counting it. *)
Lemma blocks_ok_mark s s' b c i :
  blocks_ok s -> cells s !! b = Some c -> BITMAP_BLOCK_INDEX <= b < generic_block_start (sb s) ->
  0 <= i < BITMAP_BLOCK_SIZE ->
  cells s' = <[b := Cell (bitmap_set (cur c) 0 i) true (ondisk c)]> (cells s) ->
  same_layout s s' -> next_free_bitmap (sb s') = b ->
  (forall x, 0 <= x -> allocated s' x =
    bool_decide (x = (b - BITMAP_BLOCK_INDEX) * BITMAP_BLOCK_SIZE + i) || allocated s x) /\ blocks_ok s'.
Proof.
  intros [H1 H2 H3 H4 H5] Hb Hbr Hi Hs' (Ht & Hg & _) Hn.
  assert (forall x, 0 <= x -> allocated s' x =
    bool_decide (x = (b - BITMAP_BLOCK_INDEX) * BITMAP_BLOCK_SIZE + i) || allocated s x) as Hal.
  { intros x Hx. rewrite (allocated_insert s s' b c i _ Hb Hs') by
      (done || lia || (intros v Hv; cbn [cur]; rewrite !bitmap_set_get by lia; case_decide;
        [subst; done|rewrite bool_decide_eq_false_2 by congruence; done])).
    cbn [cur]. rewrite bitmap_set_get, (bool_decide_eq_true_2 (i = i)) by (done || lia).
    case_decide; [by rewrite bool_decide_eq_true_2|by rewrite bool_decide_eq_false_2]. }
  split; [done|]. split; rewrite ?Ht, ?Hg, ?Hn; [done|done|lia| |].
  - intros x Hx. rewrite Hs', lookup_insert_is_Some'. right. by apply H4.
  - intros x Hx. rewrite Hal, H5 by lia. apply orb_true_r.
Qed.

(** What a successful allocation of [b] did. *)
Definition alloc_post (s : fs) (b : Z) (s' : fs) : Prop :=
  generic_block_start (sb s) <= b < total_blocks (sb s) /\ allocated s b = false /\
  (forall x, 0 <= x -> allocated s' x = bool_decide (x = b) || allocated s x) /\
  same_outside_bitmaps s s' /\ inodes s' = inodes s /\ blocks_ok s' /\ same_layout s s' /\
  used_generic_blocks (sb s') = u32 (used_generic_blocks (sb s) + 1) /\ sb_dirty s' = true /\
  (forall x, cells s' !! x = cells s !! x \/ exists c, cells s' !! x = Some c /\ dirty c = true) /\
  (next_free_bitmap (sb s) < generic_block_start (sb s) ->
    (next_free_bitmap (sb s) - BITMAP_BLOCK_INDEX) * BITMAP_BLOCK_SIZE <= b).

(** There is no block to be had: the superblock counts none, or every block from the
    bitmap block on at which the search begins is taken. *)
Definition no_room (s : fs) : Prop :=
  total_generic_blocks (sb s) <= used_generic_blocks (sb s) \/
  (next_free_bitmap (sb s) < generic_block_start (sb s) /\
   forall b, (next_free_bitmap (sb s) - BITMAP_BLOCK_INDEX) * BITMAP_BLOCK_SIZE <= b < total_blocks (sb s) ->
     allocated s b = true).

(** What a failed one left. *)
Definition alloc_fail (s s' : fs) : Prop :=
  cells s' = cells s /\ inodes s' = inodes s /\ blocks_ok s' /\ same_layout s s' /\ no_room s' /\
  (total_generic_blocks (sb s) <= used_generic_blocks (sb s) \/
   forall b, (next_free_bitmap (sb s) - BITMAP_BLOCK_INDEX) * BITMAP_BLOCK_SIZE <= b < total_blocks (sb s) ->
     allocated s b = true).

(** The search ended at block [b], bit [i]. *)
Lemma alloc_found s s1 b i c :
  blocks_ok s1 -> cells s1 = cells s -> inodes s1 = inodes s -> same_layout s s1 ->
  used_generic_blocks (sb s1) = used_generic_blocks (sb s) ->
  BITMAP_BLOCK_INDEX <= b < generic_block_start (sb s1) -> cells s1 !! b = Some c ->
  0 <= i < BITMAP_BLOCK_SIZE ->
  (next_free_bitmap (sb s) < generic_block_start (sb s) -> next_free_bitmap (sb s) <= b) ->
  let bi := (b - BITMAP_BLOCK_INDEX) * BITMAP_BLOCK_SIZE + i in
  allocated s1 bi = false -> generic_block_start (sb s) <= bi < total_blocks (sb s) ->
  alloc_post s bi (FS (<[b := Cell (bitmap_set (cur c) 0 i) true (ondisk c)]> (cells s1))
    (set_next_free b (set_used (u32 (used_generic_blocks (sb s1) + 1)) (sb s1))) true (inodes s1)).
Proof.
  intros Hok Hc Hi (Ht & Hg & Htg) Hu Hb Hbc Hir Hnx bi Hfree Hbi.
  destruct (blocks_ok_mark s1 (FS (<[b := Cell (bitmap_set (cur c) 0 i) true (ondisk c)]> (cells s1))
    (set_next_free b (set_used (u32 (used_generic_blocks (sb s1) + 1)) (sb s1))) true (inodes s1)) b c i)
    as [Hal Hok']; [done|done|done|done|done|done|done|].
  assert (forall x, allocated s1 x = allocated s x) as Hsame by (intros x; unfold allocated, contents; by rewrite Hc).
  unfold alloc_post, same_layout. cbn [sb]. split_and!; try done; try lia.
  - by rewrite <- Hsame.
  - intros x Hx. rewrite Hal, Hsame by done. done.
  - intros x Hx. cbn [cells]. rewrite lookup_insert_ne, Hc by (intros ->; lia). done.
  - cbn. by rewrite Hu.
  - intros x. cbn [cells]. destruct (decide (x = b)) as [->|].
    + right. rewrite lookup_insert_eq. by eexists.
    + left. by rewrite lookup_insert_ne, Hc by done.
  - intros Hlt. specialize (Hnx Hlt). subst bi. nlia.
Qed.

Lemma alloc_block_spec s : blocks_ok s -> kspec (alloc_block s) (alloc_post s) (alloc_fail s).
Proof.
  intros Hok. pose proof Hok as [H1 H2 H3 H4 H5].
  destruct (reset_next_facts s Hok) as (Hc1 & Hi1 & Hl1 & Hu1 & Hok1 & Hn1 & Hn1').
  pose proof Hl1 as (Ht1 & Hg1 & Htg1).
  unfold alloc_block. unfold kbind at 1, kget at 1.
  destruct (Z.leb_spec (total_generic_blocks (sb s)) (used_generic_blocks (sb s))) as [Hfull|_].
  { cbn. unfold alloc_fail, same_layout. split_and!; try done; by left. }
  rewrite (kbind_ret _ _ s tt (reset_next s)) by (unfold reset_next; by case_match).
  set (s1 := reset_next s) in *. unfold kbind at 1, kget at 1.
  assert (forall x, allocated s1 x = allocated s x) as Hsame by (intros x; unfold allocated, contents; by rewrite Hc1).
  destruct (alloc_search_spec s1 (Z.to_nat (generic_block_start (sb s1))) (next_free_bitmap (sb s1)) None)
    as [(b & i & c & Hr & Hb & Hbc & Hi & Hclear & Hpre)|(Hall & l & Hr & _ & Hl)].
  { intros b Hb. rewrite Hc1. apply H4. nlia. }
  1-3: nlia.
  - rewrite (kbind_ret _ _ _ _ _ Hr). cbv beta iota zeta. rewrite u32_small by nlia.
    set (bi := (b - BITMAP_BLOCK_INDEX) * BITMAP_BLOCK_SIZE + i).
    assert (allocated s1 bi = false) as Hfree.
    { unfold allocated. replace (BITMAP_BLOCK_INDEX + _) with b by (subst bi; nlia).
      replace (bi mod _) with i by (subst bi; nlia). by rewrite (contents_some _ _ _ Hbc). }
    assert (generic_block_start (sb s) <= bi) as Hge.
    { destruct (Z.le_gt_cases (generic_block_start (sb s)) bi); [done|].
      pose proof (bo_meta _ Hok1 bi) as Hm. rewrite Hm in Hfree; [done|]. subst bi. nlia. }
    destruct (Z.leb_spec (total_blocks (sb s1)) bi) as [Hbig|Hlt].
    { cbn. unfold alloc_fail. split_and!; try done.
      - right. split; [lia|]. intros x Hx. apply Hpre; subst bi; nlia.
      - right. intros x Hx. rewrite <- Hsame. apply Hpre; subst bi; nlia. }
    rewrite (kbind_ret _ _ _ _ _ (bget_ok _ _ _ Hbc)), (kbind_ret _ _ _ _ _ (bset_eq _ _ _ _ Hbc)).
    erewrite kbind_ret by (apply bmark_eq; apply lookup_insert_eq). cbn [with_cells cells cur dirty ondisk].
    rewrite insert_insert_eq, (proj2 (Z.ltb_ge _ _)) by lia.
    unfold kbind, kmodify, kret. cbn [kspec cells sb inodes].
    apply (alloc_found s s1 b i c); try done; try lia. intros Hlt'.
    assert (next_free_bitmap (sb s1) = next_free_bitmap (sb s)); [|lia].
    subst s1. unfold reset_next. by rewrite (proj2 (Z.leb_gt _ _)).
  - rewrite (kbind_ret _ _ _ _ _ Hr). cbv beta iota zeta. destruct Hl as [b ->]; [lia|].
    replace (u32 _) with ((generic_block_start (sb s) - BITMAP_BLOCK_INDEX) * BITMAP_BLOCK_SIZE - 1)
      by (change NO_BLOCK with (2 ^ 32 - 1); rewrite Hg1; unfold u32; nlia).
    rewrite (proj2 (Z.leb_le _ _)) by lia. cbn. unfold alloc_fail. split_and!; try done.
    + right. split; [lia|]. intros x Hx. apply Hall; nlia.
    + right. intros x Hx. rewrite <- Hsame. apply Hall; nlia.
Qed.

(** [alloc_block] always returns or fails as a task, it never panics.  A block
    it returns is a generic block of the device that was free; exactly its bit
    is now set, in a buffer that is marked dirty; no other block changes.  It
    fails only when the superblock counts no free block or every bit from the
    bitmap block [next_free_bitmap] on is set, and then changes no block. *)
Theorem alloc_block_correct s : blocks_ok s -> kspec (alloc_block s) (alloc_post s) (alloc_fail s).
Proof. apply alloc_block_spec. Qed.

Definition free_post (s : fs) (b : Z) (s' : fs) : Prop :=
  (forall x, 0 <= x -> allocated s' x = negb (bool_decide (x = b)) && allocated s x) /\
  same_outside_bitmaps s s' /\ inodes s' = inodes s /\ blocks_ok s' /\ same_layout s s' /\
  used_generic_blocks (sb s') = u32 (used_generic_blocks (sb s) - 1) /\ sb_dirty s' = true /\
  (forall x c, cells s !! x = Some c -> exists c', cells s' !! x = Some c' /\
     dirty c' = dirty c /\ ondisk c' = ondisk c).

Lemma free_block_spec s b :
  blocks_ok s -> generic_block_start (sb s) <= b < total_blocks (sb s) ->
  exists s', free_block b s = Ret tt s' /\ free_post s b s'.
Proof.
  intros [H1 H2 H3 H4 H5] Hb. unfold free_block. unfold kbind at 1, kget at 1.
  rewrite (proj2 (Z.leb_gt _ _)) by lia. rewrite u32_small by nlia.
  set (bi := BITMAP_BLOCK_INDEX + b / BITMAP_BLOCK_SIZE). set (i := b mod BITMAP_BLOCK_SIZE).
  assert (BITMAP_BLOCK_INDEX <= bi < generic_block_start (sb s)) as Hbi by (subst bi; nlia).
  assert (0 <= i < BITMAP_BLOCK_SIZE) as Hi by (subst i; nlia).
  destruct (H4 bi) as [c Hc]; [nlia|].
  rewrite (kbind_ret _ _ _ _ _ (bget_ok _ _ _ Hc)), (kbind_ret _ _ _ _ _ (bset_eq _ _ _ _ Hc)).
  unfold kmodify. eexists. split; [reflexivity|]. cbn [with_cells cells sb inodes].
  match goal with |- free_post _ _ ?x => set (s' := x) end.
  assert (forall x, 0 <= x -> allocated s' x = negb (bool_decide (x = b)) && allocated s x) as Hal.
  { intros x Hx. rewrite (allocated_insert s s' bi c i _ Hc eq_refl) by
      (done || lia || (intros v Hv; cbn [cur]; rewrite !clear_get_spec by lia; case_decide;
        [subst; done|rewrite bool_decide_eq_false_2 by congruence; done])).
    cbn [cur]. rewrite clear_get_spec, (bool_decide_eq_true_2 (i = i)) by (done || lia).
    replace ((bi - BITMAP_BLOCK_INDEX) * BITMAP_BLOCK_SIZE + i) with b by (subst bi i; nlia).
    case_decide; [by rewrite bool_decide_eq_true_2|by rewrite bool_decide_eq_false_2]. }
  split; [exact Hal|]. split_and!; try done.
  - intros x Hx. subst s'. cbn [cells]. rewrite lookup_insert_ne by (intros ->; done). done.
  - split; subst s'; cbn [sb set_used generic_block_start total_blocks next_free_bitmap cells]; try done.
    + intros x Hx. rewrite lookup_insert_is_Some'. right. by apply H4.
    + intros x Hx. rewrite Hal, H5 by lia. rewrite bool_decide_eq_false_2 by lia. done.
  - intros x d Hd. subst s'. cbn [cells]. destruct (decide (x = bi)) as [->|Hne].
    + rewrite lookup_insert_eq. simplify_eq. by eexists.
    + rewrite lookup_insert_ne by done. eauto.
Qed.

(** [free_block] of a generic block clears exactly its bit, and changes no
    block that is not a bitmap block. *)
Theorem free_block_correct s b :
  blocks_ok s -> generic_block_start (sb s) <= b < total_blocks (sb s) ->
  exists s', free_block b s = Ret tt s' /\ free_post s b s'.
Proof. apply free_block_spec. Qed.

(** The release of a block is lost when its bitmap block was clean:
    [free_block] does not mark the buffer dirty, so when the cache drops it
    the bit on the device is still set, while the superblock has already
    counted the block as free.  No one can allocate it again. *)
Theorem free_block_lost s b c :
  blocks_ok s -> generic_block_start (sb s) <= b < total_blocks (sb s) -> allocated s b = true ->
  let bi := BITMAP_BLOCK_INDEX + b / BITMAP_BLOCK_SIZE in
  cells s !! bi = Some c -> dirty c = false -> ondisk c = cur c ->
  exists s', free_block b s = Ret tt s' /\ allocated s' b = false /\
    allocated (evict bi s') b = true /\
    used_generic_blocks (sb (evict bi s')) = u32 (used_generic_blocks (sb s) - 1).
Proof.
  intros Hok Hb Hal bi Hc Hd Ho. destruct (free_block_spec s b Hok Hb) as (s' & Hrun & Hpost).
  destruct Hpost as (Hbits & _ & _ & _ & _ & Hused & _ & Hcells). exists s'.
  assert (0 <= b) as Hb0 by (destruct Hok; nlia). split_and!; [done| | |done].
  - rewrite Hbits, bool_decide_eq_true_2 by done. done.
  - destruct (Hcells bi c Hc) as (c' & Hc' & Hd' & Ho'). unfold allocated, contents in *. fold bi in Hal |- *.
    cbn [evict with_cells cells]. rewrite lookup_alter_eq, Hc'. cbn [fmap option_fmap option_map from_option].
    unfold evict_cell. rewrite Hd', Hd, Ho', Ho. cbn [cur]. by rewrite Hc in Hal.
Qed.

(** A free block below [next_free_bitmap] is never found: the search does not
    wrap around, so the allocation fails although the superblock counts free
    blocks and one of them is marked free. *)
Theorem alloc_block_no_wrap s b :
  blocks_ok s -> used_generic_blocks (sb s) < total_generic_blocks (sb s) ->
  next_free_bitmap (sb s) < generic_block_start (sb s) ->
  (forall x, (next_free_bitmap (sb s) - BITMAP_BLOCK_INDEX) * BITMAP_BLOCK_SIZE <= x < total_blocks (sb s) ->
    allocated s x = true) ->
  generic_block_start (sb s) <= b < total_blocks (sb s) -> allocated s b = false ->
  exists s', alloc_block s = TaskFail s' /\ allocated s' b = false.
Proof.
  intros Hok Hu Hn Hall Hb Hfree. pose proof (alloc_block_spec s Hok) as Hspec.
  destruct (alloc_block s) as [b' s'|s'| |]; try done.
  - destruct Hspec as (Hb' & Hf' & _ & _ & _ & _ & _ & _ & _ & _ & Hge). specialize (Hge Hn).
    rewrite Hall in Hf' by lia. done.
  - exists s'. split; [done|]. destruct Hspec as (Hc & _). unfold allocated, contents. by rewrite Hc.
Qed.

(** ** A concrete device *)

(** Blocks 0 to [n-1], all zero. *)
Fixpoint blank (n : nat) : gmap Z cell :=
  match n with
  | O => ∅
  | S n' => <[Z.of_nat n' := Cell ∅ false ∅]> (blank n')
  end.

Lemma blank_lookup n b : 0 <= b < Z.of_nat n -> blank n !! b = Some (Cell ∅ false ∅).
Proof.
  induction n as [|n IH]; intros Hb; cbn [blank]; [lia|].
  destruct (decide (b = Z.of_nat n)) as [->|Hne]; [apply lookup_insert_eq|].
  rewrite lookup_insert_ne by done. apply IH. lia.
Qed.

Lemma blank_inv n b c : blank n !! b = Some c -> c = Cell ∅ false ∅.
Proof.
  induction n as [|n IH]; cbn [blank]; [done|]. intros Hb. apply lookup_insert_Some in Hb as [[_ <-]|[_ Hb]]; auto.
Qed.

Definition demo_count : nat := Z.to_nat 8200.

Lemma demo_count_eq : Z.of_nat demo_count = 8200.
Proof. unfold demo_count. by rewrite Z2Nat.id. Qed.

#[global] Opaque blank demo_count.

(** 8200 blocks behind two bitmap blocks.  Blocks 0 to 9 are allocated, and
    the eight blocks of the second bitmap block. *)
Definition demo_device : fs :=
  let c2 := Cell (wr_bytes ∅ 0 [255; 3]) false (wr_bytes ∅ 0 [255; 3]) in
  let c3 := Cell (wr_bytes ∅ 0 [255]) false (wr_bytes ∅ 0 [255]) in
  FS (<[2 := c2]> (<[3 := c3]> (blank demo_count)))
    (Superblock NFS_MAGIC 8200 8190 8 2 4 3 (Dinode 0 0 0 0 0 [])) false ∅.

Lemma demo_allocated b :
  allocated demo_device b =
  bitmap_get (if decide (BITMAP_BLOCK_INDEX + b / BITMAP_BLOCK_SIZE = 2) then wr_bytes ∅ 0 [255; 3]
    else if decide (BITMAP_BLOCK_INDEX + b / BITMAP_BLOCK_SIZE = 3) then wr_bytes ∅ 0 [255]
    else contents (FS (blank demo_count) (sb demo_device) false ∅) (BITMAP_BLOCK_INDEX + b / BITMAP_BLOCK_SIZE))
    0 (b mod BITMAP_BLOCK_SIZE).
Proof.
  unfold allocated. apply (f_equal (fun m => bitmap_get m 0 (b mod BITMAP_BLOCK_SIZE))).
  unfold contents, demo_device. cbn [cells].
  case_decide as H2; [by rewrite H2, lookup_insert_eq|]. rewrite lookup_insert_ne by congruence.
  case_decide as H3; [by rewrite H3, lookup_insert_eq|]. by rewrite lookup_insert_ne by congruence.
Qed.

Lemma demo_device_ok : blocks_ok demo_device.
Proof.
  split; cbn [demo_device sb generic_block_start total_blocks next_free_bitmap]; [done|done|done| |].
  - intros b Hb. unfold demo_device. cbn [cells].
    apply lookup_insert_is_Some'. right. apply lookup_insert_is_Some'. right.
    exists (Cell ∅ false ∅). apply blank_lookup. rewrite demo_count_eq. lia.
  - intros b Hb. rewrite demo_allocated. assert (b = 0 \/ b = 1 \/ b = 2 \/ b = 3) as Hcs by lia.
    destruct Hcs as [->|[->|[->| ->]]]; by vm_compute.
Qed.

Lemma alloc_block_correct_witness :
  kspec (alloc_block demo_device) (alloc_post demo_device) (alloc_fail demo_device).
Proof. apply alloc_block_correct. exact demo_device_ok. Defined.

Lemma free_block_correct_witness :
  exists s', free_block 5 demo_device = Ret tt s' /\ free_post demo_device 5 s'.
Proof. apply free_block_correct; [exact demo_device_ok|cbn; lia]. Defined.

Lemma free_block_lost_witness :
  exists s', free_block 5 demo_device = Ret tt s' /\ allocated s' 5 = false /\
    allocated (evict 2 s') 5 = true /\ used_generic_blocks (sb (evict 2 s')) = 7.
Proof.
  apply (free_block_lost demo_device 5 (Cell (wr_bytes ∅ 0 [255; 3]) false (wr_bytes ∅ 0 [255; 3])));
    [exact demo_device_ok|cbn; lia|rewrite demo_allocated; by vm_compute| |done|done].
  apply lookup_insert_eq.
Defined.

Lemma alloc_block_no_wrap_witness :
  allocated demo_device 100 = false /\
  exists s', alloc_block demo_device = TaskFail s' /\ allocated s' 100 = false.
Proof.
  assert (allocated demo_device 100 = false) as Hf by (rewrite demo_allocated; by vm_compute).
  split; [exact Hf|]. apply alloc_block_no_wrap; [exact demo_device_ok|done|done| |cbn; lia|exact Hf].
  intros x Hx. cbn [demo_device sb next_free_bitmap total_blocks] in Hx.
  change ((3 - BITMAP_BLOCK_INDEX) * BITMAP_BLOCK_SIZE) with 8192 in Hx.
  assert (x = 8192 \/ x = 8193 \/ x = 8194 \/ x = 8195 \/ x = 8196 \/ x = 8197 \/ x = 8198 \/ x = 8199) as Hcs
    by lia.
  destruct Hcs as [->|[->|[->|[->|[->|[->|[->| ->]]]]]]]; rewrite demo_allocated; by vm_compute.
Defined.
