(* ===== verification/NfsInode.v ===== *)
(** * Inodes of nfs (src/os/fs/nfs/inode.cc)

    The data of an inode lives in 13 direct blocks and then in the blocks of a
    linked list of address blocks, 255 each; [(uint32)-1] marks a block that
    does not exist yet and reads as zero.  [data_rw] walks this structure for
    reads and for writes, creates what is missing, and remembers where it
    stopped in the position cache.

    [this] is the inode number.  The buffer of the caller is a list of bytes:
    [buf] for a write, the result for a read. *)
From S2P Require Import Prelude Memory Bitmap NfsBlock.

(** ** Access to inodes *)

(** Members of an inode that is not in memory are not reachable. *)
Definition the_inode (n : Z) : K fs minode := fun s =>
  match inodes s !! n with
  | Some i => Ret i s
  | None => Panic
  end.

Definition upd_inode (n : Z) (f : minode -> minode) : K fs unit :=
  kmodify (fun s => FS (cells s) (sb s) (sb_dirty s) (alter f n (inodes s))).

(** [addrs[k] = b] and [mark_dirty()]. *)
Definition set_addr (k b : Z) (i : minode) : minode :=
  Minode (i_size i) (i_nlinks i) (i_perm i) (i_type i) (updZ (addrs i) k b) (next_addr_block i)
    (cache_raw_indirect_offset i) (cache_offset i) (cache_addr_block i) (i_valid i) true.
(** [next_addr_block = b] and [mark_dirty()]. *)
Definition set_next_addr (b : Z) (i : minode) : minode :=
  Minode (i_size i) (i_nlinks i) (i_perm i) (i_type i) (addrs i) b
    (cache_raw_indirect_offset i) (cache_offset i) (cache_addr_block i) (i_valid i) true.
(** The three members of the position cache. *)
Definition set_position (raw off a : Z) (i : minode) : minode :=
  Minode (i_size i) (i_nlinks i) (i_perm i) (i_type i) (addrs i) (next_addr_block i)
    raw off a (i_valid i) (i_dirty i).
(** [metadata.size = n] and [mark_dirty()]. *)
Definition set_isize (n : Z) (i : minode) : minode :=
  Minode n (i_nlinks i) (i_perm i) (i_type i) (addrs i) (next_addr_block i)
    (cache_raw_indirect_offset i) (cache_offset i) (cache_addr_block i) (i_valid i) true.

(** ** Data blocks *)

Definition zeros (n : Z) : list Z := replicate (Z.to_nat n) 0.

(** The second half of [direct_data_block_rw] and [data_block_rw]: transfer
    [size] bytes at [data_block_offset] of block [b]; a new block is cleared
    around them. *)
Definition block_transfer (_write clear : bool) (b data_block_offset : Z) (buf : list Z) (size : Z) : K fs (list Z) :=
  m <- bget b ;;
  if _write then
    let m1 := wr_bytes m data_block_offset (take (Z.to_nat size) buf) in
    let m2 := if clear then
        wr_bytes (wr_bytes m1 0 (zeros data_block_offset)) (data_block_offset + size)
          (zeros (BLOCK_SIZE - data_block_offset - size))
      else m1 in
    bset b m2 ;;;
    bmark_dirty b ;;;
    kret []
  else kret (rd_bytes (Z.to_nat size) m data_block_offset).

Definition direct_data_block_rw (_write : bool) (this direct_offset data_block_offset : Z)
    (buf : list Z) (size : Z) : K fs (list Z) :=
  kernel_assert (direct_offset <? NUM_DIRECT_DATA) ;;;
  kernel_assert (u32 (data_block_offset + size) <=? BLOCK_SIZE) ;;;
  i <- the_inode this ;;
  let data_block_index := nthZ (addrs i) direct_offset in
  if data_block_index =? NO_BLOCK then
    if _write then
      data_block_index <- alloc_block ;;
      upd_inode this (set_addr direct_offset data_block_index) ;;;
      block_transfer _write true data_block_index data_block_offset buf size
    else kret (zeros size)
  else block_transfer _write false data_block_index data_block_offset buf size.

(** The entry [k] of an address block. *)
Definition entry (m : memory) (k : Z) : Z := load32 m (4 + 4 * k).
Definition set_entry (m : memory) (k b : Z) : memory := store32 m (4 + 4 * k) b.
(** [next_addr_block] of an address block. *)
Definition next_of (m : memory) : Z := load32 m 0.
Definition set_next_of (m : memory) (b : Z) : memory := store32 m 0 b.

Definition data_block_rw (_write : bool) (addr_block_index addr_block_offset data_block_offset : Z)
    (buf : list Z) (size : Z) : K fs (list Z) :=
  kernel_assert (addr_block_offset <? NUM_ADDRS) ;;;
  kernel_assert (u32 (data_block_offset + size) <=? BLOCK_SIZE) ;;;
  m <- bget addr_block_index ;;
  let data_block_index := entry m addr_block_offset in
  if data_block_index =? NO_BLOCK then
    if _write then
      data_block_index <- alloc_block ;;
      m' <- bget addr_block_index ;;
      bset addr_block_index (set_entry m' addr_block_offset data_block_index) ;;;
      bmark_dirty addr_block_index ;;;
      block_transfer _write true data_block_index data_block_offset buf size
    else kret (zeros size)
  else block_transfer _write false data_block_index data_block_offset buf size.

(** ** The list of address blocks *)

(** [memset(data, 0xff, BLOCK_SIZE)] on the buffer of [b], marked dirty. *)
Definition clear_addr_block (b : Z) : K fs unit :=
  m <- bget b ;;
  bset b (wr_bytes m 0 (replicate (Z.to_nat BLOCK_SIZE) 255)) ;;;
  bmark_dirty b.

(** The first loop of [get_block_index]: as far as the list goes. *)
Fixpoint walk_addr_blocks (fuel : nat) (_addr_block_index offset : Z) : K fs (Z * Z) :=
  if offset <? ADDR_BLOCK_DATA_SIZE then kret (_addr_block_index, offset)
  else
    match fuel with
    | O => kfuel
    | S fuel' =>
        m <- bget _addr_block_index ;;
        if next_of m =? NO_BLOCK then kret (_addr_block_index, offset)
        else walk_addr_blocks fuel' (next_of m) (offset - ADDR_BLOCK_DATA_SIZE)
    end.

(** The second loop: create the missing ones. *)
Fixpoint create_addr_blocks (fuel : nat) (_addr_block_index offset : Z) : K fs (Z * Z) :=
  if offset <? ADDR_BLOCK_DATA_SIZE then kret (_addr_block_index, offset)
  else
    match fuel with
    | O => kfuel
    | S fuel' =>
        new_addr_block_index <- alloc_block ;;
        clear_addr_block new_addr_block_index ;;;
        m <- bget _addr_block_index ;;
        bset _addr_block_index (set_next_of m new_addr_block_index) ;;;
        bmark_dirty _addr_block_index ;;;
        create_addr_blocks fuel' new_addr_block_index (offset - ADDR_BLOCK_DATA_SIZE)
    end.

(** Each round moves [offset] one address block on.  The results are
    [addr_block_index], [addr_block_offset] and [data_block_offset]; the one
    caller passes no [data_block_index]. *)
Definition get_block_index (start_addr_block offset : Z) : K fs (Z * Z * Z) :=
  '(a, o) <- walk_addr_blocks (Z.to_nat (offset / ADDR_BLOCK_DATA_SIZE)) start_addr_block offset ;;
  '(a, o) <- create_addr_blocks (Z.to_nat (o / ADDR_BLOCK_DATA_SIZE)) a o ;;
  kret (a, u32 (o / BLOCK_SIZE), u32 (o mod BLOCK_SIZE)).

(** ** Reading and writing *)

(** The progress of a transfer: what is left of [buf], [offset], [size],
    [rw_size], and the bytes read so far. *)
Record progress := Progress { p_buf : list Z; p_offset : Z; p_size : Z; p_rw_size : Z; p_out : list Z }.

Definition step_by (n : Z) (out : list Z) (p : progress) : progress :=
  Progress (drop (Z.to_nat n) (p_buf p)) (u64 (p_offset p + n)) (u64 (p_size p - n))
    (s64 (p_rw_size p + n)) (p_out p ++ out).

(** The loop over the direct blocks: at most one round for each. *)
Fixpoint direct_loop (fuel : nat) (_write : bool) (this : Z) (p : progress) : K fs progress :=
  if (p_offset p <? DIRECT_DATA_SIZE) && (0 <? p_size p) then
    match fuel with
    | O => kfuel
    | S fuel' =>
        let addr_block_offset := u32 (p_offset p / BLOCK_SIZE) in
        let data_block_offset := u32 (p_offset p mod BLOCK_SIZE) in
        let block_rw_size := u32 (Z.min (p_size p) (BLOCK_SIZE - data_block_offset)) in
        out <- direct_data_block_rw _write this addr_block_offset data_block_offset (p_buf p) block_rw_size ;;
        direct_loop fuel' _write this (step_by block_rw_size out p)
    end
  else kret p.

(** The loop over the blocks behind the address blocks; [p_offset] is relative
    to [current_addr_block]. *)
Fixpoint indirect_loop (fuel : nat) (_write : bool) (current_addr_block : Z) (p : progress) : K fs (Z * progress) :=
  if 0 <? p_size p then
    match fuel with
    | O => kfuel
    | S fuel' =>
        '(addr_block_index, addr_block_offset, data_block_offset) <- get_block_index current_addr_block (p_offset p) ;;
        let p := Progress (p_buf p) (p_offset p mod ADDR_BLOCK_DATA_SIZE) (p_size p) (p_rw_size p) (p_out p) in
        let block_rw_size := u32 (Z.min (p_size p) (BLOCK_SIZE - data_block_offset)) in
        out <- data_block_rw _write addr_block_index addr_block_offset data_block_offset (p_buf p) block_rw_size ;;
        indirect_loop fuel' _write addr_block_index (step_by block_rw_size out p)
    end
  else kret (current_addr_block, p).

(** The end of [data_rw], from the point where [next_addr_block] is valid.
    The loop starts at the first address block, or where the last transfer
    stopped when it stopped at this offset.  Every round but the first starts
    at the beginning of a block, so a round per byte is more than enough. *)
Definition indirect_part (_write : bool) (this : Z) (p : progress) : K fs (Z * list Z) :=
  i <- the_inode this ;;
  let offset := u64 (p_offset p - DIRECT_DATA_SIZE) in
  let complete_indirect_offset := u64 (offset + p_size p) in
  let '(current_addr_block, offset) :=
    if cache_raw_indirect_offset i =? offset then (cache_addr_block i, cache_offset i)
    else (next_addr_block i, offset) in
  '(current_addr_block, p) <- indirect_loop (Z.to_nat (p_size p)) _write current_addr_block
      (Progress (p_buf p) offset (p_size p) (p_rw_size p) (p_out p)) ;;
  upd_inode this (set_position (u32 complete_indirect_offset) (u32 (p_offset p)) current_addr_block) ;;;
  kret (p_rw_size p, p_out p).

(** The result is [rw_size] and, for a read, the bytes. *)
Definition data_rw (_write : bool) (this : Z) (buf : list Z) (offset size : Z) : K fs (Z * list Z) :=
  p <- direct_loop (Z.to_nat NUM_DIRECT_DATA) _write this (Progress buf offset size 0 []) ;;
  if p_size p =? 0 then kret (p_rw_size p, p_out p)
  else
    i <- the_inode this ;;
    if next_addr_block i =? NO_BLOCK then
      if _write then
        (b <- alloc_block ;; upd_inode this (set_next_addr b) ;;; clear_addr_block b) ;;;
        indirect_part _write this p
      else kret (s64 (p_rw_size p + p_size p), p_out p ++ zeros (p_size p))
    else indirect_part _write this p.
