(* ===== verification/NfsRep.v ===== *)
(** * The bytes of an inode (representation invariant of src/os/fs/nfs/inode.cc)

    [file_byte] reads the contents of a file off the blocks: the specification
    of what [data_rw] reads and writes.  [frep] is the invariant of one inode
    (its blocks are allocated, and each of them is used once), and [fenv] says
    what the rest of the file system looks like since some earlier state
    [s0]: only blocks the inode owned then, or blocks that were free then,
    changed.  The lemmas say how each way of changing a block or a member of
    the inode acts on them. *)
From S2P Require Import Prelude Memory Bitmap NfsBlock NfsInode.

(** ** The contents of a file *)

(** [l] is the list of address blocks that starts at [b]. *)
Fixpoint chain (s : fs) (b : Z) (l : list Z) : Prop :=
  match l with
  | [] => b = NO_BLOCK
  | x :: l' => b = x /\ x <> NO_BLOCK /\ chain s (next_of (contents s x)) l'
  end.

(** The block with the [k]-th kilobyte of the file. *)
Definition file_block (s : fs) (i : minode) (l : list Z) (k : Z) : Z :=
  if decide (k < NUM_DIRECT_DATA) then nthZ (addrs i) k
  else
    match l !! Z.to_nat ((k - NUM_DIRECT_DATA) / NUM_ADDRS) with
    | Some a => entry (contents s a) ((k - NUM_DIRECT_DATA) mod NUM_ADDRS)
    | None => NO_BLOCK
    end.

(** The byte at [pos]; what does not exist is zero. *)
Definition file_byte (s : fs) (i : minode) (l : list Z) (pos : Z) : Z :=
  let b := file_block s i l (pos / BLOCK_SIZE) in
  if decide (b = NO_BLOCK) then 0 else rd8 (contents s b) (pos mod BLOCK_SIZE).

(** The blocks of the file: address blocks and data blocks. *)
Definition owned (s : fs) (i : minode) (l : list Z) (b : Z) : Prop :=
  b ∈ l \/ exists k, 0 <= k /\ file_block s i l k = b /\ b <> NO_BLOCK.

(** The position cache is unused, or names a position of the file. *)
Definition cache_ok (i : minode) (l : list Z) : Prop :=
  cache_raw_indirect_offset i = NO_BLOCK \/
  exists j, l !! j = Some (cache_addr_block i) /\
    cache_raw_indirect_offset i = Z.of_nat j * ADDR_BLOCK_DATA_SIZE + cache_offset i /\
    0 <= cache_offset i <= ADDR_BLOCK_DATA_SIZE.

(** The members that [data_rw] does not touch. *)
Definition meta (i : minode) : Z * Z * Z * Z * bool := (i_size i, i_nlinks i, i_perm i, i_type i, i_valid i).

(** ** Storing a block *)

Definition put (s : fs) (b : Z) (m : memory) : fs :=
  with_cells s (alter (fun c => Cell m true (ondisk c)) b (cells s)).

Lemma put_run {B} (k : K fs B) b m s :
  (bset b m ;;; bmark_dirty b ;;; k) s = k (put s b m).
Proof.
  unfold kbind, bset, bmark_dirty, kmodify, put, with_cells. cbn. do 2 f_equal.
  apply map_eq. intros x. destruct (decide (x = b)) as [->|Hne].
  - rewrite !lookup_alter_eq. by destruct (cells s !! b).
  - by rewrite !lookup_alter_ne.
Qed.

Lemma put_run_last b m s : (bset b m ;;; bmark_dirty b) s = Ret tt (put s b m).
Proof. exact (put_run (kret tt) b m s). Qed.

Lemma contents_put s b m x :
  is_Some (cells s !! b) -> contents (put s b m) x = if decide (x = b) then m else contents s x.
Proof.
  intros [c Hc]. unfold contents, put. cbn [with_cells cells]. case_decide as Hx.
  - subst x. by rewrite lookup_alter_eq, Hc.
  - by rewrite lookup_alter_ne.
Qed.

Lemma cells_put_ne s b m x : x <> b -> cells (put s b m) !! x = cells s !! x.
Proof. intros Hx. apply lookup_alter_ne. congruence. Qed.

Lemma bget_run {B} (k : memory -> K fs B) b s :
  is_Some (cells s !! b) -> (m <- bget b ;; k m) s = k (contents s b) s.
Proof. intros [c Hc]. unfold kbind, bget, contents. by rewrite Hc. Qed.

(** The bitmap does not depend on the generic blocks. *)
Lemma allocated_put s b m x :
  blocks_ok s -> generic_block_start (sb s) <= b < total_blocks (sb s) -> 0 <= x < total_blocks (sb s) ->
  allocated (put s b m) x = allocated s x.
Proof.
  intros [H1 H2 H3 H4 H5] Hb Hx. unfold allocated. rewrite contents_put by (apply H4; nlia).
  rewrite decide_False by nlia. done.
Qed.

Lemma blocks_ok_put s b m :
  blocks_ok s -> generic_block_start (sb s) <= b < total_blocks (sb s) -> blocks_ok (put s b m).
Proof.
  intros Hok Hb. pose proof Hok as [H1 H2 H3 H4 H5]. split; cbn [put with_cells sb]; [done|done|done| |].
  - intros x Hx. destruct (decide (x = b)) as [->|Hne].
    + unfold put. cbn [with_cells cells]. rewrite lookup_alter_eq. destruct (H4 b Hx) as [c ->]. by eexists.
    + rewrite cells_put_ne by done. by apply H4.
  - intros x Hx. rewrite allocated_put by (done || lia). by apply H5.
Qed.

Lemma alloc_not_none s b : blocks_ok s -> b < total_blocks (sb s) -> b <> NO_BLOCK.
Proof. intros [H1 H2 _ _ _] Hb. change NO_BLOCK with (2 ^ 32 - 1). nlia. Qed.

Lemma chain_agree s s' b l :
  (forall x, x ∈ l -> next_of (contents s' x) = next_of (contents s x)) -> chain s b l -> chain s' b l.
Proof.
  revert b. induction l as [|x l IH]; intros b Hag; [done|]. intros (-> & Hne & Hc). cbn [chain].
  split_and!; [done|done|]. rewrite Hag by by left. apply IH; [|done]. intros y Hy. apply Hag. by right.
Qed.

Lemma file_block_agree s s' i i' l k :
  addrs i' = addrs i ->
  (forall x q, x ∈ l -> 0 <= q < NUM_ADDRS -> entry (contents s' x) q = entry (contents s x) q) ->
  file_block s' i' l k = file_block s i l k.
Proof.
  intros Ha He. unfold file_block. rewrite Ha. case_decide; [done|].
  destruct (l !! _) as [a|] eqn:El; [|done]. apply He; [by eapply list_elem_of_lookup_2|nlia].
Qed.

Lemma file_byte_agree s s' i i' l l' pos :
  file_block s' i' l' (pos / BLOCK_SIZE) = file_block s i l (pos / BLOCK_SIZE) ->
  (file_block s i l (pos / BLOCK_SIZE) <> NO_BLOCK ->
    contents s' (file_block s i l (pos / BLOCK_SIZE)) = contents s (file_block s i l (pos / BLOCK_SIZE))) ->
  file_byte s' i' l' pos = file_byte s i l pos.
Proof. intros Hb Hc. unfold file_byte. rewrite Hb. case_decide; [done|]. by rewrite Hc. Qed.

(** ** Address blocks *)

Lemma entry_set_entry m q b q' :
  0 <= q -> 0 <= q' -> 0 <= b < 2 ^ 32 -> entry (set_entry m q b) q' = if decide (q' = q) then b else entry m q'.
Proof.
  intros Hq Hq' Hb. unfold entry, set_entry. case_decide.
  - subst. by apply (load_store_eq 4).
  - apply (load_store_ne 4 4). lia.
Qed.

Lemma next_set_entry m q b : 0 <= q -> next_of (set_entry m q b) = next_of m.
Proof. intros Hq. apply (load_store_ne 4 4). lia. Qed.

Lemma entry_set_next m b q : 0 <= q -> entry (set_next_of m b) q = entry m q.
Proof. intros Hq. apply (load_store_ne 4 4). lia. Qed.

Lemma addr_next_set m b : 0 <= b < 2 ^ 32 -> next_of (set_next_of m b) = b.
Proof. apply (load_store_eq 4). Qed.

(** The block after [clear_addr_block]. *)
Definition cleared (m : memory) : memory := wr_bytes m 0 (replicate (Z.to_nat BLOCK_SIZE) 255).

Lemma cleared_byte m a : 0 <= a < BLOCK_SIZE -> rd8 (cleared m) a = 255.
Proof.
  intros Ha. unfold cleared. rewrite (wr_bytes_inside _ _ _ _ 255); [done|lia|].
  apply lookup_replicate. split; [done|lia].
Qed.

Lemma cleared_word m a : 0 <= a -> a + 4 <= BLOCK_SIZE -> load32 (cleared m) a = NO_BLOCK.
Proof. intros H1 H2. rewrite !load_S, !cleared_byte by lia. done. Qed.

Lemma entry_cleared m q : 0 <= q < NUM_ADDRS -> entry (cleared m) q = NO_BLOCK.
Proof. intros Hq. apply cleared_word; nlia. Qed.

Lemma next_cleared m : next_of (cleared m) = NO_BLOCK.
Proof. unfold next_of. rewrite cleared_word by nlia. reflexivity. Qed.

Lemma chain_lookup s b l j a :
  chain s b l -> l !! j = Some a ->
  a <> NO_BLOCK /\ next_of (contents s a) = default NO_BLOCK (l !! S j).
Proof.
  revert b j. induction l as [|x l IH]; intros b j; [done|]. intros (-> & Hx & Hc) Hj.
  destruct j as [|j]; cbn in Hj.
  - simplify_eq. split; [done|]. cbn. destruct l; [done|]. cbn in *. tauto.
  - apply (IH (next_of (contents s x)) j Hc Hj).
Qed.

Lemma chain_head s b l : chain s b l -> b = default NO_BLOCK (l !! 0%nat).
Proof. destruct l; cbn; tauto. Qed.

(** Linking [b] behind the last block. *)
Lemma chain_link s h l a b :
  chain s h (l ++ [a]) -> NoDup (l ++ [a]) -> is_Some (cells s !! a) -> a <> b ->
  next_of (contents s b) = NO_BLOCK -> b <> NO_BLOCK -> 0 <= b < 2 ^ 32 ->
  chain (put s a (set_next_of (contents s a) b)) h ((l ++ [a]) ++ [b]).
Proof.
  intros Hc Hnd Hs Hab Hnx Hb Hr. revert h Hc Hnd.
  induction l as [|x l IH]; intros h Hc Hnd; cbn [app chain] in *.
  - destruct Hc as (-> & Ha & _). rewrite !contents_put, decide_True, decide_False by done.
    rewrite addr_next_set by done. done.
  - destruct Hc as (-> & Hx & Hc). apply NoDup_cons in Hnd as [Hxl Hnd].
    rewrite contents_put, decide_False by (done || set_solver). split_and!; [done|done|by apply IH].
Qed.

Section file.

(** The state at the start, the inode, the blocks it owned at the start, and
    the members that stay as they were. *)
Context (s0 : fs) (n : Z) (own0 : Z -> Prop) (meta0 : Z * Z * Z * Z * bool).

Definition may_change (b : Z) : Prop := own0 b \/ allocated s0 b = false.

Record fenv (s : fs) : Prop := {
  fe_ok : blocks_ok s;
  fe_layout : same_layout s0 s;
  fe_frame : forall b, ~ (BITMAP_BLOCK_INDEX <= b < generic_block_start (sb s0)) -> ~ may_change b ->
    cells s !! b = cells s0 !! b;
  fe_mono : forall b, 0 <= b < total_blocks (sb s0) -> allocated s0 b = true -> allocated s b = true;
  fe_others : forall j, j <> n -> inodes s !! j = inodes s0 !! j
}.

Record frep (s : fs) (i : minode) (l : list Z) : Prop := {
  fr_inode : inodes s !! n = Some i;
  fr_len : length (addrs i) = Z.to_nat NUM_DIRECT_DATA;
  fr_chain : chain s (next_addr_block i) l;
  fr_nodup : NoDup l;
  fr_own : forall b, owned s i l b ->
    generic_block_start (sb s) <= b < total_blocks (sb s) /\ allocated s b = true /\ may_change b;
  fr_inj : forall k k', 0 <= k -> 0 <= k' -> file_block s i l k = file_block s i l k' ->
    file_block s i l k <> NO_BLOCK -> k = k';
  fr_data : forall k, 0 <= k -> file_block s i l k <> NO_BLOCK -> file_block s i l k ∉ l;
  fr_cache : cache_ok i l;
  fr_meta : meta i = meta0
}.

(** A block that can become part of the file. *)
Definition usable (s : fs) (i : minode) (l : list Z) (b : Z) : Prop :=
  generic_block_start (sb s) <= b < total_blocks (sb s) /\ allocated s b = true /\ may_change b /\ ~ owned s i l b.

(** ** Preservation of [fenv] *)

Lemma fenv_put s b m :
  fenv s -> generic_block_start (sb s) <= b < total_blocks (sb s) -> may_change b -> fenv (put s b m).
Proof.
  intros [H1 H2 H3 H4 H5] Hb Hm. pose proof H2 as (Ht & Hg & _). split.
  - by apply blocks_ok_put.
  - done.
  - intros x Hx Hnx. rewrite cells_put_ne by (intros ->; done). by apply H3.
  - intros x Hx Hal. rewrite allocated_put by (done || lia). by apply H4.
  - done.
Qed.

Lemma fenv_inode s f :
  fenv s -> fenv (FS (cells s) (sb s) (sb_dirty s) (alter f n (inodes s))).
Proof.
  intros [H1 H2 H3 H4 H5]. split; try done.
  - destruct H1. by split.
  - intros j Hj. cbn [inodes]. rewrite lookup_alter_ne by done. by apply H5.
Qed.

Lemma fenv_alloc s b s' : fenv s -> alloc_post s b s' -> fenv s'.
Proof.
  intros [H1 H2 H3 H4 H5] (Hb & Hfree & Hal & Hout & Hin & Hok & Hl & _). pose proof H2 as (Ht & Hg & Htg).
  split.
  - done.
  - unfold same_layout in *. intuition congruence.
  - intros x Hx Hnx. rewrite Hout by lia. by apply H3.
  - intros x Hx Hx0. rewrite Hal, H4 by (done || lia). apply orb_true_r.
  - intros j Hj. rewrite Hin. by apply H5.
Qed.

Lemma fenv_alloc_fail s s' : fenv s -> alloc_fail s s' -> fenv s'.
Proof.
  intros [H1 H2 H3 H4 H5] (Hc & Hin & Hok & Hl & _). split.
  - done.
  - unfold same_layout in *. intuition congruence.
  - intros x Hx Hnx. rewrite Hc. by apply H3.
  - intros x Hx Hx0. unfold allocated, contents. rewrite Hc. by apply H4.
  - intros j Hj. rewrite Hin. by apply H5.
Qed.

(** ** Preservation of [frep] *)

Lemma frep_same s s' i i' l :
  frep s i l -> same_layout s s' ->
  (forall b, 0 <= b < total_blocks (sb s) -> allocated s b = true -> allocated s' b = true) ->
  (forall x, x ∈ l -> next_of (contents s' x) = next_of (contents s x)) ->
  (forall x q, x ∈ l -> 0 <= q < NUM_ADDRS -> entry (contents s' x) q = entry (contents s x) q) ->
  inodes s' !! n = Some i' -> addrs i' = addrs i -> next_addr_block i' = next_addr_block i ->
  cache_ok i' l -> meta i' = meta i -> blocks_ok s ->
  frep s' i' l /\ forall k, file_block s' i' l k = file_block s i l k.
Proof.
  intros [H1 H2 H3 H4 H5 H6 H7 H8 H9] (Ht & Hg & _) Hal Hnx Hen Hi Ha Hn Hc Hm Hok.
  assert (forall k, file_block s' i' l k = file_block s i l k) as Hfb
    by (intros k; by apply file_block_agree).
  split; [|done]. split; rewrite ?Ha, ?Hn, ?Hm, ?Ht, ?Hg; try done.
  - by eapply chain_agree.
  - intros b Hb. assert (owned s i l b) as Hb'.
    { destruct Hb as [|(k & Hk & Hkb & Hne)]; [by left|right]. exists k. by rewrite <- Hfb. }
    destruct (H5 b Hb') as (Hr & Hab & Hmc). split_and!; [lia|lia| |done]. apply Hal; [|done]. destruct Hok. nlia.
  - intros k k'. rewrite !Hfb. apply H6.
  - intros k. rewrite Hfb. apply H7.
Qed.

(** Block [b] becomes the data block [k0]. *)
Lemma frep_install s s' i i' l k0 b :
  frep s i l -> usable s i l b -> file_block s i l k0 = NO_BLOCK -> b <> NO_BLOCK ->
  same_layout s s' -> (forall x, 0 <= x < total_blocks (sb s) -> allocated s' x = allocated s x) ->
  (forall x, x ∈ l -> next_of (contents s' x) = next_of (contents s x)) ->
  inodes s' !! n = Some i' -> length (addrs i') = Z.to_nat NUM_DIRECT_DATA ->
  next_addr_block i' = next_addr_block i -> cache_ok i' l -> meta i' = meta i -> blocks_ok s ->
  (forall k, 0 <= k -> file_block s' i' l k = if decide (k = k0) then b else file_block s i l k) ->
  frep s' i' l.
Proof.
  intros [H1 H2 H3 H4 H5 H6 H7 H8 H9] (Hbr & Hba & Hbm & Hbo) Hk0 Hbn (Ht & Hg & _) Hal Hnx Hi Hlen Hn Hc Hm Hok Hfb.
  assert (0 <= generic_block_start (sb s)) by (destruct Hok; nlia).
  split; rewrite ?Hn, ?Hm, ?Ht, ?Hg; try done.
  - by eapply chain_agree.
  - assert (forall x, owned s i l x -> generic_block_start (sb s) <= x < total_blocks (sb s) /\
      allocated s' x = true /\ may_change x) as Hold.
    { intros x Hx. destruct (H5 x Hx) as (? & ? & ?). split_and!; [lia|lia|rewrite Hal by lia; done|done]. }
    intros x [Hx|(k & Hk & Hkx & Hxn)]; [by apply Hold; left|]. rewrite Hfb in Hkx by done. case_decide.
    + subst x. split_and!; [lia|lia|rewrite Hal by lia; done|done].
    + apply Hold. right. eauto.
  - intros k k' Hk Hk'. rewrite !Hfb by done. repeat case_decide; subst; try done.
    + intros He Hne. exfalso. apply Hbo. right. exists k'. by rewrite <- He.
    + intros He Hne. exfalso. apply Hbo. right. exists k. by rewrite He.
    + by apply H6.
  - intros k Hk. rewrite Hfb by done. case_decide; [|by apply H7]. intros _ Hin. apply Hbo. by left.
Qed.

(** Block [b] becomes the last address block. *)
Lemma frep_extend s s' i i' l b :
  frep s i l -> usable s i l b -> same_layout s s' ->
  (forall x, 0 <= x < total_blocks (sb s) -> allocated s' x = allocated s x) ->
  chain s' (next_addr_block i') (l ++ [b]) ->
  inodes s' !! n = Some i' -> addrs i' = addrs i -> cache_ok i' (l ++ [b]) -> meta i' = meta i -> blocks_ok s ->
  (forall k, 0 <= k -> file_block s' i' (l ++ [b]) k = file_block s i l k) ->
  frep s' i' (l ++ [b]).
Proof.
  intros [H1 H2 H3 H4 H5 H6 H7 H8 H9] (Hbr & Hba & Hbm & Hbo) (Ht & Hg & _) Hal Hch Hi Ha Hc Hm Hok Hfb.
  assert (0 <= generic_block_start (sb s)) by (destruct Hok; nlia).
  split; rewrite ?Ha, ?Hm, ?Ht, ?Hg; try done.
  - apply NoDup_app. split_and!; [done| |apply NoDup_singleton].
    intros x Hx ->%list_elem_of_singleton. apply Hbo. by left.
  - assert (forall x, owned s i l x -> generic_block_start (sb s) <= x < total_blocks (sb s) /\
      allocated s' x = true /\ may_change x) as Hold.
    { intros x Hx. destruct (H5 x Hx) as (? & ? & ?). split_and!; [lia|lia|rewrite Hal by lia; done|done]. }
    intros x [[Hx|Hx%list_elem_of_singleton]%elem_of_app|(k & Hk & Hkx & Hxn)].
    + by apply Hold; left.
    + subst x. split_and!; [lia|lia|rewrite Hal by lia; done|done].
    + rewrite Hfb in Hkx by done. apply Hold. right. eauto.
  - intros k k' Hk Hk'. rewrite !Hfb by done. by apply H6.
  - intros k Hk. rewrite Hfb by done. intros Hne [Hin|He%list_elem_of_singleton]%elem_of_app.
    + by apply (H7 k).
    + apply Hbo. right. exists k. by rewrite He in *.
Qed.

(** ** The ways the file changes *)

Lemma data_block_facts s i l k :
  frep s i l -> 0 <= k -> file_block s i l k <> NO_BLOCK ->
  generic_block_start (sb s) <= file_block s i l k < total_blocks (sb s) /\
  may_change (file_block s i l k) /\ file_block s i l k ∉ l.
Proof.
  intros Hr Hk Hne. destruct (fr_own _ _ _ Hr (file_block s i l k)) as (? & _ & ?); [right; eauto|].
  split_and!; [lia|lia|done|by apply (fr_data _ _ _ Hr)].
Qed.

(** New contents for the data block [k]. *)
Lemma frep_put_data s i l k m :
  fenv s -> frep s i l -> 0 <= k -> file_block s i l k <> NO_BLOCK ->
  let s' := put s (file_block s i l k) m in
  fenv s' /\ frep s' i l /\
  (forall pos, 0 <= pos -> file_byte s' i l pos =
    if decide (pos / BLOCK_SIZE = k) then rd8 m (pos mod BLOCK_SIZE) else file_byte s i l pos).
Proof.
  intros He Hr Hk Hne s'. destruct (data_block_facts s i l k Hr Hk Hne) as (Hb & Hm & Hl).
  pose proof (fe_ok _ He) as Hok. assert (is_Some (cells s !! file_block s i l k)) as Hs
    by (apply (bo_cells _ Hok); destruct Hok; nlia).
  assert (forall x, x ∈ l -> contents s' x = contents s x) as Hcl.
  { intros x Hx. subst s'. rewrite contents_put, decide_False; [done|congruence|done]. }
  destruct (frep_same s s' i i l Hr) as [Hr' Hfb]; try done.
  - intros x Hx Hal. subst s'. by rewrite allocated_put.
  - intros x Hx. by rewrite Hcl.
  - intros x q Hx _. by rewrite Hcl.
  - by apply Hr.
  - by apply Hr.
  - split_and!; [by apply fenv_put|done|]. intros pos Hpos. case_decide as Hpk.
    + unfold file_byte. rewrite Hpk, Hfb, decide_False by done. subst s'. by rewrite contents_put, decide_True.
    + apply file_byte_agree; [by rewrite Hfb|]. intros Hne'. subst s'. rewrite contents_put by done.
      rewrite decide_False; [done|]. intros Heq. apply Hpk. apply (fr_inj _ _ _ Hr); [nlia|done|done|done].
Qed.

(** A fresh block. *)
Lemma frep_alloc s i l b s' :
  fenv s -> frep s i l -> alloc_post s b s' ->
  fenv s' /\ frep s' i l /\ usable s' i l b /\ b <> NO_BLOCK /\
  (forall k, file_block s' i l k = file_block s i l k) /\
  (forall pos, 0 <= pos -> file_byte s' i l pos = file_byte s i l pos).
Proof.
  intros He Hr Hp. pose proof Hp as (Hb & Hfree & Hal & Hout & Hin & Hok' & Hlay & _).
  pose proof (fe_ok _ He) as Hok. pose proof Hlay as (Ht & Hg & _).
  assert (0 <= generic_block_start (sb s)) as Hg0 by (destruct Hok; nlia).
  assert (forall x, owned s i l x -> contents s' x = contents s x) as Hcont.
  { intros x Hx. destruct (fr_own _ _ _ Hr x Hx) as (Hxr & _ & _). unfold contents. rewrite Hout by lia. done. }
  destruct (frep_same s s' i i l Hr Hlay) as [Hr' Hfb]; try done.
  - intros x Hx Hx1. rewrite Hal, Hx1 by lia. apply orb_true_r.
  - intros x Hx. rewrite Hcont; [done|by left].
  - intros x q Hx _. rewrite Hcont; [done|by left].
  - rewrite Hin. apply Hr.
  - apply Hr.
  - split_and!; [by eapply fenv_alloc|done| |apply (alloc_not_none s); [done|lia]|done|].
    + split_and!; [lia|lia|rewrite Hal, bool_decide_eq_true_2 by (done || lia); done| |].
      * right. destruct (allocated s0 b) eqn:E; [|done].
        rewrite (fe_mono _ He b) in Hfree; [done| |done]. pose proof (fe_layout _ He) as (? & _). lia.
      * intros Hown. assert (owned s i l b) as Hown'.
        { destruct Hown as [|(k & Hk & Hkb & Hne)]; [by left|right]. exists k. by rewrite <- Hfb. }
        destruct (fr_own _ _ _ Hr b Hown') as (_ & ? & _). congruence.
    + intros pos Hpos. apply file_byte_agree; [done|]. intros Hne. apply Hcont. right.
      exists (pos / BLOCK_SIZE). split_and!; [nlia|done|done].
Qed.

Lemma frep_alloc_fail s i l s' :
  fenv s -> frep s i l -> alloc_fail s s' ->
  fenv s' /\ frep s' i l /\ (forall pos, file_byte s' i l pos = file_byte s i l pos).
Proof.
  intros He Hr Hp. pose proof Hp as (Hc & Hin & _ & Hlay & _).
  assert (forall x, contents s' x = contents s x) as Hcont by (intros x; unfold contents; by rewrite Hc).
  destruct (frep_same s s' i i l Hr Hlay) as [Hr' Hfb]; try done.
  - intros x Hx. unfold allocated. by rewrite Hcont.
  - intros x Hx. by rewrite Hcont.
  - intros x q Hx _. by rewrite Hcont.
  - rewrite Hin. apply Hr.
  - apply Hr.
  - by apply He.
  - split_and!; [by eapply fenv_alloc_fail|done|]. intros pos. by apply file_byte_agree.
Qed.

(** A usable block becomes a direct block. *)
Lemma frep_set_addr s i l k b :
  fenv s -> frep s i l -> usable s i l b -> b <> NO_BLOCK -> 0 <= k < NUM_DIRECT_DATA ->
  file_block s i l k = NO_BLOCK ->
  let s' := FS (cells s) (sb s) (sb_dirty s) (alter (set_addr k b) n (inodes s)) in
  fenv s' /\ frep s' (set_addr k b i) l /\ file_block s' (set_addr k b i) l k = b /\
  (forall pos, 0 <= pos -> pos / BLOCK_SIZE <> k -> file_byte s' (set_addr k b i) l pos = file_byte s i l pos).
Proof.
  intros He Hr Hu Hbn Hk Hnone s'.
  assert (forall k', 0 <= k' -> file_block s' (set_addr k b i) l k' =
    if decide (k' = k) then b else file_block s i l k') as Hfb.
  { intros k' Hk'. unfold file_block. cbn [set_addr addrs]. case_decide.
    - case_decide; [subst|]; [apply nthZ_updZ_eq; rewrite (fr_len _ _ _ Hr); lia|apply nthZ_updZ_ne; lia].
    - rewrite (decide_False (P := k' = k)) by lia. done. }
  split_and!; [by apply fenv_inode| | |].
  - apply (frep_install s s' i (set_addr k b i) l k b Hr Hu Hnone Hbn); try done.
    + subst s'. cbn [inodes]. rewrite lookup_alter_eq, (fr_inode _ _ _ Hr). done.
    + cbn [set_addr addrs]. rewrite length_updZ. apply Hr.
    + apply Hr.
    + apply He.
  - rewrite Hfb, decide_True by (done || lia). done.
  - intros pos Hpos Hne. apply file_byte_agree; [|done]. rewrite Hfb, decide_False by (done || nlia). done.
Qed.

(** A usable block becomes the data block behind entry [q] of address block
    number [j]. *)
Lemma frep_set_entry s i l j a q b :
  fenv s -> frep s i l -> usable s i l b -> b <> NO_BLOCK -> l !! j = Some a -> 0 <= q < NUM_ADDRS ->
  let k := NUM_DIRECT_DATA + Z.of_nat j * NUM_ADDRS + q in
  file_block s i l k = NO_BLOCK ->
  let s' := put s a (set_entry (contents s a) q b) in
  fenv s' /\ frep s' i l /\ file_block s' i l k = b /\
  (forall pos, 0 <= pos -> pos / BLOCK_SIZE <> k -> file_byte s' i l pos = file_byte s i l pos).
Proof.
  intros He Hr Hu Hbn Hj Hq k Hnone s'.
  assert (a ∈ l) as Hal by by eapply list_elem_of_lookup_2.
  destruct (fr_own _ _ _ Hr a) as (Har & _ & Ham); [by left|].
  pose proof (fe_ok _ He) as Hok. pose proof Hok as [Ho1 Ho2 _ Ho4 _].
  assert (is_Some (cells s !! a)) as Hsa by (apply Ho4; nlia).
  assert (0 <= b < 2 ^ 32) as Hb32 by (destruct Hu as (? & _); nlia).
  assert (forall x q', x ∈ l -> 0 <= q' -> entry (contents s' x) q' =
    if decide (x = a /\ q' = q) then b else entry (contents s x) q') as Hen.
  { intros x q' Hx Hq'. subst s'. rewrite contents_put by done. case_decide as Hxa; subst.
    - rewrite entry_set_entry by lia. repeat case_decide; naive_solver.
    - rewrite decide_False by naive_solver. done. }
  assert (forall k', 0 <= k' -> file_block s' i l k' = if decide (k' = k) then b else file_block s i l k') as Hfb.
  { intros k' Hk'. unfold file_block. case_decide as Hd; [rewrite decide_False by (subst k; nlia); done|].
    destruct (l !! Z.to_nat ((k' - NUM_DIRECT_DATA) / NUM_ADDRS)) as [x|] eqn:Ex.
    - rewrite Hen by (nlia || by eapply list_elem_of_lookup_2).
      assert (x = a <-> (k' - NUM_DIRECT_DATA) / NUM_ADDRS = Z.of_nat j) as Hxa.
      { split; [intros ->|intros Hx].
        - pose proof (NoDup_lookup _ _ _ _ (fr_nodup _ _ _ Hr) Ex Hj). nlia.
        - rewrite Hx, Nat2Z.id in Ex. congruence. }
      apply decide_ext. rewrite Hxa. subst k. nlia.
    - rewrite decide_False; [done|]. intros ->. subst k.
      replace (Z.to_nat _) with j in Ex by nlia. congruence. }
  split_and!; [by apply fenv_put| | |].
  - apply (frep_install s s' i i l k b Hr Hu Hnone Hbn); try done; try apply Hr.
    + intros x Hx. subst s'. by rewrite allocated_put.
    + intros x Hx. subst s'. rewrite contents_put by done. case_decide; [subst; apply next_set_entry; lia|done].
  - rewrite Hfb, decide_True by (done || subst k; nlia). done.
  - intros pos Hpos Hne. apply file_byte_agree; [rewrite Hfb, decide_False by (done || nlia); done|].
    intros Hd. subst s'. rewrite contents_put, decide_False; [done| |done]. intros Heq.
    apply (fr_data _ _ _ Hr (pos / BLOCK_SIZE)); [nlia|done|by rewrite Heq].
Qed.

(** New contents for a block that is not part of the file yet. *)
Lemma frep_put_free s i l b m :
  fenv s -> frep s i l -> usable s i l b ->
  let s' := put s b m in
  fenv s' /\ frep s' i l /\ usable s' i l b /\ contents s' b = m /\
  (forall k, file_block s' i l k = file_block s i l k) /\
  (forall pos, 0 <= pos -> file_byte s' i l pos = file_byte s i l pos).
Proof.
  intros He Hr (Hbr & Hba & Hbm & Hbo) s'. pose proof (fe_ok _ He) as Hok. pose proof Hok as [Ho1 _ _ Ho4 _].
  assert (is_Some (cells s !! b)) as Hsb by (apply Ho4; nlia).
  assert (forall x, owned s i l x -> contents s' x = contents s x) as Hc.
  { intros x Hx. subst s'. rewrite contents_put, decide_False; [done|congruence|done]. }
  destruct (frep_same s s' i i l Hr) as [Hr' Hfb]; try done; try apply Hr.
  - intros x Hx. subst s'. by rewrite allocated_put.
  - intros x Hx. rewrite Hc; [done|by left].
  - intros x q Hx _. rewrite Hc; [done|by left].
  - split_and!; [by apply fenv_put|done| | |done|].
    + split; [exact Hbr|]. split_and!; [|done|].
      * subst s'. rewrite allocated_put by (done || nlia). done.
      * intros [|(k & Hk & Hkb & Hne)]; apply Hbo; [by left|right]. exists k. by rewrite <- Hfb.
    + subst s'. by rewrite contents_put, decide_True.
    + intros pos Hpos. apply file_byte_agree; [done|]. intros Hne. apply Hc. right.
      exists (pos / BLOCK_SIZE). split_and!; [nlia|done|done].
Qed.

(** An address block without entries does not change the file map. *)
Lemma file_block_snoc s i l b k :
  (forall q, 0 <= q < NUM_ADDRS -> entry (contents s b) q = NO_BLOCK) ->
  file_block s i (l ++ [b]) k = file_block s i l k.
Proof.
  intros Hb. unfold file_block. case_decide; [done|].
  set (j := Z.to_nat _). destruct (decide (j < length l)%nat).
  - by rewrite lookup_app_l.
  - rewrite lookup_app_r, (lookup_ge_None_2 l) by lia.
    destruct (decide (j = length l)) as [->|].
    + rewrite Nat.sub_diag. apply Hb. nlia.
    + rewrite lookup_ge_None_2; [done|]. cbn. lia.
Qed.

Lemma cache_ok_snoc i l b : cache_ok i l -> cache_ok i (l ++ [b]).
Proof.
  intros [|(j & Hj & Hrest)]; [by left|right]. exists j. split; [|done]. by apply lookup_app_l_Some.
Qed.

(** A cleared block is linked behind the last address block. *)
Lemma frep_link s i l a b :
  fenv s -> frep s i (l ++ [a]) -> usable s i (l ++ [a]) b ->
  (forall q, 0 <= q < NUM_ADDRS -> entry (contents s b) q = NO_BLOCK) -> next_of (contents s b) = NO_BLOCK ->
  let s' := put s a (set_next_of (contents s a) b) in
  fenv s' /\ frep s' i ((l ++ [a]) ++ [b]) /\
  (forall pos, 0 <= pos -> file_byte s' i ((l ++ [a]) ++ [b]) pos = file_byte s i (l ++ [a]) pos).
Proof.
  intros He Hr Hu Hen Hnx s'. pose proof Hu as (Hbr & _ & _ & Hbo).
  assert (a ∈ l ++ [a]) as Hal by set_solver.
  destruct (fr_own _ _ _ Hr a) as (Har & _ & Ham); [by left|].
  pose proof (fe_ok _ He) as Hok. pose proof Hok as [Ho1 Ho2 _ Ho4 _].
  assert (is_Some (cells s !! a)) as Hsa by (apply Ho4; nlia).
  assert (a <> b) as Hab by (intros ->; apply Hbo; by left).
  assert (forall x q, 0 <= q -> entry (contents s' x) q = entry (contents s x) q) as Hen'.
  { intros x q Hq. subst s'. rewrite contents_put by done. case_decide; [subst; by apply entry_set_next|done]. }
  assert (forall k, 0 <= k -> file_block s' i ((l ++ [a]) ++ [b]) k = file_block s i (l ++ [a]) k) as Hfb.
  { intros k Hk. rewrite file_block_snoc.
    - apply file_block_agree; [done|]. intros x q _ Hq. apply Hen'. lia.
    - intros q Hq. rewrite Hen' by lia. by apply Hen. }
  split_and!; [by apply fenv_put| |].
  - apply (frep_extend s s' i i (l ++ [a]) b Hr Hu); try done; try apply Hr.
    + intros x Hx. subst s'. by rewrite allocated_put.
    + apply chain_link; try done; try apply Hr; [|nlia]. apply (alloc_not_none s); [done|lia].
    + by apply cache_ok_snoc, Hr.
  - intros pos Hpos. apply file_byte_agree; [apply Hfb; nlia|]. intros Hne.
    subst s'. rewrite contents_put, decide_False; [done| |done]. intros Heq.
    apply (fr_data _ _ _ Hr (pos / BLOCK_SIZE)); [nlia|done|by rewrite Heq].
Qed.

(** A cleared block becomes the first address block. *)
Lemma frep_first s i b :
  fenv s -> frep s i [] -> usable s i [] b ->
  (forall q, 0 <= q < NUM_ADDRS -> entry (contents s b) q = NO_BLOCK) -> next_of (contents s b) = NO_BLOCK ->
  let s' := FS (cells s) (sb s) (sb_dirty s) (alter (set_next_addr b) n (inodes s)) in
  fenv s' /\ frep s' (set_next_addr b i) [b] /\
  (forall pos, file_byte s' (set_next_addr b i) [b] pos = file_byte s i [] pos).
Proof.
  intros He Hr Hu Hen Hnx s'. pose proof Hu as (Hbr & _).
  assert (b <> NO_BLOCK) as Hbn by (apply (alloc_not_none s); [apply He|lia]).
  assert (forall k, file_block s' (set_next_addr b i) [b] k = file_block s i [] k) as Hfb.
  { intros k. exact (file_block_snoc s i [] b k Hen). }
  split_and!; [by apply fenv_inode| |].
  - apply (frep_extend s s' i _ [] b Hr Hu); try done.
    + subst s'. cbn [inodes]. rewrite lookup_alter_eq, (fr_inode _ _ _ Hr). done.
    + exact (cache_ok_snoc i [] b (fr_cache _ _ _ Hr)).
    + apply He.
  - intros pos. by apply file_byte_agree.
Qed.

(** The position cache. *)
Lemma frep_set_position s i l raw off a :
  fenv s -> frep s i l -> cache_ok (set_position raw off a i) l ->
  let s' := FS (cells s) (sb s) (sb_dirty s) (alter (set_position raw off a) n (inodes s)) in
  fenv s' /\ frep s' (set_position raw off a i) l /\
  (forall pos, file_byte s' (set_position raw off a i) l pos = file_byte s i l pos).
Proof.
  intros He Hr Hc s'. destruct (frep_same s s' i (set_position raw off a i) l Hr) as [Hr' Hfb]; try done.
  - subst s'. cbn [inodes]. rewrite lookup_alter_eq, (fr_inode _ _ _ Hr). done.
  - apply He.
  - split_and!; [by apply fenv_inode|done|]. intros pos. by apply file_byte_agree.
Qed.

End file.
