(* ===== verification/NfsData.v ===== *)
(** * Reading and writing files (src/os/fs/nfs/inode.cc)

    [data_rw] implements an array of bytes: a read returns the bytes of
    [file_byte], a write changes exactly those of its range, and neither
    touches a block of anybody else.  The specifications follow the code from
    one block to the loops. *)
From S2P Require Import Prelude Memory Bitmap NfsBlock NfsInode NfsRep.

(** ** Byte arrays *)

Definition overwrite (f : Z -> Z) (lo : Z) (data : list Z) : Z -> Z := fun pos =>
  if decide (lo <= pos < lo + Z.of_nat (length data)) then nthZ data (pos - lo) else f pos.

Fixpoint slice (f : Z -> Z) (lo : Z) (n : nat) : list Z :=
  match n with
  | O => []
  | S n' => f lo :: slice f (lo + 1) n'
  end.

Lemma slice_app f lo n m : slice f lo (n + m) = slice f lo n ++ slice f (lo + Z.of_nat n) m.
Proof.
  revert lo. induction n as [|n IH]; intros lo; cbn [slice Nat.add app].
  - by rewrite Z.add_0_r.
  - rewrite IH. do 3 f_equal. lia.
Qed.

Lemma slice_ext f g lo n : (forall pos, lo <= pos < lo + Z.of_nat n -> f pos = g pos) -> slice f lo n = slice g lo n.
Proof.
  revert lo. induction n as [|n IH]; intros lo H; cbn [slice]; [done|]. f_equal; [apply H; lia|].
  apply IH. intros. apply H. lia.
Qed.

Lemma slice_rd_bytes m lo n : rd_bytes n m lo = slice (rd8 m) lo n.
Proof. revert lo. induction n as [|n IH]; intros lo; cbn; [done|]. by rewrite IH. Qed.

Lemma slice_zeros lo n : slice (fun _ => 0) lo n = replicate n 0.
Proof. revert lo. induction n as [|n IH]; intros lo; cbn; [done|]. by rewrite IH. Qed.

Lemma slice_shift f d lo n : slice (fun pos => f (pos + d)) lo n = slice f (lo + d) n.
Proof.
  revert lo. induction n as [|n IH]; intros lo; cbn; [done|]. rewrite IH. do 2 f_equal. lia.
Qed.

Lemma length_slice f lo n : length (slice f lo n) = n.
Proof. revert lo. induction n; intros lo; cbn; [done|]. by f_equal. Qed.

Lemma nthZ_app_l (l1 l2 : list Z) j : 0 <= j < Z.of_nat (length l1) -> nthZ (l1 ++ l2) j = nthZ l1 j.
Proof. intros Hj. unfold nthZ. apply app_nth1. lia. Qed.

Lemma nthZ_app_r (l1 l2 : list Z) j :
  Z.of_nat (length l1) <= j -> nthZ (l1 ++ l2) j = nthZ l2 (j - Z.of_nat (length l1)).
Proof. intros Hj. unfold nthZ. rewrite app_nth2 by lia. f_equal. lia. Qed.

Lemma overwrite_app f lo d1 d2 pos :
  overwrite (overwrite f lo d1) (lo + Z.of_nat (length d1)) d2 pos = overwrite f lo (d1 ++ d2) pos.
Proof.
  unfold overwrite. rewrite length_app, Nat2Z.inj_add. repeat case_decide; try lia; try done.
  - rewrite nthZ_app_r by lia. f_equal. lia.
  - by rewrite nthZ_app_l by lia.
Qed.

Lemma overwrite_ext f g lo d pos : f pos = g pos -> overwrite f lo d pos = overwrite g lo d pos.
Proof. intros Hfg. unfold overwrite. by case_decide. Qed.

Definition bytes (l : list Z) : Prop := Forall (fun b => 0 <= b < 256) l.

Lemma wr_bytes_get m a d x :
  bytes d -> rd8 (wr_bytes m a d) x =
    if decide (a <= x < a + Z.of_nat (length d)) then nthZ d (x - a) else rd8 m x.
Proof.
  intros Hd. case_decide as Hx.
  - assert (d !! Z.to_nat (x - a) = Some (nthZ d (x - a))) as Hl by (apply nthZ_lookup_lt; lia).
    rewrite (wr_bytes_inside _ _ _ x _) by (lia || exact Hl). apply u8_small.
    unfold bytes in Hd. rewrite Forall_lookup in Hd. by eapply Hd.
  - apply wr_bytes_other. lia.
Qed.

Lemma bytes_zeros n : bytes (zeros n).
Proof. apply Forall_replicate. lia. Qed.

Lemma nthZ_zeros n j : 0 <= j < n -> nthZ (zeros n) j = 0.
Proof. intros Hj. apply nthZ_lookup. apply lookup_replicate. split; [done|lia]. Qed.

Lemma bytes_take n l : bytes l -> bytes (take n l).
Proof. apply Forall_take. Qed.

Lemma bytes_drop n l : bytes l -> bytes (drop n l).
Proof. apply Forall_drop. Qed.

(** ** One block *)

Section data.
Context (s0 : fs) (n : Z) (own0 : Z -> Prop) (meta0 : Z * Z * Z * Z * bool).

(** The file [n] has the bytes [f]. *)
Definition holds (s : fs) (i : minode) (l : list Z) (f : Z -> Z) : Prop :=
  fenv s0 n own0 s /\ frep s0 n own0 meta0 s i l /\ forall pos, 0 <= pos -> file_byte s i l pos = f pos.

Lemma holds_ext s i l f g : (forall pos, 0 <= pos -> f pos = g pos) -> holds s i l f -> holds s i l g.
Proof. intros Hfg (He & Hr & Hf). split_and!; [done|done|]. intros pos Hpos. rewrite Hf by done. by apply Hfg. Qed.

(** A block to transfer to: its bytes are known, or it is new and the bytes
    there are zero. *)
Definition target (clear : bool) (s : fs) (i : minode) (l : list Z) (f : Z -> Z) (k : Z) : Prop :=
  fenv s0 n own0 s /\ frep s0 n own0 meta0 s i l /\ 0 <= k /\ file_block s i l k <> NO_BLOCK /\
  (forall pos, 0 <= pos -> clear = false \/ pos / BLOCK_SIZE <> k -> file_byte s i l pos = f pos) /\
  (clear = true -> forall pos, pos / BLOCK_SIZE = k -> f pos = 0).

Lemma target_cell clear s i l f k : target clear s i l f k -> is_Some (cells s !! file_block s i l k).
Proof.
  intros (He & Hr & Hk & Hne & _). destruct (data_block_facts _ _ _ _ _ _ _ _ Hr Hk Hne) as (Hb & _).
  pose proof (fe_ok _ _ _ _ He) as Hok. apply (bo_cells _ Hok). destruct Hok. nlia.
Qed.

Lemma transfer_write clear s i l f k doff buf size :
  target clear s i l f k -> bytes buf -> 0 <= doff -> 0 <= size <= Z.of_nat (length buf) -> doff + size <= BLOCK_SIZE ->
  exists s', block_transfer true clear (file_block s i l k) doff buf size s = Ret [] s' /\
    holds s' i l (overwrite f (k * BLOCK_SIZE + doff) (take (Z.to_nat size) buf)).
Proof.
  intros Ht Hbuf Hd Hs Hds. pose proof (target_cell _ _ _ _ _ _ Ht) as Hcell.
  destruct Ht as (He & Hr & Hk & Hne & Hf & Hz). unfold block_transfer. rewrite bget_run, put_run by done.
  eexists. split; [reflexivity|]. set (m := contents s (file_block s i l k)).
  set (data := take (Z.to_nat size) buf). set (m2 := if clear then _ else _).
  assert (Z.of_nat (length data) = size) as Hlen by (subst data; rewrite length_take; lia).
  assert (forall a, 0 <= a < BLOCK_SIZE -> rd8 m2 a =
    if decide (doff <= a < doff + size) then nthZ data (a - doff) else if clear then 0 else rd8 m a) as Hm2.
  { intros a Ha. pose proof (bytes_take (Z.to_nat size) _ Hbuf) as Hbd. fold data in Hbd.
    subst m2. destruct clear; rewrite ?(wr_bytes_get _ _ _ _ (bytes_zeros _)), wr_bytes_get, ?Hlen by done;
      unfold zeros; rewrite ?length_replicate, ?Z2Nat.id by lia; fold (zeros doff);
      repeat case_decide; try lia; try done; apply nthZ_zeros; lia. }
  destruct (frep_put_data s0 n own0 meta0 s i l k m2 He Hr Hk Hne) as (He' & Hr' & Hf').
  split_and!; [done|done|]. intros pos Hpos. rewrite Hf' by done. unfold overwrite. rewrite Hlen.
  case_decide as Hpk.
  - rewrite Hm2 by nlia. rewrite <- Hpk. repeat case_decide; try nlia.
    + f_equal. nlia.
    + destruct clear; [by rewrite Hz|]. rewrite <- Hf by auto. unfold file_byte.
      by rewrite Hpk, decide_False.
  - rewrite decide_False by nlia. apply Hf; auto.
Qed.

Lemma transfer_read s i l f k doff buf size :
  holds s i l f -> 0 <= k -> file_block s i l k <> NO_BLOCK -> 0 <= doff -> 0 <= size -> doff + size <= BLOCK_SIZE ->
  block_transfer false false (file_block s i l k) doff buf size s =
    Ret (slice f (k * BLOCK_SIZE + doff) (Z.to_nat size)) s.
Proof.
  intros (He & Hr & Hf) Hk Hne Hd Hs Hds. unfold block_transfer.
  rewrite bget_run.
  - unfold kret. f_equal. rewrite slice_rd_bytes, Z.add_comm, <- slice_shift. apply slice_ext. intros pos Hpos.
    rewrite <- Hf by nlia. unfold file_byte.
    replace ((pos + k * BLOCK_SIZE) / BLOCK_SIZE) with k by nlia. rewrite decide_False by done. f_equal. nlia.
  - apply (target_cell false s i l f k). unfold target. split_and!; try done. intros pos Hpos _. by apply Hf.
Qed.

(** A hole reads as zeros. *)
Lemma hole_bytes s i l f k doff size :
  holds s i l f -> 0 <= k -> file_block s i l k = NO_BLOCK -> 0 <= doff -> 0 <= size -> doff + size <= BLOCK_SIZE ->
  zeros size = slice f (k * BLOCK_SIZE + doff) (Z.to_nat size).
Proof.
  intros (_ & _ & Hf) Hk Hn Hd Hs Hds. unfold zeros. rewrite <- (slice_zeros (k * BLOCK_SIZE + doff)).
  apply slice_ext. intros pos Hpos. rewrite <- Hf by nlia. unfold file_byte.
  replace (pos / BLOCK_SIZE) with k by nlia. by rewrite decide_True.
Qed.

(** What a transfer of [data] at [lo] makes of the bytes, and what it returns. *)
Definition after (w : bool) (f : Z -> Z) (lo : Z) (data : list Z) : Z -> Z := if w then overwrite f lo data else f.
Definition result (w : bool) (f : Z -> Z) (lo size : Z) : list Z := if w then [] else slice f lo (Z.to_nat size).

(** The buffer of a write is long enough. *)
Definition buf_ok (w : bool) (buf : list Z) (size : Z) : Prop := w = true -> bytes buf /\ size <= Z.of_nat (length buf).

(** Transfers that stay inside one block. *)
Definition in_block (doff size : Z) : Prop := 0 <= doff /\ 0 <= size /\ doff + size <= BLOCK_SIZE.

(** The common end of a transfer to the block [k]: the block exists, or it was
    installed just now in the place of a hole. *)
Lemma transfer_spec (w : bool) clear s i l f k doff buf size :
  (if w then target clear s i l f k else clear = false /\ holds s i l f /\ file_block s i l k <> NO_BLOCK) ->
  buf_ok w buf size -> 0 <= k -> in_block doff size ->
  kspec (block_transfer w clear (file_block s i l k) doff buf size s)
    (fun out s' => holds s' i l (after w f (k * BLOCK_SIZE + doff) (take (Z.to_nat size) buf)) /\
      out = result w f (k * BLOCK_SIZE + doff) size)
    (fun _ => False).
Proof.
  intros Hpre Hbuf Hk (Hd & Hs & Hds). destruct w.
  - destruct Hbuf as [Hb Hl]; [done|].
    destruct (transfer_write clear s i l f k doff buf size Hpre Hb Hd ltac:(lia) Hds) as (s' & -> & Hh). done.
  - destruct Hpre as (-> & Hh & Hne). rewrite (transfer_read s i l f k doff buf size) by done. done.
Qed.

Lemma holds_target s i l f k : holds s i l f -> 0 <= k -> file_block s i l k <> NO_BLOCK -> target false s i l f k.
Proof. intros (He & Hr & Hf) Hk Hne. unfold target. split_and!; try done. intros pos Hpos _. by apply Hf. Qed.

(** The bytes of the block [k] are zero. *)
Definition hole (f : Z -> Z) (k : Z) : Prop := forall pos, pos / BLOCK_SIZE = k -> f pos = 0.

Lemma holds_hole s i l f k : holds s i l f -> 0 <= k -> file_block s i l k = NO_BLOCK -> hole f k.
Proof.
  intros (He & Hr & Hf) Hk Hn pos Hpos. rewrite <- Hf by nlia. unfold file_byte.
  by rewrite Hpos, Hn, decide_True.
Qed.

(** Allocation keeps the file. *)
Lemma alloc_holds s i l f :
  holds s i l f ->
  kspec (alloc_block s)
    (fun b s' => holds s' i l f /\ usable s0 own0 s' i l b /\ b <> NO_BLOCK /\
      forall k, file_block s' i l k = file_block s i l k)
    (fun s' => holds s' i l f /\ no_room s').
Proof.
  intros (He & Hr & Hf). eapply kspec_mono; [apply alloc_block_spec, He| |].
  - intros b s' Hp. destruct (frep_alloc s0 n own0 meta0 s i l b s' He Hr Hp) as (He' & Hr' & Hu & Hb & Hfb & Hby).
    split_and!; [|done|done|done]. split_and!; [done|done|]. intros pos Hpos. rewrite Hby by done. by apply Hf.
  - intros s' Hp. destruct (frep_alloc_fail s0 n own0 meta0 s i l s' He Hr Hp) as (He' & Hr' & Hby).
    split; [|apply Hp]. split_and!; [done|done|]. intros pos Hpos. rewrite Hby. by apply Hf.
Qed.

Lemma the_inode_run {B} (g : minode -> K fs B) s i l :
  frep s0 n own0 meta0 s i l -> (i <- the_inode n ;; g i) s = g i s.
Proof. intros Hr. unfold kbind, the_inode. by rewrite (fr_inode _ _ _ _ _ _ _ Hr). Qed.

Lemma assert_run {B} b (k : K fs B) s : b = true -> (kernel_assert b ;;; k) s = k s.
Proof. by intros ->. Qed.

Lemma direct_rw_spec w s i l f k doff buf size :
  holds s i l f -> 0 <= k < NUM_DIRECT_DATA -> buf_ok w buf size -> in_block doff size ->
  kspec (direct_data_block_rw w n k doff buf size s)
    (fun out s' => exists i', holds s' i' l (after w f (k * BLOCK_SIZE + doff) (take (Z.to_nat size) buf)) /\
      out = result w f (k * BLOCK_SIZE + doff) size)
    (fun s' => (exists i', holds s' i' l f) /\ no_room s' /\ hole f k).
Proof.
  intros Hh Hk Hbuf Hin. pose proof Hin as (Hd & Hs & Hds). pose proof Hh as (He & Hr & Hf).
  unfold direct_data_block_rw. rewrite !assert_run by (rewrite ?u32_small by nlia; nlia).
  rewrite (the_inode_run _ _ _ _ Hr).
  assert (nthZ (addrs i) k = file_block s i l k) as -> by (unfold file_block; by rewrite decide_True by lia).
  destruct (Z.eqb_spec (file_block s i l k) NO_BLOCK) as [Hn|Hn].
  - destruct w; [|exists i; split; [done|apply (hole_bytes s i l f); done || lia]].
    eapply kspec_seq; [by apply alloc_holds|intros s' [Hp Hn']; split_and!; [by exists i|done|]|].
    { apply (holds_hole s i l f k); [done|lia|done]. }
    intros b s1 ((He1 & Hr1 & Hf1) & Hu & Hb & Hfb). unfold upd_inode, kbind at 1, kmodify.
    destruct (frep_set_addr s0 n own0 meta0 s1 i l k b He1 Hr1 Hu Hb Hk ltac:(by rewrite Hfb)) as (He2 & Hr2 & Hkb & Hf2).
    set (s2 := FS _ _ _ _) in *. set (i2 := set_addr k b i) in *.
    assert (block_transfer true true b doff buf size =
      block_transfer true true (file_block s2 i2 l k) doff buf size) as -> by (by rewrite Hkb).
    eapply kspec_mono; [apply (transfer_spec true true s2 i2 l f k); try done; try lia| |done].
    + split_and!; try done; try lia.
      * intros pos Hpos [|Hne]; [done|]. rewrite Hf2 by done. by apply Hf1.
      * intros _. apply (holds_hole s i l f k); [done|lia|done].
    + intros out s' [Hh' ->]. by eexists.
  - eapply kspec_mono; [apply (transfer_spec w false s i l f k); try done; try lia| |done].
    + destruct w; [apply holds_target; [done|lia|done]|done].
    + intros out s' [Hh' ->]. by eexists.
Qed.

Lemma data_rw_spec_block w s i l f j a q doff buf size :
  holds s i l f -> l !! j = Some a -> 0 <= q < NUM_ADDRS -> buf_ok w buf size -> in_block doff size ->
  let k := NUM_DIRECT_DATA + Z.of_nat j * NUM_ADDRS + q in
  kspec (data_block_rw w a q doff buf size s)
    (fun out s' => holds s' i l (after w f (k * BLOCK_SIZE + doff) (take (Z.to_nat size) buf)) /\
      out = result w f (k * BLOCK_SIZE + doff) size)
    (fun s' => holds s' i l f /\ no_room s' /\ hole f k).
Proof.
  intros Hh Hj Hq Hbuf Hin k. pose proof Hin as (Hd & Hs & Hds). pose proof Hh as (He & Hr & Hf).
  assert (forall s', frep s0 n own0 meta0 s' i l -> fenv s0 n own0 s' -> is_Some (cells s' !! a)) as Hcell.
  { intros s' Hr' He'. destruct (fr_own _ _ _ _ _ _ _ Hr' a) as (Ha & _);
      [left; by eapply list_elem_of_lookup_2|].
    apply (bo_cells _ (fe_ok _ _ _ _ He')). pose proof (bo_start _ (fe_ok _ _ _ _ He')). nlia. }
  assert (forall s', entry (contents s' a) q = file_block s' i l k) as Hfile.
  { intros s'. unfold file_block. rewrite decide_False by (subst k; nlia).
    replace (Z.to_nat _) with j by (subst k; nlia). rewrite Hj. f_equal. subst k. nlia. }
  assert (0 <= k) as Hk by (subst k; nlia).
  unfold data_block_rw. rewrite !assert_run by (rewrite ?u32_small by nlia; nlia).
  rewrite bget_run by by apply Hcell. rewrite Hfile.
  destruct (Z.eqb_spec (file_block s i l k) NO_BLOCK) as [Hn|Hn].
  - destruct w; [|split; [done|apply (hole_bytes s i l f); done || lia]].
    eapply kspec_seq; [by apply alloc_holds|intros s' [Hp Hn']; split_and!; [done|done|by apply (holds_hole s i l f k)]|].
    intros b s1 ((He1 & Hr1 & Hf1) & Hu & Hb & Hfb). rewrite bget_run, put_run by by apply Hcell.
    destruct (frep_set_entry s0 n own0 meta0 s1 i l j a q b He1 Hr1 Hu Hb Hj Hq ltac:(by rewrite Hfb))
      as (He2 & Hr2 & Hkb & Hf2). fold k in Hkb, Hf2. set (s2 := put _ _ _) in *.
    assert (block_transfer true true b doff buf size =
      block_transfer true true (file_block s2 i l k) doff buf size) as -> by (by rewrite Hkb).
    eapply kspec_mono; [apply (transfer_spec true true s2 i l f k); try done| |done].
    + split_and!; try done.
      * by rewrite Hkb.
      * intros pos Hpos [|Hne]; [done|]. rewrite Hf2 by done. by apply Hf1.
      * intros _. apply (holds_hole s i l f k); [done|lia|done].
    + done.
  - eapply kspec_mono; [apply (transfer_spec w false s i l f k); try done| |done].
    + destruct w; [by apply holds_target|done].
    + done.
Qed.

(** ** The list of address blocks *)

(** There are only holes behind the last address block. *)
Lemma hole_behind s i l f k :
  holds s i l f -> NUM_DIRECT_DATA + Z.of_nat (length l) * NUM_ADDRS <= k -> hole f k.
Proof.
  intros Hh Hk. apply (holds_hole s i l f k Hh); [nlia|]. unfold file_block. rewrite decide_False by nlia.
  by rewrite lookup_ge_None_2 by nlia.
Qed.

Lemma addr_block_cell s i l f j a : holds s i l f -> l !! j = Some a -> is_Some (cells s !! a).
Proof.
  intros (He & Hr & _) Hj. pose proof (fe_ok _ _ _ _ He) as Hok.
  destruct (fr_own _ _ _ _ _ _ _ Hr a) as (Ha & _); [left; by eapply list_elem_of_lookup_2|].
  apply (bo_cells _ Hok). pose proof (bo_start _ Hok). nlia.
Qed.

Lemma walk_spec fuel s i l f j a offset :
  holds s i l f -> l !! j = Some a -> 0 <= offset -> offset / ADDR_BLOCK_DATA_SIZE <= Z.of_nat fuel ->
  exists j' a' o', walk_addr_blocks fuel a offset s = Ret (a', o') s /\ l !! j' = Some a' /\ 0 <= o' /\
    Z.of_nat j' * ADDR_BLOCK_DATA_SIZE + o' = Z.of_nat j * ADDR_BLOCK_DATA_SIZE + offset /\
    (o' < ADDR_BLOCK_DATA_SIZE \/ length l = S j').
Proof.
  intros Hh. revert j a offset. induction fuel as [|fuel IH]; intros j a offset Hj Ho Hf; cbn [walk_addr_blocks];
    destruct (Z.ltb_spec offset ADDR_BLOCK_DATA_SIZE); try (exists j, a, offset; split_and!; auto; done); [nlia|].
  rewrite bget_run by by eapply addr_block_cell. pose proof Hh as (_ & Hr & _).
  destruct (chain_lookup _ _ _ _ _ (fr_chain _ _ _ _ _ _ _ Hr) Hj) as [Ha Hnx]. rewrite Hnx.
  destruct (l !! S j) as [b|] eqn:Eb; cbn [from_option id].
  - destruct (chain_lookup _ _ _ _ _ (fr_chain _ _ _ _ _ _ _ Hr) Eb) as [Hb _].
    rewrite (proj2 (Z.eqb_neq _ _) Hb).
    destruct (IH (S j) b (offset - ADDR_BLOCK_DATA_SIZE) Eb) as (j' & a' & o' & Hrun & Hj' & Ho' & Hsum & Hend);
      [lia|nlia|]. exists j', a', o'. split_and!; [done|done|done|lia|done].
  - exists j, a, offset. split_and!; [done|done|done|done|right].
    apply lookup_ge_None_1 in Eb. apply lookup_lt_Some in Hj. lia.
Qed.

(** The state after one round of the second loop. *)
Lemma create_one s i l f a :
  holds s i (l ++ [a]) f ->
  kspec ((b <- alloc_block ;; clear_addr_block b ;;; m <- bget a ;; bset a (set_next_of m b) ;;; bmark_dirty a ;;; kret b) s)
    (fun b s' => holds s' i ((l ++ [a]) ++ [b]) f)
    (fun s' => holds s' i (l ++ [a]) f /\ no_room s').
Proof.
  intros Hh. eapply kspec_bind; [by apply alloc_holds|]. intros b s1 (Hh1 & Hu & Hb & _).
  pose proof Hh1 as (He1 & Hr1 & Hf1). pose proof Hu as (Hbr & _).
  assert (is_Some (cells s1 !! b)) as Hcb.
  { apply (bo_cells _ (fe_ok _ _ _ _ He1)). pose proof (bo_start _ (fe_ok _ _ _ _ He1)). nlia. }
  unfold clear_addr_block. unfold kbind at 1. rewrite bget_run, put_run_last by done.
  fold (cleared (contents s1 b)). set (m := cleared _).
  destruct (frep_put_free s0 n own0 meta0 s1 i (l ++ [a]) b m He1 Hr1 Hu) as (He2 & Hr2 & Hu2 & Hm & Hfb2 & Hf2).
  assert (holds (put s1 b m) i (l ++ [a]) f) as Hh2.
  { split_and!; [done|done|]. intros pos Hpos. rewrite Hf2 by done. by apply Hf1. }
  rewrite bget_run, put_run by (eapply addr_block_cell; [done|by apply list_lookup_middle]).
  destruct (frep_link s0 n own0 meta0 (put s1 b m) i l a b He2 Hr2 Hu2) as (He3 & Hr3 & Hf3).
  - intros q Hq. rewrite Hm. by apply entry_cleared.
  - rewrite Hm. apply next_cleared.
  - cbn [kret kspec]. split_and!; [done|done|]. intros pos Hpos. rewrite Hf3, Hf2 by done. by apply Hf1.
Qed.

Lemma create_spec fuel s i l f j a offset :
  holds s i l f -> l !! j = Some a -> 0 <= offset -> offset / ADDR_BLOCK_DATA_SIZE <= Z.of_nat fuel ->
  offset < ADDR_BLOCK_DATA_SIZE \/ length l = S j ->
  kspec (create_addr_blocks fuel a offset s)
    (fun r s' => exists l' j', l `prefix_of` l' /\ holds s' i l' f /\ l' !! j' = Some (fst r) /\
       0 <= snd r < ADDR_BLOCK_DATA_SIZE /\
       Z.of_nat j' * ADDR_BLOCK_DATA_SIZE + snd r = Z.of_nat j * ADDR_BLOCK_DATA_SIZE + offset)
    (fun s' => (exists l', holds s' i l' f) /\ no_room s' /\
       hole f (NUM_DIRECT_DATA + Z.of_nat j * NUM_ADDRS + offset / BLOCK_SIZE)).
Proof.
  revert s l j a offset. induction fuel as [|fuel IH]; intros s l j a offset Hh Hj Ho Hf Hend;
    cbn [create_addr_blocks]; destruct (Z.ltb_spec offset ADDR_BLOCK_DATA_SIZE); try nlia.
  1, 2: exists l, j; split_and!; done || lia.
  destruct Hend as [|Hlen]; [lia|].
  assert (exists l0, l = l0 ++ [a]) as [l0 ->].
  { destruct (exists_last (l := l)) as (l0 & x & ->); [by intros ->|]. exists l0. do 2 f_equal.
    rewrite length_app in Hlen. cbn in Hlen. rewrite lookup_app_r in Hj by lia.
    replace (j - length l0)%nat with 0%nat in Hj by lia. by injection Hj. }
  pose proof (create_one s i l0 f a Hh) as Hone.
  match goal with |- kspec ?x _ _ => replace x with
    ((b <- (b <- alloc_block ;; clear_addr_block b ;;; m <- bget a ;; bset a (set_next_of m b) ;;; bmark_dirty a ;;; kret b) ;;
      create_addr_blocks fuel b (offset - ADDR_BLOCK_DATA_SIZE)) s) end.
  2:{ unfold kbind. destruct (alloc_block s) as [b s1| | |]; try done.
      destruct (clear_addr_block b s1) as [? s2| | |]; try done. destruct (bget a s2) as [? s3| | |]; try done. }
  eapply kspec_seq; [exact Hone|intros s' [Hh' Hn]; split_and!; [by eexists|done|]|].
  { apply (hole_behind s i _ f _ Hh). rewrite Hlen. nlia. }
  intros b s1 Hh1. cbn beta. rewrite length_app in Hlen. cbn in Hlen.
  eapply kspec_mono; [apply (IH s1 ((l0 ++ [a]) ++ [b]) (S j) b)| |].
  - done.
  - rewrite lookup_app_r by (rewrite length_app; cbn; lia). rewrite length_app. cbn.
    by replace (S j - (length l0 + 1))%nat with 0%nat by lia.
  - lia.
  - nlia.
  - right. rewrite !length_app. cbn. lia.
  - intros r s' (l' & j' & Hp & Hh' & Hj' & Hr & Hsum). exists l', j'. split_and!; try done; try lia.
    etransitivity; [|exact Hp]. by eexists.
  - intros s' (Hh' & Hn & Hz). split_and!; [done|done|].
    replace (_ + _ + _) with (NUM_DIRECT_DATA + Z.of_nat (S j) * NUM_ADDRS + (offset - ADDR_BLOCK_DATA_SIZE) / BLOCK_SIZE); [done|nlia].
Qed.

Lemma get_block_index_spec s i l f j a offset :
  holds s i l f -> l !! j = Some a -> 0 <= offset ->
  kspec (get_block_index a offset s)
    (fun r s' => exists l' j', l `prefix_of` l' /\ holds s' i l' f /\ l' !! j' = Some (fst (fst r)) /\
       snd (fst r) = (offset mod ADDR_BLOCK_DATA_SIZE) / BLOCK_SIZE /\ snd r = offset mod BLOCK_SIZE /\
       Z.of_nat j' = Z.of_nat j + offset / ADDR_BLOCK_DATA_SIZE)
    (fun s' => (exists l', holds s' i l' f) /\ no_room s' /\
       hole f (NUM_DIRECT_DATA + Z.of_nat j * NUM_ADDRS + offset / BLOCK_SIZE)).
Proof.
  intros Hh Hj Ho. unfold get_block_index.
  destruct (walk_spec (Z.to_nat (offset / ADDR_BLOCK_DATA_SIZE)) s i l f j a offset Hh Hj Ho) as
    (j1 & a1 & o1 & Hrun & Hj1 & Ho1 & Hsum & Hend); [nlia|].
  rewrite (kbind_ret _ _ _ _ _ Hrun). cbv beta iota.
  eapply kspec_seq; [apply (create_spec _ s i l f j1 a1 o1 Hh Hj1 Ho1); [nlia|done]| |].
  { intros s' (Hh' & Hn & Hz). split_and!; [done|done|].
    replace (_ + _ + _) with (NUM_DIRECT_DATA + Z.of_nat j1 * NUM_ADDRS + o1 / BLOCK_SIZE); [done|nlia]. }
  intros [a2 o2] s' (l' & j' & Hp & Hh' & Hj' & Ho2 & Hsum2). cbn [fst snd] in *. cbn [kret kspec].
  exists l', j'. cbn [fst snd]. split_and!; [done|done|done| | |]; rewrite ?u32_small by nlia; nlia.
Qed.

(** ** The loops *)

(** The transfer of [size0] bytes at [off0], from [buf0], on a file [f0]. *)
Context (w : bool) (f0 : Z -> Z) (buf0 : list Z) (off0 size0 : Z).
Hypothesis Hbuf0 : buf_ok w buf0 size0.
Hypothesis Hrange : 0 <= off0 /\ 0 <= size0 /\ off0 + size0 <= 2 ^ 32.

(** The bytes once [c] of them are transferred. *)
Definition f_at (c : Z) : Z -> Z := after w f0 off0 (take (Z.to_nat c) buf0).

Record at_count (c : Z) (p : progress) : Prop := {
  ac_range : 0 <= c <= size0;
  ac_buf : p_buf p = drop (Z.to_nat c) buf0;
  ac_size : p_size p = size0 - c;
  ac_rw : p_rw_size p = c;
  ac_out : p_out p = result w f0 off0 c
}.

Lemma result_app c d :
  0 <= c -> 0 <= d -> result w f0 off0 (c + d) = result w f0 off0 c ++ result w (f_at c) (off0 + c) d.
Proof.
  intros Hc Hd. unfold result, f_at, after. destruct w; [done|].
  rewrite Z2Nat.inj_add, slice_app, Z2Nat.id by lia. done.
Qed.

Lemma f_at_step c d pos :
  0 <= c -> 0 <= d -> c + d <= size0 ->
  after w (f_at c) (off0 + c) (take (Z.to_nat d) (drop (Z.to_nat c) buf0)) pos = f_at (c + d) pos.
Proof.
  intros Hc Hd Hcd. unfold f_at, after. destruct w; [|done]. destruct (Hbuf0 eq_refl) as [_ Hl].
  replace (off0 + c) with (off0 + Z.of_nat (length (take (Z.to_nat c) buf0))) by (rewrite length_take; lia).
  rewrite overwrite_app. f_equal. rewrite Z2Nat.inj_add by lia. apply take_take_drop.
Qed.

Lemma step_by_count c d p :
  at_count c p -> 0 <= d -> c + d <= size0 -> at_count (c + d) (step_by d (result w (f_at c) (off0 + c) d) p).
Proof.
  intros [H1 H2 H3 H4 H5] Hd Hcd. split; cbn [step_by p_buf p_size p_rw_size p_out].
  - lia.
  - rewrite H2, drop_drop. f_equal. lia.
  - rewrite H3. rewrite u64_small by lia. lia.
  - rewrite H4. unfold s64. rewrite Z.mod_small by lia. lia.
  - by rewrite H5, result_app by lia.
Qed.

Lemma buf_ok_rest c p d : at_count c p -> d <= p_size p -> buf_ok w (p_buf p) d.
Proof.
  intros [H1 H2 H3 H4 H5] Hd Hw. destruct (Hbuf0 Hw) as [Hb Hl]. rewrite H2. split; [by apply bytes_drop|].
  rewrite length_drop. lia.
Qed.

(** A round starts at [off0] or at the border of a block. *)
Definition at_border (c : Z) : Prop := c = 0 \/ (off0 + c) mod BLOCK_SIZE = 0 \/ c = size0.

(** A failed transfer has written a prefix, up to a border; the next block is a
    hole, and there was no block to be had. *)
Definition stopped (s : fs) : Prop :=
  exists i l c, 0 <= c < size0 /\ at_border c /\ holds s i l (f_at c) /\ no_room s /\
    hole (f_at c) ((off0 + c) / BLOCK_SIZE).

Lemma direct_loop_spec fuel s i l c p :
  holds s i l (f_at c) -> at_count c p -> at_border c -> p_offset p = off0 + c ->
  p_size p = 0 \/ DIRECT_DATA_SIZE - (off0 + c) <= Z.of_nat fuel * BLOCK_SIZE - (off0 + c) mod BLOCK_SIZE ->
  kspec (direct_loop fuel w n p s)
    (fun p' s' => exists i' c', holds s' i' l (f_at c') /\ at_count c' p' /\ at_border c' /\ p_offset p' = off0 + c' /\
       (p_size p' = 0 \/ DIRECT_DATA_SIZE <= p_offset p'))
    stopped.
Proof.
  revert s i c p. induction fuel as [|fuel IH]; intros s i c p Hh Hac Hbd Hpo Hf; cbn [direct_loop];
    pose proof (ac_range _ _ Hac) as Hcr; pose proof (ac_size _ _ Hac) as Hsz;
    destruct (Z.ltb_spec (p_offset p) DIRECT_DATA_SIZE), (Z.ltb_spec 0 (p_size p)); cbn [andb];
    try (exists i, c; split_and!; try done; nlia); try nlia.
  rewrite Hpo in *. rewrite !(u32_small (_ / _)), !(u32_small (_ mod _)) by nlia.
  set (doff := (off0 + c) mod BLOCK_SIZE). set (k := (off0 + c) / BLOCK_SIZE).
  rewrite u32_small by (subst doff; nlia). set (d := Z.min (p_size p) (BLOCK_SIZE - doff)).
  assert (k * BLOCK_SIZE + doff = off0 + c) as Hpos by (subst k doff; nlia).
  assert (0 <= d /\ c + d <= size0) as [Hd Hcd] by (subst d doff; nlia).
  eapply kspec_seq.
  - apply (direct_rw_spec w s i l (f_at c) k doff (p_buf p) d Hh).
    + subst k. nlia.
    + apply (buf_ok_rest c); [done|]. subst d. lia.
    + subst doff d. unfold in_block. nlia.
  - intros s' ([i' Hh'] & Hn & Hz). exists i', l, c. split_and!; [lia|lia|done|done|done|done].
  - rewrite Hpos. intros out s' (i' & Hh' & ->).
    apply (IH s' i' (c + d)).
    + eapply holds_ext; [|exact Hh']. intros pos _. rewrite (ac_buf _ _ Hac). apply f_at_step; lia.
    + by apply step_by_count.
    + subst d doff. unfold at_border. nlia.
    + cbn [step_by p_offset]. rewrite Hpo, u64_small by lia. lia.
    + cbn [step_by p_size]. rewrite u64_small by (subst d doff; nlia).
      destruct (decide (d = p_size p)); [left; lia|right]. subst d doff. nlia.
Qed.

(** [j] is the number of the current address block. *)
Lemma indirect_loop_spec fuel s i l c p j a :
  holds s i l (f_at c) -> at_count c p -> at_border c -> l !! j = Some a -> 0 <= p_offset p ->
  off0 + c = DIRECT_DATA_SIZE + Z.of_nat j * ADDR_BLOCK_DATA_SIZE + p_offset p ->
  (p_size p = 0 -> p_offset p <= ADDR_BLOCK_DATA_SIZE) ->
  p_size p <= Z.of_nat fuel ->
  kspec (indirect_loop fuel w a p s)
    (fun r s' => exists i' l' j', holds s' i' l' (f_at size0) /\ at_count size0 (snd r) /\ l' !! j' = Some (fst r) /\
       0 <= p_offset (snd r) <= ADDR_BLOCK_DATA_SIZE /\
       off0 + size0 = DIRECT_DATA_SIZE + Z.of_nat j' * ADDR_BLOCK_DATA_SIZE + p_offset (snd r))
    stopped.
Proof.
  revert s l c p j a. induction fuel as [|fuel IH]; intros s l c p j a Hh Hac Hbd Hj Ho Hpos Hend Hf; cbn [indirect_loop];
    pose proof (ac_range _ _ Hac) as Hcr; pose proof (ac_size _ _ Hac) as Hsz;
    destruct (Z.ltb_spec 0 (p_size p)); try lia.
  1, 3: assert (c = size0) as -> by lia; exists i, l, j; cbn [fst snd]; split_and!; try done; lia.
  eapply kspec_seq; [by apply (get_block_index_spec s i l (f_at c) j a (p_offset p))| |].
  { intros s' ([l' Hh'] & Hn & Hz). exists i, l', c. split_and!; [lia|lia|done|done|done|].
    replace ((off0 + c) / BLOCK_SIZE) with (NUM_DIRECT_DATA + Z.of_nat j * NUM_ADDRS + p_offset p / BLOCK_SIZE); [done|nlia]. }
  intros [[a' q] doff] s' (l' & j' & Hp & Hh' & Hj' & Hq & Hdo & Hjj). cbn [fst snd] in *. cbn zeta. cbn [p_size p_buf].
  rewrite u32_small by nlia. set (d := Z.min (p_size p) (BLOCK_SIZE - doff)).
  set (p1 := Progress _ _ _ _ _). assert (at_count c p1) as Hac1 by by destruct Hac.
  assert (0 < d /\ c + d <= size0) as [Hd Hcd] by (subst d; nlia).
  set (k := NUM_DIRECT_DATA + Z.of_nat j' * NUM_ADDRS + q).
  assert (k * BLOCK_SIZE + doff = off0 + c) as Hk by (subst k; nlia).
  eapply kspec_seq; [apply (data_rw_spec_block w s' i l' (f_at c) j' a' q doff (p_buf p) d Hh' Hj')| |].
  - nlia.
  - apply (buf_ok_rest c); [done|]. subst d. lia.
  - subst d. unfold in_block. nlia.
  - intros s2 (Hh2 & Hn & Hz). exists i, l', c. split_and!; [lia|lia|done|done|done|].
    fold k in Hz. replace ((off0 + c) / BLOCK_SIZE) with k; [done|nlia].
  - fold k. rewrite Hk. intros out s2 (Hh2 & ->). apply (IH s2 l' (c + d) _ j').
    + eapply holds_ext; [|exact Hh2]. intros pos _. rewrite (ac_buf _ _ Hac). apply f_at_step; lia.
    + apply step_by_count; [done|lia|lia].
    + subst d. unfold at_border. nlia.
    + done.
    + cbn [step_by p_offset p1]. rewrite u64_small by (subst d; nlia). subst d; nlia.
    + cbn [step_by p_offset p1]. rewrite u64_small by (subst d; nlia). nlia.
    + intros _. cbn [step_by p_offset p1]. rewrite u64_small by (subst d; nlia). subst d; nlia.
    + cbn [step_by p_size p1]. rewrite u64_small by lia. lia.
Qed.

(** The first address block exists after this step of [data_rw]. *)
Lemma first_block_spec s i l f :
  holds s i l f -> next_addr_block i = NO_BLOCK ->
  kspec ((b <- alloc_block ;; upd_inode n (set_next_addr b) ;;; clear_addr_block b) s)
    (fun _ s' => exists i' b, holds s' i' [b] f /\ next_addr_block i' = b)
    (fun s' => holds s' i l f /\ no_room s').
Proof.
  intros Hh Hnone. assert (l = []) as ->.
  { destruct Hh as (_ & Hr & _). pose proof (fr_chain _ _ _ _ _ _ _ Hr) as Hc. rewrite Hnone in Hc.
    destruct l as [|x l]; [done|]. by destruct Hc as (<- & ? & _). }
  eapply kspec_bind; [by apply alloc_holds|]. intros b s1 (Hh1 & Hu & Hb & _).
  pose proof Hh1 as (He1 & Hr1 & Hf1). pose proof Hu as (Hbr & _).
  assert (is_Some (cells s1 !! b)) as Hcb.
  { apply (bo_cells _ (fe_ok _ _ _ _ He1)). pose proof (bo_start _ (fe_ok _ _ _ _ He1)). nlia. }
  unfold upd_inode, kbind at 1, kmodify, clear_addr_block. rewrite bget_run, put_run_last by done.
  unfold contents. cbn [cells]. fold (contents s1 b) (cleared (contents s1 b)). set (m := cleared _).
  destruct (frep_put_free s0 n own0 meta0 s1 i [] b m He1 Hr1 Hu) as (He2 & Hr2 & Hu2 & Hm & _ & Hf2).
  destruct (frep_first s0 n own0 meta0 (put s1 b m) i b He2 Hr2 Hu2) as (He3 & Hr3 & Hf3).
  - intros q Hq. rewrite Hm. by apply entry_cleared.
  - rewrite Hm. apply next_cleared.
  - cbn [kspec]. exists (set_next_addr b i), b. split; [|done]. split_and!; [exact He3|exact Hr3|].
    intros pos Hpos. etransitivity; [apply (Hf3 pos)|]. rewrite Hf2 by done. by apply Hf1.
Qed.

(** Behind the direct blocks there are only zeros when there is no address
    block. *)
Lemma no_addr_blocks s i l f pos :
  holds s i l f -> next_addr_block i = NO_BLOCK -> DIRECT_DATA_SIZE <= pos -> f pos = 0.
Proof.
  intros Hh Hn Hpos. pose proof Hh as (_ & Hr & _). pose proof (fr_chain _ _ _ _ _ _ _ Hr) as Hc. rewrite Hn in Hc.
  destruct l as [|x l]; [|by destruct Hc as (<- & ? & _)].
  apply (hole_behind s i [] f (pos / BLOCK_SIZE) Hh); [cbn [length]; nlia|done].
Qed.

Lemma indirect_part_spec s i l c p a :
  holds s i l (f_at c) -> at_count c p -> at_border c -> p_offset p = off0 + c -> DIRECT_DATA_SIZE <= off0 + c -> 0 < p_size p ->
  next_addr_block i = a -> l !! 0%nat = Some a ->
  kspec (indirect_part w n p s)
    (fun r s' => r = (size0, result w f0 off0 size0) /\ exists i' l', holds s' i' l' (f_at size0))
    stopped.
Proof.
  intros Hh Hac Hbd Hpo Hdir Hsz Ha Hl. pose proof Hh as (_ & Hr & _). pose proof (ac_range _ _ Hac) as Hcr.
  pose proof (ac_size _ _ Hac) as Hps. unfold indirect_part. rewrite (the_inode_run _ _ _ _ Hr), Hpo.
  rewrite !u64_small by nlia. set (raw := off0 + c - DIRECT_DATA_SIZE).
  assert (exists j o a', (if cache_raw_indirect_offset i =? raw then (cache_addr_block i, cache_offset i)
      else (next_addr_block i, raw)) = (a', o) /\ l !! j = Some a' /\ 0 <= o /\
      raw = Z.of_nat j * ADDR_BLOCK_DATA_SIZE + o) as (j & o & a' & -> & Hj & Ho & Hraw).
  { destruct (Z.eqb_spec (cache_raw_indirect_offset i) raw) as [Hhit|].
    - destruct (fr_cache _ _ _ _ _ _ _ Hr) as [Hno|(j & Hj & Hc & Ho)].
      + exfalso. change NO_BLOCK with (2 ^ 32 - 1) in Hno. subst raw. nlia.
      + exists j, (cache_offset i), (cache_addr_block i). split_and!; [done|done|lia|lia].
    - exists 0%nat, raw, (next_addr_block i). split_and!; [done|congruence|subst raw; lia|lia]. }
  eapply kspec_bind; [eapply (indirect_loop_spec _ s i l c _ j a' Hh)|].
  - by destruct Hac.
  - done.
  - done.
  - done.
  - cbn [p_offset]. subst raw. lia.
  - cbn [p_size]. lia.
  - cbn [p_size]. lia.
  - intros [a2 p2] s2 (i2 & l2 & j2 & Hh2 & Hac2 & Hj2 & Ho2 & Hend). cbn [fst snd] in *.
    pose proof Hh2 as (He2 & Hr2 & Hf2). unfold upd_inode, kbind, kmodify, kret. cbn [kspec].
    rewrite (ac_rw _ _ Hac2), (ac_out _ _ Hac2). split; [done|].
    rewrite !u32_small by (subst raw; nlia).
    destruct (frep_set_position s0 n own0 meta0 s2 i2 l2 (raw + p_size p) (p_offset p2) a2 He2 Hr2) as (He3 & Hr3 & Hf3).
    { right. exists j2. cbn [set_position cache_addr_block cache_raw_indirect_offset cache_offset].
      split_and!; [done|subst raw; lia|lia|lia]. }
    exists (set_position (raw + p_size p) (p_offset p2) a2 i2), l2. split_and!; [exact He3|exact Hr3|].
    intros pos Hpos. etransitivity; [apply Hf3|]. by apply Hf2.
Qed.

Lemma data_rw_spec s i l :
  holds s i l f0 ->
  kspec (data_rw w n buf0 off0 size0 s)
    (fun r s' => r = (size0, result w f0 off0 size0) /\ exists i' l', holds s' i' l' (f_at size0))
    stopped.
Proof.
  intros Hh. unfold data_rw. eapply kspec_bind; [eapply (direct_loop_spec _ s i l 0)|].
  - eapply holds_ext; [|exact Hh]. intros pos _. unfold f_at, after, overwrite. destruct w; [|done].
    change (take (Z.to_nat 0) buf0) with (@nil Z). cbn [length]. by rewrite decide_False by lia.
  - split; cbn; try lia; try done. unfold result. by destruct w.
  - by left.
  - cbn. lia.
  - right. nlia.
  - intros p s1 (i1 & c & Hh1 & Hac & Hbd & Hpo & Hend). pose proof (ac_range _ _ Hac) as Hcr.
    pose proof (ac_size _ _ Hac) as Hps. destruct (Z.eqb_spec (p_size p) 0) as [Hz|Hz].
    { assert (c = size0) as -> by lia. cbn [kret kspec]. rewrite (ac_rw _ _ Hac), (ac_out _ _ Hac). eauto. }
    destruct Hend as [|Hend]; [lia|]. pose proof Hh1 as (_ & Hr1 & _). rewrite (the_inode_run _ _ _ _ Hr1).
    destruct (Z.eqb_spec (next_addr_block i1) NO_BLOCK) as [Hn|Hn].
    + destruct (Bool.bool_dec w true) as [Hw|Hw%not_true_is_false].
      * match goal with |- kspec ((if w then ?X else ?Y) s1) _ _ => replace (if w then X else Y) with X by (by rewrite Hw) end.
        eapply kspec_seq; [by apply (first_block_spec s1 i1 l (f_at c))| |].
        { intros s' [Hh' Hn']. exists i1, l, c. split_and!; [lia|lia|done|done|done|].
          intros pos Hpos. apply (no_addr_blocks s1 i1 l); [done|done|nlia]. }
        intros _ s2 (i2 & b & Hh2 & Hb). eapply (indirect_part_spec s2 i2 [b] c p b); try done; lia.
      * match goal with |- kspec ((if w then ?X else ?Y) s1) _ _ => replace (if w then X else Y) with Y by (by rewrite Hw) end.
        cbn [kret kspec]. rewrite (ac_rw _ _ Hac), (ac_out _ _ Hac), Hps. split.
        -- f_equal; [unfold s64; rewrite Z.mod_small by lia; lia|].
           replace size0 with (c + (size0 - c)) at 2 by lia. rewrite result_app by lia. f_equal.
           unfold result at 1. rewrite Hw. unfold zeros. rewrite <- (slice_zeros (off0 + c)). apply slice_ext.
           intros pos Hpos. symmetry. apply (no_addr_blocks s1 i1 l); [done|done|lia].
        -- exists i1, l. eapply holds_ext; [|exact Hh1]. intros pos _. unfold f_at, after. by rewrite Hw.
    + destruct l as [|x l]; [by destruct (Hn (fr_chain _ _ _ _ _ _ _ Hr1))|].
      eapply (indirect_part_spec s1 i1 (x :: l) c p x); try done; try lia.
      by destruct (fr_chain _ _ _ _ _ _ _ Hr1) as (? & _).
Qed.

End data.
