(* ===== verification/NfsFile.v ===== *)
(** * Files as arrays of bytes (src/os/fs/nfs/inode.cc)

    The theorems about [data_rw] for any inode that satisfies the invariant:
    it refines an array of bytes, it does so for every offset of a 32-bit
    file, holes included, and files that share no block do not affect each
    other. *)
From S2P Require Import Prelude Memory Bitmap NfsBlock NfsInode NfsRep NfsData.

(** The invariant of one inode in memory and of the blocks it uses. *)
Record file_ok (s : fs) (n : Z) (i : minode) (l : list Z) : Prop := {
  fo_blocks : blocks_ok s;
  fo_inode : inodes s !! n = Some i;
  fo_len : length (addrs i) = Z.to_nat NUM_DIRECT_DATA;
  fo_chain : chain s (next_addr_block i) l;
  fo_nodup : NoDup l;
  fo_own : forall b, owned s i l b ->
    generic_block_start (sb s) <= b < total_blocks (sb s) /\ allocated s b = true;
  fo_inj : forall k k', 0 <= k -> 0 <= k' -> file_block s i l k = file_block s i l k' ->
    file_block s i l k <> NO_BLOCK -> k = k';
  fo_data : forall k, 0 <= k -> file_block s i l k <> NO_BLOCK -> file_block s i l k ∉ l;
  fo_cache : cache_ok i l
}.

(** What stays as it was when the file [n], made of [i] and [l], changes. *)
Record others_same (s : fs) (n : Z) (i : minode) (l : list Z) (s' : fs) : Prop := {
  os_blocks : forall b, generic_block_start (sb s) <= b < total_blocks (sb s) -> allocated s b = true ->
    ~ owned s i l b -> cells s' !! b = cells s !! b;
  os_alloc : forall b, 0 <= b < total_blocks (sb s) -> allocated s b = true -> allocated s' b = true;
  os_inodes : forall j, j <> n -> inodes s' !! j = inodes s !! j;
  os_layout : same_layout s s'
}.

Lemma file_ok_holds s n i l :
  file_ok s n i l -> holds s n (owned s i l) (meta i) s i l (file_byte s i l).
Proof.
  intros [H1 H2 H3 H4 H5 H6 H7 H8 H9]. split_and!; [| |done].
  - split; done.
  - split; try done. intros b Hb. destruct (H6 b Hb). split_and!; [lia|lia|done|by left].
Qed.

Lemma holds_file_ok s0 n own0 meta0 s i l f : holds s0 n own0 meta0 s i l f -> file_ok s n i l.
Proof.
  intros ([E1 _ _ _ _] & [H1 H2 H3 H4 H5 H6 H7 H8 H9] & _). split; try done.
  intros b Hb. by destruct (H5 b Hb) as (? & ? & _).
Qed.

Lemma holds_others s n i l s' i' l' f :
  holds s n (owned s i l) (meta i) s' i' l' f -> others_same s n i l s' /\ meta i' = meta i.
Proof.
  intros ([E1 E2 E3 E4 E5] & Hr & _). split; [|apply Hr]. split; try done.
  intros b Hb Hal Hno. apply E3; [lia|]. intros [|]; congruence.
Qed.

(** The blocks a file has are blocks it had or blocks that were free. *)
Definition own_grows (s : fs) (i : minode) (l : list Z) (s' : fs) (i' : minode) (l' : list Z) : Prop :=
  forall b, owned s' i' l' b -> owned s i l b \/ allocated s b = false.

(** The file [n] of [s'] is the file of [s] with the bytes [f], and nothing
    else has changed. *)
Definition file_becomes (s : fs) (n : Z) (i : minode) (l : list Z) (s' : fs) (f : Z -> Z) : Prop :=
  exists i' l', file_ok s' n i' l' /\ (forall pos, 0 <= pos -> file_byte s' i' l' pos = f pos) /\
    meta i' = meta i /\ own_grows s i l s' i' l' /\ others_same s n i l s'.

(** Where a transfer of [len] bytes at [off] can stop: at its start or at the border
    of a block, in front of a block of zeros. *)
Definition stops (off : Z) (len : nat) (f : Z -> Z) (c : nat) : Prop :=
  (c < len)%nat /\ (c = 0%nat \/ (off + Z.of_nat c) mod BLOCK_SIZE = 0) /\ hole f ((off + Z.of_nat c) / BLOCK_SIZE).

Lemma border_stops off size f (c : Z) :
  0 <= c < size -> at_border off size c -> hole f ((off + c) / BLOCK_SIZE) -> stops off (Z.to_nat size) f (Z.to_nat c).
Proof. intros Hc Hb Hh. unfold stops. rewrite Z2Nat.id by lia. split_and!; [lia| |done]. destruct Hb as [|[|]]; [left; lia|by right|lia]. Qed.

Lemma holds_becomes s n i l s' i' l' f :
  holds s n (owned s i l) (meta i) s' i' l' f -> file_becomes s n i l s' f.
Proof.
  intros Hh. destruct (holds_others _ _ _ _ _ _ _ _ Hh) as [Ho Hm]. exists i', l'.
  split_and!; [by eapply holds_file_ok|apply Hh|done| |done].
  intros b Hb. destruct Hh as (_ & Hr & _). apply (fr_own _ _ _ _ _ _ _ Hr b Hb).
Qed.

Lemma file_read_spec s n i l off size :
  file_ok s n i l -> 0 <= off -> 0 <= size -> off + size <= 2 ^ 32 ->
  kspec (data_rw false n [] off size s)
    (fun r s' => r = (size, slice (file_byte s i l) off (Z.to_nat size)) /\ file_becomes s n i l s' (file_byte s i l))
    (fun s' => file_becomes s n i l s' (file_byte s i l) /\ no_room s' /\
       exists c, stops off (Z.to_nat size) (file_byte s i l) c).
Proof.
  intros Hok Ho Hs Hos. eapply kspec_mono.
  - eapply (data_rw_spec s n (owned s i l) (meta i) false (file_byte s i l) [] off size); [done|lia|].
    by apply file_ok_holds.
  - intros r s' (-> & i' & l' & Hh). split; [done|]. by eapply holds_becomes.
  - intros s' (i' & l' & c & Hc & Hb & Hh & Hn & Hz). split_and!; [by eapply holds_becomes|done|].
    exists (Z.to_nat c). by apply border_stops.
Qed.

Lemma file_write_spec s n i l off buf :
  file_ok s n i l -> bytes buf -> 0 <= off -> off + Z.of_nat (length buf) <= 2 ^ 32 ->
  kspec (data_rw true n buf off (Z.of_nat (length buf)) s)
    (fun r s' => r = (Z.of_nat (length buf), []) /\ file_becomes s n i l s' (overwrite (file_byte s i l) off buf))
    (fun s' => (exists c, let f := overwrite (file_byte s i l) off (take c buf) in
       file_becomes s n i l s' f /\ stops off (length buf) f c) /\ no_room s').
Proof.
  intros Hok Hb Ho Hos. eapply kspec_mono.
  - eapply (data_rw_spec s n (owned s i l) (meta i) true (file_byte s i l) buf off (Z.of_nat (length buf)));
      [by split|lia|]. by apply file_ok_holds.
  - intros r s' (-> & i' & l' & Hh). split; [done|]. apply (holds_becomes _ _ _ _ _ i' l').
    eapply holds_ext; [|exact Hh]. intros pos _. unfold f_at, after. by rewrite take_ge by lia.
  - intros s' (i' & l' & c & Hc & Hbd & Hh & Hn & Hz). split; [|done]. exists (Z.to_nat c).
    split; [by eapply holds_becomes|]. rewrite <- (Nat2Z.id (length buf)). by apply border_stops.
Qed.



Lemma slice_overwrite f lo d : slice (overwrite f lo d) lo (length d) = d.
Proof.
  revert f lo. induction d as [|x d IH]; intros f lo; cbn [length slice]; [done|]. f_equal.
  - unfold overwrite. cbn [length]. rewrite decide_True by lia. by rewrite Z.sub_diag.
  - etransitivity; [|apply (IH f (lo + 1))]. apply slice_ext. intros pos Hpos.
    pose proof (overwrite_app f lo [x] d pos) as Happ. cbn [length app] in Happ.
    change (Z.of_nat 1) with 1 in Happ. rewrite <- Happ. unfold overwrite. by rewrite !decide_True by lia.
Qed.

(** What was written is read back. *)
Theorem write_read_roundtrip s n i l off buf :
  file_ok s n i l -> bytes buf -> 0 <= off -> off + Z.of_nat (length buf) <= 2 ^ 32 ->
  kspec ((data_rw true n buf off (Z.of_nat (length buf)) ;;; data_rw false n [] off (Z.of_nat (length buf))) s)
    (fun r s' => r = (Z.of_nat (length buf), buf)) no_room.
Proof.
  intros Hok Hb Ho Hos. eapply kspec_seq; [by apply file_write_spec|by intros s' []|].
  intros _ s' (_ & i' & l' & Hok' & Hf & _). eapply kspec_mono; [apply (file_read_spec s' n i' l'); try done; lia| |intros s2 (_ & Hn & _); exact Hn].
  intros r s2 [-> _]. f_equal. rewrite Nat2Z.id.
  etransitivity; [|apply (slice_overwrite (file_byte s i l) off buf)]. apply slice_ext. intros pos Hpos. apply Hf. lia.
Qed.

(** A file whose blocks another file does not use keeps its invariant and its
    bytes whatever happens to the other one. *)
Lemma file_ok_others s n i l s' m j k :
  file_ok s m j k -> m <> n -> (forall b, owned s j k b -> ~ owned s i l b) ->
  others_same s n i l s' -> blocks_ok s' ->
  file_ok s' m j k /\ forall pos, 0 <= pos -> file_byte s' j k pos = file_byte s j k pos.
Proof.
  intros Hok Hmn Hdis [O1 O2 O3 (O4 & O5 & _)] Hok'. pose proof Hok as [H1 H2 H3 H4 H5 H6 H7 H8 H9].
  assert (forall b, owned s j k b -> contents s' b = contents s b) as Hc.
  { intros b Hb. destruct (H6 b Hb) as [Hr Hal]. unfold contents. rewrite O1; auto. }
  assert (forall q, file_block s' j k q = file_block s j k q) as Hfb.
  { intros q. apply file_block_agree; [done|]. intros x q' Hx _. rewrite Hc; [done|by left]. }
  split.
  - split; try done.
    + by rewrite O3.
    + eapply chain_agree; [|done]. intros x Hx. rewrite Hc; [done|by left].
    + intros b Hb. assert (owned s j k b) as Hb'.
      { destruct Hb as [|(q & Hq & Hqb & Hne)]; [by left|right]. exists q. by rewrite <- Hfb. }
      destruct (H6 b Hb') as [Hr Hal]. rewrite O4, O5. split; [done|]. apply O2; [|done].
      pose proof (bo_start _ H1). nlia.
    + intros q q'. rewrite !Hfb. apply H7.
    + intros q. rewrite Hfb. apply H8.
  - intros pos Hpos. apply file_byte_agree; [done|]. intros Hne. apply Hc. right.
    exists (pos / BLOCK_SIZE). split_and!; [nlia|done|done].
Qed.

(** Isolation: a write to one file, successful or not, leaves every file that
    shares no block with it as it was. *)
Theorem files_isolated s n i l off buf m j k :
  file_ok s n i l -> file_ok s m j k -> m <> n -> (forall b, owned s j k b -> ~ owned s i l b) ->
  bytes buf -> 0 <= off -> off + Z.of_nat (length buf) <= 2 ^ 32 ->
  let same s' := file_ok s' m j k /\ forall pos, 0 <= pos -> file_byte s' j k pos = file_byte s j k pos in
  kspec (data_rw true n buf off (Z.of_nat (length buf)) s) (fun _ s' => same s') same.
Proof.
  intros Hn Hm Hmn Hdis Hb Ho Hos same.
  eapply kspec_mono; [by apply (file_write_spec s n i l off buf)| |].
  - intros r s' (_ & i' & l' & Hok' & _ & _ & _ & Hoth). by apply (file_ok_others s n i l); [..|apply Hok'].
  - intros s' [(c & (i' & l' & Hok' & _ & _ & _ & Hoth) & _) _]. by apply (file_ok_others s n i l); [..|apply Hok'].
Qed.

(** ** Two files on a concrete device *)

Definition no_blocks : list Z := replicate 13 NO_BLOCK.

(** An empty file and a file with the direct block 5. *)
Definition empty_inode : minode :=
  Minode 0 1 0 1 no_blocks NO_BLOCK NO_BLOCK NO_BLOCK NO_BLOCK true false.
Definition small_inode : minode :=
  Minode 10 1 0 1 (updZ no_blocks 0 5) NO_BLOCK NO_BLOCK NO_BLOCK NO_BLOCK true false.

Definition demo_fs : fs :=
  FS (cells demo_device) (set_next_free BITMAP_BLOCK_INDEX (sb demo_device)) false
    (<[5 := empty_inode]> {[6 := small_inode]}).

Lemma demo_fs_ok : blocks_ok demo_fs.
Proof. destruct demo_device_ok as [H1 H2 H3 H4 H5]. by split. Qed.

Lemma nth_no_blocks k : 0 <= k < NUM_DIRECT_DATA -> nthZ no_blocks k = NO_BLOCK.
Proof. intros Hk. apply nthZ_lookup, lookup_replicate. split; [done|]. nlia. Qed.

Lemma empty_file_block s k : 0 <= k -> file_block s empty_inode [] k = NO_BLOCK.
Proof. intros Hk. unfold file_block. case_decide; [by apply nth_no_blocks|by rewrite lookup_nil]. Qed.

Lemma small_file_block s k : 0 <= k -> file_block s small_inode [] k = if decide (k = 0) then 5 else NO_BLOCK.
Proof.
  intros Hk. unfold file_block. cbn [small_inode addrs]. repeat case_decide; subst; try nlia.
  - by apply nthZ_updZ_eq.
  - rewrite nthZ_updZ_ne by lia. by apply nth_no_blocks.
  - by rewrite lookup_nil.
Qed.

Lemma empty_owned s b : ~ owned s empty_inode [] b.
Proof. intros [Hb|(k & Hk & Hb & Hne)]; [by apply elem_of_nil in Hb|]. by rewrite empty_file_block in Hb. Qed.

Lemma small_owned s b : owned s small_inode [] b -> b = 5.
Proof.
  intros [Hb|(k & Hk & Hb & Hne)]; [by apply elem_of_nil in Hb|]. rewrite small_file_block in Hb by done.
  case_decide; [done|]. by subst.
Qed.

Lemma demo_empty_ok : file_ok demo_fs 5 empty_inode [].
Proof.
  split.
  - apply demo_fs_ok.
  - reflexivity.
  - reflexivity.
  - reflexivity.
  - constructor.
  - intros b Hb. by apply empty_owned in Hb.
  - intros k k' Hk Hk' _ Hne. by rewrite empty_file_block in Hne.
  - intros k Hk Hne. by rewrite empty_file_block in Hne.
  - by left.
Qed.

Lemma small_ok s n :
  blocks_ok s -> inodes s !! n = Some small_inode -> generic_block_start (sb s) <= 5 < total_blocks (sb s) ->
  allocated s 5 = true -> file_ok s n small_inode [].
Proof.
  intros Hok Hi Hr Hal. split.
  - done.
  - done.
  - reflexivity.
  - reflexivity.
  - constructor.
  - by intros b ->%small_owned.
  - intros k k' Hk Hk'. rewrite !small_file_block by done. repeat case_decide; subst; done.
  - intros k Hk _. by apply not_elem_of_nil.
  - by left.
Qed.

Lemma demo_allocated_5 : allocated demo_fs 5 = true.
Proof. change (allocated demo_fs 5) with (allocated demo_device 5). rewrite demo_allocated. by vm_compute. Qed.

Lemma demo_small_ok : file_ok demo_fs 6 small_inode [].
Proof. apply small_ok; [apply demo_fs_ok|reflexivity|cbn; lia|apply demo_allocated_5]. Qed.

Lemma hello_bytes : bytes [104; 105].
Proof. repeat constructor; lia. Qed.



Lemma write_read_roundtrip_witness :
  kspec ((data_rw true 5 [104; 105] 400000 2 ;;; data_rw false 5 [] 400000 2) demo_fs)
    (fun r s' => r = (2, [104; 105])) no_room.
Proof.
  apply (write_read_roundtrip demo_fs 5 empty_inode [] 400000 [104; 105]);
    [exact demo_empty_ok|exact hello_bytes|lia|cbn; lia].
Defined.

Lemma files_isolated_witness :
  let same s' := file_ok s' 6 small_inode [] /\
    forall pos, 0 <= pos -> file_byte s' small_inode [] pos = file_byte demo_fs small_inode [] pos in
  kspec (data_rw true 5 [104; 105] 400000 2 demo_fs) (fun _ s' => same s') same.
Proof.
  apply (files_isolated demo_fs 5 empty_inode [] 400000 [104; 105] 6 small_inode []);
    [exact demo_empty_ok|exact demo_small_ok|lia| |exact hello_bytes|lia|cbn; lia].
  intros b _. apply empty_owned.
Defined.
