(* ===== verification/NfsMeta.v ===== *)
(** * Inode metadata, truncation and the inode table (src/os/fs/nfs/inode.cc, nfs.cc)

    Inodes are stored in a file of their own, the inode table (inode 0, whose
    own copy is in the superblock), as an array of [dinode]s.  [load] and
    [flush] move an inode between the table and memory, [read] and [write] are
    [data_rw] with the size kept, [alloc_inode] and [free_inode] keep the free
    inodes as a list through the table.

    [recycled] is the object the inode cache hands out for an inode that is not
    in memory: [init] resets its number and its validity, its other members
    are what they were before. *)
From S2P Require Import Prelude Memory Bitmap NfsBlock NfsInode.

(** ** Definitions *)

Definition ITYPE_NONE : Z := 0.
Definition ITYPE_FILE : Z := 1.
Definition ITYPE_DIR : Z := 2.
Definition ITYPE_NEXT_FREE_INODE : Z := 8.

Definition SIZEOF_DINODE : Z := 64.

(** The [n] bytes of an integer. *)
Fixpoint le (n : nat) (v : Z) : list Z :=
  match n with
  | O => []
  | S n' => u8 v :: le n' (v / 256)
  end.

(** An array of [uint32]. *)
Fixpoint le_words (l : list Z) : list Z :=
  match l with
  | [] => []
  | x :: l' => le 4 x ++ le_words l'
  end.

(** The bytes of a [dinode], and back. *)
Definition encode_dinode (d : dinode) : list Z :=
  le 4 (d_size d) ++ le 2 (d_nlinks d) ++ le 1 (d_perm d) ++ le 1 (d_type d) ++ le 4 (d_next_addr_block d) ++
  le_words (d_addrs d).
Definition decode_dinode (bs : list Z) : dinode :=
  let m := wr_bytes ∅ 0 bs in
  Dinode (load32 m 0) (load16 m 4) (load 1 m 6) (load 1 m 7) (load32 m 8)
    ((fun k => load32 m (12 + 4 * k)) <$> seqZ 0 NUM_DIRECT_DATA).

(** The copies in [__load] and [__flush]. *)
Definition copy_in (d : dinode) (i : minode) : minode :=
  Minode (d_size d) (d_nlinks d) (d_perm d) (d_type d) (d_addrs d) (d_next_addr_block d)
    (cache_raw_indirect_offset i) (cache_offset i) (cache_addr_block i) (i_valid i) (i_dirty i).
Definition copy_out (i : minode) : dinode :=
  Dinode (i_size i) (i_nlinks i) (i_perm i) (i_type i) (next_addr_block i) (addrs i).

Definition set_flags (valid dirty : bool) (i : minode) : minode :=
  Minode (i_size i) (i_nlinks i) (i_perm i) (i_type i) (addrs i) (next_addr_block i)
    (cache_raw_indirect_offset i) (cache_offset i) (cache_addr_block i) valid dirty.

Definition init_data (this : Z) : K fs unit :=
  upd_inode this (fun i => Minode 0 0 0 0 (replicate (Z.to_nat NUM_DIRECT_DATA) NO_BLOCK) NO_BLOCK
    (cache_raw_indirect_offset i) (cache_offset i) (cache_addr_block i) true true).

(** [load] of the inode table, from the superblock. *)
Definition load_table : K fs unit :=
  i <- the_inode INODE_TABLE_NUMBER ;;
  if i_valid i then kret tt
  else
    s <- kget ;;
    upd_inode INODE_TABLE_NUMBER (copy_in (sb_inode_table (sb s))) ;;;
    upd_inode INODE_TABLE_NUMBER (set_flags true false).

(** [inode_table->read] and [inode_table->write]. *)
Definition table_read (offset size : Z) : K fs (Z * list Z) :=
  load_table ;;; data_rw false INODE_TABLE_NUMBER [] offset size.

(** [write] after [load]: the size grows with the file. *)
Definition write_loaded (this : Z) (src : list Z) (offset : Z) : K fs Z :=
  '(write_size, _) <- data_rw true this src offset (Z.of_nat (length src)) ;;
  i <- the_inode this ;;
  (if i_size i <? u64 (offset + write_size) then upd_inode this (set_isize (u32 (offset + write_size))) else kret tt) ;;;
  kret write_size.

Definition table_write (src : list Z) (offset : Z) : K fs Z :=
  load_table ;;; write_loaded INODE_TABLE_NUMBER src offset.

(** [nfs_inode::__load]; [get_ref] of the table loads it. *)
Definition __load (this : Z) : K fs unit :=
  if this =? INODE_TABLE_NUMBER then
    s <- kget ;; upd_inode this (copy_in (sb_inode_table (sb s)))
  else
    load_table ;;;
    '(_, dinode_buf) <- table_read (this * SIZEOF_DINODE) SIZEOF_DINODE ;;
    upd_inode this (copy_in (decode_dinode dinode_buf)).

(** [referenceable_buffer::load]. *)
Definition inode_load (this : Z) : K fs unit :=
  i <- the_inode this ;;
  if i_valid i then kret tt
  else __load this ;;; upd_inode this (set_flags true false).

Definition set_table (d : dinode) (b : superblock) : superblock :=
  Superblock (magic b) (total_blocks b) (total_generic_blocks b) (used_generic_blocks b) (ninodes b)
    (generic_block_start b) (next_free_bitmap b) d.

(** [nfs_inode::__flush]. *)
Definition __flush (this : Z) : K fs unit :=
  i <- the_inode this ;;
  if this =? INODE_TABLE_NUMBER then
    kmodify (fun s => FS (cells s) (set_table (copy_out i) (sb s)) true (inodes s))
  else
    load_table ;;;
    table_write (encode_dinode (copy_out i)) (this * SIZEOF_DINODE) ;;;
    kret tt.

(** [referenceable_buffer::flush]. *)
Definition inode_flush (this : Z) : K fs unit :=
  i <- the_inode this ;;
  if i_valid i && i_dirty i then __flush this ;;; upd_inode this (fun i => set_flags (i_valid i) false i)
  else kret tt.

Definition inode_read (this offset size : Z) : K fs (Z * list Z) :=
  inode_load this ;;; data_rw false this [] offset size.

Definition inode_write (this : Z) (src : list Z) (offset : Z) : K fs Z :=
  inode_load this ;;; write_loaded this src offset.

(** ** Truncation *)

(** The loop over the direct blocks, [fuel] rounds from [k] on. *)
Fixpoint free_direct (fuel : nat) (this k : Z) : K fs unit :=
  match fuel with
  | O => kret tt
  | S fuel' =>
      i <- the_inode this ;;
      (if nthZ (addrs i) k =? NO_BLOCK then kret tt
       else
         free_block (nthZ (addrs i) k) ;;;
         upd_inode this (fun i => Minode (i_size i) (i_nlinks i) (i_perm i) (i_type i) (updZ (addrs i) k NO_BLOCK)
           (next_addr_block i) (cache_raw_indirect_offset i) (cache_offset i) (cache_addr_block i)
           (i_valid i) (i_dirty i))) ;;;
      free_direct fuel' this (k + 1)
  end.

(** The loop over the entries of the address block [a], whose buffer is held. *)
Fixpoint free_entries (fuel : nat) (a k : Z) : K fs unit :=
  match fuel with
  | O => kret tt
  | S fuel' =>
      m <- bget a ;;
      (if entry m k =? NO_BLOCK then kret tt else free_block (entry m k)) ;;;
      free_entries fuel' a (k + 1)
  end.

(** The loop over the address blocks. *)
Fixpoint free_addr_blocks (fuel : nat) (addr_block_index : Z) : K fs unit :=
  if addr_block_index =? NO_BLOCK then kret tt
  else
    match fuel with
    | O => kfuel
    | S fuel' =>
        m <- bget addr_block_index ;;
        free_entries (Z.to_nat NUM_ADDRS) addr_block_index 0 ;;;
        m <- bget addr_block_index ;;
        free_block addr_block_index ;;;
        free_addr_blocks fuel' (next_of m)
    end.

(** The position cache is not reset. *)
Definition truncate (fuel : nat) (this size : Z) : K fs Z :=
  if negb (size =? 0) then kret (-1)
  else
    inode_load this ;;;
    i <- the_inode this ;;
    if i_size i =? 0 then kret 0
    else
      free_direct (Z.to_nat NUM_DIRECT_DATA) this 0 ;;;
      i <- the_inode this ;;
      free_addr_blocks fuel (next_addr_block i) ;;;
      upd_inode this (fun i => Minode 0 (i_nlinks i) (i_perm i) (i_type i) (addrs i) NO_BLOCK
        (cache_raw_indirect_offset i) (cache_offset i) (cache_addr_block i) (i_valid i) true) ;;;
      kret 0.

(** ** The list of free inodes *)

Definition set_ninodes (n : Z) (b : superblock) : superblock :=
  Superblock (magic b) (total_blocks b) (total_generic_blocks b) (used_generic_blocks b) n
    (generic_block_start b) (next_free_bitmap b) (sb_inode_table b).

(** [nfs::get_inode] on a mounted file system. *)
Definition get_inode (recycled : minode) (n : Z) : K fs unit :=
  kmodify (fun s =>
    match inodes s !! n with
    | Some _ => s
    | None => FS (cells s) (sb s) (sb_dirty s) (<[n := set_flags false (i_dirty recycled) recycled]> (inodes s))
    end).

Definition with_size (d : dinode) (n : Z) : dinode :=
  Dinode n (d_nlinks d) (d_perm d) (d_type d) (d_next_addr_block d) (d_addrs d).

Definition alloc_inode (recycled : minode) : K fs Z :=
  load_table ;;;
  '(_, bs) <- table_read 0 SIZEOF_DINODE ;;
  let temp_dinode := decode_dinode bs in
  if negb (d_type temp_dinode =? ITYPE_NEXT_FREE_INODE) then kfail
  else
    let next_free_inode := d_size temp_dinode in
    '(_, bs) <- table_read (next_free_inode * SIZEOF_DINODE) SIZEOF_DINODE ;;
    let new_dinode := decode_dinode bs in
    let temp_dinode :=
      if d_type new_dinode =? ITYPE_NEXT_FREE_INODE then with_size temp_dinode (d_size new_dinode)
      else with_size temp_dinode (u32 (next_free_inode + 1)) in
    table_write (encode_dinode temp_dinode) 0 ;;;
    get_inode recycled next_free_inode ;;;
    init_data next_free_inode ;;;
    kmodify (fun s => FS (cells s) (set_ninodes (u32 (ninodes (sb s) + 1)) (sb s)) true (inodes s)) ;;;
    kret next_free_inode.

(** [garbage] is the uninitialised [new_dinode] of the source. *)
Definition free_inode (garbage : dinode) (inode_index : Z) : K fs unit :=
  load_table ;;;
  '(_, bs) <- table_read 0 SIZEOF_DINODE ;;
  let temp_dinode := decode_dinode bs in
  if negb (d_type temp_dinode =? ITYPE_NEXT_FREE_INODE) then kfail
  else
    let new_dinode := Dinode (d_size temp_dinode) (d_nlinks garbage) (d_perm garbage) ITYPE_NEXT_FREE_INODE
      (d_next_addr_block garbage) (d_addrs garbage) in
    table_write (encode_dinode (with_size temp_dinode inode_index)) 0 ;;;
    table_write (encode_dinode new_dinode) (inode_index * SIZEOF_DINODE) ;;;
    kmodify (fun s => FS (cells s) (set_ninodes (u32 (ninodes (sb s) - 1)) (sb s)) true (inodes s)).
