(* ===== verification/NfsTable.v ===== *)
(** * The inode table as an array (src/os/fs/nfs/inode.cc, nfs.cc)

    What is stored in the inode table is read back: a [dinode] survives its
    encoding, [__flush] followed by [__load] restores an inode, and the list of
    free inodes gives back what was put on it. *)
From S2P Require Import Prelude Memory Bitmap NfsBlock NfsInode NfsRep NfsData NfsFile NfsMeta.

(** ** The encoding *)

Lemma length_le n v : length (le n v) = n.
Proof. revert v. induction n; intros v; cbn; [done|]. by f_equal. Qed.

Lemma bytes_le n v : bytes (le n v).
Proof. revert v. induction n; intros v; cbn; constructor; [apply u8_range|apply IHn]. Qed.

Lemma load_le n m a v : 0 <= v < 256 ^ Z.of_nat n -> load n (wr_bytes m a (le n v)) a = v.
Proof.
  revert m a v. induction n as [|n IH]; intros m a v Hv.
  { change (256 ^ Z.of_nat 0) with 1 in Hv. unfold load. lia. }
  rewrite Nat2Z.inj_succ, Z.pow_succ_r in Hv by lia. cbn [le wr_bytes].
  rewrite load_S, IH, wr_bytes_other, rd8_wr8_eq by zlia. unfold u8. zlia.
Qed.

Lemma wr_bytes_app m a l1 l2 :
  wr_bytes m a (l1 ++ l2) = wr_bytes (wr_bytes m a l1) (a + Z.of_nat (length l1)) l2.
Proof.
  revert m a. induction l1 as [|x l1 IH]; intros m a; cbn [app wr_bytes length].
  - by rewrite Z.add_0_r.
  - rewrite IH. f_equal. lia.
Qed.

Lemma load_other n m a l b : b + Z.of_nat n <= a -> load n (wr_bytes m a l) b = load n m b.
Proof. intros Hb. apply load_agree. intros x Hx. apply wr_bytes_other. lia. Qed.

(** A field in front, and one behind. *)
Lemma load_field_here n m a v l : 0 <= v < 256 ^ Z.of_nat n -> load n (wr_bytes m a (le n v ++ l)) a = v.
Proof. intros Hv. rewrite wr_bytes_app, length_le, load_other by lia. by apply load_le. Qed.

Lemma load_field_skip k n m a b v l :
  load k (wr_bytes m a (le n v ++ l)) b = load k (wr_bytes (wr_bytes m a (le n v)) (a + Z.of_nat n) l) b.
Proof. by rewrite wr_bytes_app, length_le. Qed.

Lemma load_words l m a (k : nat) v :
  Forall (fun x => 0 <= x < 2 ^ 32) l -> l !! k = Some v ->
  load32 (wr_bytes m a (le_words l)) (a + 4 * Z.of_nat k) = v.
Proof.
  revert m a k. induction l as [|x l IH]; intros m a k Hl Hk; [done|]. apply Forall_cons in Hl as [Hx Hl].
  cbn [le_words]. destruct k as [|k]; cbn in Hk.
  - simplify_eq. rewrite Z.mul_0_r, Z.add_0_r. by apply load_field_here.
  - rewrite load_field_skip. replace (a + 4 * Z.of_nat (S k)) with (a + Z.of_nat 4 + 4 * Z.of_nat k) by lia. by apply IH.
Qed.

(** The ranges of the members. *)
Record dinode_ok (d : dinode) : Prop := {
  dk_size : 0 <= d_size d < 2 ^ 32;
  dk_nlinks : 0 <= d_nlinks d < 2 ^ 16;
  dk_perm : 0 <= d_perm d < 256;
  dk_type : 0 <= d_type d < 256;
  dk_next : 0 <= d_next_addr_block d < 2 ^ 32;
  dk_addrs : Forall (fun x => 0 <= x < 2 ^ 32) (d_addrs d);
  dk_len : length (d_addrs d) = Z.to_nat NUM_DIRECT_DATA
}.

Lemma encode_bytes d : bytes (encode_dinode d).
Proof.
  unfold encode_dinode, bytes. rewrite !Forall_app. split_and!; try apply bytes_le.
  induction (d_addrs d) as [|x l IH]; cbn [le_words]; [constructor|]. apply Forall_app. split; [apply bytes_le|done].
Qed.

Lemma encode_length d : dinode_ok d -> Z.of_nat (length (encode_dinode d)) = SIZEOF_DINODE.
Proof.
  intros Hd. unfold encode_dinode. rewrite !length_app, !length_le.
  assert (length (le_words (d_addrs d)) = 4 * length (d_addrs d))%nat as ->.
  { induction (d_addrs d) as [|x l IH]; cbn [le_words length]; [done|]. rewrite length_app, length_le. lia. }
  rewrite (dk_len _ Hd). done.
Qed.

Lemma decode_encode d : dinode_ok d -> decode_dinode (encode_dinode d) = d.
Proof.
  intros [H1 H2 H3 H4 H5 H6 H7]. unfold decode_dinode, encode_dinode. destruct d as [sz nl pm ty nx ad].
  cbn [d_size d_nlinks d_perm d_type d_next_addr_block d_addrs] in *.
  f_equal.
  - by apply load_field_here.
  - rewrite load_field_skip. by apply (load_field_here 2).
  - do 2 rewrite load_field_skip. by apply (load_field_here 1).
  - do 3 rewrite load_field_skip. by apply (load_field_here 1).
  - do 4 rewrite load_field_skip. by apply (load_field_here 4).
  - apply list_eq. intros k. rewrite list_lookup_fmap. destruct (ad !! k) as [v|] eqn:Ek.
    + rewrite lookup_seqZ_lt by (apply lookup_lt_Some in Ek; nlia). cbn [fmap option_fmap option_map].
      f_equal. do 5 rewrite load_field_skip. by apply (load_words ad).
    + rewrite lookup_seqZ_ge; [done|]. apply lookup_ge_None in Ek. nlia.
Qed.

(** ** Operations on the table *)

(** The table is a file in memory. *)
Definition table_ok (s : fs) (f : Z -> Z) : Prop :=
  exists t l, file_ok s INODE_TABLE_NUMBER t l /\ i_valid t = true /\
    forall pos, 0 <= pos -> file_byte s t l pos = f pos.

(** Changing metadata does not change the file. *)
Lemma file_ok_meta s n i l i' :
  file_ok s n i l -> addrs i' = addrs i -> next_addr_block i' = next_addr_block i -> cache_ok i' l ->
  let s' := FS (cells s) (sb s) (sb_dirty s) (<[n := i']> (inodes s)) in
  file_ok s' n i' l /\ forall pos, file_byte s' i' l pos = file_byte s i l pos.
Proof.
  intros [H1 H2 H3 H4 H5 H6 H7 H8 H9] Ha Hn Hc s'.
  assert (forall k, file_block s' i' l k = file_block s i l k) as Hfb by (intros k; by apply file_block_agree).
  split; [|intros pos; by apply file_byte_agree]. split; try done.
  - destruct H1. by split.
  - apply lookup_insert_eq.
  - by rewrite Ha.
  - rewrite Hn. by eapply chain_agree; [|exact H4].
  - intros b Hb. apply H6. destruct Hb as [|(k & Hk & Hkb & Hne)]; [by left|right]. exists k. by rewrite <- Hfb.
  - intros k k'. rewrite !Hfb. apply H7.
  - intros k. rewrite Hfb. apply H8.
Qed.

Lemma load_table_run s f : table_ok s f -> load_table s = Ret tt s.
Proof.
  intros (t & l & Hok & Hv & _). unfold load_table, kbind, the_inode.
  by rewrite (fo_inode _ _ _ _ Hok), Hv.
Qed.

(** The other inodes stay as they are. *)
Definition others_kept (s s' : fs) : Prop :=
  forall j, j <> INODE_TABLE_NUMBER -> inodes s' !! j = inodes s !! j.

Lemma table_read_spec s f off size :
  table_ok s f -> 0 <= off -> 0 <= size -> off + size <= 2 ^ 32 ->
  kspec (table_read off size s)
    (fun r s' => r = (size, slice f off (Z.to_nat size)) /\ table_ok s' f /\ others_kept s s')
    (fun s' => (table_ok s' f /\ others_kept s s') /\ no_room s').
Proof.
  intros Ht Ho Hs Hos. unfold table_read. rewrite (kbind_ret _ _ _ _ _ (load_table_run s f Ht)).
  destruct Ht as (t & l & Hok & Hv & Hf).
  assert (forall s', file_becomes s INODE_TABLE_NUMBER t l s' (file_byte s t l) -> table_ok s' f /\ others_kept s s') as Hb.
  { intros s' (t' & l' & Hok' & Hf' & Hm & _ & Hoth). split; [|exact (os_inodes _ _ _ _ _ Hoth)]. exists t', l'. split_and!; [done| |].
    - unfold meta in Hm. congruence.
    - intros pos Hpos. rewrite Hf' by done. by apply Hf. }
  eapply kspec_mono; [by apply (file_read_spec s _ t l off size)| |].
  - intros r s' [-> Hb']. split; [|by apply Hb]. f_equal. apply slice_ext. intros pos Hpos. apply Hf. lia.
  - intros s' (Hb' & Hn & _). split; [by apply Hb|done].
Qed.

Lemma write_loaded_spec s n i l src off :
  file_ok s n i l -> bytes src -> 0 <= off -> off + Z.of_nat (length src) <= 2 ^ 32 ->
  kspec (write_loaded n src off s)
    (fun r s' => r = Z.of_nat (length src) /\ exists i' l', file_ok s' n i' l' /\
       (forall pos, 0 <= pos -> file_byte s' i' l' pos = overwrite (file_byte s i l) off src pos) /\
       i_valid i' = i_valid i /\ i_type i' = i_type i /\ i_nlinks i' = i_nlinks i /\
       i_size i' = (if i_size i <? u64 (off + Z.of_nat (length src)) then u32 (off + Z.of_nat (length src)) else i_size i) /\
       own_grows s i l s' i' l' /\ others_same s n i l s')
    (fun s' => (exists c, let f := overwrite (file_byte s i l) off (take c src) in
       file_becomes s n i l s' f /\ stops off (length src) f c) /\ no_room s').
Proof.
  intros Hok Hb Ho Hos. unfold write_loaded. eapply kspec_bind; [by apply (file_write_spec s n i l off src)|].
  intros r s1 (-> & i1 & l1 & Hok1 & Hf1 & Hm & Hown & Hoth). cbv beta iota.
  unfold kbind at 1, the_inode. rewrite (fo_inode _ _ _ _ Hok1).
  assert (i_size i1 = i_size i /\ i_valid i1 = i_valid i /\ i_type i1 = i_type i /\ i_nlinks i1 = i_nlinks i) as (-> & Hv & Hty & Hnl)
    by (unfold meta in Hm; intuition congruence).
  destruct (_ <? _) eqn:E.
  - unfold upd_inode, kbind, kmodify, kret. rewrite (alter_at _ _ _ _ (fo_inode _ _ _ _ Hok1)). cbn [kspec].
    split; [done|]. destruct (file_ok_meta s1 n i1 l1 (set_isize (u32 (off + Z.of_nat (length src))) i1) Hok1) as [Hok2 Hf2];
      [done|done|apply Hok1|].
    exists (set_isize (u32 (off + Z.of_nat (length src))) i1), l1. split_and!; try done.
    destruct Hoth as [O1 O2 O3 O4]. split; try done. intros j Hj. cbn [inodes].
    rewrite lookup_insert_ne by done. by apply O3.
  - cbn [kbind kret kspec]. split; [done|]. exists i1, l1. split_and!; try done. unfold meta in Hm. congruence.
Qed.

Lemma table_write_spec s f src off :
  table_ok s f -> bytes src -> 0 <= off -> off + Z.of_nat (length src) <= 2 ^ 32 ->
  kspec (table_write src off s)
    (fun r s' => r = Z.of_nat (length src) /\ table_ok s' (overwrite f off src) /\ others_kept s s')
    (fun s' => (exists c, table_ok s' (overwrite f off (take c src)) /\ others_kept s s') /\ no_room s').
Proof.
  intros Ht Hb Ho Hos. unfold table_write. rewrite (kbind_ret _ _ _ _ _ (load_table_run s f Ht)).
  destruct Ht as (t & l & Hok & Hv & Hf). eapply kspec_mono; [by apply (write_loaded_spec s _ t l)| |].
  - intros r s' (-> & t' & l' & Hok' & Hf' & Hv' & _ & _ & _ & _ & Hoth). split; [done|]. split; [|exact (os_inodes _ _ _ _ _ Hoth)].
    exists t', l'. split_and!; [done|congruence|]. intros pos Hpos. rewrite Hf' by done. apply overwrite_ext, Hf, Hpos.
  - intros s' [(c & (t' & l' & Hok' & Hf' & Hm & _ & Hoth) & _) Hn]. split; [|done]. exists c. split; [|exact (os_inodes _ _ _ _ _ Hoth)].
    exists t', l'. split_and!; [done|unfold meta in Hm; congruence|].
    intros pos Hpos. rewrite Hf' by done. apply overwrite_ext, Hf, Hpos.
Qed.

(** A file whose blocks and inode are unchanged is unchanged. *)
Lemma file_ok_same s s' n i l :
  file_ok s n i l -> cells s' = cells s -> same_layout s s' -> next_free_bitmap (sb s') = next_free_bitmap (sb s) ->
  inodes s' !! n = inodes s !! n -> file_ok s' n i l /\ forall pos, file_byte s' i l pos = file_byte s i l pos.
Proof.
  intros [H1 H2 H3 H4 H5 H6 H7 H8 H9] Hc (Ht & Hg & _) Hn Hi.
  assert (forall x, contents s' x = contents s x) as Hcon by (intros x; unfold contents; by rewrite Hc).
  assert (forall x, allocated s' x = allocated s x) as Hal by (intros x; unfold allocated; by rewrite Hcon).
  assert (forall k, file_block s' i l k = file_block s i l k) as Hfb.
  { intros k. apply file_block_agree; [done|]. intros x q _ _. by rewrite Hcon. }
  split.
  - split; try done.
    + destruct H1. split; rewrite ?Ht, ?Hg, ?Hn, ?Hc; try done. intros b Hb. rewrite Hal. auto.
    + by rewrite Hi.
    + eapply chain_agree; [|exact H4]. intros x _. by rewrite Hcon.
    + intros b Hb. rewrite Ht, Hg, Hal. apply H6.
      destruct Hb as [|(k & Hk & Hkb & Hne)]; [by left|right]. exists k. by rewrite <- Hfb.
    + intros k k'. rewrite !Hfb. apply H7.
    + intros k. rewrite Hfb. apply H8.
  - intros pos. by apply file_byte_agree.
Qed.

Lemma table_ok_same s s' f :
  table_ok s f -> cells s' = cells s -> same_layout s s' -> next_free_bitmap (sb s') = next_free_bitmap (sb s) ->
  inodes s' !! INODE_TABLE_NUMBER = inodes s !! INODE_TABLE_NUMBER -> table_ok s' f.
Proof.
  intros (t & l & Hok & Hv & Hf) Hc Hl Hn Hi. destruct (file_ok_same s s' _ t l Hok Hc Hl Hn Hi) as [Hok' Hf'].
  exists t, l. split_and!; [done|done|]. intros pos Hpos. rewrite Hf'. by apply Hf.
Qed.

(** The table is not affected by changes of other inodes and of the counters. *)
Ltac table_same H := eapply table_ok_same; [exact H|reflexivity|split_and!; reflexivity|reflexivity|].

(** The dinode in slot [k] of a table with the bytes [f]. *)
Definition slot (f : Z -> Z) (k : Z) : dinode :=
  decode_dinode (slice f (k * SIZEOF_DINODE) (Z.to_nat SIZEOF_DINODE)).

Lemma slot_overwrite_eq f k d : dinode_ok d -> slot (overwrite f (k * SIZEOF_DINODE) (encode_dinode d)) k = d.
Proof.
  intros Hd. unfold slot. rewrite <- (encode_length d Hd), Nat2Z.id, slice_overwrite. by apply decode_encode.
Qed.

Lemma slot_overwrite_ne f j k d :
  dinode_ok d -> j <> k -> slot (overwrite f (j * SIZEOF_DINODE) (encode_dinode d)) k = slot f k.
Proof.
  intros Hd Hne. unfold slot. f_equal. apply slice_ext. intros pos Hpos. unfold overwrite.
  rewrite (encode_length d Hd). change SIZEOF_DINODE with 64 in *. by rewrite decide_False by lia.
Qed.

Lemma decode_ok bs : dinode_ok (decode_dinode bs).
Proof.
  split; cbn [decode_dinode d_size d_nlinks d_perm d_type d_next_addr_block d_addrs].
  - apply (load_range 4).
  - apply (load_range 2).
  - apply (load_range 1).
  - apply (load_range 1).
  - apply (load_range 4).
  - apply Forall_fmap, Forall_true. intros k. apply (load_range 4).
  - by rewrite length_fmap, length_seqZ.
Qed.

Lemma slot_eq f k : slot f k = decode_dinode (slice f (k * SIZEOF_DINODE) (Z.to_nat SIZEOF_DINODE)).
Proof. reflexivity. Qed.

Lemma slot_ok f k : dinode_ok (slot f k).
Proof. apply decode_ok. Qed.

#[local] Opaque slot encode_dinode decode_dinode table_read table_write load_table.

(** The slot of inode [n] lies inside a 32-bit file. *)
Definition inode_number_ok (n : Z) : Prop := 0 < n /\ n * SIZEOF_DINODE + SIZEOF_DINODE <= 2 ^ 32.

Lemma read_slot s f k :
  table_ok s f -> 0 <= k -> k * SIZEOF_DINODE + SIZEOF_DINODE <= 2 ^ 32 ->
  kspec (table_read (k * SIZEOF_DINODE) SIZEOF_DINODE s)
    (fun r s' => decode_dinode (snd r) = slot f k /\ table_ok s' f /\ others_kept s s')
    no_room.
Proof.
  intros Ht Hk Hr. eapply kspec_mono; [apply (table_read_spec s f); done || (change SIZEOF_DINODE with 64 in *; lia)| |by intros s' []].
  intros r s' (-> & Ht' & Ho). done.
Qed.

Lemma write_slot s f k d :
  table_ok s f -> dinode_ok d -> 0 <= k -> k * SIZEOF_DINODE + SIZEOF_DINODE <= 2 ^ 32 ->
  kspec (table_write (encode_dinode d) (k * SIZEOF_DINODE) s)
    (fun _ s' => exists f', table_ok s' f' /\ slot f' k = d /\ (forall j, j <> k -> slot f' j = slot f j) /\ others_kept s s')
    no_room.
Proof.
  intros Ht Hd Hk Hr. eapply kspec_mono; [apply (table_write_spec s f)| |by intros s' []].
  - done.
  - apply encode_bytes.
  - change SIZEOF_DINODE with 64 in *. lia.
  - rewrite (encode_length d Hd). lia.
  - intros r s' (-> & Ht' & Ho). eexists. split_and!; [done|by apply slot_overwrite_eq| |done].
    intros j Hj. by apply slot_overwrite_ne.
Qed.

(** The cache drops an inode object. *)
Definition drop_inode (n : Z) : K fs unit :=
  kmodify (fun s => FS (cells s) (sb s) (sb_dirty s) (delete n (inodes s))).

Lemma flush_spec s f n i :
  table_ok s f -> inode_number_ok n -> inodes s !! n = Some i -> i_valid i && i_dirty i = true -> dinode_ok (copy_out i) ->
  kspec (inode_flush n s) (fun _ s' => exists f', table_ok s' f' /\ slot f' n = copy_out i) no_room.
Proof.
  intros Ht [Hn Hr] Hi Hvd Hd. unfold inode_flush. unfold kbind at 1, the_inode. rewrite Hi, Hvd.
  eapply (kspec_seq _ _ _ (fun _ s' => exists f', table_ok s' f' /\ slot f' n = copy_out i)); [|done|].
  - unfold __flush. unfold kbind at 1, the_inode. rewrite Hi, (proj2 (Z.eqb_neq n INODE_TABLE_NUMBER)) by (unfold INODE_TABLE_NUMBER; lia).
    rewrite (kbind_ret _ _ _ _ _ (load_table_run s f Ht)).
    eapply kspec_seq; [apply (write_slot s f n); done || lia|done|].
    intros _ s' (f' & Ht' & Hs & _). by exists f'.
  - intros _ s' (f' & Ht' & Hs). exists f'. split; [|done]. table_same Ht'.
    cbn [inodes]. rewrite lookup_alter_ne; [done|]. unfold INODE_TABLE_NUMBER. lia.
Qed.

Lemma load_spec s f n i :
  table_ok s f -> inode_number_ok n -> inodes s !! n = Some i -> i_valid i = false ->
  kspec (inode_load n s)
    (fun _ s' => exists i', inodes s' !! n = Some i' /\ copy_out i' = slot f n /\ i_valid i' = true /\ i_dirty i' = false)
    no_room.
Proof.
  intros Ht [Hn Hr] Hi Hv. unfold inode_load. unfold kbind at 1, the_inode. rewrite Hi, Hv.
  eapply (kspec_seq _ _ _ (fun _ s' => exists i', inodes s' !! n = Some i' /\ copy_out i' = slot f n)); [|done|].
  - unfold __load. rewrite (proj2 (Z.eqb_neq n INODE_TABLE_NUMBER)) by (unfold INODE_TABLE_NUMBER; lia).
    rewrite (kbind_ret _ _ _ _ _ (load_table_run s f Ht)).
    eapply kspec_seq; [apply (read_slot s f n); done || lia|done|].
    intros [k bs] s' (Hd & _ & Ho). cbn [snd] in Hd. cbv beta iota. unfold upd_inode, kmodify. cbn [kspec inodes].
    rewrite lookup_alter_eq, Ho, Hi by (unfold INODE_TABLE_NUMBER; lia). eexists. split; [done|].
    rewrite <- Hd. destruct (decode_dinode bs). reflexivity.
  - intros _ s' (i' & Hi' & Hc). unfold upd_inode, kmodify. cbn [kspec inodes]. rewrite lookup_alter_eq, Hi'.
    eexists. split_and!; [reflexivity|exact Hc|reflexivity|reflexivity].
Qed.

(** An inode that is written back, dropped from the cache and loaded again
    into any recycled object has the metadata and the block addresses it
    had. *)
Theorem flush_load_roundtrip s f n i recycled :
  table_ok s f -> inode_number_ok n -> inodes s !! n = Some i -> i_valid i && i_dirty i = true -> dinode_ok (copy_out i) ->
  kspec ((inode_flush n ;;; drop_inode n ;;; get_inode recycled n ;;; inode_load n) s)
    (fun _ s' => exists i', inodes s' !! n = Some i' /\ copy_out i' = copy_out i /\ i_valid i' = true /\ i_dirty i' = false)
    no_room.
Proof.
  intros Ht Hn Hi Hvd Hd. eapply kspec_seq; [by apply (flush_spec s f n i)|done|].
  intros _ s1 (f' & Ht1 & Hs). unfold drop_inode, get_inode, kbind at 1 2, kmodify. cbn [inodes cells sb sb_dirty].
  rewrite lookup_delete_eq. set (s2 := FS _ _ _ _).
  eapply kspec_mono; [apply (load_spec s2 f' n (set_flags false (i_dirty recycled) recycled)); [|done| |done]| |done].
  - table_same Ht1. subst s2. cbn [inodes].
    rewrite lookup_insert_ne, lookup_delete_ne; [done|..]; destruct Hn; unfold INODE_TABLE_NUMBER; lia.
  - apply lookup_insert_eq.
  - intros _ s' (i' & Hi' & Hc & Hv). exists i'. rewrite Hc, Hs. split_and!; [exact Hi'|reflexivity|apply Hv|apply Hv].
Qed.

Lemma with_size_ok d n : dinode_ok d -> 0 <= n < 2 ^ 32 -> dinode_ok (with_size d n).
Proof. intros [H1 H2 H3 H4 H5 H6 H7] Hn. by split. Qed.

Lemma free_inode_spec s f garbage n :
  table_ok s f -> inode_number_ok n -> d_type (slot f 0) = ITYPE_NEXT_FREE_INODE -> dinode_ok garbage ->
  kspec (free_inode garbage n s)
    (fun _ s' => exists f', table_ok s' f' /\ slot f' 0 = with_size (slot f 0) n /\
       d_type (slot f' n) = ITYPE_NEXT_FREE_INODE /\ d_size (slot f' n) = d_size (slot f 0) /\
       (forall j, j <> 0 -> j <> n -> slot f' j = slot f j) /\ others_kept s s')
    no_room.
Proof.
  intros Ht [Hn Hr] Hty Hg. unfold free_inode. change SIZEOF_DINODE with 64 in Hr.
  pose proof (slot_ok f 0) as Hd0.
  rewrite (kbind_ret _ _ _ _ _ (load_table_run s f Ht)).
  eapply kspec_seq; [apply (read_slot s f 0); done || lia|done|].
  intros [k bs] s1 (Hd & Ht1 & Ho1). cbn [snd] in Hd. cbv beta iota zeta. rewrite Hd, Hty.
  change (negb (_ =? _)) with false. cbv iota.
  eapply kspec_seq; [apply (write_slot s1 f 0 (with_size (slot f 0) n)); [done|by apply with_size_ok; [|lia]|lia|done]|done|].
  intros _ s2 (f2 & Ht2 & Hs2 & Hk2 & Ho2).
  eapply kspec_seq; [eapply (write_slot s2 f2 n); [done| |lia|done]|done|].
  { destruct Hg as [G1 G2 G3 G4 G5 G6 G7], Hd0 as [D1 D2 D3 D4 D5 D6 D7].
    split; [exact D1|exact G2|exact G3|unfold ITYPE_NEXT_FREE_INODE; cbn; lia|exact G5|exact G6|exact G7]. }
  intros _ s3 (f3 & Ht3 & Hs3 & Hk3 & Ho3). unfold kmodify. cbn [kspec]. exists f3. split_and!.
  - table_same Ht3. reflexivity.
  - rewrite Hk3 by lia. done.
  - by rewrite Hs3.
  - by rewrite Hs3.
  - intros j Hj0 Hjn. rewrite Hk3, Hk2 by done. done.
  - intros j Hj. cbn [inodes]. rewrite Ho3, Ho2, Ho1 by done. done.
Qed.

Lemma get_inode_run recycled n s :
  exists s' i, get_inode recycled n s = Ret tt s' /\ cells s' = cells s /\ sb s' = sb s /\ inodes s' !! n = Some i /\
    forall j, j <> n -> inodes s' !! j = inodes s !! j.
Proof.
  unfold get_inode, kmodify. destruct (inodes s !! n) as [i|] eqn:Hi.
  - exists s, i. done.
  - eexists _, _. split_and!; [reflexivity|done|done|apply lookup_insert_eq|].
    intros j Hj. cbn [inodes]. by rewrite lookup_insert_ne.
Qed.

Lemma alloc_inode_spec s f recycled :
  table_ok s f -> d_type (slot f 0) = ITYPE_NEXT_FREE_INODE -> inode_number_ok (d_size (slot f 0)) ->
  let n := d_size (slot f 0) in
  kspec (alloc_inode recycled s)
    (fun r s' => r = n /\ exists f', table_ok s' f' /\
       slot f' 0 = with_size (slot f 0)
         (if d_type (slot f n) =? ITYPE_NEXT_FREE_INODE then d_size (slot f n) else u32 (n + 1)) /\
       (forall j, j <> 0 -> slot f' j = slot f j) /\
       (forall j, j <> 0 -> j <> n -> inodes s' !! j = inodes s !! j) /\
       exists i, inodes s' !! n = Some i /\ i_valid i = true /\ i_dirty i = true /\ i_size i = 0 /\
         addrs i = replicate (Z.to_nat NUM_DIRECT_DATA) NO_BLOCK /\ next_addr_block i = NO_BLOCK)
    no_room.
Proof.
  intros Ht Hty [Hn Hr] n. unfold alloc_inode. change SIZEOF_DINODE with 64 in Hr. fold n in Hn, Hr.
  pose proof (slot_ok f 0) as Hd0.
  pose proof (slot_ok f n) as Hdn.
  rewrite (kbind_ret _ _ _ _ _ (load_table_run s f Ht)).
  eapply kspec_seq; [apply (read_slot s f 0); done || lia|done|].
  intros [k bs] s1 (Hd & Ht1 & Ho1). cbn [snd] in Hd. cbv beta iota zeta. rewrite Hd, Hty.
  change (negb (_ =? _)) with false. cbv iota. fold n.
  eapply kspec_seq; [apply (read_slot s1 f n); done || lia|done|].
  intros [k' bs'] s2 (Hd' & Ht2 & Ho2). cbn [snd] in Hd'. cbv beta iota. rewrite Hd'.
  set (v := if d_type (slot f n) =? _ then d_size (slot f n) else _).
  replace (if d_type (slot f n) =? _ then with_size _ _ else _) with (with_size (slot f 0) v)
    by (subst v; by destruct (_ =? _)).
  eapply kspec_seq; [apply (write_slot s2 f 0 (with_size (slot f 0) v)); [done| |lia|done]|done|].
  { apply with_size_ok; [done|]. subst v. destruct (_ =? _); [apply Hdn|apply u32_range]. }
  intros _ s3 (f3 & Ht3 & Hs3 & Hk3 & Ho3).
  destruct (get_inode_run recycled n s3) as (s4 & i4 & Hrun & Hc4 & Hsb4 & Hi4 & Ho4).
  rewrite (kbind_ret _ _ _ _ _ Hrun). unfold init_data, upd_inode, kbind, kmodify, kret. cbn [kspec cells sb inodes].
  split; [done|]. exists f3. split_and!.
  - eapply table_ok_same; [exact Ht3|exact Hc4|rewrite Hsb4; split_and!; reflexivity|rewrite Hsb4; reflexivity|].
    cbn [inodes].
    rewrite lookup_alter_ne by (unfold INODE_TABLE_NUMBER; lia). apply Ho4. unfold INODE_TABLE_NUMBER. lia.
  - done.
  - intros j Hj. rewrite Hk3 by done. done.
  - intros j Hj Hjn. rewrite lookup_alter_ne, Ho4, Ho3, Ho2, Ho1 by done. done.
  - rewrite lookup_alter_eq, Hi4. eexists. split_and!; reflexivity.
Qed.

(** The list of free inodes is a stack: an inode that was freed is the next
    one handed out, as an empty inode, and the list is then what it was before
    the inode was freed; no other slot of the table changes. *)
Theorem free_alloc_inode s f garbage recycled n :
  table_ok s f -> inode_number_ok n -> d_type (slot f 0) = ITYPE_NEXT_FREE_INODE -> dinode_ok garbage ->
  kspec ((free_inode garbage n ;;; alloc_inode recycled) s)
    (fun r s' => r = n /\ exists f', table_ok s' f' /\ slot f' 0 = slot f 0 /\
       (forall j, j <> 0 -> j <> n -> slot f' j = slot f j) /\
       exists i, inodes s' !! n = Some i /\ i_valid i = true /\ i_size i = 0 /\
         addrs i = replicate (Z.to_nat NUM_DIRECT_DATA) NO_BLOCK /\ next_addr_block i = NO_BLOCK)
    no_room.
Proof.
  intros Ht Hn Hty Hg. eapply kspec_seq; [by apply (free_inode_spec s f)|done|].
  intros _ s1 (f1 & Ht1 & H0 & Htn & Hsn & Hk1 & _).
  eapply kspec_mono; [apply (alloc_inode_spec s1 f1); [done|by rewrite H0|by rewrite H0]| |done].
  rewrite H0. cbn [with_size d_size]. rewrite Htn, Z.eqb_refl, Hsn.
  intros r s' (-> & f' & Ht' & H0' & Hk' & _ & i & Hi & Hv & _ & Hz & Ha & Hx). split; [reflexivity|]. exists f'. split_and!.
  - exact Ht'.
  - rewrite H0'. by destruct (slot f 0).
  - intros j Hj Hjn. rewrite Hk', Hk1 by done. done.
  - exists i. split_and!; [exact Hi|exact Hv|exact Hz|exact Ha|exact Hx].
Qed.

(** ** A concrete inode table *)

(** Slot 0 heads the list of free inodes; inode 2 is in memory. *)
Definition demo_head : dinode := Dinode 7 1 0 ITYPE_NEXT_FREE_INODE 0 (replicate 13 0).
Definition demo_inode : minode := Minode 99 1 0 1 (replicate 13 NO_BLOCK) NO_BLOCK NO_BLOCK NO_BLOCK NO_BLOCK true true.
Definition table_on (s : fs) : fs :=
  FS (cells (put s 5 (wr_bytes ∅ 0 (encode_dinode demo_head)))) (sb s) false (<[0 := small_inode]> {[2 := demo_inode]}).

Lemma demo_head_ok : dinode_ok demo_head.
Proof.
  split; cbn [demo_head d_size d_nlinks d_perm d_type d_next_addr_block d_addrs];
    [lia|lia|lia|unfold ITYPE_NEXT_FREE_INODE; lia|lia|repeat constructor; lia|reflexivity].
Qed.

Lemma demo_inode_ok : dinode_ok (copy_out demo_inode).
Proof.
  assert (0 <= NO_BLOCK < 2 ^ 32) as Hno by by vm_compute.
  split; cbn [demo_inode copy_out d_size d_nlinks d_perm d_type d_next_addr_block d_addrs i_size i_nlinks i_perm i_type
    next_addr_block addrs]; [lia|lia|lia|lia|exact Hno|repeat constructor; apply Hno|reflexivity].
Qed.

Section table_on.
Context (s : fs).
Hypothesis Hok : blocks_ok s.
Hypothesis Hrange : generic_block_start (sb s) <= 5 < total_blocks (sb s).
Hypothesis Halloc : allocated s 5 = true.

Lemma table_on_file : file_ok (table_on s) 0 small_inode [].
Proof.
  pose proof (blocks_ok_put s 5 (wr_bytes ∅ 0 (encode_dinode demo_head)) Hok Hrange) as Hput.
  apply small_ok; [destruct Hput; by split|reflexivity|done|].
  etransitivity; [|exact Halloc].
  apply (allocated_put s 5 (wr_bytes ∅ 0 (encode_dinode demo_head)) 5 Hok Hrange). destruct Hok. nlia.
Qed.

Lemma table_on_ok : table_ok (table_on s) (file_byte (table_on s) small_inode []).
Proof. exists small_inode, []. split_and!; [apply table_on_file|reflexivity|done]. Qed.

Lemma table_on_slot : slot (file_byte (table_on s) small_inode []) 0 = demo_head.
Proof.
  rewrite slot_eq. etransitivity; [|apply (decode_encode demo_head demo_head_ok)]. f_equal.
  change (0 * SIZEOF_DINODE) with 0. etransitivity; [|apply (rd_bytes_wr_bytes ∅ 0 (encode_dinode demo_head) (encode_bytes _))].
  rewrite slice_rd_bytes, <- (Nat2Z.id (length (encode_dinode demo_head))), (encode_length _ demo_head_ok).
  apply slice_ext. change (Z.of_nat (Z.to_nat SIZEOF_DINODE)) with 64. intros pos Hpos.
  unfold file_byte. rewrite small_file_block by nlia. rewrite (decide_True (P := pos / BLOCK_SIZE = 0)) by nlia.
  rewrite decide_False by done. replace (pos mod BLOCK_SIZE) with pos by nlia. f_equal.
  etransitivity; [apply (contents_put s 5 (wr_bytes ∅ 0 (encode_dinode demo_head)) 5)|by rewrite decide_True].
  apply (bo_cells _ Hok). destruct Hok. nlia.
Qed.

End table_on.

Lemma demo_range_5 : generic_block_start (sb demo_fs) <= 5 < total_blocks (sb demo_fs).
Proof. cbn. lia. Qed.

Definition demo_table : fs := table_on demo_fs.
Definition demo_bytes : Z -> Z := file_byte demo_table small_inode [].

Lemma demo_table_ok : table_ok demo_table demo_bytes.
Proof. exact (table_on_ok demo_fs demo_fs_ok demo_range_5 demo_allocated_5). Qed.

Lemma demo_slot_0 : slot demo_bytes 0 = demo_head.
Proof. exact (table_on_slot demo_fs demo_fs_ok demo_range_5). Qed.

Lemma demo_number_ok : inode_number_ok 2.
Proof. unfold inode_number_ok, SIZEOF_DINODE. lia. Qed.

Lemma flush_load_roundtrip_witness :
  kspec ((inode_flush 2 ;;; drop_inode 2 ;;; get_inode small_inode 2 ;;; inode_load 2) demo_table)
    (fun _ s' => exists i', inodes s' !! 2 = Some i' /\ copy_out i' = copy_out demo_inode /\ i_valid i' = true /\ i_dirty i' = false)
    no_room.
Proof.
  apply (flush_load_roundtrip demo_table demo_bytes 2 demo_inode small_inode);
    [exact demo_table_ok|exact demo_number_ok|reflexivity|reflexivity|].
  exact demo_inode_ok.
Defined.

Lemma free_alloc_inode_witness :
  kspec ((free_inode demo_head 2 ;;; alloc_inode small_inode) demo_table)
    (fun r s' => r = 2 /\ exists f', table_ok s' f' /\ slot f' 0 = slot demo_bytes 0 /\
       (forall j, j <> 0 -> j <> 2 -> slot f' j = slot demo_bytes j) /\
       exists i, inodes s' !! 2 = Some i /\ i_valid i = true /\ i_size i = 0 /\
         addrs i = replicate (Z.to_nat NUM_DIRECT_DATA) NO_BLOCK /\ next_addr_block i = NO_BLOCK)
    no_room.
Proof.
  apply (free_alloc_inode demo_table demo_bytes demo_head small_inode 2);
    [exact demo_table_ok|exact demo_number_ok|by rewrite demo_slot_0|exact demo_head_ok].
Defined.
