(* ===== verification/NfsTruncate.v ===== *)
(** * Truncation (src/os/fs/nfs/inode.cc)

    [truncate(0)] gives back every block of the file, and nothing else.  It
    does not reset the position cache of [data_rw]: the last theorem is a run
    in which a write after a truncation changes another file. *)
From S2P Require Import Prelude Memory Bitmap NfsBlock NfsInode NfsRep NfsData NfsFile NfsMeta.

(** ** Freeing a list of blocks *)

(** [s'] is [s] with the blocks [F] marked free; inode [n] may differ. *)
Record freed (s : fs) (n : Z) (F : list Z) (s' : fs) : Prop := {
  fd_ok : blocks_ok s';
  fd_layout : same_layout s s';
  fd_outside : same_outside_bitmaps s s';
  fd_alloc : forall x, 0 <= x < total_blocks (sb s) ->
    allocated s' x = negb (bool_decide (x ∈ F)) && allocated s x;
  fd_inodes : forall j, j <> n -> inodes s' !! j = inodes s !! j
}.

Lemma freed_step s n F s1 b :
  freed s n F s1 -> generic_block_start (sb s) <= b < total_blocks (sb s) ->
  exists s2, free_block b s1 = Ret tt s2 /\ freed s n (b :: F) s2 /\ inodes s2 = inodes s1.
Proof.
  intros [H1 H2 H3 H4 H5] Hb. pose proof H2 as (Ht & Hg & Htg).
  destruct (free_block_spec s1 b H1) as (s2 & Hrun & Hal & Hout & Hin & Hok & Hlay & _); [lia|].
  exists s2. split_and!; [done| |done]. split.
  - done.
  - unfold same_layout in *. intuition congruence.
  - intros x Hx. rewrite Hout by lia. by apply H3.
  - intros x Hx. rewrite Hal, H4, andb_assoc by lia. f_equal. rewrite <- negb_orb. f_equal.
    rewrite <- bool_decide_or. apply bool_decide_ext. by rewrite elem_of_cons.
  - intros j Hj. rewrite Hin. by apply H5.
Qed.

Lemma freed_inode s n F s1 g :
  freed s n F s1 -> freed s n F (FS (cells s1) (sb s1) (sb_dirty s1) (alter g n (inodes s1))).
Proof.
  intros [H1 H2 H3 H4 H5]. split; try done.
  - destruct H1. by split.
  - intros j Hj. cbn [inodes]. rewrite lookup_alter_ne by done. by apply H5.
Qed.

Lemma freed_contents s n F s1 b :
  freed s n F s1 -> generic_block_start (sb s) <= b -> contents s1 b = contents s b.
Proof. intros Hf Hb. unfold contents. rewrite (fd_outside _ _ _ _ Hf) by lia. done. Qed.

Section truncate.
Context (s : fs) (n : Z) (i : minode) (l : list Z).
Hypothesis Hok : file_ok s n i l.

Lemma owned_generic b : owned s i l b -> generic_block_start (sb s) <= b < total_blocks (sb s).
Proof. intros Hb. by destruct (fo_own _ _ _ _ Hok b Hb). Qed.

(** The entries of a list of blocks numbers that exist. *)
Lemma direct_owned k : 0 <= k < NUM_DIRECT_DATA -> nthZ (addrs i) k <> NO_BLOCK -> owned s i l (nthZ (addrs i) k).
Proof.
  intros Hk Hne. right. exists k. split_and!; [lia| |done]. unfold file_block. by rewrite decide_True by lia.
Qed.

Lemma entry_owned j a q :
  l !! j = Some a -> 0 <= q < NUM_ADDRS -> entry (contents s a) q <> NO_BLOCK -> owned s i l (entry (contents s a) q).
Proof.
  intros Hj Hq Hne. right. exists (NUM_DIRECT_DATA + Z.of_nat j * NUM_ADDRS + q). split_and!; [nlia| |done].
  unfold file_block. rewrite decide_False by nlia. replace (Z.to_nat _) with j by nlia. rewrite Hj. f_equal. nlia.
Qed.

(** The inode while its direct blocks are freed: the first [k] are gone. *)
Definition direct_gone (k : Z) (i1 : minode) : Prop :=
  length (addrs i1) = Z.to_nat NUM_DIRECT_DATA /\ next_addr_block i1 = next_addr_block i /\
  i_valid i1 = i_valid i /\
  forall k', 0 <= k' < NUM_DIRECT_DATA -> nthZ (addrs i1) k' = if decide (k' < k) then NO_BLOCK else nthZ (addrs i) k'.

Lemma free_direct_spec fuel k F s1 i1 :
  freed s n F s1 -> inodes s1 !! n = Some i1 -> 0 <= k -> k + Z.of_nat fuel = NUM_DIRECT_DATA -> direct_gone k i1 ->
  exists F' s2 i2, free_direct fuel n k s1 = Ret tt s2 /\ freed s n F' s2 /\ inodes s2 !! n = Some i2 /\
    direct_gone NUM_DIRECT_DATA i2 /\
    forall x, x ∈ F' <-> x ∈ F \/ exists k', k <= k' < NUM_DIRECT_DATA /\ nthZ (addrs i) k' = x /\ x <> NO_BLOCK.
Proof.
  revert k F s1 i1. induction fuel as [|fuel IH]; intros k F s1 i1 Hf Hi Hk Hkf Hg; cbn [free_direct].
  { exists F, s1, i1. assert (k = NUM_DIRECT_DATA) as -> by lia. split_and!; try done.
    intros x. split; [by left|]. intros [|(k' & Hk' & _)]; [done|lia]. }
  unfold kbind at 1, the_inode. rewrite Hi. pose proof Hg as (Hlen & Hnx & Hv & Hnth).
  assert (nthZ (addrs i1) k = nthZ (addrs i) k) as -> by (rewrite Hnth, decide_False by lia; done).
  destruct (Z.eqb_spec (nthZ (addrs i) k) NO_BLOCK) as [Hno|Hno].
  - destruct (IH (k + 1) F s1 i1) as (F' & s2 & i2 & Hrun & Hf2 & Hi2 & Hg2 & HF); [done|done|lia|lia| |].
    { split_and!; try done. intros k' Hk'. rewrite Hnth by done. repeat case_decide; try lia; try done.
      by replace k' with k by lia. }
    exists F', s2, i2. split_and!; try done. intros x. rewrite HF. split.
    + intros [|(k' & Hk' & Hx)]; [by left|right]. exists k'. split; [lia|done].
    + intros [|(k' & Hk' & Hx & Hne)]; [by left|right]. exists k'. split_and!; [|lia|done|done].
      destruct (decide (k' = k)); [congruence|lia].
  - destruct (freed_step s n F s1 (nthZ (addrs i) k) Hf) as (s2 & Hrun & Hf2 & Hin2).
    { apply owned_generic, direct_owned; [lia|done]. }
    unfold kbind. rewrite Hrun. unfold upd_inode, kmodify.
    match goal with |- context [alter ?g n (inodes s2)] => pose proof (freed_inode s n _ s2 g Hf2) as Hf3; set (s3 := FS _ _ _ _) in * end.
    match type of s3 with _ => edestruct (IH (k + 1) (nthZ (addrs i) k :: F) s3) as (F' & s4 & i4 & Hrun4 & Hf4 & Hi4 & Hg4 & HF) end;
      [exact Hf3|subst s3; cbn [inodes]; rewrite lookup_alter_eq, Hin2, Hi; reflexivity|lia|lia| |].
    { split_and!; cbn [addrs next_addr_block i_valid]; [by rewrite length_updZ|done|done|].
      intros k' Hk'. destruct (decide (k' = k)) as [->|Hne].
      - rewrite nthZ_updZ_eq, decide_True by (rewrite ?Hlen; nlia). done.
      - rewrite nthZ_updZ_ne, Hnth by lia. repeat case_decide; try lia; done. }
    exists F', s4, i4. split_and!; try done. intros x. rewrite HF, elem_of_cons. split.
    + intros [[->|]|(k' & Hk' & Hx)]; [|by left|]; right; [exists k; split_and!; [lia|lia|done|done]|].
      exists k'. split; [lia|done].
    + intros [|(k' & Hk' & Hx & Hne)]; [by left; right|]. destruct (decide (k' = k)) as [->|]; [by left; left|right].
      exists k'. split_and!; [lia|lia|done|done].
Qed.

Lemma free_entries_spec fuel j a k F s1 :
  freed s n F s1 -> l !! j = Some a -> 0 <= k -> k + Z.of_nat fuel = NUM_ADDRS ->
  exists F' s2, free_entries fuel a k s1 = Ret tt s2 /\ freed s n F' s2 /\ inodes s2 = inodes s1 /\
    forall x, x ∈ F' <-> x ∈ F \/ exists q, k <= q < NUM_ADDRS /\ entry (contents s a) q = x /\ x <> NO_BLOCK.
Proof.
  intros Hf Hj. revert k F s1 Hf. induction fuel as [|fuel IH]; intros k F s1 Hf Hk Hkf; cbn [free_entries].
  { exists F, s1. split_and!; try done. intros x. split; [by left|]. intros [|(q & Hq & _)]; [done|lia]. }
  assert (owned s i l a) as Ha by (left; by eapply list_elem_of_lookup_2).
  pose proof (owned_generic a Ha) as Har.
  rewrite bget_run by (rewrite (fd_outside _ _ _ _ Hf) by lia; apply (bo_cells _ (fo_blocks _ _ _ _ Hok));
    pose proof (bo_start _ (fo_blocks _ _ _ _ Hok)); nlia).
  rewrite (freed_contents s n F s1 a Hf) by lia.
  destruct (Z.eqb_spec (entry (contents s a) k) NO_BLOCK) as [Hno|Hno].
  - destruct (IH (k + 1) F s1 Hf) as (F' & s2 & Hrun & Hf2 & Hin & HF); [lia|lia|].
    exists F', s2. split_and!; try done. intros x. rewrite HF. split.
    + intros [|(q & Hq & Hx)]; [by left|right]. exists q. split; [lia|done].
    + intros [|(q & Hq & Hx & Hne)]; [by left|right]. exists q. split_and!; [|lia|done|done].
      destruct (decide (q = k)); [congruence|lia].
  - destruct (freed_step s n F s1 (entry (contents s a) k) Hf) as (s2 & Hrun & Hf2 & Hin2).
    { apply owned_generic. eapply entry_owned; [done|lia|done]. }
    unfold kbind. rewrite Hrun.
    destruct (IH (k + 1) (entry (contents s a) k :: F) s2 Hf2) as (F' & s3 & Hrun3 & Hf3 & Hin3 & HF); [lia|lia|].
    exists F', s3. split_and!; try done; [congruence|]. intros x. rewrite HF, elem_of_cons. split.
    + intros [[->|]|(q & Hq & Hx)]; [|by left|]; right; [exists k; split_and!; [lia|lia|done|done]|].
      exists q. split; [lia|done].
    + intros [|(q & Hq & Hx & Hne)]; [by left; right|]. destruct (decide (q = k)) as [->|]; [by left; left|right].
      exists q. split_and!; [lia|lia|done|done].
Qed.

(** The address blocks from number [j] on. *)
Lemma free_addr_blocks_spec fuel j F s1 :
  freed s n F s1 -> (length l - j <= fuel)%nat -> (j <= length l)%nat ->
  exists F' s2, free_addr_blocks fuel (default NO_BLOCK (l !! j)) s1 = Ret tt s2 /\ freed s n F' s2 /\ inodes s2 = inodes s1 /\
    forall x, x ∈ F' <-> x ∈ F \/ exists j' a, (j <= j')%nat /\ l !! j' = Some a /\
      (x = a \/ exists q, 0 <= q < NUM_ADDRS /\ entry (contents s a) q = x /\ x <> NO_BLOCK).
Proof.
  revert j F s1. induction fuel as [|fuel IH]; intros j F s1 Hf Hfuel Hj.
  all: destruct (l !! j) as [a|] eqn:Ea; cbn [from_option id free_addr_blocks].
  1: apply lookup_lt_Some in Ea; lia.
  1, 3: exists F, s1; rewrite Z.eqb_refl; split_and!; try done; intros x; split; [by left|];
    intros [|(j' & a & Hj' & Ha & _)]; [done|]; apply lookup_ge_None in Ea; apply lookup_lt_Some in Ha; lia.
  destruct (chain_lookup _ _ _ _ _ (fo_chain _ _ _ _ Hok) Ea) as [Hne Hnx].
  rewrite (proj2 (Z.eqb_neq _ _) Hne).
  assert (owned s i l a) as Ho by (left; by eapply list_elem_of_lookup_2).
  pose proof (owned_generic a Ho) as Har.
  assert (forall F' s', freed s n F' s' -> is_Some (cells s' !! a)) as Hcell.
  { intros F' s' Hf'. rewrite (fd_outside _ _ _ _ Hf') by lia. apply (bo_cells _ (fo_blocks _ _ _ _ Hok)).
    pose proof (bo_start _ (fo_blocks _ _ _ _ Hok)). nlia. }
  rewrite bget_run by by eapply Hcell.
  destruct (free_entries_spec (Z.to_nat NUM_ADDRS) j a 0 F s1 Hf Ea) as (F1 & s2 & Hrun & Hf2 & Hin2 & HF1); [lia|nlia|].
  rewrite (kbind_ret _ _ _ _ _ Hrun), bget_run by by eapply Hcell.
  rewrite (freed_contents s n F1 s2 a Hf2), Hnx by lia.
  destruct (freed_step s n F1 s2 a Hf2 Har) as (s3 & Hrun3 & Hf3 & Hin3). rewrite (kbind_ret _ _ _ _ _ Hrun3).
  apply lookup_lt_Some in Ea as Hjl.
  destruct (IH (S j) (a :: F1) s3 Hf3) as (F' & s4 & Hrun4 & Hf4 & Hin4 & HF); [lia|lia|].
  exists F', s4. split_and!; try done; [congruence|]. intros x. rewrite HF, elem_of_cons, HF1. split.
  - intros [[->|[Hx|(q & Hq & Hx)]]|(j' & a' & Hj' & Ha' & Hx)].
    + right. exists j, a. by split_and!; [|done|left].
    + by left.
    + right. exists j, a. split_and!; [done|done|right]. exists q. done.
    + right. exists j', a'. split_and!; [lia|done|done].
  - intros [Hx|(j' & a' & Hj' & Ha' & Hx)]; [by left; right; left|].
    destruct (decide (j' = j)) as [->|]; [|right; exists j', a'; split_and!; [lia|done|done]].
    simplify_eq. left. destruct Hx as [->|(q & Hq & Hx)]; [by left|right; right]. exists q. done.
Qed.

End truncate.



(** ** The position cache survives the truncation *)

(** A device of 64 blocks with two empty files. *)
Definition tiny_fs : fs :=
  FS (<[2 := Cell (wr_bytes ∅ 0 [7]) false (wr_bytes ∅ 0 [7])]> (blank 64))
    (Superblock NFS_MAGIC 64 61 0 2 3 2 (Dinode 0 0 0 0 0 [])) false
    (<[5 := empty_inode]> {[6 := empty_inode]}).

(** File 5 grows by one byte behind the direct blocks and is truncated; file 6
    then stores eight bytes 255, in a block that file 5 gave back; file 5
    stores one byte where it stopped before.  File 6 now reads back something
    else: the position cache of file 5 still named the old address block, and
    the new data block was entered there. *)
Theorem truncate_stale_cache :
  ret_val ((write_loaded 5 [1] DIRECT_DATA_SIZE ;;;
            truncate 64 5 0 ;;;
            data_rw true 6 (replicate 8 255) 0 8 ;;;
            data_rw true 5 [7] (DIRECT_DATA_SIZE + 1) 1 ;;;
            data_rw false 6 [] 0 8) tiny_fs) = Some (8, [255; 255; 255; 255; 5; 0; 0; 0]).
Proof. vm_compute. reflexivity. Qed.
