(* ===== verification/NfsDurable.v ===== *)
(** * Writing back (src/os/fs/nfs/inode.cc, nfs.cc)

    What reads and writes do to the marks that say what has to be written
    back: a block that is changed is marked dirty, so a clean buffer always has
    the contents of the device; the inode table and the superblock are marked
    when they change.  And what a write to the table leaves alone, with a fixed
    state as the point of reference, so that a sequence of writes can be
    followed. *)
From S2P Require Import Prelude Memory Bitmap NfsBlock NfsInode NfsRep NfsData NfsFile NfsMeta NfsTable.

(** ** Marks *)

(** A buffer that is not dirty has the contents of the device. *)
Definition clean_cells (s : fs) : Prop :=
  forall b c, cells s !! b = Some c -> dirty c = false -> ondisk c = cur c.

(** A table that is not dirty is the one in the superblock. *)
Definition table_clean (s : fs) : Prop :=
  forall t, inodes s !! INODE_TABLE_NUMBER = Some t -> i_valid t = true -> i_dirty t = false ->
    copy_out t = sb_inode_table (sb s).

Definition is_u32 (x : Z) : Prop := 0 <= x < 2 ^ 32.

(** The metadata of an inode has the width of its members. *)
Definition meta_ok (i : minode) : Prop :=
  is_u32 (i_size i) /\ 0 <= i_nlinks i < 2 ^ 16 /\ 0 <= i_perm i < 256 /\ 0 <= i_type i < 256.
Definition table_meta (s : fs) : Prop := forall t, inodes s !! INODE_TABLE_NUMBER = Some t -> meta_ok t.

Record marked (s s' : fs) : Prop := {
  mk_cells : clean_cells s -> clean_cells s';
  mk_sb : exists u nx, sb s' = set_next_free nx (set_used u (sb s)) /\
    (is_u32 (used_generic_blocks (sb s)) -> is_u32 u) /\ (is_u32 (next_free_bitmap (sb s)) -> is_u32 nx);
  mk_dirty : sb_dirty s = true -> sb_dirty s' = true;
  mk_table : table_clean s -> table_clean s';
  mk_meta : dinode_ok (sb_inode_table (sb s)) -> table_meta s -> table_meta s'
}.

#[export] Instance marked_refl : Reflexive marked.
Proof.
  intros s. split; try done. exists (used_generic_blocks (sb s)), (next_free_bitmap (sb s)). by destruct (sb s).
Qed.

#[export] Instance marked_trans : Transitive marked.
Proof.
  intros s1 s2 s3 [A1 (u & nx & A2 & A3 & A4) A5 A6 A7] [B1 (u' & nx' & B2 & B3 & B4) B5 B6 B7].
  split; [auto| |auto|auto|intros Hd Ht; apply B7; [by rewrite A2|by apply A7]].
  exists u', nx'. split_and!.
  - rewrite B2, A2. by destruct (sb s1).
  - intros Hu. apply B3. rewrite A2. by apply A3.
  - intros Hn. apply B4. rewrite A2. by apply A4.
Qed.

Lemma marked_same_sb s s' :
  (clean_cells s -> clean_cells s') -> sb s' = sb s -> (sb_dirty s = true -> sb_dirty s' = true) ->
  (table_clean s -> table_clean s') -> (dinode_ok (sb_inode_table (sb s)) -> table_meta s -> table_meta s') -> marked s s'.
Proof.
  intros H1 H2 H3 H4 H5. split; [done| |done|done|done].
  exists (used_generic_blocks (sb s)), (next_free_bitmap (sb s)). rewrite H2. by destruct (sb s).
Qed.

Lemma marked_get : krel marked (@kget fs).
Proof. intros s a s' [= <- <-]. reflexivity. Qed.

Lemma marked_assert b : krel marked (@kernel_assert fs b).
Proof. destruct b; [apply krel_ret, _|by apply krel_none]. Qed.

Lemma bget_inv b s m s' : bget b s = Ret m s' -> s' = s.
Proof. unfold bget. case_match; [|done]. intros. by simplify_eq. Qed.

Lemma marked_bget b : krel marked (bget b).
Proof. intros s a s' ->%bget_inv. reflexivity. Qed.

Lemma marked_the_inode n : krel marked (the_inode n).
Proof. intros s a s' Hs. unfold the_inode in Hs. case_match; [|done]. simplify_eq. reflexivity. Qed.

Lemma put_marked s b m : marked s (put s b m).
Proof.
  apply marked_same_sb; [|done|done|done|done]. intros Hc x c Hx Hd.
  destruct (decide (x = b)) as [->|Hne]; [|rewrite cells_put_ne in Hx by done; by eapply Hc].
  unfold put in Hx. cbn [with_cells cells] in Hx. rewrite lookup_alter_eq in Hx.
  destruct (cells s !! b); [|done]. cbn in Hx. by simplify_eq.
Qed.

Lemma marked_put {B} b m (k : K fs B) : krel marked k -> krel marked (bset b m ;;; bmark_dirty b ;;; k).
Proof. intros Hk s a s' Hs. rewrite put_run in Hs. etransitivity; [apply (put_marked s b m)|by eapply Hk]. Qed.

Lemma marked_put_last b m : krel marked (bset b m ;;; bmark_dirty b).
Proof. intros s a s' Hs. rewrite put_run_last in Hs. simplify_eq. apply put_marked. Qed.

(** An inode changes only with its dirty flag, or in members that are not
    written back. *)
Lemma marked_upd n f :
  (forall i, meta_ok i -> meta_ok (f i)) ->
  (forall i, i_dirty (f i) = true \/
    copy_out (f i) = copy_out i /\ i_dirty (f i) = i_dirty i /\ i_valid (f i) = i_valid i) ->
  krel marked (upd_inode n f).
Proof.
  intros Hm Hf s a s' Hs. unfold upd_inode, kmodify in Hs. simplify_eq.
  apply marked_same_sb; try done; [intros Ht t Hi Hv Hd|intros _ Ht t Hi]; cbn [inodes sb] in *;
    (destruct (decide (n = INODE_TABLE_NUMBER)) as [->|Hne]; [|rewrite lookup_alter_ne in Hi by done; by apply Ht]);
    rewrite lookup_alter_eq in Hi; destruct (inodes s !! INODE_TABLE_NUMBER) as [t0|] eqn:E; try done;
    cbn in Hi; simplify_eq; [|by apply Hm, Ht].
  destruct (Hf t0) as [Hd'|(-> & Hd' & Hv')]; [congruence|]. apply Ht; congruence.
Qed.

Lemma alloc_search_keeps fuel gbs bi last s r s' :
  alloc_search fuel gbs bi last s = Ret r s' -> s' = s /\ (is_u32 bi -> is_u32 (fst r)).
Proof.
  revert bi last. induction fuel as [|fuel IH]; intros bi last Hs; cbn [alloc_search] in Hs.
  { case_match; [done|]. by unfold kret in Hs; simplify_eq. }
  case_match; [|by unfold kret in Hs; simplify_eq]. kinv Hs.
  apply bget_inv in Hrun as ->.
  case_match; [|by unfold kret in Hs; simplify_eq].
  apply IH in Hs as [-> Hr]. split; [done|]. intros _. apply Hr. apply u32_range.
Qed.

Lemma marked_alloc : krel marked alloc_block.
Proof.
  intros s b s' Hs. unfold alloc_block in Hs. unfold kbind at 1, kget at 1 in Hs. case_match; [done|].
  rewrite (kbind_ret _ _ s tt (reset_next s)) in Hs by (unfold reset_next; by case_match).
  assert (marked s (reset_next s)) as Hr.
  { unfold reset_next. case_match; [|reflexivity]. split; try done.
    exists (used_generic_blocks (sb s)), BITMAP_BLOCK_INDEX. split_and!; [by destruct (sb s)|done|done]. }
  etransitivity; [exact Hr|]. set (s1 := reset_next s) in *. unfold kbind at 1, kget at 1 in Hs.
  apply kbind_inv_ret in Hs as ([bi [[buf i]|]] & s2 & Hsearch & Hs); [|done]. cbv beta iota zeta in Hs.
  apply alloc_search_keeps in Hsearch as [-> Hbi]. cbn [fst] in Hbi. case_match; [done|].
  apply kbind_inv_ret in Hs as (m & s2 & Hget & Hs).
  apply bget_inv in Hget as ->.
  rewrite put_run in Hs. etransitivity; [apply (put_marked s1 buf (bitmap_set m 0 i))|].
  case_match; [done|]. unfold kbind, kmodify, kret in Hs. simplify_eq. split; try done.
  cbn [sb put with_cells]. exists (u32 (used_generic_blocks (sb s1) + 1)), bi.
  split_and!; [done|intros _; apply u32_range|done].
Qed.

#[export] Hint Resolve marked_get marked_assert marked_bget marked_the_inode marked_put_last marked_alloc : krel.
#[export] Hint Extern 1 (krel marked (upd_inode _ _)) =>
  (apply marked_upd; [intros [] (? & ? & ? & ?); refine (conj _ (conj _ (conj _ _))); (assumption || apply u32_range)
    |intros []; ((by left) || (by right))]) : krel.

(** The computations of the inode layer. *)
Ltac kmarked :=
  repeat first
    [ apply marked_put_last
    | apply marked_put
    | progress (auto with krel)
    | apply krel_ret; apply _
    | apply krel_bind; [apply _| |intros ?]
    | case_match
    | by apply krel_none ].

Lemma marked_transfer w clear b doff buf size : krel marked (block_transfer w clear b doff buf size).
Proof. unfold block_transfer. kmarked. Qed.
#[export] Hint Resolve marked_transfer : krel.

Lemma marked_direct w n k doff buf size : krel marked (direct_data_block_rw w n k doff buf size).
Proof. unfold direct_data_block_rw. kmarked. Qed.

Lemma marked_block w a k doff buf size : krel marked (data_block_rw w a k doff buf size).
Proof. unfold data_block_rw. kmarked. Qed.

Lemma marked_clear b : krel marked (clear_addr_block b).
Proof. unfold clear_addr_block. kmarked. Qed.
#[export] Hint Resolve marked_direct marked_block marked_clear : krel.

Lemma marked_walk fuel a o : krel marked (walk_addr_blocks fuel a o).
Proof. revert a o. induction fuel as [|fuel IH]; intros a o; cbn [walk_addr_blocks]; kmarked. Qed.

Lemma marked_create fuel a o : krel marked (create_addr_blocks fuel a o).
Proof. revert a o. induction fuel as [|fuel IH]; intros a o; cbn [create_addr_blocks]; kmarked. Qed.
#[export] Hint Resolve marked_walk marked_create : krel.

Lemma marked_get_block_index a o : krel marked (get_block_index a o).
Proof. unfold get_block_index. kmarked. Qed.
#[export] Hint Resolve marked_get_block_index : krel.

Lemma marked_direct_loop fuel w n p : krel marked (direct_loop fuel w n p).
Proof. revert p. induction fuel as [|fuel IH]; intros p; cbn [direct_loop]; kmarked. Qed.

Lemma marked_indirect_loop fuel w a p : krel marked (indirect_loop fuel w a p).
Proof. revert a p. induction fuel as [|fuel IH]; intros a p; cbn [indirect_loop]; kmarked. Qed.
#[export] Hint Resolve marked_direct_loop marked_indirect_loop : krel.

Lemma marked_indirect w n p : krel marked (indirect_part w n p).
Proof. unfold indirect_part. kmarked. Qed.
#[export] Hint Resolve marked_indirect : krel.

Lemma marked_data_rw w n buf off size : krel marked (data_rw w n buf off size).
Proof. unfold data_rw. kmarked. Qed.
#[export] Hint Resolve marked_data_rw : krel.

Lemma marked_write_loaded n src off : krel marked (write_loaded n src off).
Proof. unfold write_loaded. kmarked. Qed.
#[export] Hint Resolve marked_write_loaded : krel.

Lemma marked_load_table : krel marked load_table.
Proof.
  intros s a s' Hs. unfold load_table, kbind at 1, the_inode in Hs.
  destruct (inodes s !! INODE_TABLE_NUMBER) as [t|] eqn:Ht; [|done].
  destruct (i_valid t); [unfold kret in Hs; simplify_eq; reflexivity|].
  unfold kbind, kget, upd_inode, kmodify in Hs. simplify_eq.
  apply marked_same_sb; try done; [intros _ t' Hi _ _|intros [] _ t' Hi];
    cbn [inodes sb] in *; rewrite !lookup_alter_eq, Ht in Hi; cbn in Hi; simplify_eq; [|done].
  by destruct (sb_inode_table (sb s)).
Qed.
#[export] Hint Resolve marked_load_table : krel.

Lemma marked_table_write src off : krel marked (table_write src off).
Proof. unfold table_write. kmarked. Qed.

Lemma marked_table_read off size : krel marked (table_read off size).
Proof. unfold table_read. kmarked. Qed.

Lemma marked_upd_other n f : n <> INODE_TABLE_NUMBER -> krel marked (upd_inode n f).
Proof.
  intros Hn s a s' Hs. unfold upd_inode, kmodify in Hs. simplify_eq.
  apply marked_same_sb; try done; [intros Ht t Hi|intros _ Ht t Hi]; apply Ht; cbn [inodes] in Hi; by rewrite lookup_alter_ne in Hi.
Qed.

(** Flushing an inode other than the table. *)
Lemma marked_flush n : n <> INODE_TABLE_NUMBER -> krel marked (inode_flush n).
Proof.
  intros Hn. unfold inode_flush, __flush. rewrite (proj2 (Z.eqb_neq _ _)) by done.
  pose proof marked_table_write. pose proof (fun f => marked_upd_other n f Hn). kmarked.
Qed.

(** ** The table relative to a fixed state *)

(** The state of a file depends on the blocks, the layout and its inode. *)
Lemma frep_move s0 n own0 m s s' i i' l :
  frep s0 n own0 m s i l -> cells s' = cells s -> same_layout s s' -> inodes s' !! n = Some i' ->
  addrs i' = addrs i -> next_addr_block i' = next_addr_block i -> cache_ok i' l ->
  frep s0 n own0 (meta i') s' i' l /\ forall pos, file_byte s' i' l pos = file_byte s i l pos.
Proof.
  intros [H1 H2 H3 H4 H5 H6 H7 H8 H9] Hc (Ht & Hg & _) Hi Ha Hn Hca.
  assert (forall x, contents s' x = contents s x) as Hcon by (intros x; unfold contents; by rewrite Hc).
  assert (forall k, file_block s' i' l k = file_block s i l k) as Hfb.
  { intros k. apply file_block_agree; [done|]. intros x q _ _. by rewrite Hcon. }
  split; [|intros pos; by apply file_byte_agree]. split; try done.
  - by rewrite Ha.
  - rewrite Hn. eapply chain_agree; [|exact H3]. intros x _. by rewrite Hcon.
  - intros b Hb. unfold allocated. rewrite Ht, Hg, Hcon. apply H5.
    destruct Hb as [|(k & Hk & Hkb & Hne)]; [by left|right]. exists k. by rewrite <- Hfb.
  - intros k k'. rewrite !Hfb. apply H6.
  - intros k. rewrite Hfb. apply H7.
Qed.

Lemma fenv_move s0 n own0 s I s' :
  fenv s0 n own0 s -> cells s' = cells s -> same_layout s s' -> BITMAP_BLOCK_INDEX <= next_free_bitmap (sb s') ->
  (forall j, j <> n -> inodes s' !! j = I !! j) -> fenv (FS (cells s0) (sb s0) (sb_dirty s0) I) n own0 s'.
Proof.
  intros [H1 H2 H3 H4 H5] Hc (Ht & Hg & Htg) Hn Hi.
  assert (forall x, allocated s' x = allocated s x) as Hal by (intros x; unfold allocated, contents; by rewrite Hc).
  split; cbn [sb cells inodes].
  - destruct H1. split; rewrite ?Ht, ?Hg, ?Hc; try done. intros b Hb. rewrite Hal. auto.
  - unfold same_layout in *. cbn [sb]. intuition congruence.
  - intros b Hb Hm. rewrite Hc. by apply H3.
  - intros b Hb Hb0. rewrite Hal. by apply H4.
  - done.
Qed.

Lemma holds_kept s0 n own0 m s i l f s' i' l' f' :
  holds s0 n own0 m s i l f -> holds s0 n own0 m s' i' l' f' ->
  (forall j, j <> n -> inodes s' !! j = inodes s !! j) /\ i_valid i' = i_valid i.
Proof.
  intros (He & Hr & _) (He' & Hr' & _). split.
  - intros j Hj. by rewrite (fe_others _ _ _ _ He'), (fe_others _ _ _ _ He).
  - pose proof (fr_meta _ _ _ _ _ _ _ Hr). pose proof (fr_meta _ _ _ _ _ _ _ Hr'). unfold meta in *. congruence.
Qed.

Section framed.
Context (s0 : fs) (own0 : Z -> Prop).

(** The table has the bytes [f]; since [s0] only the blocks it owned then and
    the blocks that were free then have changed. *)
Definition table_at (s : fs) (f : Z -> Z) : Prop :=
  exists I t l m, holds (FS (cells s0) (sb s0) (sb_dirty s0) I) INODE_TABLE_NUMBER own0 m s t l f /\ i_valid t = true.

Lemma table_at_ok s f : table_at s f -> table_ok s f.
Proof.
  intros (I & t & l & m & Hh & Hv). exists t, l. split_and!; [by eapply holds_file_ok|done|]. by destruct Hh as (_ & _ & Hf).
Qed.

Lemma table_at_ext s f g : (forall pos, 0 <= pos -> f pos = g pos) -> table_at s f -> table_at s g.
Proof. intros Hfg (I & t & l & m & Hh & Hv). exists I, t, l, m. split; [by eapply holds_ext|done]. Qed.

(** Changing the other inodes, the superblock outside its layout, and the
    metadata of the table. *)
Lemma table_at_move s s' f t t' :
  table_at s f -> cells s' = cells s -> same_layout s s' -> BITMAP_BLOCK_INDEX <= next_free_bitmap (sb s') ->
  inodes s !! INODE_TABLE_NUMBER = Some t -> inodes s' !! INODE_TABLE_NUMBER = Some t' ->
  addrs t' = addrs t -> next_addr_block t' = next_addr_block t -> i_valid t' = true ->
  cache_raw_indirect_offset t' = cache_raw_indirect_offset t -> cache_offset t' = cache_offset t ->
  cache_addr_block t' = cache_addr_block t -> table_at s' f.
Proof.
  intros (I & t0 & l & m & (He & Hr & Hf) & Hv) Hc Hl Hn Hi Hi' Ha Hnx Hv' C1 C2 C3.
  assert (t0 = t) as -> by (rewrite (fr_inode _ _ _ _ _ _ _ Hr) in Hi; congruence).
  destruct (frep_move _ _ _ _ s s' t t' l Hr Hc Hl Hi' Ha Hnx) as [Hr' Hf'].
  { unfold cache_ok. rewrite C1, C2, C3. apply Hr. }
  exists (inodes s'), t', l, (meta t'). split; [|done]. split_and!.
  - apply (fenv_move _ _ _ s (inodes s') s' He); done.
  - destruct Hr' as [R1 R2 R3 R4 R5 R6 R7 R8 R9]. by split.
  - intros pos Hpos. rewrite Hf'. by apply Hf.
Qed.

Lemma table_at_read s f off size :
  table_at s f -> 0 <= off -> 0 <= size -> off + size <= 2 ^ 32 ->
  kspec (table_read off size s)
    (fun r s' => r = (size, slice f off (Z.to_nat size)) /\ table_at s' f /\ others_kept s s') no_room.
Proof.
  intros Ht Ho Hs Hos. unfold table_read.
  rewrite (kbind_ret _ _ _ _ _ (load_table_run s f (table_at_ok _ _ Ht))).
  destruct Ht as (I & t & l & m & Hh & Hv). eapply kspec_mono.
  - eapply (data_rw_spec _ _ _ _ false f [] off size); [done|lia|exact Hh].
  - intros r s' (-> & t' & l' & Hh'). destruct (holds_kept _ _ _ _ _ _ _ _ _ _ _ _ Hh Hh') as [Hk Hv'].
    split_and!; [done| |exact Hk]. exists I, t', l', m. split; [exact Hh'|congruence].
  - by intros s' (i' & l' & c & _ & _ & _ & Hn & _).
Qed.

Lemma table_at_write s f src off :
  table_at s f -> bytes src -> 0 <= off -> off + Z.of_nat (length src) <= 2 ^ 32 ->
  kspec (table_write src off s) (fun _ s' => table_at s' (overwrite f off src) /\ others_kept s s') no_room.
Proof.
  intros Ht Hb Ho Hos. unfold table_write.
  rewrite (kbind_ret _ _ _ _ _ (load_table_run s f (table_at_ok _ _ Ht))).
  destruct Ht as (I & t & l & m & Hh & Hv). unfold write_loaded.
  eapply (kspec_seq _ _ _ (fun r s' => table_at s' (overwrite f off src) /\ others_kept s s')); [|done|].
  - eapply kspec_mono; [eapply (data_rw_spec _ _ _ _ true f src off (Z.of_nat (length src)));
      [by split|lia|exact Hh]| |by intros s' (i' & l' & c & _ & _ & _ & Hn & _)].
    intros r s' (_ & t' & l' & Hh'). destruct (holds_kept _ _ _ _ _ _ _ _ _ _ _ _ Hh Hh') as [Hk Hv'].
    split; [|exact Hk]. exists I, t', l', m. split; [|congruence].
    eapply holds_ext; [|exact Hh']. intros pos _. unfold f_at, after. by rewrite take_ge by lia.
  - intros [w out] s' [Ht' Hk]. cbv beta iota. pose proof Ht' as (I' & t' & l' & m' & (He' & Hr' & _) & Hv').
    unfold kbind at 1, the_inode. pose proof (fr_inode _ _ _ _ _ _ _ Hr') as Hi. rewrite Hi.
    destruct (_ <? _); [|by split]. unfold upd_inode, kbind, kmodify, kret. cbn [kspec]. split.
    + eapply (table_at_move s' _ _ t' (set_isize (u32 (off + w)) t')); try done; [apply He'|]. cbn [inodes]. by rewrite lookup_alter_eq, Hi.
    + intros j Hj. cbn [inodes]. rewrite lookup_alter_ne by congruence. by apply Hk.
Qed.

Lemma table_at_slot s f k d :
  table_at s f -> dinode_ok d -> 0 <= k -> k * SIZEOF_DINODE + SIZEOF_DINODE <= 2 ^ 32 ->
  kspec (table_write (encode_dinode d) (k * SIZEOF_DINODE) s)
    (fun _ s' => exists f', table_at s' f' /\ slot f' k = d /\ (forall j, j <> k -> slot f' j = slot f j) /\ others_kept s s')
    no_room.
Proof.
  intros Ht Hd Hk Hr. eapply kspec_mono; [apply (table_at_write s f)| |done].
  - done.
  - apply encode_bytes.
  - change SIZEOF_DINODE with 64. lia.
  - rewrite (encode_length _ Hd). done.
  - intros _ s' [Ht' Ho]. eexists. split_and!; [exact Ht'|by apply slot_overwrite_eq| |done].
    intros j Hj. by apply slot_overwrite_ne.
Qed.

End framed.
