(* ===== verification/NfsMount.v ===== *)
(** * Mounting and unmounting (src/os/fs/nfs/nfs.cc)

    [mount] reads the superblock of a device, [unmount] writes back the inodes,
    the inode table and the superblock and drops the buffers.  A file survives
    both: its inode and its bytes are the same on the file system that is
    mounted next.

    [fresh_inode] is a new [nfs_inode] object; [recycled] is the object the
    inode cache reuses; [order] is the order of the inode cache. *)
From S2P Require Import Prelude Memory Bitmap NfsBlock NfsInode NfsRep NfsData NfsFile NfsMeta NfsTable NfsDurable.

(** ** Definitions *)

Definition encode_superblock (b : superblock) : list Z :=
  le 4 (magic b) ++ le 4 (total_blocks b) ++ le 4 (total_generic_blocks b) ++ le 4 (used_generic_blocks b) ++
  le 4 (ninodes b) ++ le 4 (generic_block_start b) ++ le 4 (next_free_bitmap b) ++ encode_dinode (sb_inode_table b).
Definition decode_superblock (m : memory) : superblock :=
  Superblock (load32 m 0) (load32 m 4) (load32 m 8) (load32 m 12) (load32 m 16) (load32 m 20) (load32 m 24)
    (decode_dinode (rd_bytes (Z.to_nat SIZEOF_DINODE) m 28)).

(** [kernel_inode_cache.destroy]: the inodes nobody uses are flushed. *)
Fixpoint flush_inodes (order : list Z) : K fs unit :=
  match order with
  | [] => kret tt
  | n :: order' =>
      inode_flush n ;;;
      kmodify (fun s => FS (cells s) (sb s) (sb_dirty s) (delete n (inodes s))) ;;;
      flush_inodes order'
  end.

(** [kernel_block_buffer.destroy]. *)
Definition evict_all (s : fs) : fs := FS (evict_cell <$> cells s) (sb s) (sb_dirty s) (inodes s).

(** [unmount] from [inode_table->flush()] on. *)
Definition unmount_end : K fs unit :=
  inode_flush INODE_TABLE_NUMBER ;;;
  kmodify (fun s => FS (cells s) (sb s) (sb_dirty s) (delete INODE_TABLE_NUMBER (inodes s))) ;;;
  s <- kget ;;
  (if sb_dirty s then
     m <- bget SUPER_BLOCK_INDEX ;;
     bset SUPER_BLOCK_INDEX (wr_bytes m 0 (encode_superblock (sb s))) ;;;
     bmark_dirty SUPER_BLOCK_INDEX ;;;
     kmodify (fun s => FS (cells s) (sb s) false (inodes s))
   else kret tt) ;;;
  kmodify evict_all.

(** [unmount], when no inode is in use. *)
Definition unmount (order : list Z) : K fs unit :=
  flush_inodes order ;;;
  unmount_end.

(** [mount]: the superblock, the root inode and the inode table. *)
Definition mount (fresh_inode recycled : minode) : K fs unit :=
  m <- bget SUPER_BLOCK_INDEX ;;
  if negb (load32 m 0 =? NFS_MAGIC) then kfail
  else
    kmodify (fun s => FS (cells s) (decode_superblock m) false (inodes s)) ;;;
    get_inode recycled ROOT_INODE_NUMBER ;;;
    kmodify (fun s => FS (cells s) (sb s) (sb_dirty s) (<[INODE_TABLE_NUMBER := fresh_inode]> (inodes s))).

(** ** The superblock on disk *)

Record sb_ok (b : superblock) : Prop := {
  sk_magic : magic b = NFS_MAGIC;
  sk_total : is_u32 (total_blocks b);
  sk_generic : is_u32 (total_generic_blocks b);
  sk_used : is_u32 (used_generic_blocks b);
  sk_ninodes : is_u32 (ninodes b);
  sk_start : is_u32 (generic_block_start b);
  sk_next : is_u32 (next_free_bitmap b);
  sk_table : dinode_ok (sb_inode_table b)
}.

Lemma decode_encode_superblock b m : sb_ok b -> decode_superblock (wr_bytes m 0 (encode_superblock b)) = b.
Proof.
  intros [H1 H2 H3 H4 H5 H6 H7 H8]. destruct b as [ma to ge us ni st nx tb].
  cbn [magic total_blocks total_generic_blocks used_generic_blocks ninodes generic_block_start next_free_bitmap
    sb_inode_table] in *. unfold decode_superblock, encode_superblock, is_u32 in *.
  cbn [magic total_blocks total_generic_blocks used_generic_blocks ninodes generic_block_start next_free_bitmap
    sb_inode_table]. f_equal.
  - rewrite H1. by apply (load_field_here 4).
  - rewrite load_field_skip. by apply (load_field_here 4).
  - rewrite 2!load_field_skip. by apply (load_field_here 4).
  - rewrite 3!load_field_skip. by apply (load_field_here 4).
  - rewrite 4!load_field_skip. by apply (load_field_here 4).
  - rewrite 5!load_field_skip. by apply (load_field_here 4).
  - rewrite 6!load_field_skip. by apply (load_field_here 4).
  - rewrite !wr_bytes_app, !length_le. etransitivity; [|apply (decode_encode tb H8)]. f_equal.
    rewrite <- (encode_length tb H8), Nat2Z.id. apply rd_bytes_wr_bytes, encode_bytes.
Qed.

(** ** The flush of the inodes *)

Section flush.
Context (s0 : fs) (own0 : Z -> Prop).

Lemma table_at_inode s f : table_at s0 own0 s f -> exists t, inodes s !! INODE_TABLE_NUMBER = Some t /\ i_valid t = true.
Proof. intros (I & t & l & m & (_ & Hr & _) & Hv). exists t. split; [apply Hr|done]. Qed.

Lemma table_at_next s f : table_at s0 own0 s f -> BITMAP_BLOCK_INDEX <= next_free_bitmap (sb s).
Proof. intros (I & t & l & m & (He & _) & _). apply He. Qed.

(** The frame: the blocks that were allocated and not the table's. *)
Lemma table_at_frame s f :
  table_at s0 own0 s f -> blocks_ok s /\ same_layout s0 s /\
    forall b, generic_block_start (sb s0) <= b < total_blocks (sb s0) -> 0 <= b -> allocated s0 b = true -> ~ own0 b ->
      contents s b = contents s0 b /\ allocated s b = true.
Proof.
  intros (I & t & l & m & ([E1 E2 E3 E4 _] & _) & _). split_and!; [done|done|]. intros b Hb Hb0 Ha Ho. split.
  - unfold contents. rewrite E3; [done|cbn [sb]; lia|]. intros [Hb'|Hb']; [done|].
    change (allocated s0 b = false) in Hb'. congruence.
  - apply E4; [cbn [sb]; lia|done].
Qed.

(** Steps that change only other inodes. *)
Lemma table_at_others s s' f :
  table_at s0 own0 s f -> cells s' = cells s -> sb s' = sb s ->
  inodes s' !! INODE_TABLE_NUMBER = inodes s !! INODE_TABLE_NUMBER -> table_at s0 own0 s' f.
Proof.
  intros Ht Hc Hs Hi. destruct (table_at_inode s f Ht) as (t & Hit & Hv).
  apply (table_at_move s0 own0 s s' f t t); try done; unfold same_layout; rewrite ?Hs, ?Hi; try done.
  by apply (table_at_next s f).
Qed.

(** The slot of an inode after its flush. *)
Definition flushed (i : minode) (old : dinode) : dinode := if i_valid i && i_dirty i then copy_out i else old.

Lemma flush_at s f n i :
  table_at s0 own0 s f -> inode_number_ok n -> inodes s !! n = Some i -> dinode_ok (copy_out i) ->
  kspec (inode_flush n s)
    (fun _ s' => exists f', table_at s0 own0 s' f' /\ slot f' n = flushed i (slot f n) /\
       (forall j, j <> n -> slot f' j = slot f j) /\
       (forall j, j <> INODE_TABLE_NUMBER -> j <> n -> inodes s' !! j = inodes s !! j))
    no_room.
Proof.
  intros Ht [Hn Hr] Hi Hd. unfold inode_flush, flushed. unfold kbind at 1, the_inode. rewrite Hi.
  destruct (i_valid i && i_dirty i); [|by exists f].
  unfold __flush. rewrite (proj2 (Z.eqb_neq n INODE_TABLE_NUMBER)) by (unfold INODE_TABLE_NUMBER; lia).
  eapply (kspec_seq _ _ _ (fun _ s' => exists f', table_at s0 own0 s' f' /\ slot f' n = copy_out i /\
       (forall j, j <> n -> slot f' j = slot f j) /\ others_kept s s')); [|done|].
  - unfold kbind at 1, the_inode. rewrite Hi.
    rewrite (kbind_ret _ _ _ _ _ (load_table_run s f (table_at_ok _ _ _ _ Ht))).
    eapply kspec_seq; [apply (table_at_slot s0 own0 s f n); done || lia|done|]. intros _ s' (f' & Hs'). by exists f'.
  - intros _ s' (f' & Ht' & Hs & Ho & Hk). exists f'. cbn [kspec upd_inode kmodify]. split_and!; [|done|done|].
    + apply (table_at_others s'); [done|done|done|]. cbn [inodes].
      apply lookup_alter_ne. unfold INODE_TABLE_NUMBER. lia.
    + intros j Hj Hjn. cbn [inodes]. rewrite lookup_alter_ne by done. by apply Hk.
Qed.

Lemma marked_drop n :
  n <> INODE_TABLE_NUMBER -> krel marked (kmodify (fun s => FS (cells s) (sb s) (sb_dirty s) (delete n (inodes s)))).
Proof.
  intros Hn s a s' Hs. unfold kmodify in Hs. simplify_eq.
  apply marked_same_sb; try done; [intros Ht t Hi|intros _ Ht t Hi]; apply Ht; cbn [inodes] in Hi; by rewrite lookup_delete_ne in Hi.
Qed.

Lemma flush_inodes_at order s f :
  table_at s0 own0 s f -> NoDup order ->
  (forall n, n ∈ order -> inode_number_ok n /\ exists i, inodes s !! n = Some i /\ dinode_ok (copy_out i)) ->
  kspec (flush_inodes order s)
    (fun _ s' => (exists f', table_at s0 own0 s' f' /\
       (forall k, k ∉ order -> slot f' k = slot f k) /\
       (forall k i, k ∈ order -> inodes s !! k = Some i -> slot f' k = flushed i (slot f k)) /\
       (forall j, j <> INODE_TABLE_NUMBER -> j ∉ order -> inodes s' !! j = inodes s !! j) /\
       (forall j, j ∈ order -> inodes s' !! j = None)) /\ marked s s')
    no_room.
Proof.
  revert s f. induction order as [|n order IH]; intros s f Ht Hnd Hall; cbn [flush_inodes].
  { cbn [kret kspec]. split; [|reflexivity]. exists f. split_and!; try done. by intros k i ?%not_elem_of_nil. by intros k ?%not_elem_of_nil. }
  apply NoDup_cons in Hnd as [Hnin Hnd]. destruct (Hall n) as (Hn & i & Hi & Hd); [by left|].
  assert (n <> INODE_TABLE_NUMBER) as Hn0 by (destruct Hn; unfold INODE_TABLE_NUMBER; lia).
  eapply kspec_seq; [apply kspec_krel; [by apply (flush_at s f n i)|by apply marked_flush]|done|].
  intros _ s1 [(f1 & Ht1 & Hs1 & Ho1 & Hk1) Hm1]. unfold kbind, kmodify.
  set (s2 := FS _ _ _ _).
  assert (marked s1 s2) as Hm2 by by eapply (marked_drop n Hn0).
  eapply kspec_mono; [apply (IH s2 f1)| |done].
  - apply (table_at_others s1); [done|done|done|]. subst s2. cbn [inodes]. by apply lookup_delete_ne.
  - done.
  - intros k Hk. destruct (Hall k) as (Hko & i' & Hi' & Hd'); [by right|]. split; [done|]. exists i'. split; [|done].
    subst s2. cbn [inodes]. assert (k <> n) by (intros ->; done).
    rewrite lookup_delete_ne, Hk1; [done| |done|done]. destruct Hko. unfold INODE_TABLE_NUMBER. lia.
  - intros _ s' [(f' & Ht' & Hout & Hin & Hj & Hg) Hm']. split; [|by rewrite Hm1, Hm2]. exists f'. split_and!; [done| | | |].
    + intros k [Hkn Hk]%not_elem_of_cons. by rewrite Hout, Ho1.
    + intros k i' Hk Hi'. destruct (decide (k = n)) as [->|Hne].
      * rewrite Hout by done. rewrite Hs1. congruence.
      * apply elem_of_cons in Hk as [|Hk]; [done|]. rewrite (Hin k i'), Ho1; [done|done|done|].
        destruct (Hall k) as (Hko & _); [by right|]. subst s2. cbn [inodes].
        rewrite lookup_delete_ne, Hk1; [done| |done|done]. destruct Hko. unfold INODE_TABLE_NUMBER. lia.
    + intros j Hj0 [Hjn Hjo]%not_elem_of_cons. rewrite Hj by done. subst s2. cbn [inodes].
      rewrite lookup_delete_ne by done. by apply Hk1.
    + intros j Hjc. destruct (decide (j ∈ order)) as [|Hjo]; [by apply Hg|].
      apply elem_of_cons in Hjc as [->|]; [|done]. rewrite Hj by done. subst s2. apply lookup_delete_eq.
Qed.

End flush.

(** ** The end of [unmount] *)

(** The members of a file's inode fit the members of a [dinode]. *)
Lemma file_dinode_ok s n i l : file_ok s n i l -> meta_ok i -> dinode_ok (copy_out i).
Proof.
  intros Hf (M1 & M2 & M3 & M4). pose proof (fo_blocks _ _ _ _ Hf) as Hok.
  assert (forall b, owned s i l b -> 0 <= b < 2 ^ 32) as Ho.
  { intros b [Hb _]%(fo_own _ _ _ _ Hf). destruct Hok. nlia. }
  split; try done; cbn [copy_out d_next_addr_block d_addrs].
  - pose proof (chain_head _ _ _ (fo_chain _ _ _ _ Hf)) as ->. destruct l as [|x l]; [done|]. cbn. apply Ho. left. by left.
  - apply Forall_lookup. intros k x Hk.
    assert (Z.of_nat k < NUM_DIRECT_DATA) by (apply lookup_lt_Some in Hk; rewrite (fo_len _ _ _ _ Hf) in Hk; nlia).
    destruct (decide (x = NO_BLOCK)) as [->|Hne]; [done|]. apply Ho. right. exists (Z.of_nat k). split_and!; [lia| |done].
    unfold file_block. rewrite decide_True by done. apply nthZ_lookup. by rewrite Nat2Z.id.
  - by rewrite (fo_len _ _ _ _ Hf).
Qed.

(** The same file system: what [mount] needs of the superblock. *)
Record same_sb (b b' : superblock) : Prop := {
  ss_magic : magic b = magic b';
  ss_total : total_blocks b = total_blocks b';
  ss_generic : total_generic_blocks b = total_generic_blocks b';
  ss_start : generic_block_start b = generic_block_start b';
  ss_table : sb_inode_table b = sb_inode_table b';
  ss_next : BITMAP_BLOCK_INDEX <= next_free_bitmap b
}.

Lemma cells_put_some s b m x : is_Some (cells (put s b m) !! x) <-> is_Some (cells s !! x).
Proof.
  destruct (decide (x = b)) as [->|]; [|by rewrite cells_put_ne].
  unfold put. cbn [with_cells cells]. by rewrite lookup_alter_eq, fmap_is_Some.
Qed.

Lemma contents_evict_all s b : clean_cells s -> contents (evict_all s) b = contents s b.
Proof.
  intros Hc. unfold contents, evict_all. cbn [cells]. rewrite lookup_fmap.
  destruct (cells s !! b) as [c|] eqn:E; [|done]. cbn.
  unfold evict_cell. destruct (dirty c) eqn:Ed; cbn [cur]; [done|by apply (Hc b)].
Qed.

Lemma cells_evict_all s b : is_Some (cells (evict_all s) !! b) <-> is_Some (cells s !! b).
Proof. unfold evict_all. cbn [cells]. by rewrite lookup_fmap, fmap_is_Some. Qed.

Lemma set_table_same b d : sb_inode_table b = d -> set_table d b = b.
Proof. intros <-. by destruct b. Qed.

(** The flush of the table, and its removal from the cache. *)
Lemma flush_table_run s t :
  inodes s !! INODE_TABLE_NUMBER = Some t -> i_valid t = true -> table_clean s ->
  exists sd, (sb_dirty s = true -> sd = true) /\ (sd = false -> sb_dirty s = false /\ copy_out t = sb_inode_table (sb s)) /\
    forall {B} (k : K fs B), (inode_flush INODE_TABLE_NUMBER ;;;
     kmodify (fun s => FS (cells s) (sb s) (sb_dirty s) (delete INODE_TABLE_NUMBER (inodes s))) ;;; k) s =
    k (FS (cells s) (set_table (copy_out t) (sb s)) sd (delete INODE_TABLE_NUMBER (inodes s))).
Proof.
  intros Hi Hv Hc. unfold inode_flush. unfold kbind at 2, the_inode. destruct (i_dirty t) eqn:Hd.
  - exists true. split_and!; [done|done|]. intros B k. unfold kbind at 1. rewrite Hi, Hv, Hd. cbn [andb].
    unfold __flush, upd_inode, kbind, the_inode, kmodify. rewrite Hi. cbn [Z.eqb INODE_TABLE_NUMBER inodes cells sb sb_dirty].
    by rewrite delete_alter_eq.
  - exists (sb_dirty s). split_and!; [done|intros ->; split; [done|by apply Hc]|]. intros B k.
    unfold kbind at 1. rewrite Hi, Hv, Hd. cbn [andb kret]. unfold kbind, kmodify.
    rewrite set_table_same; [done|]. symmetry. by apply Hc.
Qed.

Lemma decode_magic m : magic (decode_superblock m) = load32 m 0.
Proof. reflexivity. Qed.

Lemma unmount_end_run s t :
  inodes s !! INODE_TABLE_NUMBER = Some t -> i_valid t = true -> table_clean s -> clean_cells s ->
  sb_ok (sb s) -> dinode_ok (copy_out t) -> is_Some (cells s !! SUPER_BLOCK_INDEX) ->
  BITMAP_BLOCK_INDEX <= next_free_bitmap (sb s) ->
  (sb_dirty s = false -> same_sb (decode_superblock (contents s SUPER_BLOCK_INDEX)) (sb s)) ->
  exists s', unmount_end s = Ret tt s' /\
    same_sb (decode_superblock (contents s' SUPER_BLOCK_INDEX)) (set_table (copy_out t) (sb s)) /\
    (forall b, b <> SUPER_BLOCK_INDEX -> contents s' b = contents s b) /\
    (forall b, is_Some (cells s' !! b) <-> is_Some (cells s !! b)) /\
    inodes s' = delete INODE_TABLE_NUMBER (inodes s).
Proof.
  intros Hi Hv Ht Hc [K1 K2 K3 K4 K5 K6 K7 K8] Hd H1 Hn Hclean.
  destruct (flush_table_run s t Hi Hv Ht) as (sd & Hsd & Hcl & Hrun).
  unfold unmount_end. rewrite Hrun. clear Hrun. set (s2 := FS _ _ _ _). unfold kbind at 1, kget. destruct sd.
  - set (s3 := put s2 SUPER_BLOCK_INDEX (wr_bytes (contents s2 SUPER_BLOCK_INDEX) 0 (encode_superblock (sb s2)))).
    assert (clean_cells s3) as Hc3 by by apply (mk_cells _ _ (put_marked s2 _ _)).
    exists (evict_all (FS (cells s3) (sb s3) false (inodes s3))). split_and!.
    + unfold kbind at 1. cbn [sb_dirty s2]. rewrite bget_run, put_run by done. reflexivity.
    + rewrite contents_evict_all by done. change (contents (FS _ _ _ _) _) with (contents s3 SUPER_BLOCK_INDEX).
      unfold s3. rewrite contents_put, decide_True by done. rewrite decode_encode_superblock by by split. by split.
    + intros b Hb. rewrite contents_evict_all by done. change (contents (FS _ _ _ _) _) with (contents s3 b).
      unfold s3. by rewrite contents_put, decide_False by done.
    + intros b. rewrite cells_evict_all. exact (cells_put_some s2 _ _ b).
    + reflexivity.
  - destruct Hcl as [Hsd0 Htb]; [done|]. exists (evict_all s2). split_and!.
    + reflexivity.
    + rewrite contents_evict_all by done. rewrite set_table_same by done. by apply Hclean.
    + intros b Hb. by rewrite contents_evict_all.
    + intros b. by rewrite cells_evict_all.
    + reflexivity.
Qed.

(** ** From one mount to the next *)

(** A file whose blocks kept their contents is the same file, for every inode
    object with its addresses. *)
Lemma file_ok_carry s s' n n' i i' l :
  file_ok s n i l -> blocks_ok s' -> same_layout s s' ->
  (forall b, owned s i l b -> contents s' b = contents s b /\ allocated s' b = true) ->
  inodes s' !! n' = Some i' -> addrs i' = addrs i -> next_addr_block i' = next_addr_block i -> cache_ok i' l ->
  file_ok s' n' i' l /\ (forall b, owned s' i' l b -> owned s i l b) /\
  forall pos, 0 <= pos -> file_byte s' i' l pos = file_byte s i l pos.
Proof.
  intros [H1 H2 H3 H4 H5 H6 H7 H8 H9] Hok (Ht & Hg & _) Hc Hi Ha Hn Hca.
  assert (forall k, file_block s' i' l k = file_block s i l k) as Hfb.
  { intros k. apply file_block_agree; [done|]. intros x q Hx _. by rewrite (proj1 (Hc x (or_introl Hx))). }
  assert (forall b, owned s' i' l b -> owned s i l b) as Ho.
  { intros b [|(k & Hk & Hkb & Hne)]; [by left|right]. exists k. by rewrite <- Hfb. }
  split_and!; [split; try done|exact Ho|].
  - by rewrite Ha.
  - rewrite Hn. eapply chain_agree; [|exact H4]. intros x Hx. by rewrite (proj1 (Hc x (or_introl Hx))).
  - intros b Hb%Ho. rewrite Ht, Hg. split; [by apply H6|by apply Hc].
  - intros k k'. rewrite !Hfb. apply H7.
  - intros k. rewrite Hfb. apply H8.
  - intros pos Hpos. apply file_byte_agree; [done|]. intros Hne. apply Hc. right.
    exists (pos / BLOCK_SIZE). split_and!; [nlia|done|done].
Qed.

Lemma mount_run fresh recycled s :
  is_Some (cells s !! SUPER_BLOCK_INDEX) -> magic (decode_superblock (contents s SUPER_BLOCK_INDEX)) = NFS_MAGIC ->
  inodes s = ∅ ->
  mount fresh recycled s = Ret tt (FS (cells s) (decode_superblock (contents s SUPER_BLOCK_INDEX)) false
    (<[INODE_TABLE_NUMBER := fresh]> {[ROOT_INODE_NUMBER := set_flags false (i_dirty recycled) recycled]})).
Proof.
  intros H1 Hm Hi. unfold mount. rewrite bget_run by done. rewrite <- decode_magic, Hm, Z.eqb_refl. cbn [negb].
  unfold kbind, kmodify, get_inode. cbn [inodes cells sb sb_dirty]. by rewrite Hi.
Qed.

(** The state of a mounted file system that can be unmounted. *)
Record durable (s : fs) : Prop := {
  du_cells : clean_cells s;
  du_table : table_clean s;
  du_meta : table_meta s;
  du_sb : sb_ok (sb s);
  du_super : sb_dirty s = false -> decode_superblock (contents s SUPER_BLOCK_INDEX) = sb s
}.

(** What the next mount sees.  [own0] are the blocks of the table before. *)
Record remounted (s s' : fs) (own0 : Z -> Prop) (fresh recycled : minode) (f : Z -> Z) : Prop := {
  rm_layout : same_layout s s';
  rm_blocks : blocks_ok s';
  rm_kept : forall b, generic_block_start (sb s) <= b < total_blocks (sb s) -> allocated s b = true -> ~ own0 b ->
    contents s' b = contents s b /\ allocated s' b = true;
  rm_fresh : inodes s' !! INODE_TABLE_NUMBER = Some fresh;
  rm_others : forall n i, n <> INODE_TABLE_NUMBER -> inodes s' !! n = Some i -> i = set_flags false (i_dirty recycled) recycled;
  rm_table : let t' := set_flags true false (copy_in (sb_inode_table (sb s')) fresh) in
    forall s'', cells s'' = cells s' -> sb s'' = sb s' -> inodes s'' !! INODE_TABLE_NUMBER = Some t' ->
    exists l, file_ok s'' INODE_TABLE_NUMBER t' l /\ (forall pos, 0 <= pos -> file_byte s'' t' l pos = f pos) /\
      forall b, owned s'' t' l b -> own0 b \/ allocated s b = false
}.

Lemma table_at_start s t l :
  file_ok s INODE_TABLE_NUMBER t l -> i_valid t = true -> table_at s (owned s t l) s (file_byte s t l).
Proof.
  intros Hok Hv. exists (inodes s), t, l, (meta t). split; [|done].
  replace (FS _ _ _ _) with s by by destruct s. by apply file_ok_holds.
Qed.

Lemma sb_ok_marked s s' : marked s s' -> sb_ok (sb s) -> sb_ok (sb s').
Proof. intros Hm [K1 K2 K3 K4 K5 K6 K7 K8]. destruct (mk_sb _ _ Hm) as (u & nx & -> & Hu & Hn). split; try done; [by apply Hu|by apply Hn]. Qed.

(** The superblock is not among the blocks a write to the table changes. *)
Lemma super_block_kept s t l s1 f :
  file_ok s INODE_TABLE_NUMBER t l -> table_at s (owned s t l) s1 f ->
  cells s1 !! SUPER_BLOCK_INDEX = cells s !! SUPER_BLOCK_INDEX.
Proof.
  intros Hok (I & t1 & l1 & m1 & (He & _ & _) & _). pose proof (fo_blocks _ _ _ _ Hok) as [B1 B2 B3 B4 B5].
  apply (fe_frame _ _ _ _ He); cbn [sb cells].
  - unfold SUPER_BLOCK_INDEX, BITMAP_BLOCK_INDEX. lia.
  - intros [Ho|Ha].
    + apply (fo_own _ _ _ _ Hok) in Ho as [Ho _]. unfold SUPER_BLOCK_INDEX in Ho. nlia.
    + change (allocated s SUPER_BLOCK_INDEX = false) in Ha. rewrite B5 in Ha; [done|]. unfold SUPER_BLOCK_INDEX. nlia.
Qed.

(** The blocks and the layout of the next mount are those at the end of
    [unmount]. *)
Lemma blocks_ok_view s s' b0 :
  blocks_ok s -> same_sb (sb s') (set_table b0 (sb s)) ->
  (forall b, b <> SUPER_BLOCK_INDEX -> contents s' b = contents s b) ->
  (forall b, is_Some (cells s' !! b) <-> is_Some (cells s !! b)) ->
  blocks_ok s' /\ same_layout s s' /\ forall b, 0 <= b -> allocated s' b = allocated s b.
Proof.
  intros [B1 B2 B3 B4 B5] [S1 S2 S3 S4 S5 S6] Hc Hs.
  cbn [set_table magic total_blocks total_generic_blocks generic_block_start sb_inode_table] in *.
  assert (forall b, 0 <= b -> allocated s' b = allocated s b) as Hal.
  { intros b Hb. unfold allocated. rewrite Hc; [done|]. unfold SUPER_BLOCK_INDEX. nlia. }
  split_and!; [|unfold same_layout; auto|done]. split; rewrite ?S2, ?S4; try done.
  - intros b Hb. apply Hs, B4, Hb.
  - intros b Hb. rewrite Hal by lia. by apply B5.
Qed.

Lemma remount_state s t l s1 f1 fresh recycled s5 :
  file_ok s INODE_TABLE_NUMBER t l -> table_at s (owned s t l) s1 f1 -> cache_raw_indirect_offset fresh = NO_BLOCK ->
  (forall t1, inodes s1 !! INODE_TABLE_NUMBER = Some t1 ->
    same_sb (decode_superblock (contents s5 SUPER_BLOCK_INDEX)) (set_table (copy_out t1) (sb s1))) ->
  (forall b, b <> SUPER_BLOCK_INDEX -> contents s5 b = contents s1 b) ->
  (forall b, is_Some (cells s5 !! b) <-> is_Some (cells s1 !! b)) ->
  remounted s (FS (cells s5) (decode_superblock (contents s5 SUPER_BLOCK_INDEX)) false
    (<[INODE_TABLE_NUMBER := fresh]> {[ROOT_INODE_NUMBER := set_flags false (i_dirty recycled) recycled]}))
    (owned s t l) fresh recycled f1.
Proof.
  intros Hok (I & t1 & l1 & m1 & (He & Hr & Hf) & Hv) Hfr Hsb Hc Hs. pose proof (fo_blocks _ _ _ _ Hok) as Hb0.
  specialize (Hsb t1 (fr_inode _ _ _ _ _ _ _ Hr)). set (s7 := FS _ _ _ _).
  pose proof (fe_ok _ _ _ _ He) as Hok1. pose proof (fe_layout _ _ _ _ He) as Hl1.
  destruct (blocks_ok_view s1 s7 (copy_out t1)) as (Hok7 & Hl7 & Hal7); [done|done|exact Hc|exact Hs|].
  assert (same_layout s s7) as Hl by (unfold same_layout in *; cbn [sb] in Hl1; intuition congruence).
  pose proof (bo_start _ Hb0) as Hst. split; [done|done| |apply lookup_insert_eq| |].
  - intros b Hb Ha Ho. split.
    + change (contents s7 b) with (contents s5 b). rewrite Hc by (unfold SUPER_BLOCK_INDEX; nlia). unfold contents.
      rewrite (fe_frame _ _ _ _ He b); [done|cbn; lia|]. intros [Hb'|Hb']; [done|].
      change (allocated s b = false) in Hb'. congruence.
    + rewrite Hal7 by nlia. apply (fe_mono _ _ _ _ He); [cbn [sb]; nlia|done].
  - intros n i Hn0. cbn [s7 inodes]. rewrite lookup_insert_ne by done. by intros [_ <-]%lookup_singleton_Some.
  - intros t' s'' Hcc Hss Hi.
    assert (forall x, contents s'' x = contents s7 x) as Hcon by (intros x; unfold contents; by rewrite Hcc).
    assert (sb_inode_table (sb s7) = copy_out t1) as Htb by apply Hsb.
    destruct (file_ok_carry s1 s'' INODE_TABLE_NUMBER INODE_TABLE_NUMBER t1 t' l1) as (Hok'' & Ho'' & Hf'').
    + apply (holds_file_ok _ _ _ _ _ _ _ _ (conj He (conj Hr Hf))).
    + pose proof Hok7 as [C1 C2 C3 C4 C5]. split; rewrite ?Hss, ?Hcc; try done.
      intros b Hb. unfold allocated. rewrite Hcon. by apply C5.
    + unfold same_layout in *. by rewrite Hss.
    + intros b Hb. apply (fr_own _ _ _ _ _ _ _ Hr) in Hb as (Hbr & Hba & _). destruct Hl1 as (Ht1 & Hg1 & _). cbn [sb] in Ht1, Hg1.
      unfold allocated. rewrite !Hcon. split; [apply Hc; unfold SUPER_BLOCK_INDEX; nlia|].
      rewrite <- Hba. apply Hal7. nlia.
    + done.
    + subst t'. rewrite Htb. done.
    + subst t'. rewrite Htb. done.
    + left. done.
    + exists l1. split_and!; [done| |].
      * intros pos Hpos. rewrite Hf'' by done. by apply Hf.
      * intros b Hb%Ho''. apply (fr_own _ _ _ _ _ _ _ Hr) in Hb as (_ & _ & Hm). exact Hm.
Qed.

(** Only the flush of the inodes can fail.  What [unmount] leaves on the device: [s1] is the state once the inodes are
    flushed, [f] the bytes of the table. *)
Record unmounted (s : fs) (own0 : Z -> Prop) (order : list Z) (f0 : Z -> Z) (s1 : fs) (f : Z -> Z) (s5 : fs) : Prop := {
  um_table : table_at s own0 s1 f;
  um_out : forall k, k ∉ order -> slot f k = slot f0 k;
  um_in : forall k i, k ∈ order -> inodes s !! k = Some i -> slot f k = flushed i (slot f0 k);
  um_sb : forall t1, inodes s1 !! INODE_TABLE_NUMBER = Some t1 ->
    same_sb (decode_superblock (contents s5 SUPER_BLOCK_INDEX)) (set_table (copy_out t1) (sb s1));
  um_contents : forall b, b <> SUPER_BLOCK_INDEX -> contents s5 b = contents s1 b;
  um_cells : forall b, is_Some (cells s5 !! b) <-> is_Some (cells s1 !! b);
  um_inodes : inodes s5 = ∅;
  um_magic : magic (sb s1) = NFS_MAGIC
}.

Lemma slot_ext f g k : 0 <= k -> (forall pos, 0 <= pos -> f pos = g pos) -> slot f k = slot g k.
Proof.
  intros Hk Hfg. rewrite !slot_eq. f_equal. apply slice_ext. intros pos Hpos. apply Hfg.
  change SIZEOF_DINODE with 64 in *. lia.
Qed.

Section remount.
Context (s : fs) (t : minode) (l : list Z) (order : list Z) (fresh recycled : minode).
Context (Hdur : durable s) (Hok : file_ok s INODE_TABLE_NUMBER t l) (Hv : i_valid t = true) (Hnd : NoDup order).
Context (Hall : forall n, n ∈ order -> inode_number_ok n /\ exists i, inodes s !! n = Some i /\ dinode_ok (copy_out i)).
Context (Hnone : forall n, n <> INODE_TABLE_NUMBER -> n ∉ order -> inodes s !! n = None).
Context (Hfr : cache_raw_indirect_offset fresh = NO_BLOCK).

Lemma super_block_exists s1 f : table_at s (owned s t l) s1 f -> is_Some (cells s1 !! SUPER_BLOCK_INDEX).
Proof.
  intros Ht1. rewrite (super_block_kept s t l s1 f Hok Ht1). pose proof (fo_blocks _ _ _ _ Hok) as Hb0.
  apply (bo_cells _ Hb0). pose proof (bo_start _ Hb0). unfold SUPER_BLOCK_INDEX. nlia.
Qed.

Lemma unmount_spec :
  kspec (unmount order s)
    (fun _ s5 => exists s1 f, unmounted s (owned s t l) order (file_byte s t l) s1 f s5)
    (fun s' => flush_inodes order s = TaskFail s' /\ no_room s').
Proof.
  destruct Hdur as [D1 D2 D3 D4 D5]. unfold unmount. pose proof (fo_blocks _ _ _ _ Hok) as Hb0.
  eapply kspec_seq; [eapply kspec_fails, (flush_inodes_at s (owned s t l) order s (file_byte s t l));
    [by apply table_at_start|done|done]|done|].
  intros _ s1 [(f1 & Ht1 & Hout & Hin & Hoth & Hgone) Hm].
  pose proof Ht1 as (I & t1 & l1 & m1 & Hh & Hv1). pose proof (sb_ok_marked _ _ Hm D4) as Hsb1.
  pose proof (holds_file_ok _ _ _ _ _ _ _ _ Hh) as Hok1. pose proof (fo_inode _ _ _ _ Hok1) as Hi1.
  pose proof (super_block_kept s t l s1 f1 Hok Ht1) as Hsup.
  destruct (unmount_end_run s1 t1) as (s5 & Hrun & Hsame & Hc5 & Hs5 & Hi5); [done|done|by apply Hm|by apply Hm|done| | | | |].
  + apply (file_dinode_ok s1 INODE_TABLE_NUMBER t1 l1 Hok1). apply (mk_meta _ _ Hm (sk_table _ D4) D3). done.
  + by apply (super_block_exists s1 f1).
  + apply (bo_next _ (fo_blocks _ _ _ _ Hok1)).
  + intros Hsd. unfold contents. rewrite Hsup. change (from_option cur ∅ _) with (contents s SUPER_BLOCK_INDEX).
    rewrite D5 by (destruct (sb_dirty s) eqn:E; [|done]; by rewrite (mk_dirty _ _ Hm) in Hsd).
    destruct (mk_sb _ _ Hm) as (u & nx & -> & _). split; try done. apply (bo_next _ Hb0).
  + rewrite Hrun. cbn [kspec]. exists s1, f1. split; try done; [| |apply Hsb1].
    * intros t1' Ht1'. assert (t1' = t1) as -> by congruence. done.
    * rewrite Hi5. apply map_empty. intros j. destruct (decide (j = INODE_TABLE_NUMBER)) as [->|Hj]; [apply lookup_delete_eq|].
      rewrite lookup_delete_ne by done. destruct (decide (j ∈ order)); [by apply Hgone|]. rewrite Hoth by done. by apply Hnone.
Qed.

Lemma unmount_mount_spec :
  kspec ((unmount order ;;; mount fresh recycled) s)
    (fun _ s' => exists f', remounted s s' (owned s t l) fresh recycled f' /\
       (forall k, k ∉ order -> slot f' k = slot (file_byte s t l) k) /\
       (forall k i, k ∈ order -> inodes s !! k = Some i -> slot f' k = flushed i (slot (file_byte s t l) k)))
    (fun s' => flush_inodes order s = TaskFail s' /\ no_room s').
Proof.
  eapply kspec_seq; [apply unmount_spec|done|].
  intros _ s5 (s1 & f' & [Ht1 Hout Hin Hsame Hc5 Hs5 Hi5 Hmg]).
  destruct (table_at_inode _ _ _ _ Ht1) as (t1 & Hi1 & _). rewrite mount_run; [| | |done].
  - cbn [kspec]. exists f'. split_and!; [|done|done]. by apply (remount_state s t l s1).
  - apply Hs5. by apply (super_block_exists s1 f').
  - by rewrite (ss_magic _ _ (Hsame t1 Hi1)).
Qed.

Lemma load_table_fresh s1 :
  inodes s1 !! INODE_TABLE_NUMBER = Some fresh -> i_valid fresh = false ->
  load_table s1 = Ret tt (FS (cells s1) (sb s1) (sb_dirty s1)
    (<[INODE_TABLE_NUMBER := set_flags true false (copy_in (sb_inode_table (sb s1)) fresh)]> (inodes s1))).
Proof.
  intros Hi Hvf. unfold load_table, kbind at 1, the_inode. rewrite Hi, Hvf.
  unfold kbind, kget, upd_inode, kmodify. cbn [inodes cells sb sb_dirty].
  by rewrite (alter_at _ _ _ _ Hi), (alter_at _ _ _ _ (lookup_insert_eq _ _ _)), insert_insert_eq.
Qed.

(** A file the table does not share blocks with is the same file in [s10],
    which comes from the mounted state by steps that change only the table. *)
Lemma reload_carry s' f s9 t9 lt s10 f10 n i i' li :
  remounted s s' (owned s t l) fresh recycled f -> cells s9 = cells s' -> sb s9 = sb s' ->
  (forall b, owned s9 t9 lt b -> owned s t l b \/ allocated s b = false) ->
  table_at s9 (owned s9 t9 lt) s10 f10 ->
  file_ok s n i li -> (forall b, owned s i li b -> ~ owned s t l b) ->
  inodes s10 !! n = Some i' -> copy_out i' = copy_out i -> cache_raw_indirect_offset i' = NO_BLOCK ->
  file_ok s10 n i' li /\ forall pos, 0 <= pos -> file_byte s10 i' li pos = file_byte s i li pos.
Proof.
  intros [R1 R2 R3 _ _ _] Hc Hs9 Ho9 Ht10 Hf Hdis Hi' Hco Hca.
  destruct (table_at_frame _ _ _ _ Ht10) as (Hb10 & Hl10 & Hkept).
  assert (forall x, contents s9 x = contents s' x) as Hc9 by (intros x; unfold contents; by rewrite Hc).
  pose proof R1 as (Ht' & Hg' & Htg'). pose proof Hl10 as (Ht10' & Hg10' & Htg10'). rewrite Hs9 in Ht10', Hg10', Htg10', Hkept.
  pose proof (bo_start _ (fo_blocks _ _ _ _ Hf)) as Hst.
  destruct (file_ok_carry s s10 n n i i' li) as (Hok2 & _ & Hf2); try done.
  - unfold same_layout. intuition congruence.
  - intros b Hb. destruct (fo_own _ _ _ _ Hf b Hb) as [Hbr Hba].
    destruct (R3 b Hbr Hba (Hdis b Hb)) as [Hcb Hab]. destruct (Hkept b) as [Hcb' Hab'].
    + rewrite Ht', Hg'. done.
    + nlia.
    + rewrite <- Hab. unfold allocated. by rewrite Hc9.
    + intros Ho. apply Ho9 in Ho as [Ho|Ho]; [by apply (Hdis b Hb)|congruence].
    + split; [|done]. by rewrite Hcb', Hc9.
  - change (d_addrs (copy_out i') = addrs i). by rewrite Hco.
  - change (d_next_addr_block (copy_out i') = next_addr_block i). by rewrite Hco.
  - by left.
Qed.

(** The inode [n] of the next mount, read from its slot of the table. *)
Lemma reload_spec s' s8 f n i li r :
  remounted s s' (owned s t l) fresh recycled f -> inode_number_ok n -> i_valid fresh = false ->
  cells s8 = cells s' -> sb s8 = sb s' -> inodes s8 !! INODE_TABLE_NUMBER = Some fresh ->
  inodes s8 !! n = Some r -> i_valid r = false -> cache_raw_indirect_offset r = NO_BLOCK ->
  file_ok s n i li -> (forall b, owned s i li b -> ~ owned s t l b) -> slot f n = copy_out i ->
  kspec (inode_load n s8)
    (fun _ s2 => exists i', file_ok s2 n i' li /\ copy_out i' = copy_out i /\
       forall pos, 0 <= pos -> file_byte s2 i' li pos = file_byte s i li pos)
    no_room.
Proof.
  intros HR [Hn Hr] Hvf Hc8 Hs8 Hi8 Hr8 Hvr Hcr Hf Hdis Hslot.
  assert (n <> INODE_TABLE_NUMBER) as Hn0 by (unfold INODE_TABLE_NUMBER; lia).
  unfold inode_load. unfold kbind at 1, the_inode. rewrite Hr8, Hvr. unfold __load. rewrite (proj2 (Z.eqb_neq _ _) Hn0).
  set (s9 := FS (cells s8) (sb s8) (sb_dirty s8)
    (<[INODE_TABLE_NUMBER := set_flags true false (copy_in (sb_inode_table (sb s8)) fresh)]> (inodes s8))).
  destruct (rm_table _ _ _ _ _ _ HR s9) as (lt & Hok9 & Hf9 & Ho9);
    [done|done|cbn [s9 inodes]; rewrite Hs8; apply lookup_insert_eq|].
  set (t9 := set_flags true false (copy_in (sb_inode_table (sb s')) fresh)) in *.
  eapply (kspec_seq _ _ _ (fun _ s10 => table_at s9 (owned s9 t9 lt) s10 (file_byte s9 t9 lt) /\
    exists i', inodes s10 !! n = Some i' /\ copy_out i' = copy_out i /\ cache_raw_indirect_offset i' = NO_BLOCK)); [|done|].
  - rewrite (kbind_ret _ _ _ _ _ (load_table_fresh s8 Hi8 Hvf)). change (FS _ _ _ _) with s9.
    eapply kspec_seq; [apply (table_at_read s9 (owned s9 t9 lt) s9 (file_byte s9 t9 lt))|done|].
    + by apply table_at_start.
    + change SIZEOF_DINODE with 64. lia.
    + done.
    + done.
    + intros [k bs] s10 (Hbs & Ht10 & Hk). cbv beta iota. unfold upd_inode, kmodify. cbn [kspec]. split.
      * apply (table_at_others _ _ s10); [done|done|done|]. cbn [inodes]. by apply lookup_alter_ne.
      * cbn [inodes]. rewrite lookup_alter_eq, Hk by done. cbn [s9 inodes]. rewrite lookup_insert_ne, Hr8 by done.
        eexists. split_and!; [reflexivity| |exact Hcr].
        assert (decode_dinode bs = copy_out i) as ->; [|by destruct i].
        simplify_eq. rewrite <- slot_eq, <- Hslot. apply slot_ext; [lia|done].
  - intros _ s10 (Ht10 & i' & Hi' & Hco & Hca). unfold upd_inode, kmodify. cbn [kspec].
    exists (set_flags true false i'). set (s11 := FS _ _ _ _).
    destruct (reload_carry s' f s9 t9 lt s11 (file_byte s9 t9 lt) n i (set_flags true false i') li) as [Hok11 Hf11]; try done.
    + apply (table_at_others _ _ s10); [done|done|done|]. cbn [s11 inodes]. by apply lookup_alter_ne.
    + cbn [s11 inodes]. by rewrite lookup_alter_eq, Hi'.
Qed.

End remount.


(** ** A concrete file system *)

Lemma nth_none k : 0 <= k < NUM_DIRECT_DATA -> nthZ (replicate (Z.to_nat NUM_DIRECT_DATA) NO_BLOCK) k = NO_BLOCK.
Proof. intros Hk. apply nthZ_lookup, lookup_replicate. split; [done|]. nlia. Qed.

(** A file without blocks is empty. *)
Lemma new_file_ok s n i :
  blocks_ok s -> inodes s !! n = Some i -> addrs i = replicate (Z.to_nat NUM_DIRECT_DATA) NO_BLOCK ->
  next_addr_block i = NO_BLOCK -> cache_raw_indirect_offset i = NO_BLOCK ->
  file_ok s n i [] /\ forall pos, 0 <= pos -> file_byte s i [] pos = 0.
Proof.
  intros Hok Hi Ha Hn Hc.
  assert (forall k, 0 <= k -> file_block s i [] k = NO_BLOCK) as Hfb.
  { intros k Hk. unfold file_block. rewrite Ha. case_decide; [by apply nth_none|by rewrite lookup_nil]. }
  split; [|intros pos Hpos; unfold file_byte; rewrite Hfb by nlia; by rewrite decide_True].
  split; try done.
  - by rewrite Ha, length_replicate.
  - constructor.
  - intros b [Hb|(k & Hk & Hb & Hne)]; [by apply elem_of_nil in Hb|]. by rewrite Hfb in Hb.
  - intros k k' Hk Hk' _ Hne. by rewrite Hfb in Hne.
  - intros k Hk Hne. by rewrite Hfb in Hne.
  - by left.
Qed.

(** A file with one block. *)
Lemma block_file_ok s n i b :
  blocks_ok s -> inodes s !! n = Some i -> addrs i = updZ no_blocks 0 b ->
  next_addr_block i = NO_BLOCK -> cache_raw_indirect_offset i = NO_BLOCK -> b <> NO_BLOCK ->
  generic_block_start (sb s) <= b < total_blocks (sb s) -> allocated s b = true ->
  file_ok s n i [] /\ forall x, owned s i [] x -> x = b.
Proof.
  intros Hok Hi Ha Hn Hc Hb Hr Hal.
  assert (forall k, 0 <= k -> file_block s i [] k = if decide (k = 0) then b else NO_BLOCK) as Hfb.
  { intros k Hk. unfold file_block. rewrite Ha. repeat case_decide; subst; try nlia.
    - by apply nthZ_updZ_eq.
    - rewrite nthZ_updZ_ne by lia. by apply nth_no_blocks.
    - by rewrite lookup_nil. }
  assert (forall x, owned s i [] x -> x = b) as Hown.
  { intros x [Hx|(k & Hk & Hx & Hne)]; [by apply elem_of_nil in Hx|]. rewrite Hfb in Hx by done. case_decide; congruence. }
  split; [|done]. split; try done.
  - by rewrite Ha.
  - constructor.
  - by intros x ->%Hown.
  - intros k k' Hk Hk'. rewrite !Hfb by done. repeat case_decide; subst; done.
  - intros k Hk _. by apply not_elem_of_nil.
  - by left.
Qed.

(** An inode whose first block is 6. *)
Definition block_inode : minode := Minode 99 1 0 1 (updZ no_blocks 0 6) NO_BLOCK NO_BLOCK NO_BLOCK NO_BLOCK true true.

Lemma block_inode_ok : dinode_ok (copy_out block_inode).
Proof.
  assert (0 <= NO_BLOCK < 2 ^ 32) as Hno by by vm_compute.
  split; cbn [block_inode copy_out d_size d_nlinks d_perm d_type d_next_addr_block d_addrs i_size i_nlinks i_perm i_type
    next_addr_block addrs]; [lia|lia|lia|lia|exact Hno| |reflexivity].
  change (updZ no_blocks 0 6) with (6 :: replicate 12 NO_BLOCK). constructor; [lia|]. by apply Forall_replicate.
Qed.

(** A table in block 5 and an inode, on any device. *)
Definition mount_on (s : fs) : fs :=
  FS (cells (table_on s)) (set_table demo_head (sb s)) true
    (<[INODE_TABLE_NUMBER := set_flags true true small_inode]> {[2 := block_inode]}).

Section mount_on.
Context (s : fs) (Hok : blocks_ok s) (Hrange : generic_block_start (sb s) <= 5 < total_blocks (sb s)).
Context (Hrange6 : generic_block_start (sb s) <= 6 < total_blocks (sb s)).
Context (Halloc : allocated s 5 = true) (Halloc6 : allocated s 6 = true).
Context (Hclean : clean_cells s) (Hsb : sb_ok (set_table demo_head (sb s))).

Lemma mount_on_blocks : blocks_ok (mount_on s).
Proof. destruct (fo_blocks _ _ _ _ (table_on_file s Hok Hrange Halloc)). by split. Qed.

Lemma mount_on_table : file_ok (mount_on s) INODE_TABLE_NUMBER (set_flags true true small_inode) [].
Proof.
  pose proof (table_on_file s Hok Hrange Halloc) as Hf.
  apply (file_ok_carry (table_on s) (mount_on s) INODE_TABLE_NUMBER INODE_TABLE_NUMBER small_inode); try done.
  - apply mount_on_blocks.
  - intros b Hb. split; [done|]. by apply (fo_own _ _ _ _ Hf).
  - by left.
Qed.

Lemma mount_on_durable : durable (mount_on s).
Proof.
  split.
  - intros b c. apply (mk_cells _ _ (put_marked s 5 (wr_bytes ∅ 0 (encode_dinode demo_head))) Hclean).
  - intros t Ht. cbn [mount_on inodes] in Ht. rewrite lookup_insert_eq in Ht. by simplify_eq.
  - intros t Ht. cbn [mount_on inodes] in Ht. rewrite lookup_insert_eq in Ht. simplify_eq. unfold meta_ok, is_u32. cbn [set_flags small_inode i_size i_nlinks i_perm i_type]. lia.
  - exact Hsb.
  - done.
Qed.

Lemma mount_on_file : file_ok (mount_on s) 2 block_inode [] /\ forall b, owned (mount_on s) block_inode [] b -> b = 6.
Proof.
  apply block_file_ok; try done; [apply mount_on_blocks|]. etransitivity; [|exact Halloc6].
  apply (allocated_put s 5 (wr_bytes ∅ 0 (encode_dinode demo_head)) 6 Hok Hrange). destruct Hok. nlia.
Qed.

Lemma mount_on_inodes k : k <> INODE_TABLE_NUMBER -> k ∉ [2] -> inodes (mount_on s) !! k = None.
Proof.
  intros Hk0 Hk. cbn [mount_on inodes]. rewrite lookup_insert_ne by congruence.
  apply lookup_singleton_ne. intros <-. apply Hk. by left.
Qed.

End mount_on.

Lemma demo_clean : clean_cells demo_fs.
Proof.
  intros b c Hb Hd. unfold demo_fs, demo_device in Hb. cbn [cells] in Hb.
  apply lookup_insert_Some in Hb as [[_ <-]|[_ Hb]]; [done|].
  apply lookup_insert_Some in Hb as [[_ <-]|[_ Hb]]; [done|]. by apply blank_inv in Hb as ->.
Qed.

Lemma demo_sb_ok : sb_ok (set_table demo_head (sb demo_fs)).
Proof.
  split; [reflexivity|..|exact demo_head_ok]; unfold is_u32, BITMAP_BLOCK_INDEX;
    cbn [demo_fs demo_device sb set_table set_next_free total_blocks total_generic_blocks used_generic_blocks ninodes
      generic_block_start next_free_bitmap]; (done || lia).
Qed.

Lemma demo_range_6 : generic_block_start (sb demo_fs) <= 6 < total_blocks (sb demo_fs).
Proof. cbn. lia. Qed.

Lemma demo_allocated_6 : allocated demo_fs 6 = true.
Proof. change (allocated demo_fs 6) with (allocated demo_device 6). rewrite demo_allocated. by vm_compute. Qed.

