(* ===== verification/Dentry.v ===== *)
(** * The dentry cache and path resolution (src/os/fs/dentry.h, dentry.cc, utils/quick_string.h)

    A dentry ties a name in a parent directory to an inode.  The cache is a
    hash table of lists of dentries, most recently used first.  [get] asks the
    directory inode for a name the cache does not have; directories are
    objects with virtual methods, so that call is a method of the class
    [DirOps], which the file NfsDir implements.  [get_at] resolves a path; it
    exists twice, for C strings and for string views.

    A [shared_ptr<dentry>] is an option of a number that names the object, an
    inode is named by its inode number.  The operations are taken to run
    without interleaving, so the locks of the buckets and of the dentries do
    not appear. *)
From S2P Require Import Prelude Memory CString.

(** ** Names *)

(** [quick_string::__hash]; [char] is unsigned on RISC-V. *)
Fixpoint hash_loop (hash : Z) (name : list Z) : Z :=
  match name with
  | [] => hash
  | c :: name' => hash_loop (u32 (hash * 131 + c)) name'
  end.
Definition __hash (name : list Z) : Z := Z.shiftr (hash_loop 0 name) 1.

(** [strncmp(p, q, size of q) == 0], for a C string [p]. *)
Fixpoint strncmp_eq (p q : list Z) {struct q} : bool :=
  match q with
  | [] => true
  | c :: q' =>
      match p with
      | [] => c =? 0
      | x :: p' => if x =? 0 then c =? 0 else (x =? c) && strncmp_eq p' q'
      end
  end.

(** ** The cache *)

Record dentry : Type := Dentry { _inode : option Z; name : list Z; parent : option nat }.

(** The state: that of the file system, the dentry objects, the back pointers
    [inode::this_dentry], the buckets, the number of cached dentries and the
    next object. *)
Record vfs (F : Type) : Type := VFS {
  v_fs : F;
  dentries : gmap nat dentry;
  this_dentry : gmap Z nat;
  hash_table : gmap Z (list nat);
  dcache_size : Z;
  fresh : nat
}.
Arguments VFS {F}.
Arguments v_fs {F}.
Arguments dentries {F}.
Arguments this_dentry {F}.
Arguments hash_table {F}.
Arguments dcache_size {F}.
Arguments fresh {F}.

Definition HASH_TABLE_SIZE : Z := 1024.
Definition MIN_CACHE_SIZE : Z := 1024.

(** The virtual method of [inode] the cache calls: the directory [this] looks
    the name of the dentry up and fills the dentry. *)
Class DirOps (F : Type) : Type := { dir_lookup : Z -> nat -> K (vfs F) Z }.

Module dentry_cache.

Section cache.
Context {F : Type}.
Notation M := (K (vfs F)).

(** [d->...]: a null pointer stops the kernel. *)
Definition the_dentry (d : nat) : M dentry := fun s =>
  match dentries s !! d with
  | Some e => Ret e s
  | None => Panic
  end.
Definition not_null {A : Type} (p : option A) : M A :=
  match p with
  | Some a => kret a
  | None => kpanic
  end.

Definition upd_dentry (d : nat) (g : dentry -> dentry) : M unit :=
  kmodify (fun s => VFS (v_fs s) (alter g d (dentries s)) (this_dentry s) (hash_table s) (dcache_size s) (fresh s)).
Definition set_inode (d : nat) (i : option Z) : M unit := upd_dentry d (fun e => Dentry i (name e) (parent e)).
Definition set_parent (d : nat) (p : option nat) : M unit := upd_dentry d (fun e => Dentry (_inode e) (name e) p).
Definition set_dentry (i : Z) (d : nat) : M unit :=
  kmodify (fun s => VFS (v_fs s) (dentries s) (<[i := d]> (this_dentry s)) (hash_table s) (dcache_size s) (fresh s)).

Definition bucket (s : vfs F) (h : Z) : list nat := default [] (hash_table s !! h).
Definition set_bucket (h : Z) (l : list nat) (s : vfs F) : vfs F :=
  VFS (v_fs s) (dentries s) (this_dentry s) (<[h := l]> (hash_table s)) (dcache_size s) (fresh s).

Definition dentry_match (s : vfs F) (p : option nat) (name_ref : list Z) (d : nat) : bool :=
  match dentries s !! d with
  | Some e => strncmp_eq (name e) name_ref && bool_decide (parent e = p)
  | None => false
  end.

Definition lookup (p : option nat) (name_ref : list Z) : M (option nat) := fun s =>
  let h := __hash name_ref mod HASH_TABLE_SIZE in
  match find_front (dentry_match s p name_ref) (bucket s h) with
  | Some (d, r) => Ret (Some d) (set_bucket h (d :: r) s)
  | None => Ret None s
  end.

Definition __add (name_ref : list Z) : M nat := fun s =>
  let h := __hash name_ref mod HASH_TABLE_SIZE in
  Ret (fresh s) (VFS (v_fs s) (<[fresh s := Dentry None name_ref None]> (dentries s)) (this_dentry s)
    (<[h := fresh s :: bucket s h]> (hash_table s)) (u32 (dcache_size s + 1)) (S (fresh s))).

Definition __reuse (name_ref : list Z) : M (option nat) := kret None.

Definition __get_free_dentry (name_ref : list Z) (p : option nat) : M nat :=
  s <- kget ;;
  reused <- (if MIN_CACHE_SIZE <=? dcache_size s then __reuse name_ref else kret None) ;;
  new_dentry <- (match reused with Some d => kret d | None => __add name_ref end) ;;
  set_parent new_dentry p ;;;
  kret new_dentry.

Definition get_or_create (p : option nat) (name_ref : list Z) (inode : option Z) : M nat :=
  d <- lookup p name_ref ;;
  match d with
  | Some d => kret d
  | None =>
      new_dentry <- __get_free_dentry name_ref p ;;
      set_parent new_dentry p ;;;
      match inode with
      | Some i => set_dentry i new_dentry ;;; set_inode new_dentry (Some i) ;;; kret new_dentry
      | None => kret new_dentry
      end
  end.

Definition create (p : option nat) (name_ref : list Z) (inode : option Z) : M nat :=
  new_dentry <- __get_free_dentry name_ref p ;;
  set_parent new_dentry p ;;;
  match inode with
  | Some i => set_dentry i new_dentry ;;; set_inode new_dentry (Some i) ;;; kret new_dentry
  | None => kret new_dentry
  end.

(** Every bucket is cleared. *)
Definition destroy : M unit :=
  kmodify (fun s => VFS (v_fs s) (dentries s) (this_dentry s) ∅ 0 (fresh s)).

(** ** Resolving names and paths *)

Context `{DirOps F}.

Definition get (p : option nat) (name_ref : list Z) : M (option nat) :=
  d <- lookup p name_ref ;;
  match d with
  | Some d => kret (Some d)
  | None =>
      new_dentry <- __get_free_dentry name_ref p ;;
      q <- not_null p ;;
      e <- the_dentry q ;;
      i <- not_null (_inode e) ;;
      ret <- dir_lookup i new_dentry ;;
      if ret =? -1 then set_parent new_dentry None ;;; kret None
      else kret (Some new_dentry)
  end.

Definition SLASH : Z := 47.
Definition DOT : Z := 46.

(** [current = current->parent], unless that is null. *)
Definition go_up (current : option nat) : M (option nat) :=
  c <- not_null current ;;
  e <- the_dentry c ;;
  match parent e with
  | None => kret current
  | Some q => kret (Some q)
  end.

(** The inner loop: the characters before the next slash, and the rest. *)
Fixpoint component (path : list Z) : list Z * list Z :=
  match path with
  | [] => ([], [])
  | c :: path' => if c =? SLASH then ([], path) else let '(x, r) := component path' in (c :: x, r)
  end.
Definition skip_slash (path : list Z) : list Z :=
  match path with
  | c :: path' => if c =? SLASH then path' else path
  | [] => []
  end.

(** [get_at(current, const char* path)]: [path] is what is left before the
    NUL. *)
Fixpoint walk_cstr (fuel : nat) (current : option nat) (path : list Z) : M (option nat) :=
  match path with
  | [] => kret current
  | _ =>
      match fuel with
      | O => kfuel
      | S fuel' =>
          let '(start, rest) := component path in
          if bool_decide (start = []) then walk_cstr fuel' current (skip_slash rest)
          else if bool_decide (start = [DOT]) then walk_cstr fuel' current rest
          else if bool_decide (start = [DOT; DOT]) then
            up <- go_up current ;; walk_cstr fuel' up rest
          else
            next <- get current start ;; walk_cstr fuel' next (skip_slash rest)
      end
  end.
Definition get_at_cstr (current : option nat) (path : list Z) : M (option nat) :=
  match path with
  | c :: path' =>
      if c =? SLASH then root <- get None [] ;; walk_cstr (length path') root path'
      else walk_cstr (length path) current path
  | [] => kret current
  end.

(** [path.find_first_of('/')]. *)
Fixpoint find_slash (path : list Z) : option nat :=
  match path with
  | [] => None
  | c :: path' => if c =? SLASH then Some 0%nat else S <$> find_slash path'
  end.

(** [get_at(current, std::string_view path)]. *)
Fixpoint walk_view (fuel : nat) (current : option nat) (path : list Z) : M (option nat) :=
  match path with
  | [] => kret current
  | _ =>
      match fuel with
      | O => kfuel
      | S fuel' =>
          match find_slash path with
          | Some O => walk_view fuel' current (drop 1 path)
          | pos =>
              let '(path_component, rest) :=
                match pos with
                | None => (path, [])
                | Some k => (take k path, drop (k + 1) path)
                end in
              if bool_decide (path_component = [DOT]) then walk_view fuel' current rest
              else if bool_decide (path_component = [DOT; DOT]) then
                up <- go_up current ;; walk_view fuel' up rest
              else
                next <- get current path_component ;; walk_view fuel' next rest
          end
      end
  end.
Definition get_at_view (current : option nat) (path : list Z) : M (option nat) :=
  match path with
  | c :: path' =>
      if c =? SLASH then root <- get None [] ;; walk_view (length path') root path'
      else walk_view (length path) current path
  | [] => kret current
  end.

End cache.

End dentry_cache.

Import dentry_cache.

(** ** Path resolution, abstractly *)

(** The parts between the slashes. *)
Fixpoint split_path (path : list Z) : list (list Z) :=
  match path with
  | [] => [[]]
  | c :: path' =>
      if c =? SLASH then [] :: split_path path'
      else
        match split_path path' with
        | x :: xs => (c :: x) :: xs
        | [] => [[c]]
        end
  end.

(** The components: the parts that are neither empty nor a single dot. *)
Definition components (path : list Z) : list (list Z) :=
  filter (fun x => x <> [] /\ x <> [DOT]) (split_path path).

Section resolve.
Context {F : Type} `{DirOps F}.

Fixpoint resolve (current : option nat) (xs : list (list Z)) : K (vfs F) (option nat) :=
  match xs with
  | [] => kret current
  | x :: xs' =>
      next <- (if bool_decide (x = [DOT; DOT]) then go_up current else get current x) ;; resolve next xs'
  end.

(** An absolute path starts at the root, the dentry with the empty name and no
    parent. *)
Definition resolve_path (current : option nat) (path : list Z) : K (vfs F) (option nat) :=
  match path with
  | c :: path' =>
      if c =? SLASH then root <- get None [] ;; resolve root (components path') else resolve current (components path)
  | [] => kret current
  end.

Lemma component_app path x r :
  component path = (x, r) ->
  path = x ++ r /\ SLASH ∉ x /\ split_path path = x :: match r with [] => [] | _ :: r' => split_path r' end /\
  match r with [] => True | c :: _ => c = SLASH end.
Proof.
  revert x r. induction path as [|c path IH]; intros x r; cbn [component split_path].
  { intros [= <- <-]. split_and!; [done|apply not_elem_of_nil|done|done]. }
  destruct (Z.eqb_spec c SLASH) as [->|Hc].
  { intros [= <- <-]. split_and!; [done|apply not_elem_of_nil|done|done]. }
  destruct (component path) as [y r'] eqn:Ec. intros [= <- <-].
  destruct (IH y r' eq_refl) as (-> & Hy & -> & Hr). split_and!; [done| |done|done].
  rewrite not_elem_of_cons. split; [congruence|done].
Qed.

Lemma components_slash path : components (SLASH :: path) = components path.
Proof. unfold components. cbn [split_path]. rewrite Z.eqb_refl, filter_cons_False by naive_solver. done. Qed.

(** What is left behind a component has the remaining components, whether its
    slash was skipped or not. *)
Lemma components_rest path x r :
  component path = (x, r) ->
  components path = (if bool_decide (x <> [] /\ x <> [DOT]) then [x] else []) ++ components r /\
  components (skip_slash r) = components r.
Proof.
  intros (_ & _ & Hs & Hr)%component_app. split.
  - assert (components r = match r with [] => [] | _ :: r' => components r' end) as ->.
    { destruct r as [|c r]; [done|]. subst c. apply components_slash. }
    unfold components at 1. rewrite Hs. case_bool_decide as Hx.
    + rewrite filter_cons_True by done. by destruct r.
    + rewrite filter_cons_False by done. by destruct r.
  - destruct r as [|c r]; [done|]. subst c. cbn [skip_slash]. rewrite Z.eqb_refl. symmetry. apply components_slash.
Qed.

Lemma component_length path x r :
  component path = (x, r) -> path <> [] ->
  (length r < length path \/ x = [] /\ length (skip_slash r) < length path)%nat /\ (length (skip_slash r) <= length r)%nat.
Proof.
  intros (-> & _ & _ & Hr)%component_app Hne. rewrite length_app. destruct r as [|c r]; cbn [skip_slash length].
  - destruct x; [done|]. cbn. lia.
  - subst c. rewrite Z.eqb_refl. destruct x; cbn; (split; [|lia]); [right; split; [done|lia]|left; lia].
Qed.

Lemma kbind_ext {S A B : Type} (m : K S A) (f g : A -> K S B) s : (forall a s', f a s' = g a s') -> kbind m f s = kbind m g s.
Proof. intros Hfg. unfold kbind. by destruct (m s). Qed.

Lemma walk_cstr_resolve fuel current path s :
  (length path <= fuel)%nat -> walk_cstr fuel current path s = resolve current (components path) s.
Proof.
  revert current path s. induction fuel as [|fuel IH]; intros current path s Hf.
  { destruct path; [done|]. cbn in Hf. lia. }
  destruct path as [|c path]; [done|]. set (p := c :: path) in *.
  change (walk_cstr (S fuel) current p) with
    (let '(start, rest) := component p in
     if bool_decide (start = []) then walk_cstr fuel current (skip_slash rest)
     else if bool_decide (start = [DOT]) then walk_cstr fuel current rest
     else if bool_decide (start = [DOT; DOT]) then up <- go_up current ;; walk_cstr fuel up rest
     else next <- get current start ;; walk_cstr fuel next (skip_slash rest)).
  destruct (component p) as [x r] eqn:Ec. destruct (components_rest _ _ _ Ec) as [-> Hskip].
  destruct (component_length _ _ _ Ec) as [Hlen Hsk]; [done|].
  destruct (decide (x = [])) as [->|Hx].
  { rewrite !bool_decide_eq_true_2 by done. rewrite bool_decide_eq_false_2 by naive_solver.
    rewrite IH, Hskip by lia. done. }
  destruct Hlen as [Hlen|[? _]]; [|done]. rewrite (bool_decide_eq_false_2 (x = [])) by done.
  destruct (decide (x = [DOT])) as [->|Hd].
  { rewrite !bool_decide_eq_true_2 by done. rewrite bool_decide_eq_false_2 by naive_solver. rewrite IH by lia. done. }
  rewrite (bool_decide_eq_false_2 (x = [DOT])), (bool_decide_eq_true_2 (x <> [] /\ x <> [DOT])) by done.
  cbn [app resolve]. case_bool_decide.
  - apply kbind_ext. intros a s'. apply IH. lia.
  - apply kbind_ext. intros a s'. rewrite IH, Hskip by lia. done.
Qed.

Lemma find_slash_component path :
  component path = match find_slash path with None => (path, []) | Some k => (take k path, SLASH :: drop (k + 1) path) end.
Proof.
  induction path as [|c path IH]; [done|]. cbn [component find_slash].
  destruct (Z.eqb_spec c SLASH) as [->|]; [done|]. rewrite IH. by destruct (find_slash path).
Qed.

Lemma walk_view_resolve fuel current path s :
  (length path <= fuel)%nat -> walk_view fuel current path s = resolve current (components path) s.
Proof.
  revert current path s. induction fuel as [|fuel IH]; intros current path s Hf.
  { destruct path; [done|]. cbn in Hf. lia. }
  destruct path as [|c path]; [done|]. set (p := c :: path) in *.
  pose proof (find_slash_component p) as Hc.
  assert (forall x rest r, component p = (x, r) -> x <> [] -> components rest = components r -> (length rest <= fuel)%nat ->
    (if bool_decide (x = [DOT]) then walk_view fuel current rest
     else if bool_decide (x = [DOT; DOT]) then up <- go_up current ;; walk_view fuel up rest
     else next <- get current x ;; walk_view fuel next rest) s = resolve current (components p) s) as Hstep.
  { intros x rest r Ec Hx Hcr Hlen. destruct (components_rest _ _ _ Ec) as [-> _].
    case_bool_decide as Hd.
    - rewrite (bool_decide_eq_false_2 (x <> [] /\ x <> [DOT])) by naive_solver. rewrite IH, Hcr by lia. done.
    - rewrite (bool_decide_eq_true_2 (x <> [] /\ x <> [DOT])) by done. cbn [app resolve].
      case_bool_decide; apply kbind_ext; intros a s'; rewrite IH, Hcr by lia; done. }
  change (match find_slash p with
    | Some O => walk_view fuel current (drop 1 p)
    | pos =>
        let '(x, rest) := match pos with None => (p, []) | Some k => (take k p, drop (k + 1) p) end in
        if bool_decide (x = [DOT]) then walk_view fuel current rest
        else if bool_decide (x = [DOT; DOT]) then up <- go_up current ;; walk_view fuel up rest
        else next <- get current x ;; walk_view fuel next rest
    end s = resolve current (components p) s).
  destruct (find_slash p) as [[|k]|] eqn:Ek.
  - destruct (components_rest _ _ _ Hc) as [-> Hsk]. cbn [take]. rewrite bool_decide_eq_false_2 by naive_solver.
    cbn [app]. rewrite <- Hsk. cbn [skip_slash]. rewrite Z.eqb_refl, IH; [done|]. rewrite length_drop. lia.
  - eapply Hstep; [exact Hc|done| |rewrite length_drop; lia]. by rewrite components_slash.
  - eapply Hstep; [exact Hc|done|done|cbn; lia].
Qed.

End resolve.

(** C17. Path resolution: both versions of [get_at], the one that moves a pointer
    over a C string and the one that cuts a string view, end on every path,
    and both do what their specification says: fold the lookup of one name
    over the components of the path, with ".." going to the parent. *)
Theorem get_at_correct {F : Type} `{DirOps F} current path s :
  get_at_cstr current path s = resolve_path current path s /\
  get_at_view current path s = resolve_path current path s.
Proof.
  destruct path as [|c path]; [done|]. unfold get_at_cstr, get_at_view, resolve_path.
  destruct (Z.eqb_spec c SLASH).
  - split; apply kbind_ext; intros root s'; [by apply walk_cstr_resolve|by apply walk_view_resolve].
  - split; [by apply walk_cstr_resolve|by apply walk_view_resolve].
Qed.

(** ** What the cache gives back *)

(** The comparison of names is the C library's [strncmp]. *)
Lemma strncmp_eq_spec m a b p q :
  cstring m a p -> (forall k c, q !! k = Some c -> rd8 m (b + Z.of_nat k) = c) ->
  strncmp_eq p q = true <-> strncmp m a b (length q) = 0.
Proof.
  revert a b p. induction q as [|c q IH]; intros a b p Hp Hq; cbn [strncmp_eq strncmp length]; [done|].
  pose proof (Hq 0%nat c eq_refl) as Hc. rewrite Z.add_0_r in Hc.
  destruct p as [|x p]; cbn [cstring] in Hp.
  - rewrite Hp. cbn [negb Z.eqb andb]. rewrite Hc. lia.
  - destruct Hp as (Hx & Hnz & Hp). rewrite Hx, Hc, (proj2 (Z.eqb_neq x 0)) by done. cbn [negb andb].
    destruct (Z.eqb_spec x c) as [->|Hne]; cbn [andb]; [|lia]. apply IH; [done|].
    intros k c' Hk. rewrite <- (Hq (S k) c' Hk). f_equal. lia.
Qed.

Lemma strncmp_eq_refl x : strncmp_eq x x = true.
Proof. induction x as [|c x IH]; cbn [strncmp_eq]; [done|]. destruct (Z.eqb_spec c 0); [lia|]. by rewrite Z.eqb_refl, IH. Qed.

(** What the cache relies on when it calls a directory: the call may fill the
    inode of dentries, and leaves the rest of the cache alone. *)
Definition cache_kept {F : Type} (s s' : vfs F) : Prop :=
  hash_table s' = hash_table s /\ fresh s' = fresh s /\
  forall d, (fun e => (name e, parent e)) <$> dentries s' !! d = (fun e => (name e, parent e)) <$> dentries s !! d.

Class DirLaws (F : Type) `{DirOps F} : Prop :=
  dir_lookup_kept : forall i d s r s', dir_lookup i d s = Ret r s' -> cache_kept s s'.

Section cached.
Context {F : Type} `{DirLaws F}.

(** [d] is at the front of the bucket of the name, with that name and parent. *)
Definition at_front (p : option nat) (x : list Z) (d : nat) (s : vfs F) : Prop :=
  (exists r, hash_table s !! (__hash x mod HASH_TABLE_SIZE) = Some (d :: r)) /\
  exists e, dentries s !! d = Some e /\ strncmp_eq (name e) x = true /\ parent e = p.

Lemma at_front_lookup p x d s : at_front p x d s -> lookup p x s = Ret (Some d) s.
Proof.
  intros [[r Hr] (e & He & Hn & Hp)]. unfold lookup, bucket. rewrite Hr. cbn [default from_option find_front id].
  unfold dentry_match at 1. rewrite He, Hn, bool_decide_eq_true_2 by done. cbn [andb].
  f_equal. destruct s. unfold set_bucket. f_equal. by apply insert_id.
Qed.

Lemma lookup_at_front p x s d s' : lookup p x s = Ret (Some d) s' -> at_front p x d s'.
Proof.
  unfold lookup. destruct (find_front _ _) as [[d' r]|] eqn:Ef; [|done]. intros [= -> <-].
  apply find_front_spec in Ef as [Hm _]. unfold dentry_match in Hm. destruct (dentries s !! d) as [e|] eqn:Ed; [|done].
  apply andb_true_iff in Hm as [Hn Hp%bool_decide_eq_true]. split.
  - exists r. apply lookup_insert_eq.
  - by exists e.
Qed.

Lemma get_free_dentry_run x p s :
  exists s', __get_free_dentry x p s = Ret (fresh s) s' /\ at_front p x (fresh s) s'.
Proof.
  unfold __get_free_dentry, __reuse, kbind, kget. eexists. split.
  - destruct (_ <=? _); reflexivity.
  - split; [eexists; apply lookup_insert_eq|]. eexists. split; [cbn; by rewrite lookup_alter_eq, lookup_insert_eq|].
    split; [apply strncmp_eq_refl|done].
Qed.

Lemma at_front_kept p x d s s' : at_front p x d s -> cache_kept s s' -> at_front p x d s'.
Proof.
  intros [[r Hr] (e & He & Hn & Hp)] (Ht & _ & Hd). split; [exists r; by rewrite Ht|].
  specialize (Hd d). rewrite He in Hd. destruct (dentries s' !! d) as [e'|]; [|done]. cbn in Hd. simplify_eq.
  exists e'. naive_solver congruence.
Qed.

End cached.

(** A name that was resolved is cached: the dentry returned belongs to the
    parent, its name agrees with the name asked for (on the length of the
    latter), and asking again returns it at once, without the directory and
    without any change of state. *)
Theorem get_cached {F : Type} `{DirLaws F} p x s d s' :
  get p x s = Ret (Some d) s' ->
  get p x s' = Ret (Some d) s' /\
  exists e, dentries s' !! d = Some e /\ parent e = p /\ strncmp_eq (name e) x = true.
Proof.
  intros Hget. assert (at_front p x d s') as Hf.
  { revert Hget. unfold get at 1. unfold kbind at 1. destruct (lookup p x s) as [[d'|] s1| | |] eqn:El; try done.
    - intros [= -> <-]. by eapply lookup_at_front.
    - destruct (get_free_dentry_run x p s1) as (s2 & Hrun & Hf). rewrite (kbind_ret _ _ _ _ _ Hrun).
      unfold kbind at 1. destruct (not_null p s2) as [q s2'| | |] eqn:Eq; try done.
      assert (s2' = s2) as -> by (destruct p; [by injection Eq|done]).
      unfold kbind at 1, the_dentry. destruct (dentries s2 !! q) as [e|]; [|done].
      unfold kbind at 1. destruct (not_null (_inode e) s2) as [i s3| | |] eqn:Ei; try done.
      assert (s3 = s2) as -> by (destruct (_inode e); [by injection Ei|done]).
      unfold kbind at 1. destruct (dir_lookup i (fresh s1) s2) as [ret s4| | |] eqn:Er; try done.
      destruct (ret =? -1); [done|]. intros [= <- <-]. eapply at_front_kept; [done|]. by eapply dir_lookup_kept. }
  split.
  - unfold get. by rewrite (kbind_ret _ _ _ _ _ (at_front_lookup _ _ _ _ Hf)).
  - destruct Hf as [_ (e & ? & ? & ?)]. by exists e.
Qed.
