(* ===== verification/NfsDir.v ===== *)
(** * Directories (src/os/fs/nfs/inode.cc)

    A directory is a file of 32-byte entries, an inode number (0 for a free
    slot) and a name.  The operations scan the entries one by one.  They are
    the methods the dentry cache calls: the instance [nfs_dir] is the
    implementation of the interface [DirOps] of the file Dentry.

    [frame] is what the stack holds below the local variables, whose contents
    the code leaves uninitialised; [recycled] and [garbage] are as in the file
    NfsMeta. *)
From S2P Require Import Prelude Memory CString Bitmap NfsBlock NfsInode NfsMeta Dentry.

Definition EINVAL : Z := 22.
Definition EPERM : Z := 1.
Definition SIZEOF_DIRENT : Z := 32.

(** Where the local [dirent], its name and the name of the dentry are. *)
Definition DIRENT : Z := 0.
Definition DIRENT_NAME : Z := 4.
Definition NAME : Z := 4096.

Definition dirent_inode (buf : list Z) : Z := load32 (wr_bytes ∅ DIRENT buf) DIRENT.

(** An operation of the file system in the state with the dentries. *)
Definition on_fs {A : Type} (m : K fs A) : K (vfs fs) A := fun s =>
  let back f := VFS f (dentries s) (this_dentry s) (hash_table s) (dcache_size s) (fresh s) in
  match m (v_fs s) with
  | Ret a f => Ret a (back f)
  | TaskFail f => TaskFail (back f)
  | Panic => Panic
  | OutOfFuel => OutOfFuel
  end.

Definition mark_dirty (i : minode) : minode := set_flags (i_valid i) true i.
Definition set_nlinks (n : Z) (i : minode) : minode :=
  Minode (i_size i) n (i_perm i) (i_type i) (addrs i) (next_addr_block i)
    (cache_raw_indirect_offset i) (cache_offset i) (cache_addr_block i) (i_valid i) (i_dirty i).
Definition set_type (t : Z) (i : minode) : minode :=
  Minode (i_size i) (i_nlinks i) (i_perm i) t (addrs i) (next_addr_block i)
    (cache_raw_indirect_offset i) (cache_offset i) (cache_addr_block i) (i_valid i) (i_dirty i).

Module nfs_inode.

Section dir.
Context (frame : memory) (recycled : minode) (garbage : dinode) (fuel : nat).
Notation M := (K (vfs fs)).

(** [strcmp(_dirent.name, name) == 0]. *)
Definition same_name (buf x : list Z) : M bool :=
  match strcmp (S (length x)) (wr_bytes (wr_bytes frame DIRENT buf) NAME (x ++ [0])) DIRENT_NAME NAME with
  | Some r => kret (r =? 0)
  | None => kfuel
  end.

(** The bytes of [new_dirent] in [__link]: a name of 28 characters puts its
    NUL behind the object. *)
Definition new_dirent (n : Z) (x : list Z) : memory :=
  let m := store32 (wr_bytes frame NAME (x ++ [0])) DIRENT n in
  wr8 (strncpy m DIRENT_NAME NAME (length x)) (DIRENT_NAME + Z.of_nat (length x)) 0.

(** The loop that looks for an empty slot. *)
Fixpoint find_slot (k : nat) (this offset : Z) : M (option Z) :=
  i <- on_fs (the_inode this) ;;
  if i_size i <=? offset then kret (Some offset)
  else
    match k with
    | O => kfuel
    | S k' =>
        '(read_size, buf) <- on_fs (inode_read this offset SIZEOF_DIRENT) ;;
        if negb (read_size =? SIZEOF_DIRENT) then kret None
        else if dirent_inode buf =? 0 then kret (Some offset)
        else find_slot k' this (offset + SIZEOF_DIRENT)
    end.

Definition __link (this : Z) (new_dentry : nat) (inode : Z) : M Z :=
  on_fs (inode_load inode) ;;;
  e <- dentry_cache.the_dentry new_dentry ;;
  let bs := rd_bytes (Z.to_nat SIZEOF_DIRENT) (new_dirent inode (name e)) DIRENT in
  dentry_cache.set_dentry inode new_dentry ;;;
  dentry_cache.set_inode new_dentry (Some inode) ;;;
  on_fs (upd_inode inode (fun i => mark_dirty (set_nlinks (u16 (i_nlinks i + 1)) i))) ;;;
  offset <- find_slot fuel this 0 ;;
  match offset with
  | None => kret (-1)
  | Some offset => on_fs (inode_write this bs offset) ;;; kret 0
  end.

(** [name.size() > MAX_NAME_LENGTH]. *)
Definition name_too_long (d : nat) : M bool :=
  e <- dentry_cache.the_dentry d ;; kret (MAX_NAME_LENGTH <? Z.of_nat (length (name e))).

(** [create] and [mkdir] differ in the type. *)
Definition make_node (type this : Z) (new_dentry : nat) : M Z :=
  too_long <- name_too_long new_dentry ;;
  if (too_long : bool) then kret (- EINVAL)
  else
    on_fs (inode_load this) ;;;
    new_inode <- on_fs (alloc_inode recycled) ;;
    on_fs (inode_load new_inode) ;;;
    on_fs (upd_inode new_inode (fun i => mark_dirty (set_type type i))) ;;;
    __link this new_dentry new_inode.
Definition create : Z -> nat -> M Z := make_node ITYPE_FILE.
Definition mkdir : Z -> nat -> M Z := make_node ITYPE_DIR.

Definition link (this : Z) (old_dentry new_dentry : nat) : M Z :=
  too_long <- name_too_long new_dentry ;;
  if (too_long : bool) then kret (- EINVAL)
  else
    on_fs (inode_load this) ;;;
    e <- dentry_cache.the_dentry old_dentry ;;
    old_inode <- dentry_cache.not_null (_inode e) ;;
    __link this new_dentry old_inode.

Definition symlink (this : Z) (old_dentry new_dentry : nat) : M Z := kret (- EPERM).
Definition rmdir (this : Z) (old_dentry : nat) : M Z := kret (- EPERM).

(** The loop of [lookup], with its 32-bit offset. *)
Fixpoint lookup_loop (k : nat) (this : Z) (new_dentry : nat) (x : list Z) (offset : Z) : M Z :=
  i <- on_fs (the_inode this) ;;
  if i_size i <=? offset then kret (-1)
  else
    match k with
    | O => kfuel
    | S k' =>
        '(read_size, buf) <- on_fs (inode_read this offset SIZEOF_DIRENT) ;;
        if negb (read_size =? SIZEOF_DIRENT) then kret (-1)
        else
          let offset := u32 (offset + SIZEOF_DIRENT) in
          if dirent_inode buf =? 0 then lookup_loop k' this new_dentry x offset
          else
            found <- same_name buf x ;;
            if (found : bool) then
              on_fs (get_inode recycled (dirent_inode buf)) ;;;
              on_fs (inode_load (dirent_inode buf)) ;;;
              dentry_cache.set_dentry (dirent_inode buf) new_dentry ;;;
              dentry_cache.set_inode new_dentry (Some (dirent_inode buf)) ;;;
              kret 0
            else lookup_loop k' this new_dentry x offset
    end.

Definition lookup (this : Z) (new_dentry : nat) : M Z :=
  too_long <- name_too_long new_dentry ;;
  if (too_long : bool) then kret (- EINVAL)
  else
    on_fs (inode_load this) ;;;
    e <- dentry_cache.the_dentry new_dentry ;;
    lookup_loop fuel this new_dentry (name e) 0.

(** The generator [read_dir], run to its end: the dentries it yields. *)
Fixpoint read_dir_loop (k : nat) (this : Z) (dir : nat) (offset : Z) : M (list nat) :=
  i <- on_fs (the_inode this) ;;
  if i_size i <=? offset then kret []
  else
    match k with
    | O => kfuel
    | S k' =>
        '(read_size, buf) <- on_fs (inode_read this offset SIZEOF_DIRENT) ;;
        if negb (read_size =? SIZEOF_DIRENT) then kret []
        else
          let offset := u32 (offset + SIZEOF_DIRENT) in
          if dirent_inode buf =? 0 then read_dir_loop k' this dir offset
          else
            let m := wr_bytes frame DIRENT buf in
            match strlen fuel m DIRENT_NAME with
            | None => kfuel
            | Some n =>
                on_fs (get_inode recycled (dirent_inode buf)) ;;;
                d <- dentry_cache.get_or_create (Some dir) (rd_bytes (Z.to_nat n) m DIRENT_NAME)
                       (Some (dirent_inode buf)) ;;
                ds <- read_dir_loop k' this dir offset ;;
                kret (d :: ds)
            end
    end.
Definition read_dir (this : Z) : M (list nat) :=
  on_fs (inode_load this) ;;;
  s <- kget ;;
  dir <- dentry_cache.not_null (this_dentry s !! this) ;;
  e <- dentry_cache.the_dentry dir ;;
  kernel_assert (bool_decide (_inode e = Some this)) ;;;
  read_dir_loop fuel this dir 0.

(** The inode of an entry that is removed. *)
Definition drop_link (inode : Z) : M unit :=
  on_fs (inode_load inode) ;;;
  on_fs (upd_inode inode (fun i => set_nlinks (u16 (i_nlinks i - 1)) i)) ;;;
  i <- on_fs (the_inode inode) ;;
  if i_nlinks i =? 0 then
    on_fs (truncate fuel inode 0) ;;;
    on_fs (inode_flush inode) ;;;
    on_fs (free_inode garbage inode) ;;;
    on_fs (upd_inode inode (set_flags false false))
  else on_fs (upd_inode inode mark_dirty).

Fixpoint unlink_loop (k : nat) (this : Z) (old_dentry : nat) (x : list Z) (offset : Z) : M Z :=
  i <- on_fs (the_inode this) ;;
  if i_size i <=? offset then kret (-1)
  else
    match k with
    | O => kfuel
    | S k' =>
        '(read_size, buf) <- on_fs (inode_read this offset SIZEOF_DIRENT) ;;
        if negb (read_size =? SIZEOF_DIRENT) then kret (-1)
        else
          found <- (if dirent_inode buf =? 0 then kret false else same_name buf x) ;;
          if (found : bool) then
            e <- dentry_cache.the_dentry old_dentry ;;
            old_inode <- dentry_cache.not_null (_inode e) ;;
            drop_link old_inode ;;;
            on_fs (inode_write this (le 4 0 ++ drop 4 buf) offset) ;;;
            kret 0
          else unlink_loop k' this old_dentry x (u32 (offset + SIZEOF_DIRENT))
    end.

Definition unlink (this : Z) (old_dentry : nat) : M Z :=
  too_long <- name_too_long old_dentry ;;
  if (too_long : bool) then kret (- EINVAL)
  else
    on_fs (inode_load this) ;;;
    e <- dentry_cache.the_dentry old_dentry ;;
    unlink_loop fuel this old_dentry (name e) 0.

End dir.

End nfs_inode.
