(* ===== verification/NfsFormat.v ===== *)
(** * Making a file system (src/os/fs/nfs/nfs.cc)

    [make_fs] lays out a device.  A file system made by it satisfies the
    invariants the other files assume; a complete run, from [make_fs] to the
    lookup of a file in a file system that was unmounted and mounted again,
    ends as it should. *)
From S2P Require Import Prelude Memory CString Bitmap Dentry NfsDir NfsBlock NfsInode NfsRep NfsData NfsFile NfsMeta NfsTable NfsDurable NfsMount.

(** ** Definitions *)

(** The superblock [make_fs] computes, in 32-bit arithmetic. *)
Definition make_sb (garbage : dinode) (nblocks : Z) : superblock :=
  let generic := u32 ((nblocks - 2) * BITMAP_BLOCK_SIZE) / (BITMAP_BLOCK_SIZE + 1) in
  Superblock NFS_MAGIC nblocks generic 0 2 (u32 (2 + nblocks - generic)) BITMAP_BLOCK_INDEX garbage.

Definition zero_block : list Z := replicate (Z.to_nat BLOCK_SIZE) 0.

(** [for (i = BITMAP_BLOCK_INDEX; i < generic_block_start; i++)]: [memset] of
    the bitmap blocks, [n] of them from [i] on. *)
Fixpoint clear_bitmaps (n : nat) (i : Z) : K fs unit :=
  match n with
  | O => kret tt
  | S n' =>
      m <- bget i ;;
      bset i (wr_bytes m 0 zero_block) ;;;
      bmark_dirty i ;;;
      clear_bitmaps n' (i + 1)
  end.

(** [for (i = 0; i < generic_block_start; i++) bitmap_set(buf, i);] *)
Fixpoint set_bits (n : nat) (i : Z) (m : memory) : memory :=
  match n with
  | O => m
  | S n' => set_bits n' (i + 1) (bitmap_set m 0 i)
  end.

Definition set_inode_meta (type nlinks : Z) (i : minode) : minode := mark_dirty (set_nlinks nlinks (set_type type i)).

(** [make_fs] up to the call of [unmount]; the device has the blocks of the
    state.  The members of [temp_dinode] that the code does not set are those
    of [garbage]. *)
Definition make_fs_image (fresh_inode recycled : minode) (garbage : dinode) (nblocks : Z) : K fs unit :=
  if nblocks <? 1024 then kfail
  else
    kmodify (fun s => FS (cells s) (make_sb garbage nblocks) true ∅) ;;;
    s <- kget ;;
    let gbs := generic_block_start (sb s) in
    clear_bitmaps (Z.to_nat (gbs - BITMAP_BLOCK_INDEX)) BITMAP_BLOCK_INDEX ;;;
    m <- bget BITMAP_BLOCK_INDEX ;;
    bset BITMAP_BLOCK_INDEX (set_bits (Z.to_nat gbs) 0 m) ;;;
    bmark_dirty BITMAP_BLOCK_INDEX ;;;
    kmodify (fun s => FS (cells s) (sb s) (sb_dirty s) (<[INODE_TABLE_NUMBER := fresh_inode]> (inodes s))) ;;;
    init_data INODE_TABLE_NUMBER ;;;
    upd_inode INODE_TABLE_NUMBER (set_inode_meta ITYPE_FILE 1) ;;;
    table_write (encode_dinode (Dinode (ROOT_INODE_NUMBER + 1) 1 (d_perm garbage) ITYPE_NEXT_FREE_INODE
      (d_next_addr_block garbage) (d_addrs garbage))) 0 ;;;
    get_inode recycled ROOT_INODE_NUMBER ;;;
    init_data ROOT_INODE_NUMBER ;;;
    upd_inode ROOT_INODE_NUMBER (set_inode_meta ITYPE_DIR 1).

Definition make_fs (fresh_inode recycled : minode) (garbage : dinode) (order : list Z) (nblocks : Z) : K fs unit :=
  make_fs_image fresh_inode recycled garbage nblocks ;;;
  unmount order.

(** ** The layout *)

(** The layout of every device of up to 2 ^ 19 blocks: the bitmap covers the
    device and generic blocks are left.  The blocks promised as generic are two
    more than there are. *)
Lemma layout_bounds garbage nblocks :
  1024 <= nblocks <= 2 ^ 19 ->
  let b := make_sb garbage nblocks in
  BITMAP_BLOCK_INDEX < generic_block_start b < 80 /\
  total_blocks b < (generic_block_start b - BITMAP_BLOCK_INDEX) * BITMAP_BLOCK_SIZE < 2 ^ 32 /\
  generic_block_start b + total_generic_blocks b = total_blocks b + 2.
Proof.
  intros Hn. unfold make_sb. cbn [generic_block_start total_blocks total_generic_blocks].
  change BITMAP_BLOCK_SIZE with 8192. change BITMAP_BLOCK_INDEX with 2. change (8192 + 1) with 8193.
  rewrite (u32_small ((nblocks - 2) * 8192)) by lia. rewrite u32_small by zlia. zlia.
Qed.

(** ** The bitmap *)

Lemma clear_bitmaps_run n i s :
  (forall b, i <= b < i + Z.of_nat n -> is_Some (cells s !! b)) ->
  exists s', clear_bitmaps n i s = Ret tt s' /\ sb s' = sb s /\ inodes s' = inodes s /\
    (forall b, is_Some (cells s' !! b) <-> is_Some (cells s !! b)) /\
    (forall b, contents s' b =
      if decide (i <= b < i + Z.of_nat n) then wr_bytes (contents s b) 0 zero_block else contents s b).
Proof.
  revert i s. induction n as [|n IH]; intros i s Hc; cbn [clear_bitmaps].
  { exists s. split_and!; try done. intros b. by rewrite decide_False by lia. }
  rewrite bget_run by (apply Hc; lia). rewrite put_run.
  destruct (IH (i + 1) (put s i (wr_bytes (contents s i) 0 zero_block))) as (s' & Hrun & H1 & H2 & H3 & H4).
  { intros b Hb. apply cells_put_some, Hc. lia. }
  exists s'. split_and!; [done|done|done|intros b; by rewrite H3, cells_put_some|].
  intros b. rewrite H4, contents_put by (apply Hc; lia). repeat case_decide; subst; try lia; done.
Qed.

Lemma marked_clear_bitmaps n i : krel marked (clear_bitmaps n i).
Proof. revert i. induction n as [|n IH]; intros i; cbn [clear_bitmaps]; kmarked. Qed.

Lemma zero_block_bit m v : 0 <= v < BITMAP_BLOCK_SIZE -> bitmap_get (wr_bytes m 0 zero_block) 0 v = false.
Proof.
  intros Hv. rewrite bitmap_get_testbit.
  assert (forall x, 0 <= x < BLOCK_SIZE -> rd8 (wr_bytes m 0 zero_block) x = 0) as Hz.
  { intros x Hx. apply (wr_bytes_inside _ _ _ _ 0); [lia|]. apply lookup_replicate. split; [done|lia]. }
  assert (word_at (wr_bytes m 0 zero_block) 0 (v / 64) = 0) as ->; [|apply Z.testbit_0_l].
  unfold word_at. rewrite !load_S, !Hz by nlia. done.
Qed.

Lemma set_bits_get n i m v :
  0 <= i -> 0 <= v -> bitmap_get (set_bits n i m) 0 v = bool_decide (i <= v < i + Z.of_nat n) || bitmap_get m 0 v.
Proof.
  revert i m. induction n as [|n IH]; intros i m Hi Hv; cbn [set_bits].
  { by rewrite bool_decide_eq_false_2 by lia. }
  rewrite IH, bitmap_set_get by lia.
  destruct (decide (i = v)); [rewrite (bool_decide_eq_true_2 (i = v)) by done|rewrite (bool_decide_eq_false_2 (i = v)) by done].
  - rewrite (bool_decide_eq_true_2 (i <= v < _)) by lia. apply orb_true_r.
  - cbn [orb]. f_equal. apply bool_decide_ext. lia.
Qed.

(** ** The first write *)

Lemma alloc_returns s b :
  blocks_ok s -> used_generic_blocks (sb s) < total_generic_blocks (sb s) ->
  (next_free_bitmap (sb s) - BITMAP_BLOCK_INDEX) * BITMAP_BLOCK_SIZE <= b < total_blocks (sb s) ->
  allocated s b = false ->
  exists x s', alloc_block s = Ret x s' /\ alloc_post s x s'.
Proof.
  intros Hok Hu Hb Hfree. pose proof (alloc_block_spec s Hok) as Hspec.
  destruct (alloc_block s) as [x s'|s'| |]; try done; [by exists x, s'|].
  destruct Hspec as (_ & _ & _ & _ & _ & [Hfull|Hfull]); [lia|]. by rewrite Hfull in Hfree.
Qed.

(** The first block of the inode exists, or can be allocated. *)
Definition first_ready (s : fs) (i : minode) : Prop :=
  let b := nthZ (addrs i) 0 in
  (b = NO_BLOCK /\ exists x s1, alloc_block s = Ret x s1 /\ alloc_post s x s1) \/
  (b <> NO_BLOCK /\ is_Some (cells s !! b)).

Lemma direct_write_returns s n i doff buf size :
  inodes s !! n = Some i -> first_ready s i -> 0 <= doff -> 0 <= size -> doff + size <= BLOCK_SIZE ->
  exists r s', direct_data_block_rw true n 0 doff buf size s = Ret r s'.
Proof.
  intros Hi Hfirst Hd Hs Hds. unfold direct_data_block_rw.
  rewrite !assert_run by (rewrite ?u32_small by nlia; nlia). unfold kbind at 1, the_inode. rewrite Hi.
  destruct Hfirst as [(Hk & x & s1 & Hrun & Hpost)|(Hk & Hc)].
  - destruct Hpost as (Hx & _ & _ & _ & _ & Hok & (Ht & Hg & _) & _).
    rewrite Hk, Z.eqb_refl. rewrite (kbind_ret _ _ _ _ _ Hrun).
    unfold kbind at 1, upd_inode, kmodify. unfold block_transfer. rewrite bget_run, put_run.
    + eexists _, _. reflexivity.
    + apply (bo_cells _ Hok). destruct Hok. nlia.
  - rewrite (proj2 (Z.eqb_neq _ _) Hk). unfold block_transfer. rewrite bget_run, put_run by done.
    eexists _, _. reflexivity.
Qed.

Lemma direct_loop_done fuel w n p : p_size p = 0 -> direct_loop fuel w n p = kret p.
Proof. intros Hp. destruct fuel; cbn [direct_loop]; by rewrite Hp, andb_false_r. Qed.

(** So a write into the first block of a file returns. *)
Lemma first_write_returns s n i src off :
  inodes s !! n = Some i -> first_ready s i -> 0 <= off -> 0 < Z.of_nat (length src) ->
  off + Z.of_nat (length src) <= BLOCK_SIZE ->
  exists r s', data_rw true n src off (Z.of_nat (length src)) s = Ret r s'.
Proof.
  intros Hi Hfirst Ho Hl Hol.
  destruct (direct_write_returns s n i off src (Z.of_nat (length src))) as (out & s2 & Hrw); [done|done|lia|lia|lia|].
  set (p := Progress src off (Z.of_nat (length src)) 0 []).
  assert (forall fuel, direct_loop (S fuel) true n p s = Ret (step_by (Z.of_nat (length src)) out p) s2) as Hloop.
  { intros fuel. cbn [direct_loop]. cbn [p p_offset p_size p_buf].
    rewrite (proj2 (Z.ltb_lt 0 (Z.of_nat (length src)))) by lia. rewrite (proj2 (Z.ltb_lt off DIRECT_DATA_SIZE)) by nlia.
    cbn [andb]. replace (off / BLOCK_SIZE) with 0 by nlia. change (u32 0) with 0.
    rewrite (u32_small (off mod BLOCK_SIZE)), (Z.mod_small off) by nlia.
    rewrite (u32_small (Z.min _ _)), Z.min_l by nlia. unfold kbind. rewrite Hrw.
    rewrite direct_loop_done; [done|]. cbn [step_by p p_size]. by rewrite Z.sub_diag. }
  unfold data_rw. rewrite (kbind_ret _ _ _ _ _ (Hloop 12%nat)). cbn [step_by p p_size].
  rewrite Z.sub_diag. eexists _, _. reflexivity.
Qed.

Lemma table_write_returns s f i src off :
  table_ok s f -> inodes s !! INODE_TABLE_NUMBER = Some i -> first_ready s i -> bytes src ->
  0 <= off -> 0 < Z.of_nat (length src) -> off + Z.of_nat (length src) <= BLOCK_SIZE ->
  exists r s', table_write src off s = Ret r s'.
Proof.
  intros Ht Hi Hfirst Hb Ho Hl Hol.
  unfold table_write. rewrite (kbind_ret _ _ _ _ _ (load_table_run s f Ht)).
  destruct Ht as (t & l & Hok & _). assert (t = i) as -> by (rewrite (fo_inode _ _ _ _ Hok) in Hi; congruence).
  destruct (first_write_returns s INODE_TABLE_NUMBER i src off) as (r & s2 & Hrw); [done|done|done|done|done|].
  pose proof (file_write_spec s INODE_TABLE_NUMBER i l off src Hok Hb) as Hspec. rewrite Hrw in Hspec.
  destruct Hspec as (-> & i' & l' & Hok' & _); [lia|nlia|].
  unfold write_loaded. rewrite (kbind_ret _ _ _ _ _ Hrw). cbv beta iota.
  unfold kbind at 1, the_inode. rewrite (fo_inode _ _ _ _ Hok').
  destruct (_ <? _); eexists _, _; reflexivity.
Qed.

(** ** The image *)

(** The superblock and the bitmap, as [make_fs] leaves them before the first
    write: exactly the blocks in front of the generic ones are allocated. *)
Lemma format_bitmaps garbage nblocks s :
  1024 <= nblocks <= 2 ^ 19 -> (forall b, 0 <= b < nblocks -> is_Some (cells s !! b)) ->
  sb s = make_sb garbage nblocks ->
  let gbs := generic_block_start (sb s) in
  exists s', (forall {B} (k : K fs B), (clear_bitmaps (Z.to_nat (gbs - BITMAP_BLOCK_INDEX)) BITMAP_BLOCK_INDEX ;;;
      m <- bget BITMAP_BLOCK_INDEX ;;
      bset BITMAP_BLOCK_INDEX (set_bits (Z.to_nat gbs) 0 m) ;;; bmark_dirty BITMAP_BLOCK_INDEX ;;; k) s = k s') /\
    marked s s' /\ blocks_ok s' /\ sb s' = sb s /\ inodes s' = inodes s /\
    (forall b, 0 <= b < nblocks -> allocated s' b = bool_decide (b < gbs)).
Proof.
  intros Hn Hc Hsb gbs. pose proof (layout_bounds garbage nblocks Hn) as (L1 & L2 & L3). rewrite <- Hsb in L1, L2, L3.
  assert (total_blocks (sb s) = nblocks) as Ht by by rewrite Hsb.
  destruct (clear_bitmaps_run (Z.to_nat (gbs - BITMAP_BLOCK_INDEX)) BITMAP_BLOCK_INDEX s) as (s1 & Hrun & H1 & H2 & H3 & H4).
  { intros b Hb. apply Hc. subst gbs. nlia. }
  assert (is_Some (cells s1 !! BITMAP_BLOCK_INDEX)) as H5 by (apply H3, Hc; nlia).
  set (s2 := put s1 BITMAP_BLOCK_INDEX (set_bits (Z.to_nat gbs) 0 (contents s1 BITMAP_BLOCK_INDEX))). exists s2. split.
  { intros B k. by rewrite (kbind_ret _ _ _ _ _ Hrun), bget_run, put_run by done. }
  assert (marked s s2) as Hm by (etransitivity; [by eapply marked_clear_bitmaps|apply put_marked]).
  assert (forall b, 0 <= b < nblocks -> allocated s2 b = bool_decide (b < gbs)) as Hal.
  { intros b Hb. unfold allocated. subst s2. rewrite contents_put, !H4 by done.
    rewrite (decide_True (P := BITMAP_BLOCK_INDEX <= BITMAP_BLOCK_INDEX < _)) by (subst gbs; nlia).
    case_decide as Hd.
    - rewrite set_bits_get, zero_block_bit, orb_false_r by nlia. apply bool_decide_ext. subst gbs. nlia.
    - rewrite decide_True, zero_block_bit by (subst gbs; nlia).
      rewrite bool_decide_eq_false_2; [done|]. subst gbs. nlia. }
  split_and!; [done| |done|done|exact Hal]. split; subst s2; cbn [put with_cells sb]; rewrite ?H1.
  - lia.
  - done.
  - by rewrite Hsb.
  - intros b Hb. apply cells_put_some, H3, Hc. lia.
  - intros b Hb. rewrite Hal by lia. by rewrite bool_decide_eq_true_2 by (subst gbs; lia).
Qed.

(** The head of the list of free inodes that [make_fs] writes. *)
Definition first_head (garbage : dinode) : dinode :=
  Dinode (ROOT_INODE_NUMBER + 1) 1 (d_perm garbage) ITYPE_NEXT_FREE_INODE (d_next_addr_block garbage) (d_addrs garbage).

Lemma first_head_ok garbage : dinode_ok garbage -> dinode_ok (first_head garbage).
Proof. intros [H1 H2 H3 H4 H5 H6 H7]. split; try done; cbn; unfold ROOT_INODE_NUMBER, ITYPE_NEXT_FREE_INODE; lia. Qed.

(** The root directory of a new file system. *)
Definition root_dinode : dinode :=
  Dinode 0 1 0 ITYPE_DIR NO_BLOCK (replicate (Z.to_nat NUM_DIRECT_DATA) NO_BLOCK).

(** A file system that was just made: the invariants hold, the table has its
    head and nothing else, the root is an empty directory that is not yet
    written. *)
Record new_image (garbage : dinode) (nblocks : Z) (s : fs) : Prop := {
  ni_durable : durable s;
  ni_layout : total_blocks (sb s) = nblocks;
  ni_table : exists f, table_ok s f /\ slot f INODE_TABLE_NUMBER = first_head garbage /\
    forall k, ROOT_INODE_NUMBER <= k -> slot f k = slot (fun _ => 0) k;
  ni_root : exists r, inodes s !! ROOT_INODE_NUMBER = Some r /\ copy_out r = root_dinode /\
    i_valid r = true /\ i_dirty r = true;
  ni_inodes : forall k, k <> INODE_TABLE_NUMBER -> k <> ROOT_INODE_NUMBER -> inodes s !! k = None
}.

Section image.
Context (fresh recycled : minode) (garbage : dinode) (nblocks : Z) (s : fs).
Context (Hn : 1024 <= nblocks <= 2 ^ 19) (Hcells : forall b, 0 <= b < nblocks -> is_Some (cells s !! b)).
Context (Hfresh : cache_raw_indirect_offset fresh = NO_BLOCK) (Hgarbage : dinode_ok garbage).

(** The table, before its first write. *)
Definition table0 : minode :=
  Minode 0 1 0 ITYPE_FILE (replicate (Z.to_nat NUM_DIRECT_DATA) NO_BLOCK) NO_BLOCK
    (cache_raw_indirect_offset fresh) (cache_offset fresh) (cache_addr_block fresh) true true.

Lemma first_table_write s1 :
  blocks_ok s1 -> sb s1 = make_sb garbage nblocks -> sb_dirty s1 = true -> inodes s1 = {[INODE_TABLE_NUMBER := table0]} ->
  (forall b, 0 <= b < nblocks -> allocated s1 b = bool_decide (b < generic_block_start (sb s1))) ->
  exists r s2, table_write (encode_dinode (first_head garbage)) 0 s1 = Ret r s2 /\ marked s1 s2 /\
    table_ok s2 (overwrite (fun _ => 0) 0 (encode_dinode (first_head garbage))) /\ others_kept s1 s2.
Proof.
  intros Hok Hsb Hd Hi Hal. pose proof (layout_bounds garbage nblocks Hn) as (L1 & L2 & L3). rewrite <- Hsb in L1, L2, L3.
  destruct (new_file_ok s1 INODE_TABLE_NUMBER table0) as [Hf Hz]; [done|by rewrite Hi, lookup_singleton_eq|done|done|done|].
  assert (table_ok s1 (fun _ => 0)) as Ht by (exists table0, []; done).
  assert (bytes (encode_dinode (first_head garbage))) as Hb by apply encode_bytes.
  pose proof (encode_length _ (first_head_ok _ Hgarbage)) as Hlen. change SIZEOF_DINODE with 64 in Hlen.
  destruct (alloc_returns s1 (generic_block_start (sb s1))) as (x & s1' & Hrun & Hpost).
  - done.
  - rewrite Hsb. cbn [make_sb used_generic_blocks total_generic_blocks]. rewrite u32_small by nlia. nlia.
  - rewrite Hsb at 1. cbn [make_sb next_free_bitmap]. assert (total_blocks (sb s1) = nblocks) as -> by by rewrite Hsb. nlia.
  - rewrite Hal by nlia. by rewrite bool_decide_eq_false_2 by lia.
  - destruct (kspec_returns _ _ _ (table_write_spec s1 _ _ 0 Ht Hb ltac:(lia) ltac:(lia))) as (r & s2 & Hr & _ & Ht2 & Ho).
    { assert (inodes s1 !! INODE_TABLE_NUMBER = Some table0) as Hi0 by by rewrite Hi, lookup_singleton_eq.
      apply (table_write_returns s1 _ table0 _ 0 Ht Hi0); [|done|lia|lia|nlia].
      left. split; [by apply nth_none|]. by exists x, s1'. }
    exists r, s2. split_and!; [done|by eapply marked_table_write|done|done].
Qed.

(** The state before the first write to the table. *)
Lemma prepare_table {B} (k : K fs B) s1 :
  inodes s1 = ∅ ->
  (kmodify (fun s => FS (cells s) (sb s) (sb_dirty s) (<[INODE_TABLE_NUMBER := fresh]> (inodes s))) ;;;
   init_data INODE_TABLE_NUMBER ;;;
   upd_inode INODE_TABLE_NUMBER (set_inode_meta ITYPE_FILE 1) ;;; k) s1 =
  k (FS (cells s1) (sb s1) (sb_dirty s1) {[INODE_TABLE_NUMBER := table0]}).
Proof.
  intros Hi. unfold kbind, init_data, upd_inode, kmodify. cbn [cells sb sb_dirty inodes]. by rewrite Hi.
Qed.

Lemma sb_ok_make : sb_ok (make_sb garbage nblocks).
Proof.
  pose proof (layout_bounds garbage nblocks Hn) as (L1 & L2 & L3). revert L1 L2 L3. unfold make_sb.
  cbn [generic_block_start total_blocks total_generic_blocks]. intros L1 L2 L3.
  split; try done; cbn [total_blocks total_generic_blocks used_generic_blocks ninodes generic_block_start]; unfold is_u32; nlia.
Qed.

(** Adding the root to the state behind the first write. *)
Lemma new_image_intro s3 r :
  durable s3 -> total_blocks (sb s3) = nblocks ->
  table_ok s3 (overwrite (fun _ => 0) 0 (encode_dinode (first_head garbage))) ->
  (forall k, k <> INODE_TABLE_NUMBER -> inodes s3 !! k = None) ->
  copy_out r = root_dinode -> i_valid r = true -> i_dirty r = true ->
  new_image garbage nblocks (FS (cells s3) (sb s3) (sb_dirty s3) (<[ROOT_INODE_NUMBER := r]> (inodes s3))).
Proof.
  intros [D1 D2 D3 D4 D5] Ht Htab Hnone Hr Hv Hd.
  assert (forall x, inodes (FS (cells s3) (sb s3) (sb_dirty s3) (<[ROOT_INODE_NUMBER := r]> (inodes s3))) !! INODE_TABLE_NUMBER =
    Some x -> inodes s3 !! INODE_TABLE_NUMBER = Some x) as Htb by (intros x; cbn [inodes]; by rewrite lookup_insert_ne).
  split.
  - split; [exact D1|intros x Hx%Htb; by apply D2|intros x Hx%Htb; by apply D3|done|done].
  - done.
  - eexists. split_and!.
    + eapply table_ok_same; [exact Htab|done|done|done|]. cbn [inodes]. by rewrite lookup_insert_ne.
    + exact (slot_overwrite_eq (fun _ => 0) 0 _ (first_head_ok _ Hgarbage)).
    + intros k Hk. apply (slot_overwrite_ne (fun _ => 0) 0 k _ (first_head_ok _ Hgarbage)). unfold ROOT_INODE_NUMBER in Hk. lia.
  - exists r. cbn [inodes]. rewrite lookup_insert_eq. done.
  - intros k Hk0 Hk1. cbn [inodes]. rewrite lookup_insert_ne by done. by apply Hnone.
Qed.

Hypothesis Hclean : clean_cells s.

Lemma make_fs_image_spec :
  exists s', make_fs_image fresh recycled garbage nblocks s = Ret tt s' /\ new_image garbage nblocks s'.
Proof.
  unfold make_fs_image. rewrite (proj2 (Z.ltb_ge _ _)) by lia.
  set (s0 := FS (cells s) (make_sb garbage nblocks) true ∅). unfold kbind at 1, kmodify at 1. unfold kbind at 1, kget at 1.
  change (FS (cells s) (make_sb garbage nblocks) true ∅) with s0.
  destruct (format_bitmaps garbage nblocks s0 Hn Hcells eq_refl) as (s1 & Hrun & Hm1 & Hok1 & Hsb1 & Hi1 & Hal1).
  rewrite Hrun, prepare_table by done. set (s2 := FS (cells s1) _ _ _). clear Hrun.
  assert (sb_dirty s2 = true) as Hd2 by by apply (mk_dirty _ _ Hm1).
  destruct (first_table_write s2) as (r & s3 & Hw & Hm3 & Ht3 & Ho3).
  - destruct Hok1. by split.
  - done.
  - done.
  - done.
  - intros b Hb. cbn [s2 sb]. rewrite Hsb1. exact (Hal1 b Hb).
  - change (Dinode (ROOT_INODE_NUMBER + 1) 1 _ _ _ _) with (first_head garbage). rewrite (kbind_ret _ _ _ _ _ Hw).
    assert (forall k, k <> INODE_TABLE_NUMBER -> inodes s3 !! k = None) as Hnone.
    { intros k Hk. rewrite Ho3 by done. cbn [s2 inodes]. by rewrite lookup_singleton_ne. }
    assert (forall x, inodes s2 !! INODE_TABLE_NUMBER = Some x -> x = table0) as Hx.
    { intros x. cbn [s2 inodes]. rewrite lookup_singleton_eq. congruence. }
    assert (sb_ok (sb s2)) as Hsb2 by (cbn [s2 sb]; rewrite Hsb1; apply sb_ok_make).
    unfold kbind, get_inode, init_data, upd_inode, kmodify. rewrite Hnone by done. cbn [cells sb sb_dirty inodes].
    rewrite !(alter_at _ _ _ _ (lookup_insert_eq _ _ _)), !insert_insert_eq. eexists. split; [reflexivity|].
    apply new_image_intro; try done.
    + split.
      * apply (mk_cells _ _ Hm3), (mk_cells _ _ Hm1), Hclean.
      * apply (mk_table _ _ Hm3). by intros x ->%Hx.
      * apply (mk_meta _ _ Hm3 (sk_table _ Hsb2)). intros x ->%Hx. unfold meta_ok, is_u32, table0, ITYPE_FILE. cbn; lia.
      * by apply (sb_ok_marked _ _ Hm3).
      * by rewrite (mk_dirty _ _ Hm3).
    + destruct (mk_sb _ _ Hm3) as (u & nx & -> & _). cbn [s2 sb]. by rewrite Hsb1.
Qed.

End image.

(** ** The whole of [make_fs] *)

(** The table of a new image has its first block: its first byte is not zero. *)
Lemma image_first_block garbage s t l f :
  dinode_ok garbage -> file_ok s INODE_TABLE_NUMBER t l -> (forall pos, 0 <= pos -> file_byte s t l pos = f pos) ->
  slot f INODE_TABLE_NUMBER = first_head garbage -> first_ready s t.
Proof.
  intros Hg Hok Hf Hs.
  assert (file_block s t l 0 = nthZ (addrs t) 0) as Hfb by (unfold file_block; by rewrite decide_True).
  destruct (decide (nthZ (addrs t) 0 = NO_BLOCK)) as [Hno|Hyes].
  - exfalso. assert (d_size (slot f INODE_TABLE_NUMBER) = 0); [|by rewrite Hs in *].
    rewrite slot_eq. rewrite (slice_ext _ (fun _ => 0)), slice_zeros; [by vm_compute|].
    intros pos Hpos. unfold INODE_TABLE_NUMBER, SIZEOF_DINODE in Hpos. rewrite <- Hf by lia. unfold file_byte.
    replace (pos / BLOCK_SIZE) with 0 by nlia. by rewrite Hfb, Hno, decide_True.
  - right. split; [done|]. pose proof (fo_blocks _ _ _ _ Hok) as Hb. apply (bo_cells _ Hb).
    destruct (fo_own _ _ _ _ Hok (nthZ (addrs t) 0)) as [Hr _]; [right; by exists 0|]. pose proof (bo_start _ Hb). nlia.
Qed.

Lemma root_dinode_ok : dinode_ok root_dinode.
Proof.
  assert (0 <= NO_BLOCK < 2 ^ 32) as Hno by by vm_compute.
  split; cbn [root_dinode d_size d_nlinks d_perm d_type d_next_addr_block d_addrs]; unfold ITYPE_DIR; try lia; try done.
  by apply Forall_replicate.
Qed.

(** The flush of the root needs no new block. *)
Lemma flush_root_returns s f t r :
  table_ok s f -> inodes s !! INODE_TABLE_NUMBER = Some t -> first_ready s t ->
  inodes s !! ROOT_INODE_NUMBER = Some r -> copy_out r = root_dinode ->
  exists s', flush_inodes [ROOT_INODE_NUMBER] s = Ret tt s'.
Proof.
  intros Ht Hi Hfirst Hr Hc. cbn [flush_inodes]. unfold inode_flush. unfold kbind at 2, the_inode.
  unfold kbind at 1. rewrite Hr. destruct (i_valid r && i_dirty r); [|eexists; reflexivity].
  pose proof (encode_length _ root_dinode_ok) as Hlen. change SIZEOF_DINODE with 64 in Hlen.
  destruct (table_write_returns s f t (encode_dinode root_dinode) (ROOT_INODE_NUMBER * SIZEOF_DINODE)) as (x & s2 & Hw);
    [done|done|done|apply encode_bytes|done|lia| |].
  { rewrite Hlen. done. }
  unfold __flush. unfold kbind at 1 2, the_inode. rewrite Hr. change (ROOT_INODE_NUMBER =? INODE_TABLE_NUMBER) with false.
  cbv iota. unfold kbind at 1. rewrite (load_table_run s f Ht), Hc. unfold kbind at 1. rewrite Hw. eexists. reflexivity.
Qed.

(** C29. [make_fs] on a device of 1024 to 2 ^ 19 blocks, and the first [mount]: both
    return.  On the mounted file system the invariants of the block layer and of
    the inode table hold, the table has the head of an empty free list that
    starts at inode 2, the root inode is an empty directory with one link, and
    every other slot is zero. *)
Theorem make_fs_correct fresh recycled garbage nblocks s fresh' recycled' :
  1024 <= nblocks <= 2 ^ 19 -> (forall b, 0 <= b < nblocks -> is_Some (cells s !! b)) -> clean_cells s ->
  dinode_ok garbage -> cache_raw_indirect_offset fresh = NO_BLOCK ->
  cache_raw_indirect_offset fresh' = NO_BLOCK -> i_valid fresh' = false ->
  exists s' f, (make_fs fresh recycled garbage [ROOT_INODE_NUMBER] nblocks ;;; mount fresh' recycled' ;;; load_table) s = Ret tt s' /\
    total_blocks (sb s') = nblocks /\ blocks_ok s' /\ table_ok s' f /\
    slot f INODE_TABLE_NUMBER = first_head garbage /\ slot f ROOT_INODE_NUMBER = root_dinode /\
    forall k, ROOT_INODE_NUMBER < k -> slot f k = slot (fun _ => 0) k.
Proof.
  intros Hn Hc Hcl Hg Hf Hf' Hv'.
  destruct (make_fs_image_spec fresh recycled garbage nblocks s Hn Hc Hf Hg Hcl) as (s1 & Hrun & [Hd Ht Htab Hroot Hnone]).
  destruct Htab as (f & Htok & Hs0 & Hsk). pose proof Htok as (t & l & Hok & Hv & Hfb). destruct Hroot as (r & Hr & Hrc & Hrv & Hrd).
  destruct (flush_root_returns s1 f t r) as (s2 & Hfl); [done|apply Hok|by apply (image_first_block garbage s1 t l f)|done|done|].
  assert (kspec ((unmount [ROOT_INODE_NUMBER] ;;; mount fresh' recycled') s1) (fun _ s' => exists f',
       remounted s1 s' (owned s1 t l) fresh' recycled' f' /\
       (forall k, k ∉ [ROOT_INODE_NUMBER] -> slot f' k = slot (file_byte s1 t l) k) /\
       (forall k i, k ∈ [ROOT_INODE_NUMBER] -> inodes s1 !! k = Some i -> slot f' k = flushed i (slot (file_byte s1 t l) k)))
    (fun s' => flush_inodes [ROOT_INODE_NUMBER] s1 = TaskFail s' /\ no_room s')) as Hspec.
  { apply unmount_mount_spec; try done.
    - apply NoDup_singleton.
    - intros k ->%list_elem_of_singleton. split; [by vm_compute|]. exists r. rewrite Hrc. split; [done|apply root_dinode_ok].
    - intros k Hk0 Hk. apply Hnone; [done|]. intros ->. apply Hk. by left. }
  destruct ((unmount [ROOT_INODE_NUMBER] ;;; mount fresh' recycled') s1) as [[] s'|s'| |] eqn:E; try done;
    [|cbn [kspec] in Hspec; destruct Hspec as [Hspec _]; by rewrite Hfl in Hspec].
  destruct Hspec as (f' & HR & Hout & Hin).
  pose proof (load_table_fresh fresh' s' (rm_fresh _ _ _ _ _ _ HR) Hv') as Hload.
  eexists _, f'. split.
  { unfold make_fs. rewrite <- kbind_assoc, (kbind_ret _ _ _ _ _ Hrun), kbind_assoc, (kbind_ret _ _ _ _ _ E). exact Hload. }
  set (s2' := FS _ _ _ _). destruct (rm_table _ _ _ _ _ _ HR s2') as (l' & Hok' & Hf2 & _);
    [done|done|apply lookup_insert_eq|].
  pose proof (rm_layout _ _ _ _ _ _ HR) as (HT & _). split_and!.
  - cbn [s2' sb]. congruence.
  - apply Hok'.
  - eexists _, l'. split_and!; [exact Hok'|done|exact Hf2].
  - rewrite Hout by (intros Hk%list_elem_of_singleton; done). rewrite (slot_ext _ f); [done|done|exact Hfb].
  - rewrite (Hin _ r); [|by left|done]. unfold flushed. by rewrite Hrv, Hrd.
  - intros k Hk. rewrite Hout by (intros ->%list_elem_of_singleton; lia).
    rewrite (slot_ext _ f); [apply Hsk; lia|unfold ROOT_INODE_NUMBER in Hk; lia|exact Hfb].
Qed.

(** ** A session *)

Definition new_inode : minode := Minode 0 0 0 0 [] 0 NO_BLOCK NO_BLOCK NO_BLOCK false false.
Definition stack_dinode : dinode := Dinode 0 0 0 0 0 (replicate 13 0).
Definition device_1024 : fs := FS (blank (Z.to_nat 1024)) (make_sb stack_dinode 0) false ∅.

(** From a blank device: make a file system, mount it, write to a new inode
    across the border of the first block, unmount, mount again and read. *)
Definition session (bs : list Z) : K fs (Z * (Z * list Z)) :=
  make_fs new_inode new_inode stack_dinode [ROOT_INODE_NUMBER] 1024 ;;;
  mount new_inode new_inode ;;;
  n <- alloc_inode new_inode ;;
  inode_write n bs 1020 ;;;
  unmount [n; ROOT_INODE_NUMBER] ;;;
  mount new_inode new_inode ;;;
  get_inode new_inode n ;;;
  out <- inode_read n 1020 (Z.of_nat (length bs)) ;;
  kret (n, out).

Example session_run : ret_val (session [1; 2; 3; 4; 5; 6; 7; 8] device_1024) = Some (2, (8, [1; 2; 3; 4; 5; 6; 7; 8])).
Proof. by vm_compute. Qed.

Lemma device_1024_clean : clean_cells device_1024.
Proof. intros b c Hb _. by apply blank_inv in Hb as ->. Qed.

Lemma make_fs_correct_witness :
  exists s' f, (make_fs new_inode new_inode stack_dinode [ROOT_INODE_NUMBER] 1024 ;;; mount new_inode new_inode ;;; load_table)
      device_1024 = Ret tt s' /\
    total_blocks (sb s') = 1024 /\ blocks_ok s' /\ table_ok s' f /\
    slot f INODE_TABLE_NUMBER = first_head stack_dinode /\ slot f ROOT_INODE_NUMBER = root_dinode /\
    forall k, ROOT_INODE_NUMBER < k -> slot f k = slot (fun _ => 0) k.
Proof.
  apply make_fs_correct; [lia| |exact device_1024_clean| |reflexivity|reflexivity|reflexivity].
  - intros b Hb. exists (Cell ∅ false ∅). apply blank_lookup. lia.
  - split; cbn [stack_dinode d_size d_nlinks d_perm d_type d_next_addr_block d_addrs]; try lia; [|reflexivity].
    repeat constructor; lia.
Defined.
