(* ===== verification/Directory.v ===== *)
(** * Directories as lists of names (src/os/fs/nfs/inode.cc)

    The directory operations of the file NfsDir refine operations on a list of
    slots, each free or holding an inode number and a name: [lookup] finds the
    first slot with the name, [link] fills the first free slot or appends one,
    [unlink] frees the first slot with the name. *)
From S2P Require Import Prelude Memory CString Bitmap NfsBlock NfsInode NfsRep NfsData NfsFile NfsMeta NfsTable Dentry NfsDir.

(** ** Entries *)

(** The bytes before the first NUL. *)
Fixpoint cname (bs : list Z) : list Z :=
  match bs with
  | [] => []
  | b :: bs' => if b =? 0 then [] else b :: cname bs'
  end.

Definition dslot : Type := option (Z * list Z).
Definition decode_slot (buf : list Z) : dslot :=
  if dirent_inode buf =? 0 then None else Some (dirent_inode buf, cname (drop 4 buf)).

Definition name_ok (x : list Z) : Prop := Forall (fun c => 0 < c < 256) x.

Lemma cname_cstring m a bs :
  (forall k c, bs !! k = Some c -> rd8 m (a + Z.of_nat k) = c) -> 0 ∈ bs -> cstring m a (cname bs).
Proof.
  revert a. induction bs as [|b bs IH]; intros a Hbs Hz; [by apply elem_of_nil in Hz|].
  pose proof (Hbs 0%nat b eq_refl) as Hb. rewrite Z.add_0_r in Hb. cbn [cname].
  destruct (Z.eqb_spec b 0) as [->|Hne]; [done|]. cbn [cstring]. split_and!; [done|done|]. apply IH.
  - intros k c Hk. rewrite <- (Hbs (S k) c Hk). f_equal. lia.
  - apply elem_of_cons in Hz as [Hz|Hz]; [congruence|done].
Qed.

Lemma cname_rd_bytes m a x n :
  cstring m a x -> (length x < n)%nat -> cname (rd_bytes n m a) = x /\ 0 ∈ rd_bytes n m a.
Proof.
  revert a n. induction x as [|c x IH]; intros a n Hx Hn; (destruct n as [|n]; [cbn in Hn; lia|]);
    cbn [cstring rd_bytes cname length] in *.
  - rewrite Hx. split; [done|by left].
  - destruct Hx as (-> & Hnz & Hx). destruct (IH (a + 1) n Hx) as [-> Hz]; [lia|].
    rewrite (proj2 (Z.eqb_neq _ _) Hnz). split; [done|by right].
Qed.

Lemma cstring_wr_bytes m a x : name_ok x -> cstring (wr_bytes m a (x ++ [0])) a x.
Proof.
  revert m a. induction x as [|c x IH]; intros m a Hx; cbn [app wr_bytes cstring].
  - by rewrite rd8_wr8_eq.
  - apply Forall_cons in Hx as [Hc Hx]. rewrite wr_bytes_other, rd8_wr8_eq by lia.
    split_and!; [apply u8_small; lia|lia|]. by apply IH.
Qed.

Lemma name_ok_nonzero x : name_ok x -> Forall (fun c => c <> 0) x.
Proof. intros Hx. eapply Forall_impl; [exact Hx|]. intros c Hc. cbn in Hc. lia. Qed.

(** The comparison of an entry with a name. *)
Lemma same_name_run frame buf x s :
  bytes buf -> Z.of_nat (length buf) = SIZEOF_DIRENT -> 0 ∈ drop 4 buf -> name_ok x ->
  nfs_inode.same_name frame buf x s = Ret (bool_decide (cname (drop 4 buf) = x)) s.
Proof.
  intros Hb Hl Hz Hx. unfold nfs_inode.same_name.
  set (m := wr_bytes (wr_bytes frame DIRENT buf) NAME (x ++ [0])).
  change SIZEOF_DIRENT with 32 in Hl.
  assert (cstring m DIRENT_NAME (cname (drop 4 buf))) as H1.
  { apply cname_cstring; [|done]. intros k c Hk. rewrite lookup_drop in Hk.
    pose proof (lookup_lt_Some _ _ _ Hk) as Hlt. unfold m, DIRENT_NAME, NAME, DIRENT. rewrite wr_bytes_other by lia.
    rewrite (wr_bytes_inside _ _ _ _ c) by (lia || (rewrite <- Hk; f_equal; lia)).
    apply u8_small. by apply (proj1 (Forall_lookup _ _) Hb _ _ Hk). }
  assert (cstring m NAME x) as H2 by by apply cstring_wr_bytes.
  rewrite (strcmp_loop_spec m _ _ _ _ _ H1 H2) by lia. unfold kret. f_equal.
  pose proof (bytes_compare_zero _ x (cstring_nonzero _ _ _ H1) (name_ok_nonzero x Hx)) as Hc.
  case_bool_decide as Hd; [by apply Z.eqb_eq, Hc|]. apply Z.eqb_neq. naive_solver.
Qed.

Lemma dirent_inode_rd m : dirent_inode (rd_bytes (Z.to_nat SIZEOF_DIRENT) m DIRENT) = load32 m DIRENT.
Proof.
  unfold dirent_inode. apply load_agree. intros a Ha. change DIRENT with 0 in *. change (Z.to_nat SIZEOF_DIRENT) with 32%nat.
  rewrite (wr_bytes_inside _ _ _ _ (rd8 m a)).
  - apply u8_small, rd8_range.
  - lia.
  - rewrite rd_bytes_lookup by lia. do 2 f_equal. lia.
Qed.

(** The entry [__link] writes. *)
Lemma new_dirent_slot frame n x :
  name_ok x -> Z.of_nat (length x) < MAX_NAME_LENGTH -> 0 < n < 2 ^ 32 ->
  let bs := rd_bytes (Z.to_nat SIZEOF_DIRENT) (nfs_inode.new_dirent frame n x) DIRENT in
  decode_slot bs = Some (n, x) /\ 0 ∈ drop 4 bs.
Proof.
  intros Hx Hl Hn bs. change MAX_NAME_LENGTH with 28 in Hl. unfold nfs_inode.new_dirent in bs.
  set (m0 := store32 (wr_bytes frame NAME (x ++ [0])) DIRENT n) in bs.
  set (m := wr8 (strncpy m0 DIRENT_NAME NAME (length x)) (DIRENT_NAME + Z.of_nat (length x)) 0) in bs.
  assert (load32 m DIRENT = n) as Hi.
  { etransitivity; [|apply (load_store_eq 4 (wr_bytes frame NAME (x ++ [0])) DIRENT n); change (256 ^ Z.of_nat 4) with (2 ^ 32); lia].
    apply load_agree. intros a Ha. unfold m, DIRENT_NAME, DIRENT in *.
    rewrite rd8_wr8_ne, strncpy_other by lia. done. }
  assert (cstring m DIRENT_NAME x) as Hc.
  { assert (cstring m0 NAME x) as H0.
    { eapply cstring_agree; [|by apply (cstring_wr_bytes frame NAME x)]. intros a Ha.
      unfold NAME, DIRENT in *. apply store_other. lia. }
    pose proof (strncpy_field m0 DIRENT_NAME NAME x (length x) H0) as Hf.
    rewrite take_app_length in Hf. unfold m, NAME, DIRENT_NAME in *.
    assert (rd_bytes (length x) (wr8 (strncpy m0 4 4096 (length x)) (4 + Z.of_nat (length x)) 0) 4 = x) as Hr.
    { etransitivity; [|apply Hf; lia]. apply rd_bytes_agree. intros a Ha. apply rd8_wr8_ne. lia. }
    revert Hr. generalize (strncpy m0 4 4096 (length x)) as m1. generalize 4 as a0. clear - Hx.
    induction x as [|c x IH]; intros a0 m1 Hr; cbn [cstring rd_bytes length] in *.
    - rewrite Z.add_0_r. by rewrite rd8_wr8_eq.
    - apply Forall_cons in Hx as [Hc Hx]. injection Hr as Hc1 Hr. split_and!; [done|lia|].
      replace (a0 + Z.of_nat (S (length x))) with (a0 + 1 + Z.of_nat (length x)) in * by lia.
      by apply IH. }
  assert (drop 4 bs = rd_bytes 28 m DIRENT_NAME) as Hd by reflexivity.
  destruct (cname_rd_bytes m DIRENT_NAME x 28 Hc) as [Hcn Hz]; [lia|].
  unfold decode_slot. unfold bs at 1 2. rewrite dirent_inode_rd, Hi, (proj2 (Z.eqb_neq n 0)) by lia.
  rewrite Hd, Hcn. done.
Qed.

(** ** Directories *)

(** The directory [n] holds the slots [L]. *)
Definition dir_rep (s : fs) (n : Z) (L : list dslot) : Prop :=
  exists i l, file_ok s n i l /\ i_valid i = true /\ i_size i = SIZEOF_DIRENT * Z.of_nat (length L) /\
    forall k o, L !! k = Some o ->
      let buf := slice (file_byte s i l) (SIZEOF_DIRENT * Z.of_nat k) (Z.to_nat SIZEOF_DIRENT) in
      decode_slot buf = o /\ (is_Some o -> 0 ∈ drop 4 buf).

(** The first slot with a name, its inode, and the first free slot. *)
Fixpoint find_index (L : list dslot) (x : list Z) : option nat :=
  match L with
  | [] => None
  | Some (_, y) :: L' => if decide (y = x) then Some 0%nat else S <$> find_index L' x
  | None :: L' => S <$> find_index L' x
  end.
Fixpoint find_entry (L : list dslot) (x : list Z) : option Z :=
  match L with
  | [] => None
  | Some (m, y) :: L' => if decide (y = x) then Some m else find_entry L' x
  | None :: L' => find_entry L' x
  end.
Fixpoint free_index (L : list dslot) : nat :=
  match L with
  | Some _ :: L' => S (free_index L')
  | _ => 0%nat
  end.
Definition set_slot (L : list dslot) (j : nat) (o : dslot) : list dslot := take j L ++ o :: drop (S j) L.

Lemma free_index_le L : (free_index L <= length L)%nat.
Proof. induction L as [|[]]; cbn; lia. Qed.

Lemma length_set_slot L j o : (j <= length L)%nat -> length (set_slot L j o) = Nat.max (length L) (S j).
Proof. intros Hj. unfold set_slot. rewrite length_app, length_take. cbn [length]. rewrite length_drop. lia. Qed.

Lemma set_slot_lookup L j o k :
  (j <= length L)%nat -> set_slot L j o !! k = if decide (k = j) then Some o else L !! k.
Proof.
  intros Hj. unfold set_slot. assert (length (take j L) = j) as Hl by (rewrite length_take; lia). case_decide as Hk.
  - subst k. by rewrite lookup_app_r, Hl, Nat.sub_diag by lia.
  - destruct (decide (k < j)%nat).
    + rewrite lookup_app_l by lia. by rewrite lookup_take_lt by lia.
    + rewrite lookup_app_r, Hl by lia. destruct (k - j)%nat as [|q] eqn:Eq; [lia|].
      change ((o :: drop (S j) L) !! S q) with (drop (S j) L !! q). rewrite lookup_drop. f_equal. lia.
Qed.

Lemma find_entry_app A B x :
  find_entry (A ++ B) x = match find_entry A x with Some m => Some m | None => find_entry B x end.
Proof. induction A as [|[[m y]|] A IH]; cbn; [done| |done]. case_decide; [done|exact IH]. Qed.

(** A free slot, or the end, contributes nothing. *)
Lemma find_entry_free L x :
  find_entry L x = match find_entry (take (free_index L) L) x with
                   | Some m => Some m | None => find_entry (drop (S (free_index L)) L) x end.
Proof. induction L as [|[[m y]|] L IH]; cbn [find_entry free_index take drop]; [done| |done]. case_decide; [done|exact IH]. Qed.

(** A link that was made is found, other names are found as before. *)
Lemma find_linked L x m y :
  find_entry L x = None ->
  find_entry (set_slot L (free_index L) (Some (m, x))) y = if decide (x = y) then Some m else find_entry L y.
Proof.
  intros Hx. rewrite find_entry_free in Hx. unfold set_slot. rewrite find_entry_app. cbn [find_entry]. case_decide as Hxy.
  - subst y. by destruct (find_entry (take _ _) x).
  - by rewrite <- find_entry_free.
Qed.

(** ** One entry *)

(** From [s] to [s'] the directory [n] may have got blocks that were free; every other
    block in use, what is allocated, and the other inodes are as before. *)
Definition others_untouched (n : Z) (s s' : fs) : Prop :=
  forall i l, file_ok s n i l ->
    others_same s n i l s' /\ forall i' l', file_ok s' n i' l' -> own_grows s i l s' i' l'.

Lemma chain_unique s b l l' : chain s b l -> chain s b l' -> l = l'.
Proof.
  revert b l'. induction l as [|x l IH]; intros b [|y l']; cbn [chain].
  - done.
  - by intros -> (-> & ? & _).
  - by intros (-> & ? & _) ->.
  - intros (-> & _ & Hc) (-> & _ & Hc'). f_equal. by eapply IH.
Qed.

Lemma file_ok_unique s n i l i' l' : file_ok s n i l -> file_ok s n i' l' -> i' = i /\ l' = l.
Proof.
  intros H H'. assert (i' = i) as ->.
  { pose proof (fo_inode _ _ _ _ H). pose proof (fo_inode _ _ _ _ H'). congruence. }
  split; [done|]. eapply chain_unique; [apply H'|apply H].
Qed.

Lemma untouched_intro n s i l s' i' l' :
  file_ok s n i l -> file_ok s' n i' l' -> own_grows s i l s' i' l' -> others_same s n i l s' -> others_untouched n s s'.
Proof.
  intros H H' Hg Ho i0 l0 H0. destruct (file_ok_unique _ _ _ _ _ _ H H0) as [-> ->]. split; [done|].
  intros i1 l1 H1. by destruct (file_ok_unique _ _ _ _ _ _ H' H1) as [-> ->].
Qed.

Lemma untouched_refl n s : others_untouched n s s.
Proof.
  intros i l H. split; [by split|]. intros i' l' H'. destruct (file_ok_unique _ _ _ _ _ _ H H') as [-> ->].
  intros b Hb. by left.
Qed.

Lemma untouched_trans n s1 s2 s3 L :
  dir_rep s2 n L -> others_untouched n s1 s2 -> others_untouched n s2 s3 -> others_untouched n s1 s3.
Proof.
  intros (i2 & l2 & H2 & _) H12 H23 i1 l1 H1. destruct (H12 i1 l1 H1) as [[A1 A2 A3 A4] Hg1].
  specialize (Hg1 i2 l2 H2). destruct (H23 i2 l2 H2) as [[B1 B2 B3 B4] Hg2].
  pose proof A4 as (Ht & Hg & Htg). pose proof B4 as (Ht' & Hg' & Htg').
  pose proof (bo_start _ (fo_blocks _ _ _ _ H1)) as Hst. split.
  - split.
    + intros b Hb Ha Hno. rewrite B1, A1; [done|done|done|done|by rewrite Ht, Hg|apply A2; [nlia|done]|].
      intros [|]%Hg1; [done|congruence].
    + intros b Hb Ha. apply B2; [by rewrite Ht|]. by apply A2.
    + intros j Hj. by rewrite B3, A3.
    + unfold same_layout in *. intuition congruence.
  - intros i3 l3 H3 b Hb. destruct (Hg2 i3 l3 H3 b Hb) as [Hb2|Hb2]; [by apply Hg1|]. right.
    destruct (allocated s1 b) eqn:E; [|done]. rewrite A2 in Hb2; [done| |done].
    apply (fo_own _ _ _ _ H3) in Hb as [Hb _]. rewrite Ht', Hg', Ht, Hg in Hb. nlia.
Qed.

Lemma untouched_inodes n s s' L j :
  dir_rep s n L -> others_untouched n s s' -> j <> n -> inodes s' !! j = inodes s !! j.
Proof. intros (i & l & H & _) Hu Hj. by apply (os_inodes _ _ _ _ _ (proj1 (Hu i l H))). Qed.

(** A file that shares no block with the directory is as before. *)
Lemma untouched_file n s s' L m j k :
  dir_rep s n L -> dir_rep s' n L -> others_untouched n s s' -> file_ok s m j k -> m <> n ->
  (forall i l b, file_ok s n i l -> owned s j k b -> ~ owned s i l b) ->
  file_ok s' m j k /\ forall pos, 0 <= pos -> file_byte s' j k pos = file_byte s j k pos.
Proof.
  intros (i & l & H & _) (i' & l' & H' & _) Hu Hm Hne Hdis.
  apply (file_ok_others s n i l s' m j k); [done|done| |by apply Hu|apply H']. intros b. by apply Hdis.
Qed.

(** The block of entries the slot [k] is in has only free slots. *)
Definition SLOTS_PER_BLOCK : nat := 32.
Definition free_slots (L : list dslot) (k : nat) : Prop :=
  forall q o, (q / SLOTS_PER_BLOCK = k / SLOTS_PER_BLOCK)%nat -> L !! q = Some o -> o = None.
Definition empty_block (L : list dslot) : Prop := exists k, (k < length L)%nat /\ free_slots L k.

Lemma slot_block (q k : nat) pos :
  (q / SLOTS_PER_BLOCK = k / SLOTS_PER_BLOCK)%nat -> SIZEOF_DIRENT * Z.of_nat q <= pos < SIZEOF_DIRENT * Z.of_nat q + SIZEOF_DIRENT ->
  pos / BLOCK_SIZE = (SIZEOF_DIRENT * Z.of_nat k) / BLOCK_SIZE.
Proof.
  intros Hq Hpos. change SLOTS_PER_BLOCK with 32%nat in Hq. change SIZEOF_DIRENT with 32 in *.
  change BLOCK_SIZE with 1024. assert (Z.of_nat q / 32 = Z.of_nat k / 32) as Hz.
  { change 32 with (Z.of_nat 32). by rewrite <- !Nat2Z.inj_div, Hq. }
  rewrite (Z.div_mod (Z.of_nat q) 32), Hz in Hpos by lia. rewrite (Z.div_mod (Z.of_nat k) 32) by lia.
  pose proof (Z.mod_pos_bound (Z.of_nat q) 32). pose proof (Z.mod_pos_bound (Z.of_nat k) 32).
  set (x := Z.of_nat k / 32) in *. transitivity x.
  - symmetry. apply Z.div_unique with (r := pos - 1024 * x); lia.
  - apply Z.div_unique with (r := 32 * (Z.of_nat k mod 32)); lia.
Qed.

(** A hole of the file is a block of free slots. *)
Lemma hole_free L f k :
  (forall q o, L !! q = Some o -> decode_slot (slice f (SIZEOF_DIRENT * Z.of_nat q) (Z.to_nat SIZEOF_DIRENT)) = o) ->
  hole f ((SIZEOF_DIRENT * Z.of_nat k) / BLOCK_SIZE) -> free_slots L k.
Proof.
  intros HL Hh q o Hq Ho. rewrite <- (HL q o Ho).
  replace (slice _ _ _) with (replicate (Z.to_nat SIZEOF_DIRENT) 0); [by vm_compute|].
  rewrite <- (slice_zeros (SIZEOF_DIRENT * Z.of_nat q)). apply slice_ext. intros pos Hpos. symmetry. apply Hh.
  by apply (slot_block q k).
Qed.

(** A transfer of one entry stops, if it does, at its start. *)
Lemma slot_stops k f c : stops (SIZEOF_DIRENT * Z.of_nat k) (Z.to_nat SIZEOF_DIRENT) f c ->
  c = 0%nat /\ hole f ((SIZEOF_DIRENT * Z.of_nat k) / BLOCK_SIZE).
Proof.
  intros (Hc & Hb & Hh). change (Z.to_nat SIZEOF_DIRENT) with 32%nat in Hc. change SIZEOF_DIRENT with 32 in *.
  assert (c = 0%nat) as -> by (destruct Hb as [|Hb]; [done|]; change BLOCK_SIZE with 1024 in Hb; Z.to_euclidean_division_equations; lia).
  split; [done|]. by rewrite Z.add_0_r in Hh.
Qed.

Lemma dir_rep_becomes s n i l s' L :
  file_ok s n i l -> i_valid i = true -> i_size i = SIZEOF_DIRENT * Z.of_nat (length L) ->
  (forall k o, L !! k = Some o ->
     let buf := slice (file_byte s i l) (SIZEOF_DIRENT * Z.of_nat k) (Z.to_nat SIZEOF_DIRENT) in
     decode_slot buf = o /\ (is_Some o -> 0 ∈ drop 4 buf)) ->
  file_becomes s n i l s' (file_byte s i l) -> dir_rep s' n L /\ others_untouched n s s'.
Proof.
  intros Hok Hv Hsz HL (i' & l' & Hok' & Hf & Hm & Hown & Hoth). split; [|by apply (untouched_intro n s i l s' i' l')].
  exists i', l'. unfold meta in Hm. split_and!; [done|congruence|congruence|]. intros k o Hk buf.
  replace buf with (slice (file_byte s i l) (SIZEOF_DIRENT * Z.of_nat k) (Z.to_nat SIZEOF_DIRENT)); [by apply HL|].
  apply slice_ext. intros pos Hpos. symmetry. apply Hf. change SIZEOF_DIRENT with 32 in Hpos. lia.
Qed.

Lemma file_byte_range s i l pos : 0 <= file_byte s i l pos < 256.
Proof. unfold file_byte. case_decide; [lia|apply rd8_range]. Qed.

Lemma bytes_slice f lo n : (forall pos, 0 <= f pos < 256) -> bytes (slice f lo n).
Proof. intros Hf. revert lo. induction n; intros lo; cbn; constructor; [apply Hf|apply IHn]. Qed.

Lemma dir_read s n L k o :
  dir_rep s n L -> L !! k = Some o -> SIZEOF_DIRENT * (Z.of_nat k + 1) <= 2 ^ 32 ->
  kspec (inode_read n (SIZEOF_DIRENT * Z.of_nat k) SIZEOF_DIRENT s)
    (fun r s' => exists buf, r = (SIZEOF_DIRENT, buf) /\ bytes buf /\ Z.of_nat (length buf) = SIZEOF_DIRENT /\
       decode_slot buf = o /\ (is_Some o -> 0 ∈ drop 4 buf) /\ dir_rep s' n L /\ others_untouched n s s')
    (fun s' => (dir_rep s' n L /\ others_untouched n s s') /\ no_room s' /\ free_slots L k).
Proof.
  intros (i & l & Hok & Hv & Hsz & HL) Hk Hr. unfold inode_read, inode_load.
  unfold kbind at 1 2, the_inode. rewrite (fo_inode _ _ _ _ Hok), Hv. cbn [kret].
  eapply kspec_mono; [apply (file_read_spec s n i l); try done; change SIZEOF_DIRENT with 32 in *; lia| |].
  - intros r s' [-> Hb]. eexists. split; [reflexivity|]. destruct (HL k o Hk) as [Hd Hz].
    split_and!; [apply bytes_slice, file_byte_range|by rewrite length_slice|done|done| |];
      by eapply dir_rep_becomes.
  - intros s' (Hb & Hn & c & [_ Hc]%slot_stops). split_and!; [by eapply dir_rep_becomes|by eapply dir_rep_becomes|done|].
    apply (hole_free L (file_byte s i l)); [|done]. intros q o' Hq. by apply HL.
Qed.

Lemma dir_write s n L j bs o :
  dir_rep s n L -> (j <= length L)%nat -> bytes bs -> Z.of_nat (length bs) = SIZEOF_DIRENT ->
  SIZEOF_DIRENT * (Z.of_nat j + 1) < 2 ^ 32 -> decode_slot bs = o -> (is_Some o -> 0 ∈ drop 4 bs) ->
  kspec (inode_write n bs (SIZEOF_DIRENT * Z.of_nat j) s)
    (fun _ s' => dir_rep s' n (set_slot L j o) /\ others_untouched n s s')
    (fun s' => (dir_rep s' n L /\ others_untouched n s s') /\ no_room s' /\ free_slots L j).
Proof.
  intros (i & l & Hok & Hv & Hsz & HL) Hj Hb Hl Hr Hd Hz. unfold inode_write, inode_load.
  unfold kbind at 1 2, the_inode. rewrite (fo_inode _ _ _ _ Hok), Hv. cbn [kret].
  eapply kspec_mono; [apply (write_loaded_spec s n i l bs); try done; change SIZEOF_DIRENT with 32 in *; lia| |].
  2:{ intros s' [(c & Hb' & Hst) Hn]. rewrite <- (Nat2Z.id (length bs)), Hl in Hst. apply slot_stops in Hst as [-> Hh].
      rewrite take_0 in Hb', Hh. assert (forall pos, overwrite (file_byte s i l) (SIZEOF_DIRENT * Z.of_nat j) [] pos = file_byte s i l pos)
        as He by (intros pos; unfold overwrite; cbn [length]; by rewrite decide_False by lia).
      assert (file_becomes s n i l s' (file_byte s i l)) as Hbe.
      { destruct Hb' as (i' & l' & ? & Hf & ?). exists i', l'. split_and!; [done| |naive_solver..]. intros pos Hpos. by rewrite Hf, He. }
      split_and!; [by eapply dir_rep_becomes|by eapply dir_rep_becomes|done|].
      apply (hole_free L (file_byte s i l)); [intros q o' Hq; by apply HL|]. intros pos Hpos. rewrite <- He. by apply Hh. }
  intros r s' (-> & i' & l' & Hok' & Hf & Hv' & _ & _ & Hsz' & Hown & Hoth). split; [|by apply (untouched_intro n s i l s' i' l')].
  exists i', l'. split_and!; [done|congruence| |].
  - rewrite Hsz', length_set_slot, Hsz, Hl by done. change SIZEOF_DIRENT with 32 in *.
    rewrite u64_small, u32_small by lia. destruct (Z.ltb_spec (32 * Z.of_nat (length L)) (32 * Z.of_nat j + 32)); lia.
  - intros k o' Hk buf. rewrite set_slot_lookup in Hk by done.
    assert (buf = slice (overwrite (file_byte s i l) (SIZEOF_DIRENT * Z.of_nat j) bs)
      (SIZEOF_DIRENT * Z.of_nat k) (Z.to_nat SIZEOF_DIRENT)) as ->.
    { apply slice_ext. intros pos Hpos. apply Hf. change SIZEOF_DIRENT with 32 in Hpos. lia. }
    case_decide as Hkj.
    + simplify_eq. rewrite <- Hl, Nat2Z.id, slice_overwrite. done.
    + rewrite (slice_ext _ (file_byte s i l)); [by apply HL|]. intros pos Hpos. unfold overwrite.
      rewrite Hl. change SIZEOF_DIRENT with 32 in *. by rewrite decide_False by lia.
Qed.

Lemma dir_rep_other s n L m g :
  dir_rep s n L -> m <> n -> dir_rep (FS (cells s) (sb s) (sb_dirty s) (alter g m (inodes s))) n L.
Proof.
  intros (i & l & Hok & Hv & Hsz & HL) Hm. set (s' := FS _ _ _ _).
  destruct (file_ok_same s s' n i l Hok) as [Hok' Hf]; [done|done|done|by apply lookup_alter_ne|].
  exists i, l. split_and!; [done|done|done|]. intros k o Hk buf. destruct (HL k o Hk) as [Hd Hz].
  assert (buf = slice (file_byte s i l) (SIZEOF_DIRENT * Z.of_nat k) (Z.to_nat SIZEOF_DIRENT)) as ->; [|done].
  apply slice_ext. intros pos _. apply Hf.
Qed.

(** ** The scans *)

Definition with_fs (f : fs) (w : vfs fs) : vfs fs :=
  VFS f (dentries w) (this_dentry w) (hash_table w) (dcache_size w) (fresh w).

Lemma on_fs_spec {A : Type} (m : K fs A) w post fail :
  kspec (m (v_fs w)) post fail -> kspec (on_fs m w) (fun a w' => exists f, w' = with_fs f w /\ post a f) (fun w' => exists f, w' = with_fs f w /\ fail f).
Proof. unfold on_fs. destruct (m (v_fs w)); cbn; intros Hp; [by eexists|by eexists|done|done]. Qed.

(** From [w] to [w'] nothing changed but the blocks the directory [n] uses. *)
Definition scanned (n : Z) (L : list dslot) (w w' : vfs fs) : Prop :=
  exists f, w' = with_fs f w /\ dir_rep f n L /\ others_untouched n (v_fs w) f.

Lemma scanned_trans n L w1 w2 w3 : scanned n L w1 w2 -> scanned n L w2 w3 -> scanned n L w1 w3.
Proof.
  intros (f1 & -> & Hd1 & H1) (f2 & -> & Hd & H2). exists f2. split_and!; [done|done|].
  by apply (untouched_trans n _ f1 _ L).
Qed.

Lemma scanned_refl n L w : dir_rep (v_fs w) n L -> scanned n L w w.
Proof. intros Hd. exists (v_fs w). split_and!; [by destruct w|done|apply untouched_refl]. Qed.

(** A scan that failed: a block of free entries is missing, and there is no block
    for the addresses. *)
Definition scan_stopped (n : Z) (L : list dslot) (w w' : vfs fs) : Prop :=
  scanned n L w w' /\ no_room (v_fs w') /\ empty_block L.

Lemma stopped_after n L w1 w2 w3 : scanned n L w1 w2 -> scan_stopped n L w2 w3 -> scan_stopped n L w1 w3.
Proof. intros H12 (H23 & Hn & He). split_and!; [by eapply scanned_trans|done|done]. Qed.

Lemma scan_size n L w : dir_rep (v_fs w) n L ->
  exists i, on_fs (the_inode n) w = Ret i w /\ i_size i = SIZEOF_DIRENT * Z.of_nat (length L).
Proof.
  intros (i & l & Hok & _ & Hsz & _). exists i. split; [|done]. unfold on_fs, the_inode.
  rewrite (fo_inode _ _ _ _ Hok). by destruct w.
Qed.

Lemma scan_read n L w k o :
  dir_rep (v_fs w) n L -> L !! k = Some o -> SIZEOF_DIRENT * (Z.of_nat k + 1) <= 2 ^ 32 ->
  kspec (on_fs (inode_read n (SIZEOF_DIRENT * Z.of_nat k) SIZEOF_DIRENT) w)
    (fun r w' => exists buf, r = (SIZEOF_DIRENT, buf) /\ bytes buf /\ Z.of_nat (length buf) = SIZEOF_DIRENT /\
       decode_slot buf = o /\ (is_Some o -> 0 ∈ drop 4 buf) /\ scanned n L w w')
    (scan_stopped n L w).
Proof.
  intros Hd Hk Hr. eapply kspec_mono; [eapply on_fs_spec; by apply (dir_read _ n L k o)| |].
  - intros r w' (f & -> & buf & H1 & H2 & H3 & H4 & H5 & H6 & H7). exists buf. split_and!; try done. by exists f.
  - intros w' (f & -> & [H1 H2] & H3 & H4). split_and!; [by exists f|done|]. exists k. split; [|done].
    by eapply lookup_lt_Some.
Qed.

Lemma decode_free buf : decode_slot buf = None -> dirent_inode buf =? 0 = true.
Proof. unfold decode_slot. by destruct (_ =? _). Qed.

Lemma decode_used buf m y : decode_slot buf = Some (m, y) -> dirent_inode buf =? 0 = false /\ dirent_inode buf = m /\ cname (drop 4 buf) = y.
Proof. unfold decode_slot. destruct (_ =? _); [done|]. by intros [= -> ->]. Qed.

Section scans.
Context (frame : memory) (recycled : minode) (garbage : dinode) (fuel : nat) (n : Z) (L : list dslot).
Hypothesis Hbound : SIZEOF_DIRENT * (Z.of_nat (length L) + 1) < 2 ^ 32.

Lemma find_slot_spec k j w :
  dir_rep (v_fs w) n L -> (length L - j <= k)%nat -> (j <= length L)%nat ->
  kspec (nfs_inode.find_slot k n (SIZEOF_DIRENT * Z.of_nat j) w)
    (fun r w' => r = Some (SIZEOF_DIRENT * Z.of_nat (j + free_index (drop j L))) /\ scanned n L w w')
    (scan_stopped n L w).
Proof.
  revert j w. induction k as [|k IH]; intros j w Hd Hk Hj; cbn [nfs_inode.find_slot];
    destruct (scan_size n L w Hd) as (i & Hi & Hsz); rewrite (kbind_ret _ _ _ _ _ Hi), Hsz.
  all: destruct (Z.leb_spec (SIZEOF_DIRENT * Z.of_nat (length L)) (SIZEOF_DIRENT * Z.of_nat j)) as [Hge|Hlt];
    change SIZEOF_DIRENT with 32 in Hge || change SIZEOF_DIRENT with 32 in Hlt.
  1, 3: cbn [kspec kret]; rewrite drop_ge, Nat.add_0_r by lia; (split; [done|]); by apply scanned_refl.
  - lia.
  - destruct (lookup_lt_is_Some_2 L j) as [o Ho]; [lia|].
    eapply kspec_bind; [apply (scan_read n L w j o Hd Ho); change SIZEOF_DIRENT with 32 in *; lia|].
    intros r w1 (buf & -> & Hb & Hl & Hdec & Hz & Hs). cbv beta iota. rewrite Z.eqb_refl. cbn [negb].
    rewrite (drop_S L o j Ho). destruct o as [[m y]|].
    + destruct (decode_used _ _ _ Hdec) as (-> & _ & _).
      replace (SIZEOF_DIRENT * Z.of_nat j + SIZEOF_DIRENT) with (SIZEOF_DIRENT * Z.of_nat (S j)) by lia.
      pose proof Hs as (f & HS1 & Hd1 & _).
      eapply kspec_mono; [apply IH; [by subst w1|lia|lia]| |intros w2; by apply stopped_after].
      intros r w2 [-> Hs2]. split; [do 3 f_equal; cbn [free_index]; lia|by eapply scanned_trans].
    + rewrite (decode_free _ Hdec). cbn [kspec kret free_index]. rewrite Nat.add_0_r. done.
Qed.

(** The inode of the entry found is in memory. *)
Definition inode_ready (w : vfs fs) (m : Z) : Prop := exists i, inodes (v_fs w) !! m = Some i /\ i_valid i = true.

Lemma ready_get m w : inode_ready w m ->
  on_fs (get_inode recycled m) w = Ret tt w /\ on_fs (inode_load m) w = Ret tt w.
Proof.
  intros (i & Hi & Hv). unfold on_fs, get_inode, kmodify, inode_load, kbind, the_inode. rewrite Hi, Hv. by destruct w.
Qed.

Lemma scanned_inode w w' m : dir_rep (v_fs w) n L -> scanned n L w w' -> m <> n -> inodes (v_fs w') !! m = inodes (v_fs w) !! m.
Proof. intros Hd (f & -> & _ & Ho) Hm. by apply (untouched_inodes n _ _ L). Qed.

Lemma ready_scanned w w' m : dir_rep (v_fs w) n L -> scanned n L w w' -> m <> n -> inode_ready w m -> inode_ready w' m.
Proof. intros Hd Hs Hm (i & Hi & Hv). exists i. by rewrite (scanned_inode w w' m Hd Hs Hm). Qed.

Lemma next_offset (j : nat) : (j < length L)%nat -> u32 (SIZEOF_DIRENT * Z.of_nat j + SIZEOF_DIRENT) = SIZEOF_DIRENT * Z.of_nat (S j).
Proof. intros Hj. change SIZEOF_DIRENT with 32 in *. rewrite u32_small; lia. Qed.

(** What [lookup] leaves behind when it found inode [m]. *)
Definition filled (d : nat) (m : Z) (w : vfs fs) : vfs fs :=
  VFS (v_fs w) (alter (fun e => Dentry (Some m) (name e) (parent e)) d (dentries w)) (<[m := d]> (this_dentry w))
    (hash_table w) (dcache_size w) (fresh w).

Lemma lookup_loop_spec d x k j w :
  name_ok x -> dir_rep (v_fs w) n L -> (length L - j <= k)%nat -> (j <= length L)%nat ->
  (forall m, find_entry (drop j L) x = Some m -> m <> n /\ inode_ready w m) ->
  kspec (nfs_inode.lookup_loop frame recycled k n d x (SIZEOF_DIRENT * Z.of_nat j) w)
    (fun r w' => exists w1, scanned n L w w1 /\
       match find_entry (drop j L) x with
       | Some m => r = 0 /\ w' = filled d m w1
       | None => r = -1 /\ w' = w1
       end) (scan_stopped n L w).
Proof.
  intros Hx. revert j w. induction k as [|k IH]; intros j w Hd Hk Hj Hready; cbn [nfs_inode.lookup_loop];
    destruct (scan_size n L w Hd) as (i & Hi & Hsz); rewrite (kbind_ret _ _ _ _ _ Hi), Hsz.
  all: destruct (Z.leb_spec (SIZEOF_DIRENT * Z.of_nat (length L)) (SIZEOF_DIRENT * Z.of_nat j)) as [Hge|Hlt];
    change SIZEOF_DIRENT with 32 in Hge || change SIZEOF_DIRENT with 32 in Hlt.
  1, 3: cbn [kspec kret]; rewrite drop_ge by lia; exists w; (split; [|done]); by apply scanned_refl.
  - lia.
  - destruct (lookup_lt_is_Some_2 L j) as [o Ho]; [lia|].
    eapply kspec_bind; [apply (scan_read n L w j o Hd Ho); change SIZEOF_DIRENT with 32 in *; lia|].
    intros r w1 (buf & -> & Hb & Hl & Hdec & Hz & Hs). cbv beta iota zeta. rewrite Z.eqb_refl. cbn [negb].
    rewrite next_offset by lia. rewrite (drop_S L o j Ho) in *. pose proof Hs as (f & HS1 & Hd1 & _).
    assert (find_entry (o :: drop (S j) L) x = find_entry (drop (S j) L) x ->
      kspec (nfs_inode.lookup_loop frame recycled k n d x (SIZEOF_DIRENT * Z.of_nat (S j)) w1)
        (fun r w' => exists w1, scanned n L w w1 /\ match find_entry (o :: drop (S j) L) x with
           | Some m => r = 0 /\ w' = filled d m w1 | None => r = -1 /\ w' = w1 end) (scan_stopped n L w)) as Hnext.
    { intros Heq. rewrite Heq. eapply kspec_mono; [apply IH; [by subst w1|lia|lia|]| |intros w2; by apply stopped_after].
      - intros m Hm. destruct (Hready m) as [Hne Hr]; [congruence|]. split; [done|by eapply ready_scanned].
      - intros r w2 (w3 & Hs3 & Hres). exists w3. split; [by eapply scanned_trans|done]. }
    destruct o as [[m y]|].
    + destruct (decode_used _ _ _ Hdec) as (-> & -> & Hy).
      rewrite (kbind_ret _ _ _ _ _ (same_name_run frame buf x w1 Hb Hl (Hz (ltac:(by eexists))) Hx)), Hy.
      cbn [find_entry] in *. destruct (decide (y = x)) as [Hyx|Hyx].
      * rewrite bool_decide_eq_true_2 by done. destruct (Hready m eq_refl) as [Hne Hr].
        destruct (ready_get m w1) as [Hg Hld]; [by eapply ready_scanned|].
        rewrite (kbind_ret _ _ _ _ _ Hg), (kbind_ret _ _ _ _ _ Hld). cbn [kspec]. exists w1. done.
      * rewrite bool_decide_eq_false_2 by done. by apply Hnext.
    + rewrite (decode_free _ Hdec). by apply Hnext.
Qed.

End scans.

(** ** The operations *)

Lemma dir_load_run w n L : dir_rep (v_fs w) n L -> on_fs (inode_load n) w = Ret tt w.
Proof.
  intros (i & l & Hok & Hv & _). apply (ready_get (Minode 0 0 0 0 [] 0 0 0 0 true true)). exists i.
  by rewrite (fo_inode _ _ _ _ Hok).
Qed.

Lemma the_dentry_run (w : vfs fs) d e : dentries w !! d = Some e -> dentry_cache.the_dentry d w = Ret e w.
Proof. intros Hd. unfold dentry_cache.the_dentry. by rewrite Hd. Qed.

Lemma name_short_run (w : vfs fs) d e :
  dentries w !! d = Some e -> Z.of_nat (length (name e)) <= MAX_NAME_LENGTH -> nfs_inode.name_too_long d w = Ret false w.
Proof.
  intros Hd Hl. unfold nfs_inode.name_too_long. rewrite (kbind_ret _ _ _ _ _ (the_dentry_run w d e Hd)).
  unfold kret. f_equal. lia.
Qed.

Definition dir_bound (L : list dslot) : Prop := SIZEOF_DIRENT * (Z.of_nat (length L) + 1) < 2 ^ 32.

Lemma dir_lookup_spec frame recycled fuel w n L d e :
  dir_rep (v_fs w) n L -> dir_bound L -> (length L <= fuel)%nat ->
  dentries w !! d = Some e -> name_ok (name e) -> Z.of_nat (length (name e)) <= MAX_NAME_LENGTH ->
  (forall m, find_entry L (name e) = Some m -> m <> n /\ inode_ready w m) ->
  kspec (nfs_inode.lookup frame recycled fuel n d w)
    (fun r w' => exists w1, scanned n L w w1 /\
       match find_entry L (name e) with
       | Some m => r = 0 /\ w' = filled d m w1
       | None => r = -1 /\ w' = w1
       end) (scan_stopped n L w).
Proof.
  intros Hd Hb Hf He Hx Hl Hr. unfold nfs_inode.lookup.
  rewrite (kbind_ret _ _ _ _ _ (name_short_run w d e He Hl)), (kbind_ret _ _ _ _ _ (dir_load_run w n L Hd)),
    (kbind_ret _ _ _ _ _ (the_dentry_run w d e He)).
  exact (lookup_loop_spec frame recycled n L Hb d (name e) fuel 0 w Hx Hd ltac:(lia) ltac:(lia) Hr).
Qed.

(** The inode [m] with another number of links. *)
Definition with_links (m k : Z) (s : fs) : fs :=
  FS (cells s) (sb s) (sb_dirty s) (alter (fun i => mark_dirty (set_nlinks k i)) m (inodes s)).

Lemma untouched_links n s s' m k :
  m <> n -> others_untouched n s s' -> others_untouched n (with_links m k s) (with_links m k s').
Proof.
  assert (forall s0 i l, m <> n -> file_ok (with_links m k s0) n i l -> file_ok s0 n i l) as Hback.
  { intros s0 i l Hm H. apply (file_ok_same (with_links m k s0) s0 n i l H); [done|done|done|].
    cbn [with_links inodes]. by rewrite lookup_alter_ne. }
  intros Hm Hu i l H. destruct (Hu i l (Hback s i l Hm H)) as [[A1 A2 A3 A4] Hg]. split.
  - split; [exact A1|exact A2| |exact A4]. intros j Hj. cbn [with_links inodes]. destruct (decide (j = m)) as [->|Hjm].
    + rewrite !lookup_alter_eq. by rewrite A3.
    + rewrite !lookup_alter_ne by done. by apply A3.
  - intros i' l' H'. exact (Hg i' l' (Hback s' i' l' Hm H')).
Qed.

(** The next entry needs a block that may not be there. *)
Definition needs_block (L : list dslot) : Prop :=
  empty_block L \/ (free_index L = length L /\ (length L mod SLOTS_PER_BLOCK = 0)%nat).

Lemma free_index_used L k : (k < free_index L)%nat -> exists x, L !! k = Some (Some x).
Proof.
  revert k. induction L as [|[x|] L IH]; intros k; cbn [free_index]; [lia| |lia].
  destruct k as [|k]; intros Hk; [by exists x|]. apply IH. lia.
Qed.

Lemma free_slots_needed L : free_slots L (free_index L) -> needs_block L.
Proof.
  intros Hf. pose proof (free_index_le L) as Hle. destruct (decide (free_index L < length L)%nat) as [Hlt|Hge].
  { left. by exists (free_index L). }
  assert (free_index L = length L) as Heq by lia. rewrite Heq in Hf. right. split; [done|].
  destruct (decide (length L mod SLOTS_PER_BLOCK = 0)%nat) as [|Hm]; [done|exfalso].
  change SLOTS_PER_BLOCK with 32%nat in *. assert (length L <> 0)%nat as H0 by (intros H0; by rewrite H0 in Hm).
  destruct (free_index_used L (length L - 1)) as [x Hx]; [lia|].
  enough (Some x = None) by done. apply (Hf (length L - 1)%nat); [|done].
  pose proof (Nat.div_mod (length L) 32 ltac:(lia)). pose proof (Nat.mod_upper_bound (length L) 32 ltac:(lia)).
  change SLOTS_PER_BLOCK with 32%nat. symmetry. apply Nat.div_unique with (r := (length L mod 32 - 1)%nat); lia.
Qed.

Lemma free_slots_linked L x : empty_block (set_slot L (free_index L) (Some x)) -> empty_block L.
Proof.
  intros (k & Hk & Hf). pose proof (free_index_le L) as Hle. rewrite length_set_slot in Hk by done.
  assert (forall q o, (q / SLOTS_PER_BLOCK = k / SLOTS_PER_BLOCK)%nat ->
    (if decide (q = free_index L) then Some (Some x) else L !! q) = Some o -> o = None) as Hf'.
  { intros q o Hq Ho. apply (Hf q o Hq). etransitivity; [apply (set_slot_lookup L _ (Some x) q Hle)|exact Ho]. }
  assert (k <> free_index L) as Hkf.
  { intros ->. by specialize (Hf' (free_index L) (Some x) eq_refl ltac:(by rewrite decide_True)). }
  exists k. split; [lia|]. intros q o Hq Ho. apply (Hf' q o Hq). case_decide as Hqf; [|done]. subst q.
  by specialize (Hf' (free_index L) (Some x) Hq ltac:(by rewrite decide_True)).
Qed.

Lemma link_spec frame fuel w n L d e m j :
  dir_rep (v_fs w) n L -> dir_bound L -> (length L <= fuel)%nat ->
  dentries w !! d = Some e -> name_ok (name e) -> Z.of_nat (length (name e)) < MAX_NAME_LENGTH ->
  m <> n -> 0 < m < 2 ^ 32 -> inodes (v_fs w) !! m = Some j -> i_valid j = true ->
  kspec (nfs_inode.__link frame fuel n d m w)
    (fun r w' => r = 0 /\ dir_rep (v_fs w') n (set_slot L (free_index L) (Some (m, name e))) /\
       w' = with_fs (v_fs w') (filled d m w) /\
       others_untouched n (with_links m (u16 (i_nlinks j + 1)) (v_fs w)) (v_fs w') /\
       inodes (v_fs w') !! m = Some (mark_dirty (set_nlinks (u16 (i_nlinks j + 1)) j)) /\
       forall k, k <> n -> k <> m -> inodes (v_fs w') !! k = inodes (v_fs w) !! k)
    (fun w' => no_room (v_fs w') /\ needs_block L).
Proof.
  intros Hd Hb Hf He Hx Hl Hmn Hm Hj Hv. unfold nfs_inode.__link.
  rewrite (kbind_ret _ _ _ _ _ (proj2 (ready_get j m w ltac:(by exists j)))), (kbind_ret _ _ _ _ _ (the_dentry_run w d e He)).
  cbv zeta. destruct (new_dirent_slot frame m (name e) Hx Hl Hm) as [Hdec Hz].
  set (bs := rd_bytes _ _ _) in *.
  assert (bytes bs) as Hbb by apply rd_bytes_range.
  assert (Z.of_nat (length bs) = SIZEOF_DIRENT) as Hbl by (unfold bs; by rewrite length_rd_bytes).
  set (f1 := with_links m (u16 (i_nlinks j + 1)) (v_fs w)). set (w1 := with_fs f1 (filled d m w)).
  assert (dir_rep f1 n L) as Hd1 by by apply dir_rep_other.
  assert (inodes f1 !! m = Some (mark_dirty (set_nlinks (u16 (i_nlinks j + 1)) j))) as Hm1.
  { cbn [f1 with_links inodes]. by rewrite lookup_alter_eq, Hj. }
  match goal with |- kspec ?x ?po ?fa => assert (x = (offset <- nfs_inode.find_slot fuel n 0 ;;
    match offset with None => kret (-1) | Some offset => on_fs (inode_write n bs offset) ;;; kret 0 end) w1) as -> end.
  { assert (w1 = with_fs (FS (cells (v_fs w)) (sb (v_fs w)) (sb_dirty (v_fs w))
      (alter (fun i => mark_dirty (set_nlinks (u16 (i_nlinks i + 1)) i)) m (inodes (v_fs w)))) (filled d m w)) as ->; [|reflexivity].
    unfold w1, f1, with_links. by rewrite !(alter_at _ _ _ _ Hj). }
  pose proof (free_index_le L) as Hfi.
  eapply kspec_seq; [apply (find_slot_spec n L Hb fuel 0 w1 Hd1); lia|intros w' (_ & Hn & He'); split; [done|by left]|].
  intros r w2 (-> & f2 & -> & Hd2 & Ho2). rewrite drop_0. cbn [Nat.add].
  eapply kspec_seq; [eapply on_fs_spec, (dir_write f2 n L (free_index L) bs); try done| |].
  { unfold dir_bound in Hb. change SIZEOF_DIRENT with 32 in *. lia. }
  { intros w' (f & -> & _ & Hn & Hfb). split; [done|]. by apply free_slots_needed. }
  intros _ w3 (f3 & -> & Hd3 & Ho3). cbn [kspec kret].
  assert (others_untouched n f1 f3) as Hu by by apply (untouched_trans n _ f2 _ L).
  split_and!; [done|done|done|done| |].
  - cbn [with_fs v_fs]. by rewrite (untouched_inodes n f1 f3 L).
  - intros k Hk Hkm. cbn [with_fs v_fs]. rewrite (untouched_inodes n f1 f3 L) by done. by apply lookup_alter_ne.
Qed.



(** ** Removing a name *)

Lemma find_index_lt L x q : find_index L x = Some q -> (q < length L)%nat.
Proof.
  revert q. induction L as [|[[m y]|] L IH]; intros q; cbn [find_index length]; [done| |].
  - case_decide; [intros [= <-]; lia|]. destruct (find_index L x) as [p|]; [|done]. intros [= <-]. specialize (IH p eq_refl). lia.
  - destruct (find_index L x) as [p|]; [|done]. intros [= <-]. specialize (IH p eq_refl). lia.
Qed.

(** One link of inode [m] less, when others are left. *)
Lemma drop_link_run garbage fuel m j (w : vfs fs) :
  inodes (v_fs w) !! m = Some j -> i_valid j = true -> u16 (i_nlinks j - 1) <> 0 ->
  nfs_inode.drop_link garbage fuel m w =
    Ret tt (with_fs (FS (cells (v_fs w)) (sb (v_fs w)) (sb_dirty (v_fs w))
      (<[m := mark_dirty (set_nlinks (u16 (i_nlinks j - 1)) j)]> (inodes (v_fs w)))) w).
Proof.
  intros Hj Hv Hn. unfold nfs_inode.drop_link.
  rewrite (kbind_ret _ _ _ _ _ (proj2 (ready_get j m w ltac:(by exists j)))).
  unfold kbind at 1, on_fs at 1, upd_inode, kmodify. cbn [v_fs].
  rewrite (alter_at _ _ _ _ Hj). unfold kbind, on_fs, the_inode. cbn [v_fs inodes]. rewrite lookup_insert_eq. cbn [set_nlinks i_nlinks].
  rewrite (proj2 (Z.eqb_neq _ _) Hn). cbn [v_fs inodes cells sb sb_dirty dentries this_dentry hash_table dcache_size fresh].
  rewrite (alter_at _ _ _ _ (lookup_insert_eq _ _ _)), insert_insert_eq. reflexivity.
Qed.

Lemma zero_slot buf : decode_slot (le 4 0 ++ drop 4 buf) = None.
Proof.
  unfold decode_slot. assert (dirent_inode (le 4 0 ++ drop 4 buf) = 0) as ->; [|done].
  unfold dirent_inode. by apply (load_field_here 4).
Qed.

Lemma unlink_loop_spec frame garbage fuel n L d e m i0 k j w :
  dir_bound L -> name_ok (name e) -> dir_rep (v_fs w) n L -> (length L - j <= k)%nat -> (j <= length L)%nat ->
  dentries w !! d = Some e -> _inode e = Some m -> m <> n ->
  inodes (v_fs w) !! m = Some i0 -> i_valid i0 = true -> u16 (i_nlinks i0 - 1) <> 0 ->
  kspec (nfs_inode.unlink_loop frame garbage fuel k n d (name e) (SIZEOF_DIRENT * Z.of_nat j) w)
    (fun r w' =>
       match find_index (drop j L) (name e) with
       | Some q => r = 0 /\ dir_rep (v_fs w') n (set_slot L (j + q) None) /\ w' = with_fs (v_fs w') w /\
           others_untouched n (with_links m (u16 (i_nlinks i0 - 1)) (v_fs w)) (v_fs w') /\
           inodes (v_fs w') !! m = Some (mark_dirty (set_nlinks (u16 (i_nlinks i0 - 1)) i0))
       | None => r = -1 /\ scanned n L w w'
       end) (scan_stopped n L w).
Proof.
  intros Hb Hx. revert j w.
  induction k as [|k IH]; intros j w Hd Hk Hj He Hi0 Hmn Hm Hv Hnl; cbn [nfs_inode.unlink_loop];
    destruct (scan_size n L w Hd) as (i & Hi & Hsz); rewrite (kbind_ret _ _ _ _ _ Hi), Hsz.
  all: destruct (Z.leb_spec (SIZEOF_DIRENT * Z.of_nat (length L)) (SIZEOF_DIRENT * Z.of_nat j)) as [Hge|Hlt];
    change SIZEOF_DIRENT with 32 in Hge || change SIZEOF_DIRENT with 32 in Hlt.
  1, 3: cbn [kspec kret]; rewrite drop_ge by lia; (split; [done|]); by apply scanned_refl.
  - lia.
  - destruct (lookup_lt_is_Some_2 L j) as [o Ho]; [lia|]. unfold dir_bound in Hb.
    eapply kspec_bind; [apply (scan_read n L w j o Hd Ho); change SIZEOF_DIRENT with 32 in *; lia|].
    intros r w1 (buf & -> & Hbb & Hl & Hdec & Hz & Hs). cbv beta iota zeta. rewrite Z.eqb_refl. cbn [negb].
    rewrite (next_offset L Hb) by lia. rewrite (drop_S L o j Ho) in *. pose proof Hs as (f & Hw1 & Hd1 & Ho1).
    assert (find_index (o :: drop (S j) L) (name e) = S <$> find_index (drop (S j) L) (name e) ->
      kspec (nfs_inode.unlink_loop frame garbage fuel k n d (name e) (SIZEOF_DIRENT * Z.of_nat (S j)) w1)
        (fun r w' => match find_index (o :: drop (S j) L) (name e) with
           | Some q => r = 0 /\ dir_rep (v_fs w') n (set_slot L (j + q) None) /\ w' = with_fs (v_fs w') w /\
               others_untouched n (with_links m (u16 (i_nlinks i0 - 1)) (v_fs w)) (v_fs w') /\
               inodes (v_fs w') !! m = Some (mark_dirty (set_nlinks (u16 (i_nlinks i0 - 1)) i0))
           | None => r = -1 /\ scanned n L w w' end) (scan_stopped n L w)) as Hnext.
    { intros Heq. rewrite Heq. subst w1. eapply kspec_mono; [apply IH; try done; [lia|lia|]| |intros w'; by apply stopped_after].
      - cbn [with_fs v_fs]. by rewrite (untouched_inodes n (v_fs w) f L).
      - intros r w'. destruct (find_index (drop (S j) L) (name e)) as [q|]; cbn [fmap option_fmap option_map].
        + rewrite Nat.add_succ_r. intros (-> & Hd' & Hw' & Hu' & Hm'). split_and!; [done|done|done| |done].
          apply (untouched_trans n _ (with_links m (u16 (i_nlinks i0 - 1)) f) _ L); [by apply dir_rep_other| |exact Hu'].
          by apply untouched_links.
        + intros [-> Hs']. split; [done|by eapply scanned_trans]. }
    destruct o as [[m' y]|].
    + destruct (decode_used _ _ _ Hdec) as (-> & _ & Hy).
      rewrite (kbind_ret _ _ _ _ _ (same_name_run frame buf (name e) w1 Hbb Hl (Hz (ltac:(by eexists))) Hx)), Hy.
      cbn [find_index] in *. destruct (decide (y = name e)) as [Hyx|Hyx].
      * rewrite bool_decide_eq_true_2 by done. rewrite Nat.add_0_r.
        assert (dentries w1 !! d = Some e) as He1 by by subst w1.
        rewrite (kbind_ret _ _ _ _ _ (the_dentry_run w1 d e He1)), Hi0. unfold kbind at 1. cbn [dentry_cache.not_null kret].
        assert (inodes (v_fs w1) !! m = Some i0) as Hm1 by (subst w1; cbn [with_fs v_fs]; by rewrite (untouched_inodes n (v_fs w) f L)).
        rewrite (kbind_ret _ _ _ _ _ (drop_link_run garbage fuel m i0 w1 Hm1 Hv Hnl)).
        set (f1 := FS _ _ _ _). assert (f1 = with_links m (u16 (i_nlinks i0 - 1)) (v_fs w1)) as Hf1.
        { unfold f1, with_links. by rewrite (alter_at _ _ _ _ Hm1). }
        assert (dir_rep f1 n L) as Hdf1 by (rewrite Hf1; apply dir_rep_other; [by subst w1|done]).
        eapply kspec_seq; [eapply on_fs_spec, (dir_write f1 n L j _ None Hdf1)| |].
        { lia. }
        { apply Forall_app. split; [apply bytes_le|]. by apply Forall_drop. }
        { rewrite length_app, length_le, length_drop. change SIZEOF_DIRENT with 32 in *. lia. }
        { change SIZEOF_DIRENT with 32 in *. lia. }
        { apply zero_slot. }
        { intros [? ?]. done. }
        { intros w' (f2 & -> & _ & _ & Hfree). by specialize (Hfree j (Some (m', y)) eq_refl Ho). }
        intros _ w2 (f2 & -> & Hd2 & Ho2). cbn [kspec kret]. split_and!; [done|done|by subst w1| |].
        -- apply (untouched_trans n _ f1 _ L); [done| |done]. rewrite Hf1. subst w1. by apply untouched_links.
        -- cbn [with_fs v_fs]. rewrite (untouched_inodes n f1 f2 L) by done. apply lookup_insert_eq.
      * rewrite bool_decide_eq_false_2 by done. by apply Hnext.
    + rewrite (decode_free _ Hdec). by apply Hnext.
Qed.


(** ** A concrete directory *)

(** Directory 7 has one entry, the name "a" for inode 6, in block 5; dentry 1
    is that name, dentry 2 the name "b", without an inode. *)
Definition demo_entry : list Z := [6; 0; 0; 0; 97] ++ replicate 27 0.
Definition demo_dir_inode : minode := set_isize SIZEOF_DIRENT small_inode.
Definition demo_linked : minode := set_nlinks 2 empty_inode.
Definition dir_on (s : fs) : fs :=
  FS (cells (put s 5 (wr_bytes ∅ 0 demo_entry))) (sb s) false (<[7 := demo_dir_inode]> (<[7 := small_inode]> {[6 := demo_linked]})).
Definition demo_slots : list dslot := [Some (6, [97])].
Definition demo_vfs (s : fs) : vfs fs :=
  VFS (dir_on s) (<[1%nat := Dentry (Some 6) [97] None]> {[2%nat := Dentry None [98] None]}) ∅ ∅ 0 3.

Lemma demo_entry_bytes : bytes demo_entry.
Proof. repeat (constructor; [lia|]). constructor. Qed.

Lemma dir_on_rep s :
  blocks_ok s -> generic_block_start (sb s) <= 5 < total_blocks (sb s) -> allocated s 5 = true ->
  dir_rep (dir_on s) 7 demo_slots.
Proof.
  intros Hok Hr Ha. pose proof (blocks_ok_put s 5 (wr_bytes ∅ 0 demo_entry) Hok Hr) as Hput.
  set (s0 := FS (cells (put s 5 (wr_bytes ∅ 0 demo_entry))) (sb s) false (<[7 := small_inode]> {[6 := demo_linked]})).
  assert (file_ok s0 7 small_inode []) as H0.
  { apply small_ok; [destruct Hput; by split|reflexivity|done|]. etransitivity; [|exact Ha].
    apply (allocated_put s 5 (wr_bytes ∅ 0 demo_entry) 5 Hok Hr). destruct Hok. nlia. }
  destruct (file_ok_meta s0 7 small_inode [] demo_dir_inode H0) as [H1 Hf]; [reflexivity|reflexivity|by left|].
  exists demo_dir_inode, []. split; [exact H1|]. split; [reflexivity|]. split; [reflexivity|].
  intros [|k] o Hk buf; [|done]. injection Hk as <-.
  assert (buf = demo_entry) as ->; [|split; [reflexivity|]; intros _; apply elem_of_cons; right; apply elem_of_cons; by left].
  etransitivity; [|apply (rd_bytes_wr_bytes ∅ 0 demo_entry demo_entry_bytes)]. rewrite slice_rd_bytes. apply slice_ext.
  change (SIZEOF_DIRENT * Z.of_nat 0) with 0. change (Z.of_nat (length demo_entry)) with 32. intros pos Hpos.
  etransitivity; [apply Hf|].
  unfold file_byte. rewrite small_file_block by nlia. rewrite (decide_True (P := pos / BLOCK_SIZE = 0)) by nlia.
  rewrite decide_False by done. replace (pos mod BLOCK_SIZE) with pos by nlia. f_equal.
  etransitivity; [apply (contents_put s 5 (wr_bytes ∅ 0 demo_entry) 5)|by rewrite decide_True].
  apply (bo_cells _ Hok). destruct Hok. nlia.
Qed.

Definition demo_world : vfs fs := demo_vfs demo_fs.

Lemma demo_dir_rep : dir_rep (v_fs demo_world) 7 demo_slots.
Proof. exact (dir_on_rep demo_fs demo_fs_ok demo_range_5 demo_allocated_5). Qed.

Lemma demo_name_ok c : 0 < c < 256 -> name_ok [c].
Proof. intros Hc. constructor; [exact Hc|constructor]. Qed.

Lemma demo_dir_bound : dir_bound (None :: demo_slots) /\ dir_bound demo_slots.
Proof. unfold dir_bound. cbn [length demo_slots]. change SIZEOF_DIRENT with 32. lia. Qed.

Lemma demo_ready s m x : find_entry demo_slots x = Some m -> m <> 7 /\ inode_ready (demo_vfs s) m.
Proof.
  cbn [demo_slots find_entry]. case_decide; [|done]. intros [= <-]. split; [done|]. exists demo_linked. split; reflexivity.
Qed.

(** Its only block of entries has an entry: the operations below do not fail. *)
Lemma demo_no_empty : ~ empty_block demo_slots.
Proof.
  intros (k & Hk & Hf). cbn [demo_slots length] in Hk. assert (k = 0%nat) as -> by lia.
  by specialize (Hf 0%nat (Some (6, [97])) eq_refl eq_refl).
Qed.




(** The local [dirent] of [__link] has room for 27 characters and a NUL.  A
    shorter name leaves the stack behind it alone; a name of 28 characters,
    which the callers accept, clears the byte behind it. *)
Theorem link_name_bounds frame n x :
  (Z.of_nat (length x) < MAX_NAME_LENGTH ->
   forall a, SIZEOF_DIRENT <= a < NAME -> rd8 (nfs_inode.new_dirent frame n x) a = rd8 frame a) /\
  (Z.of_nat (length x) = MAX_NAME_LENGTH -> rd8 (nfs_inode.new_dirent frame n x) SIZEOF_DIRENT = 0).
Proof.
  unfold nfs_inode.new_dirent. change MAX_NAME_LENGTH with 28. change SIZEOF_DIRENT with 32. change NAME with 4096.
  change DIRENT_NAME with 4. change DIRENT with 0. split.
  - intros Hx a Ha. rewrite rd8_wr8_ne, strncpy_other, store_other, wr_bytes_other by lia. done.
  - intros ->. by rewrite rd8_wr8_eq.
Qed.
