(* ===== verification/PathWalk.v ===== *)
(** * Paths over NFS directories (src/os/fs/dentry.cc, nfs/inode.cc)

    The NFS directories implement the interface of the dentry cache, so the
    theorems of the file Dentry hold for paths over them.  Two runs show where
    the cache departs from what a path means: a name that was not found stays
    in the cache without a parent, where it can be taken for the root, and a
    cached name is compared on the length of the name asked for only. *)
From S2P Require Import Prelude Memory CString Bitmap NfsBlock NfsInode NfsRep NfsData NfsFile NfsMeta Dentry NfsDir.

(** ** The interface *)

Definition nfs_dir (frame : memory) (recycled : minode) (fuel : nat) : DirOps fs :=
  {| dir_lookup := nfs_inode.lookup frame recycled fuel |}.

#[export] Instance cache_kept_refl : Reflexive (@cache_kept fs).
Proof. done. Qed.

#[export] Instance cache_kept_trans : Transitive (@cache_kept fs).
Proof.
  intros w1 w2 w3 (H1 & H2 & H3) (H4 & H5 & H6). split_and!; [congruence..|]. intros d. by rewrite H6, H3.
Qed.

(** An operation after which the cache is kept. *)
Notation keeps := (krel (@cache_kept fs)).

Lemma keeps_fs {A : Type} (m : K fs A) : keeps (on_fs m).
Proof. intros w a w'. unfold on_fs. destruct (m (v_fs w)); [|done..]. intros [= <- <-]. done. Qed.

Lemma keeps_the_dentry d : keeps (dentry_cache.the_dentry d).
Proof. intros w a w'. unfold dentry_cache.the_dentry. destruct (_ !! _); [|done]. intros [= <- <-]. done. Qed.

Lemma keeps_set_dentry i d : keeps (dentry_cache.set_dentry i d).
Proof. intros w a w' [= <- <-]. done. Qed.

Lemma keeps_set_inode d i : keeps (dentry_cache.set_inode d i).
Proof.
  intros w a w' [= <- <-]. split_and!; [done|done|]. intros e. cbn [dentries]. destruct (decide (e = d)) as [->|].
  - rewrite lookup_alter_eq. by destruct (dentries w !! d).
  - by rewrite lookup_alter_ne.
Qed.

Lemma keeps_same_name frame buf x : keeps (nfs_inode.same_name frame buf x).
Proof. unfold nfs_inode.same_name. destruct (strcmp _ _ _ _); [apply krel_ret, _|by apply krel_none]. Qed.

#[export] Hint Resolve keeps_fs keeps_the_dentry keeps_set_dentry keeps_set_inode keeps_same_name : krel.

Lemma keeps_lookup_loop frame recycled k this d x off : keeps (nfs_inode.lookup_loop frame recycled k this d x off).
Proof. revert off. induction k as [|k IH]; intros off; cbn [nfs_inode.lookup_loop]; krel. Qed.

Lemma nfs_dir_laws frame recycled fuel : @DirLaws fs (nfs_dir frame recycled fuel).
Proof.
  intros i d w r w'. apply (fun H : keeps (nfs_inode.lookup frame recycled fuel i d) => H w r w').
  unfold nfs_inode.lookup, nfs_inode.name_too_long. krel; apply keeps_lookup_loop.
Qed.

(** ** Two runs *)

Definition run_path (path : list Z) : K (vfs fs) (option nat) :=
  @dentry_cache.get_at_view fs (nfs_dir ∅ small_inode 8) None path.

(** The root directory, inode 1, is empty; dentry 0 is the root. *)
Definition root_dentry : dentry := Dentry (Some 1) [] None.
Definition empty_root : vfs fs :=
  VFS (FS ∅ (Superblock NFS_MAGIC 64 61 0 2 3 2 (Dinode 0 0 0 0 0 [])) false {[1 := empty_inode]})
    {[0%nat := root_dentry]} {[1 := 0%nat]} {[0 := [0%nat]]} 1 1.

(** In the empty root directory "/b" is not found.  After "/pea" was not found
    either, the next absolute path makes the kernel follow a null pointer: the
    dentry made for "pea" lost its parent and stayed in the bucket of the empty
    name, and it is taken for the root. *)
Theorem failed_lookup_poisons_root :
  ret_val (run_path [47; 98] empty_root) = Some None /\
  ret_val (run_path [47; 112; 101; 97] empty_root) = Some None /\
  (run_path [47; 112; 101; 97] ;;; run_path [47; 98]) empty_root = Panic.
Proof. split_and!; vm_compute; reflexivity. Qed.

(** The root directory holds "exo" (inode 6) and "e" (inode 7). *)
Definition two_entries : list Z :=
  ([6; 0; 0; 0; 101; 120; 111] ++ replicate 25 0) ++ ([7; 0; 0; 0; 101] ++ replicate 27 0).
Definition two_names : vfs fs :=
  VFS (FS {[5 := Cell (wr_bytes ∅ 0 two_entries) false (wr_bytes ∅ 0 two_entries)]}
        (Superblock NFS_MAGIC 64 61 0 2 3 2 (Dinode 0 0 0 0 0 [])) false
        (<[1 := set_isize 64 small_inode]> (<[6 := empty_inode]> {[7 := empty_inode]})))
    {[0%nat := root_dentry]} {[1 := 0%nat]} {[0 := [0%nat]]} 1 1.

Definition inode_of (path : list Z) : K (vfs fs) (option Z) :=
  d <- run_path path ;;
  match d with
  | Some d => e <- dentry_cache.the_dentry d ;; kret (_inode e)
  | None => kret None
  end.

(** "/e" is inode 7, but after "/exo" was resolved it is inode 6: both names
    are in one bucket and the cached one starts with the name asked for. *)
Theorem cached_prefix_match :
  ret_val (inode_of [47; 101] two_names) = Some (Some 7) /\
  ret_val ((run_path [47; 101; 120; 111] ;;; inode_of [47; 101]) two_names) = Some (Some 6).
Proof. split; vm_compute; reflexivity. Qed.

Lemma get_cached_witness :
  exists d w', @dentry_cache.get fs (nfs_dir ∅ small_inode 8) (Some 0%nat) [101] two_names = Ret (Some d) w' /\
    @dentry_cache.get fs (nfs_dir ∅ small_inode 8) (Some 0%nat) [101] w' = Ret (Some d) w' /\
    exists e, dentries w' !! d = Some e /\ parent e = Some 0%nat /\ strncmp_eq (name e) [101] = true.
Proof.
  destruct (@dentry_cache.get fs (nfs_dir ∅ small_inode 8) (Some 0%nat) [101] two_names) as [[d|] w'| | |] eqn:Hget;
    [|exfalso; revert Hget; vm_compute; discriminate..].
  exists d, w'. split; [reflexivity|].
  exact (@get_cached fs (nfs_dir ∅ small_inode 8) (nfs_dir_laws ∅ small_inode 8) (Some 0%nat) [101] two_names d w' Hget).
Defined.
