(* ===== verification/Process.v ===== *)
(** * Processes and their states (src/os/proc/process.h, process.cc)

    A process is RUNNABLE in the queue, RUNNING on a core, SLEEPING, woken up,
    killed or gone.  Each operation below is what runs under the lock of the
    process; the scheduler, in the file Scheduler, interleaves them.

    Processes are named by numbers.  [resources] says whether the process still
    has its memory: the page table of a user process, the stack of a kernel
    process.  [core] is the core an operation runs on. *)
From S2P Require Import Prelude.

Inductive pstate : Type :=
| INIT | ALLOCATED | SLEEPING | WAKEN_UP | RUNNABLE | RUNNING | KILLED | ZOMBIE | EXITED.

#[export] Instance pstate_eq_dec : EqDecision pstate.
Proof. solve_decision. Defined.

(** [user_process] or [kernel_process]. *)
Inductive pkind : Type := UserProcess | KernelProcess.

Definition FD_MAX : Z := 16.
Definition BIG_STRIDE : Z := 0x7FFFFFFF.

(** [files] holds [None] for a null pointer. *)
Record process : Type := Process {
  kind : pkind;
  _state : pstate;
  exit_code : Z;
  p_parent : option Z;
  children : list Z;
  wait_children_queue : list Z;
  stride : Z;
  priority : Z;
  binding_core : Z;
  files : list (option Z);
  resources : bool
}.

(** What a core is doing: its scheduler has nothing, has taken a process from
    the queue, is inside the process, or the process has ended and is about to
    switch back. *)
Inductive phase : Type := Chosen (p : Z) | Inside (p : Z) | Leaving (p : Z).

Record sys : Type := Sys {
  procs : gmap Z process;
  queue : list Z;
  cores : gmap Z phase;
  last_choice : gmap Z Z;
  core_stride : gmap Z Z;
  next_pid : Z
}.

Definition the_proc (p : Z) : K sys process := fun s =>
  match procs s !! p with
  | Some e => Ret e s
  | None => Panic
  end.
Definition upd_proc (p : Z) (g : process -> process) : K sys unit :=
  kmodify (fun s => Sys (alter g p (procs s)) (queue s) (cores s) (last_choice s) (core_stride s) (next_pid s)).

Definition set_state (st : pstate) (e : process) : process :=
  Process (kind e) st (exit_code e) (p_parent e) (children e) (wait_children_queue e) (stride e) (priority e)
    (binding_core e) (files e) (resources e).
Definition set_stride (x : Z) (e : process) : process :=
  Process (kind e) (_state e) (exit_code e) (p_parent e) (children e) (wait_children_queue e) x (priority e)
    (binding_core e) (files e) (resources e).
Definition set_exit (code : Z) (e : process) : process :=
  Process (kind e) (_state e) code (p_parent e) (children e) (wait_children_queue e) (stride e) (priority e)
    (binding_core e) (files e) (resources e).
Definition set_parent (q : option Z) (e : process) : process :=
  Process (kind e) (_state e) (exit_code e) q (children e) (wait_children_queue e) (stride e) (priority e)
    (binding_core e) (files e) (resources e).
Definition set_children (l : list Z) (e : process) : process :=
  Process (kind e) (_state e) (exit_code e) (p_parent e) l (wait_children_queue e) (stride e) (priority e)
    (binding_core e) (files e) (resources e).
Definition set_waiters (l : list Z) (e : process) : process :=
  Process (kind e) (_state e) (exit_code e) (p_parent e) (children e) l (stride e) (priority e)
    (binding_core e) (files e) (resources e).
Definition set_files (l : list (option Z)) (e : process) : process :=
  Process (kind e) (_state e) (exit_code e) (p_parent e) (children e) (wait_children_queue e) (stride e) (priority e)
    (binding_core e) l (resources e).
Definition set_resources (b : bool) (e : process) : process :=
  Process (kind e) (_state e) (exit_code e) (p_parent e) (children e) (wait_children_queue e) (stride e) (priority e)
    (binding_core e) (files e) b.

(** ** Sleeping and waking *)

Definition set_runnable (p : Z) : K sys unit := upd_proc p (set_state RUNNABLE).
Definition waken_up (e : process) : bool := bool_decide (_state e = WAKEN_UP).
Definition ready (e : process) : bool := bool_decide (_state e = RUNNABLE).

Definition sleep (p : Z) : K sys unit :=
  e <- the_proc p ;;
  if decide (_state e = RUNNING) then upd_proc p (set_state SLEEPING) else kret tt.

Definition wake_up (core p : Z) : K sys unit :=
  e <- the_proc p ;;
  if decide (_state e = SLEEPING) then
    s <- kget ;;
    upd_proc p (fun e => set_state WAKEN_UP (set_stride (default 0 (core_stride s !! core)) e))
  else kret tt.

(** ** The end of a process *)

(** [parent->wait_children_queue.wake_up_one()]. *)
Definition wake_parent (core q : Z) : K sys unit :=
  e <- the_proc q ;;
  match wait_children_queue e with
  | [] => kret tt
  | w :: ws => upd_proc q (set_waiters ws) ;;; wake_up core w
  end.

Definition __set_exit_code (core p code : Z) : K sys unit :=
  upd_proc p (set_exit code) ;;;
  e <- the_proc p ;;
  match p_parent e with
  | Some q => upd_proc p (set_state ZOMBIE) ;;; wake_parent core q
  | None => upd_proc p (set_state EXITED)
  end.

Definition __close_files (p : Z) : K sys unit := upd_proc p (set_files (replicate (Z.to_nat FD_MAX) None)).

(** The loop over the children; [kill_child] is [child->__kill()]. *)
Fixpoint __clean_children (kill_child : Z -> K sys unit) (p : Z) (l : list Z) : K sys unit :=
  match l with
  | [] => kret tt
  | child :: l' =>
      upd_proc child (set_parent None) ;;;
      kill_child child ;;;
      upd_proc p (set_children l') ;;;
      __clean_children kill_child p l'
  end.

(** That of a user process can run twice. *)
Definition user_clean_resources (kill_child : Z -> K sys unit) (p : Z) (e : process) : K sys unit :=
  __close_files p ;;;
  __clean_children kill_child p (children e) ;;;
  upd_proc p (set_resources false).

(** That of a kernel process frees the page below [stack_bottom_va], which is
    no page of the allocator the second time. *)
Definition kernel_clean_resources (p : Z) (e : process) : K sys unit :=
  if resources e then upd_proc p (set_resources false) else kpanic.

(** The virtual [__clean_resources]. *)
Definition __clean_resources (kill_child : Z -> K sys unit) (p : Z) : K sys unit :=
  e <- the_proc p ;;
  match kind e with
  | UserProcess => user_clean_resources kill_child p e
  | KernelProcess => kernel_clean_resources p e
  end.

Definition __do_kill (kill_child : Z -> K sys unit) (core p : Z) : K sys unit :=
  __clean_resources kill_child p ;;;
  __set_exit_code core p (-1).

(** [__kill] kills the children too; [fuel] bounds the depth of the tree. *)
Fixpoint __kill (fuel : nat) (core p : Z) : K sys unit :=
  e <- the_proc p ;;
  if decide (_state e = RUNNING) then upd_proc p (set_state KILLED)
  else
    match fuel with
    | O => kfuel
    | S fuel' => __do_kill (__kill fuel' core) core p
    end.
Definition kill : nat -> Z -> Z -> K sys unit := __kill.

(** [process::exit] of a user process, and the return of the function of a
    kernel process, up to the switch back. *)
Definition exit (fuel : nat) (core p code : Z) : K sys unit :=
  __clean_resources (__kill fuel core) p ;;;
  __set_exit_code core p code.
Definition kernel_function_done (core p : Z) : K sys unit := __set_exit_code core p 0.

(** ** Running *)

(** The first critical section of [run]: whether the process is entered. *)
Definition user_run_begin (p : Z) (e : process) : K sys bool :=
  if decide (_state e = EXITED \/ _state e = ZOMBIE) then kret false
  else
    kernel_assert (bool_decide (_state e = RUNNABLE)) ;;;
    upd_proc p (set_state RUNNING) ;;; kret true.
Definition kernel_run_begin (p : Z) (e : process) : K sys bool :=
  if decide (_state e = EXITED) then kret false
  else if decide (_state e = RUNNABLE) then upd_proc p (set_state RUNNING) ;;; kret true
  else kpanic.
Definition run_begin (p : Z) : K sys bool :=
  e <- the_proc p ;;
  match kind e with
  | UserProcess => user_run_begin p e
  | KernelProcess => kernel_run_begin p e
  end.

(** The second one: whether the process is scheduled again. *)
Definition user_run_end (fuel : nat) (core p : Z) (e : process) : K sys bool :=
  match _state e with
  | KILLED => __do_kill (__kill fuel core) core p ;;; kret false
  | RUNNING => upd_proc p (set_state RUNNABLE) ;;; kret true
  | EXITED | ZOMBIE => kret false
  | SLEEPING | RUNNABLE | WAKEN_UP => kret true
  | _ => kpanic
  end.
Definition kernel_run_end (fuel : nat) (core p : Z) (e : process) : K sys bool :=
  match _state e with
  | RUNNING => upd_proc p (set_state RUNNABLE) ;;; kret true
  | EXITED => __clean_resources (__kill fuel core) p ;;; kret false
  | SLEEPING | RUNNABLE | WAKEN_UP => kret true
  | _ => kpanic
  end.
Definition run_end (fuel : nat) (core p : Z) : K sys bool :=
  e <- the_proc p ;;
  match kind e with
  | UserProcess => user_run_end fuel core p e
  | KernelProcess => kernel_run_end fuel core p e
  end.

(** ** File descriptors *)

Fixpoint first_null (l : list (option Z)) : option nat :=
  match l with
  | [] => None
  | None :: _ => Some 0%nat
  | Some _ :: l' => S <$> first_null l'
  end.

Definition alloc_fd (p f : Z) : K sys Z :=
  e <- the_proc p ;;
  match first_null (files e) with
  | Some i => upd_proc p (set_files (<[i := Some f]> (files e))) ;;; kret (Z.of_nat i)
  | None => kret (-1)
  end.
Definition get_file (p fd : Z) : K sys (option Z) :=
  e <- the_proc p ;;
  if (fd <? 0) || (FD_MAX <=? fd) then kret None else kret (default None (files e !! Z.to_nat fd)).

(** ** Construction *)

Definition new_process (k : pkind) (st : pstate) : process :=
  Process k st (-1) None [] [] 0 16 (-1) (replicate (Z.to_nat FD_MAX) None) true.
(** [kernel_process(pid, func)], with its stack. *)
Definition new_kernel_process : process := new_process KernelProcess WAKEN_UP.
