(* ===== verification/Scheduler.v ===== *)
(** * The process scheduler (src/os/proc/scheduler.h, scheduler.cc, arch/cpu.cc)

    Each core runs [process_scheduler::run]: it takes the first ready process
    from the queue all cores share, runs it until it switches back, and pushes
    it again.  In between, processes sleep, end, are woken up and are killed,
    from any core.  [sstep] interleaves all of it at the granularity of the
    critical sections. *)
From Stdlib Require Import Sorting.Sorted.
From S2P Require Import Prelude Process.

(** ** Definitions *)

Definition stride_cmp (a b : Z) : Z :=
  if a =? b then 0
  else if a <? b then (if BIG_STRIDE / 2 <? b - a then 1 else -1)
  else (if BIG_STRIDE / 2 <? a - b then -1 else 1).

(** The loop of [process_queue::pop]. *)
Fixpoint pop_loop (core : Z) (l : list Z) : K sys (option Z) :=
  match l with
  | [] => kret None
  | p :: l' =>
      e <- the_proc p ;;
      (if waken_up e then set_runnable p else kret tt) ;;;
      e <- the_proc p ;;
      if negb (ready e) then pop_loop core l'
      else if negb (binding_core e =? -1) && negb (binding_core e =? core) then pop_loop core l'
      else if decide (_state e = SLEEPING) then pop_loop core l'
      else kret (Some p)
  end.

(** [_queue.erase(it)]: the process is in the queue once. *)
Definition set_queue (l : list Z) : K sys unit :=
  kmodify (fun s => Sys (procs s) l (cores s) (last_choice s) (core_stride s) (next_pid s)).
Definition pop (core : Z) : K sys (option Z) :=
  s <- kget ;;
  r <- pop_loop core (queue s) ;;
  match r with
  | None => kret None
  | Some p => set_queue (filter (fun q => q <> p) (queue s)) ;;; kret (Some p)
  end.
Definition push (p : Z) : K sys unit :=
  kmodify (fun s => Sys (procs s) (queue s ++ [p]) (cores s) (last_choice s) (core_stride s) (next_pid s)).
Definition alloc_pid : K sys Z := fun s =>
  Ret (next_pid s) (Sys (procs s) (queue s) (cores s) (last_choice s) (core_stride s) (s32 (next_pid s + 1))).

Definition set_core (core : Z) (ph : option phase) : K sys unit :=
  kmodify (fun s => Sys (procs s) (queue s)
    (match ph with Some ph => <[core := ph]> (cores s) | None => delete core (cores s) end)
    (last_choice s) (core_stride s) (next_pid s)).
Definition set_core_stride (core x : Z) : K sys unit :=
  kmodify (fun s => Sys (procs s) (queue s) (cores s) (last_choice s) (<[core := x]> (core_stride s)) (next_pid s)).

(** A round of [process_scheduler::run], in three parts.  First: a process is
    chosen and its stride is advanced; without one the loop ends. *)
Definition sched_choose (core : Z) : K sys bool :=
  r <- pop core ;;
  s <- kget ;;
  match (match r with Some p => Some p | None => last_choice s !! core end) with
  | None => kret false
  | Some p =>
      e <- the_proc p ;;
      upd_proc p (fun e => set_stride (u64 (stride e + BIG_STRIDE / priority e)) e) ;;;
      e <- the_proc p ;;
      set_core_stride core (stride e) ;;;
      set_core core (Some (Chosen p)) ;;;
      kret true
  end.

(** Second: [run] up to the switch to the process. *)
Definition sched_enter (core p : Z) : K sys unit :=
  entered <- run_begin p ;;
  set_core core (if (entered : bool) then Some (Inside p) else None).

(** Third: after the switch back. *)
Definition sched_leave (fuel : nat) (core p : Z) : K sys unit :=
  reschedule <- run_end fuel core p ;;
  set_core core None ;;;
  s <- kget ;;
  if (reschedule : bool) && negb (bool_decide (last_choice s !! core = Some p)) then push p else kret tt.

(** ** Timed sleepers of a core *)

Record sleeper : Type := Sleeper { wakeup_time : Z; who : Z }.

(** [__push_sleeper]: before the first sleeper that wakes up later. *)
Fixpoint __push_sleeper (x : sleeper) (l : list sleeper) : list sleeper :=
  match l with
  | [] => [x]
  | y :: l' => if wakeup_time x <? wakeup_time y then x :: y :: l' else y :: __push_sleeper x l'
  end.

(** [cpu::wake_up]: the sleepers woken, and those left. *)
Fixpoint cpu_wake_up (now : Z) (l : list sleeper) : list Z * list sleeper :=
  match l with
  | [] => ([], [])
  | x :: l' =>
      if now <? wakeup_time x then ([], l)
      else let '(ws, r) := cpu_wake_up now l' in (who x :: ws, r)
  end.

(** ** Interleavings *)

Inductive sstep : sys -> sys -> Prop :=
| st_choose core s b s' :
    cores s !! core = None -> sched_choose core s = Ret b s' -> sstep s s'
| st_enter core p s s' :
    cores s !! core = Some (Chosen p) -> sched_enter core p s = Ret tt s' -> sstep s s'
| st_sleep core p s s' :
    cores s !! core = Some (Inside p) -> sleep p s = Ret tt s' -> sstep s s'
| st_exit core p fuel code s s' e :
    cores s !! core = Some (Inside p) -> procs s !! p = Some e -> kind e = UserProcess ->
    (exit fuel core p code ;;; set_core core (Some (Leaving p))) s = Ret tt s' -> sstep s s'
| st_return core p s s' e :
    cores s !! core = Some (Inside p) -> procs s !! p = Some e -> kind e = KernelProcess ->
    (kernel_function_done core p ;;; set_core core (Some (Leaving p))) s = Ret tt s' -> sstep s s'
| st_leave core p fuel s s' :
    cores s !! core = Some (Inside p) \/ cores s !! core = Some (Leaving p) ->
    sched_leave fuel core p s = Ret tt s' -> sstep s s'
| st_wake core p s s' : wake_up core p s = Ret tt s' -> sstep s s'
| st_kill core fuel p s s' : kill fuel core p s = Ret tt s' -> sstep s s'
| st_new p e s s' :
    procs s !! p = None -> _state e = WAKEN_UP ->
    push p (Sys (<[p := e]> (procs s)) (queue s) (cores s) (last_choice s) (core_stride s) (next_pid s)) = Ret tt s' ->
    sstep s s'.

(** ** The invariant *)

Definition phase_proc (ph : phase) : Z := match ph with Chosen p | Inside p | Leaving p => p end.
Definition on_core (s : sys) (core p : Z) : Prop := exists ph, cores s !! core = Some ph /\ phase_proc ph = p.
Definition state_of (s : sys) (p : Z) : option pstate := _state <$> procs s !! p.

Record sched_inv (s : sys) : Prop := {
  sv_nodup : NoDup (queue s);
  sv_one_core : forall c c' p, on_core s c p -> on_core s c' p -> c = c';
  sv_apart : forall c p, on_core s c p -> p ∉ queue s;
  sv_idle : forall c p, last_choice s !! c = Some p -> p ∉ queue s /\ forall c', on_core s c' p \/ last_choice s !! c' = Some p -> c' = c;
  sv_known : forall p, p ∈ queue s \/ (exists c, on_core s c p \/ last_choice s !! c = Some p) -> is_Some (procs s !! p);
  sv_running : forall p, state_of s p = Some RUNNING -> exists c, cores s !! c = Some (Inside p)
}.

(** Only processes changed, none of them to RUNNING. *)
Record quiet (s s' : sys) : Prop := {
  q_queue : queue s' = queue s;
  q_cores : cores s' = cores s;
  q_idle : last_choice s' = last_choice s;
  q_known : forall p, is_Some (procs s' !! p) <-> is_Some (procs s !! p);
  q_running : forall p, state_of s' p = Some RUNNING -> state_of s p = Some RUNNING
}.

#[export] Instance quiet_refl : Reflexive quiet.
Proof. done. Qed.

#[export] Instance quiet_trans : Transitive quiet.
Proof.
  intros s1 s2 s3 [H1 H2 H3 H4 H5] [J1 J2 J3 J4 J5]. split; [congruence|congruence|congruence| |auto].
  intros p. by rewrite J4.
Qed.

Lemma quiet_upd p g : (forall e, _state (g e) = RUNNING -> _state e = RUNNING) -> krel quiet (upd_proc p g).
Proof.
  intros Hg s a s' [= <- <-]. split; [done|done|done| |].
  - intros q. cbn [procs]. destruct (decide (q = p)) as [->|]; [by rewrite lookup_alter_eq, fmap_is_Some|by rewrite lookup_alter_ne].
  - intros q. unfold state_of. cbn [procs]. destruct (decide (q = p)) as [->|].
    + rewrite lookup_alter_eq. destruct (procs s !! p) as [e|]; [|done]. cbn. intros [= Hr]. f_equal. by apply Hg.
    + by rewrite lookup_alter_ne.
Qed.

Lemma quiet_the_proc p : krel quiet (the_proc p).
Proof. intros s a s'. unfold the_proc. destruct (procs s !! p); [|done]. by intros [= <- <-]. Qed.

Lemma quiet_get : krel quiet (@kget sys).
Proof. by intros s a s' [= <- <-]. Qed.

#[export] Hint Resolve quiet_the_proc quiet_get : krel.
#[export] Hint Extern 1 (krel quiet (upd_proc _ _)) => (apply quiet_upd; by intros []) : krel.

Lemma quiet_sleep p : krel quiet (sleep p).
Proof. unfold sleep. krel. Qed.

Lemma quiet_wake_up core p : krel quiet (wake_up core p).
Proof. unfold wake_up. krel. Qed.
#[export] Hint Resolve quiet_wake_up : krel.

Lemma quiet_set_exit_code core p code : krel quiet (__set_exit_code core p code).
Proof. unfold __set_exit_code, wake_parent. krel. Qed.
#[export] Hint Resolve quiet_set_exit_code : krel.

Lemma quiet_clean_children f p l : (forall c, krel quiet (f c)) -> krel quiet (__clean_children f p l).
Proof. intros Hf. induction l as [|c l IH]; cbn [__clean_children]; krel. Qed.

Lemma quiet_clean_resources f p : (forall c, krel quiet (f c)) -> krel quiet (__clean_resources f p).
Proof.
  intros Hf. unfold __clean_resources, user_clean_resources, kernel_clean_resources, __close_files. krel.
  by apply quiet_clean_children.
Qed.

Lemma quiet_do_kill f core p : (forall c, krel quiet (f c)) -> krel quiet (__do_kill f core p).
Proof. intros Hf. apply krel_bind; [apply _|by apply quiet_clean_resources|intros _; auto with krel]. Qed.
#[export] Hint Resolve quiet_do_kill quiet_clean_resources : krel.

Lemma quiet_kill fuel core p : krel quiet (__kill fuel core p).
Proof. revert p. induction fuel as [|fuel IH]; intros p; cbn [__kill]; krel. Qed.
#[export] Hint Resolve quiet_kill : krel.

Lemma quiet_run_end fuel core p : krel quiet (run_end fuel core p).
Proof. unfold run_end, user_run_end, kernel_run_end. krel. Qed.

Lemma quiet_pop_loop core l : krel quiet (pop_loop core l).
Proof. induction l as [|p l IH]; cbn [pop_loop]; unfold set_runnable; krel. Qed.

Lemma inv_quiet s s' : sched_inv s -> quiet s s' -> sched_inv s'.
Proof.
  intros [H1 H2 H3 H4 H5 H6] [Q1 Q2 Q3 Q4 Q5].
  assert (forall c p, on_core s' c p <-> on_core s c p) as Hon by (intros c p; unfold on_core; by rewrite Q2).
  split.
  - by rewrite Q1.
  - intros c c' p. rewrite !Hon. apply H2.
  - intros c p. rewrite Hon, Q1. apply H3.
  - intros c p. rewrite Q1, Q3. intros Hc. destruct (H4 c p Hc) as [Hq Hu]. split; [done|]. intros c'. rewrite Hon. apply Hu.
  - intros p Hp. apply Q4, H5. rewrite Q1 in Hp. destruct Hp as [|(c & Hc)]; [by left|right]. exists c. by rewrite Hon, Q3 in Hc.
  - intros p Hp. rewrite Q2. by apply H6, Q5.
Qed.

(** The functions that move processes between the queue and the cores. *)
Definition place (q : list Z) (cs : gmap Z phase) (s : sys) : sys :=
  Sys (procs s) q cs (last_choice s) (core_stride s) (next_pid s).

Lemma on_core_insert s core ph q c p :
  on_core (place q (<[core := ph]> (cores s)) s) c p <->
  (c = core /\ phase_proc ph = p) \/ (c <> core /\ on_core s c p).
Proof.
  unfold on_core. cbn [place cores]. destruct (decide (c = core)) as [->|Hc].
  - rewrite lookup_insert_eq. naive_solver.
  - rewrite lookup_insert_ne by done. naive_solver.
Qed.

Lemma on_core_delete s core q c p :
  on_core (place q (delete core (cores s)) s) c p <-> c <> core /\ on_core s c p.
Proof.
  unfold on_core. cbn [place cores]. destruct (decide (c = core)) as [->|Hc].
  - rewrite lookup_delete_eq. naive_solver.
  - rewrite lookup_delete_ne by done. naive_solver.
Qed.

(** A free core takes a process from the queue, or its idle process. *)
Lemma inv_take s core p :
  sched_inv s -> cores s !! core = None -> p ∈ queue s \/ last_choice s !! core = Some p ->
  sched_inv (place (filter (fun q => q <> p) (queue s)) (<[core := Chosen p]> (cores s)) s).
Proof.
  intros [H1 H2 H3 H4 H5 H6] Hfree Hp.
  assert (forall c, ~ on_core s c p) as Hnot.
  { intros c Hc. destruct Hp as [Hp|Hp]; [by apply (H3 c p Hc)|].
    destruct (H4 core p Hp) as [_ Hu]. assert (c = core) as -> by (apply Hu; by left).
    destruct Hc as (ph & Hc & _). congruence. }
  assert (forall c, last_choice s !! c = Some p -> c = core /\ last_choice s !! core = Some p) as Hlc.
  { intros c Hc. destruct Hp as [Hp|Hp]; [by destruct (H4 c p Hc)|]. split; [|done].
    destruct (H4 core p Hp) as [_ Hu]. apply Hu. by right. }
  split.
  - by apply NoDup_filter.
  - intros c c' q. rewrite !on_core_insert. cbn [phase_proc].
    intros [[-> <-]|[Hc Hq]] [[-> Hq']|[Hc' Hq']]; [done|by apply Hnot in Hq'|subst; by apply Hnot in Hq|by eapply H2].
  - intros c q. rewrite on_core_insert. cbn [phase_proc place queue]. rewrite list_elem_of_filter.
    intros [[_ <-]|[_ Hq]] [Hne Hin]; [done|]. by apply (H3 c q).
  - intros c q Hc. cbn [place last_choice queue] in *. destruct (H4 c q Hc) as [Hq Hu]. split.
    + rewrite list_elem_of_filter. naive_solver.
    + intros c'. rewrite on_core_insert. cbn [phase_proc].
      intros [[[-> <-]|[_ Hq']]|Hq']; [|apply Hu; by left|apply Hu; by right].
      destruct (Hlc c Hc) as [-> _]. done.
  - intros q Hq. cbn [place procs]. apply H5. destruct Hq as [Hq|(c & Hq)].
    + apply list_elem_of_filter in Hq as [_ Hq]. by left.
    + rewrite on_core_insert in Hq. cbn [phase_proc place last_choice] in Hq.
      destruct Hq as [[[-> <-]|[_ Hq]]|Hq].
      * destruct Hp as [Hp|Hp]; [by left|right; exists core; by right].
      * right. exists c. by left.
      * right. exists c. by right.
  - intros q Hq. destruct (H6 q Hq) as [c Hc]. exists c. cbn [place cores]. rewrite lookup_insert_ne by congruence. done.
Qed.

(** A core lets its process go. *)
Lemma inv_free s core ph :
  sched_inv s -> cores s !! core = Some ph -> state_of s (phase_proc ph) <> Some RUNNING ->
  let s' := place (queue s) (delete core (cores s)) s in
  sched_inv s' /\ (forall c, ~ on_core s' c (phase_proc ph)) /\ phase_proc ph ∉ queue s' /\ is_Some (procs s' !! phase_proc ph) /\
  (last_choice s' !! core <> Some (phase_proc ph) -> forall c, last_choice s' !! c <> Some (phase_proc ph)).
Proof.
  intros [H1 H2 H3 H4 H5 H6] Hph Hst s'. assert (on_core s core (phase_proc ph)) as Hon by by exists ph.
  split_and!.
  - split.
    + done.
    + intros c c' p. unfold s'. rewrite !on_core_delete. intros [_ Hp] [_ Hp']. by eapply H2.
    + intros c p. unfold s'. rewrite on_core_delete. intros [_ Hp]. by apply (H3 c).
    + intros c p Hc. destruct (H4 c p Hc) as [Hq Hu]. split; [done|]. intros c'. unfold s'. rewrite on_core_delete.
      intros [[_ Hp]|Hp]; apply Hu; [by left|by right].
    + intros p Hp. apply H5. destruct Hp as [|(c & Hp)]; [by left|right]. exists c. unfold s' in Hp. rewrite on_core_delete in Hp.
      destruct Hp as [[_ Hp]|Hp]; [by left|by right].
    + intros p Hp. destruct (H6 p Hp) as [c Hc]. exists c. cbn [s' place cores]. rewrite lookup_delete_ne; [done|].
      intros <-. rewrite Hph in Hc. injection Hc as ->. done.
  - intros c. unfold s'. rewrite on_core_delete. intros [Hne Hc]. apply Hne. by eapply H2.
  - by apply (H3 core).
  - apply H5. right. exists core. by left.
  - intros Hne c Hc. apply Hne. destruct (H4 c _ Hc) as [_ Hu]. assert (core = c) as ->; [apply Hu; by left|done].
Qed.

Lemma inv_push s p :
  sched_inv s -> (forall c, ~ on_core s c p) -> p ∉ queue s -> is_Some (procs s !! p) ->
  (forall c, last_choice s !! c <> Some p) -> sched_inv (place (queue s ++ [p]) (cores s) s).
Proof.
  intros [H1 H2 H3 H4 H5 H6] Hno Hq Hp Hlc. split.
  - apply NoDup_app. split_and!; [done|set_solver|apply NoDup_singleton].
  - done.
  - intros c q Hc. cbn [place queue]. rewrite elem_of_app, list_elem_of_singleton. intros [Hin| ->]; [by apply (H3 c q Hc)|by apply (Hno c)].
  - intros c q Hc. destruct (H4 c q Hc) as [Hq' Hu]. split; [|exact Hu]. cbn [place queue].
    rewrite elem_of_app, list_elem_of_singleton. intros [Hin| ->]; [done|]. by apply (Hlc c).
  - intros q. cbn [place queue procs]. rewrite elem_of_app, list_elem_of_singleton. intros [[Hin| ->]|Hc]; [apply H5; by left|done|].
    apply H5. by right.
  - done.
Qed.

Lemma pop_loop_in core l s p s' : pop_loop core l s = Ret (Some p) s' -> p ∈ l.
Proof.
  revert s. induction l as [|q l IH]; intros s; cbn [pop_loop]; [done|].
  intros (e & s1 & _ & (? & s2 & _ & (e2 & s3 & _ & H)%kbind_inv_ret)%kbind_inv_ret)%kbind_inv_ret.
  repeat case_match; try (apply IH in H; by right). injection H as -> _. by left.
Qed.

Lemma the_proc_inv p s e s' : the_proc p s = Ret e s' -> s' = s /\ procs s !! p = Some e.
Proof. unfold the_proc. destruct (procs s !! p); [|done]. by intros [= -> ->]. Qed.

(** The part of [sched_choose] after the choice. *)
Lemma choose_rest core p s b s' q :
  (e <- the_proc p ;;
   upd_proc p (fun e => set_stride (u64 (stride e + BIG_STRIDE / priority e)) e) ;;;
   e <- the_proc p ;; set_core_stride core (stride e) ;;; set_core core (Some (Chosen p)) ;;; kret true) s = Ret b s' ->
  queue s = q -> quiet (place q (<[core := Chosen p]> (cores s)) s) s'.
Proof.
  intros (e & s1 & [-> He]%the_proc_inv & (u & s2 & H2 & (e2 & s3 & [-> _]%the_proc_inv & H)%kbind_inv_ret)%kbind_inv_ret)%kbind_inv_ret <-.
  injection H2 as _ <-. injection H as _ <-. split; [done|done|done| |].
  - intros x. cbn [place procs]. destruct (decide (x = p)) as [->|]; [by rewrite lookup_alter_eq, fmap_is_Some|by rewrite lookup_alter_ne].
  - intros x. unfold state_of. cbn [place procs]. destruct (decide (x = p)) as [->|]; [|by rewrite lookup_alter_ne].
    rewrite lookup_alter_eq. by destruct (procs s !! p).
Qed.

Lemma inv_choose core s b s' :
  sched_inv s -> cores s !! core = None -> sched_choose core s = Ret b s' -> sched_inv s'.
Proof.
  intros Hi Hfree (r & s1 & Hpop & (t & s2 & Ht & Hrest)%kbind_inv_ret)%kbind_inv_ret. injection Ht as -> <-.
  apply kbind_inv_ret in Hpop as (t2 & s3 & Ht & Hpop). injection Ht as -> <-.
  apply kbind_inv_ret in Hpop as (r0 & s0 & Hloop & Hpop).
  pose proof (quiet_pop_loop _ _ _ _ _ Hloop) as Hq. pose proof (inv_quiet _ _ Hi Hq) as Hi0.
  assert (cores s0 !! core = None) as Hfree0 by by rewrite (q_cores _ _ Hq).
  destruct r0 as [p|].
  - injection Hpop as <- <-. apply pop_loop_in in Hloop. rewrite <- (q_queue _ _ Hq) in *.
    eapply inv_quiet; [apply (inv_take s0 core p Hi0 Hfree0); by left|].
    exact (choose_rest _ _ _ _ _ _ Hrest eq_refl).
  - injection Hpop as <- <-. destruct (last_choice s0 !! core) as [p|] eqn:Hlc; [|by injection Hrest as _ <-].
    eapply inv_quiet; [apply (inv_take s0 core p Hi0 Hfree0); by right|].
    apply (choose_rest _ _ _ _ _ _ Hrest). symmetry. apply filter_all. intros x Hx ->. by destruct (sv_idle _ Hi0 core p Hlc).
Qed.

Lemma inv_enter core p s s' :
  sched_inv s -> cores s !! core = Some (Chosen p) -> sched_enter core p s = Ret tt s' -> sched_inv s'.
Proof.
  intros Hi Hc (b & s1 & Hrun & Hset)%kbind_inv_ret.
  assert (on_core s core p) as Hon by by exists (Chosen p).
  assert (state_of s p <> Some RUNNING) as Hst.
  { intros Hr. destruct (sv_running _ Hi p Hr) as [c Hc']. assert (c = core) as ->; [|congruence].
    apply (sv_one_core _ Hi c core p); [by exists (Inside p)|done]. }
  assert ((b = false /\ s1 = s) \/ (b = true /\ upd_proc p (set_state RUNNING) s = Ret tt s1)) as Hb.
  { revert Hrun. unfold run_begin, user_run_begin, kernel_run_begin. intros (e & s2 & [-> _]%the_proc_inv & H)%kbind_inv_ret. revert H.
    destruct (kind e); repeat case_decide; try discriminate.
    - intros [= <- <-]. by left.
    - unfold kbind at 1, kernel_assert. case_bool_decide; [|done]. intros [= <- <-]. by right.
    - intros [= <- <-]. by left.
    - intros [= <- <-]. by right. }
  destruct Hb as [[-> ->]|[-> Hupd]].
  - injection Hset as <-. by apply (inv_free s core (Chosen p)).
  - injection Hupd as <-. injection Hset as <-. destruct Hi as [H1 H2 H3 H4 H5 H6].
    assert (forall c q, on_core (place (queue s) (<[core := Inside p]> (cores s)) s) c q <-> on_core s c q) as Hsame.
    { intros c q. rewrite on_core_insert. cbn [phase_proc]. split.
      - intros [[-> <-]|[_ Hq]]; done.
      - intros Hq. destruct (decide (c = core)) as [->|]; [|by right]. left. split; [done|].
        destruct Hq as (ph & Hph & <-). rewrite Hc in Hph. by injection Hph as <-. }
    split; cbn [queue last_choice procs]; [done|intros c c' q Ha Hb; apply (H2 c c' q); by apply Hsame| | | |].
    + intros c q Hq. apply (H3 c). by apply Hsame.
    + intros c q Hl. destruct (H4 c q Hl) as [Hq Hu]. split; [done|]. intros c' [Hc'|Hc']; apply Hu; [left; by apply Hsame|by right].
    + intros q Hq. assert (is_Some (procs s !! q)) as Hs.
      { apply H5. destruct Hq as [|(c & [Hq|Hq])]; [by left|right; exists c; left; by apply Hsame|right; exists c; by right]. }
      destruct (decide (q = p)) as [->|]; [by rewrite lookup_alter_eq, fmap_is_Some|by rewrite lookup_alter_ne].
    + intros q. unfold state_of. cbn [procs cores]. destruct (decide (q = p)) as [->|].
      * intros _. exists core. apply lookup_insert_eq.
      * rewrite lookup_alter_ne by done. intros Hq. destruct (H6 q Hq) as [c Hcq]. exists c. rewrite lookup_insert_ne; [done|]. congruence.
Qed.

(** After [__set_exit_code] and after [run_end] the process is not RUNNING. *)
Lemma set_exit_not_running core p code s u s' :
  __set_exit_code core p code s = Ret u s' -> state_of s' p <> Some RUNNING.
Proof.
  intros (u1 & s1 & _ & (e & s2 & [-> He]%the_proc_inv & H)%kbind_inv_ret)%kbind_inv_ret Hr.
  assert (forall st t, state_of (Sys (alter (set_state st) p (procs t)) (queue t) (cores t) (last_choice t) (core_stride t) (next_pid t)) p
    = Some RUNNING -> st = RUNNING) as Hst.
  { intros st t. unfold state_of. cbn [procs]. rewrite lookup_alter_eq. destruct (procs t !! p); [|done]. by intros [= ->]. }
  destruct (p_parent e) as [q|].
  - apply kbind_inv_ret in H as (u2 & s2 & H2 & H). injection H2 as _ <-.
    assert (krel quiet (wake_parent core q)) as Hq by (unfold wake_parent; krel).
    apply (q_running _ _ (Hq _ _ _ H)), Hst in Hr. done.
  - injection H as _ <-. by apply Hst in Hr.
Qed.

Lemma run_end_not_running fuel core p s b s' :
  run_end fuel core p s = Ret b s' -> state_of s' p <> Some RUNNING.
Proof.
  intros Hrun Hr. pose proof (q_running _ _ (quiet_run_end _ _ _ _ _ _ Hrun) p Hr) as Hs.
  revert Hrun. intros (e & s1 & [-> He]%the_proc_inv & H)%kbind_inv_ret.
  unfold state_of in Hs. rewrite He in Hs. injection Hs as Hs.
  assert ((upd_proc p (set_state RUNNABLE) ;;; kret true) s = Ret b s') as H' by (unfold user_run_end, kernel_run_end in H; destruct (kind e); by rewrite Hs in H).
  injection H' as _ <-. unfold state_of in Hr. cbn [procs] in Hr. rewrite lookup_alter_eq, He in Hr. done.
Qed.

Lemma quiet_exit fuel core p code : krel quiet (exit fuel core p code).
Proof.
  apply krel_bind; [apply _|apply quiet_clean_resources; intros c; apply quiet_kill|intros _; auto with krel].
Qed.

(** The process of a core ends: it stays on the core, no longer RUNNING. *)
Lemma inv_ended core p s s1 :
  sched_inv s -> cores s !! core = Some (Inside p) -> quiet s s1 -> state_of s1 p <> Some RUNNING ->
  sched_inv (place (queue s1) (<[core := Leaving p]> (cores s1)) s1).
Proof.
  intros Hi Hc Hq Hst. pose proof (inv_quiet _ _ Hi Hq) as [H1 H2 H3 H4 H5 H6]. rewrite <- (q_cores _ _ Hq) in Hc.
  assert (forall c q, on_core (place (queue s1) (<[core := Leaving p]> (cores s1)) s1) c q <-> on_core s1 c q) as Hsame.
  { intros c q. rewrite on_core_insert. cbn [phase_proc]. split.
    - intros [[-> <-]|[_ Hq']]; [by exists (Inside p)|done].
    - intros Hq'. destruct (decide (c = core)) as [->|]; [|by right]. left. split; [done|].
      destruct Hq' as (ph & Hph & <-). rewrite Hc in Hph. by injection Hph as <-. }
  split.
  - done.
  - intros c c' q. rewrite !Hsame. apply H2.
  - intros c q. rewrite Hsame. apply H3.
  - intros c q Hl. destruct (H4 c q Hl) as [Hn Hu]. split; [done|]. intros c'. rewrite Hsame. apply Hu.
  - intros q Hn. apply H5. destruct Hn as [|(c & Hn)]; [by left|right]. exists c. by rewrite Hsame in Hn.
  - intros q Hr. destruct (H6 q Hr) as [c Hcq]. exists c. cbn [place cores]. rewrite lookup_insert_ne; [done|].
    intros <-. rewrite Hc in Hcq. injection Hcq as ->. done.
Qed.

Lemma inv_leave core ph fuel s s' :
  sched_inv s -> cores s !! core = Some ph -> sched_leave fuel core (phase_proc ph) s = Ret tt s' -> sched_inv s'.
Proof.
  intros Hi Hc (b & s1 & Hrun & (u & s2 & Hset & (t & s3 & Ht & Hpush)%kbind_inv_ret)%kbind_inv_ret)%kbind_inv_ret.
  pose proof (quiet_run_end _ _ _ _ _ _ Hrun) as Hq. pose proof (inv_quiet _ _ Hi Hq) as Hi1.
  rewrite <- (q_cores _ _ Hq) in Hc. injection Hset as _ <-. injection Ht as <- <-.
  destruct (inv_free s1 core ph Hi1 Hc (run_end_not_running _ _ _ _ _ _ Hrun)) as (Hi2 & Hno & Hnq & Hs & Hlc).
  revert Hpush. destruct (b && _) eqn:Hb; intros Hpush; injection Hpush as <-; [|exact Hi2].
  apply andb_true_iff in Hb as [_ Hb]. apply negb_true_iff, bool_decide_eq_false in Hb.
  exact (inv_push _ _ Hi2 Hno Hnq Hs (Hlc Hb)).
Qed.

Lemma inv_new s p e :
  sched_inv s -> procs s !! p = None -> _state e = WAKEN_UP ->
  sched_inv (Sys (<[p := e]> (procs s)) (queue s ++ [p]) (cores s) (last_choice s) (core_stride s) (next_pid s)).
Proof.
  intros Hi Hp He. pose proof Hi as [H1 H2 H3 H4 H5 H6].
  set (s1 := Sys (<[p := e]> (procs s)) (queue s) (cores s) (last_choice s) (core_stride s) (next_pid s)).
  assert (forall q, q ∈ queue s \/ (exists c, on_core s c q \/ last_choice s !! c = Some q) -> q <> p) as Hne.
  { intros q Hq%H5 ->. rewrite Hp in Hq. by destruct Hq. }
  assert (sched_inv s1) as Hi1.
  { split; [done|done|done|done| |].
    - intros q Hq. cbn [s1 procs]. rewrite lookup_insert_ne by (symmetry; by apply Hne). by apply H5.
    - intros q. unfold state_of. cbn [s1 procs]. destruct (decide (q = p)) as [->|].
      + rewrite lookup_insert_eq. cbn. rewrite He. done.
      + rewrite lookup_insert_ne by done. apply H6. }
  apply (inv_push s1 p Hi1).
  - intros c Hc. apply (Hne p); [|done]. right. exists c. by left.
  - intros Hq. apply (Hne p); [by left|done].
  - cbn [s1 procs]. rewrite lookup_insert_eq. by eexists.
  - intros c Hc. apply (Hne p); [|done]. right. exists c. by right.
Qed.

Lemma sstep_inv s s' : sched_inv s -> sstep s s' -> sched_inv s'.
Proof.
  intros Hi Hst. destruct Hst as [core s b s' Hc H|core p s s' Hc H|core p s s' Hc H|core p fuel code s s' e Hc He Hk H
    |core p s s' e Hc He Hk H|core p fuel s s' Hc H|core p s s' H|core fuel p s s' H|p e s s' Hp He H].
  - by eapply inv_choose.
  - by eapply inv_enter.
  - eapply inv_quiet; [exact Hi|]. by eapply quiet_sleep.
  - apply kbind_inv_ret in H as (u & s1 & H1 & H2). injection H2 as <-. pose proof (quiet_exit _ _ _ _ _ _ _ H1) as Hq.
    apply kbind_inv_ret in H1 as (u1 & s2 & _ & H1). apply (inv_ended core p s s1 Hi Hc Hq). by eapply set_exit_not_running.
  - apply kbind_inv_ret in H as (u & s1 & H1 & H2). injection H2 as <-.
    apply (inv_ended core p s s1 Hi Hc); [by eapply quiet_set_exit_code|by eapply set_exit_not_running].
  - destruct Hc as [Hc|Hc]; by eapply (inv_leave core _ fuel s s' Hi Hc).
  - eapply inv_quiet; [exact Hi|]. by eapply quiet_wake_up.
  - eapply inv_quiet; [exact Hi|]. by eapply quiet_kill.
  - injection H as <-. by apply inv_new.
Qed.

(** The cores before they start: no process but the idle processes, one for
    each core. *)
Definition boot (idle : gmap Z Z) (ps : gmap Z process) : sys := Sys ps [] ∅ idle ∅ 5.

(** C18. Along every interleaving of the schedulers of all cores with sleeping,
    waking, ending, killing and new processes: a process is on at most one
    core, it is at most once in the queue and not while it is on a core, and a
    RUNNING process is inside a core. *)
Theorem scheduler_safe idle ps s :
  (forall c c' p, idle !! c = Some p -> idle !! c' = Some p -> c' = c) ->
  (forall c p, idle !! c = Some p -> is_Some (ps !! p)) ->
  (forall p e, ps !! p = Some e -> _state e <> RUNNING) ->
  rtc sstep (boot idle ps) s ->
  (forall c c' p, on_core s c p -> on_core s c' p -> c = c') /\
  NoDup (queue s) /\ (forall c p, on_core s c p -> p ∉ queue s) /\
  (forall p, state_of s p = Some RUNNING -> exists c, cores s !! c = Some (Inside p)).
Proof.
  intros Hinj Hps Hrun Hr. assert (sched_inv s) as [H1 H2 H3 H4 H5 H6]; [|done].
  apply (rtc_ind_r sched_inv) in Hr; [done| |intros s1 s2 _ Hst Hi; by eapply sstep_inv].
  assert (forall c p, ~ on_core (boot idle ps) c p) as Hno by (intros c p (ph & Hph & _); done).
  split.
  - constructor.
  - intros c c' p Hc. by apply Hno in Hc.
  - intros c p Hc. by apply Hno in Hc.
  - intros c p Hc. split; [apply not_elem_of_nil|]. intros c' [Hc'|Hc']; [by apply Hno in Hc'|by eapply Hinj].
  - intros p [Hp|(c & [Hc|Hc])]; [by apply elem_of_nil in Hp|by apply Hno in Hc|by eapply Hps].
  - intros p. unfold state_of. cbn [boot procs]. destruct (ps !! p) as [e|] eqn:He; [|done]. cbn. intros [= Hs]. by apply Hrun in He.
Qed.

(** ** Timed sleepers *)

Definition earlier (x y : sleeper) : Prop := wakeup_time x <= wakeup_time y.

Lemma push_sleeper_perm x l : __push_sleeper x l ≡ₚ x :: l.
Proof. induction l as [|y l IH]; cbn; [done|]. destruct (_ <? _); [done|]. rewrite IH. apply Permutation_swap. Qed.

Lemma push_sleeper_sorted x l : StronglySorted earlier l -> StronglySorted earlier (__push_sleeper x l).
Proof.
  induction 1 as [|y l Hs IH Hy]; cbn [__push_sleeper]; [by repeat constructor|].
  destruct (Z.ltb_spec (wakeup_time x) (wakeup_time y)) as [Hlt|Hge].
  - constructor; [by constructor|]. constructor; [unfold earlier; lia|].
    eapply Forall_impl; [exact Hy|]. unfold earlier. intros z Hz. lia.
  - constructor; [done|]. rewrite push_sleeper_perm. by constructor.
Qed.

Lemma cpu_wake_up_sorted now l :
  StronglySorted earlier l ->
  cpu_wake_up now l = (who <$> filter (fun x => wakeup_time x <= now) l, filter (fun x => now < wakeup_time x) l).
Proof.
  induction 1 as [|y l Hs IH Hy]; cbn [cpu_wake_up]; [done|]. destruct (Z.ltb_spec now (wakeup_time y)) as [Hlt|Hge].
  - rewrite filter_cons_False by lia.
    assert (filter (fun x => wakeup_time x <= now) l = []) as ->.
    { apply elem_of_nil_inv. intros z [Hz Hin]%list_elem_of_filter. rewrite Forall_forall in Hy. specialize (Hy z Hin). unfold earlier in Hy. lia. }
    rewrite filter_all; [done|]. intros z [->|Hz]%elem_of_cons; [done|].
    rewrite Forall_forall in Hy. specialize (Hy z Hz). unfold earlier in Hy. lia.
  - rewrite IH, filter_cons_True, (filter_cons_False (fun x => now < wakeup_time x)) by lia. done.
Qed.

(** Whatever the order in which sleepers are added, [cpu::wake_up] wakes exactly
    those whose time has come and keeps exactly the others. *)
Theorem timed_sleepers xs now :
  let l := foldl (fun l x => __push_sleeper x l) [] xs in
  fst (cpu_wake_up now l) ≡ₚ who <$> filter (fun x => wakeup_time x <= now) xs /\
  snd (cpu_wake_up now l) ≡ₚ filter (fun x => now < wakeup_time x) xs.
Proof.
  intros l. assert (forall ys zs, StronglySorted earlier zs ->
    StronglySorted earlier (foldl (fun l x => __push_sleeper x l) zs ys) /\ foldl (fun l x => __push_sleeper x l) zs ys ≡ₚ zs ++ ys) as Hfold.
  { induction ys as [|y ys IH]; intros zs Hz; cbn [foldl]; [by rewrite app_nil_r|].
    destruct (IH (__push_sleeper y zs)) as [Hs Hp]; [by apply push_sleeper_sorted|]. split; [done|].
    rewrite Hp, push_sleeper_perm. cbn [app]. by rewrite <- Permutation_middle. }
  destruct (Hfold xs []) as [Hs Hp]; [constructor|]. fold l in Hs, Hp. rewrite cpu_wake_up_sorted by done. cbn [fst snd].
  split; [apply fmap_Permutation|]; by rewrite Hp.
Qed.

(** ** Runs that go wrong *)

(** The idle process is created WAKEN_UP and only [pop], which never sees it,
    makes processes RUNNABLE: the first time a core finds nothing to run it
    panics. *)
Theorem idle_never_runs core p e s :
  queue s = [] -> last_choice s !! core = Some p -> procs s !! p = Some e ->
  kind e = KernelProcess -> _state e = WAKEN_UP ->
  (sched_choose core ;;; sched_enter core p) s = Panic.
Proof.
  intros Hq Hl Hp Hk Hs. destruct s as [ps qu cs lc st np]. cbn in Hq, Hl, Hp. subst qu.
  unfold sched_choose, pop, kbind, kget. cbn [queue pop_loop kret last_choice]. rewrite Hl. unfold the_proc. cbn [procs]. rewrite Hp.
  unfold upd_proc, kmodify. cbn [procs]. rewrite lookup_alter_eq, Hp. cbn [fmap option_fmap option_map].
  unfold set_core_stride, set_core, sched_enter, run_begin, kernel_run_begin, kmodify, kret, kbind, the_proc. cbn [procs queue cores last_choice].
  rewrite lookup_alter_eq, Hp. cbn [fmap option_fmap option_map set_stride kind _state]. rewrite Hk, Hs. done.
Qed.

Lemma idle_never_runs_witness :
  (sched_choose 0 ;;; sched_enter 0 1) (boot {[0 := 1]} {[1 := new_kernel_process]}) = Panic.
Proof.
  apply (idle_never_runs 0 1 new_kernel_process); reflexivity.
Defined.

(** The state after a run, for concrete traces. *)
Definition state_after {A : Type} (o : outcome sys A) (s : sys) : sys :=
  match o with Ret _ s' => s' | _ => s end.

Definition kill_1 : sys := state_after (push 7 (Sys {[7 := new_process UserProcess WAKEN_UP]} [] ∅ ∅ ∅ 5)) (boot ∅ ∅).
Definition kill_2 : sys := state_after (sched_choose 0 kill_1) kill_1.
Definition kill_3 : sys := state_after (sched_enter 0 7 kill_2) kill_2.
Definition kill_4 : sys := state_after (sleep 7 kill_3) kill_3.
Definition kill_5 : sys := state_after (kill 1 1 7 kill_4) kill_4.

(** A user process that has just gone to sleep is still inside its core; when
    another core kills it at that moment, its memory is freed under it: [__kill]
    takes every state but RUNNING for "not running". *)
Theorem kill_frees_running :
  rtc sstep (boot ∅ ∅) kill_5 /\ cores kill_5 !! 0 = Some (Inside 7) /\ (resources <$> procs kill_5 !! 7) = Some false.
Proof.
  split; [|split; vm_compute; reflexivity].
  eapply rtc_l; [apply (st_new 7 (new_process UserProcess WAKEN_UP) _ kill_1); vm_compute; reflexivity|].
  eapply rtc_l; [apply (st_choose 0 kill_1 true kill_2); vm_compute; reflexivity|].
  eapply rtc_l; [apply (st_enter 0 7 kill_2 kill_3); vm_compute; reflexivity|].
  eapply rtc_l; [apply (st_sleep 0 7 kill_3 kill_4); vm_compute; reflexivity|].
  apply rtc_once. apply (st_kill 1 1 7 kill_4 kill_5). vm_compute. reflexivity.
Qed.

(** [pop] does not take the lock of the process: between its test for WAKEN_UP
    and [set_runnable] the process can be killed, and is run afterwards without
    its memory. *)
Lemma pop_kill_race :
  let s := kill_1 in
  (waken_up <$> procs s !! 7) = Some true /\
  ret_val ((kill 1 1 7 ;;; set_runnable 7 ;;; entered <- run_begin 7 ;; e <- the_proc 7 ;; kret (entered, resources e)) s)
    = Some (true, false).
Proof. split; vm_compute; reflexivity. Qed.

(** A kernel process that is killed while it runs makes [run] panic when it
    switches back. *)
Lemma killed_kernel_process_panics fuel core p e s :
  procs s !! p = Some e -> kind e = KernelProcess -> _state e = KILLED -> run_end fuel core p s = Panic.
Proof. intros Hp Hk Hs. unfold run_end, kernel_run_end, kbind, the_proc. by rewrite Hp, Hk, Hs. Qed.

Lemma scheduler_safe_witness :
  rtc sstep (boot {[0 := 1]} {[1 := new_kernel_process]}) (state_after (sched_choose 0 (boot {[0 := 1]} {[1 := new_kernel_process]})) kill_1) /\
  NoDup (queue (state_after (sched_choose 0 (boot {[0 := 1]} {[1 := new_kernel_process]})) kill_1)).
Proof.
  set (s := boot {[0 := 1]} {[1 := new_kernel_process]}).
  assert (rtc sstep s (state_after (sched_choose 0 s) kill_1)) as Hr.
  { apply rtc_once. apply (st_choose 0 s true); vm_compute; reflexivity. }
  split; [exact Hr|]. apply (scheduler_safe {[0 := 1]} {[1 := new_kernel_process]} _).
  - intros c c' p [<- <-]%lookup_singleton_Some [<- _]%lookup_singleton_Some. reflexivity.
  - intros c p [<- <-]%lookup_singleton_Some. by eexists.
  - intros p e [<- <-]%lookup_singleton_Some. discriminate.
  - exact Hr.
Defined.
