(* ===== verification/ProcessTree.v ===== *)
(** * Killing a tree of processes (src/os/proc/process.cc)

    [__kill] of a process that is not running frees its resources after it has
    killed its children, which may be processes with children themselves.  On
    a hierarchy of user processes without cycles this ends, and it reaches every
    descendant that is not below a running process: those that run are marked
    KILLED, the others have ended. *)
From S2P Require Import Prelude Process.

(** A user process whose children, parent and waiters exist, and whose
    children are further from the root. *)
Definition member (rank : Z -> nat) (s : sys) (p : Z) (e : process) : Prop :=
  kind e = UserProcess /\
  (forall c, c ∈ children e -> is_Some (procs s !! c) /\ (rank c < rank p)%nat) /\
  (forall q, p_parent e = Some q -> is_Some (procs s !! q)) /\
  (forall w, w ∈ wait_children_queue e -> is_Some (procs s !! w)).

(** The children relation has no cycle. *)
Definition user_hierarchy (rank : Z -> nat) (s : sys) : Prop := forall p e, procs s !! p = Some e -> member rank s p e.

(** A process that was killed while it did not run, and one that was killed. *)
Definition ended (e : process) : Prop :=
  resources e = false /\ children e = [] /\ exit_code e = -1 /\ (_state e = EXITED \/ _state e = ZOMBIE).
Definition struck (e : process) : Prop := ended e \/ _state e = KILLED.

(** The descendants [kill] reaches: it does not look below a running process. *)
Inductive below (s : sys) : Z -> Z -> Prop :=
| below_refl p : below s p p
| below_child p e c q :
    procs s !! p = Some e -> _state e <> RUNNING -> c ∈ children e -> below s c q -> below s p q.

Section hierarchy.
Context (rank : Z -> nat) (s0 : sys).

(** In [s] the descendants that [p] had in [s0] have been killed. *)
Definition downed (s : sys) (p : Z) : Prop :=
  forall q e0, below s0 p q -> procs s0 !! q = Some e0 ->
    exists e, procs s !! q = Some e /\ if decide (_state e0 = RUNNING) then struck e else ended e.

(** Nobody appears, disappears, comes back or starts to run; a child that is
    gone from a list has been killed with its descendants. *)
Record shrinks (s s' : sys) : Prop := {
  sh_known : forall p, is_Some (procs s' !! p) <-> is_Some (procs s !! p);
  sh_ended : forall p e e', procs s !! p = Some e -> procs s' !! p = Some e' -> ended e -> ended e';
  sh_struck : forall p e e', procs s !! p = Some e -> procs s' !! p = Some e' -> struck e -> struck e';
  sh_running : forall p e e', procs s !! p = Some e -> procs s' !! p = Some e' -> _state e' = RUNNING -> _state e = RUNNING;
  sh_children : forall p e e' c, procs s !! p = Some e -> procs s' !! p = Some e' -> c ∈ children e -> c ∈ children e' \/ downed s' c
}.

(** Only processes below the rank [n] lose children. *)
Definition kept_above (n : nat) (s s' : sys) : Prop :=
  forall q, (n <= rank q)%nat -> (children <$> procs s' !! q) = (children <$> procs s !! q).

Definition good (n : nat) (s s' : sys) : Prop := user_hierarchy rank s' /\ shrinks s s' /\ kept_above n s s'.

Lemma known_next s s' p e : shrinks s s' -> procs s !! p = Some e -> exists e', procs s' !! p = Some e'.
Proof. intros Hs Hp. apply (sh_known _ _ Hs). by eexists. Qed.

Lemma downed_later s s' p : shrinks s s' -> downed s p -> downed s' p.
Proof.
  intros Hs Hd q e0 Hq He0. destruct (Hd q e0 Hq He0) as (e & He & Hx). destruct (known_next _ _ _ _ Hs He) as [e' He'].
  exists e'. split; [done|]. case_decide; [by apply (sh_struck _ _ Hs q e e')|by apply (sh_ended _ _ Hs q e e')].
Qed.

Lemma shrinks_refl s : shrinks s s.
Proof. split; intros; simplify_eq; eauto. Qed.

Lemma shrinks_trans s1 s2 s3 : shrinks s1 s2 -> shrinks s2 s3 -> shrinks s1 s3.
Proof.
  intros H12 H23. split; [intros p; by rewrite (sh_known _ _ H23), (sh_known _ _ H12)|..]; intros p e e3.
  1-3: intros He He3 Hx; destruct (known_next _ _ _ _ H12 He) as [e2 He2].
  - apply (sh_ended _ _ H23 p e2 e3 He2 He3). by apply (sh_ended _ _ H12 p e e2).
  - apply (sh_struck _ _ H23 p e2 e3 He2 He3). by apply (sh_struck _ _ H12 p e e2).
  - apply (sh_running _ _ H12 p e e2 He He2). by apply (sh_running _ _ H23 p e2 e3).
  - intros c He He3 Hc. destruct (known_next _ _ _ _ H12 He) as [e2 He2].
    destruct (sh_children _ _ H12 p e e2 c He He2 Hc) as [Hc2|Hd]; [by apply (sh_children _ _ H23 p e2 e3 c)|].
    right. by apply (downed_later s2 s3).
Qed.

Lemma good_trans n s1 s2 s3 : good n s1 s2 -> good n s2 s3 -> good n s1 s3.
Proof.
  intros (_ & H1 & A1) (Hh & H2 & A2). split_and!; [done|by eapply shrinks_trans|].
  intros q Hq. rewrite A2 by done. by apply A1.
Qed.

Lemma good_weaken n n' s s' : (n <= n')%nat -> good n s s' -> good n' s s'.
Proof. intros Hn (H1 & H2 & A). split_and!; [done|done|]. intros q Hq. apply A. lia. Qed.

Lemma member_known s s' p e : (forall q, is_Some (procs s' !! q) <-> is_Some (procs s !! q)) -> member rank s p e -> member rank s' p e.
Proof.
  intros Hk (H1 & H2 & H3 & H4). split_and!; [done|intros c Hc; by rewrite Hk; apply H2|intros q Hq; rewrite Hk; by apply H3|].
  intros w Hw. rewrite Hk. by apply H4.
Qed.

(** A change of a process that fits the above. *)
Definition fits (n : nat) (s : sys) (p : Z) (g : process -> process) : Prop := forall e,
  procs s !! p = Some e -> member rank s p e ->
  member rank s p (g e) /\ (ended e -> ended (g e)) /\ (struck e -> struck (g e)) /\
  (_state (g e) = RUNNING -> _state e = RUNNING) /\
  (forall c, c ∈ children e -> c ∈ children (g e) \/ downed s c) /\
  ((n <= rank p)%nat -> children (g e) = children e).

Lemma good_upd n s p g :
  user_hierarchy rank s -> fits n s p g ->
  good n s (Sys (alter g p (procs s)) (queue s) (cores s) (last_choice s) (core_stride s) (next_pid s)).
Proof.
  intros Hf Hg. set (s' := Sys _ _ _ _ _ _).
  assert (forall q e e', procs s !! q = Some e -> procs s' !! q = Some e' -> (q = p /\ e' = g e) \/ (q <> p /\ e' = e)) as Hcase.
  { intros q e e' Hq. cbn [s' procs]. destruct (decide (q = p)) as [->|]; [rewrite lookup_alter_eq, Hq|rewrite lookup_alter_ne, Hq by done];
      intros [= <-]; auto. }
  assert (forall q, is_Some (procs s' !! q) <-> is_Some (procs s !! q)) as Hk.
  { intros q. cbn [s' procs]. destruct (decide (q = p)) as [->|]; [by rewrite lookup_alter_eq, fmap_is_Some|by rewrite lookup_alter_ne]. }
  assert (forall q e e', procs s !! q = Some e -> procs s' !! q = Some e' -> ended e -> ended e') as Hen.
  { intros q e e' Hq Hq' Hx. destruct (Hcase q e e' Hq Hq') as [[-> ->]|[_ ->]]; [|done]. apply (Hg e Hq); [by apply Hf|done]. }
  assert (forall q e e', procs s !! q = Some e -> procs s' !! q = Some e' -> struck e -> struck e') as Hst.
  { intros q e e' Hq Hq' Hx. destruct (Hcase q e e' Hq Hq') as [[-> ->]|[_ ->]]; [|done]. apply (Hg e Hq); [by apply Hf|done]. }
  split_and!; [|split; [done|done|done|..]|].
  - intros q e' Hq'. destruct (proj1 (Hk q)) as [e Hq]; [by eexists|]. apply (member_known s s'); [done|].
    destruct (Hcase q e e' Hq Hq') as [[-> ->]|[_ ->]]; [apply Hg; [done|]|]; by apply Hf.
  - intros q e e' Hq Hq'. destruct (Hcase q e e' Hq Hq') as [[-> ->]|[_ ->]]; [|done]. apply (Hg e Hq). by apply Hf.
  - intros q e e' c Hq Hq' Hc. destruct (Hcase q e e' Hq Hq') as [[-> ->]|[_ ->]]; [|by left].
    destruct (Hg e Hq) as (_ & _ & _ & _ & Hch & _); [by apply Hf|]. destruct (Hch c Hc) as [|Hd]; [by left|right].
    intros x e0 Hx He0. destruct (Hd x e0 Hx He0) as (e1 & He1 & Hy). destruct (proj2 (Hk x)) as [e2 He2]; [by eexists|].
    exists e2. split; [done|]. case_decide; [by apply (Hst x e1)|by apply (Hen x e1)].
  - intros q Hq. cbn [s' procs]. destruct (decide (q = p)) as [->|]; [|by rewrite lookup_alter_ne].
    rewrite lookup_alter_eq. destruct (procs s !! p) as [e|] eqn:He; [|done]. cbn. f_equal. apply (Hg e He); [by apply Hf|done].
Qed.

(** Specifications of this shape, in sequence. *)
Definition returns {A : Type} (n : nat) (s : sys) (o : outcome sys A) : Prop := kspec o (fun _ s' => good n s s') (fun _ => False).

Lemma returns_upd n s p g : user_hierarchy rank s -> fits n s p g -> returns n s (upd_proc p g s).
Proof. intros Hf Hg. exact (good_upd n s p g Hf Hg). Qed.

Lemma returns_ret {A : Type} n s (a : A) : user_hierarchy rank s -> returns n s (kret a s).
Proof. intros Hf. cbn. split_and!; [done|apply shrinks_refl|done]. Qed.

Lemma returns_bind {A B : Type} n (m : K sys A) (f : A -> K sys B) s :
  returns n s (m s) -> (forall a s', good n s s' -> returns n s' (f a s')) -> returns n s (kbind m f s).
Proof.
  intros Hm Hf. eapply kspec_bind; [exact Hm|]. intros a s' Hg. eapply kspec_mono; [by apply Hf| |done].
  intros b s2. by apply good_trans.
Qed.

Lemma returns_the_proc {B : Type} n (f : process -> K sys B) s p :
  is_Some (procs s !! p) -> (forall e, procs s !! p = Some e -> returns n s (f e s)) -> returns n s (kbind (the_proc p) f s).
Proof. intros [e He] Hf. unfold kbind, the_proc. rewrite He. by apply Hf. Qed.

(** A change of members that do not matter here. *)
Ltac fits := intros [] ? (?M1 & ?M2 & ?M3 & ?M4);
  split_and!; [split_and!; done|by intros (? & ? & ? & ?)|intros [(? & ? & ? & ?)|?]; [by left|by right]|done|by left|done].

Lemma returns_wake_up n core p s : user_hierarchy rank s -> is_Some (procs s !! p) -> returns n s (wake_up core p s).
Proof.
  intros Hf Hp. apply returns_the_proc; [done|]. intros e He. case_decide as Hsl; [|by apply returns_ret].
  unfold kbind, kget. apply returns_upd; [done|]. intros e' He' HM. assert (e' = e) as -> by congruence.
  split_and!; [done|intros (_ & _ & _ & [|]); congruence| |done|by left|done].
  intros [(_ & _ & _ & [|])|]; congruence.
Qed.

(** The end of [__do_kill]. *)
Lemma set_exit_code_ends n core p s e :
  user_hierarchy rank s -> procs s !! p = Some e -> resources e = false -> children e = [] ->
  kspec (__set_exit_code core p (-1) s)
    (fun _ s' => good n s s' /\ exists e', procs s' !! p = Some e' /\ ended e') (fun _ => False).
Proof.
  intros Hf He Hr Hc. unfold __set_exit_code.
  assert (fits n s p (set_exit (-1))) as Hfit by fits.
  pose proof (good_upd n s p (set_exit (-1)) Hf Hfit) as Hg1. unfold kbind at 1, upd_proc at 1, kmodify.
  set (s1 := Sys _ _ _ _ _ _) in *. set (e1 := set_exit (-1) e).
  assert (procs s1 !! p = Some e1) as He1 by (cbn [s1 procs]; by rewrite lookup_alter_eq, He).
  unfold kbind at 1, the_proc. rewrite He1. destruct Hg1 as (Hf1 & Hs1 & Ha1).
  assert (forall st, st = EXITED \/ st = ZOMBIE -> ended (set_state st e1)) as Hend by (intros st Hst; by split_and!).
  assert (forall st, st = EXITED \/ st = ZOMBIE -> fits n s1 p (set_state st)) as Hfit1.
  { intros st Hst e' He' HM. assert (e' = e1) as -> by congruence.
    split_and!; [done|intros _; by apply Hend|intros _; left; by apply Hend|cbn; intros ->; by destruct Hst|by left|done]. }
  assert (forall st, st = EXITED \/ st = ZOMBIE -> exists e2, alter (set_state st) p (procs s1) !! p = Some e2 /\ ended e2) as Hp2.
  { intros st Hst. rewrite lookup_alter_eq, He1. eexists. split; [reflexivity|by apply Hend]. }
  destruct (p_parent e1) as [q|] eqn:Hq.
  - pose proof (good_upd n s1 p (set_state ZOMBIE) Hf1 (Hfit1 _ (or_intror eq_refl))) as Hg2.
    unfold kbind at 1, upd_proc at 1, kmodify. match type of Hg2 with good _ _ ?x => set (s2 := x) in * end.
    destruct (Hp2 ZOMBIE (or_intror eq_refl)) as (e2 & He2 & Hen2). change (procs s2 !! p = Some e2) in He2.
    assert (returns n s2 (wake_parent core q s2)) as Hw.
    { destruct Hg2 as (Hf2 & Hs2 & _). apply returns_the_proc.
      - destruct (Hf1 p e1 He1) as (_ & _ & HP & _). apply (sh_known _ _ Hs2), HP, Hq.
      - intros eq Heq. destruct (Hf2 q eq Heq) as (_ & _ & _ & HW). destruct (wait_children_queue eq) as [|w ws] eqn:Hws; [by apply returns_ret|].
        apply returns_bind.
        + apply returns_upd; [done|]. intros e3 He3 (M1 & M2 & M3 & M4).
          split_and!; [split_and!; [done|done|done|intros x Hx; apply HW; by right]|by intros (? & ? & ? & ?)| |done|by left|done].
          intros [(? & ? & ? & ?)|]; [by left|by right].
        + intros ? s3 (Hf3 & Hs3 & _). apply returns_wake_up; [done|]. apply (sh_known _ _ Hs3), HW. by left. }
    eapply kspec_mono; [exact Hw| |done]. intros ? s3 Hg3. split.
    + apply (good_trans n s s1); [by split_and!|]. by apply (good_trans n s1 s2).
    + destruct Hg3 as (_ & Hs3 & _). destruct (known_next _ _ _ _ Hs3 He2) as [e3 He3]. exists e3. split; [done|].
      by apply (sh_ended _ _ Hs3 p e2 e3).
  - pose proof (good_upd n s1 p (set_state EXITED) Hf1 (Hfit1 _ (or_introl eq_refl))) as Hg2.
    cbn [upd_proc kmodify kspec]. split; [|exact (Hp2 EXITED (or_introl eq_refl))]. apply (good_trans n s s1); [by split_and!|exact Hg2].
Qed.

(** The loop over the children, given what [child->__kill()] does. *)
Lemma clean_children_spec f p l s e :
  (forall c s, user_hierarchy rank s -> shrinks s0 s -> is_Some (procs s !! c) -> (rank c < rank p)%nat ->
     kspec (f c s) (fun _ s' => good (S (rank c)) s s' /\ downed s' c) (fun _ => False)) ->
  user_hierarchy rank s -> shrinks s0 s -> procs s !! p = Some e -> children e = l ->
  kspec (__clean_children f p l s)
    (fun _ s' => good (S (rank p)) s s' /\ (children <$> procs s' !! p) = Some [] /\ forall c, c ∈ l -> downed s' c) (fun _ => False).
Proof.
  intros Hkill. revert s e. induction l as [|c l IH]; intros s e Hf H0 He Hl; cbn [__clean_children].
  { cbn [kret kspec]. rewrite He. cbn. rewrite Hl. split_and!; [|done|by intros c ?%elem_of_nil].
    split_and!; [done|apply shrinks_refl|done]. }
  destruct (Hf p e He) as (_ & Hch & _). rewrite Hl in Hch. destruct (Hch c) as [Hc Hrank]; [by left|].
  eapply kspec_bind; [apply (returns_upd (S (rank c)) s c (set_parent None) Hf); fits|]. intros ? s1 Hg1.
  pose proof Hg1 as (Hf1 & Hs1 & Ha1).
  eapply kspec_bind; [apply (Hkill c s1 Hf1); [by eapply shrinks_trans|by apply (sh_known _ _ Hs1)|done]|].
  intros ? s2 [Hg2 Hd2]. pose proof Hg2 as (Hf2 & Hs2 & Ha2).
  pose proof (good_trans _ _ _ _ Hg1 Hg2) as (_ & Hs12 & Ha12).
  destruct (known_next _ _ _ _ Hs12 He) as [e2 He2].
  assert (children e2 = c :: l) as Hl2.
  { specialize (Ha12 p ltac:(lia)). rewrite He, He2 in Ha12. cbn in Ha12. congruence. }
  assert (fits (S (rank p)) s2 p (set_children l)) as Hfit.
  { intros e' He' (M1 & M2 & M3 & M4). assert (e' = e2) as -> by congruence.
    split_and!; [split_and!; [done| |done|done]|intros (_ & Hn & _); congruence| |done| |lia].
    - intros x Hx. apply M2. rewrite Hl2. by right.
    - intros [(_ & Hn & _)|]; [congruence|by right].
    - intros x. rewrite Hl2. intros [->|Hx]%elem_of_cons; [by right|by left]. }
  pose proof (good_upd _ s2 p (set_children l) Hf2 Hfit) as Hg3.
  unfold kbind at 1, upd_proc at 1, kmodify. set (s3 := Sys _ _ _ _ _ _) in *. pose proof Hg3 as (Hf3 & Hs3 & _).
  assert (procs s3 !! p = Some (set_children l e2)) as He3 by (cbn [s3 procs]; by rewrite lookup_alter_eq, He2).
  eapply kspec_mono; [apply (IH s3 (set_children l e2) Hf3); [|done|done]| |done].
  { eapply shrinks_trans; [exact H0|]. eapply shrinks_trans; [exact Hs12|done]. }
  intros ? s4 (Hg4 & He4 & Hd4). split_and!; [|done|].
  - eapply good_trans; [|exact Hg4]. eapply good_trans; [|exact Hg3].
    eapply good_weaken; [|eapply good_trans; [exact Hg1|exact Hg2]]. lia.
  - intros x [->|Hx]%elem_of_cons; [|by apply Hd4]. apply (downed_later s3); [apply Hg4|]. by apply (downed_later s2).
Qed.

Lemma clean_resources_spec f p s e :
  (forall c s, user_hierarchy rank s -> shrinks s0 s -> is_Some (procs s !! c) -> (rank c < rank p)%nat ->
     kspec (f c s) (fun _ s' => good (S (rank c)) s s' /\ downed s' c) (fun _ => False)) ->
  user_hierarchy rank s -> shrinks s0 s -> procs s !! p = Some e ->
  kspec (__clean_resources f p s)
    (fun _ s1 => good (S (rank p)) s s1 /\ (forall c, c ∈ children e -> downed s1 c) /\
      exists e1, procs s1 !! p = Some e1 /\ resources e1 = false /\ children e1 = []) (fun _ => False).
Proof.
  intros Hkill Hf H0 He. destruct (Hf p e He) as (Hkind & _).
  unfold __clean_resources, kbind at 1, the_proc. rewrite He, Hkind. unfold user_clean_resources.
  set (nofiles := replicate (Z.to_nat FD_MAX) (@None Z)).
  assert (fits (S (rank p)) s p (set_files nofiles)) as Hfit by fits.
  pose proof (good_upd _ s p (set_files nofiles) Hf Hfit) as Hg1. unfold __close_files, kbind at 1, upd_proc at 1, kmodify.
  fold nofiles. set (s1 := Sys _ _ _ _ _ _) in *. pose proof Hg1 as (Hf1 & Hs1 & _).
  assert (procs s1 !! p = Some (set_files nofiles e)) as He1 by (cbn [s1 procs]; by rewrite lookup_alter_eq, He).
  eapply kspec_bind; [eapply (clean_children_spec f p (children e) s1 _ Hkill Hf1); [by eapply shrinks_trans|exact He1|done]|].
  intros ? s2 (Hg2 & Hc2 & Hd2). pose proof Hg2 as (Hf2 & Hs2 & _). destruct (known_next _ _ _ _ Hs2 He1) as [e2 He2].
  rewrite He2 in Hc2. cbn in Hc2. injection Hc2 as Hc2.
  assert (fits (S (rank p)) s2 p (set_resources false)) as Hfit2.
  { intros e' He' HM. split_and!; [done|by intros (? & ? & ? & ?)| |done|by left|done].
    intros [(? & ? & ? & ?)|]; [by left|by right]. }
  pose proof (good_upd _ s2 p (set_resources false) Hf2 Hfit2) as Hg3. cbn [upd_proc kmodify kspec]. split_and!.
  - eapply good_trans; [|exact Hg3]. by eapply good_trans.
  - intros c Hc. eapply downed_later; [apply Hg3|by apply Hd2].
  - exists (set_resources false e2). cbn [procs]. by rewrite lookup_alter_eq, He2.
Qed.

(** [__kill] returns, and the process and its descendants have been killed. *)
Lemma kill_spec fuel core p s :
  user_hierarchy rank s -> shrinks s0 s -> is_Some (procs s !! p) -> (rank p < fuel)%nat ->
  kspec (__kill fuel core p s) (fun _ s' => good (S (rank p)) s s' /\ downed s' p) (fun _ => False).
Proof.
  revert p s. induction fuel as [|fuel IH]; intros p s Hf H0 Hp Hrank; [lia|]. cbn [__kill].
  pose proof Hp as [e He]. destruct (proj1 (sh_known _ _ H0 p)) as [e0 He0]; [done|].
  unfold kbind at 1, the_proc. rewrite He. case_decide as Hr.
  - assert (fits (S (rank p)) s p (set_state KILLED)) as Hfit.
    { intros e' He' HM. assert (e' = e) as -> by congruence.
      split_and!; [done|intros (_ & _ & _ & [|]); congruence|by right|done|by left|done]. }
    pose proof (good_upd _ s p (set_state KILLED) Hf Hfit) as Hg. cbn [upd_proc kmodify kspec]. split; [exact Hg|].
    intros q eq Hq Heq. inversion Hq as [|? e1 c ? He1 Hn]; subst.
    + eexists. cbn [procs]. rewrite lookup_alter_eq, He. split; [reflexivity|]. simplify_eq.
      rewrite decide_True; [by right|]. by eapply (sh_running _ _ H0 q).
    + simplify_eq. exfalso. by eapply Hn, (sh_running _ _ H0 p).
  - eapply kspec_bind; [apply (clean_resources_spec (__kill fuel core) p s e); [|done|done|done]|].
    { intros c sc Hfc Hsc Hc Hcp. apply IH; [done|done|done|lia]. }
    intros ? s1 (Hg1 & Hd1 & e1 & He1 & Hr1 & Hc1). pose proof Hg1 as (Hf1 & Hs1 & _).
    eapply kspec_mono; [by apply (set_exit_code_ends (S (rank p)) core p s1 e1)| |done].
    intros ? s2 (Hg2 & e2 & He2 & Hen). split; [by eapply good_trans|]. pose proof Hg2 as (_ & Hs2 & _).
    intros q eq Hq Heq. inversion Hq as [|? e1' c ? He1' Hn Hc Hcq]; subst.
    + exists e2. split; [done|]. case_decide; [by left|done].
    + assert (e1' = e0) as -> by congruence.
      assert (downed s2 c) as Hdc; [|by apply Hdc]. apply (downed_later s1 s2 c Hs2).
      destruct (sh_children _ _ H0 p e0 e c He0 He Hc) as [Hc'|Hd]; [by apply Hd1|by apply (downed_later s s1)].
Qed.

End hierarchy.

(** C35. [kill] ends on every hierarchy of user processes without cycles, however deep:
    the depth of the process below it is fuel enough.  It returns in such a
    hierarchy, no process appears or disappears, and every descendant that is not
    below a running process has been killed with it: one that was not running has
    ended with the code -1, has no children left and its memory is freed; one
    that was running is marked KILLED for the core it runs on, or has ended. *)
Theorem kill_terminates rank fuel core p s :
  user_hierarchy rank s -> is_Some (procs s !! p) -> (rank p < fuel)%nat ->
  exists s', kill fuel core p s = Ret tt s' /\ user_hierarchy rank s' /\
    (forall q, is_Some (procs s' !! q) <-> is_Some (procs s !! q)) /\
    (forall q e, below s p q -> procs s !! q = Some e ->
       exists e', procs s' !! q = Some e' /\ if decide (_state e = RUNNING) then struck e' else ended e').
Proof.
  intros Hf Hp Hr. pose proof (kill_spec rank s fuel core p s Hf (shrinks_refl s s) Hp Hr) as Hk. unfold kill.
  destruct (__kill fuel core p s) as [[] s'| | |]; [|done..]. destruct Hk as [(Hf' & Hs' & _) Hd].
  exists s'. split_and!; [done|done|apply Hs'|exact Hd].
Qed.

(** Process 1 is the parent of 2, which is the parent of 3, which runs. *)
Definition family : sys :=
  let child (st : pstate) (q : option Z) (cs : list Z) := set_parent q (set_children cs (new_process UserProcess st)) in
  Sys (<[1 := child SLEEPING None [2]]> (<[2 := child RUNNABLE (Some 1) [3]]> {[3 := child RUNNING (Some 2) []]})) [2; 3] ∅ ∅ ∅ 5.

Lemma family_hierarchy : user_hierarchy (fun p => Z.to_nat (3 - p)) family.
Proof.
  intros p e Hp. unfold family in Hp. cbn [procs] in Hp.
  apply lookup_insert_Some in Hp as [[<- <-]|[_ [[<- <-]|[_ [<- <-]%lookup_singleton_Some]]%lookup_insert_Some]].
  all: split_and!; [reflexivity| | |by intros w ?%elem_of_nil].
  all: try (intros c ->%list_elem_of_singleton; split; [by eexists|cbn; lia]).
  all: try (intros q [= <-]; by eexists).
  all: try (by intros q [=]).
  by intros c ?%elem_of_nil.
Qed.

Lemma kill_terminates_witness :
  exists s', kill 3 0 1 family = Ret tt s' /\
    (exists e, procs s' !! 2 = Some e /\ ended e) /\ exists e, procs s' !! 3 = Some e /\ struck e.
Proof.
  assert (below family 1 2) as H12 by (eapply below_child; [reflexivity|done|by left|apply below_refl]).
  assert (below family 1 3) as H13.
  { eapply below_child; [reflexivity|done|by left|]. eapply below_child; [reflexivity|done|by left|apply below_refl]. }
  destruct (kill_terminates (fun p => Z.to_nat (3 - p)) 3 0 1 family) as (s' & Hrun & _ & _ & Hdown).
  - exact family_hierarchy.
  - by eexists.
  - cbn. lia.
  - exists s'. split; [exact Hrun|]. split; [exact (Hdown 2 _ H12 eq_refl)|exact (Hdown 3 _ H13 eq_refl)].
Defined.
