(* ===== verification/SharedPtr.v ===== *)
(** * Shared and weak pointers (src/os/utils/shared_ptr.h)

    The counters of [ref_count_t], the operations of [shared_ptr] and [weak_ptr],
    and the invariant that the counters keep.

    A pointer variable holds an object and a counter block, both null or both
    not; the maps [svars] and [wvars] have the variables that are not null.  Every
    method of [ref_count_t] runs under the lock of the block, so it is atomic.
    Objects and blocks that nobody refers to and that are not deleted yet are
    [del_objs] and [del_rcs].  Using or deleting freed memory is [Panic].

    [run_op] has the effects on counters and variables as single changes, which
    the operations, run by one core, are sequences of.  How operations interleave
    on several cores, in the steps of the code, is the subject of the file
    SharedSteps, which uses the invariant of this one. *)
From S2P Require Import Prelude.

(** ** Counters *)

Record refc := Refc { ref_count : Z; weak_count : Z }.

Record heap := Heap {
  rcs : gmap Z refc;
  objs : gset Z;
  svars : gmap Z (Z * Z);
  wvars : gmap Z (Z * Z);
  del_objs : gset Z;
  del_rcs : gset Z;
  next : Z
}.

Definition set_rcs (f : gmap Z refc -> gmap Z refc) (s : heap) : heap :=
  Heap (f (rcs s)) (objs s) (svars s) (wvars s) (del_objs s) (del_rcs s) (next s).
Definition set_svars (f : gmap Z (Z * Z) -> gmap Z (Z * Z)) (s : heap) : heap :=
  Heap (rcs s) (objs s) (f (svars s)) (wvars s) (del_objs s) (del_rcs s) (next s).
Definition set_wvars (f : gmap Z (Z * Z) -> gmap Z (Z * Z)) (s : heap) : heap :=
  Heap (rcs s) (objs s) (svars s) (f (wvars s)) (del_objs s) (del_rcs s) (next s).

(** The block at [r], which must not be freed. *)
Definition the_rc (r : Z) : K heap refc := fun s =>
  match rcs s !! r with
  | Some c => Ret c s
  | None => Panic
  end.

Definition set_rc (r : Z) (c : refc) : K heap unit := kmodify (set_rcs (<[r := c]>)).

Definition inc_ref (r : Z) : K heap unit :=
  c <- the_rc r ;;
  set_rc r (Refc (u32 (ref_count c + 1)) (u32 (weak_count c + 1))).

(** The two counts, of which the code keeps whether they are zero. *)
Definition dec_ref (r : Z) : K heap (bool * bool) :=
  c <- the_rc r ;;
  let c' := Refc (u32 (ref_count c - 1)) (u32 (weak_count c - 1)) in
  set_rc r c' ;;;
  kret (negb (ref_count c' =? 0), negb (weak_count c' =? 0)).

Definition get_ref (r : Z) : K heap Z :=
  c <- the_rc r ;;
  kret (ref_count c).

Definition inc_weak (r : Z) : K heap unit :=
  c <- the_rc r ;;
  set_rc r (Refc (ref_count c) (u32 (weak_count c + 1))).

Definition dec_weak (r : Z) : K heap Z :=
  c <- the_rc r ;;
  set_rc r (Refc (ref_count c) (u32 (weak_count c - 1))) ;;;
  kret (u32 (weak_count c - 1)).

Definition try_inc_ref (r : Z) : K heap bool :=
  c <- the_rc r ;;
  if ref_count c =? 0 then kret false
  else
    set_rc r (Refc (u32 (ref_count c + 1)) (u32 (weak_count c + 1))) ;;;
    kret true.

Definition try_dec_ref (r : Z) : K heap (bool * bool) :=
  c <- the_rc r ;;
  if 1 <? ref_count c then kret (false, false)
  else
    set_rc r (Refc (u32 (ref_count c - 1)) (u32 (weak_count c - 1))) ;;;
    kret (true, u32 (weak_count c - 1) =? 0).

(** [new ref_count_t(1)], [new T], [delete]. *)
Definition new_rc : K heap Z :=
  s <- kget ;;
  kmodify (fun s => Heap (<[next s := Refc 1 1]> (rcs s)) (objs s) (svars s) (wvars s) (del_objs s) (del_rcs s) (next s + 1)) ;;;
  kret (next s).

Definition new_obj : K heap Z :=
  s <- kget ;;
  kmodify (fun s => Heap (rcs s) ({[next s]} ∪ objs s) (svars s) (wvars s) (del_objs s) (del_rcs s) (next s + 1)) ;;;
  kret (next s).

Definition delete_obj (p : Z) : K heap unit :=
  s <- kget ;;
  if decide (p ∈ objs s)
  then kmodify (fun s => Heap (rcs s) (objs s ∖ {[p]}) (svars s) (wvars s) (del_objs s) (del_rcs s) (next s))
  else kpanic.

Definition delete_rc (r : Z) : K heap unit :=
  c <- the_rc r ;;
  kmodify (set_rcs (delete r)).

(** ** [shared_ptr] and [weak_ptr] *)

(** The members of a variable.  Variables that are not null are in the map. *)
Definition the_shared (x : Z) : K heap (Z * Z) := fun s => Ret (default (0, 0) (svars s !! x)) s.
Definition the_weak (x : Z) : K heap (Z * Z) := fun s => Ret (default (0, 0) (wvars s !! x)) s.
Definition put_var (x : Z) (v : Z * Z) (m : gmap Z (Z * Z)) : gmap Z (Z * Z) :=
  if snd v =? 0 then delete x m else <[x := v]> m.
Definition put_shared (x : Z) (v : Z * Z) : K heap unit := kmodify (set_svars (put_var x v)).
Definition put_weak (x : Z) (v : Z * Z) : K heap unit := kmodify (set_wvars (put_var x v)).

Definition try_detach_weak (x : Z) : K heap bool :=
  '(ptr, ref_count) <- the_shared x ;;
  if (ptr =? 0) || (ref_count =? 0) then kret false
  else
    '(detach, destroy) <- try_dec_ref ref_count ;;
    if detach : bool then
      (if destroy : bool then delete_rc ref_count else kret tt) ;;;
      r <- new_rc ;;
      put_shared x (ptr, r) ;;;
      kret true
    else kret false.

(** [weak_ptr::__dec_ref]. *)
Definition weak_dec_ref (x : Z) : K heap unit :=
  '(_, ref_count) <- the_weak x ;;
  if ref_count =? 0 then kret tt
  else
    weak <- dec_weak ref_count ;;
    if weak =? 0 then delete_rc ref_count else kret tt.

(** [weak_ptr::__reset]. *)
Definition weak_reset (x new_ptr new_ref_count : Z) : K heap unit :=
  weak_dec_ref x ;;;
  put_weak x (new_ptr, new_ref_count) ;;;
  if new_ref_count =? 0 then kret tt else inc_weak new_ref_count.

Section with_hook.

(** [on_destroy] of [T], when it has one; it gets a temporary [weak_ptr]. *)
Context (on_destroy : option (Z -> K heap unit)) (temp : Z).

Definition shared_dec_ref (x : Z) : K heap unit :=
  '(ptr, ref_count) <- the_shared x ;;
  if (ptr =? 0) || (ref_count =? 0) then kret tt
  else
    (match on_destroy with
    | None => kret tt
    | Some f =>
        detached <- try_detach_weak x ;;
        if detached : bool then
          '(ptr, ref_count) <- the_shared x ;;
          put_weak temp (0, 0) ;;;
          weak_reset temp ptr ref_count ;;;
          f temp ;;;
          weak_dec_ref temp ;;;
          put_weak temp (0, 0)
        else kret tt
    end) ;;;
    '(ptr, ref_count) <- the_shared x ;;
    '(ref, weak) <- dec_ref ref_count ;;
    (if ref : bool then kret tt else delete_obj ptr) ;;;
    (if weak : bool then kret tt else delete_rc ref_count).

(** [shared_ptr::__reset]. *)
Definition shared_reset (x new_ptr new_ref_count : Z) : K heap unit :=
  shared_dec_ref x ;;;
  put_shared x (new_ptr, new_ref_count) ;;;
  if (new_ptr =? 0) || (new_ref_count =? 0) then kret tt else inc_ref new_ref_count.

(** [shared_ptr::reset]. *)
Definition reset (x new_ptr : Z) : K heap unit :=
  shared_dec_ref x ;;;
  if new_ptr =? 0 then put_shared x (0, 0)
  else
    r <- new_rc ;;
    put_shared x (new_ptr, r).

(** [operator=(const shared_ptr&)]: the arguments of [__reset] are read before
    it runs. *)
Definition assign (x other : Z) : K heap unit :=
  '(ptr, ref_count) <- the_shared other ;;
  shared_reset x ptr ref_count.

(** [operator=(shared_ptr&&)]. *)
Definition move_assign (x other : Z) : K heap unit :=
  v <- the_shared x ;;
  w <- the_shared other ;;
  put_shared x w ;;;
  put_shared other v.

(** [make_shared], into a variable. *)
Definition make_shared (x : Z) : K heap unit :=
  p <- new_obj ;;
  reset x p.

(** [~shared_ptr]. *)
Definition shared_destroy (x : Z) : K heap unit :=
  shared_dec_ref x ;;;
  put_shared x (0, 0).

(** The constructor with [__reset_weak], on a new variable; [weak_ptr::lock]; and
    the conversion to [shared_ptr<other_type>]. *)
Definition reset_weak (x new_ptr new_ref_count : Z) : K heap unit :=
  ok <- try_inc_ref new_ref_count ;;
  put_shared x (if ok : bool then (new_ptr, new_ref_count) else (0, 0)).
Definition lock (x w : Z) : K heap unit :=
  '(ptr, ref_count) <- the_weak w ;;
  if ref_count =? 0 then put_shared x (0, 0) else reset_weak x ptr ref_count.
Definition convert (x y : Z) : K heap unit :=
  '(ptr, ref_count) <- the_shared y ;;
  reset_weak x ptr ref_count.

(** [get_weak] and [operator=(const weak_ptr&)]. *)
Definition get_weak (w x : Z) : K heap unit :=
  '(ptr, ref_count) <- the_shared x ;;
  weak_reset w ptr ref_count.
Definition weak_assign (w other : Z) : K heap unit :=
  '(ptr, ref_count) <- the_weak other ;;
  weak_reset w ptr ref_count.
Definition weak_destroy (w : Z) : K heap unit :=
  weak_dec_ref w ;;;
  put_weak w (0, 0).

Definition expired (w : Z) : K heap bool :=
  '(_, ref_count) <- the_weak w ;;
  if ref_count =? 0 then kret true
  else
    n <- get_ref ref_count ;;
    kret (n =? 0).

Definition use_count (x : Z) : K heap Z :=
  '(_, ref_count) <- the_shared x ;;
  if ref_count =? 0 then kret 0 else get_ref ref_count.

End with_hook.

(** ** Steps *)

(** The changes that operations are made of.  [ORelease] is [__dec_ref] up to the
    two deletions, [OCopy] the rest of [__reset]. *)
Inductive sp_op :=
| OMake (x : Z) | ORelease (x : Z) | OCopy (x y : Z) | OMove (x y : Z) | ODetach (x : Z) | OLock (x w : Z)
| OGetWeak (w x : Z) | OWeakCopy (w v : Z) | OWeakRelease (w : Z)
| ODelObj (p : Z) | ODelRc (r : Z).

(** The deletions that are due. *)
Definition later_obj (b : bool) (p : Z) : K heap unit :=
  if b then kret tt
  else kmodify (fun s => Heap (rcs s) (objs s) (svars s) (wvars s) ({[p]} ∪ del_objs s) (del_rcs s) (next s)).
Definition later_rc (b : bool) (r : Z) : K heap unit :=
  if b then kret tt
  else kmodify (fun s => Heap (rcs s) (objs s) (svars s) (wvars s) (del_objs s) ({[r]} ∪ del_rcs s) (next s)).

Definition run_op (o : sp_op) : K heap unit :=
  match o with
  | OMake x => p <- new_obj ;; r <- new_rc ;; put_shared x (p, r)
  | ORelease x =>
      '(p, r) <- the_shared x ;;
      if (p =? 0) || (r =? 0) then kret tt
      else
        '(ref, weak) <- dec_ref r ;;
        put_shared x (0, 0) ;;;
        later_obj ref p ;;;
        later_rc weak r
  | OCopy x y =>
      '(p, r) <- the_shared y ;;
      put_shared x (p, r) ;;;
      if (p =? 0) || (r =? 0) then kret tt else inc_ref r
  | OMove x y => move_assign x y
  | ODetach x =>
      '(p, r) <- the_shared x ;;
      if (p =? 0) || (r =? 0) then kret tt
      else
        '(detach, destroy) <- try_dec_ref r ;;
        if detach : bool then
          later_rc (negb destroy) r ;;;
          r' <- new_rc ;;
          put_shared x (p, r')
        else kret tt
  | OLock x w => lock x w
  | OGetWeak w x =>
      '(p, r) <- the_shared x ;;
      put_weak w (p, r) ;;;
      if r =? 0 then kret tt else inc_weak r
  | OWeakCopy w v =>
      '(p, r) <- the_weak v ;;
      put_weak w (p, r) ;;;
      if r =? 0 then kret tt else inc_weak r
  | OWeakRelease w =>
      '(_, r) <- the_weak w ;;
      if r =? 0 then kret tt
      else
        n <- dec_weak r ;;
        put_weak w (0, 0) ;;;
        later_rc (negb (n =? 0)) r
  | ODelObj p =>
      delete_obj p ;;;
      kmodify (fun s => Heap (rcs s) (objs s) (svars s) (wvars s) (del_objs s ∖ {[p]}) (del_rcs s) (next s))
  | ODelRc r =>
      delete_rc r ;;;
      kmodify (fun s => Heap (rcs s) (objs s) (svars s) (wvars s) (del_objs s) (del_rcs s ∖ {[r]}) (next s))
  end.

(** When a program may make the step: the target of a construction is null, and
    a deletion is due.  There is no room in memory for 2 ^ 32 pointer
    variables. *)
Definition room (s : heap) : Prop := Z.of_nat (size (svars s)) + Z.of_nat (size (wvars s)) + 1 < 2 ^ 32.

Definition allowed (s : heap) (o : sp_op) : Prop :=
  match o with
  | OMake x | OCopy x _ | OLock x _ => svars s !! x = None /\ room s
  | OGetWeak w _ | OWeakCopy w _ => wvars s !! w = None /\ room s
  | ORelease _ | ODetach _ | OMove _ _ | OWeakRelease _ => True
  | ODelObj p => p ∈ del_objs s
  | ODelRc r => r ∈ del_rcs s
  end.

(** ** Counting variables *)

(** How many variables refer to the block [r]. *)
Definition cnt (m : gmap Z (Z * Z)) (r : Z) : Z := Z.of_nat (size (filter (fun kv => snd (snd kv) = r) m)).

Definition is_rc (v : Z * Z) (r : Z) : Z := if decide (snd v = r) then 1 else 0.

Lemma cnt_nonneg m r : 0 <= cnt m r.
Proof. unfold cnt. lia. Qed.

Lemma cnt_new m x v r : m !! x = None -> cnt (<[x := v]> m) r = cnt m r + is_rc v r.
Proof.
  intros Hx. unfold cnt, is_rc. case_decide as Hv.
  - rewrite map_filter_insert_True by done. rewrite map_size_insert_None; [lia|].
    apply map_lookup_filter_None. by left.
  - rewrite map_filter_insert_False by done. rewrite delete_id by done. lia.
Qed.

Lemma cnt_delete m x v r : m !! x = Some v -> cnt (delete x m) r = cnt m r - is_rc v r.
Proof.
  intros Hx. rewrite <- (insert_delete_id m x v Hx) at 2. rewrite cnt_new by apply lookup_delete_eq. lia.
Qed.

Lemma cnt_set m x v v' r : m !! x = Some v -> cnt (<[x := v']> m) r = cnt m r - is_rc v r + is_rc v' r.
Proof.
  intros Hx. rewrite <- insert_delete_eq, cnt_new, (cnt_delete _ _ _ _ Hx) by apply lookup_delete_eq. done.
Qed.

Lemma cnt_pos m x p r : m !! x = Some (p, r) -> 0 < cnt m r.
Proof.
  intros Hx. pose proof (cnt_delete m x (p, r) r Hx) as Hc. pose proof (cnt_nonneg (delete x m) r).
  unfold is_rc in Hc. rewrite decide_True in Hc by done. lia.
Qed.

Lemma cnt_pos_inv m r : 0 < cnt m r -> exists x p, m !! x = Some (p, r).
Proof.
  intros Hc. destruct (map_choose (filter (fun kv : Z * (Z * Z) => snd (snd kv) = r) m)) as (x & [p r'] & Hx).
  { intros He. unfold cnt in Hc. rewrite He, map_size_empty in Hc. lia. }
  apply map_lookup_filter_Some in Hx as [Hx <-]. by exists x, p.
Qed.

Lemma cnt_one m x y p p' r : cnt m r = 1 -> m !! x = Some (p, r) -> m !! y = Some (p', r) -> x = y.
Proof.
  intros Hc Hx Hy. destruct (decide (x = y)) as [|Hne]; [done|exfalso].
  pose proof (cnt_delete m x (p, r) r Hx) as Hd. unfold is_rc in Hd. rewrite decide_True in Hd by done.
  pose proof (cnt_pos (delete x m) y p' r) as Hp. rewrite lookup_delete_ne in Hp by done. specialize (Hp Hy). lia.
Qed.

Lemma cnt_bound m r : cnt m r <= Z.of_nat (size m).
Proof. unfold cnt. apply Nat2Z.inj_le, map_subseteq_size, map_filter_subseteq. Qed.

(** ** The invariant *)

Abbreviation strong s r := (cnt (svars s) r).
Abbreviation weak s r := (cnt (wvars s) r).

(** The counters count the variables; a variable that is not null refers to
    live memory; a block or an object without variables is due for deletion,
    and only such a one is. *)
Record sp_inv (s : heap) : Prop := {
  i_rc : forall r c, rcs s !! r = Some c -> 0 < r < next s /\ ref_count c = strong s r /\ weak_count c = strong s r + weak s r;
  i_sv : forall x p r, svars s !! x = Some (p, r) -> p ∈ objs s /\ p ∉ del_objs s /\ is_Some (rcs s !! r);
  i_wv : forall w p r, wvars s !! w = Some (p, r) -> is_Some (rcs s !! r);
  i_del : forall r, r ∈ del_rcs s <-> is_Some (rcs s !! r) /\ strong s r + weak s r = 0;
  i_obj : forall p, p ∈ objs s <-> p ∈ del_objs s \/ exists x r, svars s !! x = Some (p, r);
  i_one_rc : forall x y p r r', svars s !! x = Some (p, r) -> svars s !! y = Some (p, r') -> r = r';
  i_one_obj : forall x y p p' r, svars s !! x = Some (p, r) -> svars s !! y = Some (p', r) -> p = p';
  i_weak_obj : forall x w p p' r, svars s !! x = Some (p, r) -> wvars s !! w = Some (p', r) -> p = p';
  i_fresh : 0 < next s /\ forall p, p ∈ objs s -> 0 < p < next s;
  i_bound : Z.of_nat (size (svars s)) + Z.of_nat (size (wvars s)) < 2 ^ 32
}.

Definition empty_heap : heap := Heap ∅ ∅ ∅ ∅ ∅ ∅ 1.

Lemma cnt_empty r : cnt ∅ r = 0.
Proof. unfold cnt. by rewrite map_filter_empty. Qed.

Lemma empty_inv : sp_inv empty_heap.
Proof.
  split; cbn [empty_heap rcs objs svars wvars del_objs del_rcs next]; try done.
  - intros r. rewrite lookup_empty. split; [set_solver|]. intros [[c Hc] _]. done.
  - intros p. split; [set_solver|]. intros [|(x & r & Hx)]; [set_solver|done].
Qed.

(** A change of one variable; [is_rc] decides which counts it changes. *)
Ltac cnts :=
  repeat match goal with
  | H : ?m !! ?x = Some _ |- context [cnt (<[?x := _]> ?m) _] => rewrite !(cnt_set _ _ _ _ _ H)
  | H : ?m !! ?x = None |- context [cnt (<[?x := _]> ?m) _] => rewrite !(cnt_new _ _ _ _ H)
  | H : ?m !! ?x = Some _ |- context [cnt (delete ?x ?m) _] => rewrite !(cnt_delete _ _ _ _ H)
  end; unfold is_rc; cbn [snd]; repeat case_decide; simplify_eq; try lia.


(** A block that a variable refers to. *)
Lemma shared_rc s x p r :
  sp_inv s -> svars s !! x = Some (p, r) -> exists c, rcs s !! r = Some c /\ 0 < r /\ 0 < p /\
    ref_count c = strong s r /\ weak_count c = strong s r + weak s r.
Proof.
  intros Hi Hx. destruct (i_sv _ Hi _ _ _ Hx) as (Hp & _ & [c Hc]). exists c.
  destruct (i_rc _ Hi r c Hc) as (? & ? & ?). destruct (proj2 (i_fresh _ Hi) p Hp). split_and!; done || lia.
Qed.

Lemma weak_rc s w p r :
  sp_inv s -> wvars s !! w = Some (p, r) -> exists c, rcs s !! r = Some c /\ 0 < r /\
    ref_count c = strong s r /\ weak_count c = strong s r + weak s r.
Proof.
  intros Hi Hx. destruct (i_wv _ Hi _ _ _ Hx) as [c Hc]. exists c.
  destruct (i_rc _ Hi r c Hc) as (? & ? & ?). split_and!; done || lia.
Qed.

Lemma counts_small s r : sp_inv s -> 0 <= strong s r /\ 0 <= weak s r /\ strong s r + weak s r < 2 ^ 32.
Proof.
  intros Hi. pose proof (i_bound _ Hi). pose proof (cnt_bound (svars s) r). pose proof (cnt_bound (wvars s) r).
  pose proof (cnt_nonneg (svars s) r). pose proof (cnt_nonneg (wvars s) r). lia.
Qed.

(** Another shared variable for a live block. *)
Definition add_shared (x p r : Z) (s : heap) : heap :=
  Heap (<[r := Refc (strong s r + 1) (strong s r + weak s r + 1)]> (rcs s)) (objs s) (<[x := (p, r)]> (svars s)) (wvars s)
    (del_objs s) (del_rcs s) (next s).

Lemma add_shared_inv s x y p r :
  sp_inv s -> svars s !! x = None -> room s -> svars s !! y = Some (p, r) -> sp_inv (add_shared x p r s).
Proof.
  intros Hi Hx Hroom Hy. pose proof Hi as [H1 H2 H3 H4 H5 H6 H7 H8 H9 H10].
  destruct (shared_rc s y p r Hi Hy) as (c & Hc & Hr & Hp & Hc1 & Hc2). pose proof (cnt_pos _ _ _ _ Hy) as Hpos.
  pose proof (cnt_nonneg (wvars s) r) as Hw.
  split; cbn [add_shared rcs objs svars wvars del_objs del_rcs next].
  - intros k c' [[<- <-]|[Hk Hc']]%lookup_insert_Some; [|destruct (H1 k c' Hc') as (? & ? & ?)]; cbn [ref_count weak_count].
    + split; [by apply H1 in Hc as [? _]|]. cnts.
    + cnts.
  - intros z p' k [[<- [= <- <-]]|[_ Hz]]%lookup_insert_Some.
    + destruct (H2 y p r Hy) as (? & ? & _). split_and!; [done|done|]. rewrite lookup_insert_eq. by eexists.
    + destruct (H2 z p' k Hz) as (? & ? & ?). split_and!; [done|done|]. apply lookup_insert_is_Some'. by right.
  - intros w p' k Hwk. apply lookup_insert_is_Some'. right. by eapply H3.
  - intros k. rewrite H4, lookup_insert_is_Some'. split; intros [Hs Hz].
    + split; [by right|]. cnts.
    + destruct Hs as [<-|Hs]; [|split; [done|]]; revert Hz; cnts.
  - intros p'. rewrite H5. split; (intros [|(z & k & Hz)]; [by left|right]).
    + exists z, k. rewrite lookup_insert_ne by congruence. done.
    + apply lookup_insert_Some in Hz as [[<- [= <- <-]]|[_ Hz]]; eauto.
  - intros a b p' k k' [[<- [= <- <-]]|[_ Ha]]%lookup_insert_Some [[<- Eb]|[_ Hb]]%lookup_insert_Some; simplify_eq; eauto.
  - intros a b p1 p2 k [[<- [= <- <-]]|[_ Ha]]%lookup_insert_Some [[<- Eb]|[_ Hb]]%lookup_insert_Some; simplify_eq; eauto.
  - intros a w p1 p2 k [[<- [= <- <-]]|[_ Ha]]%lookup_insert_Some Hwk; eauto.
  - done.
  - rewrite map_size_insert_None by done. unfold room in Hroom. lia.
Qed.

(** One shared variable less; what became last is due for deletion. *)
Definition drop_shared (x p r : Z) (s : heap) : heap :=
  Heap (<[r := Refc (strong s r - 1) (strong s r + weak s r - 1)]> (rcs s)) (objs s) (delete x (svars s)) (wvars s)
    (if strong s r =? 1 then {[p]} ∪ del_objs s else del_objs s)
    (if strong s r + weak s r =? 1 then {[r]} ∪ del_rcs s else del_rcs s) (next s).

(** After the last variable of its block no variable has the object. *)
Lemma last_of_object s x p r y r' :
  sp_inv s -> svars s !! x = Some (p, r) -> strong s r = 1 -> svars s !! y = Some (p, r') -> y = x.
Proof.
  intros Hi Hx H1 Hy. pose proof (i_one_rc _ Hi _ _ _ _ _ Hx Hy) as <-. by eapply (cnt_one _ y x).
Qed.

Lemma drop_shared_inv s x p r : sp_inv s -> svars s !! x = Some (p, r) -> sp_inv (drop_shared x p r s).
Proof.
  intros Hi Hx. pose proof Hi as [H1 H2 H3 H4 H5 H6 H7 H8 H9 H10].
  destruct (shared_rc s x p r Hi Hx) as (c & Hc & Hr & Hp & Hc1 & Hc2). pose proof (cnt_pos _ _ _ _ Hx) as Hpos.
  pose proof (cnt_nonneg (wvars s) r) as Hw.
  split; cbn [drop_shared rcs objs svars wvars del_objs del_rcs next].
  - intros k c' [[<- <-]|[Hk Hc']]%lookup_insert_Some; [|destruct (H1 k c' Hc') as (? & ? & ?)]; cbn [ref_count weak_count].
    + split; [by apply H1 in Hc as [? _]|]. cnts.
    + cnts.
  - intros z p' k [Hzx Hz]%lookup_delete_Some. destruct (H2 z p' k Hz) as (Ho & Hd & Hs). split_and!; [done| |].
    + case_match eqn:E; [|done]. apply not_elem_of_union. split; [|done]. apply not_elem_of_singleton. intros ->.
      apply Hzx. symmetry. apply (last_of_object s x p r z k Hi Hx); [lia|done].
    + apply lookup_insert_is_Some'. by right.
  - intros w p' k Hwk. apply lookup_insert_is_Some'. right. by eapply H3.
  - intros k. assert (cnt (delete x (svars s)) k = strong s k - (if decide (r = k) then 1 else 0)) as -> by cnts.
    rewrite lookup_insert_is_Some'. case_match eqn:E.
    + rewrite elem_of_union, elem_of_singleton, H4. case_decide as Hk; subst.
      * split; [intros _; split; [by left|lia]|by left].
      * rewrite Z.sub_0_r. split; [intros [|]; [congruence|tauto]|intros [[|] ?]; [congruence|by right]].
    + rewrite H4. case_decide as Hk; subst; [split; intros [? ?]; lia|]. rewrite Z.sub_0_r. intuition congruence.
  - intros p'. rewrite H5. case_match eqn:E; [rewrite elem_of_union, elem_of_singleton|].
    + split.
      * intros [|(z & k & Hz)]; [by left; right|]. destruct (decide (z = x)) as [->|Hne]; [left; left; congruence|].
        right. exists z, k. by rewrite lookup_delete_ne.
      * intros [[->|]|(z & k & [_ Hz]%lookup_delete_Some)]; eauto.
    + split.
      * intros [|(z & k & Hz)]; [by left|right]. destruct (decide (z = x)) as [->|Hne]; [|exists z, k; by rewrite lookup_delete_ne].
        simplify_eq. destruct (cnt_pos_inv (delete x (svars s)) r) as (y & q & Hy); [cnts|]. exists y, r.
        apply lookup_delete_Some in Hy as [Hyx Hy]. rewrite lookup_delete_ne by done. by rewrite (H7 x y p q r Hx Hy).
      * intros [|(z & k & [_ Hz]%lookup_delete_Some)]; eauto.
  - intros a b p' k k' [_ Ha]%lookup_delete_Some [_ Hb]%lookup_delete_Some. eauto.
  - intros a b p1 p2 k [_ Ha]%lookup_delete_Some [_ Hb]%lookup_delete_Some. eauto.
  - intros a w p1 p2 k [_ Ha]%lookup_delete_Some Hwk. eauto.
  - done.
  - rewrite map_size_delete_Some by by eexists. lia.
Qed.

(** Another weak variable, and one less. *)
Definition add_weak (w p r : Z) (s : heap) : heap :=
  Heap (<[r := Refc (strong s r) (strong s r + weak s r + 1)]> (rcs s)) (objs s) (svars s) (<[w := (p, r)]> (wvars s))
    (del_objs s) (del_rcs s) (next s).
Definition drop_weak (w r : Z) (s : heap) : heap :=
  Heap (<[r := Refc (strong s r) (strong s r + weak s r - 1)]> (rcs s)) (objs s) (svars s) (delete w (wvars s))
    (del_objs s) (if strong s r + weak s r =? 1 then {[r]} ∪ del_rcs s else del_rcs s) (next s).

Lemma add_weak_inv s w p r :
  sp_inv s -> wvars s !! w = None -> room s -> 0 < strong s r + weak s r -> is_Some (rcs s !! r) ->
  (forall x p', svars s !! x = Some (p', r) -> p' = p) -> sp_inv (add_weak w p r s).
Proof.
  intros Hi Hx Hroom Hpos [c Hc] Hp. pose proof Hi as [H1 H2 H3 H4 H5 H6 H7 H8 H9 H10].
  destruct (H1 r c Hc) as (Hr & Hc1 & Hc2).
  split; cbn [add_weak rcs objs svars wvars del_objs del_rcs next]; try done.
  - intros k c' [[<- <-]|[Hk Hc']]%lookup_insert_Some; [|destruct (H1 k c' Hc') as (? & ? & ?)]; cbn [ref_count weak_count]; cnts.
  - intros z p' k Hz. destruct (H2 z p' k Hz) as (? & ? & ?). split_and!; [done|done|]. apply lookup_insert_is_Some'. by right.
  - intros z p' k [[<- [= <- <-]]|[_ Hz]]%lookup_insert_Some; apply lookup_insert_is_Some'; [by left|right; by eapply H3].
  - intros k. rewrite H4, lookup_insert_is_Some'. split; intros [Hs Hz].
    + split; [by right|]. cnts.
    + destruct Hs as [<-|Hs]; [|split; [done|]]; revert Hz; cnts.
  - intros x z p1 p2 k Hxk [[<- [= <- <-]]|[_ Hz]]%lookup_insert_Some; [by eapply Hp|eauto].
  - rewrite map_size_insert_None by done. unfold room in Hroom. lia.
Qed.

Lemma drop_weak_inv s w p r : sp_inv s -> wvars s !! w = Some (p, r) -> sp_inv (drop_weak w r s).
Proof.
  intros Hi Hx. pose proof Hi as [H1 H2 H3 H4 H5 H6 H7 H8 H9 H10].
  destruct (weak_rc s w p r Hi Hx) as (c & Hc & Hr & Hc1 & Hc2). pose proof (cnt_pos _ _ _ _ Hx) as Hpos.
  pose proof (cnt_nonneg (svars s) r) as Hs0.
  split; cbn [drop_weak rcs objs svars wvars del_objs del_rcs next]; try done.
  - intros k c' [[<- <-]|[Hk Hc']]%lookup_insert_Some; [|destruct (H1 k c' Hc') as (? & ? & ?)]; cbn [ref_count weak_count].
    + split; [by apply H1 in Hc as [? _]|]. cnts.
    + cnts.
  - intros z p' k Hz. destruct (H2 z p' k Hz) as (? & ? & ?). split_and!; [done|done|]. apply lookup_insert_is_Some'. by right.
  - intros z p' k [_ Hz]%lookup_delete_Some. apply lookup_insert_is_Some'. right. by eapply H3.
  - intros k. assert (cnt (delete w (wvars s)) k = weak s k - (if decide (r = k) then 1 else 0)) as -> by cnts.
    rewrite lookup_insert_is_Some'. case_match eqn:E.
    + rewrite elem_of_union, elem_of_singleton, H4. case_decide as Hk; subst.
      * split; [intros _; split; [by left|lia]|by left].
      * rewrite Z.sub_0_r. split; [intros [|]; [congruence|tauto]|intros [[|] ?]; [congruence|by right]].
    + rewrite H4. case_decide as Hk; subst; [split; intros [? ?]; lia|]. rewrite Z.sub_0_r. intuition congruence.
  - intros x z p1 p2 k Hxk [_ Hz]%lookup_delete_Some. eauto.
  - rewrite map_size_delete_Some by by eexists. lia.
Qed.

(** A new object that nobody has yet, and a new block for an object that is
    due for deletion. *)
Definition add_object (s : heap) : heap :=
  Heap (rcs s) ({[next s]} ∪ objs s) (svars s) (wvars s) ({[next s]} ∪ del_objs s) (del_rcs s) (next s + 1).
Definition fresh_shared (x p : Z) (s : heap) : heap :=
  Heap (<[next s := Refc 1 1]> (rcs s)) (objs s) (<[x := (p, next s)]> (svars s)) (wvars s)
    (del_objs s ∖ {[p]}) (del_rcs s) (next s + 1).

Lemma fresh_object s : sp_inv s -> next s ∉ objs s /\ next s ∉ del_objs s /\ rcs s !! next s = None.
Proof.
  intros Hi. assert (next s ∉ objs s) as Ho by (intros Hn; apply (i_fresh _ Hi) in Hn; lia).
  split_and!; [done|intros Hd; apply Ho, (i_obj _ Hi); by left|].
  destruct (rcs s !! next s) as [c|] eqn:E; [|done]. apply (i_rc _ Hi) in E. lia.
Qed.

Lemma add_object_inv s : sp_inv s -> sp_inv (add_object s).
Proof.
  intros Hi. pose proof Hi as [H1 H2 H3 H4 H5 H6 H7 H8 [H9 H9'] H10]. destruct (fresh_object s Hi) as (Hno & Hnd & _).
  split; cbn [add_object rcs objs svars wvars del_objs del_rcs next]; try done.
  - intros r c Hc. destruct (H1 r c Hc) as (? & ? & ?). split_and!; lia.
  - intros x p r Hx. destruct (H2 x p r Hx) as (? & ? & ?). split_and!; [set_solver| |done].
    apply not_elem_of_union. split; [|done]. apply not_elem_of_singleton. congruence.
  - intros p. rewrite !elem_of_union, H5. tauto.
  - split; [lia|]. intros p [->%elem_of_singleton|Hp]%elem_of_union; [lia|]. specialize (H9' p Hp). lia.
Qed.

Lemma fresh_shared_inv s x p :
  sp_inv s -> svars s !! x = None -> room s -> p ∈ del_objs s -> sp_inv (fresh_shared x p s).
Proof.
  intros Hi Hx Hroom Hp. pose proof Hi as [H1 H2 H3 H4 H5 H6 H7 H8 [H9 H9'] H10].
  destruct (fresh_object s Hi) as (_ & _ & Hn).
  assert (forall z q, svars s !! z = Some (q, next s) -> False) as Hns.
  { intros z q Hz. apply H2 in Hz as (_ & _ & [c Hc]). congruence. }
  assert (forall z q, wvars s !! z = Some (q, next s) -> False) as Hnw by (intros z q [c Hc]%H3; congruence).
  assert (strong s (next s) = 0 /\ weak s (next s) = 0) as [Hs0 Hw0].
  { split; [destruct (Z.le_gt_cases (strong s (next s)) 0) as [|(z & q & Hz)%Z.lt_gt%Z.gt_lt%cnt_pos_inv]; [|by apply Hns in Hz]
      |destruct (Z.le_gt_cases (weak s (next s)) 0) as [|(z & q & Hz)%Z.lt_gt%Z.gt_lt%cnt_pos_inv]; [|by apply Hnw in Hz]].
    - pose proof (cnt_nonneg (svars s) (next s)). lia.
    - pose proof (cnt_nonneg (wvars s) (next s)). lia. }
  assert (forall z r, svars s !! z = Some (p, r) -> False) as Hnp by (intros z r Hz; by apply H2 in Hz as (_ & ? & _)).
  split; cbn [fresh_shared rcs objs svars wvars del_objs del_rcs next].
  - intros k c [[<- <-]|[Hk Hc]]%lookup_insert_Some; [|destruct (H1 k c Hc) as (? & ? & ?)]; cbn [ref_count weak_count]; cnts.
  - intros z q k [[<- [= <- <-]]|[_ Hz]]%lookup_insert_Some.
    + split_and!; [apply H5; by left|set_solver|rewrite lookup_insert_eq; by eexists].
    + destruct (H2 z q k Hz) as (? & ? & ?). split_and!; [done|set_solver|]. apply lookup_insert_is_Some'. by right.
  - intros z q k Hz. apply lookup_insert_is_Some'. right. by eapply H3.
  - intros k. rewrite H4, lookup_insert_is_Some'. split; intros [Hs Hz].
    + split; [by right|]. destruct (decide (next s = k)) as [<-|]; [destruct Hs; congruence|]. cnts.
    + destruct (decide (next s = k)) as [<-|Hk]; [revert Hz; cnts|]. destruct Hs as [|Hs]; [done|]. split; [done|]. revert Hz. cnts.
  - intros q. rewrite elem_of_difference, elem_of_singleton, H5. split.
    + intros [Hq|(z & k & Hz)].
      * destruct (decide (q = p)) as [->|]; [right; exists x, (next s); apply lookup_insert_eq|by left].
      * right. exists z, k. rewrite lookup_insert_ne by congruence. done.
    + intros [[Hq _]|(z & k & [[_ [= <- _]]|[_ Hz]]%lookup_insert_Some)]; [by left|by left|eauto].
  - intros a b q k k' [[<- [= <- <-]]|[_ Ha]]%lookup_insert_Some [[<- Eb]|[_ Hb]]%lookup_insert_Some; simplify_eq; try done;
      [by apply Hnp in Hb|by apply Hnp in Ha|eauto].
  - intros a b p1 p2 k [[<- [= <- <-]]|[_ Ha]]%lookup_insert_Some [[<- Eb]|[_ Hb]]%lookup_insert_Some; simplify_eq; try done;
      [by apply Hns in Hb|by apply Hns in Ha|eauto].
  - intros a w p1 p2 k [[<- [= <- <-]]|[_ Ha]]%lookup_insert_Some Hwk; [by apply Hnw in Hwk|eauto].
  - split; [lia|]. intros q Hq. specialize (H9' q Hq). lia.
  - rewrite map_size_insert_None by done. unfold room in Hroom. lia.
Qed.

(** The deletions. *)
Lemma delete_obj_inv s p :
  sp_inv s -> p ∈ del_objs s ->
  sp_inv (Heap (rcs s) (objs s ∖ {[p]}) (svars s) (wvars s) (del_objs s ∖ {[p]}) (del_rcs s) (next s)).
Proof.
  intros [H1 H2 H3 H4 H5 H6 H7 H8 [H9 H9'] H10] Hp.
  split; cbn [rcs objs svars wvars del_objs del_rcs next]; try done.
  - intros x q r Hx. destruct (H2 x q r Hx) as (? & ? & ?). split_and!; [|set_solver|done].
    apply elem_of_difference. split; [done|]. apply not_elem_of_singleton. congruence.
  - intros q. rewrite !elem_of_difference, !elem_of_singleton, H5. split.
    + intros [[Hq|Hq] Hne]; [by left|by right].
    + intros [[Hq Hne]|(x & r & Hx)]; [by split; [left|]|]. split; [eauto|]. intros ->. by apply H2 in Hx as (_ & ? & _).
  - split; [done|]. intros q [Hq _]%elem_of_difference. by apply H9'.
Qed.

Lemma delete_rc_inv s r :
  sp_inv s -> r ∈ del_rcs s ->
  sp_inv (Heap (delete r (rcs s)) (objs s) (svars s) (wvars s) (del_objs s) (del_rcs s ∖ {[r]}) (next s)).
Proof.
  intros [H1 H2 H3 H4 H5 H6 H7 H8 H9 H10] Hr. pose proof (proj1 (H4 r) Hr) as [_ Hz].
  pose proof (cnt_nonneg (svars s) r). pose proof (cnt_nonneg (wvars s) r).
  split; cbn [rcs objs svars wvars del_objs del_rcs next]; try done.
  - intros k c [_ Hc]%lookup_delete_Some. eauto.
  - intros x q k Hx. destruct (H2 x q k Hx) as (? & ? & ?). split_and!; [done|done|].
    apply lookup_delete_is_Some. split; [|done]. intros ->. apply cnt_pos in Hx. lia.
  - intros w q k Hw. apply lookup_delete_is_Some. split; [|by eapply H3]. intros ->. apply cnt_pos in Hw. lia.
  - intros k. rewrite elem_of_difference, elem_of_singleton, H4, lookup_delete_is_Some. intuition congruence.
Qed.

(** A renaming of the variables: [f] is its own inverse. *)
Lemma rename_inv s m (f : Z -> Z) :
  sp_inv s -> (forall z, f (f z) = z) -> (forall z, m !! z = svars s !! f z) -> (forall r, cnt m r = strong s r) ->
  size m = size (svars s) -> sp_inv (set_svars (fun _ => m) s).
Proof.
  intros [H1 H2 H3 H4 H5 H6 H7 H8 H9 H10] Hf Hm Hc Hs.
  split; cbn [set_svars rcs objs svars wvars del_objs del_rcs next]; try done.
  - intros r c Hr. rewrite Hc. by apply H1.
  - intros x p r. rewrite Hm. apply H2.
  - intros r. rewrite Hc. apply H4.
  - intros p. rewrite H5. split; (intros [|(x & r & Hx)]; [by left|right]); exists (f x), r; [by rewrite Hm, Hf|by rewrite <- Hm].
  - intros x y p r r'. rewrite !Hm. apply H6.
  - intros x y p p' r. rewrite !Hm. apply H7.
  - intros x w p p' r. rewrite Hm. apply H8.
  - by rewrite Hs.
Qed.

(** The map after [std::swap] of two variables. *)
Definition swapped (m : gmap Z (Z * Z)) (x y : Z) : gmap Z (Z * Z) :=
  put_var y (default (0, 0) (m !! x)) (put_var x (default (0, 0) (m !! y)) m).
Definition transpose (x y z : Z) : Z := if decide (z = x) then y else if decide (z = y) then x else z.

Lemma put_var_lookup x v m z :
  put_var x v m !! z = if decide (z = x) then (if snd v =? 0 then None else Some v) else m !! z.
Proof.
  unfold put_var. case_decide as Hz; [subst|]; destruct (snd v =? 0);
    rewrite ?lookup_delete_eq, ?lookup_insert_eq, ?lookup_delete_ne, ?lookup_insert_ne by congruence; done.
Qed.

Definition entry_of (o : option (Z * Z)) (r : Z) : Z := match o with Some v => is_rc v r | None => 0 end.
Definition in_map (o : option (Z * Z)) : nat := match o with Some _ => 1 | None => 0 end.

Lemma put_var_cnt x v m r :
  cnt (put_var x v m) r = cnt m r - entry_of (m !! x) r + (if snd v =? 0 then 0 else is_rc v r).
Proof.
  unfold put_var. destruct (m !! x) as [u|] eqn:E; destruct (snd v =? 0); cbn [entry_of].
  - rewrite (cnt_delete _ _ _ _ E). lia.
  - rewrite (cnt_set _ _ _ _ _ E). lia.
  - rewrite delete_id by done. lia.
  - rewrite (cnt_new _ _ _ _ E). lia.
Qed.

Lemma put_var_size x v m :
  (size (put_var x v m) + in_map (m !! x) = size m + (if (snd v =? 0)%Z then 0 else 1))%nat.
Proof.
  unfold put_var. destruct (m !! x) as [u|] eqn:E; destruct (snd v =? 0); cbn [in_map].
  - rewrite map_size_delete_Some by by eexists.
    assert (size m <> 0%nat) by (intros He; apply map_size_empty_inv in He; subst; done). lia.
  - rewrite map_size_insert_Some by by eexists. lia.
  - rewrite delete_id by done. lia.
  - rewrite map_size_insert_None by done. lia.
Qed.

Lemma swap_inv s x y : sp_inv s -> sp_inv (set_svars (fun m => swapped m x y) s).
Proof.
  intros Hi. assert (forall z v, svars s !! z = Some v -> snd v <> 0) as Hnz.
  { intros z [p r] Hz. destruct (shared_rc s z p r Hi Hz) as (c & _ & Hr & _). cbn. lia. }
  assert (forall z, (if snd (default (0, 0) (svars s !! z)) =? 0 then None else Some (default (0, 0) (svars s !! z))) =
    svars s !! z) as Hd.
  { intros z. destruct (svars s !! z) as [v|] eqn:E; [|done]. cbn. by rewrite (proj2 (Z.eqb_neq _ _) (Hnz z v E)). }
  assert (forall z r, (if snd (default (0, 0) (svars s !! z)) =? 0 then 0 else is_rc (default (0, 0) (svars s !! z)) r) =
    entry_of (svars s !! z) r) as He.
  { intros z r. destruct (svars s !! z) as [v|] eqn:E; [|done]. cbn. by rewrite (proj2 (Z.eqb_neq _ _) (Hnz z v E)). }
  assert (forall z, (if snd (default (0, 0) (svars s !! z)) =? 0 then 0%nat else 1%nat) = in_map (svars s !! z)) as Hs.
  { intros z. destruct (svars s !! z) as [v|] eqn:E; [|done]. cbn. by rewrite (proj2 (Z.eqb_neq _ _) (Hnz z v E)). }
  apply (rename_inv s (swapped (svars s) x y) (transpose x y)); [done| | | |].
  - intros z. unfold transpose. repeat case_decide; congruence.
  - intros z. unfold swapped, transpose. rewrite !put_var_lookup, !Hd. repeat case_decide; congruence.
  - intros r. unfold swapped. rewrite !put_var_cnt, !He, put_var_lookup, Hd. case_decide; subst; lia.
  - unfold swapped. pose proof (put_var_size y (default (0, 0) (svars s !! x)) (put_var x (default (0, 0) (svars s !! y)) (svars s))) as P1.
    pose proof (put_var_size x (default (0, 0) (svars s !! y)) (svars s)) as P2.
    rewrite Hs, put_var_lookup, Hd in P1. rewrite Hs in P2. case_decide; subst; lia.
Qed.


(** ** Every step keeps the invariant *)

Ltac sp_run := cbv [run_op kbind kget kmodify kret the_shared the_weak the_rc set_rc dec_ref inc_ref inc_weak dec_weak
  try_inc_ref try_dec_ref new_obj new_rc delete_obj delete_rc put_shared put_weak put_var set_svars set_wvars set_rcs
  later_obj later_rc lock move_assign from_option id default].

(** The counters of a block as the code computes them. *)
Lemma block_counts s r c :
  sp_inv s -> rcs s !! r = Some c -> 0 < strong s r + weak s r ->
  c = Refc (strong s r) (strong s r + weak s r) /\ u32 (strong s r + weak s r - 1) = strong s r + weak s r - 1 /\
  (0 < strong s r -> u32 (strong s r - 1) = strong s r - 1) /\
  (room s -> u32 (strong s r + 1) = strong s r + 1 /\ u32 (strong s r + weak s r + 1) = strong s r + weak s r + 1).
Proof.
  intros Hi Hc Hpos. destruct (i_rc _ Hi r c Hc) as (_ & H1 & H2). destruct (counts_small s r Hi) as (? & ? & ?).
  destruct c as [a b]; cbn in *; subst. split_and!; [done|apply u32_small; lia|intros; apply u32_small; lia|].
  intros Hr. unfold room in Hr. pose proof (cnt_bound (svars s) r). pose proof (cnt_bound (wvars s) r).
  split; apply u32_small; lia.
Qed.

Lemma null_or_rc s x p r :
  sp_inv s -> svars s !! x = Some (p, r) -> (p =? 0) || (r =? 0) = false /\ (r =? 0) = false.
Proof.
  intros Hi Hx. destruct (shared_rc s x p r Hi Hx) as (c & _ & Hr & Hp & _).
  rewrite (proj2 (Z.eqb_neq p 0)), (proj2 (Z.eqb_neq r 0)) by lia. done.
Qed.

(** A shared variable, its block and their counts. *)
Ltac shared_var Hi x :=
  let p := fresh "p" in let r := fresh "r" in let Hx := fresh "Hx" in
  match type of Hi with sp_inv ?s =>
    destruct (svars s !! x) as [[p r]|] eqn:Hx;
    [let c := fresh "c" in let Hc := fresh "Hc" in let Hpos := fresh "Hpos" in
     let Hn1 := fresh "Hn1" in let Hn2 := fresh "Hn2" in
     destruct (null_or_rc s x p r Hi Hx) as [Hn1 Hn2]; destruct (shared_rc s x p r Hi Hx) as (c & Hc & _ & _ & _ & _);
     pose proof (cnt_pos _ _ _ _ Hx) as Hpos; pose proof (cnt_nonneg (wvars s) r);
     destruct (block_counts s r c Hi Hc ltac:(lia)) as (-> & ?Hu1 & ?Hu2 & ?Hu3)|]
  end.

Lemma release_step s x :
  sp_inv s ->
  run_op (ORelease x) s = Ret tt s /\ svars s !! x = None \/
  exists p r, svars s !! x = Some (p, r) /\ run_op (ORelease x) s = Ret tt (drop_shared x p r s).
Proof.
  intros Hi. shared_var Hi x; [right|left; split; [|done]; sp_run; by rewrite Hx].
  exists p, r. split; [done|]. sp_run. rewrite Hx. cbv iota beta. rewrite Hn1, Hc. cbn [ref_count weak_count snd fst].
  rewrite Hu1, Hu2 by done. unfold drop_shared.
  replace (strong s r - 1 =? 0) with (strong s r =? 1) by lia.
  replace (strong s r + weak s r - 1 =? 0) with (strong s r + weak s r =? 1) by lia.
  by destruct (strong s r =? 1), (strong s r + weak s r =? 1).
Qed.

Lemma weak_release_step s w :
  sp_inv s ->
  run_op (OWeakRelease w) s = Ret tt s /\ wvars s !! w = None \/
  exists p r, wvars s !! w = Some (p, r) /\ run_op (OWeakRelease w) s = Ret tt (drop_weak w r s).
Proof.
  intros Hi. destruct (wvars s !! w) as [[p r]|] eqn:Hx; [right|left; split; [|done]; sp_run; by rewrite Hx].
  destruct (weak_rc s w p r Hi Hx) as (c & Hc & Hr & _). pose proof (cnt_pos _ _ _ _ Hx) as Hpos.
  pose proof (cnt_nonneg (svars s) r). destruct (block_counts s r c Hi Hc ltac:(lia)) as (-> & Hu1 & _ & _).
  exists p, r. split; [done|]. sp_run. rewrite Hx. cbv iota beta. rewrite (proj2 (Z.eqb_neq r 0)) by lia. rewrite Hc.
  cbn [ref_count weak_count snd fst]. rewrite Hu1. unfold drop_weak.
  replace (strong s r + weak s r - 1 =? 0) with (strong s r + weak s r =? 1) by lia.
  by destruct (strong s r + weak s r =? 1).
Qed.

Lemma copy_step s x y :
  sp_inv s -> svars s !! x = None -> room s ->
  run_op (OCopy x y) s = Ret tt s /\ svars s !! y = None \/
  exists p r, svars s !! y = Some (p, r) /\ run_op (OCopy x y) s = Ret tt (add_shared x p r s).
Proof.
  intros Hi Hx0 Hroom. shared_var Hi y.
  - right. exists p, r. split; [done|]. sp_run. rewrite Hx. cbn [snd fst]. rewrite Hn1, Hn2. cbn [rcs]. rewrite Hc.
    cbn [ref_count weak_count snd fst]. destruct (Hu3 Hroom) as [-> ->]. done.
  - left. split; [|done]. sp_run. rewrite Hx. cbn. rewrite (delete_id _ _ Hx0). by destruct s.
Qed.

(** A weak variable made from the members of another variable. *)
Definition point_weak (w p r : Z) : K heap unit :=
  put_weak w (p, r) ;;;
  if r =? 0 then kret tt else inc_weak r.

Lemma point_weak_null s w p : wvars s !! w = None -> point_weak w p 0 s = Ret tt s.
Proof. intros Hw. unfold point_weak. sp_run. cbn. rewrite (delete_id _ _ Hw). by destruct s. Qed.

Lemma point_weak_step s w p r c :
  sp_inv s -> wvars s !! w = None -> room s -> rcs s !! r = Some c -> 0 < strong s r + weak s r ->
  point_weak w p r s = Ret tt (add_weak w p r s).
Proof.
  intros Hi Hw Hroom Hc Hpos. destruct (block_counts s r c Hi Hc Hpos) as (-> & _ & _ & Hu). destruct (i_rc _ Hi r _ Hc) as (Hr & _).
  unfold point_weak. sp_run. cbn [snd]. rewrite (proj2 (Z.eqb_neq r 0)) by lia. cbn [rcs]. rewrite Hc. cbn [ref_count weak_count].
  destruct (Hu Hroom) as [_ ->]. done.
Qed.

Lemma get_weak_step s w x :
  sp_inv s -> wvars s !! w = None -> room s -> exists s', run_op (OGetWeak w x) s = Ret tt s' /\ sp_inv s'.
Proof.
  intros Hi Hw Hroom. change (run_op (OGetWeak w x) s) with ((let '(p, r) := default (0, 0) (svars s !! x) in point_weak w p r) s).
  shared_var Hi x; cbn [default from_option id].
  - exists (add_weak w p r s). split; [eapply point_weak_step; by eauto with lia|].
    apply add_weak_inv; [done|done|done|lia|by eexists|]. intros z p' Hz. by apply (i_one_obj _ Hi z x p' p r).
  - exists s. split; [by apply point_weak_null|done].
Qed.

Lemma weak_copy_step s w v :
  sp_inv s -> wvars s !! w = None -> room s -> exists s', run_op (OWeakCopy w v) s = Ret tt s' /\ sp_inv s'.
Proof.
  intros Hi Hw Hroom. change (run_op (OWeakCopy w v) s) with ((let '(p, r) := default (0, 0) (wvars s !! v) in point_weak w p r) s).
  destruct (wvars s !! v) as [[p r]|] eqn:Hv; cbn [default from_option id].
  - destruct (weak_rc s v p r Hi Hv) as (c & Hc & _). pose proof (cnt_pos _ _ _ _ Hv). pose proof (cnt_nonneg (svars s) r).
    exists (add_weak w p r s). split; [eapply point_weak_step; by eauto with lia|].
    apply add_weak_inv; [done|done|done|lia|by eexists|]. intros z p' Hz. by apply (i_weak_obj _ Hi z v p' p r).
  - exists s. split; [by apply point_weak_null|done].
Qed.

Lemma lock_step s x w :
  sp_inv s -> svars s !! x = None -> room s -> exists s', lock x w s = Ret tt s' /\ sp_inv s' /\
    svars s' !! x = match wvars s !! w with Some (p, r) => if strong s r =? 0 then None else Some (p, r) | None => None end.
Proof.
  intros Hi Hx Hroom. assert (put_shared x (0, 0) s = Ret tt s) as Hnull.
  { sp_run. cbn. rewrite (delete_id _ _ Hx). by destruct s. }
  unfold lock. unfold kbind at 1, the_weak. destruct (wvars s !! w) as [[p r]|] eqn:Hw; cbn [default from_option id].
  - destruct (weak_rc s w p r Hi Hw) as (c & Hc & Hr & _). pose proof (cnt_pos _ _ _ _ Hw). pose proof (cnt_nonneg (svars s) r).
    destruct (block_counts s r c Hi Hc ltac:(lia)) as (-> & _ & _ & Hu). rewrite (proj2 (Z.eqb_neq r 0)) by lia.
    unfold reset_weak, kbind at 1, try_inc_ref, the_rc. unfold kbind at 1. rewrite Hc. cbn [ref_count weak_count].
    destruct (strong s r =? 0) eqn:E.
    + exists s. by split_and!.
    + destruct (Hu Hroom) as [-> ->]. destruct (cnt_pos_inv (svars s) r) as (y & q & Hy); [lia|].
      pose proof (i_weak_obj _ Hi y w q p r Hy Hw) as ->. exists (add_shared x p r s). split_and!.
      * sp_run. cbn [snd]. rewrite (proj2 (Z.eqb_neq r 0)) by lia. done.
      * by eapply add_shared_inv.
      * apply lookup_insert_eq.
  - exists s. by split_and!.
Qed.

Lemma due_again (p : Z) (X : gset Z) : p ∉ X -> ({[p]} ∪ X) ∖ {[p]} = X.
Proof. intros Hp. apply set_eq. set_solver. Qed.

Lemma make_step s x :
  sp_inv s -> svars s !! x = None -> room s -> exists s', run_op (OMake x) s = Ret tt s' /\ sp_inv s'.
Proof.
  intros Hi Hx Hroom. exists (fresh_shared x (next s) (add_object s)). split.
  - unfold fresh_shared, add_object. cbn [rcs objs svars wvars del_objs del_rcs next]. destruct (fresh_object s Hi) as (_ & Hd & _).
    rewrite due_again by done. sp_run. cbn [snd next rcs objs svars wvars del_objs del_rcs].
    destruct (i_fresh _ Hi) as [Hn _]. rewrite (proj2 (Z.eqb_neq (next s + 1) 0)) by lia. done.
  - apply fresh_shared_inv; [by apply add_object_inv|done|done|]. cbn [add_object del_objs]. set_solver.
Qed.

Lemma detach_step s x : sp_inv s -> exists s', run_op (ODetach x) s = Ret tt s' /\ sp_inv s'.
Proof.
  intros Hi. shared_var Hi x; [|exists s; split; [|done]; sp_run; by rewrite Hx].
  destruct (1 <? strong s r) eqn:E.
  { exists s. split; [|done]. sp_run. rewrite Hx. cbv iota beta. rewrite Hn1, Hc. cbn [ref_count]. by rewrite E. }
  exists (fresh_shared x p (drop_shared x p r s)). assert (strong s r =? 1 = true) as E1 by lia.
  destruct (i_sv _ Hi _ _ _ Hx) as (_ & Hpd & _). destruct (i_fresh _ Hi) as [Hn _]. split.
  - sp_run. rewrite Hx. cbv iota beta. rewrite Hn1, Hc. cbn [ref_count weak_count]. rewrite E, Hu1, Hu2 by done.
    unfold fresh_shared, drop_shared. cbn [rcs objs svars wvars del_objs del_rcs next]. rewrite E1, insert_delete_eq, due_again by done.
    replace (strong s r + weak s r - 1 =? 0) with (strong s r + weak s r =? 1) by lia.
    destruct (strong s r + weak s r =? 1); cbn [negb snd rcs objs svars wvars del_objs del_rcs next];
      by rewrite (proj2 (Z.eqb_neq (next s) 0)) by lia.
  - apply fresh_shared_inv; [by apply drop_shared_inv|apply lookup_delete_eq| |].
    + unfold room. cbn [drop_shared svars wvars]. pose proof (i_bound _ Hi). rewrite map_size_delete_Some by by eexists.
      assert (size (svars s) <> 0%nat) by (intros He; apply map_size_empty_inv in He; rewrite He in Hx; done). lia.
    + cbn [drop_shared del_objs]. rewrite E1. set_solver.
Qed.

Lemma move_step s x y : move_assign x y s = Ret tt (set_svars (fun m => swapped m x y) s).
Proof. done. Qed.

Lemma del_obj_step s p : sp_inv s -> p ∈ del_objs s -> exists s', run_op (ODelObj p) s = Ret tt s' /\ sp_inv s'.
Proof.
  intros Hi Hp. eexists. split; [|by apply (delete_obj_inv s p)]. sp_run. rewrite decide_True; [done|].
  apply (i_obj _ Hi). by left.
Qed.

Lemma del_rc_step s r : sp_inv s -> r ∈ del_rcs s -> exists s', run_op (ODelRc r) s = Ret tt s' /\ sp_inv s'.
Proof.
  intros Hi Hr. eexists. split; [|by apply (delete_rc_inv s r)]. sp_run.
  pose proof (proj1 (i_del _ Hi r) Hr) as [[c Hc] _]. by rewrite Hc.
Qed.

Lemma step_inv s o : sp_inv s -> allowed s o -> exists s', run_op o s = Ret tt s' /\ sp_inv s'.
Proof.
  intros Hi Ha. destruct o; cbn [allowed] in Ha.
  - destruct Ha. by apply make_step.
  - destruct (release_step s x Hi) as [[Hr _]|(p & r & Hx & Hr)]; rewrite Hr; [by exists s|].
    eexists. split; [done|]. by apply drop_shared_inv.
  - destruct Ha as [Hx Hroom]. destruct (copy_step s x y Hi Hx Hroom) as [[Hr _]|(p & r & Hy & Hr)]; rewrite Hr; [by exists s|].
    eexists. split; [done|]. by eapply add_shared_inv.
  - eexists. split; [apply move_step|]. by apply swap_inv.
  - by apply detach_step.
  - destruct Ha as [Hx Hroom]. destruct (lock_step s x w Hi Hx Hroom) as (s' & Hr & ? & _). eauto.
  - destruct Ha. by apply get_weak_step.
  - destruct Ha. by apply weak_copy_step.
  - destruct (weak_release_step s w Hi) as [[Hr _]|(p & r & Hx & Hr)]; rewrite Hr; [by exists s|].
    eexists. split; [done|]. by eapply drop_weak_inv.
  - by apply del_obj_step.
  - by apply del_rc_step.
Qed.

(** ** Runs *)

(** Changes in some order. *)
Inductive sp_step (s : heap) : heap -> Prop :=
| sp_step_op o s' : allowed s o -> run_op o s = Ret tt s' -> sp_step s s'.

Lemma steps_inv s s' : sp_inv s -> rtc sp_step s s' -> sp_inv s'.
Proof.
  intros Hi Hr. revert Hi. induction Hr as [s1|s1 s2 s3 [o s2' Ha Ho] _ IH]; [done|]. intros Hi. apply IH.
  destruct (step_inv s1 o Hi Ha) as (s'' & Ho' & Hi'). congruence.
Qed.

Lemma step_of s o s' : allowed s o -> run_op o s = Ret tt s' -> rtc sp_step s s'.
Proof. intros Ha Ho. apply rtc_once. by eapply sp_step_op. Qed.

(** ** The operations as the code runs them *)

(** The state after the last use of [x] in [__dec_ref], with its deletions. *)
Definition dropped (x p r : Z) (s : heap) : heap :=
  Heap (if strong s r + weak s r =? 1 then delete r (rcs s)
        else <[r := Refc (strong s r - 1) (strong s r + weak s r - 1)]> (rcs s))
    (if strong s r =? 1 then objs s ∖ {[p]} else objs s) (delete x (svars s)) (wvars s)
    (del_objs s) (del_rcs s) (next s).

Lemma dropped_steps s x p r : sp_inv s -> svars s !! x = Some (p, r) -> rtc sp_step s (dropped x p r s).
Proof.
  intros Hi Hx. destruct (release_step s x Hi) as [[_ Hn]|(p' & r' & Hx' & Hrel)]; [congruence|].
  rewrite Hx in Hx'. simplify_eq. pose proof (drop_shared_inv s x p' r' Hi Hx) as Hi1.
  destruct (i_sv _ Hi _ _ _ Hx) as (Hpo & Hpd & _). pose proof (cnt_pos _ _ _ _ Hx) as Hpos. pose proof (cnt_nonneg (wvars s) r').
  assert (r' ∉ del_rcs s) as Hrd by (intros Hr%(i_del _ Hi); lia).
  etransitivity; [by eapply (step_of s (ORelease x))|]. unfold drop_shared, dropped.
  destruct (strong s r' =? 1) eqn:E1.
  - etransitivity.
    { eapply (step_of _ (ODelObj p')); [cbn [allowed del_objs]; set_solver|]. sp_run. rewrite decide_True by done.
      cbn [rcs objs svars wvars del_objs del_rcs next]. done. }
    rewrite due_again by done. destruct (strong s r' + weak s r' =? 1) eqn:E2; [|done].
    eapply (step_of _ (ODelRc r')); [cbn [allowed del_rcs]; set_solver|]. sp_run. cbn [rcs]. rewrite lookup_insert_eq.
    cbn [rcs objs svars wvars del_objs del_rcs next]. rewrite due_again, delete_insert_eq by done. done.
  - destruct (strong s r' + weak s r' =? 1) eqn:E2; [lia|done].
Qed.

Lemma dec_ref_run s t x p r :
  sp_inv s -> svars s !! x = Some (p, r) ->
  shared_dec_ref None t x s = Ret tt (set_svars (fun _ => svars s) (dropped x p r s)).
Proof.
  intros Hi Hx0. shared_var Hi x; [|congruence]. simplify_eq. destruct (i_sv _ Hi _ _ _ Hx) as (Hpo & _ & _).
  unfold shared_dec_ref. sp_run. rewrite Hx. cbv iota beta. rewrite Hn1, Hx. cbv iota beta. rewrite Hc. cbn [ref_count weak_count]. rewrite Hu1, Hu2 by done.
  replace (strong s r - 1 =? 0) with (strong s r =? 1) by lia.
  replace (strong s r + weak s r - 1 =? 0) with (strong s r + weak s r =? 1) by lia. unfold dropped.
  destruct (strong s r =? 1); cbn [negb rcs objs svars wvars del_objs del_rcs next]; rewrite ?decide_True by done;
    (destruct (strong s r + weak s r =? 1); cbn [negb rcs objs svars wvars del_objs del_rcs next]; [|done]);
    rewrite lookup_insert_eq; cbn [rcs objs svars wvars del_objs del_rcs next]; rewrite delete_insert_eq; done.
Qed.

Lemma dec_ref_null s t x : svars s !! x = None -> shared_dec_ref None t x s = Ret tt s.
Proof. intros Hx. unfold shared_dec_ref. sp_run. by rewrite Hx. Qed.

(** [~shared_ptr]. *)
Lemma destroy_steps s t x :
  sp_inv s -> exists s', shared_destroy None t x s = Ret tt s' /\ rtc sp_step s s' /\
    svars s' = delete x (svars s) /\ wvars s' = wvars s /\ del_objs s' = del_objs s /\ del_rcs s' = del_rcs s.
Proof.
  intros Hi. destruct (svars s !! x) as [[p r]|] eqn:Hx.
  - exists (dropped x p r s). unfold shared_destroy. rewrite (kbind_ret _ _ _ _ _ (dec_ref_run s t x p r Hi Hx)).
    split_and!; try done. by apply dropped_steps.
  - exists s. unfold shared_destroy. rewrite (kbind_ret _ _ _ _ _ (dec_ref_null s t x Hx)).
    split_and!; try done; [|by rewrite delete_id]. sp_run. cbn. rewrite delete_id by done. by destruct s.
Qed.

(** [operator=] of two different variables is [~shared_ptr] followed by a
    copy construction. *)
Lemma put_shared_twice x v s : put_shared x v (set_svars (put_var x (0, 0)) s) = put_shared x v s.
Proof.
  unfold put_shared, kmodify, set_svars. cbn. do 2 f_equal. unfold put_var. destruct (snd v =? 0); cbn.
  - apply delete_delete_eq.
  - apply insert_delete_eq.
Qed.

Lemma assign_run s t x y :
  sp_inv s -> x <> y -> assign None t x y s = kbind (shared_destroy None t x) (fun _ => run_op (OCopy x y)) s.
Proof.
  intros Hi Hne. unfold assign, shared_reset, shared_destroy. rewrite <- kbind_assoc.
  assert (forall s0 : heap, svars s0 = svars s ->
    (let '(p, r) := default (0, 0) (svars s !! y) in
     put_shared x (p, r) ;;; (if (p =? 0) || (r =? 0) then kret tt else inc_ref r)) s0 =
    (put_shared x (0, 0) ;;; run_op (OCopy x y)) s0) as Hcopy.
  { intros s0 Hs. unfold run_op. unfold kbind at 2. unfold put_shared at 2, kmodify. unfold kbind at 2, the_shared.
    cbn [set_svars svars]. rewrite Hs. unfold put_var at 1. cbn [snd Z.eqb]. rewrite lookup_delete_ne by done.
    destruct (default (0, 0) (svars s !! y)) as [p r]. unfold kbind. by rewrite put_shared_twice. }
  unfold kbind at 1, the_shared. destruct (svars s !! x) as [[p r]|] eqn:Hx.
  - rewrite (kbind_ret _ _ _ _ _ (dec_ref_run s t x p r Hi Hx)), <- Hcopy by done.
    destruct (default (0, 0) (svars s !! y)) as [p' r']. by rewrite (kbind_ret _ _ _ _ _ (dec_ref_run s t x p r Hi Hx)).
  - rewrite (kbind_ret _ _ _ _ _ (dec_ref_null s t x Hx)), <- Hcopy by done.
    destruct (default (0, 0) (svars s !! y)) as [p' r']. by rewrite (kbind_ret _ _ _ _ _ (dec_ref_null s t x Hx)).
Qed.

Lemma room_less s s' x : room s -> svars s' = delete x (svars s) -> wvars s' = wvars s -> room s'.
Proof.
  unfold room. intros Hr -> ->. pose proof (map_subseteq_size (delete x (svars s)) (svars s) (delete_subseteq _ _)). lia.
Qed.

Lemma assign_steps s t x y :
  sp_inv s -> room s -> x <> y -> exists s', assign None t x y s = Ret tt s' /\ rtc sp_step s s' /\
    svars s' = put_var x (default (0, 0) (svars s !! y)) (svars s) /\ del_objs s' = del_objs s /\ del_rcs s' = del_rcs s.
Proof.
  intros Hi Hroom Hne. rewrite assign_run by done. destruct (destroy_steps s t x Hi) as (s1 & Hd & Hs & Hv & Hw & Ho & Hr).
  rewrite (kbind_ret _ _ _ _ _ Hd). pose proof (steps_inv s s1 Hi Hs) as Hi1. pose proof (room_less s s1 x Hroom Hv Hw) as Hroom1.
  assert (svars s1 !! x = None) as Hx by (rewrite Hv; apply lookup_delete_eq).
  assert (svars s1 !! y = svars s !! y) as Hy by (rewrite Hv; by apply lookup_delete_ne).
  destruct (copy_step s1 x y Hi1 Hx Hroom1) as [[Hc Hn]|(p & r & Hp & Hc)]; rewrite Hc.
  - exists s1. split_and!; try done. by rewrite <- Hy, Hn, Hv.
  - exists (add_shared x p r s1). split_and!; try done.
    + etransitivity; [done|]. by eapply (step_of s1 (OCopy x y)).
    + cbn [add_shared svars]. rewrite <- Hy, Hp, Hv. cbn. unfold put_var. cbn [snd].
      destruct (null_or_rc s1 y p r Hi1 Hp) as [_ ->]. apply insert_delete_eq.
Qed.

(** [lock] changes no variable but its target. *)
Lemma lock_frame s x w s' z : lock x w s = Ret tt s' -> z <> x -> svars s' !! z = svars s !! z.
Proof.
  intros Hl Hz. unfold lock, reset_weak in Hl. apply kbind_inv_ret in Hl as ([p r] & s1 & [= _ <-] & Hl).
  assert (forall v s1, put_shared x v s1 = Ret tt s' -> svars s' !! z = svars s1 !! z) as Hput.
  { intros v s1 [= <-]. cbn [set_svars svars]. rewrite put_var_lookup. by case_decide. }
  destruct (r =? 0); [by apply Hput in Hl|]. apply kbind_inv_ret in Hl as (ok & s1 & Ht & Hl). apply Hput in Hl as ->.
  apply kbind_inv_ret in Ht as (c & s2 & Hc & Ht). unfold the_rc in Hc.
  destruct (rcs s !! r); simplify_eq.
  destruct (ref_count c =? 0); [by injection Ht as _ <-|]. by apply kbind_inv_ret in Ht as (? & ? & [= _ <-] & [= _ <-]).
Qed.

(** [~weak_ptr]. *)
Definition dropped_weak (w r : Z) (s : heap) : heap :=
  Heap (if strong s r + weak s r =? 1 then delete r (rcs s)
        else <[r := Refc (strong s r) (strong s r + weak s r - 1)]> (rcs s))
    (objs s) (svars s) (delete w (wvars s)) (del_objs s) (del_rcs s) (next s).

Lemma weak_dec_ref_run s w p r :
  sp_inv s -> wvars s !! w = Some (p, r) -> weak_dec_ref w s = Ret tt (set_wvars (fun _ => wvars s) (dropped_weak w r s)).
Proof.
  intros Hi Hx. destruct (weak_rc s w p r Hi Hx) as (c & Hc & Hr & _). pose proof (cnt_pos _ _ _ _ Hx).
  pose proof (cnt_nonneg (svars s) r). destruct (block_counts s r c Hi Hc ltac:(lia)) as (-> & Hu1 & _ & _).
  unfold weak_dec_ref. sp_run. rewrite Hx. cbv iota beta. rewrite (proj2 (Z.eqb_neq r 0)) by lia. rewrite Hc.
  cbn [ref_count weak_count snd fst]. rewrite Hu1. unfold dropped_weak.
  replace (strong s r + weak s r - 1 =? 0) with (strong s r + weak s r =? 1) by lia.
  destruct (strong s r + weak s r =? 1); cbn [rcs objs svars wvars del_objs del_rcs next]; [|done].
  rewrite lookup_insert_eq; cbn [rcs objs svars wvars del_objs del_rcs next]; rewrite delete_insert_eq; done.
Qed.

Lemma dropped_weak_steps s w p r : sp_inv s -> wvars s !! w = Some (p, r) -> rtc sp_step s (dropped_weak w r s).
Proof.
  intros Hi Hx. destruct (weak_release_step s w Hi) as [[_ Hn]|(p' & r' & Hx' & Hrel)]; [congruence|].
  rewrite Hx in Hx'. simplify_eq. pose proof (cnt_pos _ _ _ _ Hx) as Hpos. pose proof (cnt_nonneg (svars s) r').
  assert (r' ∉ del_rcs s) as Hrd by (intros Hr%(i_del _ Hi); lia).
  etransitivity; [by eapply (step_of s (OWeakRelease w))|]. unfold drop_weak, dropped_weak.
  destruct (strong s r' + weak s r' =? 1) eqn:E2; [|done].
  eapply (step_of _ (ODelRc r')); [cbn [allowed del_rcs]; set_solver|]. sp_run. cbn [rcs]. rewrite lookup_insert_eq.
  cbn [rcs objs svars wvars del_objs del_rcs next]. rewrite due_again, delete_insert_eq by done. done.
Qed.

Lemma weak_destroy_steps s w :
  sp_inv s -> exists s', weak_destroy w s = Ret tt s' /\ rtc sp_step s s' /\
    svars s' = svars s /\ wvars s' = delete w (wvars s) /\ del_objs s' = del_objs s /\ del_rcs s' = del_rcs s.
Proof.
  intros Hi. unfold weak_destroy. destruct (wvars s !! w) as [[p r]|] eqn:Hx.
  - exists (dropped_weak w r s). rewrite (kbind_ret _ _ _ _ _ (weak_dec_ref_run s w p r Hi Hx)).
    split_and!; try done. by eapply dropped_weak_steps.
  - exists s. split_and!; try done; [|by rewrite delete_id]. unfold weak_dec_ref. sp_run. rewrite Hx. cbn.
    rewrite delete_id by done. by destruct s.
Qed.

(** [try_detach_weak] on the last reference: a new block for the object, and
    the old one deleted if no [weak_ptr] has it. *)
Lemma detach_run s x p r :
  sp_inv s -> svars s !! x = Some (p, r) ->
  strong s r = 1 /\ (exists s', try_detach_weak x s = Ret true s' /\ rtc sp_step s s' /\ svars s' = <[x := (p, next s)]> (svars s) /\
    wvars s' = wvars s /\ del_objs s' = del_objs s /\ del_rcs s' = del_rcs s) \/
  1 < strong s r /\ try_detach_weak x s = Ret false s.
Proof.
  intros Hi Hx0. shared_var Hi x; [|congruence]. simplify_eq. destruct (i_fresh _ Hi) as [Hn _].
  destruct (1 <? strong s r) eqn:E; [right|left]; (split; [lia|]).
  { unfold try_detach_weak. sp_run. rewrite Hx. cbv iota beta. rewrite Hn1, Hc. cbn [ref_count]. by rewrite E. }
  destruct (detach_step s x Hi) as (s1 & Hd & Hi1). revert Hd.
  unfold try_detach_weak. sp_run. rewrite !Hx. cbv iota beta. rewrite Hn1, Hc. cbn [ref_count weak_count]. rewrite E, Hu1, Hu2 by done.
  replace (strong s r + weak s r - 1 =? 0) with (strong s r + weak s r =? 1) by lia.
  assert (r ∉ del_rcs s) as Hrd by (intros Hr%(i_del _ Hi); lia). intros Hd.
  assert (rtc sp_step s s1) as Hs1.
  { apply (step_of s (ODetach x)); [done|]. rewrite <- Hd. sp_run. rewrite !Hx. cbv iota beta. rewrite Hn1, Hc.
    cbn [ref_count weak_count]. rewrite E, Hu1, Hu2 by done.
    by replace (strong s r + weak s r - 1 =? 0) with (strong s r + weak s r =? 1) by lia. }
  assert (r <> next s) as Hrn by (pose proof (i_rc _ Hi r _ Hc); lia).
  assert (next s =? 0 = false) as Hn0 by lia.
  destruct (strong s r + weak s r =? 1); cbn [negb snd rcs objs svars wvars del_objs del_rcs next] in *; rewrite ?lookup_insert_eq;
    cbn [negb snd rcs objs svars wvars del_objs del_rcs next]; rewrite Hn0 in Hd |- *.
  - injection Hd as <-. eexists. split; [done|]. split_and!; try done. etransitivity; [done|].
    eapply (step_of _ (ODelRc r)); [cbn [allowed del_rcs]; set_solver|]. sp_run. cbn [rcs].
    rewrite lookup_insert_ne, lookup_insert_eq by done. cbn [rcs objs svars wvars del_objs del_rcs next].
    rewrite due_again, delete_insert_ne by done. done.
  - injection Hd as <-. eexists. split; [done|]. by split_and!.
Qed.

(** With a hook, [__dec_ref] of the last reference calls it on a [weak_ptr] to
    the detached object, then drops the reference. *)
Definition run_hook (f : Z -> K heap unit) (temp x : Z) : K heap unit :=
  '(ptr, ref_count) <- the_shared x ;;
  put_weak temp (0, 0) ;;;
  weak_reset temp ptr ref_count ;;;
  f temp ;;;
  weak_destroy temp.

Lemma dec_ref_hook s f temp x p r :
  sp_inv s -> svars s !! x = Some (p, r) ->
  shared_dec_ref (Some f) temp x s =
  kbind (try_detach_weak x) (fun detached =>
    kbind (if detached : bool then run_hook f temp x else kret tt) (fun _ =>
    '(ptr, ref_count) <- the_shared x ;;
    '(ref, weak) <- dec_ref ref_count ;;
    (if ref : bool then kret tt else delete_obj ptr) ;;;
    (if weak : bool then kret tt else delete_rc ref_count))) s.
Proof.
  intros Hi Hx. destruct (null_or_rc s x p r Hi Hx) as [Hn1 _]. unfold shared_dec_ref. unfold kbind at 1, the_shared at 1.
  rewrite Hx. cbn [default from_option id]. rewrite Hn1, <- kbind_assoc. done.
Qed.

Lemma dec_ref_rest s temp x p r :
  sp_inv s -> svars s !! x = Some (p, r) ->
  ('(ptr, ref_count) <- the_shared x ;;
   '(ref, weak) <- dec_ref ref_count ;;
   (if ref : bool then kret tt else delete_obj ptr) ;;;
   (if weak : bool then kret tt else delete_rc ref_count)) s = shared_dec_ref None temp x s.
Proof.
  intros Hi Hx. destruct (null_or_rc s x p r Hi Hx) as [Hn1 _]. unfold shared_dec_ref. unfold kbind at 4, the_shared at 2.
  rewrite Hx. cbn [default from_option id]. rewrite Hn1. done.
Qed.

Lemma run_hook_steps s (f : Z -> K heap unit) temp x p r :
  sp_inv s -> svars s !! x = Some (p, r) -> wvars s !! temp = None -> room s ->
  (forall s1, sp_inv s1 -> svars s1 = svars s -> wvars s1 = <[temp := (p, r)]> (wvars s) ->
    exists s2, f temp s1 = Ret tt s2 /\ rtc sp_step s1 s2 /\ svars s2 !! x = Some (p, r)) ->
  exists s', run_hook f temp x s = Ret tt s' /\ rtc sp_step s s' /\ svars s' !! x = Some (p, r).
Proof.
  intros Hi Hx Hw Hroom Hf. destruct (null_or_rc s x p r Hi Hx) as [_ Hn2]. destruct (shared_rc s x p r Hi Hx) as (c & Hc & _).
  pose proof (cnt_pos _ _ _ _ Hx). pose proof (cnt_nonneg (wvars s) r).
  assert (point_weak temp p r s = Ret tt (add_weak temp p r s)) as Hp by (eapply point_weak_step; by eauto with lia).
  destruct (get_weak_step s temp x Hi Hw Hroom) as (s1 & Hg & Hi1).
  assert (run_op (OGetWeak temp x) s = Ret tt (add_weak temp p r s)) as Hg'.
  { rewrite <- Hp. cbn [run_op]. unfold kbind at 1, the_shared. by rewrite Hx. }
  rewrite Hg' in Hg. injection Hg as <-. destruct (Hf (add_weak temp p r s) Hi1 eq_refl eq_refl) as (s2 & Hf2 & Hs2 & Hx2).
  assert (rtc sp_step s (add_weak temp p r s)) as Hs1 by by eapply (step_of s (OGetWeak temp x)).
  destruct (weak_destroy_steps s2 temp) as (s3 & Hd & Hs3 & Hv3 & _); [by eapply steps_inv|].
  exists s3. split; [|split; [by do 2 (etransitivity; [done|])|by rewrite Hv3]].
  unfold run_hook. unfold kbind at 1, the_shared. rewrite Hx. cbn [default from_option id].
  assert (put_weak temp (0, 0) s = Ret tt s) as Hnull by (sp_run; cbn; rewrite (delete_id _ _ Hw); by destruct s).
  rewrite (kbind_ret _ _ _ _ _ Hnull). unfold weak_reset.
  assert (weak_dec_ref temp s = Ret tt s) as Hn by (unfold weak_dec_ref; sp_run; by rewrite Hw).
  rewrite <- kbind_assoc, (kbind_ret _ _ _ _ _ Hn). fold (point_weak temp p r). rewrite (kbind_ret _ _ _ _ _ Hp).
  by rewrite (kbind_ret _ _ _ _ _ Hf2).
Qed.

(** A state with one object and one pointer. *)
Definition one_pointer : heap := match run_op (OMake 7) empty_heap with Ret _ s => s | _ => empty_heap end.

Lemma one_pointer_reachable : rtc sp_step empty_heap one_pointer.
Proof. apply (step_of _ (OMake 7)); [split; [done|by vm_compute]|done]. Qed.

(** A null pointer has no counter block for [__reset_weak] to look at. *)
Lemma convert_null s x y : sp_inv s -> svars s !! y = None -> convert x y s = Panic.
Proof.
  intros Hi Hy. unfold convert, reset_weak, try_inc_ref, the_rc, kbind, the_shared. rewrite Hy. cbn.
  destruct (rcs s !! 0) as [c|] eqn:E; [|done]. apply (i_rc _ Hi) in E. lia.
Qed.

(** ** Theorems *)

(** A [shared_ptr] and a [weak_ptr] that go out of scope, and an assignment
    of one [shared_ptr] to another, return; they do what some steps do, leave
    no deletion undone and change only the variable they are called on. *)
Theorem operations_are_steps s t x y w :
  rtc sp_step empty_heap s -> room s -> x <> y ->
  (exists s', shared_destroy None t x s = Ret tt s' /\ rtc sp_step s s' /\
    svars s' = delete x (svars s) /\ del_objs s' = del_objs s /\ del_rcs s' = del_rcs s) /\
  (exists s', weak_destroy w s = Ret tt s' /\ rtc sp_step s s' /\
    wvars s' = delete w (wvars s) /\ del_objs s' = del_objs s /\ del_rcs s' = del_rcs s) /\
  (exists s', assign None t x y s = Ret tt s' /\ rtc sp_step s s' /\
    svars s' = put_var x (default (0, 0) (svars s !! y)) (svars s) /\ del_objs s' = del_objs s /\ del_rcs s' = del_rcs s).
Proof.
  intros Hr Hroom Hne. pose proof (steps_inv _ _ empty_inv Hr) as Hi. split_and!.
  - destruct (destroy_steps s t x Hi) as (s' & ? & ? & ? & _ & ? & ?). by exists s'.
  - destruct (weak_destroy_steps s w Hi) as (s' & ? & ? & _ & ? & ? & ?). by exists s'.
  - by apply assign_steps.
Qed.

Lemma operations_are_steps_witness :
  exists s', assign None 9 8 7 one_pointer = Ret tt s' /\
    svars s' !! 8 = Some (1, 2).
Proof.
  destruct (operations_are_steps one_pointer 9 8 7 5)
    as (_ & _ & s' & Ha & _ & Hv & _).
  - apply one_pointer_reachable.
  - by vm_compute.
  - done.
  - exists s'. split; [done|]. rewrite Hv. done.
Defined.

(** A [shared_ptr] that is the last one for its object must not be
    assigned to itself: [__reset] deletes the object and then counts a
    reference to it, in a freed block or with the variable left dangling. *)
Theorem self_assign_last s t x p r :
  rtc sp_step empty_heap s -> svars s !! x = Some (p, r) -> strong s r = 1 ->
  if weak s r =? 0 then assign None t x x s = Panic
  else exists s', assign None t x x s = Ret tt s' /\ svars s' !! x = Some (p, r) /\ p ∉ objs s'.
Proof.
  intros Hr Hx H1. pose proof (steps_inv _ _ empty_inv Hr) as Hi. destruct (null_or_rc s x p r Hi Hx) as [Hn1 Hn2].
  assert (assign None t x x s = shared_reset None t x p r s) as ->.
  { unfold assign, kbind at 1, the_shared. by rewrite Hx. }
  unfold shared_reset. destruct (weak s r =? 0) eqn:E; rewrite (kbind_ret _ _ _ _ _ (dec_ref_run s t x p r Hi Hx)); unfold dropped.
  - rewrite (proj2 (Z.eqb_eq (strong s r + weak s r) 1)) by lia. sp_run. cbn [snd]. rewrite Hn1, Hn2. cbn [rcs].
    by rewrite lookup_delete_eq.
  - rewrite (proj2 (Z.eqb_neq (strong s r + weak s r) 1)), (proj2 (Z.eqb_eq (strong s r) 1)) by lia. sp_run. cbn [snd].
    rewrite Hn1, Hn2. cbn [rcs]. rewrite lookup_insert_eq. eexists. split; [done|]. cbn [svars objs]. rewrite lookup_insert_eq.
    split; [done|set_solver].
Qed.

Lemma self_assign_last_witness :
  assign None 9 7 7 one_pointer = Panic.
Proof.
  exact (self_assign_last one_pointer 9 7 1 2 one_pointer_reachable eq_refl eq_refl).
Defined.

(** A [shared_ptr] to an object with an [on_destroy] hook goes out of scope.
    For the last reference the hook runs while the object is alive and may make
    pointers to it again; the destructor returns in a state that steps of the
    pointers lead to, so an object that the hook has given a new owner lives on
    and any other one is freed. *)
Theorem destroy_with_hook s (f : Z -> K heap unit) temp x :
  rtc sp_step empty_heap s -> room s -> wvars s !! temp = None ->
  (forall s1 p r, sp_inv s1 -> svars s1 = <[x := (p, r)]> (svars s) -> wvars s1 = <[temp := (p, r)]> (wvars s) ->
    exists s2, f temp s1 = Ret tt s2 /\ rtc sp_step s1 s2 /\ svars s2 !! x = Some (p, r)) ->
  exists s', shared_destroy (Some f) temp x s = Ret tt s' /\ rtc sp_step s s' /\ svars s' !! x = None /\
    forall p, p ∈ objs s' -> p ∈ del_objs s' \/ exists y r, svars s' !! y = Some (p, r).
Proof.
  intros Hr Hroom Hw Hf. pose proof (steps_inv _ _ empty_inv Hr) as Hi.
  assert (exists s1, rtc sp_step s s1 /\ shared_dec_ref (Some f) temp x s = shared_dec_ref None temp x s1) as (s1 & Hs1 & Hd1).
  { destruct (svars s !! x) as [[p r]|] eqn:Hx.
    2:{ exists s. split; [done|]. unfold shared_dec_ref. sp_run. by rewrite Hx. }
    rewrite (dec_ref_hook s f temp x p r Hi Hx). destruct (detach_run s x p r Hi Hx) as [[_ (s1 & Hd & Hs1 & Hv & Hw1 & _)]|[_ Hd]];
      rewrite (kbind_ret _ _ _ _ _ Hd).
    - pose proof (steps_inv s s1 Hi Hs1) as Hi1. assert (svars s1 !! x = Some (p, next s)) as Hx1 by (rewrite Hv; apply lookup_insert_eq).
      destruct (run_hook_steps s1 f temp x p (next s) Hi1 Hx1) as (s2 & Hh & Hs2 & Hx2).
      + by rewrite Hw1.
      + unfold room. rewrite Hv, Hw1, map_size_insert_Some by by eexists. done.
      + intros s2 Hi2 Hv2 Hw2. apply (Hf s2 p (next s) Hi2); congruence.
      + exists s2. split; [by etransitivity|]. rewrite (kbind_ret _ _ _ _ _ Hh). apply (dec_ref_rest s2 temp x p (next s)); [|done].
        by eapply (steps_inv s1).
    - exists s. split; [done|]. by apply (dec_ref_rest s temp x p r). }
  destruct (destroy_steps s1 temp x) as (s2 & Hd2 & Hs2 & Hv2 & _); [by eapply (steps_inv s)|].
  exists s2. assert (rtc sp_step s s2) as Hs by by etransitivity. split_and!; [|done|rewrite Hv2; apply lookup_delete_eq|].
  - rewrite <- Hd2. unfold shared_destroy, kbind. by rewrite Hd1.
  - intros q. by apply (i_obj _ (steps_inv s s2 Hi Hs)).
Qed.

(** The hook locks the object into the variable 8, where it stays. *)
Lemma destroy_with_hook_witness :
  exists s', shared_destroy (Some (lock 8)) 9 7 one_pointer = Ret tt s' /\ svars s' !! 7 = None.
Proof.
  destruct (destroy_with_hook one_pointer (lock 8) 9 7) as (s' & Hd & _ & Hx & _);
    [apply one_pointer_reachable|by vm_compute|done| |by exists s'].
  intros s1 p r Hi Hv Hw. assert (allowed s1 (OLock 8 9)) as Ha.
  { split; [by rewrite Hv|]. unfold room. rewrite Hv, Hw. by vm_compute. }
  destruct (lock_step s1 8 9 Hi (proj1 Ha) (proj2 Ha)) as (s2 & Hl & Hi2 & H8). exists s2. split; [done|].
  split; [by eapply (step_of s1 (OLock 8 9))|]. rewrite (lock_frame s1 8 9 s2 7 Hl) by done. rewrite Hv. apply lookup_insert_eq.
Defined.
