(* ===== verification/SharedSteps.v ===== *)
(** * Shared pointers on several cores (src/os/utils/shared_ptr.h)

    Each core runs one operation of [shared_ptr] or [weak_ptr] at a time, in the
    steps of the code: [operator=] reads the members of its source, then
    [__dec_ref] counts the target down, deletes what was last, the members of the
    target are set and only then [__inc_ref] counts it up.  The target keeps its
    old members until they are overwritten.  The steps of all cores interleave in
    any order.  A core that nobody interrupts runs the operations as SharedPtr has
    them ([alone_is_sequential]); types without [on_destroy] are meant.

    The rule for programs is the one of every C++ object: while an operation runs,
    nobody else uses the variable that it changes, and nobody changes the variable
    that it reads; an operation's target is not its source.  Different variables
    for one object, on different cores, are the case that the counters are for.
    [copy_races_detach] shows what happens to a program that breaks the rule. *)
From S2P Require Import Prelude SharedPtr.

(** ** Operations under way *)

Inductive var := SV (x : Z) | WV (w : Z).
#[export] Instance var_eq_dec : EqDecision var.
Proof. solve_decision. Defined.

Definition member (v : var) (h : heap) : option (Z * Z) :=
  match v with SV x => svars h !! x | WV w => wvars h !! w end.

(** What the target of an operation shall hold: nothing, a new object, or the
    members that were read from the source. *)
Inductive goal := GNull | GNew (p : Z) | GCopy (y p r : Z).
Inductive wgoal := WGNull | WGCopy (src : var) (p r : Z).

(** The operation of a core and the step that is next. *)
Inductive job :=
| Idle
| SDec (x : Z) (k : goal)
| SDel (x : Z) (obj blk : option Z) (k : goal)
| SPut (x : Z) (k : goal)
| SInc (x y p r : Z)
| SDetach (x : Z)
| SDetached (x p : Z) (blk : option Z)
| SLock (x w p r : Z)
| WDec (w : Z) (k : wgoal)
| WDel (w : Z) (blk : option Z) (k : wgoal)
| WPut (w : Z) (k : wgoal)
| WInc (w : Z) (src : var) (p r : Z)
| Count (src : var) (r : Z).

Definition step_job (j : job) : K heap job :=
  match j with
  | Idle => kret Idle
  | SDec x k =>
      '(p, r) <- the_shared x ;;
      if (p =? 0) || (r =? 0) then kret (SPut x k)
      else
        '(ref, weak) <- dec_ref r ;;
        kret (SDel x (if ref : bool then None else Some p) (if weak : bool then None else Some r) k)
  | SDel x (Some p) blk k => delete_obj p ;;; kret (SDel x None blk k)
  | SDel x None (Some r) k => delete_rc r ;;; kret (SPut x k)
  | SDel x None None k => kret (SPut x k)
  | SPut x GNull => put_shared x (0, 0) ;;; kret Idle
  | SPut x (GNew p) => r <- new_rc ;; put_shared x (p, r) ;;; kret Idle
  | SPut x (GCopy y p r) => put_shared x (p, r) ;;; kret (if (p =? 0) || (r =? 0) then Idle else SInc x y p r)
  | SInc _ _ _ r => inc_ref r ;;; kret Idle
  | SDetach x =>
      '(p, r) <- the_shared x ;;
      if (p =? 0) || (r =? 0) then kret Idle
      else
        '(detach, destroy) <- try_dec_ref r ;;
        kret (if detach : bool then SDetached x p (if destroy : bool then Some r else None) else Idle)
  | SDetached x p (Some r) => delete_rc r ;;; kret (SDetached x p None)
  | SDetached x p None => r <- new_rc ;; put_shared x (p, r) ;;; kret Idle
  | SLock x _ _ r =>
      ok <- try_inc_ref r ;;
      (if ok : bool then kret tt else put_shared x (0, 0)) ;;;
      kret Idle
  | WDec w k =>
      '(_, r) <- the_weak w ;;
      if r =? 0 then kret (WPut w k)
      else
        n <- dec_weak r ;;
        kret (WDel w (if n =? 0 then Some r else None) k)
  | WDel w (Some r) k => delete_rc r ;;; kret (WPut w k)
  | WDel w None k => kret (WPut w k)
  | WPut w WGNull => put_weak w (0, 0) ;;; kret Idle
  | WPut w (WGCopy src p r) => put_weak w (p, r) ;;; kret (if r =? 0 then Idle else WInc w src p r)
  | WInc _ _ _ r => inc_weak r ;;; kret Idle
  | Count _ r => get_ref r ;;; kret Idle
  end.

(** The operations.  [CDestroy] is the destructor, and [reset] without argument;
    [CCopy] is [operator=] and, on a null variable, the copy constructor; [CMove]
    swaps two variables that nobody else uses. *)
Inductive call :=
| CMake (x : Z) | CDestroy (x : Z) | CCopy (x y : Z) | CMove (x y : Z) | CDetach (x : Z) | CUseCount (x : Z)
| CLock (x w : Z) | CGetWeak (w x : Z) | CWeakCopy (w v : Z) | CWeakDestroy (w : Z) | CExpired (w : Z).

(** Up to the first step: the members of the source are read. *)
Definition start (cl : call) : K heap job :=
  match cl with
  | CMake x => p <- new_obj ;; kret (SDec x (GNew p))
  | CDestroy x => kret (SDec x GNull)
  | CCopy x y => '(p, r) <- the_shared y ;; kret (SDec x (GCopy y p r))
  | CMove x y => move_assign x y ;;; kret Idle
  | CDetach x => kret (SDetach x)
  | CUseCount x => '(_, r) <- the_shared x ;; kret (if r =? 0 then Idle else Count (SV x) r)
  | CLock x w =>
      '(p, r) <- the_weak w ;;
      if r =? 0 then kret Idle else put_shared x (p, r) ;;; kret (SLock x w p r)
  | CGetWeak w x => '(p, r) <- the_shared x ;; kret (WDec w (WGCopy (SV x) p r))
  | CWeakCopy w v => '(p, r) <- the_weak v ;; kret (WDec w (WGCopy (WV v) p r))
  | CWeakDestroy w => kret (WDec w WGNull)
  | CExpired w => '(_, r) <- the_weak w ;; kret (if r =? 0 then Idle else Count (WV w) r)
  end.

(** ** All cores *)

Record fine := Fine { fh : heap; jobs : Z -> job }.

Definition upd_job (c : Z) (j : job) (f : Z -> job) : Z -> job := fun c' => if decide (c' = c) then j else f c'.

Definition on_core (c : Z) (m : K heap job) : K fine unit := fun f =>
  match m (fh f) with
  | Ret j h => Ret tt (Fine h (upd_job c j (jobs f)))
  | TaskFail h => TaskFail (Fine h (jobs f))
  | Panic => Panic
  | OutOfFuel => OutOfFuel
  end.

Definition advance (c : Z) : K fine unit := fun f => on_core c (step_job (jobs f c)) f.
Definition begin (c : Z) (cl : call) : K fine unit := on_core c (start cl).

(** The variables that an operation changes and reads. *)
Definition goal_reads (k : goal) : list var := match k with GCopy y _ _ => [SV y] | _ => [] end.
Definition wgoal_reads (k : wgoal) : list var := match k with WGCopy src _ _ => [src] | WGNull => [] end.

Definition writes (j : job) : list var :=
  match j with
  | Idle | Count _ _ => []
  | SDec x _ | SDel x _ _ _ | SPut x _ | SInc x _ _ _ | SDetach x | SDetached x _ _ | SLock x _ _ _ => [SV x]
  | WDec w _ | WDel w _ _ | WPut w _ | WInc w _ _ _ => [WV w]
  end.
Definition reads (j : job) : list var :=
  match j with
  | Idle | SDetach _ | SDetached _ _ _ => []
  | SDec _ k | SDel _ _ _ k | SPut _ k => goal_reads k
  | SInc _ y _ _ => [SV y]
  | SLock _ w _ _ => [WV w]
  | WDec _ k | WDel _ _ k | WPut _ k => wgoal_reads k
  | WInc _ src _ _ | Count src _ => [src]
  end.
Definition call_writes (cl : call) : list var :=
  match cl with
  | CMake x | CDestroy x | CCopy x _ | CDetach x | CLock x _ => [SV x]
  | CMove x y => [SV x; SV y]
  | CGetWeak w _ | CWeakCopy w _ | CWeakDestroy w => [WV w]
  | CUseCount _ | CExpired _ => []
  end.
Definition call_reads (cl : call) : list var :=
  match cl with
  | CCopy _ y => [SV y]
  | CLock _ w => [WV w]
  | CGetWeak _ x | CUseCount x => [SV x]
  | CWeakCopy _ v => [WV v]
  | CExpired w => [WV w]
  | _ => []
  end.

(** The rule for programs: see above.  [lock] constructs its result. *)
Record may_begin (f : fine) (c : Z) (cl : call) : Prop := {
  mb_idle : jobs f c = Idle;
  mb_self : forall v, v ∈ call_writes cl -> v ∉ call_reads cl;
  mb_writes : forall c' v, v ∈ call_writes cl -> v ∉ writes (jobs f c') /\ v ∉ reads (jobs f c');
  mb_reads : forall c' v, v ∈ call_reads cl -> v ∉ writes (jobs f c');
  mb_new : match cl with CLock x _ => svars (fh f) !! x = None | _ => True end
}.

(** There is no room in memory for 2 ^ 32 pointer variables. *)
Definition fits (h : heap) : Prop := Z.of_nat (size (svars h)) + Z.of_nat (size (wvars h)) < 2 ^ 32.

Inductive fine_step (f : fine) : fine -> Prop :=
| fine_begin c cl f' : may_begin f c cl -> begin c cl f = Ret tt f' -> fits (fh f') -> fine_step f f'
| fine_advance c f' : advance c f = Ret tt f' -> fits (fh f') -> fine_step f f'.

Definition no_pointers : fine := Fine empty_heap (fun _ => Idle).

(** How many steps an operation still has. *)
Definition left (j : job) : nat :=
  match j with
  | Idle => 0
  | SInc _ _ _ _ | SLock _ _ _ _ | WInc _ _ _ _ | Count _ _ | SDetached _ _ None => 1
  | SPut _ _ | WPut _ _ | SDetached _ _ (Some _) => 2
  | SDel _ None _ _ | WDel _ _ _ | SDetach _ => 3
  | SDel _ (Some _) _ _ | WDec _ _ => 4
  | SDec _ _ => 5
  end.

(** ** One core alone *)

Fixpoint finish (n : nat) (j : job) : K heap unit :=
  match j with
  | Idle => kret tt
  | _ => match n with O => kfuel | S n' => j' <- step_job j ;; finish n' j' end
  end.

(** What is left of an operation after [__dec_ref]. *)
Definition put_rest (x : Z) (k : goal) : K heap unit :=
  match k with
  | GNull => put_shared x (0, 0)
  | GNew p => r <- new_rc ;; put_shared x (p, r)
  | GCopy _ p r => put_shared x (p, r) ;;; if (p =? 0) || (r =? 0) then kret tt else inc_ref r
  end.

Lemma finish_put n x k s : (2 <= n)%nat -> finish n (SPut x k) s = put_rest x k s.
Proof.
  intros Hn. destruct n as [|[|n]]; [lia..|]. destruct k as [|p|y p r]; cbn [finish step_job put_rest].
  - unfold kbind, kret. by destruct (put_shared x (0, 0) s) as [[] s1| | |].
  - unfold kbind. destruct (new_rc s) as [r s1| | |]; [|done..]. by destruct (put_shared x (p, r) s1) as [[] s2| | |].
  - unfold kbind. destruct (put_shared x (p, r) s) as [[] s1| | |]; [|done..]. unfold kret. destruct ((p =? 0) || (r =? 0)); [done|].
    cbn [finish step_job]. unfold kbind, kret. destruct (inc_ref r s1) as [[] s2| | |]; [|done..]. by destruct n.
Qed.

Lemma finish_step n j s : j <> Idle -> finish (S n) j s = kbind (step_job j) (finish n) s.
Proof. by destruct j. Qed.

Lemma finish_del n x obj blk k s : (4 <= n)%nat ->
  finish n (SDel x obj blk k) s = (match obj with Some p => delete_obj p | None => kret tt end ;;; match blk with Some r => delete_rc r | None => kret tt end ;;; put_rest x k) s.
Proof.
  intros Hn. destruct n as [|[|n]]; [lia..|]. rewrite finish_step by done. unfold kbind. destruct obj as [p|]; cbn [step_job].
  - unfold kbind. destruct (delete_obj p s) as [[] s1| | |]; [|done..]. unfold kret at 1. rewrite finish_step by done. unfold kbind. destruct blk as [r|]; cbn [step_job].
    + unfold kbind. destruct (delete_rc r s1) as [[] s2| | |]; [|done..]. apply finish_put. lia.
    + apply finish_put. lia.
  - destruct blk as [r|]; cbn [step_job].
    + unfold kbind, kret at 2. destruct (delete_rc r s) as [[] s2| | |]; [|done..]. apply finish_put. lia.
    + apply finish_put. lia.
Qed.

(** Without interruption the steps are [__dec_ref] and what comes after it. *)
Lemma finish_dec t x k s : finish 5 (SDec x k) s = (shared_dec_ref None t x ;;; put_rest x k) s.
Proof.
  rewrite finish_step by done. cbn [step_job]. unfold shared_dec_ref, kbind, the_shared. destruct (default (0, 0) (svars s !! x)) as [p r] eqn:E.
  destruct ((p =? 0) || (r =? 0)); [apply finish_put; lia|]. unfold kret at 2. rewrite E.
  destruct (dec_ref r s) as [[ref weak] s1| | |]; [|done..]. unfold kret at 1. rewrite finish_del by lia. unfold kbind, kret. destruct ref, weak; cbn match;
    [done|by destruct (delete_rc r s1) as [[] s2| | |]|by destruct (delete_obj p s1) as [[] s2| | |]|destruct (delete_obj p s1) as [[] s2| | |]; [|done..]; by destruct (delete_rc r s2) as [[] s3| | |]].
Qed.

(** So a core that nobody interrupts runs the operations as SharedPtr has them. *)
Lemma alone_is_sequential t x y s :
  (j <- start (CDestroy x) ;; finish 5 j) s = shared_destroy None t x s /\
  (j <- start (CCopy x y) ;; finish 5 j) s = assign None t x y s /\
  (j <- start (CMake x) ;; finish 5 j) s = (p <- new_obj ;; shared_dec_ref None t x ;;; r <- new_rc ;; put_shared x (p, r)) s.
Proof.
  split_and!; cbn [start].
  - exact (finish_dec t x GNull s).
  - unfold assign. unfold kbind at 1 2 3, the_shared. destruct (default (0, 0) (svars s !! y)) as [p r]. exact (finish_dec t x (GCopy y p r) s).
  - unfold new_obj. exact (finish_dec t x (GNew (next s)) _).
Qed.

(** ** What the counters count *)

(** The variables that the counters do not count: their old reference is gone, the
    new one is not there yet. *)
Definition hidden (j : job) : list var :=
  match j with
  | SDel x _ _ _ | SPut x _ | SInc x _ _ _ | SDetached x _ _ | SLock x _ _ _ => [SV x]
  | WDel w _ _ | WPut w _ | WInc w _ _ _ => [WV w]
  | _ => []
  end.

(** The objects and blocks that an operation has to itself: to be deleted, or to be
    handed to its target. *)
Definition goal_obj (k : goal) : list Z := match k with GNew p => [p] | _ => [] end.
Definition own_objs (j : job) : list Z :=
  match j with
  | SDec _ k | SPut _ k => goal_obj k
  | SDel _ obj _ k => option_list obj ++ goal_obj k
  | SDetached _ p _ => [p]
  | _ => []
  end.
Definition own_rcs (j : job) : list Z :=
  match j with SDel _ _ blk _ | SDetached _ _ blk | WDel _ blk _ => option_list blk | _ => [] end.

(** The values that an operation has read are still those of its source. *)
Definition goal_ok (h : heap) (k : goal) : Prop := match k with GCopy y p r => default (0, 0) (svars h !! y) = (p, r) | _ => True end.
Definition wgoal_ok (h : heap) (k : wgoal) : Prop := match k with WGCopy src p r => default (0, 0) (member src h) = (p, r) | WGNull => True end.
Definition job_ok (h : heap) (j : job) : Prop :=
  match j with
  | Idle | SDetach _ | SDetached _ _ _ => True
  | SDec _ k | SDel _ _ _ k | SPut _ k => goal_ok h k
  | SInc x y p r => svars h !! y = Some (p, r) /\ svars h !! x = Some (p, r)
  | SLock x w p r => wvars h !! w = Some (p, r) /\ svars h !! x = Some (p, r)
  | WDec _ k | WDel _ _ k | WPut _ k => wgoal_ok h k
  | WInc w src p r => member src h = Some (p, r) /\ wvars h !! w = Some (p, r)
  | Count src r => exists p, member src h = Some (p, r)
  end.

Lemma job_ok_ext h h' j : (forall v, v ∈ writes j \/ v ∈ reads j -> member v h' = member v h) -> job_ok h j -> job_ok h' j.
Proof.
  intros Hv. assert (forall k, (forall v, v ∈ goal_reads k -> member v h' = member v h) -> goal_ok h k -> goal_ok h' k) as Hg.
  { intros [|p|y p r] Hk; cbn [goal_ok]; [done..|]. by rewrite (Hk (SV y) ltac:(by left) : svars h' !! y = svars h !! y). }
  assert (forall k, (forall v, v ∈ wgoal_reads k -> member v h' = member v h) -> wgoal_ok h k -> wgoal_ok h' k) as Hw.
  { intros [|src p r] Hk; cbn [wgoal_ok]; [done|]. by rewrite (Hk src ltac:(by left)). }
  destruct j; cbn [job_ok writes reads] in *; try done; try (apply Hg; intros v Hin; apply Hv; by right); try (apply Hw; intros v Hin; apply Hv; by right).
  - rewrite (Hv (SV x) ltac:(left; by left) : svars h' !! x = svars h !! x). by rewrite (Hv (SV y) ltac:(right; by left) : svars h' !! y = svars h !! y).
  - rewrite (Hv (SV x) ltac:(left; by left) : svars h' !! x = svars h !! x). by rewrite (Hv (WV w) ltac:(right; by left) : wvars h' !! w = wvars h !! w).
  - rewrite (Hv (WV w) ltac:(left; by left) : wvars h' !! w = wvars h !! w). by rewrite (Hv src ltac:(right; by left)).
  - by rewrite (Hv src ltac:(right; by left)).
Qed.

(** The heap [a] has the variables that are counted; objects and blocks that some
    operation has to itself are due for deletion in it. *)
Record covers (f : fine) (a : heap) : Prop := {
  co_inv : sp_inv a;
  co_same : rcs a = rcs (fh f) /\ objs a = objs (fh f) /\ next a = next (fh f);
  co_var : forall v u, member v a = Some u <-> member v (fh f) = Some u /\ forall c, v ∉ hidden (jobs f c);
  co_obj : forall p, p ∈ del_objs a <-> exists c, p ∈ own_objs (jobs f c);
  co_rc : forall r, r ∈ del_rcs a <-> exists c, r ∈ own_rcs (jobs f c);
  co_objs : forall c c' p, p ∈ own_objs (jobs f c) -> p ∈ own_objs (jobs f c') -> c = c';
  co_rcs : forall c c' r, r ∈ own_rcs (jobs f c) -> r ∈ own_rcs (jobs f c') -> c = c';
  co_nodup : forall c, NoDup (own_objs (jobs f c));
  co_excl : forall c c' v, c <> c' -> v ∈ writes (jobs f c) -> v ∉ writes (jobs f c') /\ v ∉ reads (jobs f c');
  co_self : forall c v, v ∈ writes (jobs f c) -> v ∉ reads (jobs f c);
  co_job : forall c, job_ok (fh f) (jobs f c)
}.

Lemma hidden_writes j v : v ∈ hidden j -> v ∈ writes j.
Proof. destruct j; cbn; try done; by intros ?%elem_of_nil. Qed.

Lemma upd_job_eq c j f : upd_job c j f c = j.
Proof. unfold upd_job. by rewrite decide_True. Qed.
Lemma upd_job_ne c c' j f : c' <> c -> upd_job c j f c' = f c'.
Proof. intros Hc. unfold upd_job. by rewrite decide_False. Qed.

(** A step of the core [c] that touches the variables [W] only. *)
Record moves (f : fine) (a : heap) (c : Z) (W : list var) (h' : heap) (j' : job) (a' : heap) : Prop := {
  mv_inv : sp_inv a';
  mv_same : rcs a' = rcs h' /\ objs a' = objs h' /\ next a' = next h';
  mv_frame : forall v, v ∉ W -> member v h' = member v (fh f) /\ member v a' = member v a;
  mv_var : forall v, v ∈ W -> member v a' = if decide (v ∈ hidden j') then None else member v h';
  mv_writes : forall v, v ∈ hidden (jobs f c) \/ v ∈ writes j' -> v ∈ W;
  mv_alone : forall c' v, c' <> c -> v ∈ W -> v ∉ writes (jobs f c') /\ v ∉ reads (jobs f c');
  mv_reads : forall c' v, c' <> c -> v ∈ reads j' -> v ∉ writes (jobs f c');
  mv_self : forall v, v ∈ writes j' -> v ∉ reads j';
  mv_obj : forall p, p ∈ del_objs a' <-> p ∈ del_objs a /\ p ∉ own_objs (jobs f c) \/ p ∈ own_objs j';
  mv_new : forall p, p ∈ own_objs j' -> p ∈ own_objs (jobs f c) \/ p ∉ del_objs a;
  mv_nodup : NoDup (own_objs j');
  mv_rc : forall r, r ∈ del_rcs a' <-> r ∈ del_rcs a /\ r ∉ own_rcs (jobs f c) \/ r ∈ own_rcs j';
  mv_new_rc : forall r, r ∈ own_rcs j' -> r ∈ own_rcs (jobs f c) \/ r ∉ del_rcs a;
  mv_job : job_ok h' j'
}.

(** Lists of things that belong to one core each, one of which changes its list. *)
Lemma own_moves (X X' : gset Z) (own : Z -> list Z) c l l' :
  own c = l -> (forall p, p ∈ X <-> exists d, p ∈ own d) -> (forall d d' p, p ∈ own d -> p ∈ own d' -> d = d') ->
  (forall p, p ∈ X' <-> p ∈ X /\ p ∉ l \/ p ∈ l') -> (forall p, p ∈ l' -> p ∈ l \/ p ∉ X) ->
  (forall p, p ∈ X' <-> exists d, p ∈ (if decide (d = c) then l' else own d)) /\
  (forall d d' p, p ∈ (if decide (d = c) then l' else own d) -> p ∈ (if decide (d' = c) then l' else own d') -> d = d').
Proof.
  intros <- HX Honce HX' Hnew. split.
  - intros p. rewrite HX', HX. split.
    + intros [[[d Hd] Hn]|Hp]; [|exists c; by rewrite decide_True]. exists d. rewrite decide_False; [done|]. by intros ->.
    + intros [d Hd]. case_decide as E; [by right|]. left. split; [by exists d|]. intros Hp. by apply E, (Honce d c p).
  - intros d d' p Hd Hd'. destruct (decide (d = c)) as [->|], (decide (d' = c)) as [->|]; [done| | |by eapply Honce].
    + destruct (Hnew p Hd) as [Hp|Hp]; [by apply (Honce c d' p)|destruct Hp; apply HX; by exists d'].
    + destruct (Hnew p Hd') as [Hp|Hp]; [by apply (Honce d c p)|destruct Hp; apply HX; by exists d].
Qed.

Lemma own_upd {A} (g : job -> list A) c j' (js : Z -> job) d : g (upd_job c j' js d) = if decide (d = c) then g j' else g (js d).
Proof. unfold upd_job. by case_decide. Qed.

Lemma covers_moves f a c W h' j' a' : covers f a -> moves f a c W h' j' a' -> covers (Fine h' (upd_job c j' (jobs f))) a'.
Proof.
  intros Hc Hm. destruct (own_moves (del_objs a) (del_objs a') (fun d => own_objs (jobs f d)) c _ (own_objs j') eq_refl (co_obj _ _ Hc) (co_objs _ _ Hc) (mv_obj _ _ _ _ _ _ _ Hm) (mv_new _ _ _ _ _ _ _ Hm)) as [Ho Ho'].
  destruct (own_moves (del_rcs a) (del_rcs a') (fun d => own_rcs (jobs f d)) c _ (own_rcs j') eq_refl (co_rc _ _ Hc) (co_rcs _ _ Hc) (mv_rc _ _ _ _ _ _ _ Hm) (mv_new_rc _ _ _ _ _ _ _ Hm)) as [Hr Hr'].
  split; cbn [fh jobs].
  - exact (mv_inv _ _ _ _ _ _ _ Hm).
  - exact (mv_same _ _ _ _ _ _ _ Hm).
  - intros v u. destruct (decide (v ∈ W)) as [Hv|Hv].
    + rewrite (mv_var _ _ _ _ _ _ _ Hm v Hv). case_decide as Hh.
      * split; [done|]. intros [_ Hn]. specialize (Hn c). by rewrite upd_job_eq in Hn.
      * split; [|tauto]. intros Hu. split; [done|]. intros d. destruct (decide (d = c)) as [->|Hd]; [by rewrite upd_job_eq|].
        rewrite upd_job_ne by done. intros Hin%hidden_writes. by destruct (mv_alone _ _ _ _ _ _ _ Hm d v Hd Hv).
    + destruct (mv_frame _ _ _ _ _ _ _ Hm v Hv) as [-> ->]. rewrite (co_var _ _ Hc). apply and_iff_compat_l. split; intros Hn d; specialize (Hn d).
      * destruct (decide (d = c)) as [->|Hd]; [|by rewrite upd_job_ne]. rewrite upd_job_eq. intros Hin%hidden_writes.
        apply Hv, (mv_writes _ _ _ _ _ _ _ Hm). by right.
      * destruct (decide (d = c)) as [->|Hd]; [|by rewrite upd_job_ne in Hn]. intros Hin. apply Hv, (mv_writes _ _ _ _ _ _ _ Hm). by left.
  - intros p. rewrite Ho. setoid_rewrite own_upd. done.
  - intros r. rewrite Hr. setoid_rewrite own_upd. done.
  - intros d d' p. rewrite !own_upd. apply Ho'.
  - intros d d' r. rewrite !own_upd. apply Hr'.
  - intros d. rewrite own_upd. case_decide; [exact (mv_nodup _ _ _ _ _ _ _ Hm)|apply (co_nodup _ _ Hc)].
  - intros d d' v Hne. rewrite !own_upd. destruct (decide (d = c)) as [->|], (decide (d' = c)) as [->|]; [done| | |by apply (co_excl _ _ Hc)].
    + intros Hv. apply (mv_alone _ _ _ _ _ _ _ Hm); [congruence|]. apply (mv_writes _ _ _ _ _ _ _ Hm). by right.
    + intros Hv. split; intros Hv'; [|by eapply (mv_reads _ _ _ _ _ _ _ Hm d v)].
      apply (proj1 (mv_alone _ _ _ _ _ _ _ Hm d v ltac:(done) (mv_writes _ _ _ _ _ _ _ Hm v (or_intror Hv')))), Hv.
  - intros d v. rewrite !own_upd. case_decide; [apply (mv_self _ _ _ _ _ _ _ Hm)|apply (co_self _ _ Hc)].
  - intros d. destruct (decide (d = c)) as [->|Hd]; [rewrite upd_job_eq; exact (mv_job _ _ _ _ _ _ _ Hm)|]. rewrite upd_job_ne by done.
    apply (job_ok_ext (fh f)); [|apply (co_job _ _ Hc)]. intros v Hv. destruct (decide (v ∈ W)) as [Hin|Hin]; [|apply (mv_frame _ _ _ _ _ _ _ Hm v Hin)].
    destruct (mv_alone _ _ _ _ _ _ _ Hm d v Hd Hin). tauto.
Qed.

(** ** Reading the state of a step off the counters *)

Section facts.
Context {f : fine} {a : heap} (Hc : covers f a).
Local Notation h := (fh f).

Lemma shown_member v : (forall c, v ∉ hidden (jobs f c)) -> member v a = member v h.
Proof.
  intros Hn. apply option_eq. intros u. rewrite (co_var _ _ Hc). tauto.
Qed.

Lemma own_shown c v : v ∈ writes (jobs f c) -> v ∉ hidden (jobs f c) -> member v a = member v h.
Proof.
  intros Hw Hn. apply shown_member. intros d Hd. destruct (decide (d = c)) as [->|Hne]; [done|]. apply hidden_writes in Hd.
  by destruct (co_excl _ _ Hc c d v).
Qed.

Lemma read_shown c v : v ∈ reads (jobs f c) -> member v a = member v h.
Proof.
  intros Hr. apply shown_member. intros d Hd%hidden_writes. destruct (decide (d = c)) as [->|Hne]; [by apply (co_self _ _ Hc c v)|].
  by destruct (co_excl _ _ Hc d c v).
Qed.

Lemma hidden_none c v : v ∈ hidden (jobs f c) -> member v a = None.
Proof. intros Hv. destruct (member v a) as [u|] eqn:E; [|done]. apply (co_var _ _ Hc) in E as [_ Hn]. by apply Hn in Hv. Qed.

Lemma own_due c p : p ∈ own_objs (jobs f c) -> p ∈ del_objs a.
Proof. intros Hp. apply (co_obj _ _ Hc). by exists c. Qed.
Lemma own_rc_due c r : r ∈ own_rcs (jobs f c) -> r ∈ del_rcs a.
Proof. intros Hp. apply (co_rc _ _ Hc). by exists c. Qed.

(** The counted variables are some of the variables. *)
Lemma vars_sub : svars a ⊆ svars h /\ wvars a ⊆ wvars h.
Proof. split; apply map_subseteq_spec; intros x u Hu; [apply (co_var _ _ Hc (SV x) u) in Hu|apply (co_var _ _ Hc (WV x) u) in Hu]; apply Hu. Qed.

Lemma sub_delete (m m' : gmap Z (Z * Z)) x : m ⊆ m' -> m !! x = None -> (size m <= size (delete x m'))%nat.
Proof.
  intros Hs Hx. apply map_subseteq_size. apply map_subseteq_spec. intros z u Hz. apply lookup_delete_Some. split; [congruence|].
  by eapply lookup_weaken.
Qed.

Lemma insert_size (m : gmap Z (Z * Z)) x u : size (<[x := u]> m) = S (size (delete x m)).
Proof. rewrite <- insert_delete_eq. by rewrite map_size_insert_None by apply lookup_delete_eq. Qed.

Lemma room_shared x u h' : svars a !! x = None -> fits h' -> svars h' = <[x := u]> (svars h) -> wvars h' = wvars h -> room a.
Proof.
  intros Hx Hf Hs Hw. unfold fits in Hf. rewrite Hs, Hw, insert_size in Hf. destruct vars_sub as [H1 H2].
  pose proof (sub_delete _ _ x H1 Hx). pose proof (map_subseteq_size _ _ H2). unfold room. lia.
Qed.
Lemma room_weak w u h' : wvars a !! w = None -> fits h' -> svars h' = svars h -> wvars h' = <[w := u]> (wvars h) -> room a.
Proof.
  intros Hx Hf Hs Hw. unfold fits in Hf. rewrite Hs, Hw, insert_size in Hf. destruct vars_sub as [H1 H2].
  pose proof (sub_delete _ _ w H2 Hx). pose proof (map_subseteq_size _ _ H1). unfold room. lia.
Qed.

(** What a core that goes on has to show. *)
Lemma moves_shared c x h' j' a' :
  writes (jobs f c) = [SV x] -> (writes j' = [SV x] \/ writes j' = []) -> (forall v, v ∈ reads j' -> v ∈ reads (jobs f c)) ->
  sp_inv a' -> rcs a' = rcs h' /\ objs a' = objs h' /\ next a' = next h' ->
  wvars h' = wvars h -> wvars a' = wvars a -> (forall z, z <> x -> svars h' !! z = svars h !! z /\ svars a' !! z = svars a !! z) ->
  svars a' !! x = match hidden j' with [] => svars h' !! x | _ :: _ => None end ->
  (forall p, p ∈ del_objs a' <-> p ∈ del_objs a /\ p ∉ own_objs (jobs f c) \/ p ∈ own_objs j') ->
  (forall p, p ∈ own_objs j' -> p ∈ own_objs (jobs f c) \/ p ∉ del_objs a) -> NoDup (own_objs j') ->
  (forall r, r ∈ del_rcs a' <-> r ∈ del_rcs a /\ r ∉ own_rcs (jobs f c) \/ r ∈ own_rcs j') ->
  (forall r, r ∈ own_rcs j' -> r ∈ own_rcs (jobs f c) \/ r ∉ del_rcs a) -> job_ok h' j' ->
  moves f a c (writes (jobs f c)) h' j' a'.
Proof.
  intros Hw Hw' Hr Hi Hs Hwh Hwa Hz Hx Ho On Od Ro Rn Hj. rewrite Hw.
  assert (forall v, v ∈ writes j' -> v ∈ writes (jobs f c)) as Hsub by (rewrite Hw; destruct Hw' as [-> | ->]; [done|by intros v ?%elem_of_nil]).
  assert (hidden j' = [] \/ hidden j' = [SV x]) as Hh.
  { destruct j'; cbn [hidden writes] in *; (by left) || (right; destruct Hw' as [[=]|[=]]; by subst). }
  split; try done.
  - intros [z|w] Hv; cbn [member]; [apply Hz; intros ->; apply Hv; by left|by rewrite Hwh, Hwa].
  - intros v ->%list_elem_of_singleton. cbn [member]. rewrite Hx. destruct Hh as [-> | ->]; [rewrite decide_False by apply not_elem_of_nil|rewrite decide_True by (by left)]; done.
  - intros v [Hv%hidden_writes|Hv%Hsub]; by rewrite Hw in Hv.
  - intros c' v Hne Hv. rewrite <- Hw in Hv. by apply (co_excl _ _ Hc c c' v).
  - intros c' v Hne Hv%Hr Hv'. by destruct (co_excl _ _ Hc c' c v).
  - intros v Hv%Hsub Hv'%Hr. by apply (co_self _ _ Hc c v).
Qed.

Lemma moves_weak c x h' j' a' :
  writes (jobs f c) = [WV x] -> (writes j' = [WV x] \/ writes j' = []) -> (forall v, v ∈ reads j' -> v ∈ reads (jobs f c)) ->
  sp_inv a' -> rcs a' = rcs h' /\ objs a' = objs h' /\ next a' = next h' ->
  svars h' = svars h -> svars a' = svars a -> (forall z, z <> x -> wvars h' !! z = wvars h !! z /\ wvars a' !! z = wvars a !! z) ->
  wvars a' !! x = match hidden j' with [] => wvars h' !! x | _ :: _ => None end ->
  del_objs a' = del_objs a -> own_objs (jobs f c) = [] -> own_objs j' = [] ->
  (forall r, r ∈ del_rcs a' <-> r ∈ del_rcs a /\ r ∉ own_rcs (jobs f c) \/ r ∈ own_rcs j') ->
  (forall r, r ∈ own_rcs j' -> r ∈ own_rcs (jobs f c) \/ r ∉ del_rcs a) -> job_ok h' j' ->
  moves f a c (writes (jobs f c)) h' j' a'.
Proof.
  intros Hw Hw' Hr Hi Hs Hwh Hwa Hz Hx Ho O1 O2 Ro Rn Hj. rewrite Hw.
  assert (forall v, v ∈ writes j' -> v ∈ writes (jobs f c)) as Hsub by (rewrite Hw; destruct Hw' as [-> | ->]; [done|by intros v ?%elem_of_nil]).
  assert (hidden j' = [] \/ hidden j' = [WV x]) as Hh.
  { destruct j'; cbn [hidden writes] in *; (by left) || (right; destruct Hw' as [[=]|[=]]; by subst). }
  split; try done.
  - intros [z|w] Hv; cbn [member]; [by rewrite Hwh, Hwa|apply Hz; intros ->; apply Hv; by left].
  - intros v ->%list_elem_of_singleton. cbn [member]. rewrite Hx. destruct Hh as [-> | ->]; [rewrite decide_False by apply not_elem_of_nil|rewrite decide_True by (by left)]; done.
  - intros v [Hv%hidden_writes|Hv%Hsub]; by rewrite Hw in Hv.
  - intros c' v Hne Hv. rewrite <- Hw in Hv. by apply (co_excl _ _ Hc c c' v).
  - intros c' v Hne Hv%Hr Hv'. by destruct (co_excl _ _ Hc c' c v).
  - intros v Hv%Hsub Hv'%Hr. by apply (co_self _ _ Hc c v).
  - intros p. rewrite Ho, O1, O2. set_solver.
  - rewrite O2. by intros p ?%elem_of_nil.
  - rewrite O2. constructor.
Qed.
End facts.

(** What a core owns stays, grows by one thing, or loses one. *)
Lemma keep_own (X : gset Z) (l : list Z) : (forall p, p ∈ l -> p ∈ X) -> forall p, p ∈ X <-> p ∈ X /\ p ∉ l \/ p ∈ l.
Proof. intros Hl p. destruct (decide (p ∈ l)); naive_solver. Qed.
Lemma add_own (X : gset Z) (l : list Z) q : (forall p, p ∈ l -> p ∈ X) -> forall p, p ∈ {[q]} ∪ X <-> p ∈ X /\ p ∉ l \/ p ∈ q :: l.
Proof. intros Hl p. rewrite elem_of_union, elem_of_singleton, elem_of_cons. destruct (decide (p ∈ l)); naive_solver. Qed.
Lemma drop_own (X : gset Z) (l : list Z) q : q ∉ l -> (forall p, p ∈ q :: l -> p ∈ X) -> forall p, p ∈ X ∖ {[q]} <-> p ∈ X /\ p ∉ q :: l \/ p ∈ l.
Proof.
  intros Hq Hl p. rewrite elem_of_difference, elem_of_singleton, elem_of_cons. assert (p ∈ l -> p ∈ X) by (intros; apply Hl; by right).
  destruct (decide (p ∈ l)); [|naive_solver]. split; [by right|]. intros _. split; [tauto|]. congruence.
Qed.

(** ** Every step of a core *)

Section steps.
Context {f : fine} {a : heap} (Hc : covers f a) (c : Z).
Local Notation h := (fh f).

(** The core's next step is made, and leaves one step less to do. *)
Definition goes_on : Prop :=
  exists j' h', step_job (jobs f c) h = Ret j' h' /\ (left j' < left (jobs f c))%nat /\
    (fits h -> fits h' -> exists a', moves f a c (writes (jobs f c)) h' j' a').

Local Notation Hi := (co_inv _ _ Hc).

Lemma own_objs_due k : own_objs (jobs f c) = k -> forall p, p ∈ k -> p ∈ del_objs a.
Proof. intros <- p. apply (own_due Hc). Qed.
Lemma own_rcs_due k : own_rcs (jobs f c) = k -> forall r, r ∈ k -> r ∈ del_rcs a.
Proof. intros <- r. apply (own_rc_due Hc). Qed.

(** The variable, with the counters of its block. *)
Lemma shared_shown x : svars a !! x = svars h !! x ->
  svars h !! x = None /\ default (0, 0) (svars h !! x) = (0, 0) \/
  exists p r, svars h !! x = Some (p, r) /\ svars a !! x = Some (p, r) /\ (p =? 0) || (r =? 0) = false /\ (r =? 0) = false /\
    rcs h !! r = Some (Refc (strong a r) (strong a r + weak a r)) /\ 0 < strong a r /\
    u32 (strong a r - 1) = strong a r - 1 /\ u32 (strong a r + weak a r - 1) = strong a r + weak a r - 1.
Proof.
  intros Hx. destruct (svars h !! x) as [[p r]|] eqn:E; [right|by left]. exists p, r. destruct (null_or_rc a x p r Hi Hx) as [Hn1 Hn2].
  destruct (shared_rc a x p r Hi Hx) as (b & Hb & _). pose proof (cnt_pos _ _ _ _ Hx) as Hpos. pose proof (cnt_nonneg (wvars a) r).
  destruct (block_counts a r b Hi Hb ltac:(lia)) as (-> & Hu1 & Hu2 & _). destruct (co_same _ _ Hc) as (<- & _). split_and!; try done. by apply Hu2.
Qed.

Lemma weak_shown w : wvars a !! w = wvars h !! w ->
  wvars h !! w = None /\ default (0, 0) (wvars h !! w) = (0, 0) \/
  exists p r, wvars h !! w = Some (p, r) /\ wvars a !! w = Some (p, r) /\ (r =? 0) = false /\
    rcs h !! r = Some (Refc (strong a r) (strong a r + weak a r)) /\ 0 < weak a r /\
    u32 (strong a r + weak a r - 1) = strong a r + weak a r - 1.
Proof.
  intros Hx. destruct (wvars h !! w) as [[p r]|] eqn:E; [right|by left]. exists p, r.
  destruct (weak_rc a w p r Hi Hx) as (b & Hb & Hr & _). pose proof (cnt_pos _ _ _ _ Hx) as Hpos. pose proof (cnt_nonneg (svars a) r).
  destruct (block_counts a r b Hi Hb ltac:(lia)) as (-> & Hu1 & _ & _). destruct (co_same _ _ Hc) as (<- & _). split_and!; try done. lia.
Qed.

Lemma dec_step x k : jobs f c = SDec x k -> goes_on.
Proof.
  intros Hj. pose proof Hi as Hia. pose proof (co_same _ _ Hc) as (S1 & S2 & S3). pose proof (co_job _ _ Hc c) as Hok. rewrite Hj in Hok. cbn [job_ok] in Hok.
  assert (svars a !! x = svars h !! x) as Hx by (apply (own_shown Hc c (SV x)); rewrite Hj; [by left|apply not_elem_of_nil]).
  pose proof (own_objs_due (goal_obj k) ltac:(by rewrite Hj)) as Hdue. pose proof (co_nodup _ _ Hc c) as Hnd. rewrite Hj in Hnd. cbn [own_objs] in Hnd.
  destruct (shared_shown x Hx) as [[Hn Hd]|(p & r & Hp & Hpa & Hn1 & Hn2 & Hr & Hpos & Hu1 & Hu2)].
  - exists (SPut x k), h. split; [|split; [rewrite Hj; cbn; lia|intros _ _; exists a]].
    + rewrite Hj. cbn [step_job]. unfold kbind, the_shared. rewrite Hd. done.
    + apply (moves_shared Hc c x); rewrite ?Hj; cbn [writes reads hidden own_objs own_rcs]; try done; [by left|congruence|by apply keep_own|by left|set_solver|set_solver].
  - set (c' := Refc (strong a r - 1) (strong a r + weak a r - 1)).
    set (j' := SDel x (if strong a r =? 1 then Some p else None) (if strong a r + weak a r =? 1 then Some r else None) k).
    destruct (i_sv _ Hi _ _ _ Hpa) as (_ & Hpd & _). pose proof (cnt_nonneg (wvars a) r).
    assert (r ∉ del_rcs a) as Hrd by (intros Hd%(i_del _ Hi); lia).
    exists j', (set_rcs (<[r := c']>) h). split; [|split; [rewrite Hj; unfold j'; destruct (strong a r =? 1); cbn; lia|intros _ _; exists (drop_shared x p r a)]].
    + rewrite Hj. cbn [step_job]. unfold kbind, the_shared. rewrite Hp. cbn [default from_option id]. rewrite Hn1.
      unfold dec_ref, the_rc, set_rc, kbind, kmodify, kret. rewrite Hr. cbn [ref_count weak_count]. rewrite Hu1, Hu2. fold c'. unfold j'.
      replace (strong a r - 1 =? 0) with (strong a r =? 1) by lia. replace (strong a r + weak a r - 1 =? 0) with (strong a r + weak a r =? 1) by lia.
      by destruct (strong a r =? 1), (strong a r + weak a r =? 1).
    + apply (moves_shared Hc c x); rewrite ?Hj; unfold j'; cbn [writes reads hidden own_objs own_rcs]; try done.
      * by left.
      * by apply drop_shared_inv.
      * cbn [drop_shared set_rcs rcs objs next]. by rewrite S1, S2, S3.
      * intros z Hz. split; [done|]. apply lookup_delete_ne. congruence.
      * apply lookup_delete_eq.
      * cbn [drop_shared del_objs]. destruct (strong a r =? 1); [by apply add_own|by apply keep_own].
      * intros q. destruct (strong a r =? 1); cbn; [|by left]. rewrite elem_of_cons. intros [->|]; [by right|by left].
      * destruct (strong a r =? 1); cbn; [|done]. constructor; [|done]. intros Hin. by apply Hpd, Hdue.
      * cbn [drop_shared del_rcs]. destruct (strong a r + weak a r =? 1); [by apply (add_own _ []); intros ? ?%elem_of_nil|set_solver].
      * intros q. destruct (strong a r + weak a r =? 1); cbn; [|by intros ?%elem_of_nil]. intros ->%list_elem_of_singleton. by right.
Qed.

(** Deletions. *)
Definition without_obj (p : Z) (s : heap) : heap := Heap (rcs s) (objs s ∖ {[p]}) (svars s) (wvars s) (del_objs s ∖ {[p]}) (del_rcs s) (next s).
Definition without_rc (r : Z) (s : heap) : heap := Heap (delete r (rcs s)) (objs s) (svars s) (wvars s) (del_objs s) (del_rcs s ∖ {[r]}) (next s).

Lemma delete_obj_run p : p ∈ del_objs a -> delete_obj p h = Ret tt (Heap (rcs h) (objs h ∖ {[p]}) (svars h) (wvars h) (del_objs h) (del_rcs h) (next h)).
Proof.
  intros Hp. unfold delete_obj, kbind, kget. rewrite decide_True; [done|]. destruct (co_same _ _ Hc) as (_ & <- & _). apply (i_obj _ Hi). by left.
Qed.
Lemma delete_rc_run r : r ∈ del_rcs a -> delete_rc r h = Ret tt (set_rcs (delete r) h).
Proof.
  intros Hr. unfold delete_rc, kbind, the_rc. pose proof (proj1 (i_del _ Hi r) Hr) as [[b Hb] _]. destruct (co_same _ _ Hc) as (S1 & _). rewrite S1 in Hb. by rewrite Hb.
Qed.

Lemma del_step x obj blk k : jobs f c = SDel x obj blk k -> goes_on.
Proof.
  intros Hj. pose proof Hi as Hia. pose proof (co_same _ _ Hc) as (S1 & S2 & S3). pose proof (co_job _ _ Hc c) as Hok. rewrite Hj in Hok. cbn [job_ok] in Hok.
  assert (svars a !! x = None) as Hx by (apply (hidden_none Hc c (SV x)); rewrite Hj; by left).
  pose proof (own_objs_due _ ltac:(rewrite Hj; reflexivity)) as Hdue. pose proof (own_rcs_due _ ltac:(rewrite Hj; reflexivity)) as Hrdue.
  pose proof (co_nodup _ _ Hc c) as Hnd. rewrite Hj in Hnd. cbn [own_objs own_rcs] in *.
  destruct obj as [p|]; [|destruct blk as [r|]]; cbn in Hnd, Hdue, Hrdue.
  - apply NoDup_cons in Hnd as [Hpk Hnd]. assert (p ∈ del_objs a) as Hp by (apply Hdue; by left).
    eexists (SDel x None blk k), _. rewrite Hj. split; [cbn [step_job]; unfold kbind; by rewrite (delete_obj_run p Hp)|split; [cbn; lia|intros _ _; exists (without_obj p a)]].
    rewrite <- Hj. apply (moves_shared Hc c x); rewrite ?Hj; cbn [writes reads hidden own_objs own_rcs without_obj rcs objs svars wvars del_objs del_rcs next]; try done.
    + by left.
    + by apply delete_obj_inv.
    + by rewrite S1, S2, S3.
    + by apply drop_own.
    + intros q Hq. left. by right.
    + by apply keep_own.
    + by left.
  - assert (r ∈ del_rcs a) as Hr by (apply Hrdue; by left).
    eexists (SPut x k), _. rewrite Hj. split; [cbn [step_job]; unfold kbind; by rewrite (delete_rc_run r Hr)|split; [cbn; lia|intros _ _; exists (without_rc r a)]].
    rewrite <- Hj. apply (moves_shared Hc c x); rewrite ?Hj; cbn [writes reads hidden own_objs own_rcs without_rc set_rcs rcs objs svars wvars del_objs del_rcs next]; try done.
    + by left.
    + by apply delete_rc_inv.
    + by rewrite S1, S2, S3.
    + by apply keep_own.
    + by left.
    + apply (drop_own _ []); [apply not_elem_of_nil|done].
    + by intros q ?%elem_of_nil.
  - exists (SPut x k), h. rewrite Hj. split; [done|split; [cbn; lia|intros _ _; exists a]]. rewrite <- Hj.
    apply (moves_shared Hc c x); rewrite ?Hj; cbn [writes reads hidden own_objs own_rcs]; try done; [by left|by apply keep_own|by left|set_solver|set_solver].
Qed.

(** A new block for an object that the core has to itself. *)
Lemma fresh_moves x p : writes (jobs f c) = [SV x] -> hidden (jobs f c) = [SV x] -> own_objs (jobs f c) = [p] -> own_rcs (jobs f c) = [] ->
  exists h', (r <- new_rc ;; put_shared x (p, r) ;;; kret Idle) h = Ret Idle h' /\ (fits h' -> exists a', moves f a c (writes (jobs f c)) h' Idle a').
Proof.
  intros Hw Hh Ho Hr. pose proof Hi as Hia. pose proof (co_same _ _ Hc) as (S1 & S2 & S3). destruct (i_fresh _ Hi) as [Hn _].
  assert (svars a !! x = None) as Hx by (apply (hidden_none Hc c (SV x)); rewrite Hh; by left).
  assert (p ∈ del_objs a) as Hp by (apply (own_objs_due [p] Ho); by left).
  eexists. split.
  { unfold new_rc, put_shared, put_var, set_svars, kbind, kget, kmodify, kret. cbn [snd next rcs objs svars wvars del_objs del_rcs].
    rewrite <- S3. rewrite (proj2 (Z.eqb_neq (next a) 0)) by lia. reflexivity. }
  intros Hf. exists (fresh_shared x p a). assert (room a) as Hroom by by eapply (room_shared Hc x (p, next a)).
  apply (moves_shared Hc c x); rewrite ?Hw, ?Ho, ?Hr; cbn [writes reads hidden own_objs own_rcs fresh_shared rcs objs svars wvars del_objs del_rcs next]; try done.
  - by right.
  - by intros v ?%elem_of_nil.
  - by apply fresh_shared_inv.
  - by rewrite S1, S2.
  - intros z Hz. by rewrite !lookup_insert_ne by congruence.
  - by rewrite !lookup_insert_eq.
  - apply (drop_own _ []); [apply not_elem_of_nil|]. by intros q ->%list_elem_of_singleton.
  - by intros q ?%elem_of_nil.
  - constructor.
  - set_solver.
  - by intros q ?%elem_of_nil.
Qed.

(** The target becomes null; it was not counted. *)
Lemma null_moves x : writes (jobs f c) = [SV x] -> hidden (jobs f c) = [SV x] -> own_objs (jobs f c) = [] -> own_rcs (jobs f c) = [] ->
  moves f a c (writes (jobs f c)) (set_svars (delete x) h) Idle a.
Proof.
  intros Hw Hh Ho Hr. pose proof Hi as Hia. pose proof (co_same _ _ Hc) as (S1 & S2 & S3).
  assert (svars a !! x = None) as Hx by (apply (hidden_none Hc c (SV x)); rewrite Hh; by left).
  apply (moves_shared Hc c x); rewrite ?Hw, ?Ho, ?Hr; cbn [writes reads hidden own_objs own_rcs set_svars rcs objs svars wvars del_objs del_rcs next]; try done.
  - by right.
  - by intros v ?%elem_of_nil.
  - intros z Hz. by rewrite lookup_delete_ne by congruence.
  - by rewrite lookup_delete_eq.
  - set_solver.
  - by intros q ?%elem_of_nil.
  - constructor.
  - set_solver.
  - by intros q ?%elem_of_nil.
Qed.

Lemma put_step x k : jobs f c = SPut x k -> goes_on.
Proof.
  intros Hj. pose proof Hi as Hia. pose proof (co_same _ _ Hc) as (S1 & S2 & S3). pose proof (co_job _ _ Hc c) as Hok. rewrite Hj in Hok. cbn [job_ok] in Hok.
  assert (svars a !! x = None) as Hx by (apply (hidden_none Hc c (SV x)); rewrite Hj; by left).
  destruct k as [|p|y p r].
  - exists Idle, (set_svars (delete x) h). rewrite Hj. split; [done|split; [cbn; lia|intros _ _; exists a]]. rewrite <- Hj. apply null_moves; by rewrite Hj.
  - destruct (fresh_moves x p) as (h' & Hrun & Hm); [by rewrite Hj..|]. exists Idle, h'. rewrite Hj at 1 2. split; [exact Hrun|split; [cbn; lia|intros _; exact Hm]].
  - cbn [goal_ok] in Hok. assert (svars a !! y = svars h !! y) as Hy by (apply (read_shown Hc c (SV y)); rewrite Hj; by left).
    assert (y <> x) as Hyx by (intros ->; apply (co_self _ _ Hc c (SV x)); rewrite Hj; by left).
    destruct (shared_shown y Hy) as [[Hn Hd]|(p' & r' & Hp & Hpa & Hn1 & Hn2 & _)].
    + rewrite Hd in Hok. injection Hok as <- <-. exists Idle, (set_svars (delete x) h). rewrite Hj. split; [done|split; [cbn; lia|intros _ _; exists a]].
      rewrite <- Hj. apply null_moves; by rewrite Hj.
    + rewrite Hp in Hok. injection Hok as -> ->. exists (SInc x y p r), (set_svars (<[x := (p, r)]>) h). rewrite Hj.
      split; [cbn [step_job]; unfold kbind, put_shared, put_var, kmodify, kret; cbn [snd]; by rewrite Hn1, Hn2|split; [cbn; lia|intros _ _; exists a]]. rewrite <- Hj.
      apply (moves_shared Hc c x); rewrite ?Hj; cbn [writes reads hidden own_objs own_rcs goal_reads goal_obj set_svars rcs objs svars wvars del_objs del_rcs next]; try done.
      * by left.
      * intros z Hz. by rewrite lookup_insert_ne by congruence.
      * set_solver.
      * by intros q ?%elem_of_nil.
      * constructor.
      * set_solver.
      * by intros q ?%elem_of_nil.
      * cbn [job_ok set_svars svars]. by rewrite lookup_insert_ne, lookup_insert_eq by congruence.
Qed.

(** The target, which has its members, is counted. *)
Lemma count_moves x y p r : writes (jobs f c) = [SV x] -> hidden (jobs f c) = [SV x] -> own_objs (jobs f c) = [] -> own_rcs (jobs f c) = [] ->
  svars h !! x = Some (p, r) -> svars a !! y = Some (p, r) -> room a ->
  moves f a c (writes (jobs f c)) (set_rcs (<[r := Refc (strong a r + 1) (strong a r + weak a r + 1)]>) h) Idle (add_shared x p r a).
Proof.
  intros Hw Hh Ho Hr Hxh Hy Hroom. pose proof Hi as Hia. pose proof (co_same _ _ Hc) as (S1 & S2 & S3).
  assert (svars a !! x = None) as Hx by (apply (hidden_none Hc c (SV x)); rewrite Hh; by left).
  apply (moves_shared Hc c x); rewrite ?Hw, ?Ho, ?Hr; cbn [writes reads hidden own_objs own_rcs add_shared set_rcs rcs objs svars wvars del_objs del_rcs next]; try done.
  - by right.
  - by intros v ?%elem_of_nil.
  - by eapply add_shared_inv.
  - by rewrite S1, S2, S3.
  - intros z Hz. by rewrite lookup_insert_ne by congruence.
  - by rewrite lookup_insert_eq.
  - set_solver.
  - by intros q ?%elem_of_nil.
  - constructor.
  - set_solver.
  - by intros q ?%elem_of_nil.
Qed.

(** A variable with members that is not counted leaves room for the count. *)
Lemma hidden_room x u : SV x ∈ hidden (jobs f c) -> svars h !! x = Some u -> fits h -> room a.
Proof.
  intros Hh Hx Hf. eapply (room_shared Hc x u h); [by apply (hidden_none Hc c (SV x))|done| |done]. by rewrite insert_id.
Qed.
Lemma hidden_room_weak w u : WV w ∈ hidden (jobs f c) -> wvars h !! w = Some u -> fits h -> room a.
Proof.
  intros Hh Hx Hf. eapply (room_weak Hc w u h); [by apply (hidden_none Hc c (WV w))|done|done|]. by rewrite insert_id.
Qed.

(** Counting up, without and with room for it. *)
Lemma inc_counts x p r : svars a !! x = Some (p, r) -> exists b, rcs h !! r = Some b /\
  (room a -> Refc (u32 (ref_count b + 1)) (u32 (weak_count b + 1)) = Refc (strong a r + 1) (strong a r + weak a r + 1)).
Proof.
  intros Hx. destruct (shared_rc a x p r Hi Hx) as (b & Hb & _). pose proof (cnt_pos _ _ _ _ Hx). pose proof (cnt_nonneg (wvars a) r).
  destruct (block_counts a r b Hi Hb ltac:(lia)) as (-> & _ & _ & Hu). destruct (co_same _ _ Hc) as (S1 & _). rewrite <- S1. eexists. split; [exact Hb|].
  intros Hroom. cbn [ref_count weak_count]. by destruct (Hu Hroom) as [-> ->].
Qed.

Lemma inc_step x y p r : jobs f c = SInc x y p r -> goes_on.
Proof.
  intros Hj. pose proof (co_job _ _ Hc c) as Hok. rewrite Hj in Hok. destruct Hok as [Hy Hx].
  assert (svars a !! y = svars h !! y) as Hya by (apply (read_shown Hc c (SV y)); rewrite Hj; by left). rewrite Hy in Hya.
  destruct (inc_counts y p r Hya) as (b & Hb & Hu). eexists Idle, _. rewrite Hj. split; [|split; [cbn; lia|intros Hf _; exists (add_shared x p r a)]].
  - cbn [step_job]. unfold inc_ref, set_rc, the_rc, kbind, kmodify, kret. by rewrite Hb.
  - assert (room a) as Hroom by (eapply (hidden_room x); [rewrite Hj; by left|done|done]). rewrite (Hu Hroom), <- Hj. by apply (count_moves x y); rewrite ?Hj.
Qed.

Lemma detach_begin x : jobs f c = SDetach x -> goes_on.
Proof.
  intros Hj. pose proof Hi as Hia. pose proof (co_same _ _ Hc) as (S1 & S2 & S3).
  assert (svars a !! x = svars h !! x) as Hx by (apply (own_shown Hc c (SV x)); rewrite Hj; [by left|apply not_elem_of_nil]).
  assert (moves f a c (writes (jobs f c)) h Idle a) as Hstay.
  { apply (moves_shared Hc c x); rewrite ?Hj; cbn [writes reads hidden own_objs own_rcs]; try done; [by right|set_solver|by intros q ?%elem_of_nil|constructor|set_solver|by intros q ?%elem_of_nil]. }
  destruct (shared_shown x Hx) as [[Hn Hd]|(p & r & Hp & Hpa & Hn1 & Hn2 & Hr & Hpos & Hu1 & Hu2)].
  - exists Idle, h. rewrite Hj at 1 2. split; [|split; [cbn; lia|by exists a]]. cbn [step_job]. unfold kbind, the_shared. by rewrite Hd.
  - destruct (1 <? strong a r) eqn:E.
    { exists Idle, h. rewrite Hj at 1 2. split; [|split; [cbn; lia|by exists a]]. cbn [step_job]. unfold kbind, the_shared. rewrite Hp. cbn [default from_option id]. rewrite Hn1.
      unfold try_dec_ref, the_rc, kbind, kret. rewrite Hr. cbn [ref_count]. by rewrite E. }
    assert (strong a r =? 1 = true) as E1 by lia. destruct (i_sv _ Hi _ _ _ Hpa) as (_ & Hpd & _). pose proof (cnt_nonneg (wvars a) r).
    assert (r ∉ del_rcs a) as Hrd by (intros Hd%(i_del _ Hi); lia).
    eexists (SDetached x p (if strong a r + weak a r =? 1 then Some r else None)), _. rewrite Hj at 1 2.
    split; [|split; [destruct (strong a r + weak a r =? 1); cbn; lia|intros _ _; exists (drop_shared x p r a)]].
    + cbn [step_job]. unfold kbind, the_shared. rewrite Hp. cbn [default from_option id]. rewrite Hn1.
      unfold try_dec_ref, the_rc, set_rc, kbind, kmodify, kret. rewrite Hr. cbn [ref_count weak_count]. rewrite E, Hu1, Hu2.
      by replace (strong a r + weak a r - 1 =? 0) with (strong a r + weak a r =? 1) by lia.
    + apply (moves_shared Hc c x); rewrite ?Hj; cbn [writes reads hidden own_objs own_rcs]; try done.
      * by left.
      * by apply drop_shared_inv.
      * cbn [drop_shared set_rcs rcs objs next]. by rewrite S1, S2, S3.
      * intros z Hz. split; [done|]. apply lookup_delete_ne. congruence.
      * apply lookup_delete_eq.
      * cbn [drop_shared del_objs]. rewrite E1. apply (add_own _ []). by intros ? ?%elem_of_nil.
      * intros q ->%list_elem_of_singleton. by right.
      * apply NoDup_singleton.
      * cbn [drop_shared del_rcs]. destruct (strong a r + weak a r =? 1); [by apply (add_own _ []); intros ? ?%elem_of_nil|set_solver].
      * intros q. destruct (strong a r + weak a r =? 1); cbn; [|by intros ?%elem_of_nil]. intros ->%list_elem_of_singleton. by right.
Qed.

Lemma detached_step x p blk : jobs f c = SDetached x p blk -> goes_on.
Proof.
  intros Hj. pose proof Hi as Hia. pose proof (co_same _ _ Hc) as (S1 & S2 & S3). destruct blk as [r|].
  - assert (svars a !! x = None) as Hx by (apply (hidden_none Hc c (SV x)); rewrite Hj; by left).
    pose proof (own_rcs_due [r] ltac:(by rewrite Hj)) as Hrdue. assert (r ∈ del_rcs a) as Hr by (apply Hrdue; by left).
    pose proof (own_objs_due [p] ltac:(by rewrite Hj)) as Hdue.
    eexists (SDetached x p None), _. rewrite Hj at 1 2. split; [cbn [step_job]; unfold kbind; by rewrite (delete_rc_run r Hr)|split; [cbn; lia|intros _ _; exists (without_rc r a)]].
    apply (moves_shared Hc c x); rewrite ?Hj; cbn [writes reads hidden own_objs own_rcs without_rc set_rcs rcs objs svars wvars del_objs del_rcs next]; try done.
    + by left.
    + by apply delete_rc_inv.
    + by rewrite S1, S2, S3.
    + by apply keep_own.
    + by left.
    + apply NoDup_singleton.
    + apply (drop_own _ []); [apply not_elem_of_nil|done].
    + by intros q ?%elem_of_nil.
  - destruct (fresh_moves x p) as (h' & Hrun & Hm); [by rewrite Hj..|]. exists Idle, h'. rewrite Hj at 1 2. split; [exact Hrun|split; [cbn; lia|intros _; exact Hm]].
Qed.

Lemma lock_begin x w p r : jobs f c = SLock x w p r -> goes_on.
Proof.
  intros Hj. pose proof (co_job _ _ Hc c) as Hok. rewrite Hj in Hok. destruct Hok as [Hw Hx].
  assert (wvars a !! w = wvars h !! w) as Hwa by (apply (read_shown Hc c (WV w)); rewrite Hj; by left).
  destruct (weak_shown w Hwa) as [[Hn _]|(p' & r' & Hp & Hpa & _ & Hr & Hpos & _)]; [congruence|]. rewrite Hw in Hp. injection Hp as <- <-.
  destruct (strong a r =? 0) eqn:E.
  - exists Idle, (set_svars (delete x) h). rewrite Hj at 1 2. split; [|split; [cbn; lia|intros _ _; exists a; apply null_moves; by rewrite Hj]].
    cbn [step_job]. unfold try_inc_ref, the_rc, kbind, kret. rewrite Hr. cbn [ref_count]. by rewrite E.
  - pose proof (cnt_nonneg (svars a) r). destruct (cnt_pos_inv (svars a) r) as (y & q & Hy); [lia|]. pose proof (i_weak_obj _ Hi y w q p r Hy Hpa) as ->.
    destruct (inc_counts y p r Hy) as (b & Hb & Hu). rewrite Hr in Hb. injection Hb as <-. cbn [ref_count weak_count] in Hu.
    eexists Idle, _. rewrite Hj at 1 2. split; [|split; [cbn; lia|intros Hf _; exists (add_shared x p r a)]].
    + cbn [step_job]. unfold try_inc_ref, set_rc, the_rc, kbind, kmodify, kret. rewrite Hr. cbn [ref_count weak_count]. by rewrite E.
    + assert (room a) as Hroom by (eapply (hidden_room x); [rewrite Hj; by left|done|done]). rewrite (Hu Hroom). by apply (count_moves x y); rewrite ?Hj.
Qed.

Lemma weak_dec_step w k : jobs f c = WDec w k -> goes_on.
Proof.
  intros Hj. pose proof Hi as Hia. pose proof (co_same _ _ Hc) as (S1 & S2 & S3). pose proof (co_job _ _ Hc c) as Hok. rewrite Hj in Hok. cbn [job_ok] in Hok.
  assert (wvars a !! w = wvars h !! w) as Hx by (apply (own_shown Hc c (WV w)); rewrite Hj; [by left|apply not_elem_of_nil]).
  destruct (weak_shown w Hx) as [[Hn Hd]|(p & r & Hp & Hpa & Hn2 & Hr & Hpos & Hu)].
  - exists (WPut w k), h. rewrite Hj at 1 2. split; [|split; [cbn; lia|intros _ _; exists a]].
    + cbn [step_job]. unfold kbind, the_weak. by rewrite Hd.
    + apply (moves_weak Hc c w); rewrite ?Hj; cbn [writes reads hidden own_objs own_rcs]; try done; [by left|congruence|set_solver|by intros q ?%elem_of_nil].
  - pose proof (cnt_nonneg (svars a) r). assert (r ∉ del_rcs a) as Hrd by (intros Hd%(i_del _ Hi); lia).
    eexists (WDel w (if strong a r + weak a r =? 1 then Some r else None) k), _. rewrite Hj at 1 2. split; [|split; [cbn; lia|intros _ _; exists (drop_weak w r a)]].
    + cbn [step_job]. unfold kbind, the_weak. rewrite Hp. cbn [default from_option id]. rewrite Hn2.
      unfold dec_weak, the_rc, set_rc, kbind, kmodify, kret. rewrite Hr. cbn [ref_count weak_count]. rewrite Hu.
      by replace (strong a r + weak a r - 1 =? 0) with (strong a r + weak a r =? 1) by lia.
    + apply (moves_weak Hc c w); rewrite ?Hj; cbn [writes reads hidden own_objs own_rcs]; try done.
      * by left.
      * by eapply drop_weak_inv.
      * cbn [drop_weak set_rcs rcs objs next]. by rewrite S1, S2, S3.
      * intros z Hz. split; [done|]. apply lookup_delete_ne. congruence.
      * apply lookup_delete_eq.
      * cbn [drop_weak del_rcs]. destruct (strong a r + weak a r =? 1); [by apply (add_own _ []); intros ? ?%elem_of_nil|set_solver].
      * intros q. destruct (strong a r + weak a r =? 1); cbn; [|by intros ?%elem_of_nil]. intros ->%list_elem_of_singleton. by right.
Qed.

Lemma weak_del_step w blk k : jobs f c = WDel w blk k -> goes_on.
Proof.
  intros Hj. pose proof Hi as Hia. pose proof (co_same _ _ Hc) as (S1 & S2 & S3). pose proof (co_job _ _ Hc c) as Hok. rewrite Hj in Hok. cbn [job_ok] in Hok.
  assert (wvars a !! w = None) as Hx by (apply (hidden_none Hc c (WV w)); rewrite Hj; by left). destruct blk as [r|].
  - pose proof (own_rcs_due [r] ltac:(by rewrite Hj)) as Hrdue. assert (r ∈ del_rcs a) as Hr by (apply Hrdue; by left).
    eexists (WPut w k), _. rewrite Hj at 1 2. split; [cbn [step_job]; unfold kbind; by rewrite (delete_rc_run r Hr)|split; [cbn; lia|intros _ _; exists (without_rc r a)]].
    apply (moves_weak Hc c w); rewrite ?Hj; cbn [writes reads hidden own_objs own_rcs without_rc set_rcs rcs objs svars wvars del_objs del_rcs next]; try done.
    + by left.
    + by apply delete_rc_inv.
    + by rewrite S1, S2, S3.
    + apply (drop_own _ []); [apply not_elem_of_nil|done].
    + by intros q ?%elem_of_nil.
  - exists (WPut w k), h. rewrite Hj at 1 2. split; [done|split; [cbn; lia|intros _ _; exists a]].
    apply (moves_weak Hc c w); rewrite ?Hj; cbn [writes reads hidden own_objs own_rcs]; try done; [by left|set_solver|by intros q ?%elem_of_nil].
Qed.

Lemma weak_null_moves w : writes (jobs f c) = [WV w] -> hidden (jobs f c) = [WV w] -> own_objs (jobs f c) = [] -> own_rcs (jobs f c) = [] ->
  moves f a c (writes (jobs f c)) (set_wvars (delete w) h) Idle a.
Proof.
  intros Hw Hh Ho Hr. pose proof Hi as Hia. pose proof (co_same _ _ Hc) as (S1 & S2 & S3).
  assert (wvars a !! w = None) as Hx by (apply (hidden_none Hc c (WV w)); rewrite Hh; by left).
  apply (moves_weak Hc c w); rewrite ?Hw, ?Ho, ?Hr; cbn [writes reads hidden own_objs own_rcs set_wvars rcs objs svars wvars del_objs del_rcs next]; try done.
  - by right.
  - by intros v ?%elem_of_nil.
  - intros z Hz. by rewrite lookup_delete_ne by congruence.
  - by rewrite lookup_delete_eq.
  - set_solver.
  - by intros q ?%elem_of_nil.
Qed.

(** The source of a weak pointer, with a live block. *)
Lemma source_shown src : src ∈ reads (jobs f c) -> member src h = None \/
  exists p r, member src h = Some (p, r) /\ (r =? 0) = false /\ rcs h !! r = Some (Refc (strong a r) (strong a r + weak a r)) /\ 0 < strong a r + weak a r /\
    (room a -> u32 (strong a r + weak a r + 1) = strong a r + weak a r + 1) /\ (forall x p', svars a !! x = Some (p', r) -> p' = p).
Proof.
  intros Hs. pose proof (read_shown Hc c src Hs) as Hm. destruct src as [x|w]; cbn [member] in *.
  - destruct (shared_shown x Hm) as [[Hn _]|(p & r & Hp & Hpa & _ & Hn2 & Hr & Hpos & _)]; [by left|right]. exists p, r. pose proof (cnt_nonneg (wvars a) r).
    destruct (block_counts a r _ Hi ltac:(rewrite (proj1 (co_same _ _ Hc)); exact Hr) ltac:(lia)) as (_ & _ & _ & Hu).
    split_and!; [done..|lia|intros Hroom; by apply Hu|]. intros z q Hz. by apply (i_one_obj _ Hi z x q p r).
  - destruct (weak_shown w Hm) as [[Hn _]|(p & r & Hp & Hpa & Hn2 & Hr & Hpos & _)]; [by left|right]. exists p, r. pose proof (cnt_nonneg (svars a) r).
    destruct (block_counts a r _ Hi ltac:(rewrite (proj1 (co_same _ _ Hc)); exact Hr) ltac:(lia)) as (_ & _ & _ & Hu).
    split_and!; [done..|lia|intros Hroom; by apply Hu|]. intros z q Hz. by apply (i_weak_obj _ Hi z w q p r).
Qed.

Lemma weak_put_step w k : jobs f c = WPut w k -> goes_on.
Proof.
  intros Hj. pose proof Hi as Hia. pose proof (co_same _ _ Hc) as (S1 & S2 & S3). pose proof (co_job _ _ Hc c) as Hok. rewrite Hj in Hok. cbn [job_ok] in Hok.
  assert (wvars a !! w = None) as Hx by (apply (hidden_none Hc c (WV w)); rewrite Hj; by left).
  destruct k as [|src p r].
  - exists Idle, (set_wvars (delete w) h). rewrite Hj at 1 2. split; [done|split; [cbn; lia|intros _ _; exists a; apply weak_null_moves; by rewrite Hj]].
  - cbn [wgoal_ok] in Hok. assert (src <> WV w) as Hsw by (intros ->; apply (co_self _ _ Hc c (WV w)); rewrite Hj; by left).
    destruct (source_shown src) as [Hn|(p' & r' & Hp & Hn2 & _)]; [rewrite Hj; by left|rewrite Hn in Hok; injection Hok as <- <-|rewrite Hp in Hok; injection Hok as -> ->].
    + exists Idle, (set_wvars (delete w) h). rewrite Hj at 1 2. split; [done|split; [cbn; lia|intros _ _; exists a; apply weak_null_moves; by rewrite Hj]].
    + exists (WInc w src p r), (set_wvars (<[w := (p, r)]>) h). rewrite Hj at 1 2.
      split; [cbn [step_job]; unfold kbind, put_weak, put_var, kmodify, kret; cbn [snd]; by rewrite Hn2|split; [cbn; lia|intros _ _; exists a]].
      apply (moves_weak Hc c w); rewrite ?Hj; cbn [writes reads hidden own_objs own_rcs wgoal_reads set_wvars rcs objs svars wvars del_objs del_rcs next]; try done.
      * by left.
      * intros z Hz. by rewrite lookup_insert_ne by congruence.
      * set_solver.
      * by intros q ?%elem_of_nil.
      * cbn [job_ok set_wvars wvars]. rewrite lookup_insert_eq. split; [|done]. destruct src as [x|v]; cbn [member set_wvars svars wvars] in *; [done|].
        by rewrite lookup_insert_ne by congruence.
Qed.

Lemma weak_inc_step w src p r : jobs f c = WInc w src p r -> goes_on.
Proof.
  intros Hj. pose proof Hi as Hia. pose proof (co_same _ _ Hc) as (S1 & S2 & S3). pose proof (co_job _ _ Hc c) as Hok. rewrite Hj in Hok. destruct Hok as [Hs Hw].
  assert (wvars a !! w = None) as Hx by (apply (hidden_none Hc c (WV w)); rewrite Hj; by left).
  destruct (source_shown src) as [Hn|(p' & r' & Hp & Hn2 & Hr & Hpos & Hu & Hone)]; [rewrite Hj; by left|congruence|]. rewrite Hs in Hp. injection Hp as <- <-.
  eexists Idle, _. rewrite Hj at 1 2. split; [|split; [cbn; lia|intros Hf _; exists (add_weak w p r a)]].
  - cbn [step_job]. unfold inc_weak, set_rc, the_rc, kbind, kmodify, kret. by rewrite Hr.
  - assert (room a) as Hroom by (eapply (hidden_room_weak w); [rewrite Hj; by left|done|done]). cbn [ref_count weak_count]. rewrite (Hu Hroom).
    apply (moves_weak Hc c w); rewrite ?Hj; cbn [writes reads hidden own_objs own_rcs add_weak set_rcs rcs objs svars wvars del_objs del_rcs next]; try done.
    + by right.
    + by intros v ?%elem_of_nil.
    + apply add_weak_inv; try done. rewrite S1. by eexists.
    + by rewrite S1, S2, S3.
    + intros z Hz. by rewrite lookup_insert_ne by congruence.
    + by rewrite lookup_insert_eq.
    + set_solver.
    + by intros q ?%elem_of_nil.
Qed.

(** A core that has nothing to change. *)
Lemma idle_moves : writes (jobs f c) = [] -> hidden (jobs f c) = [] -> own_objs (jobs f c) = [] -> own_rcs (jobs f c) = [] -> moves f a c [] h Idle a.
Proof.
  intros Hw Hh Ho Hr. pose proof Hi as Hia. pose proof (co_same _ _ Hc) as Hs. split; cbn [writes reads hidden own_objs own_rcs]; rewrite ?Hh, ?Ho, ?Hr; try done.
  - by intros v ?%elem_of_nil.
  - intros v [?%elem_of_nil|?%elem_of_nil]; done.
  - by intros c' v _ ?%elem_of_nil.
  - by intros c' v _ ?%elem_of_nil.
  - by intros v ?%elem_of_nil.
  - set_solver.
  - by intros p ?%elem_of_nil.
  - apply NoDup_nil_2.
  - set_solver.
  - by intros r ?%elem_of_nil.
Qed.

Lemma count_step src r : jobs f c = Count src r -> goes_on.
Proof.
  intros Hj. pose proof (co_job _ _ Hc c) as Hok. rewrite Hj in Hok. destruct Hok as [p Hs].
  destruct (source_shown src) as [Hn|(p' & r' & Hp & _ & Hr & _)]; [rewrite Hj; by left|congruence|]. rewrite Hs in Hp. injection Hp as <- <-.
  exists Idle, h. rewrite Hj at 1 2. split; [cbn [step_job]; unfold get_ref, the_rc, kbind, kret; by rewrite Hr|split; [cbn; lia|intros _ _; exists a]].
  assert (writes (jobs f c) = []) as Hw by by rewrite Hj. rewrite Hw. apply idle_moves; by rewrite Hj.
Qed.

Lemma advance_ok : jobs f c <> Idle -> goes_on.
Proof.
  intros Hn. destruct (jobs f c) eqn:Hj; [done|..]; [by eapply dec_step|by eapply del_step|by eapply put_step|by eapply inc_step|by eapply detach_begin
    |by eapply detached_step|by eapply lock_begin|by eapply weak_dec_step|by eapply weak_del_step|by eapply weak_put_step|by eapply weak_inc_step|by eapply count_step].
Qed.
End steps.

(** ** The start of an operation *)

Section start.
Context {f : fine} {a : heap} (Hc : covers f a) (c : Z) (cl : call) (Hb : may_begin f c cl).
Local Notation h := (fh f).

Lemma target_shown v : v ∈ call_writes cl -> member v a = member v h.
Proof. intros Hv. apply (shown_member Hc). intros d Hd%hidden_writes. by destruct (mb_writes _ _ _ Hb d v Hv). Qed.
Lemma source_member v : v ∈ call_reads cl -> member v a = member v h.
Proof. intros Hv. apply (shown_member Hc). intros d Hd%hidden_writes. by apply (mb_reads _ _ _ Hb d v). Qed.

Lemma moves_begin h' j' a' :
  sp_inv a' -> rcs a' = rcs h' /\ objs a' = objs h' /\ next a' = next h' ->
  (forall v, v ∉ call_writes cl -> member v h' = member v h /\ member v a' = member v a) ->
  (forall v, v ∈ call_writes cl -> member v a' = if decide (v ∈ hidden j') then None else member v h') ->
  (forall v, v ∈ writes j' -> v ∈ call_writes cl) -> (forall v, v ∈ reads j' -> v ∈ call_reads cl) ->
  (forall p, p ∈ del_objs a' <-> p ∈ del_objs a \/ p ∈ own_objs j') -> (forall p, p ∈ own_objs j' -> p ∉ del_objs a) -> NoDup (own_objs j') ->
  del_rcs a' = del_rcs a -> own_rcs j' = [] -> job_ok h' j' -> moves f a c (call_writes cl) h' j' a'.
Proof.
  intros Hi Hs Hf Hv Hw Hr Ho On Od Hd Hro Hj. pose proof (mb_idle _ _ _ Hb) as Hidle.
  split; rewrite ?Hidle, ?Hro, ?Hd; cbn [hidden own_objs own_rcs]; try done.
  - intros v [?%elem_of_nil|Hin]; [done|by apply Hw].
  - intros c' v _ Hin. by apply (mb_writes _ _ _ Hb).
  - intros c' v _ Hin%Hr. by apply (mb_reads _ _ _ Hb).
  - intros v Hin%Hw Hin'%Hr. by apply (mb_self _ _ _ Hb v).
  - intros p. rewrite Ho. set_solver.
  - intros p Hp. right. by apply On.
  - set_solver.
  - by intros r ?%elem_of_nil.
Qed.

(** Nothing is changed yet. *)
Lemma moves_quiet j' : hidden j' = [] -> own_objs j' = [] -> own_rcs j' = [] -> (forall v, v ∈ writes j' -> v ∈ call_writes cl) ->
  (forall v, v ∈ reads j' -> v ∈ call_reads cl) -> job_ok h j' -> moves f a c (call_writes cl) h j' a.
Proof.
  intros Hh Ho Hro Hw Hr Hj. apply moves_begin; rewrite ?Ho; try done; [apply (co_inv _ _ Hc)|apply (co_same _ _ Hc)| |set_solver|by intros p ?%elem_of_nil|apply NoDup_nil_2].
  intros v Hv. rewrite Hh, decide_False by apply not_elem_of_nil. by apply target_shown.
Qed.

Lemma swapped_other (m : gmap Z (Z * Z)) x y z : z <> x -> z <> y -> swapped m x y !! z = m !! z.
Proof. intros Hx Hy. unfold swapped. by rewrite !put_var_lookup, !decide_False by done. Qed.

Lemma put_members x y z : svars a !! x = svars h !! x -> svars a !! y = svars h !! y -> z = x \/ z = y -> swapped (svars a) x y !! z = swapped (svars h) x y !! z.
Proof.
  intros Hx Hy Hz. unfold swapped. rewrite !put_var_lookup, Hx, Hy. repeat case_decide; try done. destruct Hz; congruence.
Qed.

Lemma begin_move x y : cl = CMove x y -> moves f a c (call_writes cl) (set_svars (fun m => swapped m x y) h) Idle (set_svars (fun m => swapped m x y) a).
Proof.
  intros Hcl. pose proof (co_same _ _ Hc) as (S1 & S2 & S3).
  assert (svars a !! x = svars h !! x) as Hx by (apply (target_shown (SV x)); rewrite Hcl; by left).
  assert (svars a !! y = svars h !! y) as Hy by (apply (target_shown (SV y)); rewrite Hcl; right; by left).
  apply moves_begin; cbn [hidden writes reads own_objs own_rcs set_svars rcs objs svars wvars del_objs del_rcs next]; try done.
  - apply swap_inv, (co_inv _ _ Hc).
  - intros v Hv. rewrite Hcl in Hv. apply not_elem_of_cons in Hv as [Hv1 Hv2]. apply not_elem_of_cons in Hv2 as [Hv2 _].
    destruct v as [z|w]; cbn [member set_svars svars wvars]; [|done]. by rewrite !swapped_other by congruence.
  - intros v Hv. rewrite decide_False by apply not_elem_of_nil. rewrite Hcl in Hv. destruct v as [z|w]; cbn [member set_svars svars wvars].
    + apply put_members; [done|done|]. apply elem_of_cons in Hv as [[= ->]|[= ->]%list_elem_of_singleton]; [by left|by right].
    + apply elem_of_cons in Hv as [[=]|[=]%list_elem_of_singleton].
  - by intros v ?%elem_of_nil.
  - by intros v ?%elem_of_nil.
  - set_solver.
  - by intros p ?%elem_of_nil.
  - apply NoDup_nil_2.
Qed.

Lemma begin_make x : cl = CMake x ->
  moves f a c (call_writes cl) (Heap (rcs h) ({[next h]} ∪ objs h) (svars h) (wvars h) (del_objs h) (del_rcs h) (next h + 1)) (SDec x (GNew (next h))) (add_object a).
Proof.
  intros Hcl. pose proof (co_same _ _ Hc) as (S1 & S2 & S3). destruct (fresh_object a (co_inv _ _ Hc)) as (_ & Hnd & _). rewrite <- S3 in *.
  apply moves_begin; cbn [hidden writes reads goal_reads own_objs goal_obj own_rcs add_object rcs objs svars wvars del_objs del_rcs next]; try done.
  - apply add_object_inv, (co_inv _ _ Hc).
  - by rewrite S2.
  - intros v Hv. rewrite decide_False by apply not_elem_of_nil. exact (target_shown v Hv).
  - by rewrite Hcl.
  - by intros v ?%elem_of_nil.
  - set_solver.
  - by intros p ->%list_elem_of_singleton.
  - apply NoDup_singleton.
Qed.

Lemma begin_lock x w p r : cl = CLock x w -> wvars h !! w = Some (p, r) ->
  moves f a c (call_writes cl) (set_svars (<[x := (p, r)]>) h) (SLock x w p r) a.
Proof.
  intros Hcl Hw. pose proof (mb_new _ _ _ Hb) as Hx. rewrite Hcl in Hx.
  assert (svars a !! x = svars h !! x) as Hxa by (apply (target_shown (SV x)); rewrite Hcl; by left).
  apply moves_begin; rewrite ?Hcl; cbn [hidden writes reads own_objs own_rcs set_svars rcs objs svars wvars del_objs del_rcs next call_writes call_reads]; try done.
  - apply (co_inv _ _ Hc).
  - apply (co_same _ _ Hc).
  - intros [z|v] Hv; cbn [member set_svars svars wvars]; [|done]. rewrite lookup_insert_ne; [done|]. intros <-. apply Hv. by left.
  - intros v ->%list_elem_of_singleton. rewrite decide_True by (by left). cbn [member]. congruence.
  - set_solver.
  - by intros q ?%elem_of_nil.
  - apply NoDup_nil_2.
  - cbn [job_ok set_svars svars wvars]. by rewrite lookup_insert_eq.
Qed.

Lemma default_zero (o : option (Z * Z)) p r : default (0, 0) o = (p, r) -> (r =? 0) = false -> o = Some (p, r).
Proof. destruct o as [[p' r']|]; cbn; [by intros [= -> ->]|]. intros [= <- <-]. done. Qed.

Lemma begin_ok : exists j' h', start cl h = Ret j' h' /\ exists a', moves f a c (call_writes cl) h' j' a'.
Proof.
  cut (forall k, cl = k -> exists j' h', start k h = Ret j' h' /\ exists a', moves f a c (call_writes cl) h' j' a'); [intros H; by apply H|].
  intros [x|x|x y|x y|x|x|x w|w x|w v|w|w] Hcl; cbn [start].
  - do 2 eexists. split; [reflexivity|]. eexists. by apply begin_make.
  - do 2 eexists. split; [reflexivity|]. exists a. apply moves_quiet; rewrite ?Hcl; try done; by intros v ?%elem_of_nil.
  - unfold kbind, the_shared, kret. destruct (default (0, 0) (svars h !! y)) as [p r] eqn:E. do 2 eexists. split; [reflexivity|]. exists a.
    by apply moves_quiet; rewrite ?Hcl.
  - do 2 eexists. split; [reflexivity|]. eexists. by apply begin_move.
  - do 2 eexists. split; [reflexivity|]. exists a. apply moves_quiet; rewrite ?Hcl; try done; by intros v ?%elem_of_nil.
  - unfold kbind, the_shared, kret. destruct (default (0, 0) (svars h !! x)) as [p r] eqn:E. do 2 eexists. split; [reflexivity|]. exists a.
    destruct (r =? 0) eqn:E0; apply moves_quiet; rewrite ?Hcl; try done; try (by intros v ?%elem_of_nil). exists p. by apply default_zero.
  - unfold kbind, the_weak. destruct (default (0, 0) (wvars h !! w)) as [p r] eqn:E. destruct (r =? 0) eqn:E0.
    + do 2 eexists. split; [reflexivity|]. exists a. apply moves_quiet; rewrite ?Hcl; try done; by intros v ?%elem_of_nil.
    + do 2 eexists. split; [unfold put_shared, put_var, kmodify, kret; cbn [snd]; rewrite E0; reflexivity|]. exists a. apply begin_lock; [done|by apply default_zero].
  - unfold kbind, the_shared, kret. destruct (default (0, 0) (svars h !! x)) as [p r] eqn:E. do 2 eexists. split; [reflexivity|]. exists a.
    by apply moves_quiet; rewrite ?Hcl.
  - unfold kbind, the_weak, kret. destruct (default (0, 0) (wvars h !! v)) as [p r] eqn:E. do 2 eexists. split; [reflexivity|]. exists a.
    by apply moves_quiet; rewrite ?Hcl.
  - do 2 eexists. split; [reflexivity|]. exists a. apply moves_quiet; rewrite ?Hcl; try done; by intros v ?%elem_of_nil.
  - unfold kbind, the_weak, kret. destruct (default (0, 0) (wvars h !! w)) as [p r] eqn:E. do 2 eexists. split; [reflexivity|]. exists a.
    destruct (r =? 0) eqn:E0; apply moves_quiet; rewrite ?Hcl; try done; try (by intros v ?%elem_of_nil). exists p. by apply default_zero.
Qed.
End start.

(** ** Runs *)

Lemma covers_start : covers no_pointers empty_heap.
Proof.
  split; cbn [no_pointers fh jobs hidden own_objs own_rcs writes reads job_ok]; try done.
  - apply empty_inv.
  - intros v u. split; [intros Hu; split; [done|]; intros c; apply not_elem_of_nil|by intros [? _]].
  - intros p. split; [set_solver|]. by intros [_ ?%elem_of_nil].
  - intros p. split; [set_solver|]. by intros [_ ?%elem_of_nil].
  - by intros c c' p ?%elem_of_nil.
  - by intros c c' p ?%elem_of_nil.
  - intros c. apply NoDup_nil_2.
  - by intros c c' v _ ?%elem_of_nil.
  - by intros c v ?%elem_of_nil.
Qed.

Lemma on_core_ret c m f f' : on_core c m f = Ret tt f' -> exists j h, m (fh f) = Ret j h /\ f' = Fine h (upd_job c j (jobs f)).
Proof. unfold on_core. destruct (m (fh f)) as [j h| | |]; [|done..]. intros [= <-]. by exists j, h. Qed.

Lemma upd_job_same c f a : covers f a -> covers (Fine (fh f) (upd_job c (jobs f c) (jobs f))) a.
Proof.
  intros Hc. assert (forall d, upd_job c (jobs f c) (jobs f) d = jobs f d) as He by (intros d; unfold upd_job; by case_decide; subst).
  destruct Hc as [C1 C2 C3 C4 C5 C6 C7 C8 C9 C10 C11]. split; cbn [fh jobs]; try done; setoid_rewrite He; done.
Qed.

Lemma fine_step_covers f a f' : covers f a -> fits (fh f) -> fine_step f f' -> (exists a', covers f' a') /\ fits (fh f').
Proof.
  intros Hc Hf [c cl f1 Hb Hrun Hf1|c f1 Hrun Hf1]; (split; [|exact Hf1]); apply on_core_ret in Hrun as (j & h & Hrun & ->).
  - destruct (begin_ok Hc c cl Hb) as (j' & h' & Hrun' & a' & Hm). rewrite Hrun in Hrun'. injection Hrun' as <- <-. exists a'. by eapply covers_moves.
  - destruct (decide (left (jobs f c) = 0%nat)) as [Hz|Hz].
    + destruct (jobs f c) as [| |? [] ?| | | |? ? []| | | | | |] eqn:Hj; try done. injection Hrun as <- <-. exists a. rewrite <- Hj. by apply upd_job_same.
    + destruct (advance_ok Hc c) as (j' & h' & Hrun' & _ & Hm); [by intros Hj; rewrite Hj in Hz|]. rewrite Hrun in Hrun'. injection Hrun' as <- <-.
      destruct (Hm Hf Hf1) as [a' Hm']. exists a'. by eapply covers_moves.
Qed.

Lemma reachable_covers f : rtc fine_step no_pointers f -> exists a, covers f a.
Proof.
  intros Hr. assert (forall g g', rtc fine_step g g' -> (exists a, covers g a) -> fits (fh g) -> exists a, covers g' a) as H.
  { intros g g' Hg. induction Hg as [|g1 g2 g3 Hs _ IH]; [done|]. intros [a Ha] Hf. destruct (fine_step_covers _ _ _ Ha Hf Hs). by apply IH. }
  apply (H _ _ Hr); [exists empty_heap; apply covers_start|by vm_compute].
Qed.

(** When nothing is under way, all variables are counted. *)
Lemma quiet_vars f a : covers f a -> (forall c, jobs f c = Idle) -> svars a = svars (fh f) /\ wvars a = wvars (fh f) /\ del_objs a = ∅ /\ del_rcs a = ∅.
Proof.
  intros Hc Hq. assert (forall v, member v a = member v (fh f)) as Hv by (intros v; apply (shown_member Hc); intros c; rewrite Hq; apply not_elem_of_nil).
  split_and!.
  - apply map_eq. intros x. exact (Hv (SV x)).
  - apply map_eq. intros w. exact (Hv (WV w)).
  - apply set_eq. intros p. rewrite (co_obj _ _ Hc). split; [|set_solver]. intros [c Hp]. rewrite Hq in Hp. by apply elem_of_nil in Hp.
  - apply set_eq. intros r. rewrite (co_rc _ _ Hc). split; [|set_solver]. intros [c Hp]. rewrite Hq in Hp. by apply elem_of_nil in Hp.
Qed.

(** C28. On any number of cores, in any interleaving of the steps of [shared_ptr]
    and [weak_ptr] operations, as long as no two operations use one variable at the
    same time with one of them changing it: every step is made, without use of a
    freed counter block and without a second deletion of an object or a block, and
    brings the operation to its end; a pointer that is not being changed has a live
    block, and if it is a [shared_ptr] a live object; and when no operation is under
    way the counters are the numbers of pointers, and every object and every block
    has one. *)
Theorem shared_ptr_safe f :
  rtc fine_step no_pointers f ->
  (forall c, jobs f c <> Idle -> exists f', advance c f = Ret tt f' /\ (left (jobs f' c) < left (jobs f c))%nat) /\
  (forall c cl, may_begin f c cl -> exists f', begin c cl f = Ret tt f') /\
  (forall x p r, svars (fh f) !! x = Some (p, r) -> (forall c, SV x ∉ writes (jobs f c)) ->
    p ∈ objs (fh f) /\ exists b, rcs (fh f) !! r = Some b /\ 0 < ref_count b) /\
  (forall w p r, wvars (fh f) !! w = Some (p, r) -> (forall c, WV w ∉ writes (jobs f c)) -> exists b, rcs (fh f) !! r = Some b /\ 0 < weak_count b) /\
  ((forall c, jobs f c = Idle) ->
    (forall r b, rcs (fh f) !! r = Some b -> b = Refc (strong (fh f) r) (strong (fh f) r + weak (fh f) r) /\ 0 < strong (fh f) r + weak (fh f) r) /\
    (forall p, p ∈ objs (fh f) -> exists x r, svars (fh f) !! x = Some (p, r))).
Proof.
  intros Hr. destruct (reachable_covers f Hr) as [a Hc]. pose proof (co_inv _ _ Hc) as Hi. destruct (co_same _ _ Hc) as (S1 & S2 & _). split_and!.
  - intros c Hj. destruct (advance_ok Hc c Hj) as (j' & h' & Hrun & Hl & _). eexists. unfold advance, on_core. rewrite Hrun. split; [reflexivity|].
    cbn [jobs]. by rewrite upd_job_eq.
  - intros c cl Hb. destruct (begin_ok Hc c cl Hb) as (j' & h' & Hrun & _). eexists. unfold begin, on_core. by rewrite Hrun.
  - intros x p r Hx Hw. assert (svars a !! x = Some (p, r)) as Hxa by (rewrite <- Hx; apply (shown_member Hc (SV x)); intros c Hin%hidden_writes; by apply (Hw c)).
    destruct (i_sv _ Hi _ _ _ Hxa) as (Hp & _). rewrite <- S1, <- S2. split; [done|]. destruct (shared_rc a x p r Hi Hxa) as (b & Hb & _ & _ & Hn & _).
    exists b. split; [done|]. pose proof (cnt_pos _ _ _ _ Hxa). lia.
  - intros w p r Hx Hw. assert (wvars a !! w = Some (p, r)) as Hxa by (rewrite <- Hx; apply (shown_member Hc (WV w)); intros c Hin%hidden_writes; by apply (Hw c)).
    destruct (weak_rc a w p r Hi Hxa) as (b & Hb & _ & _ & Hn). rewrite <- S1. exists b. split; [done|]. pose proof (cnt_pos _ _ _ _ Hxa). pose proof (cnt_nonneg (svars a) r). lia.
  - intros Hq. destruct (quiet_vars f a Hc Hq) as (<- & <- & Do & Dr). rewrite <- S1, <- S2. split.
    + intros r b Hb. destruct (i_rc _ Hi r b Hb) as (_ & H1 & H2). destruct (counts_small a r Hi) as (P1 & P2 & _). destruct b as [n m]; cbn in *; subst. split; [done|].
      destruct (decide (strong a r + weak a r = 0)) as [Hz|]; [|lia]. assert (r ∈ del_rcs a) as Hd by (apply (i_del _ Hi); split; [by eexists|done]). rewrite Dr in Hd. set_solver.
    + intros p [Hd|Hx]%(i_obj _ Hi); [rewrite Do in Hd; set_solver|done].
Qed.

(** ** A run on given cores *)

Definition is_idle (j : job) : bool := match j with Idle => true | _ => false end.
Definition check_begin (cs : list Z) (f : fine) (c : Z) (cl : call) : bool :=
  is_idle (jobs f c) && bool_decide (c ∈ cs) && bool_decide (Forall (fun v => v ∉ call_reads cl) (call_writes cl)) &&
  forallb (fun d => bool_decide (Forall (fun v => v ∉ writes (jobs f d) /\ v ∉ reads (jobs f d)) (call_writes cl)) &&
                    bool_decide (Forall (fun v => v ∉ writes (jobs f d)) (call_reads cl))) cs &&
  match cl with CLock x _ => bool_decide (svars (fh f) !! x = None) | _ => true end.

(** Each entry is a core and the operation that it begins, or its next step. *)
Fixpoint run_cores (cs : list Z) (l : list (Z * option call)) (f : fine) : option fine :=
  match l with
  | [] => Some f
  | (c, o) :: l' =>
      match (match o with
             | Some cl => if check_begin cs f c cl then begin c cl f else Panic
             | None => if bool_decide (c ∈ cs) then advance c f else Panic
             end) with
      | Ret _ f' => if bool_decide (fits (fh f')) then run_cores cs l' f' else None
      | _ => None
      end
  end.

Lemma check_begin_ok cs f c cl : (forall d, d ∉ cs -> jobs f d = Idle) -> check_begin cs f c cl = true -> may_begin f c cl /\ c ∈ cs.
Proof.
  intros Ho H. unfold check_begin in H. rewrite !andb_true_iff in H. destruct H as ((((H1 & H2) & H3) & H4) & H5).
  apply bool_decide_eq_true_1 in H2, H3. rewrite Forall_forall in H3. rewrite forallb_forall in H4.
  assert (forall d, (forall v, v ∈ call_writes cl -> v ∉ writes (jobs f d) /\ v ∉ reads (jobs f d)) /\ (forall v, v ∈ call_reads cl -> v ∉ writes (jobs f d))) as Hd.
  { intros d. destruct (decide (d ∈ cs)) as [Hin|Hin]; [|rewrite Ho by done; split; intros; repeat split; apply not_elem_of_nil].
    specialize (H4 d ltac:(by apply list_elem_of_In)). apply andb_true_iff in H4 as [H6 H7]. apply bool_decide_eq_true_1 in H6, H7. by rewrite !Forall_forall in *. }
  split; [|done]. split; [by destruct (jobs f c)|done|intros d v; apply Hd|intros d v; apply Hd|]. destruct cl; try done. by apply bool_decide_eq_true_1 in H5.
Qed.

Lemma run_cores_steps cs l f f' : (forall d, d ∉ cs -> jobs f d = Idle) -> run_cores cs l f = Some f' ->
  rtc fine_step f f' /\ forall d, d ∉ cs -> jobs f' d = Idle.
Proof.
  revert f. induction l as [|[c o] l IH]; intros f Ho H; cbn [run_cores] in H; [injection H as <-; split; [apply rtc_refl|done]|].
  assert (forall m f1, c ∈ cs -> on_core c m f = Ret tt f1 -> forall d, d ∉ cs -> jobs f1 d = Idle) as Hidle.
  { intros m f1 Hin (j & h1 & _ & ->)%on_core_ret d Hd. cbn [jobs]. rewrite upd_job_ne by congruence. by apply Ho. }
  destruct o as [cl|].
  - destruct (check_begin cs f c cl) eqn:E; [|done]. destruct (check_begin_ok _ _ _ _ Ho E) as [Hb Hin]. destruct (begin c cl f) as [[] f1| | |] eqn:Hrun; [|done..].
    case_bool_decide; [|done].
    destruct (IH f1) as [Hs Hd]; [by eapply (Hidle (start cl))|done|]. split; [|done]. eapply rtc_l; [by eapply fine_begin|done].
  - case_bool_decide as Hin; [|done]. destruct (advance c f) as [[] f1| | |] eqn:Hrun; [|done..]. case_bool_decide; [|done].
    destruct (IH f1) as [Hs Hd]; [by eapply (Hidle (step_job (jobs f c)))|done|]. split; [|done]. eapply rtc_l; [by eapply fine_advance|done].
Qed.

(** The variable 7 gets an object; then two cores copy it at the same time, to 8 and
    9, while a third makes a weak pointer 5.  The second core is about to count its
    reference, the first one has done so. *)
Definition busy_script : list (Z * option call) :=
  [(1, Some (CMake 7)); (1, None); (1, None); (1, Some (CCopy 8 7)); (2, Some (CCopy 9 7)); (3, Some (CGetWeak 5 7)); (2, None); (1, None); (1, None); (3, None); (2, None); (1, None)].
Definition busy_cores : fine := match run_cores [1; 2; 3] busy_script no_pointers with Some f => f | None => no_pointers end.

Lemma busy_steps : rtc fine_step no_pointers busy_cores /\ forall c, c ∉ [1; 2; 3] -> jobs busy_cores c = Idle.
Proof. apply (run_cores_steps [1; 2; 3] busy_script); [intros; reflexivity|vm_compute; reflexivity]. Qed.

Lemma busy_writes c : SV 7 ∉ writes (jobs busy_cores c).
Proof.
  destruct (decide (c ∈ [1; 2; 3])) as [Hin|Hin]; [|rewrite (proj2 busy_steps c Hin); apply not_elem_of_nil].
  rewrite !elem_of_cons, elem_of_nil in Hin. destruct Hin as [->|[->|[->|[]]]]; apply (bool_decide_unpack _); vm_compute; exact I.
Qed.

Lemma shared_ptr_safe_witness :
  jobs busy_cores 2 = SInc 9 7 1 2 /\ jobs busy_cores 3 = WPut 5 (WGCopy (SV 7) 1 2) /\ rcs (fh busy_cores) !! 2 = Some (Refc 2 2) /\
  (exists f', advance 2 busy_cores = Ret tt f') /\ 1 ∈ objs (fh busy_cores).
Proof.
  split; [vm_compute; reflexivity|]. split; [vm_compute; reflexivity|]. split; [vm_compute; reflexivity|].
  destruct (shared_ptr_safe busy_cores (proj1 busy_steps)) as (H1 & _ & H2 & _). split.
  - destruct (H1 2) as (f' & Hf & _); [vm_compute; discriminate|]. exists f'. exact Hf.
  - apply (H2 7 1 2); [vm_compute; reflexivity|exact busy_writes].
Defined.

(** What the rule is for.  One core begins to copy the variable 7; before it counts
    its reference another core calls [try_detach_weak] on the same variable, finds
    one reference and frees the block; the copy then counts in freed memory. *)
Lemma copy_races_detach :
  (begin 1 (CCopy 8 7) ;;; begin 2 (CDetach 7) ;;; advance 2 ;;; advance 2 ;;; advance 2 ;;; advance 1 ;;; advance 1 ;;; advance 1)
    (Fine one_pointer (fun _ => Idle)) = Panic.
Proof. vm_compute. reflexivity. Qed.
