(* ===== verification/Virtio.v ===== *)
(** * The virtio disk driver (src/os/drivers/virtio/virtio_disk.cc)

    The driver and the device share a table of descriptors and two rings.  A
    request takes three descriptors, links them to a chain, writes its head to
    the ring [avail] and sleeps; the device executes the chain, writes the head
    to the ring [used] and raises an interrupt, whose handler wakes the task.

    The state has the driver's fields, the rings, the device and the buffers.
    The parts of [disk_command] between two suspensions and the interrupt
    handler run with the driver's lock held, so each is one step; the device
    runs at any time and completes requests in any order.  Its steps are those
    of a legacy virtio block device: it takes the next head from [avail], reads
    the chain from the descriptor table, moves the data, stores the status and
    writes the head to [used]. *)
From S2P Require Import Prelude Riscv Spinlock Mutex.

(** ** State *)

Definition NUM : Z := 8.
Definition VRING_DESC_F_NEXT : Z := 1.
Definition VRING_DESC_F_WRITE : Z := 2.
Definition VIRTIO_BLK_T_IN : Z := 0.
Definition VIRTIO_BLK_T_OUT : Z := 1.
Definition VIRTIO_BLK_T_FLUSH : Z := 4.
Definition VIRTIO_CONFIG_S_ACKNOWLEDGE : Z := 1.
Definition VIRTIO_CONFIG_S_DRIVER : Z := 2.
Definition VIRTIO_CONFIG_S_DRIVER_OK : Z := 4.
Definition VIRTIO_CONFIG_S_FEATURES_OK : Z := 8.
Definition VIRTIO_CONFIG_S_DEVICE_NEEDS_RESET : Z := 64.
Definition BLOCK_SIZE : Z := 1024.

(** What an address in a descriptor points to. *)
Inductive address := ANull | AOps (i : Z) | AStatus (i : Z) | ABuf (b : Z).

Record virtq_desc := Desc { addr : address; len : Z; flags : Z; desc_next : Z }.
Record virtio_blk_req := BlkReq { type : Z; reserved : Z; sector : Z }.
Record info_t := Info { wait_queue_of : single_wait_queue; done_ : bool; status : Z }.

#[export] Instance desc_inhabited : Inhabited virtq_desc := populate (Desc ANull 0 0 0).
#[export] Instance blk_req_inhabited : Inhabited virtio_blk_req := populate (BlkReq 0 0 0).
#[export] Instance info_inhabited : Inhabited info_t := populate (Info None false 0).

(** The registers that [open] uses, and the capacity in sectors. *)
Record virtio_regs_t := Regs {
  magic_value : Z; version : Z; device_id : Z; vendor_id : Z;
  device_features : Z; driver_features : Z; guest_page_size : Z;
  queue_num_max : Z; queue_num : Z; queue_pfn : Z;
  reg_status : Z; config_capacity : Z
}.

Record driver := Driver {
  regs : option virtio_regs_t;  (* None: the null pointer *)
  locked : bool;
  free : list bool;
  desc : list virtq_desc;
  ops : list virtio_blk_req;
  info : list info_t;
  seen : Z;  (* the member used_idx *)
  request_queue : wait_queue;
  woken : list Z  (* the tasks on which wake_up was called in this step *)
}.

Record rings := Rings { avail_idx : Z; avail_ring : list Z; used_idx : Z; used_ring : list Z }.

(** The bytes on the disk, and how far the device is. *)
Record device := Device { last_avail : Z; taken : list Z; store : Z -> Z }.

Record vstate := VState { drv : driver; rng : rings; dev : device; bufs : Z -> list Z }.

Definition upd_drv (f : driver -> driver) (s : vstate) : vstate := VState (f (drv s)) (rng s) (dev s) (bufs s).
Definition set_locked (b : bool) (d : driver) : driver :=
  Driver (regs d) b (free d) (desc d) (ops d) (info d) (seen d) (request_queue d) (woken d).
Definition set_free (l : list bool) (d : driver) : driver :=
  Driver (regs d) (locked d) l (desc d) (ops d) (info d) (seen d) (request_queue d) (woken d).
Definition set_desc (l : list virtq_desc) (d : driver) : driver :=
  Driver (regs d) (locked d) (free d) l (ops d) (info d) (seen d) (request_queue d) (woken d).
Definition set_ops (l : list virtio_blk_req) (d : driver) : driver :=
  Driver (regs d) (locked d) (free d) (desc d) l (info d) (seen d) (request_queue d) (woken d).
Definition set_info (l : list info_t) (d : driver) : driver :=
  Driver (regs d) (locked d) (free d) (desc d) (ops d) l (seen d) (request_queue d) (woken d).
Definition set_seen (n : Z) (d : driver) : driver :=
  Driver (regs d) (locked d) (free d) (desc d) (ops d) (info d) n (request_queue d) (woken d).
Definition set_queue (q : wait_queue) (d : driver) : driver :=
  Driver (regs d) (locked d) (free d) (desc d) (ops d) (info d) (seen d) q (woken d).
Definition set_woken (l : list Z) (d : driver) : driver :=
  Driver (regs d) (locked d) (free d) (desc d) (ops d) (info d) (seen d) (request_queue d) l.
Definition set_regs (r : option virtio_regs_t) (d : driver) : driver :=
  Driver r (locked d) (free d) (desc d) (ops d) (info d) (seen d) (request_queue d) (woken d).

Definition dmodify (f : driver -> driver) : K vstate unit := kmodify (upd_drv f).
Definition dget : K vstate driver := fun s => Ret (drv s) s.

(** ** Opening the device *)

Definition set_status (v : Z) (r : virtio_regs_t) : virtio_regs_t :=
  Regs (magic_value r) (version r) (device_id r) (vendor_id r) (device_features r) (driver_features r)
    (guest_page_size r) (queue_num_max r) (queue_num r) (queue_pfn r) v (config_capacity r).
Definition set_features (v : Z) (r : virtio_regs_t) : virtio_regs_t :=
  Regs (magic_value r) (version r) (device_id r) (vendor_id r) v (driver_features r)
    (guest_page_size r) (queue_num_max r) (queue_num r) (queue_pfn r) (reg_status r) (config_capacity r).
Definition set_queue_regs (page_size num pfn : Z) (r : virtio_regs_t) : virtio_regs_t :=
  Regs (magic_value r) (version r) (device_id r) (vendor_id r) (device_features r) (driver_features r)
    page_size (queue_num_max r) num pfn (reg_status r) (config_capacity r).

(** The feature bits that the driver turns off: RO, SCSI, FLUSH, CONFIG_WCE, MQ,
    ANY_LAYOUT, EVENT_IDX and INDIRECT_DESC. *)
Definition refused_features : list Z := [5; 7; 9; 11; 12; 27; 29; 28].
Definition negotiate (features : Z) : Z := foldl (fun f b => Z.land f (Z.lnot (2 ^ b))) features refused_features.

(** [open] on the device whose registers are [r]; [failed] is the bit
    DEVICE_NEEDS_RESET when the driver reads the status at the end, and
    [disk_pages] the address of the two pages of the rings. *)
Definition open (r : option virtio_regs_t) (failed : bool) (disk_pages : Z) : K vstate Z :=
  s <- kget ;;
  match r, regs (drv s) with
  | None, _ => kpanic
  | _, Some _ => kpanic
  | Some r, None =>
      let err := dmodify (set_regs None) ;;; kret (-1) in
      dmodify (set_regs (Some r)) ;;;
      if negb (magic_value r =? 0x74726976) || negb (version r =? 1) || negb (device_id r =? 2) ||
         negb (vendor_id r =? 0x554d4551)
      then err
      else
        let status := VIRTIO_CONFIG_S_ACKNOWLEDGE in
        let r := set_status status r in
        let status := Z.lor status VIRTIO_CONFIG_S_DRIVER in
        let r := set_status status r in
        let r := set_features (u32 (negotiate (device_features r))) r in
        let status := Z.lor status VIRTIO_CONFIG_S_FEATURES_OK in
        let r := set_status status r in
        let status := Z.lor status VIRTIO_CONFIG_S_DRIVER_OK in
        let r := set_status status r in
        if queue_num_max r =? 0 then err
        else if queue_num_max r <? NUM then err
        else
          kernel_assert (disk_pages mod PGSIZE =? 0) ;;;
          let r := set_queue_regs PGSIZE NUM (u32 (Z.shiftr disk_pages 12)) r in
          kmodify (fun s => VState (set_desc (replicate (Z.to_nat NUM) (Desc ANull 0 0 0)) (drv s))
            (Rings 0 (replicate (Z.to_nat NUM) 0) 0 (replicate (Z.to_nat NUM) 0)) (dev s) (bufs s)) ;;;
          let r := set_status (if failed then Z.lor status VIRTIO_CONFIG_S_DEVICE_NEEDS_RESET else status) r in
          if failed then err
          else
            dmodify (set_regs (Some r)) ;;;
            dmodify (set_free (replicate (Z.to_nat NUM) true)) ;;;
            kret 0
  end.

Definition close : K vstate unit := dmodify (set_regs None).

(** ** Driver *)

(** [lock.lock()] and [lock.unlock()]; a step that starts with [lock] is made
    only when the lock is free. *)
Definition lock : K vstate unit := dmodify (set_locked true).
Definition unlock : K vstate unit := dmodify (set_locked false).

(** [regs->...]. *)
Definition the_regs : K vstate virtio_regs_t := fun s =>
  match regs (drv s) with
  | Some r => Ret r s
  | None => Panic
  end.

Definition capacity : K vstate Z :=
  r <- the_regs ;;
  kret (u64 (config_capacity r * 512) / BLOCK_SIZE).

Fixpoint alloc_desc_loop (n : nat) (i : Z) : K vstate Z :=
  match n with
  | O => kret (-1)
  | S n' =>
      d <- dget ;;
      if nthZ (free d) i then
        dmodify (fun d => set_free (updZ (free d) i false) d) ;;;
        kret i
      else alloc_desc_loop n' (i + 1)
  end.
Definition alloc_desc : K vstate Z := alloc_desc_loop (Z.to_nat NUM) 0.

Definition free_desc (i : Z) : K vstate unit :=
  d <- dget ;;
  if NUM <=? i then kpanic
  else if nthZ (free d) i then kpanic
  else
    dmodify (fun d => set_desc (updZ (desc d) i (Desc ANull 0 0 0)) d) ;;;
    dmodify (fun d => set_free (updZ (free d) i true) d) ;;;
    dmodify (fun d => let '(w, q) := wake_up_one (request_queue d) in set_woken (woken d ++ w) (set_queue q d)).

(** A chain has at most [NUM] descriptors, so [NUM] rounds of the loop are
    enough. *)
Fixpoint free_chain_loop (fuel : nat) (i : Z) : K vstate unit :=
  match fuel with
  | O => kfuel
  | S fuel' =>
      d <- dget ;;
      let flag := flags (nthZ (desc d) i) in
      let nxt := desc_next (nthZ (desc d) i) in
      free_desc i ;;;
      if negb (Z.land flag VRING_DESC_F_NEXT =? 0) then free_chain_loop fuel' nxt else kret tt
  end.
Definition free_chain (i : Z) : K vstate unit := free_chain_loop (Z.to_nat NUM) i.

(** Three descriptors, or none: those already taken are given back. *)
Definition alloc_descs : K vstate (option (Z * Z * Z)) :=
  i0 <- alloc_desc ;;
  if i0 <? 0 then kret None
  else
    i1 <- alloc_desc ;;
    if i1 <? 0 then
      free_desc i0 ;;;
      kret None
    else
      i2 <- alloc_desc ;;
      if i2 <? 0 then
        free_desc i0 ;;;
        free_desc i1 ;;;
        kret None
      else kret (Some (i0, i1, i2)).

(** The part of [disk_command] in front of the lock. *)
Definition disk_command_enter (block_no count : Z) : K vstate unit :=
  kernel_assert (count =? 1) ;;;
  cap <- capacity ;;
  if cap <? u64 (block_no + count) then kfail else kret tt.

(** [flush], as far as it gets. *)
Definition flush : K vstate unit := disk_command_enter 0 0.

(** The three descriptors of a request. *)
Definition format_chain (command block_no count buf : Z) (idx : Z * Z * Z) : K vstate unit :=
  let '(i0, i1, i2) := idx in
  let sector := u64 (block_no * (BLOCK_SIZE / 512)) in
  dmodify (fun d => set_ops (updZ (ops d) i0 (BlkReq (u32 command) 0 sector)) d) ;;;
  dmodify (fun d => set_desc (updZ (desc d) i0 (Desc (AOps i0) 16 VRING_DESC_F_NEXT i1)) d) ;;;
  let flags := if (command =? VIRTIO_BLK_T_OUT) || (command =? VIRTIO_BLK_T_FLUSH) then 0 else VRING_DESC_F_WRITE in
  dmodify (fun d => set_desc (updZ (desc d) i1
    (Desc (ABuf buf) (u32 (count * BLOCK_SIZE)) (Z.lor flags VRING_DESC_F_NEXT) i2)) d) ;;;
  dmodify (fun d => set_info (updZ (info d) i0 (Info (wait_queue_of (nthZ (info d) i0)) false 0xfb)) d) ;;;
  dmodify (fun d => set_desc (updZ (desc d) i2 (Desc (AStatus i0) 1 VRING_DESC_F_WRITE 0)) d).

(** The head goes to the ring [avail]. *)
Definition publish (i0 : Z) : K vstate unit :=
  kmodify (fun s => let r := rng s in
    VState (drv s)
      (Rings (u16 (avail_idx r + 1)) (updZ (avail_ring r) (avail_idx r mod NUM) i0) (used_idx r) (used_ring r))
      (dev s) (bufs s)).

(** What a part of [disk_command] ends with: the task returns, it sleeps, or it
    goes on at once because it must not yield. *)
Inductive wres := WReturn (v : Z) | WSleep | WAgain.

(** One pass through the loop that waits for the request. *)
Definition command_wait (no_yield : bool) (t i0 : Z) : K vstate wres :=
  d <- dget ;;
  if done_ (nthZ (info d) i0) then
    free_chain i0 ;;;
    unlock ;;;
    kret (WReturn 0)
  else
    r <- the_regs ;;
    if negb (Z.land (reg_status r) VIRTIO_CONFIG_S_DEVICE_NEEDS_RESET =? 0) then kret (WReturn (-1))
    else if no_yield then
      unlock ;;;
      kret WAgain
    else
      dmodify (fun d => let f := nthZ (info d) i0 in
        set_info (updZ (info d) i0 (Info (single_sleep t (wait_queue_of f)) (done_ f) (status f))) d) ;;;
      unlock ;;;
      kret WSleep.

(** One pass through the loop that waits for descriptors and, when there are
    three, the request up to its first wait. *)
Definition command_try (no_yield : bool) (t command block_no count buf : Z) : K vstate (option (Z * Z * Z) * wres) :=
  lock ;;;
  idx <- alloc_descs ;;
  match idx with
  | None =>
      if no_yield then
        unlock ;;;
        kret (None, WAgain)
      else
        dmodify (fun d => set_queue (wq_sleep t (request_queue d)) d) ;;;
        unlock ;;;
        kret (None, WSleep)
  | Some (i0, i1, i2) =>
      format_chain command block_no count buf (i0, i1, i2) ;;;
      publish i0 ;;;
      w <- command_wait no_yield t i0 ;;
      kret (Some (i0, i1, i2), w)
  end.

(** After [co_await info[idx[0]].wait_queue.done(lock)]. *)
Definition command_resume (no_yield : bool) (t i0 : Z) : K vstate wres :=
  lock ;;;
  command_wait no_yield t i0.

(** [while (info[id].status != 0) ;] *)
Fixpoint spin_status (fuel : nat) (id : Z) : K vstate unit :=
  match fuel with
  | O => kfuel
  | S fuel' =>
      d <- dget ;;
      if status (nthZ (info d) id) =? 0 then kret tt else spin_status fuel' id
  end.

Fixpoint intr_loop (fuel : nat) : K vstate unit :=
  match fuel with
  | O => kfuel
  | S fuel' =>
      s <- kget ;;
      if seen (drv s) =? used_idx (rng s) then kret tt
      else
        let id := nthZ (used_ring (rng s)) (seen (drv s) mod NUM) in
        spin_status fuel' id ;;;
        dmodify (fun d => set_seen (u16 (seen d + 1)) d) ;;;
        dmodify (fun d => let f := nthZ (info d) id in
          let '(w, q) := single_wake_up (wait_queue_of f) in
          set_woken (woken d ++ w) (set_info (updZ (info d) id (Info q true (status f))) d)) ;;;
        intr_loop fuel'
  end.
Definition virtio_disk_intr (fuel : nat) : K vstate unit :=
  lock ;;;
  intr_loop fuel ;;;
  unlock.

(** ** Device *)

Definition in_transfer (sector len k : Z) : bool := (sector * 512 <=? k) && (k <? sector * 512 + len).
Definition read_store (st : Z -> Z) (sector len : Z) : list Z := (fun k => st k) <$> seqZ (sector * 512) len.
Definition write_store (st : Z -> Z) (sector len : Z) (data : list Z) : Z -> Z :=
  fun k => if in_transfer sector len k then nthZ data (k - sector * 512) else st k.

(** The device takes the next head. *)
Definition dev_take (s : vstate) : vstate :=
  let h := nthZ (avail_ring (rng s)) (last_avail (dev s) mod NUM) in
  VState (drv s) (rng s) (Device (u16 (last_avail (dev s) + 1)) (taken (dev s) ++ [h]) (store (dev s))) (bufs s).

(** It executes the chain at [h] as the descriptor table has it.  A chain of
    another form is one it does not understand. *)
Definition dev_execute (h : Z) (s : vstate) : option vstate :=
  let d := drv s in
  let d0 := nthZ (desc d) h in
  let d1 := nthZ (desc d) (desc_next d0) in
  let d2 := nthZ (desc d) (desc_next d1) in
  match addr d0, addr d1, addr d2 with
  | AOps o, ABuf b, AStatus i =>
      if negb (Z.land (flags d0) VRING_DESC_F_NEXT =? 0) && negb (Z.land (flags d1) VRING_DESC_F_NEXT =? 0) &&
         (Z.land (flags d2) VRING_DESC_F_NEXT =? 0)
      then
        let q := nthZ (ops d) o in
        let f := nthZ (info d) i in
        let d' := set_info (updZ (info d) i (Info (wait_queue_of f) (done_ f) 0)) d in
        if (type q =? VIRTIO_BLK_T_IN) && negb (Z.land (flags d1) VRING_DESC_F_WRITE =? 0) then
          Some (VState d' (rng s) (dev s) (upd (bufs s) b (read_store (store (dev s)) (sector q) (len d1))))
        else if (type q =? VIRTIO_BLK_T_OUT) && (Z.land (flags d1) VRING_DESC_F_WRITE =? 0) then
          Some (VState d' (rng s)
            (Device (last_avail (dev s)) (taken (dev s)) (write_store (store (dev s)) (sector q) (len d1) (bufs s b))) (bufs s))
        else None
      else None
  | _, _, _ => None
  end.

Definition remove_head (h : Z) (l : list Z) : list Z := filter (fun x => x <> h) l.

(** It gives the head back. *)
Definition dev_return (h : Z) (s : vstate) : vstate :=
  let r := rng s in
  VState (drv s) (Rings (avail_idx r) (avail_ring r) (u16 (used_idx r + 1)) (updZ (used_ring r) (used_idx r mod NUM) h))
    (Device (last_avail (dev s)) (remove_head h (taken (dev s))) (store (dev s))) (bufs s).

Definition dev_complete (h : Z) : K vstate unit := fun s =>
  match dev_execute h s with
  | Some s' => Ret tt (dev_return h s')
  | None => Panic
  end.

(** ** Tasks, driver and device together *)

(** A request for one block; [command] is a read or a write. *)
Record request := Request { command : Z; block_no : Z; buf : Z }.

(** Where a task is in [disk_command]: it wants descriptors, it waits for the
    device, it is about to return.  It is asleep or it may run. *)
Inductive tpc :=
| TReq (awake : bool) (r : request)
| TWait (awake : bool) (r : request) (i0 i1 i2 : Z)
| TReturn (r : request) (v : Z).

Record sys := Sys { vs : vstate; tasks : gmap Z tpc }.

Definition set_awake (p : tpc) : tpc :=
  match p with
  | TReq _ r => TReq true r
  | TWait _ r i0 i1 i2 => TWait true r i0 i1 i2
  | TReturn r v => TReturn r v
  end.

(** The tasks that were woken may run. *)
Definition wake_tasks (l : list Z) (m : gmap Z tpc) : gmap Z tpc := foldr (fun t m => alter set_awake t m) m l.
Definition settle (s : sys) : sys := Sys (upd_drv (set_woken []) (vs s)) (wake_tasks (woken (drv (vs s))) (tasks s)).

Definition is_awake (w : wres) : bool := match w with WSleep => false | _ => true end.

(** The place of the task after a part of [disk_command]. *)
Definition next_pc (r : request) (idx : option (Z * Z * Z)) (w : wres) : tpc :=
  match w, idx with
  | WReturn v, _ => TReturn r v
  | _, None => TReq (is_awake w) r
  | _, Some (i0, i1, i2) => TWait (is_awake w) r i0 i1 i2
  end.

Inductive label :=
| LStart (t : Z) (r : request) | LTry (t : Z) | LResume (t : Z) | LEnd (t : Z)
| LIntr | LTake | LComplete (h : Z).

Section steps.

(** The tasks that must not yield. *)
Context (no_yield : Z -> bool).

Definition lift {A : Type} (m : K vstate A) (k : A -> gmap Z tpc -> gmap Z tpc) : K sys unit := fun s =>
  match m (vs s) with
  | Ret a v => Ret tt (settle (Sys v (k a (tasks s))))
  | TaskFail v => TaskFail (Sys v (tasks s))
  | Panic => Panic
  | OutOfFuel => OutOfFuel
  end.

Definition run_label (l : label) : K sys unit := fun s =>
  match l with
  | LStart t r => lift (disk_command_enter (block_no r) 1) (fun _ m => <[t := TReq true r]> m) s
  | LTry t =>
      match tasks s !! t with
      | Some (TReq true r) =>
          lift (command_try (no_yield t) t (command r) (block_no r) 1 (buf r))
            (fun '(idx, w) m => <[t := next_pc r idx w]> m) s
      | _ => Ret tt s
      end
  | LResume t =>
      match tasks s !! t with
      | Some (TWait true r i0 i1 i2) =>
          lift (command_resume (no_yield t) t i0) (fun w m => <[t := next_pc r (Some (i0, i1, i2)) w]> m) s
      | _ => Ret tt s
      end
  | LEnd t => Ret tt (Sys (vs s) (delete t (tasks s)))
  | LIntr => lift (virtio_disk_intr (Z.to_nat NUM + 1)) (fun _ m => m) s
  | LTake => Ret tt (Sys (dev_take (vs s)) (tasks s))
  | LComplete h => lift (dev_complete h) (fun _ m => m) s
  end.

(** When a step is possible.  The steps of tasks and the handler need the
    lock. *)
Definition enabled (s : sys) (l : label) : Prop :=
  match l with
  | LStart t r => tasks s !! t = None /\ (command r = VIRTIO_BLK_T_IN \/ command r = VIRTIO_BLK_T_OUT) /\ 0 <= block_no r < 2 ^ 64 - 1
  | LTry t => locked (drv (vs s)) = false /\ exists r, tasks s !! t = Some (TReq true r)
  | LResume t => locked (drv (vs s)) = false /\ exists r i0 i1 i2, tasks s !! t = Some (TWait true r i0 i1 i2)
  | LEnd t => exists r v, tasks s !! t = Some (TReturn r v)
  | LIntr => locked (drv (vs s)) = false
  | LTake => last_avail (dev (vs s)) <> avail_idx (rng (vs s))
  | LComplete h => h ∈ taken (dev (vs s))
  end.

End steps.
