(* ===== verification/VirtioInv.v ===== *)
(** * The virtio disk driver: its invariant

    The rings as lists, the invariant of the driver with its tasks and the
    device (every descriptor is free or in one chain, a request in flight is
    pending in the device, finished or done, sleeping tasks are registered where
    they will be woken), and its preservation by the steps that run under the
    driver's lock: taking descriptors, issuing a request, waiting, giving a
    chain back, the interrupt handler. *)
From S2P Require Import Prelude Spinlock Mutex Virtio.

(** ** Rings *)

(** The [n] entries of a ring from position [i] on. *)
Definition win (ring : list Z) (i : Z) (n : nat) : list Z := (fun k => nthZ ring ((i + Z.of_nat k) mod NUM)) <$> seq 0 n.

Lemma length_win ring i n : length (win ring i n) = n.
Proof. unfold win. by rewrite length_fmap, length_seq. Qed.

Lemma win_shift ring i j n : i mod NUM = j mod NUM -> win ring i n = win ring j n.
Proof. intros H. unfold win. apply list_fmap_ext. intros _ k _. f_equal. unfold NUM in *. zlia. Qed.

Lemma win_pop ring i n : win ring i (S n) = nthZ ring (i mod NUM) :: win ring (i + 1) n.
Proof.
  unfold win. rewrite <- cons_seq. rewrite fmap_cons, <- fmap_S_seq, <- list_fmap_compose. f_equal; [f_equal; f_equal; lia|].
  apply list_fmap_ext. intros _ k _. cbn. do 2 f_equal. lia.
Qed.

Lemma win_push ring i n x :
  length ring = 8%nat -> (n < 8)%nat -> win (updZ ring ((i + Z.of_nat n) mod NUM) x) i (S n) = win ring i n ++ [x].
Proof.
  intros Hl Hn. unfold win. rewrite seq_S, fmap_app. f_equal.
  - apply list_fmap_ext. intros j k Hk. apply lookup_seq in Hk. apply nthZ_updZ_ne; unfold NUM; zlia.
  - cbn. rewrite nthZ_updZ_eq; [done|]. rewrite Hl. unfold NUM. zlia.
Qed.

(** The part of a ring between two 16-bit positions. *)
Definition between (ring : list Z) (from to : Z) : list Z := win ring from (Z.to_nat (u16 (to - from))).

Lemma between_pop ring from to :
  0 <= from < 2 ^ 16 -> 0 <= to < 2 ^ 16 -> from <> to ->
  between ring from to = nthZ ring (from mod NUM) :: between ring (u16 (from + 1)) to.
Proof.
  intros Hf Ht Hne. unfold between.
  replace (Z.to_nat (u16 (to - from))) with (S (Z.to_nat (u16 (to - u16 (from + 1))))) by ulia.
  rewrite win_pop. f_equal. apply win_shift. unfold NUM. ulia.
Qed.

Lemma between_push ring from to x :
  length ring = 8%nat -> 0 <= from < 2 ^ 16 -> 0 <= to < 2 ^ 16 -> (length (between ring from to) < 8)%nat ->
  between (updZ ring (to mod NUM) x) from (u16 (to + 1)) = between ring from to ++ [x].
Proof.
  unfold between. rewrite length_win. intros Hl Hf Ht Hn.
  replace (Z.to_nat (u16 (u16 (to + 1) - from))) with (S (Z.to_nat (u16 (to - from)))) by ulia.
  rewrite <- win_push by done. f_equal. f_equal. unfold NUM. ulia.
Qed.

Lemma between_nil ring from to : 0 <= from < 2 ^ 16 -> 0 <= to < 2 ^ 16 -> between ring from to = [] -> from = to.
Proof. intros Hf Ht Hb. assert (length (between ring from to) = 0%nat) as H by by rewrite Hb. unfold between in H. rewrite length_win in H. ulia. Qed.

(** The heads that the device has not completed, and those it has completed and
    the driver has not looked at. *)
Definition dev_queue (v : vstate) : list Z := between (avail_ring (rng v)) (last_avail (dev v)) (avail_idx (rng v)).
Definition pending (v : vstate) : list Z := dev_queue v ++ taken (dev v).
Definition finished (v : vstate) : list Z := between (used_ring (rng v)) (seen (drv v)) (used_idx (rng v)).

(** ** The invariant *)

Definition waits (m : gmap Z tpc) (t : Z) (r : request) (c : Z * Z * Z) : Prop :=
  exists a, m !! t = Some (TWait a r (fst (fst c)) (snd (fst c)) (snd c)).
Definition members (c : Z * Z * Z) : list Z := let '(i0, i1, i2) := c in [i0; i1; i2].
Definition head (c : Z * Z * Z) : Z := fst (fst c).

(** The chain [c] is in the table as [format_chain] wrote it for [r]. *)
Record chain_ok (d : driver) (r : request) (c : Z * Z * Z) : Prop := {
  c_range : forall i, i ∈ members c -> 0 <= i < NUM /\ nthZ (free d) i = false;
  c_nodup : NoDup (members c);
  c_desc0 : nthZ (desc d) (head c) = Desc (AOps (head c)) 16 VRING_DESC_F_NEXT (snd (fst c));
  c_desc1 : nthZ (desc d) (snd (fst c)) =
    Desc (ABuf (buf r)) BLOCK_SIZE (if command r =? VIRTIO_BLK_T_OUT then 1 else 3) (snd c);
  c_desc2 : nthZ (desc d) (snd c) = Desc (AStatus (head c)) 1 VRING_DESC_F_WRITE 0;
  c_ops : nthZ (ops d) (head c) = BlkReq (command r) 0 (block_no r * 2)
}.

(** Every descriptor is free or in one chain. *)
Record table_ok (d : driver) (m : gmap Z tpc) : Prop := {
  t_chain : forall t r c, waits m t r c -> chain_ok d r c;
  t_disj : forall t t' r r' c c' i, waits m t r c -> waits m t' r' c' -> i ∈ members c -> i ∈ members c' -> t = t';
  t_free : forall i, 0 <= i < NUM -> nthZ (free d) i = false -> exists t r c, waits m t r c /\ i ∈ members c
}.

(** A request in flight is pending in the device, finished, or done; [F] and
    [P] are the two parts of the rings. *)
Record rings_ok (P F : list Z) (inf : list info_t) (m : gmap Z tpc) : Prop := {
  r_nodup : NoDup (P ++ F);
  r_own : forall h, h ∈ P ++ F -> done_ (nthZ inf h) = false /\ exists t r c, waits m t r c /\ head c = h;
  r_status : forall h, h ∈ F -> status (nthZ inf h) = 0;
  r_where : forall t r c, waits m t r c -> done_ (nthZ inf (head c)) = false -> head c ∈ P ++ F
}.

(** A task that sleeps for a request is registered there, and only such a
    task. *)
Record sleep_ok (inf : list info_t) (m : gmap Z tpc) : Prop := {
  s_asleep : forall t r i0 i1 i2, m !! t = Some (TWait false r i0 i1 i2) ->
    done_ (nthZ inf i0) = false /\ wait_queue_of (nthZ inf i0) = Some t;
  s_waiter : forall i t, 0 <= i < NUM -> wait_queue_of (nthZ inf i) = Some t ->
    exists r i1 i2, m !! t = Some (TWait false r i i1 i2)
}.

(** The queue has the tasks that sleep for descriptors; while there is one,
    some request is in flight or some task is about to try again. *)
Record queue_ok (q : list Z) (m : gmap Z tpc) : Prop := {
  q_tasks : forall t, t ∈ q <-> exists r, m !! t = Some (TReq false r);
  q_nodup : NoDup q;
  q_prog : q <> [] -> (exists t r c, waits m t r c) \/ exists t r, m !! t = Some (TReq true r)
}.

Definition req_of (p : tpc) : request :=
  match p with TReq _ r | TWait _ r _ _ _ | TReturn r _ => r end.
Definition ok_request (r : request) : Prop :=
  (command r = VIRTIO_BLK_T_IN \/ command r = VIRTIO_BLK_T_OUT) /\ 0 <= block_no r < 2 ^ 54.

Record vcore (v : vstate) (m : gmap Z tpc) : Prop := {
  v_regs : exists r, regs (drv v) = Some r /\ Z.land (reg_status r) VIRTIO_CONFIG_S_DEVICE_NEEDS_RESET = 0;
  v_len : length (free (drv v)) = 8%nat /\ length (desc (drv v)) = 8%nat /\ length (ops (drv v)) = 8%nat /\
    length (info (drv v)) = 8%nat /\ length (avail_ring (rng v)) = 8%nat /\ length (used_ring (rng v)) = 8%nat;
  v_idx : 0 <= avail_idx (rng v) < 2 ^ 16 /\ 0 <= used_idx (rng v) < 2 ^ 16 /\ 0 <= seen (drv v) < 2 ^ 16 /\
    0 <= last_avail (dev v) < 2 ^ 16;
  v_table : table_ok (drv v) m;
  v_rings : rings_ok (pending v) (finished v) (info (drv v)) m;
  v_sleep : sleep_ok (info (drv v)) m;
  v_queue : queue_ok (request_queue (drv v)) m;
  v_req : forall t p, m !! t = Some p -> ok_request (req_of p);
  v_bufs : forall b, length (bufs v b) = 1024%nat
}.

Record vinv (s : sys) : Prop := {
  v_core : vcore (vs s) (tasks s);
  v_unlocked : locked (drv (vs s)) = false;
  v_woken : woken (drv (vs s)) = []
}.

(** ** Waking tasks *)

Lemma set_awake_idem p : set_awake (set_awake p) = set_awake p.
Proof. by destruct p. Qed.

Lemma wake_lookup l m t : wake_tasks l m !! t = if decide (t ∈ l) then set_awake <$> m !! t else m !! t.
Proof.
  induction l as [|u l IH]; cbn; [by rewrite decide_False by apply not_elem_of_nil|].
  fold (wake_tasks l m). destruct (decide (u = t)) as [->|Hne].
  - rewrite lookup_alter_eq, IH, (decide_True _ _ (P := t ∈ t :: l)) by by left.
    case_decide; [|done]. rewrite <- option_fmap_compose. apply option_fmap_ext. intros p. apply set_awake_idem.
  - rewrite lookup_alter_ne, IH by done. repeat case_decide; set_solver.
Qed.

Lemma wake_app l l' m : wake_tasks (l ++ l') m = wake_tasks l' (wake_tasks l m).
Proof.
  apply map_eq. intros t. rewrite !wake_lookup. repeat case_decide; try set_solver.
  rewrite <- option_fmap_compose. apply option_fmap_ext. intros p. symmetry. apply set_awake_idem.
Qed.

Lemma waits_wake l m t r c : waits (wake_tasks l m) t r c <-> waits m t r c.
Proof.
  unfold waits. rewrite wake_lookup. case_decide; [|done].
  destruct (m !! t) as [[]|]; cbn; naive_solver.
Qed.

(** The invariants of the table and of the rings depend only on who waits. *)
Lemma table_waits d m m' : (forall t r c, waits m' t r c <-> waits m t r c) -> table_ok d m -> table_ok d m'.
Proof.
  intros Hw [H1 H2 H3]. split.
  - intros t r c ?%Hw. eauto.
  - intros t t' r r' c c' i ?%Hw ?%Hw. eauto.
  - intros i Hi Hf. destruct (H3 i Hi Hf) as (t & r & c & ?%Hw & ?). eauto.
Qed.

Lemma rings_waits P F inf m m' : (forall t r c, waits m' t r c <-> waits m t r c) -> rings_ok P F inf m -> rings_ok P F inf m'.
Proof.
  intros Hw [H1 H2 H3 H4]. split; [done| |done|].
  - intros h Hh. destruct (H2 h Hh) as (? & t & r & c & ?%Hw & ?). eauto 10.
  - intros t r c ?%Hw. eauto.
Qed.

Lemma rings_perm P P' F F' inf m :
  P' ++ F' ≡ₚ P ++ F -> F' ⊆ F -> rings_ok P F inf m -> rings_ok P' F' inf m.
Proof.
  intros Hp Hs [H1 H2 H3 H4]. split.
  - by rewrite Hp.
  - intros h. rewrite Hp. apply H2.
  - intros h Hh. by apply H3, Hs.
  - intros t r c Hw Hd. rewrite Hp. eauto.
Qed.

(** Waking sleepers of the queue. *)
Lemma queue_wake w q m : queue_ok (w ++ q) m -> queue_ok q (wake_tasks w m).
Proof.
  intros [H1 H2 H3]. apply NoDup_app in H2 as (Hw & Hd & Hq). split; [|done|].
  - intros t. rewrite wake_lookup. split.
    + intros Ht. rewrite decide_False by (intros Hin; by apply (Hd t)). apply H1, elem_of_app. by right.
    + intros [r Hr]. case_decide as Hin; [by destruct (m !! t) as [[]|]|].
      assert (t ∈ w ++ q) as [|]%elem_of_app by (apply H1; by exists r); done.
  - intros Hne. destruct H3 as [(t & r & c & Ht)|(t & r & Ht)]; [by destruct w| |].
    + left. exists t, r, c. by apply waits_wake.
    + right. exists t, r. rewrite wake_lookup, Ht. by case_decide.
Qed.

Lemma sleep_wake w inf m :
  (forall t, t ∈ w -> exists r, m !! t = Some (TReq false r)) -> sleep_ok inf m -> sleep_ok inf (wake_tasks w m).
Proof.
  intros Hw [H1 H2]. split.
  - intros t r i0 i1 i2. rewrite wake_lookup. case_decide; [|eauto]. destruct (m !! t) as [[]|]; done.
  - intros i t Hi Ht. destruct (H2 i t Hi Ht) as (r & i1 & i2 & Hm). exists r, i1, i2. rewrite wake_lookup.
    case_decide as Hin; [|done]. destruct (Hw t Hin). congruence.
Qed.

(** ** Descriptors *)

Lemma nthZ_updZ {A} `{Inhabited A} (l : list A) i j x :
  0 <= i < Z.of_nat (length l) -> 0 <= j -> nthZ (updZ l i x) j = if decide (i = j) then x else nthZ l j.
Proof. intros Hi Hj. case_decide; [subst; by apply nthZ_updZ_eq|]. apply nthZ_updZ_ne; lia. Qed.

Definition freed (i : Z) (d : driver) : driver :=
  Driver (regs d) (locked d) (updZ (free d) i true) (updZ (desc d) i (Desc ANull 0 0 0)) (ops d) (info d) (seen d)
    (snd (wake_up_one (request_queue d))) (woken d ++ fst (wake_up_one (request_queue d))).

Lemma free_desc_run v i : 0 <= i < NUM -> nthZ (free (drv v)) i = false -> free_desc i v = Ret tt (upd_drv (freed i) v).
Proof.
  intros Hi Hf. unfold free_desc, kbind at 1, dget. rewrite (proj2 (Z.leb_gt NUM i)) by lia. rewrite Hf.
  unfold kbind, dmodify, kmodify, upd_drv, freed. cbn. by destruct (wake_up_one (request_queue (drv v))).
Qed.

(** Projections of the states that the operations build. *)
Ltac dsimpl := cbn [upd_drv drv rng dev bufs freed set_locked set_free set_desc set_ops set_info set_seen set_queue set_woken
  regs locked free desc ops info seen request_queue woken avail_idx avail_ring used_idx used_ring last_avail taken store
  wait_queue_of done_ status].
Ltac dsimpl_in H := cbn [upd_drv drv rng dev bufs freed set_locked set_free set_desc set_ops set_info set_seen set_queue set_woken
  regs locked free desc ops info seen request_queue woken avail_idx avail_ring used_idx used_ring last_avail taken store
  wait_queue_of done_ status] in H.

Definition taken_desc (i : Z) (d : driver) : driver := set_free (updZ (free d) i false) d.

Lemma alloc_loop_run n i v :
  0 <= i -> length (free (drv v)) = (Z.to_nat i + n)%nat ->
  (exists j, i <= j < i + Z.of_nat n /\ nthZ (free (drv v)) j = true /\
    alloc_desc_loop n i v = Ret j (upd_drv (taken_desc j) v)) \/
  alloc_desc_loop n i v = Ret (-1) v /\ forall j, i <= j < i + Z.of_nat n -> nthZ (free (drv v)) j = false.
Proof.
  revert i. induction n as [|n IH]; intros i Hi Hl; [right; split; [done|lia]|]. cbn [alloc_desc_loop].
  unfold kbind at 1, dget. unfold kbind at 2, dget. destruct (nthZ (free (drv v)) i) eqn:E.
  - left. exists i. split_and!; [lia|lia|done|done].
  - destruct (IH (i + 1)) as [(j & Hj & Hf & Hr)|[Hr Hf]]; [lia|lia| |].
    + left. exists j. split_and!; [lia|lia|done|done].
    + right. split; [done|]. intros j Hj. destruct (decide (j = i)) as [->|]; [done|]. apply Hf. lia.
Qed.

Lemma alloc_desc_run v :
  length (free (drv v)) = 8%nat ->
  (exists j, 0 <= j < NUM /\ nthZ (free (drv v)) j = true /\ alloc_desc v = Ret j (upd_drv (taken_desc j) v)) \/
  alloc_desc v = Ret (-1) v /\ forall j, 0 <= j < NUM -> nthZ (free (drv v)) j = false.
Proof. intros Hl. apply (alloc_loop_run 8 0 v); lia || done. Qed.

(** What a step that gives nothing away leaves: the descriptors in use, and a
    queue from whose front some tasks were woken. *)
Record quiet (d d' : driver) : Prop := {
  qt_regs : regs d' = regs d;
  qt_locked : locked d' = locked d;
  qt_free : forall i, 0 <= i < NUM -> nthZ (free d') i = nthZ (free d) i;
  qt_desc : forall i, 0 <= i < NUM -> nthZ (free d) i = false -> nthZ (desc d') i = nthZ (desc d) i;
  qt_ops : ops d' = ops d;
  qt_info : info d' = info d;
  qt_seen : seen d' = seen d;
  qt_queue : exists w, request_queue d = w ++ request_queue d' /\ woken d' = woken d ++ w;
  qt_len : length (free d') = length (free d) /\ length (desc d') = length (desc d)
}.

Lemma wake_up_one_split q : q = fst (wake_up_one q) ++ snd (wake_up_one q).
Proof. by destruct q. Qed.

Lemma quiet_one d i :
  0 <= i < NUM -> length (free d) = 8%nat -> length (desc d) = 8%nat -> nthZ (free d) i = true -> quiet d (freed i (taken_desc i d)).
Proof.
  intros Hi Hf Hd Ht. unfold NUM in *. split; try done; cbn [freed taken_desc set_free regs locked free desc ops info seen request_queue woken].
  - intros j Hj. rewrite !nthZ_updZ by (rewrite ?length_updZ; lia). by case_decide; subst.
  - intros j Hj Hju. rewrite nthZ_updZ by lia. case_decide; [congruence|done].
  - eexists. split; [apply wake_up_one_split|done].
  - by rewrite !length_updZ.
Qed.

Lemma quiet_two d i j :
  0 <= i < NUM -> 0 <= j < NUM -> i <> j -> length (free d) = 8%nat -> length (desc d) = 8%nat ->
  nthZ (free d) i = true -> nthZ (free d) j = true -> quiet d (freed j (freed i (taken_desc j (taken_desc i d)))).
Proof.
  intros Hi Hj Hne Hf Hd Ht Ht'. unfold NUM in *.
  split; try done; cbn [freed taken_desc set_free regs locked free desc ops info seen request_queue woken].
  - intros k Hk. rewrite !nthZ_updZ by (rewrite ?length_updZ; lia). by repeat case_decide; subst.
  - intros k Hk Hku. rewrite !nthZ_updZ by (rewrite ?length_updZ; lia). repeat case_decide; subst; congruence.
  - set (q := request_queue d). exists (fst (wake_up_one q) ++ fst (wake_up_one (snd (wake_up_one q)))).
    rewrite <- !app_assoc. split; [|done]. rewrite <- wake_up_one_split. apply wake_up_one_split.
  - by rewrite !length_updZ.
Qed.

Lemma alloc_descs_run v :
  length (free (drv v)) = 8%nat -> length (desc (drv v)) = 8%nat ->
  (exists i0 i1 i2, (forall i, i ∈ [i0; i1; i2] -> 0 <= i < NUM /\ nthZ (free (drv v)) i = true) /\ NoDup [i0; i1; i2] /\
    alloc_descs v = Ret (Some (i0, i1, i2)) (upd_drv (fun d => taken_desc i2 (taken_desc i1 (taken_desc i0 d))) v)) \/
  (exists d', alloc_descs v = Ret None (upd_drv (fun _ => d') v) /\ quiet (drv v) d' /\
    exists i, 0 <= i < NUM /\ nthZ (free (drv v)) i = false).
Proof.
  intros Hf Hd. unfold alloc_descs.
  destruct (alloc_desc_run v Hf) as [(i0 & H0 & F0 & R0)|[R0 F0]]; rewrite (kbind_ret _ _ _ _ _ R0).
  2:{ right. exists (drv v). cbn. split_and!; [by destruct v| |exists 0; split; [done|by apply F0]].
      split; try done. exists []. by rewrite app_nil_r. }
  rewrite (proj2 (Z.ltb_ge i0 0)) by lia.
  destruct (alloc_desc_run (upd_drv (taken_desc i0) v)) as [(i1 & H1 & F1 & R1)|[R1 F1]]; [unfold taken_desc; dsimpl; by rewrite length_updZ| |];
    rewrite (kbind_ret _ _ _ _ _ R1); cbn [upd_drv drv taken_desc set_free free] in F1.
  2:{ right. exists (freed i0 (taken_desc i0 (drv v))). cbn [Z.ltb Z.compare].
      rewrite (kbind_ret _ _ _ _ _ (free_desc_run (upd_drv (taken_desc i0) v) i0 H0 ltac:(unfold taken_desc; dsimpl; rewrite nthZ_updZ_eq; [done|unfold NUM in *; lia]))).
      split_and!; [done|by apply quiet_one|].
      pose proof (F1 (if decide (i0 = 0) then 1 else 0)) as Hx. rewrite nthZ_updZ in Hx by (unfold NUM in *; case_decide; lia).
      exists (if decide (i0 = 0) then 1 else 0). unfold NUM. case_decide; (split; [lia|]);
        rewrite decide_False in Hx by lia; apply Hx; unfold NUM; lia. }
  rewrite nthZ_updZ in F1 by (unfold NUM in *; lia). case_decide as Hne1; [done|].
  rewrite (proj2 (Z.ltb_ge i1 0)) by lia.
  destruct (alloc_desc_run (upd_drv (taken_desc i1) (upd_drv (taken_desc i0) v))) as [(i2 & H2 & F2 & R2)|[R2 F2]];
    [unfold taken_desc; dsimpl; by rewrite !length_updZ| |]; rewrite (kbind_ret _ _ _ _ _ R2); cbn [upd_drv drv taken_desc set_free free] in F2.
  2:{ right. exists (freed i1 (freed i0 (taken_desc i1 (taken_desc i0 (drv v))))). cbn [Z.ltb Z.compare].
      rewrite (kbind_ret _ _ _ _ _ (free_desc_run (upd_drv (taken_desc i1) (upd_drv (taken_desc i0) v)) i0 H0 ltac:(unfold taken_desc; dsimpl; rewrite !nthZ_updZ by (rewrite ?length_updZ; unfold NUM in *; lia);
        rewrite decide_False, decide_True by done; done))).
      rewrite (kbind_ret _ _ _ _ _ (free_desc_run (upd_drv (freed i0) (upd_drv (taken_desc i1) (upd_drv (taken_desc i0) v))) i1 H1 ltac:(unfold taken_desc; dsimpl; rewrite !nthZ_updZ by (rewrite ?length_updZ; unfold NUM in *; lia);
        rewrite decide_False, decide_True by done; done))).
      split_and!; [done|by apply quiet_two|].
      assert (exists k, 0 <= k < 8 /\ i0 <> k /\ i1 <> k) as (k & Hk & Hk0 & Hk1).
      { destruct (decide (i0 <> 0 /\ i1 <> 0)); [by exists 0; lia|]. destruct (decide (i0 <> 1 /\ i1 <> 1)); [exists 1; lia|exists 2; lia]. }
      exists k. split; [done|]. specialize (F2 k Hk). rewrite !nthZ_updZ in F2 by (rewrite ?length_updZ; unfold NUM in *; lia).
      by rewrite !decide_False in F2 by done. }
  rewrite !nthZ_updZ in F2 by (rewrite ?length_updZ; unfold NUM in *; lia). case_decide as Hne2; [done|]. case_decide as Hne3; [done|].
  rewrite (proj2 (Z.ltb_ge i2 0)) by lia. left. exists i0, i1, i2. split_and!.
  - intros i Hi. rewrite !elem_of_cons, elem_of_nil in Hi. by destruct Hi as [->|[->|[->|[]]]].
  - repeat constructor; rewrite ?elem_of_cons, ?elem_of_nil; naive_solver.
  - done.
Qed.

(** ** Steps of the driver *)

(** The lock and the list of woken tasks are not part of the invariant. *)
Lemma core_lock v m b l : vcore v m -> vcore (upd_drv (fun d => set_woken l (set_locked b d)) v) m.
Proof. by intros [? ? ? [] ? ? ? ? ?]; split; try done; split; [intros t r c Hw; destruct (t_chain0 t r c Hw); split|..]. Qed.

Lemma wake_insert l m t p : t ∉ l -> wake_tasks l (<[t := p]> m) = <[t := p]> (wake_tasks l m).
Proof.
  intros Ht. apply map_eq. intros u. rewrite wake_lookup. destruct (decide (u = t)) as [->|Hne].
  - by rewrite !lookup_insert_eq, decide_False.
  - by rewrite !lookup_insert_ne, wake_lookup by done.
Qed.

Lemma table_quiet d d' m : quiet d d' -> table_ok d m -> table_ok d' m.
Proof.
  intros [_ _ Hf Hd Ho _ _ _ _] [H1 H2 H3]. split; [|done|].
  - intros t r c Hw. destruct (H1 t r c Hw) as [Hr Hn D0 D1 D2 O]. destruct c as [[i0 i1] i2]. cbn in D0, D1, D2, O.
    assert (forall i, i ∈ members (i0, i1, i2) -> nthZ (desc d') i = nthZ (desc d) i) as Hdesc.
    { intros i Hi. destruct (Hr i Hi). by apply Hd. }
    split; cbn; rewrite ?Hdesc, ?Ho by (cbn; set_solver); try done.
    intros i Hi. destruct (Hr i Hi). by rewrite Hf.
  - intros i Hi. rewrite Hf by done. by apply H3.
Qed.

Lemma quiet_core v m d' w :
  vcore v m -> quiet (drv v) d' -> request_queue (drv v) = w ++ request_queue d' -> vcore (upd_drv (fun _ => d') v) (wake_tasks w m).
Proof.
  intros [H1 H2 H3 H4 H5 H6 H7 H8 H9] Hq Hw. pose proof Hq as [Q1 Q2 Q3 Q4 Q5 Q6 Q7 Q8 [Q9 Q10]].
  split; dsimpl; rewrite ?Q1, ?Q5, ?Q6, ?Q7, ?Q9, ?Q10; try done.
  - apply (table_waits _ m); [apply waits_wake|]. by apply (table_quiet (drv v)).
  - unfold pending, finished, dev_queue. dsimpl. rewrite Q7. apply (rings_waits _ _ _ m); [apply waits_wake|done].
  - apply sleep_wake; [|done]. intros t Ht. apply (q_tasks _ _ H7). rewrite Hw. set_solver.
  - apply queue_wake. by rewrite <- Hw.
  - intros t p. rewrite wake_lookup. case_decide; [|by apply H8]. destruct (m !! t) as [[]|] eqn:E; intros [= <-]; by apply (H8 _ _ E).
Qed.

Lemma waits_insert m t p p' :
  m !! t = Some p -> (forall a r i0 i1 i2, p <> TWait a r i0 i1 i2) -> (forall a r i0 i1 i2, p' <> TWait a r i0 i1 i2) ->
  forall u r c, waits (<[t := p']> m) u r c <-> waits m u r c.
Proof.
  intros Ht Hp Hp' u r c. unfold waits. destruct (decide (u = t)) as [->|Hne]; [|by rewrite lookup_insert_ne].
  rewrite lookup_insert_eq, Ht. split; intros [a [= ?]]; naive_solver.
Qed.

Lemma sleep_insert inf m t p p' :
  m !! t = Some p -> (forall r i0 i1 i2, p <> TWait false r i0 i1 i2) -> (forall r i0 i1 i2, p' <> TWait false r i0 i1 i2) ->
  sleep_ok inf m -> sleep_ok inf (<[t := p']> m).
Proof.
  intros Ht Hp Hp' [H1 H2]. split.
  - intros u r i0 i1 i2 [[<- E]|[_ Hu]]%lookup_insert_Some; [naive_solver|eauto].
  - intros i u Hi Hu. destruct (H2 i u Hi Hu) as (r & i1 & i2 & Hm). exists r, i1, i2. rewrite lookup_insert_ne; [done|naive_solver].
Qed.

(** A task goes to sleep for descriptors while a request is in flight. *)
Lemma sleep_request v m t r :
  vcore v m -> m !! t = Some (TReq true r) -> (exists u r' c, waits m u r' c) ->
  vcore (upd_drv (fun d => set_queue (wq_sleep t (request_queue d)) d) v) (<[t := TReq false r]> m).
Proof.
  intros [H1 H2 H3 H4 H5 H6 [H7 H7' _] H8 H9] Ht Hw.
  assert (forall u r0 c, waits (<[t := TReq false r]> m) u r0 c <-> waits m u r0 c) as Hwi by by eapply waits_insert.
  split; dsimpl; try done.
  - eapply table_waits; [done|]. destruct H4 as [T1 T2 T3]. split; try done. intros u r0 c Hu. destruct (T1 u r0 c Hu). by split.
  - by eapply rings_waits.
  - by eapply sleep_insert.
  - assert (t ∉ request_queue (drv v)) as Hnt by (intros [r0 ?]%H7; congruence). split.
    + intros u. unfold wq_sleep. rewrite elem_of_app, list_elem_of_singleton, H7. split.
      * intros [[r0 Hu]| ->]; [|exists r; apply lookup_insert_eq]. exists r0. rewrite lookup_insert_ne; [done|congruence].
      * intros [r0 [[<- _]|[_ Hu]]%lookup_insert_Some]; [by right|left; eauto].
    + unfold wq_sleep. apply NoDup_app. split_and!; [done|set_solver|apply NoDup_singleton].
    + intros _. left. destruct Hw as (u & r' & c & Hu). exists u, r', c. by apply Hwi.
  - intros u p [[<- <-]|[_ Hu]]%lookup_insert_Some; [by apply (H8 t (TReq true r))|by eapply H8].
Qed.

(** A new request in the table and in the ring [avail]. *)
Definition upd3 {A} (l : list A) (c : Z * Z * Z) (x0 x1 x2 : A) : list A :=
  updZ (updZ (updZ l (fst (fst c)) x0) (snd (fst c)) x1) (snd c) x2.

Definition issued (r : request) (c : Z * Z * Z) (v : vstate) : vstate :=
  let d := drv v in
  let fl := if command r =? VIRTIO_BLK_T_OUT then 1 else 3 in
  VState
    (Driver (regs d) (locked d) (upd3 (free d) c false false false)
      (upd3 (desc d) c (Desc (AOps (head c)) 16 VRING_DESC_F_NEXT (snd (fst c))) (Desc (ABuf (buf r)) BLOCK_SIZE fl (snd c))
        (Desc (AStatus (head c)) 1 VRING_DESC_F_WRITE 0))
      (updZ (ops d) (head c) (BlkReq (command r) 0 (block_no r * 2)))
      (updZ (info d) (head c) (Info (wait_queue_of (nthZ (info d) (head c))) false 0xfb)) (seen d) (request_queue d) (woken d))
    (Rings (u16 (avail_idx (rng v) + 1)) (updZ (avail_ring (rng v)) (avail_idx (rng v) mod NUM) (head c))
      (used_idx (rng v)) (used_ring (rng v)))
    (dev v) (bufs v).

Lemma issue_run {A} r i0 i1 i2 v (k : K vstate A) :
  ok_request r ->
  (format_chain (command r) (block_no r) 1 (buf r) (i0, i1, i2) ;;; publish i0 ;;; k)
    (upd_drv (fun d => taken_desc i2 (taken_desc i1 (taken_desc i0 d))) v) = k (issued r (i0, i1, i2) v).
Proof.
  intros [Hc Hb]. unfold issued, format_chain, publish, kbind, dmodify, kmodify, upd3. dsimpl. cbn [fst snd head].
  replace (u64 (block_no r * (BLOCK_SIZE / 512))) with (block_no r * 2) by (change (BLOCK_SIZE / 512) with 2; ulia).
  replace (u32 (command r)) with (command r) by (destruct Hc as [-> | ->]; done).
  destruct Hc as [-> | ->]; done.
Qed.

Lemma upd3_out {A} `{Inhabited A} (l : list A) c x0 x1 x2 j :
  length l = 8%nat -> (forall i, i ∈ members c -> 0 <= i < NUM) -> 0 <= j -> j ∉ members c -> nthZ (upd3 l c x0 x1 x2) j = nthZ l j.
Proof.
  destruct c as [[i0 i1] i2]. unfold upd3, NUM. cbn [members fst snd]. intros Hl Hc Hj Hn.
  assert (0 <= i0 < 8 /\ 0 <= i1 < 8 /\ 0 <= i2 < 8) as (? & ? & ?) by (split_and!; apply Hc; set_solver).
  rewrite !elem_of_cons in Hn. rewrite !nthZ_updZ by (rewrite ?length_updZ; lia). repeat case_decide; subst; naive_solver.
Qed.

Lemma upd3_in {A} `{Inhabited A} (l : list A) c x0 x1 x2 :
  length l = 8%nat -> (forall i, i ∈ members c -> 0 <= i < NUM) -> NoDup (members c) ->
  nthZ (upd3 l c x0 x1 x2) (head c) = x0 /\ nthZ (upd3 l c x0 x1 x2) (snd (fst c)) = x1 /\ nthZ (upd3 l c x0 x1 x2) (snd c) = x2.
Proof.
  destruct c as [[i0 i1] i2]. unfold upd3, NUM, head. cbn [members fst snd]. intros Hl Hc Hn.
  assert (0 <= i0 < 8 /\ 0 <= i1 < 8 /\ 0 <= i2 < 8) as (? & ? & ?) by (split_and!; apply Hc; set_solver).
  rewrite !NoDup_cons, !elem_of_cons in Hn.
  rewrite !nthZ_updZ by (rewrite ?length_updZ; lia). repeat case_decide; subst; naive_solver.
Qed.

Lemma upd3_same (l : list bool) c :
  length l = 8%nat -> (forall i, i ∈ members c -> 0 <= i < NUM) -> forall j, 0 <= j -> j ∈ members c -> nthZ (upd3 l c false false false) j = false.
Proof.
  destruct c as [[i0 i1] i2]. unfold upd3, NUM. cbn [members fst snd]. intros Hl Hc j Hj Hn.
  assert (0 <= i0 < 8 /\ 0 <= i1 < 8 /\ 0 <= i2 < 8) as (? & ? & ?) by (split_and!; apply Hc; set_solver).
  rewrite !elem_of_cons, elem_of_nil in Hn. rewrite !nthZ_updZ by (rewrite ?length_updZ; lia). repeat case_decide; subst; naive_solver.
Qed.

Lemma length_upd3 {A} (l : list A) c x0 x1 x2 : length (upd3 l c x0 x1 x2) = length l.
Proof. unfold upd3. by rewrite !length_updZ. Qed.

Lemma waits_new m t r c a u r' c' :
  (forall r0 c0, ~ waits m t r0 c0) ->
  waits (<[t := TWait a r (fst (fst c)) (snd (fst c)) (snd c)]> m) u r' c' <->
  u = t /\ r' = r /\ c' = c \/ u <> t /\ waits m u r' c'.
Proof.
  intros Hn. unfold waits. destruct (decide (u = t)) as [->|Hne].
  - rewrite lookup_insert_eq. destruct c as [[i0 i1] i2], c' as [[j0 j1] j2]; cbn. split.
    + intros [a' [= -> -> -> -> ->]]. by left.
    + intros [(_ & -> & [= -> -> ->])|[]]; [by exists a|done].
  - rewrite lookup_insert_ne by done. naive_solver.
Qed.

(** The head of a waiting chain is not free. *)
Lemma head_member c : head c ∈ members c.
Proof. destruct c as [[i0 i1] i2]. cbn. by left. Qed.

(** Different indices of descriptors are at most [NUM]. *)
Lemma heads_bound (l : list Z) : NoDup l -> (forall h, h ∈ l -> 0 <= h < NUM) -> (length l <= 8)%nat.
Proof.
  intros Hn Hl. change 8%nat with (length (seqZ 0 NUM)). apply submseteq_length, NoDup_submseteq; [done|].
  intros h Hh. apply elem_of_seqZ. apply Hl in Hh. lia.
Qed.

Lemma rings_heads v m h :
  vcore v m -> h ∈ pending v ++ finished v -> 0 <= h < NUM /\ nthZ (free (drv v)) h = false.
Proof.
  intros Hc Hh. destruct (r_own _ _ _ _ (v_rings _ _ Hc) h Hh) as (_ & t & r & c & Hw & <-).
  apply (c_range _ _ _ (t_chain _ _ (v_table _ _ Hc) t r c Hw)), head_member.
Qed.

Section issue.
Context (v : vstate) (m : gmap Z tpc) (t : Z) (r : request) (c : Z * Z * Z).
Context (Hcore : vcore v m) (Ht : m !! t = Some (TReq true r)).
Context (Hfree : forall i, i ∈ members c -> 0 <= i < NUM /\ nthZ (free (drv v)) i = true) (Hnd : NoDup (members c)).
Local Notation m' := (<[t := TWait true r (fst (fst c)) (snd (fst c)) (snd c)]> m).

Lemma issue_range i : i ∈ members c -> 0 <= i < NUM.
Proof. intros Hi. by apply Hfree. Qed.

Lemma issue_waits u r' c' : waits m' u r' c' <-> u = t /\ r' = r /\ c' = c \/ u <> t /\ waits m u r' c'.
Proof. apply waits_new. intros r0 c0 [a Ha]. congruence. Qed.

(** Chains in use do not meet the new one. *)
Lemma issue_apart u r' c' i : waits m u r' c' -> i ∈ members c' -> 0 <= i < NUM /\ nthZ (free (drv v)) i = false /\ i ∉ members c.
Proof.
  intros Hw Hi. destruct (c_range _ _ _ (t_chain _ _ (v_table _ _ Hcore) u r' c' Hw) i Hi) as [Hr Hf]. split; [done|]. split; [done|].
  intros Hc. destruct (Hfree i Hc). congruence.
Qed.

Lemma issue_table : table_ok (drv (issued r c v)) m'.
Proof.
  destruct (v_len _ _ Hcore) as (L1 & L2 & L3 & L4 & _). pose proof issue_range as Hr. pose proof (head_member c) as Hh. split.
  - intros u r' c' [(-> & -> & ->)|[_ Hw]]%issue_waits.
    + destruct (upd3_in (desc (drv v)) c (Desc (AOps (head c)) 16 VRING_DESC_F_NEXT (snd (fst c)))
        (Desc (ABuf (buf r)) BLOCK_SIZE (if command r =? VIRTIO_BLK_T_OUT then 1 else 3) (snd c))
        (Desc (AStatus (head c)) 1 VRING_DESC_F_WRITE 0) L2 Hr Hnd) as (E0 & E1 & E2).
      split; unfold issued; dsimpl; try done.
      * intros i Hi. split; [by apply Hr|]. apply upd3_same; try done. by apply Hr.
      * apply nthZ_updZ_eq. rewrite L3. by apply Hr.
    + destruct (t_chain _ _ (v_table _ _ Hcore) u r' c' Hw) as [C1 C2 C3 C4 C5 C6].
      assert (forall i, i ∈ members c' -> 0 <= i < NUM /\ i ∉ members c) as Hout by (intros i Hi; by destruct (issue_apart u r' c' i Hw Hi) as (? & _ & ?)).
      assert (forall i, i ∈ members c' -> forall A (HA : Inhabited A) (l : list A) x0 x1 x2, length l = 8%nat -> nthZ (upd3 l c x0 x1 x2) i = nthZ l i) as Hup.
      { intros i Hi A HA l x0 x1 x2 Hl. destruct (Hout i Hi). apply upd3_out; done || lia. }
      destruct c' as [[j0 j1] j2]. cbn [head fst snd] in *.
      split; unfold issued; dsimpl; cbn [head fst snd]; rewrite ?Hup by (done || (cbn; set_solver)); try done.
      * intros i Hi. rewrite Hup by done. by apply C1.
      * destruct (Hout j0) as [? Hn]; [cbn; set_solver|]. pose proof (Hr _ Hh). unfold NUM in *. rewrite nthZ_updZ_ne; [done|lia|lia|].
        intros <-. by apply Hn.
  - intros u u' r1 r2 c1 c2 i [(-> & -> & ->)|[_ Hw]]%issue_waits [(-> & -> & ->)|[_ Hw']]%issue_waits Hi Hi'; try done.
    + by destruct (issue_apart _ _ _ i Hw' Hi') as (_ & _ & ?).
    + by destruct (issue_apart _ _ _ i Hw Hi) as (_ & _ & ?).
    + by eapply (t_disj _ _ (v_table _ _ Hcore)).
  - intros i Hi Hf. unfold issued in Hf. dsimpl_in Hf. destruct (decide (i ∈ members c)) as [Hc|Hc].
    + exists t, r, c. split; [|done]. apply issue_waits. by left.
    + rewrite upd3_out in Hf by (done || lia). destruct (t_free _ _ (v_table _ _ Hcore) i Hi Hf) as (u & r' & c' & Hw & Hi').
      exists u, r', c'. split; [|done]. apply issue_waits. right. split; [|done]. intros ->. destruct Hw as [a Ha]. congruence.
Qed.

Lemma issue_pending : pending (issued r c v) ≡ₚ head c :: pending v.
Proof.
  destruct (v_len _ _ Hcore) as (_ & _ & _ & _ & L5 & _). destruct (v_idx _ _ Hcore) as (I1 & _ & _ & I4).
  unfold pending, dev_queue, issued. dsimpl. rewrite between_push; [|done|done|done|].
  - rewrite <- app_assoc. cbn. by rewrite <- Permutation_middle.
  - fold (dev_queue v). assert (length (head c :: pending v ++ finished v) <= 8)%nat as Hb; [apply heads_bound|].
    + apply NoDup_cons. split; [|apply (v_rings _ _ Hcore)]. intros Hh. apply (rings_heads v m) in Hh as [_ Hf]; [|done].
      destruct (Hfree (head c) (head_member c)). congruence.
    + intros h [->|Hh]%elem_of_cons; [apply issue_range, head_member|]. by apply (rings_heads v m) in Hh as [? _].
    + cbn [length] in Hb. unfold pending in Hb. rewrite !length_app in Hb. lia.
Qed.

Lemma issue_info i : 0 <= i < NUM ->
  nthZ (info (drv (issued r c v))) i = if decide (head c = i) then Info (wait_queue_of (nthZ (info (drv v)) i)) false 0xfb
    else nthZ (info (drv v)) i.
Proof.
  intros Hi. destruct (v_len _ _ Hcore) as (_ & _ & _ & L4 & _). pose proof (issue_range _ (head_member c)). unfold issued. dsimpl.
  unfold NUM in *. rewrite nthZ_updZ by lia. by case_decide; subst.
Qed.

(** Heads in flight are not the new one. *)
Lemma issue_head_ne u r' c' : waits m u r' c' -> head c <> head c'.
Proof.
  intros Hw E. destruct (issue_apart u r' c' (head c') Hw (head_member c')) as (_ & _ & Hn). rewrite <- E in Hn.
  by apply Hn, head_member.
Qed.

Lemma issue_rings : rings_ok (pending (issued r c v)) (finished v) (info (drv (issued r c v))) m'.
Proof.
  destruct (v_rings _ _ Hcore) as [R1 R2 R3 R4].
  assert (forall h, h ∈ pending v ++ finished v -> head c <> h /\ 0 <= h < NUM) as Hne.
  { intros h Hh. destruct (R2 h Hh) as (_ & u & r' & c' & Hw & <-). split; [by eapply issue_head_ne|].
    apply (c_range _ _ _ (t_chain _ _ (v_table _ _ Hcore) u r' c' Hw)), head_member. }
  pose proof (issue_range _ (head_member c)) as Hh. split.
  - rewrite issue_pending, <- app_comm_cons. apply NoDup_cons. split; [|done]. intros Hin. by destruct (Hne _ Hin).
  - intros h. rewrite issue_pending, <- app_comm_cons. intros [->|Hin]%elem_of_cons.
    + rewrite issue_info, decide_True by done. split; [done|]. exists t, r, c. split; [apply issue_waits; by left|done].
    + destruct (Hne h Hin). rewrite issue_info, decide_False by done. destruct (R2 h Hin) as (? & u & r' & c' & Hw & ?).
      split; [done|]. exists u, r', c'. split; [|done]. apply issue_waits. right. split; [|done]. intros ->. destruct Hw. congruence.
  - intros h Hin. destruct (Hne h) as [? ?]; [set_solver|]. rewrite issue_info, decide_False by done. by apply R3.
  - intros u r' c'. rewrite issue_waits. intros [(-> & -> & ->)|[_ Hw]]; rewrite issue_pending, <- app_comm_cons; [by left|].
    rewrite issue_info, decide_False; [|by eapply issue_head_ne|].
    + intros Hd. right. by eapply R4.
    + apply (c_range _ _ _ (t_chain _ _ (v_table _ _ Hcore) u r' c' Hw)), head_member.
Qed.

Lemma issue_sleep : sleep_ok (info (drv (issued r c v))) m'.
Proof.
  destruct (v_sleep _ _ Hcore) as [S1 S2]. split.
  - intros u r' i0 i1 i2 [[_ [=]]|[_ Hu]]%lookup_insert_Some. assert (waits m u r' (i0, i1, i2)) as Hw by by exists false.
    pose proof (issue_head_ne u r' _ Hw) as Hne. cbn in Hne.
    destruct (c_range _ _ _ (t_chain _ _ (v_table _ _ Hcore) u r' _ Hw) i0) as [? _]; [cbn; by left|].
    rewrite issue_info, decide_False by done. by apply (S1 u r' i0 i1 i2).
  - intros i u Hi. rewrite issue_info by done. case_decide as Hh; cbn; intros Hu; destruct (S2 i u Hi Hu) as (r' & i1 & i2 & Hm).
    + subst. exfalso. assert (waits m u r' (head c, i1, i2)) as Hw by by exists false. by apply issue_head_ne in Hw.
    + exists r', i1, i2. rewrite lookup_insert_ne; [done|congruence].
Qed.

Lemma issue_core : vcore (issued r c v) m'.
Proof.
  pose proof Hcore as [H1 H2 H3 H4 H5 H6 [H7 H7' H7''] H8 H9]. split.
  - done.
  - unfold issued. dsimpl. by rewrite !length_upd3, !length_updZ.
  - unfold issued. dsimpl. split_and!; try apply H3; ulia.
  - apply issue_table.
  - apply issue_rings.
  - apply issue_sleep.
  - unfold issued. dsimpl. split; [|done|].
    + intros u. rewrite H7. split; intros [r' Hu].
      * exists r'. rewrite lookup_insert_ne; [done|congruence].
      * apply lookup_insert_Some in Hu as [[_ [=]]|[_ Hu]]. eauto.
    + intros _. left. exists t, r, c. apply issue_waits. by left.
  - intros u p [[<- <-]|[_ Hu]]%lookup_insert_Some; [by apply (H8 t (TReq true r))|by eapply H8].
  - done.
Qed.
End issue.

(** A write that keeps a field keeps it everywhere. *)
Lemma nthZ_updZ_proj {A B} `{Inhabited A} (f : A -> B) (l : list A) i j x :
  f x = f (nthZ l i) -> f (nthZ (updZ l i x) j) = f (nthZ l j).
Proof.
  intros Hf. unfold nthZ, updZ in *. destruct (decide (Z.to_nat i = Z.to_nat j)) as [E|E].
  - rewrite <- E. destruct (decide (Z.to_nat i < length l)%nat) as [Hl|Hl].
    + by rewrite (nth_lookup (<[Z.to_nat i := x]> l)), list_lookup_insert_eq.
    + by rewrite list_insert_ge by lia.
  - by rewrite !nth_lookup, list_lookup_insert_ne.
Qed.

Lemma rings_info P F inf inf' m :
  (forall i, done_ (nthZ inf' i) = done_ (nthZ inf i)) -> (forall i, status (nthZ inf' i) = status (nthZ inf i)) ->
  rings_ok P F inf m -> rings_ok P F inf' m.
Proof.
  intros Hd Hs [R1 R2 R3 R4]. split; [done| | |].
  - intros h Hh. rewrite Hd. by apply R2.
  - intros h Hh. rewrite Hs. by apply R3.
  - intros t r c Hw. rewrite Hd. by eapply R4.
Qed.

(** The table does not look at [info]. *)
Lemma table_set_info d l m : table_ok d m -> table_ok (set_info l d) m.
Proof. intros [T1 T2 T3]. split; try done. intros t r c Hw. by destruct (T1 t r c Hw). Qed.

Definition slept (t i0 : Z) (d : driver) : driver :=
  set_info (updZ (info d) i0 (Info (single_sleep t (wait_queue_of (nthZ (info d) i0))) (done_ (nthZ (info d) i0))
    (status (nthZ (info d) i0)))) d.

Lemma waits_same m t r a a' i0 i1 i2 :
  m !! t = Some (TWait a r i0 i1 i2) ->
  forall u r' c', waits (<[t := TWait a' r i0 i1 i2]> m) u r' c' <-> waits m u r' c'.
Proof.
  intros Ht u r' c'. unfold waits. destruct (decide (u = t)) as [->|Hne]; [|by rewrite lookup_insert_ne].
  rewrite lookup_insert_eq, Ht. destruct c' as [[j0 j1] j2]. split; intros [b [= ? ? ? ?]]; subst; eauto.
Qed.

Lemma sleep_core v m t r i0 i1 i2 :
  vcore v m -> m !! t = Some (TWait true r i0 i1 i2) -> done_ (nthZ (info (drv v)) i0) = false ->
  vcore (upd_drv (slept t i0) v) (<[t := TWait false r i0 i1 i2]> m).
Proof.
  intros Hcore Ht Hdone. pose proof Hcore as [H1 H2 H3 H4 H5 [S1 S2] [H7 H7' H7''] H8 H9].
  assert (waits m t r (i0, i1, i2)) as Hwt by by exists true.
  assert (0 <= i0 < NUM) as Hi0 by (apply (c_range _ _ _ (t_chain _ _ H4 t r _ Hwt)); cbn; by left).
  pose proof (waits_same m t r true false i0 i1 i2 Ht) as Hw. unfold slept. destruct H2 as (L1 & L2 & L3 & L4 & L5 & L6).
  split; dsimpl; try done.
  - by rewrite length_updZ.
  - apply (table_waits _ m); [done|]. by apply table_set_info.
  - apply (rings_waits _ _ _ m); [done|]. by apply (rings_info _ _ (info (drv v))); [intros i; apply nthZ_updZ_proj..|].
  - split.
    + intros u r' j0 j1 j2 [[<- [= <- <- <- <-]]|[Hut Hu]]%lookup_insert_Some.
      * unfold NUM in *. rewrite nthZ_updZ_eq by lia. done.
      * assert (waits m u r' (j0, j1, j2)) as Hwu by by exists false.
        assert (0 <= j0 < NUM) by (apply (c_range _ _ _ (t_chain _ _ H4 u r' _ Hwu)); cbn; by left).
        unfold NUM in *. rewrite nthZ_updZ_ne; [by apply (S1 u r' j0 j1 j2)|lia|lia|]. intros ->.
        apply Hut. apply (t_disj _ _ H4 t u _ _ _ _ j0 Hwt Hwu); cbn; by left.
    + intros i u Hi. unfold NUM in *. rewrite nthZ_updZ by lia. case_decide as Hii; cbn.
      * intros [= <-]. subst. exists r, i1, i2. apply lookup_insert_eq.
      * intros Hu. destruct (S2 i u Hi Hu) as (r' & j1 & j2 & Hm). exists r', j1, j2. rewrite lookup_insert_ne; [done|congruence].
  - split; [|done|].
    + intros u. rewrite H7. split; intros [r' Hu].
      * exists r'. rewrite lookup_insert_ne; [done|congruence].
      * apply lookup_insert_Some in Hu as [[_ [=]]|[_ Hu]]. eauto.
    + intros _. left. exists t, r, (i0, i1, i2). by apply Hw.
  - intros u p [[<- <-]|[_ Hu]]%lookup_insert_Some; [by apply (H8 t _ Ht)|by eapply H8].
Qed.

(** ** Giving a chain back *)

Definition freed3 (c : Z * Z * Z) (d : driver) : driver := freed (snd c) (freed (snd (fst c)) (freed (head c) d)).

Lemma free_chain_step n i v a l f nxt :
  0 <= i < NUM -> nthZ (free (drv v)) i = false -> nthZ (desc (drv v)) i = Desc a l f nxt ->
  free_chain_loop (S n) i v = if negb (Z.land f VRING_DESC_F_NEXT =? 0) then free_chain_loop n nxt (upd_drv (freed i) v)
    else Ret tt (upd_drv (freed i) v).
Proof.
  intros Hi Hf Hd. cbn [free_chain_loop]. unfold kbind at 1, dget. rewrite Hd. cbn [flags desc_next].
  rewrite (kbind_ret _ _ _ _ _ (free_desc_run v i Hi Hf)). by destruct (negb _).
Qed.

Lemma free_chain_run v r c :
  chain_ok (drv v) r c -> length (free (drv v)) = 8%nat -> length (desc (drv v)) = 8%nat ->
  free_chain (head c) v = Ret tt (upd_drv (freed3 c) v).
Proof.
  destruct c as [[i0 i1] i2]. intros [C1 C2 C3 C4 C5 C6] Lf Ld. cbn [head fst snd] in *. unfold members in *.
  destruct (C1 i0) as [R0 F0]; [set_solver|]. destruct (C1 i1) as [R1 F1]; [set_solver|]. destruct (C1 i2) as [R2 F2]; [set_solver|].
  rewrite !NoDup_cons, !elem_of_cons in C2. destruct C2 as (N0 & N1 & _).
  assert (i0 <> i1 /\ i0 <> i2 /\ i1 <> i2) as (? & ? & ?) by naive_solver. unfold NUM in *.
  unfold free_chain. change (Z.to_nat NUM) with 8%nat. rewrite (free_chain_step _ _ _ _ _ _ _ R0 F0 C3).
  cbn [VRING_DESC_F_NEXT Z.land Pos.land Z.eqb negb].
  rewrite (free_chain_step _ i1 _ (ABuf (buf r)) BLOCK_SIZE (if command r =? VIRTIO_BLK_T_OUT then 1 else 3) i2); [|done| |];
    [|dsimpl; rewrite nthZ_updZ_ne; done || lia..].
  assert (negb (Z.land (if command r =? VIRTIO_BLK_T_OUT then 1 else 3) VRING_DESC_F_NEXT =? 0) = true) as -> by by destruct (command r =? _).
  rewrite (free_chain_step _ i2 _ (AStatus i0) 1 VRING_DESC_F_WRITE 0); [done|done| |];
    dsimpl; rewrite !nthZ_updZ_ne; done || lia.
Qed.

(** The table after it, and the tasks that were woken. *)
Lemma freed3_fields c d :
  length (free d) = 8%nat -> length (desc d) = 8%nat -> (forall i, i ∈ members c -> 0 <= i < NUM) ->
  (forall i, 0 <= i < NUM -> nthZ (free (freed3 c d)) i = true /\ i ∈ members c \/
    nthZ (free (freed3 c d)) i = nthZ (free d) i /\ nthZ (desc (freed3 c d)) i = nthZ (desc d) i /\ i ∉ members c) /\
  exists w, request_queue d = w ++ request_queue (freed3 c d) /\ woken (freed3 c d) = woken d ++ w /\
    (request_queue (freed3 c d) <> [] -> w <> []).
Proof.
  destruct c as [[i0 i1] i2]. unfold freed3, members. cbn [head fst snd]. intros Lf Ld Hr. unfold NUM in *.
  assert (0 <= i0 < 8 /\ 0 <= i1 < 8 /\ 0 <= i2 < 8) as (? & ? & ?) by (split_and!; apply Hr; set_solver). split.
  - intros i Hi. dsimpl. rewrite !nthZ_updZ by (rewrite ?length_updZ; lia). rewrite !elem_of_cons, elem_of_nil.
    repeat case_decide; subst; naive_solver.
  - dsimpl. set (q := request_queue d).
    exists (fst (wake_up_one q) ++ fst (wake_up_one (snd (wake_up_one q))) ++ fst (wake_up_one (snd (wake_up_one (snd (wake_up_one q)))))).
    rewrite <- !app_assoc. split_and!; [|done|].
    + rewrite <- !wake_up_one_split. done.
    + by destruct q.
Qed.

Lemma waits_fun m t r r' c c' : waits m t r c -> waits m t r' c' -> r = r' /\ c = c'.
Proof. destruct c as [[i0 i1] i2], c' as [[j0 j1] j2]. intros [a Ha] [b Hb]. rewrite Ha in Hb. by simplify_eq/=. Qed.

(** A request that is done gives its chain back. *)
Lemma finish_core v m t r c w :
  vcore v m -> m !! t = Some (TWait true r (fst (fst c)) (snd (fst c)) (snd c)) -> done_ (nthZ (info (drv v)) (head c)) = true ->
  request_queue (drv v) = w ++ request_queue (freed3 c (drv v)) -> (request_queue (freed3 c (drv v)) <> [] -> w <> []) ->
  vcore (upd_drv (freed3 c) v) (wake_tasks w (<[t := TReturn r 0]> m)).
Proof.
  intros Hcore Ht Hdone Hq Hqw. pose proof Hcore as [H1 (L1 & L2 & L3) H3 H4 [R1 R2 R3 R4] [S1 S2] H7 H8 H9].
  assert (waits m t r c) as Hwt by by exists true. pose proof (t_chain _ _ H4 t r c Hwt) as [C1 _ _ _ _ _].
  destruct (freed3_fields c (drv v) L1 L2) as [Hf _]; [intros i Hi; by apply C1|].
  assert (forall u r' c', waits (wake_tasks w (<[t := TReturn r 0]> m)) u r' c' <-> u <> t /\ waits m u r' c') as Hw.
  { intros u r' c'. rewrite waits_wake. unfold waits. destruct (decide (u = t)) as [->|Hne].
    - rewrite lookup_insert_eq. split; [by intros [? [=]]|by intros [? _]].
    - rewrite lookup_insert_ne by done. naive_solver. }
  assert (forall u, u ∈ w -> exists r', m !! u = Some (TReq false r')) as Hww by (intros u Hu; apply (q_tasks _ _ H7); rewrite Hq; set_solver).
  assert (t ∉ w) as Htw by (intros [r' ?]%Hww; congruence). split; dsimpl; try done.
  - unfold freed3. dsimpl. by rewrite !length_updZ.
  - split.
    + intros u r' c' [Hne Hu]%Hw. destruct (t_chain _ _ H4 u r' c' Hu) as [D1 D2 D3 D4 D5 D6].
      assert (forall i, i ∈ members c' -> nthZ (free (freed3 c (drv v))) i = nthZ (free (drv v)) i /\
        nthZ (desc (freed3 c (drv v))) i = nthZ (desc (drv v)) i) as Hsame.
      { intros i Hi. destruct (Hf i) as [[_ Hin]|(? & ? & _)]; [by apply D1| |done]. exfalso.
        apply Hne, (t_disj _ _ H4 u t _ _ _ _ i Hu Hwt Hi Hin). }
      destruct c' as [[j0 j1] j2]. cbn [head fst snd] in *.
      destruct (Hsame j0) as [_ E0]; [cbn; set_solver|]. destruct (Hsame j1) as [_ E1]; [cbn; set_solver|].
      destruct (Hsame j2) as [_ E2]; [cbn; set_solver|]. split; cbn [head fst snd]; try congruence; [|exact D6].
      intros i Hi. rewrite (proj1 (Hsame i Hi)). by apply D1.
    + intros u u' r1 r2 c1 c2 i [_ Hu]%Hw [_ Hu']%Hw. by eapply (t_disj _ _ H4).
    + intros i Hi Hfi. destruct (Hf i Hi) as [[? _]|(Hfr & _ & Hn)]; [congruence|]. rewrite Hfr in Hfi.
      destruct (t_free _ _ H4 i Hi Hfi) as (u & r' & c' & Hu & Hin). exists u, r', c'. split; [|done]. apply Hw. split; [|done].
      intros ->. by destruct (waits_fun _ _ _ _ _ _ Hu Hwt) as [_ ->].
  - split; [done| |done|].
    + intros h Hh. destruct (R2 h Hh) as (Hd & u & r' & c' & Hu & Hhd). split; [done|]. exists u, r', c'. split; [|done]. apply Hw.
      split; [|done]. intros ->. destruct (waits_fun _ _ _ _ _ _ Hu Hwt) as [_ ->]. rewrite Hhd in Hdone.
      change (done_ (nthZ (info (drv v)) h) = false) in Hd. congruence.
    + intros u r' c' [_ Hu]%Hw. by apply (R4 u r' c').
  - apply sleep_wake; [|by eapply sleep_insert]. intros u Hu. destruct (Hww u Hu) as [r' Hr']. exists r'.
    rewrite lookup_insert_ne; [done|congruence].
  - rewrite Hq in H7. apply queue_wake in H7 as [Q1 Q2 Q3]. split; [|done|].
    + intros u. rewrite Q1, wake_insert by done. destruct (decide (u = t)) as [->|Hne]; [|by rewrite lookup_insert_ne].
      rewrite lookup_insert_eq. split; [|by intros [? [=]]]. intros [r' Hr']. rewrite wake_lookup, decide_False, Ht in Hr' by done. done.
    + intros Hne. right. destruct w as [|u w]; [by destruct (Hqw Hne)|]. destruct (Hww u) as [r' Hr']; [by left|]. exists u, r'.
      rewrite wake_lookup, decide_True by by left. rewrite lookup_insert_ne by congruence. by rewrite Hr'.
  - intros u p. rewrite wake_lookup. intros Hu.
    assert (exists p', (<[t := TReturn r 0]> m) !! u = Some p' /\ req_of p' = req_of p) as (p' & Hp' & <-).
    { case_decide; [|by exists p]. destruct (<[t := TReturn r 0]> m !! u) as [p'|]; [|done]. exists p'. split; [done|].
      injection Hu as <-. by destruct p'. }
    apply lookup_insert_Some in Hp' as [[<- <-]|[_ Hp']]; [by apply (H8 t _ Ht)|by eapply H8].
Qed.

(** ** What the steps do to the requests *)

(** A request, and whether the device has executed it. *)
Definition abs_pc (v : vstate) (p : tpc) : request * bool :=
  match p with
  | TReq _ r => (r, false)
  | TWait _ r i0 _ _ => (r, bool_decide (i0 ∉ pending v))
  | TReturn r _ => (r, true)
  end.

Record same_abs (s s' : sys) : Prop := {
  sa_store : store (dev (vs s')) = store (dev (vs s));
  sa_bufs : bufs (vs s') = bufs (vs s);
  sa_tasks : forall t, abs_pc (vs s') <$> tasks s' !! t = abs_pc (vs s) <$> tasks s !! t
}.

Lemma abs_awake v p : abs_pc v (set_awake p) = abs_pc v p.
Proof. by destruct p. Qed.

Lemma abs_wake v l m t : abs_pc v <$> wake_tasks l m !! t = abs_pc v <$> m !! t.
Proof.
  rewrite wake_lookup. case_decide; [|done]. rewrite <- option_fmap_compose. apply option_fmap_ext. intros p. apply abs_awake.
Qed.

Lemma abs_insert v (m : gmap Z tpc) t p p' u :
  m !! t = Some p -> abs_pc v p' = abs_pc v p -> abs_pc v <$> (<[t := p']> m) !! u = abs_pc v <$> m !! u.
Proof. intros Ht Hp. destruct (decide (u = t)) as [->|Hne]; [|by rewrite lookup_insert_ne]. rewrite lookup_insert_eq, Ht. cbn. by f_equal. Qed.

Lemma abs_pending v v' p : (forall h, h ∈ pending v' <-> h ∈ pending v) -> abs_pc v' p = abs_pc v p.
Proof. intros Hp. destruct p; cbn; try done. f_equal. apply bool_decide_ext. by rewrite Hp. Qed.

(** [settle] after a driver operation that ended with the lock free. *)
Lemma settle_inv v m w :
  woken (drv v) = w -> locked (drv v) = false -> vcore v (wake_tasks w m) -> vinv (settle (Sys v m)).
Proof.
  intros <- Hl Hc. unfold settle. split; try done. cbn [vs tasks].
  destruct v as [[]]. cbn in Hl. subst. by apply (core_lock _ _ false []) in Hc.
Qed.

Lemma lock_core v m b : vcore v m -> vcore (upd_drv (set_locked b) v) m.
Proof. intros Hc. apply (core_lock _ _ b (woken (drv v))) in Hc. by destruct v as [[]]. Qed.

(** One pass of the waiting loop for a request in flight. *)
Lemma wait_run ny v m t r i0 i1 i2 :
  vcore v m -> m !! t = Some (TWait true r i0 i1 i2) -> woken (drv v) = [] ->
  exists w v', command_wait ny t i0 v = Ret w v' /\ locked (drv v') = false /\ pending v' = pending v /\
    store (dev v') = store (dev v) /\ bufs v' = bufs v /\
    vcore v' (wake_tasks (woken (drv v')) (<[t := next_pc r (Some (i0, i1, i2)) w]> m)) /\
    abs_pc v (next_pc r (Some (i0, i1, i2)) w) = abs_pc v (TWait true r i0 i1 i2).
Proof.
  intros Hcore Ht Hwk. assert (waits m t r (i0, i1, i2)) as Hwt by by exists true. unfold command_wait, kbind at 1, dget.
  pose proof Hcore as [(rg & Hrg & Hst) (L1 & L2 & _) _ H4 H5 _ _ _ _]. destruct (done_ (nthZ (info (drv v)) i0)) eqn:Hd.
  - pose proof (t_chain _ _ H4 t r _ Hwt) as Hch. rewrite (kbind_ret _ _ _ _ _ (free_chain_run v r (i0, i1, i2) Hch L1 L2)).
    destruct (freed3_fields (i0, i1, i2) (drv v) L1 L2) as [_ (w & Hq & Hw & Hne)]; [intros i Hi; by apply (c_range _ _ _ Hch)|].
    exists (WReturn 0), (upd_drv (set_locked false) (upd_drv (freed3 (i0, i1, i2)) v)). split_and!; try done.
    + rewrite Hwk, app_nil_l in Hw. dsimpl. rewrite Hw. apply lock_core. by eapply finish_core.
    + cbn. f_equal. symmetry. apply bool_decide_eq_true_2. intros Hp. destruct (r_own _ _ _ _ H5 i0) as [? _]; [set_solver|]. congruence.
  - unfold kbind at 1, the_regs. rewrite Hrg, Hst. cbn [Z.eqb negb]. destruct ny.
    + exists WAgain, (upd_drv (set_locked false) v). split_and!; try done. dsimpl. rewrite Hwk. cbn. rewrite insert_id by done. by apply lock_core.
    + exists WSleep, (upd_drv (set_locked false) (upd_drv (slept t i0) v)). split_and!; try done. unfold slept. dsimpl. rewrite Hwk. cbn [wake_tasks foldr].
      apply lock_core. by apply sleep_core.
Qed.

Section step_lemmas.
Context (no_yield : Z -> bool).

Lemma resume_step s t r i0 i1 i2 :
  vinv s -> tasks s !! t = Some (TWait true r i0 i1 i2) ->
  exists s', run_label no_yield (LResume t) s = Ret tt s' /\ vinv s' /\ same_abs s s'.
Proof.
  intros [Hc Hl Hw] Ht. destruct s as [v m]. cbn [vs tasks] in *.
  destruct (wait_run (no_yield t) (upd_drv (set_locked true) v) m t r i0 i1 i2) as (w & v' & Hr & Hl' & Hp & Hs & Hb & Hc' & Ha);
    [by apply lock_core|done|done|]. cbn [run_label vs tasks]. rewrite Ht. unfold lift. cbn [vs tasks].
  assert (command_resume (no_yield t) t i0 v = Ret w v') as -> by done.
  eexists. split; [done|]. split; [by eapply settle_inv|]. split; try done. intros u. cbn [settle vs tasks]. rewrite abs_wake.
  rewrite <- (abs_insert v m t _ (next_pc r (Some (i0, i1, i2)) w) u Ht Ha). apply option_fmap_ext. intros p. apply abs_pending.
  intros h. change (h ∈ pending v' <-> h ∈ pending v). by rewrite Hp.
Qed.

Lemma try_fail s t r d' :
  vinv s -> tasks s !! t = Some (TReq true r) -> alloc_descs (upd_drv (set_locked true) (vs s)) = Ret None (upd_drv (fun _ => d') (vs s)) ->
  quiet (set_locked true (drv (vs s))) d' -> (exists i, 0 <= i < NUM /\ nthZ (free (drv (vs s))) i = false) ->
  exists s', run_label no_yield (LTry t) s = Ret tt s' /\ vinv s' /\ same_abs s s'.
Proof.
  destruct s as [v m]. cbn [vs tasks]. intros [Hc Hl Hw] Ht Hal Hq (i & Hi & Hfi). cbn [vs tasks] in *.
  destruct (qt_queue _ _ Hq) as (w & Hqw & Hww). dsimpl_in Hqw. dsimpl_in Hww. rewrite Hw, app_nil_l in Hww.
  pose proof (quiet_core (upd_drv (set_locked true) v) m d' w (lock_core _ _ true Hc) Hq Hqw) as Hc1.
  assert (upd_drv (fun _ => d') (upd_drv (set_locked true) v) = upd_drv (fun _ => d') v) as E by done. rewrite E in Hc1. clear E.
  assert (t ∉ w) as Htw.
  { intros Hin. assert (t ∈ request_queue (drv v)) as [r' ?]%(q_tasks _ _ (v_queue _ _ Hc)) by (rewrite Hqw; set_solver). congruence. }
  assert (wake_tasks w m !! t = Some (TReq true r)) as Ht1 by by rewrite wake_lookup, decide_False.
  cbn [run_label vs tasks]. rewrite Ht. unfold lift, command_try. cbn [vs tasks].
  unfold lock, dmodify at 1, kmodify, kbind at 1. rewrite (kbind_ret _ _ _ _ _ Hal). destruct (no_yield t).
  - eexists. split; [done|]. split.
    + apply (settle_inv _ _ w); [done|done|]. cbn [next_pc is_awake]. rewrite insert_id by done. by apply lock_core.
    + split; try done. intros u. cbn [settle vs tasks next_pc is_awake]. rewrite abs_wake, insert_id by done.
      apply option_fmap_ext. intros p. by apply abs_pending.
  - eexists. split; [done|]. split.
    + apply (settle_inv _ _ w); [done|done|]. cbn [next_pc is_awake]. rewrite wake_insert by done.
      apply lock_core. apply (sleep_request (upd_drv (fun _ => d') v) _ t r Hc1 Ht1).
      destruct (t_free _ _ (v_table _ _ Hc) i Hi Hfi) as (u & r' & c & Hu & _). exists u, r', c. by apply waits_wake.
    + split; try done. intros u. cbn [settle vs tasks next_pc is_awake]. rewrite abs_wake.
      rewrite (abs_insert _ m t (TReq true r) (TReq false r) u Ht) by done. apply option_fmap_ext. intros p. by apply abs_pending.
Qed.

Lemma try_issue s t r c :
  vinv s -> tasks s !! t = Some (TReq true r) ->
  (forall i, i ∈ members c -> 0 <= i < NUM /\ nthZ (free (drv (vs s))) i = true) -> NoDup (members c) ->
  alloc_descs (upd_drv (set_locked true) (vs s)) =
    Ret (Some c) (upd_drv (fun d => taken_desc (snd c) (taken_desc (snd (fst c)) (taken_desc (head c) d))) (upd_drv (set_locked true) (vs s))) ->
  exists s', run_label no_yield (LTry t) s = Ret tt s' /\ vinv s' /\ same_abs s s'.
Proof.
  destruct s as [v m], c as [[i0 i1] i2]. cbn [vs tasks head fst snd]. intros [Hc Hl Hw] Ht Hfr Hnd Hal. cbn [vs tasks] in *.
  set (v0 := upd_drv (set_locked true) v) in *. assert (vcore v0 m) as Hc0 by by apply lock_core.
  pose proof (issue_core v0 m t r (i0, i1, i2) Hc0 Ht Hfr Hnd) as Hc1. pose proof (issue_pending v0 m r (i0, i1, i2) Hc0 Hfr) as Hp1.
  assert (<[t := TWait true r i0 i1 i2]> m !! t = Some (TWait true r i0 i1 i2)) as Ht1 by apply lookup_insert_eq.
  destruct (wait_run (no_yield t) (issued r (i0, i1, i2) v0) _ t r i0 i1 i2 Hc1 Ht1) as (w & v' & Hr & Hl' & Hp & Hs & Hb & Hc' & Ha); [done|].
  rewrite insert_insert_eq in Hc'. cbn [run_label vs tasks]. rewrite Ht. unfold lift.
  assert (command_try (no_yield t) t (command r) (block_no r) 1 (buf r) v = Ret (Some (i0, i1, i2), w) v') as Hrun.
  { unfold command_try. unfold lock, dmodify at 1, kmodify, kbind at 1. fold v0. rewrite (kbind_ret _ _ _ _ _ Hal).
    rewrite (issue_run r i0 i1 i2 v0); [by rewrite (kbind_ret _ _ _ _ _ Hr)|]. apply (v_req _ _ Hc t _ Ht). }
  cbn [vs tasks]. rewrite Hrun. eexists. split; [done|]. split; [by eapply settle_inv|].
  split; [done|done|]. intros u. cbn [settle vs tasks]. rewrite abs_wake.
  assert (forall h, h ∈ pending (upd_drv (set_woken []) v') <-> h = i0 \/ h ∈ pending v) as Hpd.
  { intros h. change (h ∈ pending v' <-> h = i0 \/ h ∈ pending v). rewrite Hp, Hp1. apply elem_of_cons. }
  destruct (decide (u = t)) as [->|Hne].
  - rewrite lookup_insert_eq, Ht. cbn [fmap option_fmap option_map]. f_equal. transitivity (abs_pc (issued r (i0, i1, i2) v0) (TWait true r i0 i1 i2)).
    + rewrite <- Ha. apply abs_pending. intros h. change (h ∈ pending v' <-> h ∈ pending (issued r (i0, i1, i2) v0)). by rewrite Hp.
    + cbn. f_equal. apply bool_decide_eq_false_2. rewrite Hp1. intros Hn. apply Hn. by left.
  - rewrite lookup_insert_ne by done. destruct (m !! u) as [p|] eqn:Hu; [|done]. cbn. f_equal. destruct p as [|a r' j0 j1 j2|]; cbn; try done.
    f_equal. apply bool_decide_ext. rewrite Hpd. assert (i0 <> j0) as Hij; [|naive_solver].
    apply (issue_head_ne v0 m (i0, i1, i2) Hc0 Hfr u r' (j0, j1, j2)). by exists a.
Qed.

Lemma try_step s t r :
  vinv s -> tasks s !! t = Some (TReq true r) ->
  exists s', run_label no_yield (LTry t) s = Ret tt s' /\ vinv s' /\ same_abs s s'.
Proof.
  intros Hi Ht. destruct (v_len _ _ (v_core _ Hi)) as (L1 & L2 & _).
  destruct (alloc_descs_run (upd_drv (set_locked true) (vs s)) L1 L2) as [(i0 & i1 & i2 & Hfr & Hnd & Hal)|(d' & Hal & Hq & i & Hi' & Hfi)].
  - by apply (try_issue s t r (i0, i1, i2)).
  - apply (try_fail s t r d'); eauto.
Qed.

End step_lemmas.

(** ** The interrupt handler *)

Definition woken_by (d : driver) (id : Z) : list Z := fst (single_wake_up (wait_queue_of (nthZ (info d) id))).

(** One round of the loop. *)
Definition handled (id : Z) (d : driver) : driver :=
  Driver (regs d) (locked d) (free d) (desc d) (ops d)
    (updZ (info d) id (Info None true (status (nthZ (info d) id)))) (u16 (seen d + 1)) (request_queue d) (woken d ++ woken_by d id).

Lemma woken_by_spec d id t : t ∈ woken_by d id <-> wait_queue_of (nthZ (info d) id) = Some t.
Proof.
  unfold woken_by. destruct (wait_queue_of (nthZ (info d) id)); cbn; [|split; [by intros ?%elem_of_nil|done]].
  rewrite list_elem_of_singleton. split; [by intros ->|by intros [= ->]].
Qed.

Section handled.
Context (v : vstate) (m : gmap Z tpc) (id : Z) (F : list Z).
Context (Hcore : vcore v m) (HF : finished v = id :: F).
Local Notation v' := (upd_drv (handled id) v).
Local Notation m' := (wake_tasks (woken_by (drv v) id) m).

Lemma handled_range : 0 <= id < NUM.
Proof. apply (rings_heads v m id Hcore). rewrite HF. set_solver. Qed.

Lemma handled_info i : 0 <= i < NUM ->
  nthZ (info (drv v')) i = if decide (id = i) then Info None true (status (nthZ (info (drv v)) id)) else nthZ (info (drv v)) i.
Proof.
  intros Hi. pose proof handled_range. destruct (v_len _ _ Hcore) as (_ & _ & _ & L4 & _). unfold handled. dsimpl.
  unfold NUM in *. by rewrite nthZ_updZ by lia.
Qed.

Lemma handled_finished : finished v' = F.
Proof.
  destruct (v_idx _ _ Hcore) as (_ & I2 & I3 & _). revert HF. unfold finished, handled. dsimpl. intros HF'.
  rewrite between_pop in HF'; [by injection HF'|done|done|]. intros E. rewrite E in HF'. unfold between in HF'.
  by rewrite Z.sub_diag in HF'.
Qed.

Lemma handled_rings : rings_ok (pending v') (finished v') (info (drv v')) m'.
Proof.
  destruct (v_rings _ _ Hcore) as [R1 R2 R3 R4]. rewrite handled_finished. change (pending v') with (pending v).
  rewrite HF in *. rewrite <- Permutation_middle in R1. apply NoDup_cons in R1 as [Hn R1].
  assert (forall h, h ∈ pending v ++ F -> id <> h /\ 0 <= h < NUM) as Hne.
  { intros h Hh. split; [intros ->; done|]. apply (rings_heads v m h Hcore). rewrite HF. set_solver. }
  split; [done| | |].
  - intros h Hh. destruct (Hne h Hh). rewrite handled_info, decide_False by done. destruct (R2 h) as (? & u & r & c & ? & ?); [set_solver|].
    split; [done|]. exists u, r, c. split; [by apply waits_wake|done].
  - intros h Hh. destruct (Hne h); [set_solver|]. rewrite handled_info, decide_False by done. apply R3. set_solver.
  - intros u r c Hu%waits_wake. assert (0 <= head c < NUM) as Hr.
    { apply (c_range _ _ _ (t_chain _ _ (v_table _ _ Hcore) u r c Hu)), head_member. }
    rewrite handled_info by done. case_decide as Hd; [done|]. intros Hdn. pose proof (R4 u r c Hu Hdn). set_solver.
Qed.

Lemma handled_sleep : sleep_ok (info (drv v')) m'.
Proof.
  destruct (v_sleep _ _ Hcore) as [S1 S2]. split.
  - intros u r j0 j1 j2. rewrite wake_lookup. case_decide as Hin; [by destruct (m !! u) as [[]|]|]. intros Hu.
    destruct (S1 u r j0 j1 j2 Hu) as [Hd Hq].
    assert (0 <= j0 < NUM) as Hj by (apply (c_range _ _ _ (t_chain _ _ (v_table _ _ Hcore) u r (j0, j1, j2) ltac:(by exists false))); cbn; by left).
    rewrite handled_info, decide_False; [done| |done]. intros <-. by apply Hin, woken_by_spec.
  - intros i u Hi. rewrite handled_info by done. case_decide as Hd; [done|]. intros Hq. destruct (S2 i u Hi Hq) as (r & i1 & i2 & Hm).
    exists r, i1, i2. rewrite wake_lookup, decide_False; [done|]. intros Hin%woken_by_spec.
    destruct (S2 id u handled_range Hin) as (r' & j1 & j2 & Hm'). congruence.
Qed.

(** The tasks it wakes wait for a request. *)
Lemma handled_woken u : u ∈ woken_by (drv v) id -> exists r i1 i2, m !! u = Some (TWait false r id i1 i2).
Proof. intros Hu%woken_by_spec. by apply (s_waiter _ _ (v_sleep _ _ Hcore)), Hu; apply handled_range. Qed.

Lemma handled_queue : queue_ok (request_queue (drv v)) m'.
Proof.
  destruct (v_queue _ _ Hcore) as [Q1 Q2 Q3].
  assert (forall u b r, m' !! u = Some (TReq b r) <-> m !! u = Some (TReq b r)) as Hreq.
  { intros u b r. rewrite wake_lookup. case_decide as Hin; [|done]. destruct (handled_woken u Hin) as (r' & i1 & i2 & ->). done. }
  split; [|done|].
  - intros u. rewrite Q1. split; intros [r Hr]; exists r; by apply Hreq.
  - intros Hne. destruct (Q3 Hne) as [(u & r & c & Hu)|(u & r & Hu)]; [left|right].
    + exists u, r, c. by apply waits_wake.
    + exists u, r. by apply Hreq.
Qed.

Lemma handled_core : vcore v' m'.
Proof.
  pose proof Hcore as [H1 H2 H3 [T1 T2 T3] H5 H6 H7 H8 H9]. split.
  - done.
  - unfold handled. dsimpl. by rewrite length_updZ.
  - unfold handled. dsimpl. split_and!; try apply H3; ulia.
  - apply (table_waits _ m); [apply waits_wake|]. split; try done. intros u r c Hu. by destruct (T1 u r c Hu).
  - apply handled_rings.
  - apply handled_sleep.
  - apply handled_queue.
  - intros u p. rewrite wake_lookup. case_decide; [|by apply H8]. destruct (m !! u) as [[]|] eqn:E; intros [= <-]; by apply (H8 _ _ E).
  - done.
Qed.
End handled.

Lemma intr_loop_run n v m :
  vcore v (wake_tasks (woken (drv v)) m) -> (length (finished v) < n)%nat ->
  exists v', intr_loop n v = Ret tt v' /\ vcore v' (wake_tasks (woken (drv v')) m) /\ locked (drv v') = locked (drv v) /\
    pending v' = pending v /\ store (dev v') = store (dev v) /\ bufs v' = bufs v.
Proof.
  revert v. induction n as [|n IH]; intros v Hc Hn; [lia|]. cbn [intr_loop]. unfold kbind at 1, kget.
  destruct (v_idx _ _ Hc) as (_ & I2 & I3 & _). destruct (seen (drv v) =? used_idx (rng v)) eqn:E.
  { exists v. by split_and!. }
  apply Z.eqb_neq in E. pose proof (between_pop (used_ring (rng v)) _ _ I3 I2 E) as HF. fold (finished v) in HF.
  set (id := nthZ (used_ring (rng v)) (seen (drv v) mod NUM)) in *.
  pose proof (handled_core v _ id _ Hc HF) as Hc'. pose proof (handled_finished v _ id _ Hc HF) as HF'.
  assert (spin_status n id v = Ret tt v) as Hsp.
  { destruct n as [|n]; [rewrite HF in Hn; cbn in Hn; lia|]. cbn [spin_status]. unfold kbind, dget.
    rewrite (r_status _ _ _ _ (v_rings _ _ Hc) id) by (rewrite HF; by left). done. }
  rewrite (kbind_ret _ _ _ _ _ Hsp). destruct (IH (upd_drv (handled id) v)) as (v' & Hr & Hcv & Hl & Hp & Hs & Hb).
  - unfold handled at 2. dsimpl. rewrite wake_app. done.
  - rewrite HF', HF in *. cbn in Hn. lia.
  - exists v'. split; [|by split_and!]. rewrite <- Hr. unfold kbind, dmodify, kmodify, handled, woken_by, upd_drv. dsimpl.
    by destruct (wait_queue_of (nthZ (info (drv v)) id)).
Qed.

Lemma finished_bound v m : vcore v m -> (length (finished v) <= 8)%nat.
Proof.
  intros Hc. apply heads_bound.
  - pose proof (r_nodup _ _ _ _ (v_rings _ _ Hc)) as Hn. by apply NoDup_app in Hn as (_ & _ & ?).
  - intros h Hh. apply (rings_heads v m h Hc). set_solver.
Qed.

Lemma intr_step ny s : vinv s -> exists s', run_label ny LIntr s = Ret tt s' /\ vinv s' /\ same_abs s s'.
Proof.
  intros [Hc Hl Hw]. destruct s as [v m]. cbn [vs tasks] in *.
  destruct (intr_loop_run 9 (upd_drv (set_locked true) v) m) as (v' & Hr & Hc' & _ & Hp & Hs & Hb).
  - dsimpl. rewrite Hw. by apply lock_core.
  - pose proof (finished_bound v m Hc) as Hb. change (finished (upd_drv (set_locked true) v)) with (finished v). lia.
  - cbn [run_label]. unfold lift, virtio_disk_intr. change (Z.to_nat NUM + 1)%nat with 9%nat. cbn [vs tasks].
    unfold lock, dmodify at 1, kmodify, kbind at 1. rewrite (kbind_ret _ _ _ _ _ Hr). eexists. split; [done|]. split.
    + apply (settle_inv _ _ (woken (drv v'))); [done|done|]. by apply lock_core.
    + split; try done. intros u. cbn [settle vs tasks]. rewrite abs_wake. apply option_fmap_ext. intros p. apply abs_pending.
      intros h. change (h ∈ pending v' <-> h ∈ pending v). by rewrite Hp.
Qed.
