(* ===== verification/VirtioDisk.v ===== *)
(** * The virtio disk driver: refinement of a disk

    The steps of the device, the specification (a disk that executes every
    request once), the simulation from [open] on, progress, and the paths the
    driver does not handle. *)
From S2P Require Import Prelude Riscv Spinlock Mutex Virtio VirtioInv.

(** ** Steps of the device *)

Lemma take_queue v m : vcore v m -> last_avail (dev v) <> avail_idx (rng v) -> pending (dev_take v) ≡ₚ pending v.
Proof.
  intros Hc Hne. destruct (v_idx _ _ Hc) as (I1 & _ & _ & I4). unfold pending, dev_queue, dev_take. dsimpl.
  rewrite (between_pop _ (last_avail (dev v))) by done. rewrite app_assoc. by rewrite <- Permutation_cons_append.
Qed.

Lemma take_core v m : vcore v m -> last_avail (dev v) <> avail_idx (rng v) -> vcore (dev_take v) m.
Proof.
  intros Hc Hne. pose proof (take_queue v m Hc Hne) as Hp. destruct Hc as [H1 H2 H3 H4 H5 H6 H7 H8 H9]. split; try done.
  - unfold dev_take. dsimpl. split_and!; try apply H3; ulia.
  - apply (rings_perm (pending v) _ (finished v)); [|done|done]. by rewrite Hp.
Qed.

Lemma take_step ny s :
  vinv s -> enabled s LTake -> exists s', run_label ny LTake s = Ret tt s' /\ vinv s' /\ same_abs s s'.
Proof.
  intros [Hc Hl Hw] Hne. eexists. split; [done|]. split.
  - split; try done. by apply take_core.
  - split; try done. intros u. cbn [vs tasks]. apply option_fmap_ext. intros p. apply abs_pending. intros h.
    by rewrite (take_queue _ _ Hc Hne).
Qed.

Lemma remove_head_perm h l : NoDup l -> h ∈ l -> l ≡ₚ h :: remove_head h l.
Proof.
  induction l as [|x l IH]; intros Hn Hh; [by apply not_elem_of_nil in Hh|]. apply NoDup_cons in Hn as [Hx Hn].
  unfold remove_head in *. destruct (decide (x = h)) as [->|Hne].
  - rewrite filter_cons_False by naive_solver. rewrite filter_all; [done|]. intros y Hy ->. done.
  - rewrite filter_cons_True by done. apply elem_of_cons in Hh as [->|Hh]; [done|]. rewrite (IH Hn Hh) at 1. apply Permutation_swap.
Qed.

(** What the device does for a request. *)
Definition executed (r : request) (h : Z) (v : vstate) : vstate :=
  let f := nthZ (info (drv v)) h in
  let d := set_info (updZ (info (drv v)) h (Info (wait_queue_of f) (done_ f) 0)) (drv v) in
  if command r =? VIRTIO_BLK_T_IN
  then VState d (rng v) (dev v) (upd (bufs v) (buf r) (read_store (store (dev v)) (block_no r * 2) BLOCK_SIZE))
  else VState d (rng v) (Device (last_avail (dev v)) (taken (dev v))
    (write_store (store (dev v)) (block_no r * 2) BLOCK_SIZE (bufs v (buf r)))) (bufs v).

Lemma execute_run v r c :
  chain_ok (drv v) r c -> ok_request r -> dev_execute (head c) v = Some (executed r (head c) v).
Proof.
  intros [C1 C2 C3 C4 C5 C6] [Hcmd _]. unfold dev_execute, executed. rewrite C3. cbn [desc_next addr flags]. rewrite C4.
  cbn [desc_next addr flags len]. rewrite C5. cbn [desc_next addr flags]. rewrite C6. cbn [type sector].
  destruct Hcmd as [-> | ->]; done.
Qed.

Section complete.
Context (v : vstate) (m : gmap Z tpc) (t : Z) (r : request) (c : Z * Z * Z).
Context (Hcore : vcore v m) (Hwt : waits m t r c) (Hh : head c ∈ taken (dev v)).
Local Notation v' := (dev_return (head c) (executed r (head c) v)).

Lemma complete_pending : pending v ≡ₚ head c :: pending v'.
Proof.
  pose proof (r_nodup _ _ _ _ (v_rings _ _ Hcore)) as Hn. unfold pending in Hn. rewrite <- app_assoc in Hn.
  apply NoDup_app in Hn as (_ & _ & [Hn _]%NoDup_app). unfold pending.
  assert (taken (dev v') = remove_head (head c) (taken (dev v))) as -> by (unfold executed; by destruct (command r =? _)).
  assert (dev_queue v' = dev_queue v) as -> by (unfold executed; by destruct (command r =? _)).
  rewrite (remove_head_perm _ _ Hn Hh) at 1. by rewrite <- Permutation_middle.
Qed.

Lemma complete_finished : finished v' = finished v ++ [head c].
Proof.
  destruct (v_idx _ _ Hcore) as (_ & I2 & I3 & _). destruct (v_len _ _ Hcore) as (_ & _ & _ & _ & _ & L6).
  assert (finished v' = between (updZ (used_ring (rng v)) (used_idx (rng v) mod NUM) (head c)) (seen (drv v)) (u16 (used_idx (rng v) + 1))) as ->
    by (unfold executed; by destruct (command r =? _)).
  rewrite between_push; [done|done|done|done|]. fold (finished v).
  assert (length (head c :: finished v) <= 8)%nat; [|cbn [length] in *; lia].
  pose proof (r_nodup _ _ _ _ (v_rings _ _ Hcore)) as Hn. rewrite complete_pending in Hn. cbn in Hn.
  apply NoDup_cons in Hn as [Hn1 (_ & _ & Hn2)%NoDup_app]. apply heads_bound.
  - apply NoDup_cons. split; [set_solver|done].
  - intros h Hin. apply (rings_heads v m h Hcore). rewrite complete_pending. set_solver.
Qed.

Lemma complete_info i :
  0 <= i < NUM -> wait_queue_of (nthZ (info (drv v')) i) = wait_queue_of (nthZ (info (drv v)) i) /\
    done_ (nthZ (info (drv v')) i) = done_ (nthZ (info (drv v)) i) /\
    status (nthZ (info (drv v')) i) = if decide (head c = i) then 0 else status (nthZ (info (drv v)) i).
Proof.
  intros Hi. destruct (v_len _ _ Hcore) as (_ & _ & _ & L4 & _).
  pose proof (proj1 (c_range _ _ _ (t_chain _ _ (v_table _ _ Hcore) t r c Hwt) _ (head_member c))).
  assert (info (drv v') = updZ (info (drv v)) (head c) (Info (wait_queue_of (nthZ (info (drv v)) (head c)))
    (done_ (nthZ (info (drv v)) (head c))) 0)) as -> by (unfold executed; by destruct (command r =? _)).
  unfold NUM in *. rewrite nthZ_updZ by lia. by case_decide; subst.
Qed.

Lemma complete_core : vcore v' m.
Proof.
  pose proof Hcore as [H1 H2 H3 [T1 T2 T3] [R1 R2 R3 R4] [S1 S2] H7 H8 H9].
  assert (forall u r' c', waits m u r' c' -> 0 <= head c' < NUM) as Hrg.
  { intros u r' c' Hu. apply (c_range _ _ _ (T1 u r' c' Hu)), head_member. }
  assert (pending v' ++ finished v' ≡ₚ pending v ++ finished v) as Hpf.
  { rewrite complete_finished, complete_pending, app_assoc, <- Permutation_cons_append. done. }
  split.
  - destruct H1 as (rg & ? & ?). exists rg. unfold executed. by destruct (command r =? _).
  - unfold executed, dev_return. destruct (command r =? _); dsimpl; by rewrite !length_updZ.
  - unfold executed, dev_return. destruct (command r =? _); dsimpl; (split_and!; try apply H3; ulia).
  - assert (table_ok (set_info (info (drv v')) (drv v)) m) as HT by by apply table_set_info.
    unfold executed in *. by destruct (command r =? _).
  - split.
    + by rewrite Hpf.
    + intros h Hin. rewrite Hpf in Hin. destruct (R2 h Hin) as (Hd & u & r' & c' & Hu & <-).
      destruct (complete_info (head c')) as (_ & -> & _); [by eapply Hrg|]. eauto 10.
    + intros h Hin. rewrite complete_finished in Hin. assert (h ∈ pending v ++ finished v) as Hin'.
      { rewrite complete_pending. set_solver. }
      destruct (R2 h Hin') as (_ & u & r' & c' & Hu & <-). destruct (complete_info (head c')) as (_ & _ & ->); [by eapply Hrg|].
      case_decide as Hd; [done|]. apply R3. set_solver.
    + intros u r' c' Hu. destruct (complete_info (head c')) as (_ & -> & _); [by eapply Hrg|]. rewrite Hpf. by eapply R4.
  - split.
    + intros u r' j0 j1 j2 Hu. destruct (complete_info j0) as (-> & -> & _); [|by apply (S1 u r' j0 j1 j2)].
      apply (Hrg u r' (j0, j1, j2)). by exists false.
    + intros i u Hi. destruct (complete_info i Hi) as (-> & _). by apply S2.
  - unfold executed. by destruct (command r =? _).
  - done.
  - intros b. unfold executed, dev_return. destruct (command r =? _); dsimpl; [|done]. unfold upd. case_decide; [|done].
    unfold read_store. by rewrite length_fmap, length_seqZ.
Qed.
End complete.

(** ** Specification: a disk that executes every request once *)

Record astate := AState { a_block : Z -> list Z; a_buf : Z -> list Z; a_tasks : gmap Z (request * bool) }.

(** A read copies the block to the buffer, a write the buffer to the block. *)
Definition transfer (r : request) (a : astate) : astate :=
  if command r =? VIRTIO_BLK_T_IN
  then AState (a_block a) (upd (a_buf a) (buf r) (a_block a (block_no r))) (a_tasks a)
  else AState (upd (a_block a) (block_no r) (a_buf a (buf r))) (a_buf a) (a_tasks a).

Definition set_tasks (m : gmap Z (request * bool)) (a : astate) : astate := AState (a_block a) (a_buf a) m.

(** A task makes a request; the disk executes it; the task returns. *)
Inductive a_step (a : astate) : astate -> Prop :=
| a_start t r : a_tasks a !! t = None -> a_step a (set_tasks (<[t := (r, false)]> (a_tasks a)) a)
| a_execute t r : a_tasks a !! t = Some (r, false) -> a_step a (set_tasks (<[t := (r, true)]> (a_tasks a)) (transfer r a))
| a_return t r : a_tasks a !! t = Some (r, true) -> a_step a (set_tasks (delete t (a_tasks a)) a).

(** The blocks on the device, the buffers and the requests are those of the
    specification. *)
Record refines (s : sys) (a : astate) : Prop := {
  rf_block : forall n, 0 <= n -> a_block a n = read_store (store (dev (vs s))) (n * 2) BLOCK_SIZE;
  rf_buf : forall b, a_buf a b = bufs (vs s) b;
  rf_tasks : forall t, a_tasks a !! t = abs_pc (vs s) <$> tasks s !! t
}.

Lemma same_refines s s' a : same_abs s s' -> refines s a -> refines s' a.
Proof.
  intros [S1 S2 S3] [R1 R2 R3]. split.
  - intros n Hn. rewrite S1. by apply R1.
  - intros b. by rewrite S2.
  - intros t. by rewrite S3.
Qed.

Lemma read_write_store st n n' data :
  0 <= n -> 0 <= n' -> length data = 1024%nat ->
  read_store (write_store st (n * 2) BLOCK_SIZE data) (n' * 2) BLOCK_SIZE =
    if decide (n' = n) then data else read_store st (n' * 2) BLOCK_SIZE.
Proof.
  intros Hn Hn' Hl. unfold read_store, write_store, in_transfer, BLOCK_SIZE. case_decide as E; [subst|].
  - apply list_eq_same_length with 1024%nat; [done|by rewrite length_fmap, length_seqZ|]. intros i x y Hi Hx Hy.
    rewrite list_lookup_fmap, lookup_seqZ_lt in Hx by lia. cbn in Hx. rewrite (proj2 (andb_true_iff _ _)) in Hx by (split; lia).
    injection Hx as <-. replace (n * 2 * 512 + Z.of_nat i - n * 2 * 512) with (Z.of_nat i) by lia.
    apply nthZ_lookup. by rewrite Nat2Z.id.
  - apply list_fmap_ext. intros i k [-> Hi]%lookup_seqZ. rewrite (proj2 (andb_false_iff _ _)); [done|].
    destruct (decide (n' < n)); [left|right]; lia.
Qed.

Lemma enter_run v b rg :
  regs (drv v) = Some rg ->
  disk_command_enter b 1 v = if u64 (config_capacity rg * 512) / BLOCK_SIZE <? u64 (b + 1) then TaskFail v else Ret tt v.
Proof.
  intros Hrg. unfold disk_command_enter, kernel_assert, capacity, the_regs, kbind. cbn. rewrite Hrg. cbn. by destruct (_ <? _).
Qed.

Section refinement.
Context (no_yield : Z -> bool).

(** The completion of a request is the step in which the specification
    executes it. *)
Lemma complete_refines v m t r c a :
  vcore v m -> waits m t r c -> head c ∈ taken (dev v) -> refines (Sys v m) a ->
  exists a', a_step a a' /\ refines (Sys (dev_return (head c) (executed r (head c) v)) m) a'.
Proof.
  intros Hc Hw Hh [R1 R2 R3]. cbn [vs tasks] in *. pose proof (complete_pending v m r c Hc Hh) as Hp.
  destruct Hw as [b Hb]. destruct (v_req _ _ Hc t _ Hb) as [Hcmd Hbn]. cbn [req_of] in *.
  assert (NoDup (head c :: pending (dev_return (head c) (executed r (head c) v)))) as Hnd.
  { rewrite <- Hp. pose proof (r_nodup _ _ _ _ (v_rings _ _ Hc)) as Hn. by apply NoDup_app in Hn as (? & _). }
  apply NoDup_cons in Hnd as [Hnh _].
  assert (a_tasks a !! t = Some (r, false)) as Hat.
  { rewrite R3, Hb. cbn. f_equal. f_equal. apply bool_decide_eq_false_2. intros Hn. apply Hn. unfold pending. set_solver. }
  eexists. split; [by apply (a_execute a t r)|]. split; cbn [vs tasks].
  - intros n Hn. unfold transfer, executed. destruct Hcmd as [-> | ->]; cbn [Z.eqb VIRTIO_BLK_T_IN VIRTIO_BLK_T_OUT set_tasks a_block dev_return dev store].
    + by apply R1.
    + rewrite read_write_store by (lia || apply (v_bufs _ _ Hc)). unfold upd. case_decide; [by rewrite R2|by apply R1].
  - intros x. unfold transfer, executed. destruct Hcmd as [-> | ->]; cbn [Z.eqb VIRTIO_BLK_T_IN VIRTIO_BLK_T_OUT set_tasks a_buf dev_return bufs].
    + unfold upd. case_decide; [by apply R1; lia|by apply R2].
    + by apply R2.
  - intros u. assert (a_tasks (set_tasks (<[t := (r, true)]> (a_tasks a)) (transfer r a)) = <[t := (r, true)]> (a_tasks a)) as -> by done.
    destruct (decide (u = t)) as [->|Hne].
    + rewrite lookup_insert_eq, Hb. cbn. f_equal. f_equal. symmetry. by apply bool_decide_eq_true_2.
    + rewrite lookup_insert_ne, R3 by done. destruct (m !! u) as [p|] eqn:Hu; [|done]. cbn. f_equal. destruct p as [|b' r' j0 j1 j2|]; cbn; try done.
      f_equal. apply bool_decide_ext. rewrite Hp, elem_of_cons. assert (j0 <> head c) as Hj; [|naive_solver]. intros ->. apply Hne.
      apply (t_disj _ _ (v_table _ _ Hc) u t r' r (head c, j1, j2) c (head c)); [by exists b'|by exists b|cbn; by left|apply head_member].
Qed.

Lemma complete_step s h a :
  vinv s -> h ∈ taken (dev (vs s)) -> refines s a ->
  exists s' a', run_label no_yield (LComplete h) s = Ret tt s' /\ vinv s' /\ a_step a a' /\ refines s' a'.
Proof.
  destruct s as [v m]. intros [Hc Hl Hwk] Hh Hr. cbn [vs tasks] in *.
  destruct (r_own _ _ _ _ (v_rings _ _ Hc) h) as (_ & t & r & c & Hw & <-); [unfold pending; set_solver|].
  destruct (complete_refines v m t r c a Hc Hw Hh Hr) as (a' & Ha & Hr'). pose proof (complete_core v m t r c Hc Hw Hh) as Hc'.
  pose proof Hw as [b Hb]. pose proof (t_chain _ _ (v_table _ _ Hc) t r c Hw) as Hch. pose proof (v_req _ _ Hc t _ Hb) as Hok.
  assert (woken (drv (dev_return (head c) (executed r (head c) v))) = []) as Hw'
    by (unfold executed; by destruct (command r =? _)).
  assert (locked (drv (dev_return (head c) (executed r (head c) v))) = false) as Hl' by (unfold executed; by destruct (command r =? _)).
  cbn [run_label]. unfold lift, dev_complete. cbn [vs tasks]. rewrite (execute_run v r c Hch Hok).
  eexists _, a'. split; [done|]. split_and!; [|done|].
  - by apply (settle_inv _ _ []).
  - destruct Hr' as [R1 R2 R3]. cbn [vs tasks] in *. split; [done|done|]. intros u. rewrite R3. cbn [settle vs tasks]. by rewrite abs_wake.
Qed.

Lemma start_step s t r a :
  vinv s -> enabled s (LStart t r) -> refines s a ->
  run_label no_yield (LStart t r) s = TaskFail s \/
  exists s' a', run_label no_yield (LStart t r) s = Ret tt s' /\ vinv s' /\ a_step a a' /\ refines s' a'.
Proof.
  destruct s as [v m]. intros [Hc Hl Hwk] (Ht & Hcmd & Hb) Hr. cbn [vs tasks] in *.
  destruct (v_regs _ _ Hc) as (rg & Hrg & _). cbn [run_label]. unfold lift. cbn [vs tasks]. rewrite (enter_run v (block_no r) rg Hrg).
  destruct (u64 (config_capacity rg * 512) / BLOCK_SIZE <? u64 (block_no r + 1)) eqn:E; [by left|right].
  assert (ok_request r) as Hok. { split; [done|]. unfold BLOCK_SIZE in E. apply Z.ltb_ge in E. ulia. }
  eexists _, _. split; [done|]. split_and!; [|by apply (a_start a t r); rewrite (rf_tasks _ _ Hr); cbn; rewrite Ht|].
  - apply (settle_inv _ _ []); [done|done|]. cbn [wake_tasks foldr]. destruct Hc as [H1 H2 H3 H4 H5 [S1 S2] [Q1 Q2 Q3] H8 H9].
    assert (forall u r' c, waits (<[t := TReq true r]> m) u r' c <-> waits m u r' c) as Hw.
    { intros u r' c. unfold waits. destruct (decide (u = t)) as [->|Hne]; [|by rewrite lookup_insert_ne]. rewrite lookup_insert_eq, Ht. naive_solver. }
    split; try done.
    + by eapply table_waits.
    + by eapply rings_waits.
    + split.
      * intros u r' j0 j1 j2 [[_ [=]]|[_ Hu]]%lookup_insert_Some. eauto.
      * intros i u Hi Hu. destruct (S2 i u Hi Hu) as (r' & i1 & i2 & Hm). exists r', i1, i2. rewrite lookup_insert_ne; [done|congruence].
    + split; [|done|].
      * intros u. rewrite Q1. split; intros [r' Hu]; [|apply lookup_insert_Some in Hu as [[_ [=]]|[_ Hu]]; eauto].
        exists r'. rewrite lookup_insert_ne; [done|congruence].
      * intros _. right. exists t, r. apply lookup_insert_eq.
    + intros u p [[<- <-]|[_ Hu]]%lookup_insert_Some; [done|by eapply H8].
  - destruct Hr as [R1 R2 R3]. cbn [vs tasks] in *. split; try done. cbn [settle vs tasks wake_tasks foldr]. intros u. rewrite abs_wake. cbn [set_tasks a_tasks].
    destruct (decide (u = t)) as [->|Hne]; [by rewrite !lookup_insert_eq|]. rewrite !lookup_insert_ne by done. by rewrite R3.
Qed.

Lemma end_step s t a :
  vinv s -> enabled s (LEnd t) -> refines s a ->
  exists s' a', run_label no_yield (LEnd t) s = Ret tt s' /\ vinv s' /\ a_step a a' /\ refines s' a'.
Proof.
  destruct s as [v m]. intros [Hc Hl Hwk] (r & x & Ht) Hr. cbn [vs tasks] in *. eexists _, _. split; [done|].
  split_and!; [|by apply (a_return a t r); rewrite (rf_tasks _ _ Hr); cbn; rewrite Ht|].
  - split; try done. cbn [vs tasks]. destruct Hc as [H1 H2 H3 H4 H5 [S1 S2] [Q1 Q2 Q3] H8 H9].
    assert (forall u r' c, waits (delete t m) u r' c <-> waits m u r' c) as Hw.
    { intros u r' c. unfold waits. destruct (decide (u = t)) as [->|Hne]; [|by rewrite lookup_delete_ne]. rewrite lookup_delete_eq, Ht. naive_solver. }
    assert (forall u b r', delete t m !! u = Some (TReq b r') <-> m !! u = Some (TReq b r')) as Hq.
    { intros u b r'. rewrite lookup_delete_Some. split; [naive_solver|]. intros Hu. split; [congruence|done]. }
    split; try done.
    + by eapply table_waits.
    + by eapply rings_waits.
    + split.
      * intros u r' j0 j1 j2 [_ Hu]%lookup_delete_Some. eauto.
      * intros i u Hi Hu. destruct (S2 i u Hi Hu) as (r' & i1 & i2 & Hm). exists r', i1, i2. rewrite lookup_delete_ne; [done|congruence].
    + split; [|done|].
      * intros u. rewrite Q1. by setoid_rewrite Hq.
      * intros Hne. destruct (Q3 Hne) as [(u & r' & c & Hu)|(u & r' & Hu)]; [left|right]; [|exists u, r'; by apply Hq].
        exists u, r', c. by apply Hw.
    + intros u p [_ Hu]%lookup_delete_Some. by eapply H8.
  - destruct Hr as [R1 R2 R3]. cbn [vs tasks] in *. split; try done. cbn [vs tasks set_tasks a_tasks]. intros u.
    destruct (decide (u = t)) as [->|Hne]; [by rewrite !lookup_delete_eq|]. by rewrite !lookup_delete_ne, R3 by done.
Qed.

(** Every step that is possible returns, or is refused for a block that does not
    exist; the specification makes none or one step. *)
Lemma virtio_step s l a :
  vinv s -> enabled s l -> refines s a ->
  run_label no_yield l s = TaskFail s \/
  exists s' a', run_label no_yield l s = Ret tt s' /\ vinv s' /\ rtc a_step a a' /\ refines s' a'.
Proof.
  intros Hi He Hr. assert (forall P Q : Prop, Q -> P \/ Q) as Hright by tauto.
  assert (forall s', vinv s' -> same_abs s s' -> vinv s' /\ rtc a_step a a /\ refines s' a) as Hstutter.
  { intros s' Hi' Hs. split_and!; [done|apply rtc_refl|by eapply same_refines]. }
  destruct l; cbn [enabled] in He.
  - destruct (start_step s t r a Hi He Hr) as [|(s' & a' & ? & ? & ? & ?)]; [by left|right]. exists s', a'. split_and!; try done. by apply rtc_once.
  - destruct He as (_ & r & Ht). destruct (try_step no_yield s t r Hi Ht) as (s' & ? & ? & ?). right. exists s', a. split; [done|]. by apply Hstutter.
  - destruct He as (_ & r & i0 & i1 & i2 & Ht). destruct (resume_step no_yield s t r i0 i1 i2 Hi Ht) as (s' & ? & ? & ?). right. exists s', a.
    split; [done|]. by apply Hstutter.
  - destruct (end_step s t a Hi He Hr) as (s' & a' & ? & ? & ? & ?). right. exists s', a'. split_and!; try done. by apply rtc_once.
  - destruct (intr_step no_yield s Hi) as (s' & ? & ? & ?). right. exists s', a. split; [done|]. by apply Hstutter.
  - destruct (take_step no_yield s Hi He) as (s' & ? & ? & ?). right. exists s', a. split; [done|]. by apply Hstutter.
  - destruct (complete_step s h a Hi He Hr) as (s' & a' & ? & ? & ? & ?). right. exists s', a'. split_and!; try done. by apply rtc_once.
Qed.

End refinement.

(** ** From [open] on *)

(** The driver before [open]; the device has the bytes [st]. *)
Definition power_on (st : Z -> Z) (bf : Z -> list Z) : vstate :=
  VState
    (Driver None false (replicate 8 false) (replicate 8 (Desc ANull 0 0 0)) (replicate 8 (BlkReq 0 0 0))
      (replicate 8 (Info None false 0)) 0 [] [])
    (Rings 0 (replicate 8 0) 0 (replicate 8 0)) (Device 0 [] st) bf.

(** A legacy virtio disk with a queue that is long enough. *)
Definition good_regs (r : virtio_regs_t) : bool :=
  (magic_value r =? 0x74726976) && (version r =? 1) && (device_id r =? 2) && (vendor_id r =? 0x554d4551) && (NUM <=? queue_num_max r).

Lemma open_good r pages v :
  good_regs r = true -> pages mod PGSIZE = 0 -> regs (drv v) = None ->
  exists rg, open (Some r) false pages v =
    Ret 0 (VState (set_free (replicate 8 true) (set_regs (Some rg) (set_desc (replicate 8 (Desc ANull 0 0 0)) (drv v))))
      (Rings 0 (replicate 8 0) 0 (replicate 8 0)) (dev v) (bufs v)) /\
    reg_status rg = 15 /\ config_capacity rg = config_capacity r.
Proof.
  unfold good_regs. rewrite !andb_true_iff, !Z.eqb_eq, Z.leb_le. intros ((((H1 & H2) & H3) & H4) & H5) Hp Hr.
  unfold open, kbind at 1, kget. rewrite Hr, H1, H2, H3, H4. cbn [Z.eqb Pos.eqb negb orb set_status set_features queue_num_max].
  rewrite (proj2 (Z.eqb_neq (queue_num_max r) 0)), (proj2 (Z.ltb_ge (queue_num_max r) NUM)) by (unfold NUM in *; lia).
  unfold kernel_assert. rewrite Hp. eexists. split; [done|]. split; done.
Qed.

Lemma nthZ_replicate {A} `{Inhabited A} (x : A) n i : 0 <= i < Z.of_nat n -> nthZ (replicate n x) i = x.
Proof. intros Hi. apply nthZ_lookup. apply lookup_replicate. split; [done|lia]. Qed.

Lemma open_inv r pages st bf :
  good_regs r = true -> pages mod PGSIZE = 0 -> (forall b, length (bf b) = 1024%nat) ->
  exists v, open (Some r) false pages (power_on st bf) = Ret 0 v /\ vinv (Sys v ∅) /\ store (dev v) = st /\ bufs v = bf.
Proof.
  intros Hg Hp Hb. destruct (open_good r pages (power_on st bf) Hg Hp eq_refl) as (rg & Ho & Hs & _). eexists. split; [done|].
  split_and!; [|done|done]. split; try done. cbn [vs tasks].
  assert (forall t r0 c, ~ waits ∅ t r0 c) as Hw by by intros t r0 c [a Ha].
  split; dsimpl; try done.
  - exists rg. by rewrite Hs.
  - split.
    + by intros t r0 c ?%Hw.
    + by intros t t' r1 r2 c1 c2 i ?%Hw.
    + intros i Hi. dsimpl. by rewrite nthZ_replicate.
  - split; cbn; [constructor| | |].
    + by intros h ?%elem_of_nil.
    + by intros h ?%elem_of_nil.
    + by intros t r0 c ?%Hw.
  - split; [done|]. intros i t Hi. cbn [power_on drv set_regs set_desc info]. rewrite nthZ_replicate by done. done.
  - split; cbn; [|constructor|done]. intros t. split; [by intros ?%elem_of_nil|by intros [r0 Hr0]].
Qed.

(** Steps of all tasks, the handler and the device. *)
Inductive sys_step (no_yield : Z -> bool) (s : sys) : sys -> Prop :=
| sys_step_label l s' : enabled s l -> run_label no_yield l s = Ret tt s' -> sys_step no_yield s s'.

Lemma steps_refine ny s0 s a0 :
  vinv s0 -> refines s0 a0 -> rtc (sys_step ny) s0 s -> vinv s /\ exists a, rtc a_step a0 a /\ refines s a.
Proof.
  intros Hi Hr Hs. revert a0 Hi Hr. induction Hs as [s1|s1 s2 s3 [l s2' He Hl] _ IH]; intros a0 Hi Hr; [by eauto using rtc_refl|].
  destruct (virtio_step ny s1 l a0 Hi He Hr) as [Hf|(s' & a' & Hl' & Hi' & Ha & Hr')]; [congruence|].
  assert (s' = s2') as -> by congruence. destruct (IH a' Hi' Hr') as (Hi3 & a3 & Ha3 & Hr3). split; [done|]. exists a3.
  split; [by etransitivity|done].
Qed.

Lemma open_refines v st bf : store (dev v) = st -> bufs v = bf -> refines (Sys v ∅) (AState (fun n => read_store st (n * 2) BLOCK_SIZE) bf ∅).
Proof. by intros <- <-. Qed.

Lemma reachable_vinv ny r pages st bf v s :
  good_regs r = true -> pages mod PGSIZE = 0 -> (forall b, length (bf b) = 1024%nat) ->
  open (Some r) false pages (power_on st bf) = Ret 0 v -> rtc (sys_step ny) (Sys v ∅) s ->
  vinv s /\ exists a, rtc a_step (AState (fun n => read_store st (n * 2) BLOCK_SIZE) bf ∅) a /\ refines s a.
Proof.
  intros Hg Hp Hb Ho Hs. destruct (open_inv r pages st bf Hg Hp Hb) as (v' & Ho' & Hi & Hst & Hbf).
  assert (v' = v) as -> by congruence. apply (steps_refine ny (Sys v ∅)); [done| |done]. by apply open_refines.
Qed.

(** ** The interrupt handler on its own *)

Lemma spin_more n n' id v v' : spin_status n id v = Ret tt v' -> (n <= n')%nat -> spin_status n' id v = Ret tt v'.
Proof.
  revert n'. induction n as [|n IH]; intros n' H Hn; [done|]. destruct n' as [|n']; [lia|]. cbn [spin_status] in *. unfold kbind, dget in *.
  destruct (status (nthZ (info (drv v)) id) =? 0); [exact H|]. apply IH; [exact H|lia].
Qed.

(** More rounds change nothing, and the loop ends when nothing is left to report. *)
Lemma intr_loop_more n n' v v' : intr_loop n v = Ret tt v' -> (n <= n')%nat -> intr_loop n' v = Ret tt v' /\ seen (drv v') = used_idx (rng v').
Proof.
  revert n' v. induction n as [|n IH]; intros n' v H Hn; [done|]. destruct n' as [|n']; [lia|]. cbn [intr_loop] in *.
  unfold kbind at 1, kget in H. unfold kbind at 1, kget. destruct (seen (drv v) =? used_idx (rng v)) eqn:E.
  { injection H as <-. apply Z.eqb_eq in E. done. }
  unfold kbind at 1 in H. unfold kbind at 1.
  destruct (spin_status n (nthZ (used_ring (rng v)) (seen (drv v) mod NUM)) v) as [[] v1|v1| |] eqn:Es; [|done..].
  rewrite (spin_more _ n' _ _ _ Es ltac:(lia)). unfold kbind, dmodify, kmodify in *. apply IH; [exact H|lia].
Qed.

(** The driver was opened on a good device and has been used since; no hart is in the
    middle of a step. *)
Definition in_service (y : sys) : Prop :=
  exists ny r pages st bf v, good_regs r = true /\ pages mod PGSIZE = 0 /\ (forall b, length (bf b) = 1024%nat) /\
    open (Some r) false pages (power_on st bf) = Ret 0 v /\ rtc (sys_step ny) (Sys v ∅) y.

(** Then the handler returns within nine rounds: every finished request is reported,
    and the driver is in service as before. *)
Lemma in_service_intr y fuel : in_service y -> (9 <= fuel)%nat ->
  exists d', virtio_disk_intr fuel (vs y) = Ret tt d' /\ in_service (settle (Sys d' (tasks y))) /\ seen (drv d') = used_idx (rng d').
Proof.
  intros (ny & r & pages & st & bf & v & Hg & Hp & Hb & Ho & Hs) Hf. destruct (reachable_vinv ny r pages st bf v y Hg Hp Hb Ho Hs) as [Hi _].
  destruct (intr_step ny y Hi) as (y' & Hrun & _ & _).
  assert (sys_step ny y y') as Hstep by (apply (sys_step_label _ _ LIntr); [exact (v_unlocked _ Hi)|exact Hrun]).
  cbn [run_label] in Hrun. unfold lift in Hrun. destruct (virtio_disk_intr (Z.to_nat NUM + 1) (vs y)) as [[] d'|d'| |] eqn:E; [|done..].
  injection Hrun as <-. exists d'. split_and!.
  - revert E. unfold virtio_disk_intr, lock, unlock, dmodify, kmodify. change (Z.to_nat NUM + 1)%nat with 9%nat. unfold kbind.
    destruct (intr_loop 9 (upd_drv (set_locked true) (vs y))) as [[] d1|d1| |] eqn:El; [|done..]. by rewrite (proj1 (intr_loop_more _ _ _ _ El Hf)).
  - exists ny, r, pages, st, bf, v. split_and!; [done..|]. by eapply rtc_r.
  - revert E. unfold virtio_disk_intr, lock, unlock, dmodify, kmodify. change (Z.to_nat NUM + 1)%nat with 9%nat. unfold kbind.
    destruct (intr_loop 9 (upd_drv (set_locked true) (vs y))) as [[] d1|d1| |] eqn:El; [|done..]. intros [= <-].
    exact (proj2 (intr_loop_more _ _ _ _ El Hf)).
Qed.

(** A step that brings some request forward. *)
Definition useful (s : sys) (l : label) : Prop :=
  enabled s l /\
  match l with
  | LStart _ _ => False
  | LResume t => exists r i0 i1 i2, tasks s !! t = Some (TWait true r i0 i1 i2) /\ done_ (nthZ (info (drv (vs s))) i0) = true
  | LIntr => finished (vs s) <> []
  | _ => True
  end.

(** A request in flight: the device, the handler or the task can go on. *)
Lemma flight_useful s t r c : vinv s -> waits (tasks s) t r c -> exists l, useful s l.
Proof.
  intros [Hc Hl _] Hw. destruct (done_ (nthZ (info (drv (vs s))) (head c))) eqn:Hd.
  - destruct Hw as [[] Hb]; destruct c as [[i0 i1] i2]; cbn [head fst snd] in *.
    + exists (LResume t). split; [|by exists r, i0, i1, i2]. split; [done|]. by exists r, i0, i1, i2.
    + destruct (s_asleep _ _ (v_sleep _ _ Hc) t r i0 i1 i2 Hb). congruence.
  - pose proof (r_where _ _ _ _ (v_rings _ _ Hc) t r c Hw Hd) as Hin. unfold pending in Hin. rewrite !elem_of_app in Hin.
    destruct Hin as [[Hq|Hq]|Hq].
    + exists LTake. split; [|done]. cbn [enabled]. intros E. unfold dev_queue, between in Hq. rewrite E, Z.sub_diag in Hq. by apply elem_of_nil in Hq.
    + by exists (LComplete (head c)).
    + exists LIntr. split; [done|]. intros E. rewrite E in Hq. by apply elem_of_nil in Hq.
Qed.

Lemma task_useful s t p : vinv s -> tasks s !! t = Some p -> exists l, useful s l.
Proof.
  intros Hi Ht. pose proof Hi as [Hc Hl _]. destruct p as [[] r|a r i0 i1 i2|r x].
  - exists (LTry t). split; [|done]. split; [done|]. by exists r.
  - assert (t ∈ request_queue (drv (vs s))) as Hin by (apply (q_tasks _ _ (v_queue _ _ Hc)); by exists r).
    destruct (q_prog _ _ (v_queue _ _ Hc)) as [(u & r' & c & Hu)|(u & r' & Hu)].
    + intros E. rewrite E in Hin. by apply elem_of_nil in Hin.
    + by eapply flight_useful.
    + exists (LTry u). split; [|done]. split; [done|]. by exists r'.
  - apply (flight_useful s t r (i0, i1, i2) Hi). by exists a.
  - exists (LEnd t). split; [|done]. by exists r, x.
Qed.

(** ** Theorems *)

(** C25. From a successful [open] on, for any number of tasks, in any order of
    their steps, of interrupts and of the device's work: no step of the driver
    panics or loops forever, and the driver refines a disk that executes every
    request exactly once before the task that made it returns, a read by
    copying the block to the buffer and a write by copying the buffer to the
    block. *)
Theorem virtio_refines ny r pages st bf v s :
  good_regs r = true -> pages mod PGSIZE = 0 -> (forall b, length (bf b) = 1024%nat) ->
  open (Some r) false pages (power_on st bf) = Ret 0 v -> rtc (sys_step ny) (Sys v ∅) s ->
  (forall l, enabled s l -> run_label ny l s = TaskFail s \/ exists s', run_label ny l s = Ret tt s') /\
  exists a, rtc a_step (AState (fun n => read_store st (n * 2) BLOCK_SIZE) bf ∅) a /\ refines s a.
Proof.
  intros Hg Hp Hb Ho Hs. destruct (reachable_vinv ny r pages st bf v s Hg Hp Hb Ho Hs) as (Hi & a & Ha & Hr). split; [|by exists a].
  intros l He. destruct (virtio_step ny s l a Hi He Hr) as [|(s' & _ & ? & _)]; [by left|right; by exists s'].
Qed.

(** C36. A request that was made does not get lost: in every reachable state
    with a task in [disk_command], a step is possible that brings a request
    forward: a task takes descriptors or returns, the device works, or an
    interrupt reports a request that is finished.  Sleeping tasks do not wait
    for each other. *)
Theorem virtio_progress ny r pages st bf v s t p :
  good_regs r = true -> pages mod PGSIZE = 0 -> (forall b, length (bf b) = 1024%nat) ->
  open (Some r) false pages (power_on st bf) = Ret 0 v -> rtc (sys_step ny) (Sys v ∅) s ->
  tasks s !! t = Some p -> exists l, useful s l.
Proof.
  intros Hg Hp Hb Ho Hs Ht. destruct (reachable_vinv ny r pages st bf v s Hg Hp Hb Ho Hs) as [Hi _]. by apply (task_useful s t p).
Qed.

Definition qemu_regs : virtio_regs_t := Regs 0x74726976 1 2 0x554d4551 0 0 0 1024 0 0 0 2000.
Definition zero_buf : Z -> list Z := fun _ => replicate 1024 0.
Definition qemu_opened : vstate := match open (Some qemu_regs) false 8192 (power_on (fun k => k) zero_buf) with Ret _ v => v | _ => power_on (fun _ => 0) zero_buf end.

(** One task asks for block 3. *)
Definition one_request : sys := match run_label (fun _ => false) (LStart 1 (Request 0 3 77)) (Sys qemu_opened ∅) with Ret _ s => s | _ => Sys qemu_opened ∅ end.

Lemma one_request_reachable : rtc (sys_step (fun _ => false)) (Sys qemu_opened ∅) one_request.
Proof.
  apply rtc_once. apply (sys_step_label _ _ (LStart 1 (Request 0 3 77))); [|by vm_compute]. split; [done|]. split; [by left|]. by vm_compute.
Qed.

Lemma zero_buf_length b : length (zero_buf b) = 1024%nat.
Proof. unfold zero_buf. apply length_replicate. Qed.

Lemma virtio_refines_witness : exists s', run_label (fun _ => false) (LTry 1) one_request = Ret tt s'.
Proof.
  destruct (proj1 (virtio_refines (fun _ => false) qemu_regs 8192 (fun k => k) zero_buf qemu_opened one_request
    eq_refl eq_refl zero_buf_length eq_refl one_request_reachable) (LTry 1)) as [Hf|Hr].
  - split; [done|]. by exists (Request 0 3 77).
  - exfalso. vm_compute in Hf. discriminate Hf.
  - exact Hr.
Defined.

Lemma virtio_progress_witness : exists l, useful one_request l.
Proof.
  exact (virtio_progress (fun _ => false) qemu_regs 8192 (fun k => k) zero_buf qemu_opened one_request 1 (TReq true (Request 0 3 77))
    eq_refl eq_refl zero_buf_length eq_refl one_request_reachable eq_refl).
Defined.

(** The position in the ring [used] outlives [close], while [open] clears the
    ring: a driver that has seen completions takes the cleared entries of a
    second [open] for completions of descriptor 0. *)
Lemma reopen_stale r pages v n v1 :
  good_regs r = true -> pages mod PGSIZE = 0 -> close v = Ret tt v1 -> seen (drv v) = n -> 0 < n < 2 ^ 16 ->
  exists v2, open (Some r) false pages v1 = Ret 0 v2 /\ length (finished v2) = Z.to_nat (2 ^ 16 - n) /\
    forall h, h ∈ finished v2 -> h = 0.
Proof.
  intros Hg Hp Hc Hn Hr. injection Hc as <-. destruct (open_good r pages (upd_drv (set_regs None) v) Hg Hp eq_refl) as (rg & Ho & _).
  eexists. split; [done|]. unfold finished. cbn [rng used_ring used_idx drv set_free set_regs set_desc upd_drv seen]. rewrite Hn. split.
  - unfold between. rewrite length_win. f_equal. ulia.
  - intros h Hh. unfold between, win in Hh. apply list_elem_of_fmap in Hh as (k & -> & _). apply nthZ_replicate. unfold NUM. zlia.
Qed.

Lemma spin_forever fuel id v : status (nthZ (info (drv v)) id) <> 0 -> spin_status fuel id v = OutOfFuel.
Proof.
  intros Hs. induction fuel as [|fuel IH]; [done|]. cbn [spin_status]. unfold kbind, dget. by rewrite (proj2 (Z.eqb_neq _ 0)).
Qed.

(** The paths the driver does not handle.  [flush] panics: it asks for zero
    blocks.  When the device needs a reset, a waiting task returns -1 with the
    lock held and its descriptors taken.  When a request ends with an error
    status, the interrupt handler does not return, whatever its fuel.  The
    bound test accepts block 2^64 - 1, whose sum with the count wraps to 0. *)
Theorem virtio_error_paths v rg :
  regs (drv v) = Some rg ->
  flush v = Panic /\
  (forall ny t i0, Z.land (reg_status rg) VIRTIO_CONFIG_S_DEVICE_NEEDS_RESET <> 0 -> done_ (nthZ (info (drv v)) i0) = false ->
    exists v', command_resume ny t i0 v = Ret (WReturn (-1)) v' /\ locked (drv v') = true /\ free (drv v') = free (drv v)) /\
  (forall fuel, seen (drv v) <> used_idx (rng v) ->
    status (nthZ (info (drv v)) (nthZ (used_ring (rng v)) (seen (drv v) mod NUM))) <> 0 -> virtio_disk_intr fuel v = OutOfFuel) /\
  disk_command_enter (2 ^ 64 - 1) 1 v = Ret tt v.
Proof.
  intros Hr. split_and!.
  - done.
  - intros ny t i0 Hs Hd. exists (upd_drv (set_locked true) v). split; [|done]. unfold command_resume, command_wait, lock, dmodify, kmodify.
    unfold kbind at 1. unfold kbind at 1, dget. dsimpl. rewrite Hd. unfold kbind, the_regs. dsimpl. rewrite Hr, (proj2 (Z.eqb_neq _ 0)) by done. done.
  - intros fuel Hne Hs. unfold virtio_disk_intr, lock, dmodify, kmodify. unfold kbind at 1. destruct fuel as [|fuel]; [done|].
    cbn [intr_loop]. unfold kbind at 1. unfold kbind at 1, kget. dsimpl. rewrite (proj2 (Z.eqb_neq _ _) Hne).
    unfold kbind at 1. by rewrite spin_forever.
  - rewrite (enter_run v _ rg Hr). replace (u64 (2 ^ 64 - 1 + 1)) with 0 by done. rewrite (proj2 (Z.ltb_ge _ 0)); [done|].
    apply Z.div_pos; [apply u64_range|done].
Qed.

Lemma virtio_error_paths_witness : flush qemu_opened = Panic.
Proof.
  destruct (regs (drv qemu_opened)) as [rg|] eqn:E; [|vm_compute in E; discriminate E].
  exact (proj1 (virtio_error_paths qemu_opened rg E)).
Defined.
