(* ===== verification/UserSpace.v ===== *)
(** * The address space of a user process (src/os/proc/process.cc)

    [user_process] keeps a page table, a trap frame page and the list of its
    mappings.  [__mmap] allocates and maps pages, [__init_pagetable] builds the
    space of a new process, [__free_pagetable] takes it down.  They run on the
    page tables of [Vmem] and the page allocator of [PageAlloc].

    The theorems are about [__mmap]: it maps fresh pages, each once, and undoes
    what it did when memory runs out. *)
From S2P Require Import Prelude Memory CString Riscv PageAlloc Vmem PageTable UserCopy.

(** ** Definitions *)

Definition MAP_DEFAULT : Z := 0.
Definition MAP_SHARED : Z := 1.
Definition MAP_USER : Z := 4.
Definition ENOMEM : Z := 12.

Record mmap_info := MmapInfo { start : Z; size : Z; mflags : Z; mpte_flags : Z }.

(** [user_process], as far as it concerns the address space, with the machine. *)
Record uspace := USpace {
  um : machine;
  pagetable : Z;
  trapframe_pa : Z;
  stack_bottom_va : Z;
  mmap_infos : list mmap_info;
  min_va : Z;
  max_va : Z
}.

Definition set_um (s : machine) (u : uspace) : uspace :=
  USpace s (pagetable u) (trapframe_pa u) (stack_bottom_va u) (mmap_infos u) (min_va u) (max_va u).
Definition set_pagetable (p : Z) (u : uspace) : uspace :=
  USpace (um u) p (trapframe_pa u) (stack_bottom_va u) (mmap_infos u) (min_va u) (max_va u).
Definition set_trapframe (p : Z) (u : uspace) : uspace :=
  USpace (um u) (pagetable u) p (stack_bottom_va u) (mmap_infos u) (min_va u) (max_va u).
Definition set_stack (p : Z) (u : uspace) : uspace :=
  USpace (um u) (pagetable u) (trapframe_pa u) p (mmap_infos u) (min_va u) (max_va u).
Definition set_infos (l : list mmap_info) (u : uspace) : uspace :=
  USpace (um u) (pagetable u) (trapframe_pa u) (stack_bottom_va u) l (min_va u) (max_va u).
Definition set_bounds (a b : Z) (u : uspace) : uspace :=
  USpace (um u) (pagetable u) (trapframe_pa u) (stack_bottom_va u) (mmap_infos u) a b.

(** An operation of the machine. *)
Definition vm {A : Type} (op : K machine A) : K uspace A := fun u =>
  match op (um u) with
  | Ret a s => Ret a (set_um s u)
  | TaskFail s => TaskFail (set_um s u)
  | Panic => Panic
  | OutOfFuel => OutOfFuel
  end.

(** The number of pages of a size: the rounds that the loops over a range
    need; [uvmunmap] looks at one page even for the size 0. *)
Definition npages (size : Z) : nat := Z.to_nat ((size + PGSIZE - 1) / PGSIZE).

(** [__mmap(va, pa, size, flags, pte_flags)]. *)
Definition mmap_at (va pa size flags pte_flags : Z) : K uspace Z :=
  u <- kget ;;
  r <- vm (uvmmap (S (npages size)) (pagetable u) va pa size pte_flags) ;;
  if r <? 0 then kret (-1)
  else
    kmodify (fun u => set_infos (mmap_infos u ++ [MmapInfo va size flags pte_flags]) u) ;;;
    kret 0.

(** The loop of [__mmap]: whether it got through, and [current_va]. *)
Fixpoint mmap_loop (fuel : nat) (current_va va_end pte_flags : Z) : K uspace (bool * Z) :=
  match fuel with
  | O => kfuel
  | S fuel' =>
      if current_va <? va_end then
        pa <- vm alloc_page ;;
        if pa =? 0 then kret (false, current_va)
        else
          u <- kget ;;
          r <- vm (uvmmap 1 (pagetable u) current_va pa PGSIZE pte_flags) ;;
          if r <? 0 then kret (false, current_va)
          else mmap_loop fuel' (u64 (current_va + PGSIZE)) va_end pte_flags
      else kret (true, current_va)
  end.

(** [__mmap(va, size, flags, pte_flags)]. *)
Definition mmap (va size flags pte_flags : Z) : K uspace Z :=
  let va_end := u64 (va + size) in
  '(ok, current_va) <- mmap_loop (S (npages size)) va va_end pte_flags ;;
  if ok : bool then
    kmodify (fun u => set_infos (mmap_infos u ++ [MmapInfo va size (Z.land flags (Z.lnot MAP_SHARED)) pte_flags]) u) ;;;
    kret 0
  else
    (if negb (current_va =? va) then
       u <- kget ;;
       vm (uvmunmap (npages (current_va - va)) (pagetable u) va (current_va - va) true)
     else kret tt) ;;;
    kret (-1).

(** The loop of [__free_pagetable]. *)
Fixpoint unmap_infos (l : list mmap_info) : K uspace unit :=
  match l with
  | [] => kret tt
  | info :: l' =>
      u <- kget ;;
      vm (uvmunmap (Nat.max 1 (npages (size info))) (pagetable u) (start info) (size info) (Z.land (mflags info) MAP_SHARED =? 0)) ;;;
      unmap_infos l'
  end.

Definition __free_pagetable : K uspace unit :=
  u <- kget ;;
  unmap_infos (mmap_infos u) ;;;
  kmodify (set_infos []) ;;;
  (if negb (pagetable u =? 0) then vm (free_pagetable_pages 3 (pagetable u)) else kret tt) ;;;
  kmodify (set_pagetable 0).

Definition TRAPFRAME_EPC : Z := 24.
Definition TRAPFRAME_SP : Z := 48.

(** [__init_pagetable]; [trampoline] is the address of the linker symbol. *)
Definition __init_pagetable (trampoline : Z) : K uspace Z :=
  pt <- vm create_empty_user_pagetable ;;
  kmodify (set_pagetable pt) ;;;
  tf <- vm alloc_page ;;
  kmodify (set_trapframe tf) ;;;
  stack_pa <- vm alloc_page ;;
  kernel_assert (USTACK_SIZE =? PGSIZE) ;;;
  if (pt =? 0) || (tf =? 0) || (stack_pa =? 0) then
    vm (free_pagetable_pages 3 pt) ;;;
    vm (free_page tf) ;;;
    vm (free_page stack_pa) ;;;
    kmodify (set_pagetable 0) ;;;
    kmodify (set_trapframe 0) ;;;
    kret (- ENOMEM)
  else
    vm (kmodify (set_ram (fun m => memset m tf 0 (Z.to_nat PGSIZE)))) ;;;
    vm (kmodify (set_ram (fun m => memset m stack_pa 0 (Z.to_nat PGSIZE)))) ;;;
    let err_map := __free_pagetable ;;; kret (- ENOMEM) in
    r <- mmap_at TRAMPOLINE trampoline PGSIZE MAP_SHARED (Z.lor PTE_R PTE_X) ;;
    if r <? 0 then err_map
    else
      r <- mmap_at TRAPFRAME tf PGSIZE MAP_DEFAULT (Z.lor PTE_R PTE_W) ;;
      if r <? 0 then err_map
      else
        r <- mmap_at USER_STACK_TOP stack_pa USTACK_SIZE MAP_USER (Z.lor (Z.lor PTE_U PTE_R) PTE_W) ;;
        if r <? 0 then err_map
        else
          kmodify (set_stack USER_STACK_BOTTOM) ;;;
          vm (kmodify (set_ram (fun m => store64 m (tf + TRAPFRAME_SP) USER_STACK_BOTTOM))) ;;;
          kret 0.

(** ** Entries for user pages *)

Definition user_perm (perm : Z) : Prop := 0 <= perm < 1024 /\ Z.testbit perm 4 = true.

Lemma map_pte_eq p perm : p mod 4096 = 0 -> 0 < p < 2 ^ 56 -> 0 <= perm < 1024 -> map_pte p perm = p / 4 + Z.lor perm 1.
Proof.
  intros Hp Hr Hperm. unfold map_pte, PA2PTE. rewrite Z.shiftr_div_pow2, Z.shiftl_mul_pow2 by lia.
  rewrite u64_small by zlia. rewrite <- Z.lor_assoc. change PTE_V with 1.
  replace (p / 2 ^ 12 * 2 ^ 10) with (p / 4) by zlia. rewrite Z.add_nocarry_lxor, Z.lxor_lor; [done| |].
  all: apply Z.bits_inj'; intros n Hn; rewrite Z.land_spec, Z.testbit_0_l; destruct (decide (n < 10)) as [Hlt|Hge].
  1,3: replace (p / 4) with (p / 4096 * 2 ^ 10) by zlia; by rewrite Z.mul_pow2_bits_low by lia.
  all: rewrite (Z.bits_above_log2 (Z.lor perm 1) n), andb_false_r; try done; [apply Z.lor_nonneg; lia|].
  all: rewrite Z.log2_lor by lia; change (Z.log2 1) with 0; apply Z.max_lub_lt; [|lia].
  all: destruct (decide (perm = 0)) as [->|]; [cbn; lia|]; apply Z.log2_lt_pow2; [lia|].
  all: assert (2 ^ 10 <= 2 ^ n) by (apply Z.pow_le_mono_r; lia); lia.
Qed.

Lemma lor_perm_range perm : 0 <= perm < 1024 -> 0 < Z.lor perm 1 < 1024.
Proof.
  intros Hp. assert (Z.lor perm 1 <> 0) by (intros [_ ?]%Z.lor_eq_0_iff; done). split; [pose proof (proj2 (Z.lor_nonneg perm 1)); lia|].
  assert (Z.log2 (Z.lor perm 1) < 10) as Hl; [|apply Z.log2_lt_pow2 in Hl; [done|pose proof (proj2 (Z.lor_nonneg perm 1)); lia]].
  rewrite Z.log2_lor by lia. apply Z.max_lub_lt; [|done]. destruct (decide (perm = 0)) as [->|]; [done|]. apply Z.log2_lt_pow2; lia.
Qed.

Lemma map_pte_page p perm :
  p mod 4096 = 0 -> 0 < p < 2 ^ 56 -> 0 <= perm < 1024 ->
  PTE2PA (map_pte p perm) = p /\ PTE_FLAGS (map_pte p perm) = Z.lor perm 1 /\ Z.testbit (map_pte p perm) 4 = Z.testbit perm 4.
Proof.
  intros Hp Hr Hperm. pose proof (lor_perm_range perm Hperm) as Hl. split_and!.
  - rewrite map_pte_eq by done. unfold PTE2PA. rewrite Z.shiftr_div_pow2, Z.shiftl_mul_pow2 by lia. rewrite u64_small; zlia.
  - unfold PTE_FLAGS. change 1023 with (Z.ones 10). rewrite Z.land_ones, map_pte_eq by (done || lia). zlia.
  - unfold map_pte, PA2PTE. rewrite !Z.lor_spec. change (Z.testbit PTE_V 4) with false. rewrite orb_false_r.
    rewrite Z.shiftr_div_pow2, Z.shiftl_mul_pow2, u64_small by zlia. by rewrite Z.mul_pow2_bits_low by lia.
Qed.

Lemma user_perm_flags perm : user_perm perm -> Z.lor perm 1 <> PTE_V.
Proof.
  intros [Hp Hb] Heq. assert (Z.testbit (Z.lor perm 1) 4 = Z.testbit PTE_V 4) as H by by rewrite Heq.
  rewrite Z.lor_spec, Hb in H. done.
Qed.

(** ** The invariant of an address space

    A page that the user can reach is memory of the allocator that is neither
    free nor a table, and is mapped once. *)
Record uok (s : machine) (root : Z) (T : gmap Z (nat * Z)) (l : list Z) : Prop := {
  uo_vm : vm_ok s root T l;
  uo_page : forall va e, 0 <= va < MAXVA -> translate (ram s) root va = Some e -> Z.testbit e 4 = true ->
    page_ok (pages s) (PTE2PA e) /\ PTE2PA e ∉ l /\ T !! PTE2PA e = None;
  uo_inj : forall va va' e e', 0 <= va < MAXVA -> 0 <= va' < MAXVA ->
    translate (ram s) root va = Some e -> translate (ram s) root va' = Some e' -> Z.testbit e 4 = true -> Z.testbit e' 4 = true ->
    PTE2PA e = PTE2PA e' -> va / 4096 = va' / 4096
}.

(** The machine after pages of [l] were used for tables and mappings. *)
Record grown (s s' : machine) (T T' : gmap Z (nat * Z)) (l l' : list Z) : Prop := {
  gr_sub : T ⊆ T';
  gr_free : forall p, p ∈ l' -> p ∈ l;
  gr_new : forall t, is_Some (T' !! t) -> is_Some (T !! t) \/ (t ∈ l /\ t ∉ l');
  gr_start : pa_start (pages s') = pa_start (pages s);
  gr_end : pa_end (pages s') = pa_end (pages s);
  gr_other : forall a, outside_tables T' a -> (forall p, p ∈ l -> ~ p <= a < p + 4096) -> rd8 (ram s') a = rd8 (ram s) a
}.

Lemma grown_refl s T l : grown s s T T l l.
Proof. split; try done. by left. Qed.

Lemma grown_trans s1 s2 s3 T1 T2 T3 l1 l2 l3 : grown s1 s2 T1 T2 l1 l2 -> grown s2 s3 T2 T3 l2 l3 -> grown s1 s3 T1 T3 l1 l3.
Proof.
  intros [A1 A2 A3 A4 A5 A6] [B1 B2 B3 B4 B5 B6]. split; try congruence; [by etrans|by eauto| |].
  - intros t Ht. destruct (B3 t Ht) as [H2|[H2 H3]].
    + destruct (A3 t H2) as [|[? Hn]]; [by left|right]. split; [done|]. intros H5. by apply Hn, B2.
    + right. split; [by apply A2|done].
  - intros a Ha Hl. rewrite B6; [|done|by intros p ?%A2; apply Hl]. apply A6; [|done]. by eapply outside_tables_mono.
Qed.

Lemma tables_grown_weaken s s' T T' l l' : tables_grown s s' T T' l l' -> grown s s' T T' l l'.
Proof. intros Hg. split; try apply Hg. - intros p Hp. eapply elem_of_suffix; [exact Hp|apply Hg]. - intros a Ha _. by apply (tg_other _ _ _ _ _ _ Hg). Qed.

Lemma grown_fresh s s' T T' l l' q : grown s s' T T' l l' -> q ∉ l -> T !! q = None -> q ∉ l' /\ T' !! q = None.
Proof.
  intros [G1 G2 G3 G4 G5 G6] Hq HT. split; [by intros Hin%G2|]. destruct (T' !! q) eqn:E; [|done].
  destruct (G3 q) as [[x Hx]|[Hin _]]; [by eexists|congruence|done].
Qed.

(** Table pages grow; what the user reaches stays. *)
Lemma uok_grown s s' root T T' l l' :
  uok s root T l -> vm_ok s' root T' l' -> grown s s' T T' l l' ->
  (forall va, 0 <= va < MAXVA -> translate (ram s') root va = translate (ram s) root va) -> uok s' root T' l'.
Proof.
  intros [U1 U2 U3] Hv Hg Htr. split; [done| |].
  - intros va e Hva He Hb. rewrite Htr in He by done. destruct (U2 va e Hva He Hb) as (Hp & Hl & HT).
    destruct (grown_fresh _ _ _ _ _ _ _ Hg Hl HT). split_and!; try done. eapply page_ok_ext; [apply Hg|apply Hg|done].
  - intros va va' e e' Hva Hva' He He'. rewrite Htr in He, He' by done. by apply U3.
Qed.

(** The entry of one page is set: to a page that the user does not have yet, if
    the entry is for the user. *)
Lemma uok_entry s s' root T T' l l' e va :
  uok s root T l -> vm_ok s' root T' l' -> grown s s' T T' l l' -> 0 <= va < MAXVA ->
  (forall va', 0 <= va' < MAXVA -> translate (ram s') root va' = if decide (va' / 4096 = va / 4096) then Some e else translate (ram s) root va') ->
  (Z.testbit e 4 = true -> page_ok (pages s) (PTE2PA e) /\ PTE2PA e ∉ l' /\ T' !! PTE2PA e = None /\
    forall va' e', 0 <= va' < MAXVA -> translate (ram s) root va' = Some e' -> Z.testbit e' 4 = true -> PTE2PA e' <> PTE2PA e) ->
  uok s' root T' l'.
Proof.
  intros [U1 U2 U3] Hv Hg Hva Htr Hnew. pose proof (fun q => grown_fresh s s' T T' l l' q Hg) as Hkeep. destruct Hg as [G1 G2 G3 G4 G5 G6].
  split; [done| |].
  - intros va' e' Hva' He Hu. rewrite Htr in He by done. case_decide; simplify_eq.
    + destruct (Hnew Hu) as (Q1 & Q2 & Q3 & _). split_and!; try done. by eapply page_ok_ext.
    + destruct (U2 va' e' Hva' He Hu) as (Hpo & Hl & HT). destruct (Hkeep _ Hl HT). split_and!; try done. by eapply page_ok_ext.
  - intros a a' x x' Ha Ha' Hx Hx' Hu Hu' Heq. rewrite Htr in Hx, Hx' by done. destruct (decide (a / 4096 = va / 4096)), (decide (a' / 4096 = va / 4096)); simplify_eq; [lia| | |by eapply U3].
    + by destruct (proj2 (proj2 (proj2 (Hnew Hu))) a' x' Ha' Hx' Hu').
    + by destruct (proj2 (proj2 (proj2 (Hnew Hu'))) a x Ha Hx Hu).
Qed.

Lemma grown_more s s' T T' p l l' : grown s s' T T' l l' -> grown s s' T T' (p :: l) l'.
Proof.
  intros [G1 G2 G3 G4 G5 G6]. split; try done.
  - intros q Hq. right. by apply G2.
  - intros t Ht. destruct (G3 t Ht) as [|[? ?]]; [by left|right]. split; [by right|done].
  - intros a Ha Hl. apply G6; [done|]. intros q Hq. apply Hl. by right.
Qed.

(** A fresh page mapped for the user. *)
Lemma uok_map s s' root T T' l l' p va perm :
  uok s root T (p :: l) -> vm_ok s' root T' l' -> grown s s' T T' l l' -> user_perm perm -> 0 <= va < MAXVA ->
  (forall va', 0 <= va' < MAXVA -> translate (ram s') root va' =
    if decide (va' / 4096 = va / 4096) then Some (map_pte p perm) else translate (ram s) root va') -> uok s' root T' l'.
Proof.
  intros Hu Hv Hg [Hperm Hbit] Hva Htr. pose proof Hu as [U1 U2 U3].
  destruct (pages_inv_free_pages s (p :: l) p (vm_pages _ _ _ _ U1)) as [Hpok Hpr]; [by left|].
  pose proof (pi_nodup _ _ (vm_pages _ _ _ _ U1)) as [Hpl _]%NoDup_cons.
  destruct (map_pte_page p perm) as (Hpa & _ & Hb); [apply Hpok|done|done|].
  apply (uok_entry s s' root T T' (p :: l) l' (map_pte p perm) va); try done; [by apply grown_more|].
  intros _. rewrite Hpa. split_and!; [done|by intros ?%(gr_free _ _ _ _ _ _ Hg)| |].
  - destruct (T' !! p) eqn:E; [|done]. destruct (gr_new _ _ _ _ _ _ Hg p) as [[x Hx]|[? _]]; [by eexists| |done].
    rewrite (vm_free _ _ _ _ U1 p) in Hx; [done|by left].
  - intros va' e' Hva' He' Hb' Heq. destruct (U2 va' e' Hva' He' Hb') as (_ & Hl & _). rewrite Heq in Hl. destruct Hl. by left.
Qed.

(** Writes to user memory leave the address space. *)
Lemma uok_data s s' root T l :
  uok s root T l -> vm_ok s' root T l -> tables_agree T (ram s) (ram s') -> pages s' = pages s ->
  uok s' root T l /\ forall va, 0 <= va < MAXVA -> translate (ram s') root va = translate (ram s) root va.
Proof.
  intros [U1 U2 U3] Hv Hag Hpg.
  assert (forall va, 0 <= va < MAXVA -> translate (ram s') root va = translate (ram s) root va) as Htr.
  { intros va Hva. apply (leaf_pte_agree T); [done|apply U1|lia|by eapply vm_root_prefix]. }
  split; [|done]. split; [done| |].
  - intros va e Hva He Hb. rewrite Htr in He by done. rewrite Hpg. by apply (U2 va).
  - intros va va' e e' Hva Hva' He He'. rewrite Htr in He, He' by done. by apply U3.
Qed.

(** ** [__mmap] *)

(** Taking a page leaves the address space. *)
Lemma uok_alloc s root T p l :
  uok s root T (p :: l) -> exists s1, alloc_page s = Ret p s1 /\ vm_ok s1 root T l /\ ram s1 = ram s /\
    pa_start (pages s1) = pa_start (pages s) /\ pa_end (pages s1) = pa_end (pages s).
Proof.
  intros [[V1 V2 V3 V4 V5] U2 U3]. destruct (alloc_page_correct s (p :: l) V2) as (s1 & Hrun & Hpg & Hram & Hst & Hen).
  exists s1. split_and!; try done. split; [by rewrite Hram|done| |done|done]. intros q Hq. apply V3. by right.
Qed.

(** [walk] takes at most one page per level. *)
Lemma walk_count lv pt va alloc s r s' :
  Z.of_nat lv <= free_page_count (pages s) < 2 ^ 64 -> walk_loop lv pt va alloc s = Ret r s' ->
  free_page_count (pages s) - Z.of_nat lv <= free_page_count (pages s').
Proof.
  revert pt s. induction lv as [|lv IH]; intros pt s Hc; cbn [walk_loop].
  { intros [= <- <-]. lia. }
  unfold kbind at 1, kget. destruct (negb (Z.land _ PTE_V =? 0)).
  { intros Hr. apply IH in Hr; lia. }
  destruct (negb alloc); [intros [= <- <-]; lia|]. intros Hr. apply kbind_inv_ret in Hr as (child & s1 & Ha & Hr).
  assert (free_page_count (pages s) - 1 <= free_page_count (pages s1) < 2 ^ 64) as Hc1.
  { unfold alloc_page in Ha. destruct (free_page_list (pages s) =? 0); injection Ha as _ <-; cbn [pages free_page_count]; [lia|].
    rewrite u64_small; lia. }
  destruct (child =? 0); [injection Hr as <- <-; lia|]. apply IH in Hr; cbn in *; lia.
Qed.

(** [uvmmap] of one unmapped page. *)
Lemma uvmmap_page fuel s root T l va pa perm :
  vm_ok s root T l -> va mod 4096 = 0 -> 0 <= va -> va + 4096 <= MAXVA -> 0 <= perm < 1024 -> translate (ram s) root va = None ->
  exists r s' T' l', uvmmap (S fuel) root va pa PGSIZE perm s = Ret r s' /\ tables_grown s s' T T' l l' /\ (length l <= length l' + 2)%nat /\
    ((r = -1 /\ l' = [] /\ forall va', 0 <= va' < MAXVA -> translate (ram s') root va' = translate (ram s) root va') \/
     (r = 0 /\ forall va', 0 <= va' < MAXVA -> translate (ram s') root va' =
       if decide (va' / 4096 = va / 4096) then Some (map_pte pa perm) else translate (ram s) root va')).
Proof.
  intros Hv Hva Hva0 Hmax Hperm Hnone. assert (MAXVA = 2 ^ 38) as HM by done.
  destruct (map_pte_spec pa perm ltac:(lia)) as [He Hb].
  destruct (map_one_page s root T l va (map_pte pa perm) Hv ltac:(lia) Hnone He Hb) as (r & s2 & T2 & l2 & Hrun & Htg & Hsame & Hres).
  assert (length l <= length l2 + 2)%nat as Hlen.
  { pose proof (pages_inv_count_bound _ _ (vm_pages _ _ _ _ Hv)). pose proof (pi_count _ _ (vm_pages _ _ _ _ Hv)) as Hc1.
    pose proof (pi_count _ _ (tg_pages _ _ _ _ _ _ Htg)) as Hc2. unfold walk in Hrun. rewrite (proj2 (Z.leb_gt _ _)) in Hrun by lia.
    destruct (decide (Z.of_nat 2 <= free_page_count (pages s))) as [Hge|]; [|lia].
    apply walk_count in Hrun; lia. }
  unfold uvmmap, mappages, PGSIZE. rewrite u64_small, !PGROUNDDOWN_eq by lia. replace (va - va mod 4096) with va by lia.
  replace (va + 4096 - 1 - (va + 4096 - 1) mod 4096) with va by zlia. rewrite mappages_loop_S, Hrun.
  destruct Hres as [[-> ->]|(Hr & Hinv & Htg2 & Htr)].
  - exists (-1), s2, T2, []. cbn [Z.eqb]. split_and!; auto.
  - rewrite (proj2 (Z.eqb_neq _ _) Hr), Hinv, Z.eqb_refl. cbv zeta in *. eexists 0, _, T2, l2. split; [done|]. split_and!; auto.
Qed.

Lemma grown_alloc s s1 s' T T' p l l' :
  ram s1 = ram s -> pa_start (pages s1) = pa_start (pages s) -> pa_end (pages s1) = pa_end (pages s) ->
  tables_grown s1 s' T T' l l' -> grown s s' T T' l l' /\ grown s s' T T' (p :: l) l'.
Proof.
  intros Hram Hst Hen [G1 G2 G3 G4 G5 G6]%tables_grown_weaken. assert (grown s s' T T' l l'); [|by split; [|apply grown_more]].
  split; try congruence; try done. intros a Ha Hl. rewrite G6, Hram; done.
Qed.

(** One round of the loop. *)
Lemma mmap_round s s1 root T p l va perm :
  uok s root T (p :: l) -> alloc_page s = Ret p s1 -> va mod 4096 = 0 -> 0 <= va -> va + 4096 <= MAXVA -> user_perm perm ->
  translate (ram s) root va = None ->
  exists r s2 T2 l2, uvmmap 1 root va p PGSIZE perm s1 = Ret r s2 /\ uok s2 root T2 l2 /\ grown s s2 T T2 (p :: l) l2 /\
    (length l <= length l2 + 2)%nat /\ (forall q, q ∈ l -> q ∈ l2 \/ is_Some (T2 !! q)) /\
    ((r = -1 /\ l2 = [] /\ forall va', 0 <= va' < MAXVA -> translate (ram s2) root va' = translate (ram s) root va') \/
     (r = 0 /\ forall va', 0 <= va' < MAXVA -> translate (ram s2) root va' =
       if decide (va' / 4096 = va / 4096) then Some (map_pte p perm) else translate (ram s) root va')).
Proof.
  intros Hu Hal Hva Hva0 Hmax Hperm Hnone. destruct (uok_alloc s root T p l Hu) as (s1' & Hal' & Hv1 & Hram & Hst & Hen).
  assert (s1' = s1) as -> by congruence. assert (MAXVA = 2 ^ 38) as HM by done.
  destruct (uvmmap_page 0 s1 root T l va p perm) as (r & s2 & T2 & l2 & Hrun & Htg & Hlen & Hres);
    [done|done|done|done|apply Hperm|by rewrite Hram|]. rewrite Hram in Hres.
  destruct (grown_alloc s s1 s2 T T2 p l l2 Hram Hst Hen Htg) as [Hg Hgp]. pose proof (vm_grown _ _ _ _ _ _ _ Hv1 Htg) as Hv2.
  exists r, s2, T2, l2. split; [done|]. assert (uok s2 root T2 l2) as Hu2; [|split_and!; try done; apply Htg].
  destruct Hres as [(-> & -> & Htr)|(-> & Htr)].
  - by apply (uok_grown s s2 root T T2 (p :: l) []).
  - eapply (uok_map s _ root T T2 l l2 p va perm); try done. lia.
Qed.

(** The pages [ps] are mapped from [va] on, and nothing else changed. *)
Record mapped_run (s s' : machine) (root va perm : Z) (ps l : list Z) : Prop := {
  mr_pages : forall p, p ∈ ps -> p ∈ l;
  mr_in : forall i p va', ps !! i = Some p -> va + Z.of_nat i * 4096 <= va' < va + (Z.of_nat i + 1) * 4096 ->
    translate (ram s') root va' = Some (map_pte p perm);
  mr_out : forall va', 0 <= va' < MAXVA -> ~ va <= va' < va + Z.of_nat (length ps) * 4096 ->
    translate (ram s') root va' = translate (ram s) root va'
}.

Lemma mapped_nil s s' root va perm l :
  (forall va', 0 <= va' < MAXVA -> translate (ram s') root va' = translate (ram s) root va') -> mapped_run s s' root va perm [] l.
Proof. intros Htr. split; [by intros p ?%elem_of_nil|done|]. intros va' Hva' _. by apply Htr. Qed.

Lemma mapped_cons s s1 s' root va perm p ps l l1 :
  va mod 4096 = 0 -> 0 <= va -> va + (Z.of_nat (length ps) + 1) * 4096 <= MAXVA -> p ∈ l -> (forall q, q ∈ l1 -> q ∈ l) ->
  (forall va', 0 <= va' < MAXVA -> translate (ram s1) root va' =
    if decide (va' / 4096 = va / 4096) then Some (map_pte p perm) else translate (ram s) root va') ->
  mapped_run s1 s' root (va + 4096) perm ps l1 -> mapped_run s s' root va perm (p :: ps) l.
Proof.
  intros Hal Hva Hmax Hp Hl Htr [M1 M2 M3]. split.
  - intros q [->|Hq]%elem_of_cons; [done|by apply Hl, M1].
  - intros [|i] q va' Hq Hva'; cbn in Hq.
    + injection Hq as <-. rewrite M3, Htr, decide_True by zlia. done.
    + apply (M2 i q va'); [done|lia].
  - intros va' Hva' Hn. cbn [length] in Hn. rewrite M3, Htr, decide_False by zlia. done.
Qed.

Lemma mmap_loop_run n u T l va perm :
  uok (um u) (pagetable u) T l -> va mod 4096 = 0 -> 0 <= va -> va + Z.of_nat n * 4096 <= MAXVA -> user_perm perm ->
  (forall va', va <= va' < va + Z.of_nat n * 4096 -> translate (ram (um u)) (pagetable u) va' = None) ->
  exists b ps s' T' l', mmap_loop (S n) va (va + Z.of_nat n * 4096) perm u = Ret (b, va + Z.of_nat (length ps) * 4096) (set_um s' u) /\
    uok s' (pagetable u) T' l' /\ grown (um u) s' T T' l l' /\
    (if b : bool then length ps = n /\ (length l <= length l' + 3 * n)%nat else (length ps < n)%nat /\ (length l <= 3 * n)%nat) /\
    mapped_run (um u) s' (pagetable u) va perm ps l /\
    exists X, (length X <= if b then 0 else 1)%nat /\ forall q, q ∈ l -> q ∈ l' \/ is_Some (T' !! q) \/ q ∈ ps \/ q ∈ X.
Proof.
  revert u T l va. induction n as [|n IH]; intros u T l va Hu Hal Hva Hmax Hperm Hnone; cbn [mmap_loop].
  { exists true, [], (um u), T, l. rewrite (proj2 (Z.ltb_ge _ _)) by lia. split_and!; [|done|apply grown_refl|done|cbn; lia|by apply mapped_nil|exists []; split; [done|by left]].
    cbn. unfold kret. rewrite Z.add_0_r. by destruct u. }
  rewrite (proj2 (Z.ltb_lt _ _)) by lia. assert (MAXVA = 2 ^ 38) as HM by done.
  pose proof (alloc_page_correct _ _ (vm_pages _ _ _ _ (uo_vm _ _ _ _ Hu))) as Hal1. destruct l as [|p l].
  { exists false, [], (um u), T, []. unfold kbind at 1, vm at 1. rewrite Hal1. cbn [Z.eqb].
    split_and!; [|done|apply grown_refl|cbn; lia|cbn; lia|by apply mapped_nil|exists []; split; [cbn; lia|by left]]. cbn. unfold kret. rewrite Z.add_0_r. done. }
  destruct Hal1 as (s1 & Hrun1 & _). unfold kbind at 1, vm at 1. rewrite Hrun1.
  destruct (pages_inv_free_pages _ _ p (vm_pages _ _ _ _ (uo_vm _ _ _ _ Hu))) as [_ Hp0]; [by left|].
  rewrite (proj2 (Z.eqb_neq _ _)) by lia. unfold kbind at 1, kget. cbn [set_um pagetable].
  destruct (mmap_round (um u) s1 (pagetable u) T p l va perm Hu Hrun1 Hal Hva ltac:(lia) Hperm ltac:(apply Hnone; lia))
    as (r & s2 & T2 & l2 & Hrun2 & Hu2 & Hg2 & Hl2 & Hus2 & Hres).
  unfold kbind at 1, vm at 1. cbn [set_um um]. rewrite Hrun2. destruct Hres as [(-> & -> & Htr)|(-> & Htr)].
  { exists false, [], s2, T2, []. split_and!; [|done|done|cbn; lia|cbn [length] in *; lia|by apply mapped_nil|]; [cbn; unfold kret; by rewrite Z.add_0_r|].
    exists [p]. split; [done|]. intros q [->|Hq]%elem_of_cons; [right; right; right; by left|]. destruct (Hus2 q Hq); tauto. }
  cbn [Z.ltb Z.compare]. rewrite u64_small by (unfold PGSIZE; lia). unfold PGSIZE.
  destruct (IH (set_um s2 u) T2 l2 (va + 4096)) as (b & ps & s' & T' & l' & Hrun & Hu' & Hg' & Hlen & Hm & X & HX & Hus); [done|zlia|lia|lia|done| |].
  { intros va' Hva'. cbn [set_um um pagetable]. rewrite Htr, decide_False by zlia. apply Hnone. lia. }
  cbn [set_um um pagetable] in *. exists b, (p :: ps), s', T', l'.
  replace (va + 4096 + Z.of_nat n * 4096) with (va + Z.of_nat (S n) * 4096) in Hrun by lia.
  replace (va + 4096 + Z.of_nat (length ps) * 4096) with (va + Z.of_nat (length (p :: ps)) * 4096) in Hrun by (cbn [length]; lia).
  split_and!; [exact Hrun|done|by eapply grown_trans|destruct b; cbn [length]; lia| |].
  - eapply (mapped_cons _ s2 _ _ _ _ p ps _ l2); try done; [destruct b; lia|by left|]. apply (gr_free _ _ _ _ _ _ Hg2).
  - exists X. split; [done|]. intros q [->|Hq]%elem_of_cons; [right; right; left; by left|]. destruct (Hus2 q Hq) as [Hq2|[x Hx]].
    + destruct (Hus q Hq2) as [|[|[|]]]; [by left|by right; left|right; right; left; by right|by right; right; right].
    + right; left. exists x. eapply lookup_weaken; [done|apply Hg'].
Qed.

Lemma kget_bounds : krel same_bounds kget.
Proof. by intros s a s' [= <- <-]. Qed.
Lemma ram_bounds f : krel same_bounds (kmodify (set_ram f)).
Proof. by intros s a s' [= <- <-]. Qed.
Lemma wr_pte_bounds pte v : krel same_bounds (wr_pte pte v).
Proof. apply ram_bounds. Qed.
Lemma free_page_bounds p : krel same_bounds (free_page p).
Proof. intros s a s'. unfold free_page. repeat case_match; by intros [= <- <-]. Qed.
Lemma alloc_page_bounds : krel same_bounds alloc_page.
Proof. intros s a s'. unfold alloc_page. repeat case_match; by intros [= <- <-]. Qed.
#[local] Hint Resolve kget_bounds ram_bounds wr_pte_bounds free_page_bounds alloc_page_bounds : krel.

Lemma walk_loop_bounds level pt va alloc : krel same_bounds (walk_loop level pt va alloc).
Proof. revert pt. induction level as [|level IH]; intros pt; cbn [walk_loop]; krel. Qed.
Lemma walk_bounds pt va alloc : krel same_bounds (walk pt va alloc).
Proof. unfold walk. pose proof walk_loop_bounds. krel. Qed.
#[local] Hint Resolve walk_bounds : krel.

Lemma uvmunmap_bounds fuel pt a last do_free : krel same_bounds (uvmunmap_loop fuel pt a last do_free).
Proof. destruct do_free; revert a; (induction fuel as [|fuel IH]; intros a; cbn [uvmunmap_loop]; krel). Qed.

(** What the error path gives back. *)
Lemma unmap_run s s' root va perm ps l0 T l :
  uok s' root T l -> mapped_run s s' root va perm ps l0 -> va mod 4096 = 0 -> 0 <= va -> ps <> [] ->
  va + Z.of_nat (length ps) * 4096 <= MAXVA -> user_perm perm ->
  (forall p, p ∈ l0 -> p mod 4096 = 0 /\ 0 < p < 2 ^ 56) ->
  (forall va', va <= va' < va + Z.of_nat (length ps) * 4096 -> translate (ram s) root va' = None) ->
  exists s2, uvmunmap (length ps) root va (Z.of_nat (length ps) * 4096) true s' = Ret tt s2 /\
    uok s2 root T (rev ps ++ l) /\ same_bounds s' s2 /\ forall va', 0 <= va' < MAXVA -> translate (ram s2) root va' = translate (ram s) root va'.
Proof.
  intros [U1 U2 U3] [M1 M2 M3] Hal Hva Hne Hmax Hperm Hl0 Hnone. assert (MAXVA = 2 ^ 38) as HM by done.
  assert (0 < Z.of_nat (length ps)) as Hlen by (destruct ps; [done|cbn [length]; lia]).
  assert (forall p, p ∈ ps -> PTE2PA (map_pte p perm) = p /\ PTE_FLAGS (map_pte p perm) <> PTE_V /\ Z.testbit (map_pte p perm) 4 = true) as Hpte.
  { intros p Hp. destruct (Hl0 p (M1 p Hp)) as [Hpm Hpr]. pose proof Hperm as [Hpr' Hpb]. destruct (map_pte_page p perm Hpm Hpr Hpr') as (-> & -> & ->).
    split_and!; [done|by apply user_perm_flags|done]. }
  assert (forall i p, ps !! i = Some p -> 0 <= va + Z.of_nat i * 4096 < MAXVA /\ translate (ram s') root (va + Z.of_nat i * 4096) = Some (map_pte p perm)) as Hi.
  { intros i p Hip. pose proof (lookup_lt_Some _ _ _ Hip). split; [lia|]. apply (M2 i p); [done|lia]. }
  assert (PTE2PA <$> ((fun p => map_pte p perm) <$> ps) = ps) as Hmap.
  { rewrite <- list_fmap_compose. rewrite <- (list_fmap_id ps) at 2. apply list_fmap_ext. intros i p Hip. destruct (Hpte p) as [Hpa _]; [by apply list_elem_of_lookup_2 in Hip|exact Hpa]. }
  destruct (uvmunmap_loop_correct ((fun p => map_pte p perm) <$> ps) va s' root T l true) as (s2 & Hrun & Hv2 & Htr).
  - done.
  - done.
  - done.
  - by destruct ps.
  - by rewrite length_fmap.
  - intros i e He. rewrite list_lookup_fmap in He. destruct (ps !! i) as [p|] eqn:Hip; [|done]. injection He as <-.
    split; [by apply Hi|]. destruct (Hpte p) as (_ & Hfl & _); [by apply list_elem_of_lookup_2 in Hip|exact Hfl].
  - intros _. unfold freeable. rewrite Hmap. split.
    + apply NoDup_alt. intros i j p Hip Hjp. destruct (Hi i p Hip) as [Hir Hie]. destruct (Hi j p Hjp) as [Hjr Hje].
      destruct (Hpte p) as (_ & _ & Hb); [by apply list_elem_of_lookup_2 in Hip|].
      pose proof (U3 _ _ _ _ Hir Hjr Hie Hje Hb Hb eq_refl). zlia.
    + intros e (p & -> & [i Hip]%list_elem_of_lookup_1)%list_elem_of_fmap. destruct (Hi i p Hip) as [Hir Hie].
      destruct (Hpte p) as (_ & _ & Hb); [by apply list_elem_of_lookup_2 in Hip|]. by apply (U2 _ _ Hir Hie).
  - rewrite length_fmap in *. rewrite Hmap in Hv2. destruct (uvmunmap_bounds _ _ _ _ _ s' tt s2 Hrun) as [Hst Hen].
    exists s2. split; [|].
    { unfold uvmunmap, PGSIZE. rewrite Hal, Z.mod_mul by lia. cbn [Z.eqb negb orb]. rewrite u64_small, PGROUNDDOWN_eq by lia.
      replace (va + Z.of_nat (length ps) * 4096 - 1 - _) with (va + (Z.of_nat (length ps) - 1) * 4096) by zlia. done. }
    assert (forall va', 0 <= va' < MAXVA -> translate (ram s2) root va' = translate (ram s) root va') as Hsame.
    { intros va' Hva'. rewrite Htr by done. case_decide as Hr; [by rewrite Hnone|]. by apply M3. }
    split; [|by split]. split; [done| |].
    + intros va' e Hva' He Hb. rewrite Htr in He by done. case_decide as Hr; [done|].
      destruct (U2 va' e Hva' He Hb) as (Hpok & Hnl & HT). split_and!; [by eapply page_ok_ext| |done].
      intros [Hin|]%elem_of_app; [|done]. rewrite <- Permutation_rev in Hin. pose proof Hin as [i Hip]%list_elem_of_lookup_1.
      destruct (Hi i _ Hip) as [Hir Hie]. destruct (Hpte _ Hin) as (Hpa & _ & Hpb).
      pose proof (U3 _ _ _ _ Hva' Hir He Hie Hb Hpb ltac:(by rewrite Hpa)). pose proof (lookup_lt_Some _ _ _ Hip). apply Hr. zlia.
    + intros a a' e e' Ha Ha' He He' Hb Hb'. rewrite Htr in He, He' by done. repeat case_decide; try done. by apply (U3 _ _ _ _ Ha Ha').
Qed.

Lemma npages_exact n : npages (Z.of_nat n * 4096) = n.
Proof. unfold npages, PGSIZE. zlia. Qed.

(** What a failed [__mmap] leaves: tables, and at most one page that nobody has. *)
Record undone (s s' : machine) (T T' : gmap Z (nat * Z)) (l l' : list Z) : Prop := {
  un_bounds : same_bounds s s';
  un_sub : T ⊆ T';
  un_free : forall p, p ∈ l' -> p ∈ l;
  un_new : forall t, is_Some (T' !! t) -> is_Some (T !! t) \/ t ∈ l;
  un_lost : exists X, (length X <= 1)%nat /\ forall q, q ∈ l -> q ∈ l' \/ is_Some (T' !! q) \/ q ∈ X
}.

Lemma undone_run s s' s2 T T' l l' ps X root va perm :
  grown s s' T T' l l' -> mapped_run s s' root va perm ps l -> same_bounds s' s2 -> (length X <= 1)%nat ->
  (forall q, q ∈ l -> q ∈ l' \/ is_Some (T' !! q) \/ q ∈ ps \/ q ∈ X) -> undone s s2 T T' l (rev ps ++ l').
Proof.
  intros [G1 G2 G3 G4 G5 _] [M1 _ _] [B1 B2] HX Hus. split; [split; congruence|done| | |].
  - intros p. rewrite elem_of_app, <- Permutation_rev. intros [Hp|Hp]; [by apply M1|by apply G2].
  - intros t Ht. destruct (G3 t Ht) as [|[? _]]; tauto.
  - exists X. split; [done|]. intros q Hq. rewrite elem_of_app, <- Permutation_rev. destruct (Hus q Hq) as [|[|[|]]]; tauto.
Qed.

Lemma mmap_spec u T l va n flags perm :
  uok (um u) (pagetable u) T l -> va mod 4096 = 0 -> 0 <= va -> va + Z.of_nat n * 4096 <= MAXVA -> user_perm perm ->
  (forall va', va <= va' < va + Z.of_nat n * 4096 -> translate (ram (um u)) (pagetable u) va' = None) ->
  exists r s' infos T' l', mmap va (Z.of_nat n * 4096) flags perm u = Ret r (set_infos infos (set_um s' u)) /\
    uok s' (pagetable u) T' l' /\
    ((r = 0 /\ infos = mmap_infos u ++ [MmapInfo va (Z.of_nat n * 4096) (Z.land flags (Z.lnot MAP_SHARED)) perm] /\
      grown (um u) s' T T' l l' /\ (length l <= length l' + 3 * n)%nat /\ exists ps, length ps = n /\ mapped_run (um u) s' (pagetable u) va perm ps l /\
        forall q, q ∈ l -> q ∈ l' \/ is_Some (T' !! q) \/ q ∈ ps) \/
     (r = -1 /\ infos = mmap_infos u /\ (length l <= 3 * n)%nat /\ undone (um u) s' T T' l l' /\
      forall va', 0 <= va' < MAXVA -> translate (ram s') (pagetable u) va' = translate (ram (um u)) (pagetable u) va')).
Proof.
  intros Hu Hal Hva Hmax Hperm Hnone. assert (MAXVA = 2 ^ 38) as HM by done.
  destruct (mmap_loop_run n u T l va perm Hu Hal Hva Hmax Hperm Hnone) as (b & ps & s' & T' & l' & Hrun & Hu' & Hg & Hlen & Hm & X & HX & Hus).
  unfold mmap. rewrite u64_small, npages_exact by lia. rewrite (kbind_ret _ _ _ _ _ Hrun). cbv iota beta. destruct b.
  { eexists 0, s', _, T', l'. split; [done|]. split; [done|]. left. destruct Hlen. split_and!; [done|done|done|done|]. exists ps. split_and!; [done|done|].
    intros q Hq. destruct (Hus q Hq) as [|[|[|Hx]]]; [tauto..|]. destruct X; [by apply elem_of_nil in Hx|cbn in HX; lia]. }
  destruct Hlen as [Hlen Hll]. destruct (decide (ps = [])) as [->|Hne].
  { rewrite Z.mul_0_l, Z.add_0_r, Z.eqb_refl. exists (-1), s', (mmap_infos u), T', l'. split_and!; [by destruct u|done|]. right. split_and!; try done.
    { by apply (undone_run (um u) s' s' T T' l l' [] X (pagetable u) va perm). }
    intros va' Hva'. apply (mr_out _ _ _ _ _ _ _ Hm va' Hva'). cbn. lia. }
  assert (0 < Z.of_nat (length ps)) as Hpos by (destruct ps; [done|cbn [length]; lia]).
  rewrite (proj2 (Z.eqb_neq _ _)) by lia. cbn [negb]. replace (va + Z.of_nat (length ps) * 4096 - va) with (Z.of_nat (length ps) * 4096) by lia.
  rewrite npages_exact. destruct (unmap_run (um u) s' (pagetable u) va perm ps l T' l') as (s2 & Hrun2 & Hu2 & Hb2 & Htr); try done; [lia| | |].
  { intros p Hp. destruct (pages_inv_free_pages _ _ p (vm_pages _ _ _ _ (uo_vm _ _ _ _ Hu)) Hp) as [[Hp1 _] Hp2]. done. }
  { intros va' Hva'. apply Hnone. lia. }
  exists (-1), s2, (mmap_infos u), T', (rev ps ++ l'). split_and!; [|done|right; split_and!; try done; by eapply undone_run].
  unfold kbind at 1. unfold kbind at 1, kget. unfold vm. cbn [set_um um pagetable]. rewrite Hrun2. by destruct u.
Qed.

(** [__mmap] of an unmapped, page-aligned range for the user returns.  When it
    returns 0, every page of the range is mapped with the flags that were asked
    for, to a page of its own that was free; all other addresses translate as
    before, no memory changes outside the tables and the pages that were free,
    and the mapping is recorded.  It returns -1 only with at most three free
    pages for each page of the range, and then every address translates as
    before and nothing is recorded.  In both cases the
    address space stays well-formed. *)
Theorem mmap_correct u T l va n flags perm :
  uok (um u) (pagetable u) T l -> va mod 4096 = 0 -> 0 <= va -> va + Z.of_nat n * 4096 <= MAXVA -> user_perm perm ->
  (forall va', va <= va' < va + Z.of_nat n * 4096 -> translate (ram (um u)) (pagetable u) va' = None) ->
  exists r u' T' l', mmap va (Z.of_nat n * 4096) flags perm u = Ret r u' /\ uok (um u') (pagetable u') T' l' /\ pagetable u' = pagetable u /\
    (forall va', 0 <= va' < MAXVA -> ~ va <= va' < va + Z.of_nat n * 4096 ->
      translate (ram (um u')) (pagetable u) va' = translate (ram (um u)) (pagetable u) va') /\
    ((r = 0 /\ mmap_infos u' = mmap_infos u ++ [MmapInfo va (Z.of_nat n * 4096) (Z.land flags (Z.lnot MAP_SHARED)) perm] /\
      (forall va', va <= va' < va + Z.of_nat n * 4096 -> exists p, p ∈ l /\ p ∉ l' /\
        translate (ram (um u')) (pagetable u) va' = Some (map_pte p perm)) /\
      (forall a, outside_tables T' a -> (forall p, p ∈ l -> ~ p <= a < p + 4096) -> rd8 (ram (um u')) a = rd8 (ram (um u)) a)) \/
     (r = -1 /\ mmap_infos u' = mmap_infos u /\ (length l <= 3 * n)%nat /\
      forall va', va <= va' < va + Z.of_nat n * 4096 -> translate (ram (um u')) (pagetable u) va' = None)).
Proof.
  intros Hu Hal Hva Hmax Hperm Hnone. destruct (mmap_spec u T l va n flags perm Hu Hal Hva Hmax Hperm Hnone) as
    (r & s' & infos & T' & l' & Hrun & Hu' & Hres). exists r, (set_infos infos (set_um s' u)), T', l'.
  split_and!; [done|done|done| |]; cbn [set_infos set_um um mmap_infos].
  - intros va' Hva' Hn. destruct Hres as [(_ & _ & _ & _ & ps & Hlen & Hm & _)|(_ & _ & _ & _ & Htr)]; [|by apply Htr].
    apply (mr_out _ _ _ _ _ _ _ Hm); [done|by rewrite Hlen].
  - destruct Hres as [(-> & -> & Hg & _ & ps & Hlen & Hm & _)|(-> & -> & Hl & _ & Htr)].
    + left. split_and!; try done; [|apply (gr_other _ _ _ _ _ _ Hg)]. intros va' Hva'.
      destruct (lookup_lt_is_Some_2 ps (Z.to_nat ((va' - va) / 4096))) as [p Hp]; [zlia|]. exists p.
      assert (p ∈ l) as Hpl by (apply (mr_pages _ _ _ _ _ _ _ Hm); by apply list_elem_of_lookup_2 in Hp).
      assert (translate (ram s') (pagetable u) va' = Some (map_pte p perm)) as Htr by (apply (mr_in _ _ _ _ _ _ _ Hm _ _ _ Hp); zlia).
      split_and!; [done| |done]. destruct (pages_inv_free_pages _ _ p (vm_pages _ _ _ _ (uo_vm _ _ _ _ Hu)) Hpl) as [[Hp1 _] Hp2].
      pose proof Hperm as [Hp3 Hp4]. destruct (map_pte_page p perm Hp1 Hp2 Hp3) as (Hpa & _ & Hb). rewrite <- Hpa.
      apply (uo_page _ _ _ _ Hu' va' _ ltac:(lia) Htr). by rewrite Hb.
    + right. split_and!; try done. intros va' Hva'. rewrite Htr by lia. by apply Hnone.
Qed.

(** ** A small machine: an empty table at 0x1000 and eight free pages *)

Definition blank_free : list Z := [0x2000; 0x3000; 0x4000; 0x5000; 0x6000; 0x7000; 0x8000; 0x9000].
Definition blank_ram : memory := foldr (fun p m => store64 m p (if p =? 0x9000 then 0 else p + 0x1000)) ∅ blank_free.
Definition blank (image : list Z) : machine := Machine (wr_bytes blank_ram 0xb000 image) (PageAllocator 0x2000 8 0x1000 0xb000).
Definition blank_tables : gmap Z (nat * Z) := {[ 0x1000 := (2%nat, 0) ]}.
Definition blank_space (image : list Z) : uspace := USpace (blank image) 0x1000 0xa000 USER_STACK_BOTTOM [] 0 0.

Lemma blank_rd8 image a : a < 0xb000 -> rd8 (ram (blank image)) a = rd8 blank_ram a.
Proof. intros Ha. cbn [blank ram]. apply wr_bytes_other. lia. Qed.

Lemma blank_entry image i : 0 <= i < 512 -> load64 (ram (blank image)) (0x1000 + 8 * i) = 0.
Proof.
  intros Hi. rewrite (load_agree 8 blank_ram) by (intros b Hb; apply blank_rd8; lia).
  assert (forallb (fun i => load64 blank_ram (0x1000 + 8 * i) =? 0) (seqZ 0 512) = true) as Hall by by vm_compute.
  rewrite forallb_forall in Hall. apply Z.eqb_eq, Hall, list_elem_of_In, elem_of_seqZ. lia.
Qed.

Lemma blank_translate image va : translate (ram (blank image)) 0x1000 va = None.
Proof.
  unfold translate, leaf_pte. cbn [leaf_slot]. rewrite blank_entry by (apply PX_range; lia). done.
Qed.

Lemma blank_uok image : uok (blank image) 0x1000 blank_tables blank_free.
Proof.
  split; [|by intros va e _; rewrite blank_translate|by intros va va' e e' _ _; rewrite blank_translate].
  unfold blank_tables. split.
  - split.
    + intros t lv pre [<- [= <- <-]]%lookup_singleton_Some. by vm_compute.
    + intros t lv pre i [<- [= <- <-]]%lookup_singleton_Some Hi. by rewrite blank_entry.
    + intros t lv pre i [<- [= <- <-]]%lookup_singleton_Some Hi. by rewrite blank_entry.
    + intros t lv pre [<- [= <- <-]]%lookup_singleton_Some Hi. lia.
  - assert (forall p, p ∈ blank_free -> p mod 4096 = 0 /\ 0x2000 <= p < 0xa000) as Hp.
    { assert (forallb (fun p => (p mod 4096 =? 0) && (0x2000 <=? p) && (p <? 0xa000)) blank_free = true) as Hall by by vm_compute.
      rewrite forallb_forall in Hall. intros p Hin%list_elem_of_In%Hall. lia. }
    split; [by vm_compute| | | |done].
    + apply (free_list_agree blank_ram); [|by vm_compute]. intros x Hx. apply load_agree. intros b Hb. apply blank_rd8. apply Hp in Hx. lia.
    + by apply (bool_decide_unpack _); vm_compute.
    + apply Forall_forall. intros p [Hm Hr]%Hp. unfold page_ok, PGSIZE. cbn [blank pages pa_start pa_end]. lia.
  - intros p Hp. apply lookup_singleton_None. intros <-. vm_compute in Hp. repeat (apply elem_of_cons in Hp as [Hp|Hp]; [done|]). by apply elem_of_nil in Hp.
  - by apply lookup_singleton_Some.
  - intros t lv pre [<- _]%lookup_singleton_Some. by left.
Qed.

Lemma mmap_correct_witness :
  exists r u', mmap 0x1000 (Z.of_nat 2 * 4096) MAP_USER (Z.lor (Z.lor PTE_U PTE_R) PTE_W) (blank_space []) = Ret r u' /\ pagetable u' = 0x1000.
Proof.
  destruct (mmap_correct (blank_space []) blank_tables blank_free 0x1000 2 MAP_USER (Z.lor (Z.lor PTE_U PTE_R) PTE_W))
    as (r & u' & T' & l' & Hrun & _ & Hpt & _).
  - apply blank_uok.
  - done.
  - done.
  - by vm_compute.
  - by split; vm_compute.
  - intros va' _. apply blank_translate.
  - exists r, u'. split; [exact Hrun|exact Hpt].
Defined.

(** The page that [uvmmap] could not map is lost.  Here two pages are free: the
    first is to be mapped, the second becomes a table, and there is none for
    the second table; [__mmap] fails and no page is free any more. *)
Lemma mmap_leaks_page :
  let s := Machine (store64 (store64 ∅ 0x2000 0x3000) 0x3000 0) (PageAllocator 0x2000 2 0x1000 0xb000) in
  match mmap 0x1000 4096 MAP_USER (Z.lor PTE_U PTE_R) (USpace s 0x1000 0xa000 USER_STACK_BOTTOM [] 0 0) with
  | Ret r u' => (r =? -1) && (get_free_page_count (um u') =? 0) && bool_decide (translate (ram (um u')) 0x1000 0x1000 = None)
  | _ => false
  end = true.
Proof. vm_compute. reflexivity. Qed.

(** The error path of [__init_pagetable] loses the stack.  Here five pages are
    free: the root, the trap frame, the stack and the two tables for the
    addresses at the top take them all, the stack cannot be mapped, and four
    pages are free afterwards. *)
Lemma init_leaks_stack :
  let free := [0x2000; 0x3000; 0x4000; 0x5000; 0x6000] in
  let s := Machine (foldr (fun p m => store64 m p (if p =? 0x6000 then 0 else p + 0x1000)) ∅ free) (PageAllocator 0x2000 5 0x1000 0xb000) in
  match __init_pagetable 0x80201000 (USpace s 0 0 0 [] 0 0) with
  | Ret r u' => (r =? - ENOMEM) && (get_free_page_count (um u') =? 4) && (pagetable u' =? 0)
  | _ => false
  end = true.
Proof. vm_compute. reflexivity. Qed.
