(* ===== verification/Elf.v ===== *)
(** * The ELF loader (src/os/proc/elf.cc)

    [__load_elf] checks the header of a binary that lies in kernel memory, maps
    pages for each loadable segment, copies the bytes of the file to them,
    clears the rest and sets the entry point.  It calls [__mmap] of [UserSpace]
    and the user copies of [Vmem].

    The theorems say that a well-formed binary is loaded byte for byte, and what
    the loader does with two kinds of binaries that are not. *)
From S2P Require Import Prelude Memory CString Riscv PageAlloc Vmem PageTable UserCopy UserSpace.

(** ** Definitions *)

Definition ELF_MAGIC : Z := 0x464c457f.
Definition BIT64 : Z := 2.
Definition LITTLE : Z := 1.
Definition EI_CURRENT : Z := 1.
Definition SYSTEM_V : Z := 0.
Definition ABI_CURRENT : Z := 0.
Definition ET_EXEC : Z := 2.
Definition RISCV : Z := 0xf3.
Definition E_CURRENT : Z := 1.
Definition PT_LOAD : Z := 1.
Definition PF_X : Z := 1.
Definition PF_W : Z := 2.
Definition PF_R : Z := 4.

Definition sizeof_elf64_header : Z := 64.
Definition sizeof_elf64_program_header : Z := 56.
Definition sizeof_elf64_section_header : Z := 64.

Record elf64_header := ElfHeader {
  ei_magic : Z; ei_class : Z; ei_data : Z; ei_version : Z; ei_osabi : Z; ei_abiversion : Z;
  e_type : Z; e_machine : Z; e_version : Z; e_entry : Z; e_phoff : Z; e_phentsize : Z; e_phnum : Z; e_shentsize : Z
}.

Record elf64_program_header := ProgramHeader {
  p_type : Z; p_flags : Z; p_offset : Z; p_vaddr : Z; p_paddr : Z; p_filesz : Z; p_memsz : Z; p_align : Z
}.

(** The structs at an address of kernel memory. *)
Definition header_at (m : memory) (a : Z) : elf64_header :=
  ElfHeader (load 4 m a) (load 1 m (a + 4)) (load 1 m (a + 5)) (load 1 m (a + 6)) (load 1 m (a + 7)) (load 1 m (a + 8))
    (load 2 m (a + 16)) (load 2 m (a + 18)) (load 4 m (a + 20)) (load64 m (a + 24)) (load64 m (a + 32))
    (load 2 m (a + 54)) (load 2 m (a + 56)) (load 2 m (a + 58)).

Definition program_header_at (m : memory) (a : Z) : elf64_program_header :=
  ProgramHeader (load 4 m a) (load 4 m (a + 4)) (load64 m (a + 8)) (load64 m (a + 16)) (load64 m (a + 24))
    (load64 m (a + 32)) (load64 m (a + 40)) (load64 m (a + 48)).

(** The tests in front of the loop. *)
Definition header_ok (h : elf64_header) (size : Z) : bool :=
  (ei_magic h =? ELF_MAGIC) && (ei_class h =? BIT64) && (ei_data h =? LITTLE) && (ei_version h =? EI_CURRENT) &&
  (ei_osabi h =? SYSTEM_V) && (ei_abiversion h =? ABI_CURRENT) && (e_type h =? ET_EXEC) && (e_machine h =? RISCV) &&
  (e_version h =? E_CURRENT) && (e_phentsize h =? sizeof_elf64_program_header) && (e_shentsize h =? sizeof_elf64_section_header) &&
  negb ((e_phoff h =? 0) || (e_phnum h =? 0)) &&
  negb (size <? u64 (e_phoff h + e_phnum h * sizeof_elf64_program_header)).

Definition pte_flags_of (flags : Z) : Z :=
  let f := if negb (Z.land flags PF_R =? 0) then PTE_R else 0 in
  let f := if negb (Z.land flags PF_W =? 0) then Z.lor f PTE_W else f in
  let f := if negb (Z.land flags PF_X =? 0) then Z.lor f PTE_X else f in
  Z.lor f PTE_U.

(** Rounds that a copy of [len] bytes needs. *)
Definition copy_fuel (len : Z) : nat := (Z.to_nat (len / PGSIZE) + 3)%nat.

(** The body of the loop for a segment that is to be loaded. *)
Definition load_segment (start size : Z) (ph : elf64_program_header) : K uspace bool :=
  if size <? u64 (p_offset ph + p_filesz ph) then kret false
  else
    let start_addr := p_vaddr ph in
    let start_addr_aligned := PGROUNDDOWN start_addr in
    let end_addr_aligned := PGROUNDUP (u64 (p_vaddr ph + p_memsz ph)) in
    let end_addr_file := u64 (p_vaddr ph + p_filesz ph) in
    let mem_size := u64 (end_addr_aligned - start_addr_aligned) in
    if USER_STACK_TOP <=? end_addr_aligned then kret false
    else if start_addr_aligned <? USER_TEXT_START then kret false
    else
      kmodify (fun u => set_bounds (if start_addr_aligned <? min_va u then start_addr_aligned else min_va u)
        (if max_va u <? end_addr_aligned then end_addr_aligned else max_va u) u) ;;;
      ret <- mmap start_addr_aligned mem_size MAP_USER (pte_flags_of (p_flags ph)) ;;
      if ret <? 0 then kret false
      else
        u <- kget ;;
        ret <- vm (copyout (copy_fuel (p_filesz ph)) (pagetable u) start_addr (u64 (start + p_offset ph)) (p_filesz ph)) ;;
        if ret <? 0 then kret false
        else
          ret <- (if start_addr_aligned <? start_addr
                  then vm (memset_user (copy_fuel (start_addr - start_addr_aligned)) (pagetable u) start_addr_aligned 0
                         (start_addr - start_addr_aligned))
                  else kret 0) ;;
          if ret <? 0 then kret false
          else
            ret <- (if end_addr_file <? end_addr_aligned
                    then vm (memset_user (copy_fuel (end_addr_aligned - end_addr_file)) (pagetable u) end_addr_file 0
                           (end_addr_aligned - end_addr_file))
                    else kret 0) ;;
            kret (negb (ret <? 0)).

(** The loop over the program headers from number [i] on; [e_phnum] has 16 bits
    and is read in every round. *)
Fixpoint load_segments (fuel : nat) (start size ph i : Z) : K uspace bool :=
  match fuel with
  | O => kfuel
  | S fuel' =>
      u <- kget ;;
      if i <? e_phnum (header_at (ram (um u)) start) then
        let phi := program_header_at (ram (um u)) (ph + i * sizeof_elf64_program_header) in
        ok <- (if p_type phi =? PT_LOAD then load_segment start size phi else kret true) ;;
        if ok : bool then load_segments fuel' start size ph (i + 1) else kret false
      else kret true
  end.

Definition __load_elf (start size : Z) : K uspace Z :=
  if size <? sizeof_elf64_header then kret (-1)
  else
    u <- kget ;;
    let h := header_at (ram (um u)) start in
    if negb (header_ok h size) then kret (-1)
    else
      ok <- load_segments (S (Z.to_nat (e_phnum h))) start size (u64 (start + e_phoff h)) 0 ;;
      if negb ok then kret (-1)
      else
        u <- kget ;;
        let h := header_at (ram (um u)) start in
        vm (kmodify (set_ram (fun m => store64 m (trapframe_pa u + TRAPFRAME_EPC) (e_entry h)))) ;;;
        kret 0.

(** ** Memory of the user *)

Lemma uok_range s root T l va len :
  uok s root T l -> 0 <= va -> va + len <= MAXVA ->
  (forall k, 0 <= k < len -> exists e, translate (ram s) root (va + k) = Some e /\ Z.testbit e 4 = true) -> user_range s root T l va len.
Proof.
  intros [U1 U2 U3] Hva Hmax Hmap.
  assert (forall k, 0 <= k < len -> exists e, translate (ram s) root (va + k) = Some e /\ Z.testbit e 4 = true /\
    user_page (ram s) root (va + k) = Some (PTE2PA e) /\ user_pa (ram s) root (va + k) = PTE2PA e + (va + k) mod 4096) as Hpg.
  { intros k Hk. destruct (Hmap k Hk) as (e & He & Hb). exists e. unfold user_pa, user_page.
    rewrite (proj2 (Z.leb_gt _ _)), He by lia. cbn [mbind option_bind]. by rewrite Hb. }
  destruct U1 as [V1 V2 V3 V4 V5]. destruct (pi_bounds _ _ V2) as [Hb1 Hb2]. split.
  - lia.
  - intros k Hk. destruct (Hpg k Hk) as (e & He & Hb & Hp & _). exists (PTE2PA e). split; [done|].
    destruct (U2 (va + k) e ltac:(lia) He Hb) as ([_ Hr] & _ & _). lia.
  - intros k Hk t [[lv pre] Ht]. destruct (Hpg k Hk) as (e & He & Hb & _ & ->).
    destruct (U2 (va + k) e ltac:(lia) He Hb) as ([Hal _] & _ & HT). pose proof (pt_page _ _ V1 _ _ _ Ht) as [Htal _].
    assert (t <> PTE2PA e) by congruence. unfold PGSIZE in Hal. zlia.
  - intros k p Hk Hp. destruct (Hpg k Hk) as (e & He & Hb & _ & ->).
    destruct (U2 (va + k) e ltac:(lia) He Hb) as ([Hal _] & Hl & _). destruct (pages_inv_free_pages _ _ p V2 Hp) as [[Hpal _] _].
    assert (p <> PTE2PA e) by congruence. unfold PGSIZE in *. zlia.
  - intros j k Hj Hk. destruct (Hpg j Hj) as (e & He & Hb & _ & ->). destruct (Hpg k Hk) as (e' & He' & Hb' & _ & ->). intros Heq.
    destruct (U2 (va + j) e ltac:(lia) He Hb) as ([Hal _] & _). destruct (U2 (va + k) e' ltac:(lia) He' Hb') as ([Hal' _] & _).
    unfold PGSIZE in *. assert (PTE2PA e = PTE2PA e') as Hee by zlia.
    pose proof (U3 (va + j) (va + k) _ _ ltac:(lia) ltac:(lia) He He' Hb Hb' Hee). zlia.
Qed.

(** [copyout] does not touch the allocator. *)
Definition same_pages (s s' : machine) : Prop := pages s' = pages s.

#[export] Instance same_pages_refl : Reflexive same_pages.
Proof. done. Qed.
#[export] Instance same_pages_trans : Transitive same_pages.
Proof. intros s1 s2 s3 H1 H2. unfold same_pages in *. congruence. Qed.

Lemma walkaddr_same pt va : krel same_pages (walkaddr pt va).
Proof.
  intros s a s'. unfold walkaddr. destruct (MAXVA <=? va) eqn:E; [by intros [= <- <-]|]. apply Z.leb_gt in E.
  rewrite (kbind_ret _ _ _ _ _ (walk_noalloc pt va s E)). case_match; [by intros [= <- <-]|]. unfold kbind, kget.
  repeat case_match; by intros [= <- <-].
Qed.

Lemma copyout_same fuel pt va src len : krel same_pages (copyout fuel pt va src len).
Proof.
  revert va src len. induction fuel as [|fuel IH]; intros va src len; cbn [copyout]; [by apply krel_none|].
  case_match; [|apply krel_ret, _]. apply krel_bind; [apply _|apply walkaddr_same|]. intros pa0. case_match; [apply krel_ret, _|].
  apply krel_bind; [apply _|by intros s a s' [= <- <-]|]. intros _. apply IH.
Qed.

Lemma copy_fuel_enough va len : 0 <= va -> 0 <= len -> pages_touched va len < Z.of_nat (copy_fuel len).
Proof. intros Hva Hlen. unfold pages_touched, copy_fuel, PGSIZE. case_match; zlia. Qed.

(** What is at a user address, and the addresses that the user reaches. *)
Definition user_byte (m : memory) (root va : Z) : Z := rd8 m (user_pa m root va).
Definition user_va (m : memory) (root va : Z) : Prop :=
  0 <= va < MAXVA /\ exists e, translate m root va = Some e /\ Z.testbit e 4 = true.

(** [f] was written to the [len] bytes of the user at [va]. *)
Record data_step (s s' : machine) (root : Z) (T : gmap Z (nat * Z)) (l : list Z) (va len : Z) (f : Z -> Z) : Prop := {
  ds_ok : uok s' root T l;
  ds_pages : pages s' = pages s;
  ds_tr : forall va', 0 <= va' < MAXVA -> translate (ram s') root va' = translate (ram s) root va';
  ds_pa : forall va', 0 <= va' -> user_pa (ram s') root va' = user_pa (ram s) root va';
  ds_in : forall va', va <= va' < va + len -> user_byte (ram s') root va' = f va';
  ds_out : forall a, (forall va', va <= va' < va + len -> a <> user_pa (ram s) root va') -> rd8 (ram s') a = rd8 (ram s) a
}.

Lemma data_step_intro s s' root T l va len f :
  uok s root T l -> vm_ok s' root T l -> tables_agree T (ram s) (ram s') -> pages s' = pages s -> 0 <= va ->
  (forall k, 0 <= k < len -> rd8 (ram s') (user_pa (ram s) root (va + k)) = f (va + k)) ->
  (forall a, (forall k, 0 <= k < len -> a <> user_pa (ram s) root (va + k)) -> rd8 (ram s') a = rd8 (ram s) a) ->
  data_step s s' root T l va len f.
Proof.
  intros Hu Hv Hag Hpg Hva Hin Hout. destruct (uok_data s s' root T l Hu Hv Hag Hpg) as [Hu' Htr].
  assert (forall va', 0 <= va' -> user_pa (ram s') root va' = user_pa (ram s) root va') as Hpa.
  { intros va' Hva'. by apply (user_pa_agree s root T l); [apply Hu|done|]. }
  split; try done.
  - intros va' Hva'. unfold user_byte. rewrite Hpa by lia. replace va' with (va + (va' - va)) by lia. apply Hin. lia.
  - intros a Ha. apply Hout. intros k Hk. apply Ha. lia.
Qed.

Lemma data_step_refl s root T l va f : uok s root T l -> data_step s s root T l va 0 f.
Proof. intros Hu. split; try done. intros va' Hva'. lia. Qed.

Lemma copyout_step s root T l va src len :
  uok s root T l -> user_range s root T l va len -> 0 <= len ->
  (forall k, 0 <= k < len -> ~ src <= user_pa (ram s) root (va + k) < src + len) ->
  exists s', copyout (copy_fuel len) root va src len s = Ret 0 s' /\ data_step s s' root T l va len (fun va' => rd8 (ram s) (src + (va' - va))).
Proof.
  intros Hu Hr Hlen Hsrc. pose proof (ur_bounds _ _ _ _ _ _ Hr) as [Hva _].
  destruct (copyout_loop_correct (copy_fuel len) s root T l va src len) as (s' & Hrun & Hv & Hag & Hin & Hout);
    [apply Hu|done|done|done|by apply copy_fuel_enough|].
  pose proof (copyout_same _ _ _ _ _ s 0 s' Hrun) as Hpg. exists s'. split; [done|]. apply data_step_intro; try done.
  intros k Hk. rewrite Hin by done. f_equal. lia.
Qed.

(** The guarded calls of [memset_user]: they clear the bytes from [lo] to [hi]. *)
Lemma memset_step u s root T l lo hi :
  uok s root T l -> user_range s root T l lo (hi - lo) -> lo <= hi ->
  exists s', (if lo <? hi then vm (memset_user (copy_fuel (hi - lo)) root lo 0 (hi - lo)) else kret 0) (set_um s u) = Ret 0 (set_um s' u) /\
    data_step s s' root T l lo (hi - lo) (fun _ => 0).
Proof.
  intros Hu Hr Hlen. pose proof (ur_bounds _ _ _ _ _ _ Hr) as [Hva _]. destruct (Z.ltb_spec lo hi).
  2: { exists s. split; [done|]. replace (hi - lo) with 0 by lia. by apply data_step_refl. }
  destruct (memset_user_correct (copy_fuel (hi - lo)) s root T l lo 0 (hi - lo)) as (s' & Hrun & Hv & Hag & Hin & Hout & Hpg);
    [apply Hu|done|lia|apply copy_fuel_enough; lia|].
  exists s'. split; [unfold vm; cbn [set_um um]; by rewrite Hrun|]. by apply data_step_intro.
Qed.

(** Different addresses of the user are different bytes of memory. *)
Lemma user_pa_eq m root va e :
  0 <= va < MAXVA -> translate m root va = Some e -> Z.testbit e 4 = true -> user_pa m root va = PTE2PA e + va mod 4096.
Proof.
  intros Hva He Hb. unfold user_pa, user_page. rewrite (proj2 (Z.leb_gt _ _)), He by lia. cbn [mbind option_bind]. by rewrite Hb.
Qed.

Lemma user_pa_inj s root T l va va' :
  uok s root T l -> user_va (ram s) root va -> user_va (ram s) root va' ->
  user_pa (ram s) root va = user_pa (ram s) root va' -> va = va'.
Proof.
  intros [_ U2 U3] [Hr (e & He & Hb)] [Hr' (e' & He' & Hb')]. rewrite (user_pa_eq _ _ _ e), (user_pa_eq _ _ va' e') by done.
  destruct (U2 va e Hr He Hb) as ([Hal _] & _). destruct (U2 va' e' Hr' He' Hb') as ([Hal' _] & _). unfold PGSIZE in *. intros Heq.
  assert (PTE2PA e = PTE2PA e') as Hee by zlia. pose proof (U3 va va' _ _ Hr Hr' He He' Hb Hb' Hee). zlia.
Qed.

Lemma ds_byte s s' root T l va len f va' :
  uok s root T l -> data_step s s' root T l va len f -> (forall a, va <= a < va + len -> user_va (ram s) root a) ->
  user_va (ram s) root va' ->
  user_byte (ram s') root va' = if decide (va <= va' < va + len) then f va' else user_byte (ram s) root va'.
Proof.
  intros Hu [D1 D2 D3 D4 D5 D6] Hr Hva'. case_decide as Hd; [by apply D5|]. unfold user_byte. rewrite D4 by apply Hva'.
  apply D6. intros a Ha Heq. apply Hd. rewrite (user_pa_inj s root T l va' a); auto.
Qed.

(** ** One segment *)

Definition seg_lo (ph : elf64_program_header) : Z := PGROUNDDOWN (p_vaddr ph).
Definition seg_hi (ph : elf64_program_header) : Z := PGROUNDUP (p_vaddr ph + p_memsz ph).
Definition seg_pages (ph : elf64_program_header) : nat := Z.to_nat ((seg_hi ph - seg_lo ph) / 4096).

(** A segment that the loader accepts and that makes sense: its bytes are in the
    file, it is at least as large as they are, and it lies between the first
    page and the stack. *)
Record seg_ok (size : Z) (ph : elf64_program_header) : Prop := {
  so_file : 0 <= p_offset ph /\ p_offset ph + p_filesz ph <= size;
  so_size : 0 <= p_filesz ph <= p_memsz ph;
  so_low : USER_TEXT_START <= p_vaddr ph;
  so_high : p_vaddr ph + p_memsz ph <= USER_STACK_TOP - PGSIZE
}.

(** The byte that belongs at an address of the segment. *)
Definition seg_byte (m : memory) (start : Z) (ph : elf64_program_header) (va : Z) : Z :=
  if decide (p_vaddr ph <= va < p_vaddr ph + p_filesz ph) then rd8 m (start + p_offset ph + (va - p_vaddr ph)) else 0.

(** Memory that is neither a table nor a free page. *)
Definition apart (T : gmap Z (nat * Z)) (l : list Z) (a : Z) : Prop :=
  outside_tables T a /\ forall p, p ∈ l -> ~ p <= a < p + 4096.

Lemma apart_grown s s' T T' l l' a : grown s s' T T' l l' -> apart T l a -> apart T' l' a.
Proof.
  intros [G1 G2 G3 G4 G5 G6] [Ha Hl]. split; [|by intros p ?%G2; apply Hl]. intros t Ht.
  destruct (G3 t Ht) as [|[Hin _]]; [by apply Ha|]. apply Hl in Hin. lia.
Qed.

Lemma apart_same s s' T T' l l' a : grown s s' T T' l l' -> apart T l a -> rd8 (ram s') a = rd8 (ram s) a.
Proof. intros Hg Ha. pose proof (apart_grown _ _ _ _ _ _ _ Hg Ha) as [Ho _]. apply (gr_other _ _ _ _ _ _ Hg); [done|apply Ha]. Qed.

(** What the user reaches is apart. *)
Lemma user_apart s root T l va : uok s root T l -> user_va (ram s) root va -> apart T l (user_pa (ram s) root va).
Proof.
  intros Hu [Hva (e & He & Hb)].
  assert (user_range s root T l va 1) as Hr.
  { apply uok_range; [done|lia|lia|]. intros k Hk. replace (va + k) with va by lia. by exists e. }
  pose proof (ur_tables _ _ _ _ _ _ Hr 0 ltac:(lia)) as Ht. rewrite Z.add_0_r in Ht. split; [done|].
  intros p Hp. pose proof (ur_free _ _ _ _ _ _ Hr 0 p ltac:(lia) Hp) as Hf. rewrite Z.add_0_r in Hf. lia.
Qed.

Lemma user_va_range s root T l va len :
  uok s root T l -> (forall a, va <= a < va + len -> user_va (ram s) root a) -> 0 <= va -> va + len <= MAXVA -> user_range s root T l va len.
Proof. intros Hu Hr H0 Hm. apply uok_range; [done..|]. intros k Hk. apply Hr. lia. Qed.

Lemma seg_geometry size ph :
  seg_ok size ph -> 0 < seg_lo ph /\ seg_lo ph <= p_vaddr ph /\ p_vaddr ph + p_memsz ph <= seg_hi ph /\ seg_hi ph < USER_STACK_TOP /\
    seg_lo ph mod 4096 = 0 /\ USER_TEXT_START <= seg_lo ph /\ seg_hi ph = seg_lo ph + Z.of_nat (seg_pages ph) * 4096 /\
    USER_STACK_TOP = 0x1ffffff000 /\ USER_TEXT_START = 0x1000 /\ MAXVA = 0x4000000000.
Proof.
  intros [S1 S2 S3 S4]. unfold seg_pages, seg_lo, seg_hi. change USER_STACK_TOP with 0x1ffffff000 in *.
  change USER_TEXT_START with 0x1000 in *. change MAXVA with 0x4000000000. unfold PGSIZE in *.
  rewrite PGROUNDDOWN_eq, PGROUNDUP_eq by lia. split_and!; zlia.
Qed.

Lemma pte_flags_user f : user_perm (pte_flags_of f).
Proof. unfold user_perm, pte_flags_of. destruct (Z.land f PF_R =? 0), (Z.land f PF_W =? 0), (Z.land f PF_X =? 0); by vm_compute. Qed.

(** The copy and the two clearings fill the range of a segment. *)
Lemma fill_segment s root T l u size start ph :
  uok s root T l -> seg_ok size ph -> (forall a, seg_lo ph <= a < seg_hi ph -> user_va (ram s) root a) ->
  (forall a va, start + p_offset ph <= a < start + p_offset ph + p_filesz ph -> seg_lo ph <= va < seg_hi ph -> a <> user_pa (ram s) root va) ->
  exists s2 s3 s4,
    copyout (copy_fuel (p_filesz ph)) root (p_vaddr ph) (start + p_offset ph) (p_filesz ph) s = Ret 0 s2 /\
    (if seg_lo ph <? p_vaddr ph then vm (memset_user (copy_fuel (p_vaddr ph - seg_lo ph)) root (seg_lo ph) 0 (p_vaddr ph - seg_lo ph))
     else kret 0) (set_um s2 u) = Ret 0 (set_um s3 u) /\
    (if p_vaddr ph + p_filesz ph <? seg_hi ph
     then vm (memset_user (copy_fuel (seg_hi ph - (p_vaddr ph + p_filesz ph))) root (p_vaddr ph + p_filesz ph) 0 (seg_hi ph - (p_vaddr ph + p_filesz ph)))
     else kret 0) (set_um s3 u) = Ret 0 (set_um s4 u) /\
    data_step s s4 root T l (seg_lo ph) (seg_hi ph - seg_lo ph) (seg_byte (ram s) start ph).
Proof.
  intros Hu Hok Hrange Hsrc. pose proof (seg_geometry _ _ Hok) as (G1 & G2 & G3 & G4 & G5 & G6 & G7 & G8 & G9 & G10).
  destruct Hok as [S1 S2 S3 S4].
  destruct (copyout_step s root T l (p_vaddr ph) (start + p_offset ph) (p_filesz ph)) as (s2 & R2 & D2); [done| |lia| |].
  { apply user_va_range; [done| |lia|lia]. intros a Ha. apply Hrange. lia. }
  { intros k Hk Hin. eapply (Hsrc _ (p_vaddr ph + k)); [exact Hin|lia|done]. }
  assert (forall s', (forall va, 0 <= va < MAXVA -> translate (ram s') root va = translate (ram s) root va) ->
    forall a, seg_lo ph <= a < seg_hi ph -> user_va (ram s') root a) as Hkeep.
  { intros s' Htr a Ha. destruct (Hrange a Ha) as [Hr He]. split; [done|]. by rewrite Htr. }
  pose proof (Hkeep s2 (ds_tr _ _ _ _ _ _ _ _ D2)) as Hr2.
  destruct (memset_step u s2 root T l (seg_lo ph) (p_vaddr ph)) as (s3 & R3 & D3); [apply D2| |lia|].
  { apply user_va_range; [apply D2| |lia|lia]. intros a Ha. apply Hr2. lia. }
  assert (forall va, 0 <= va < MAXVA -> translate (ram s3) root va = translate (ram s) root va) as Htr3.
  { intros va Hva. by rewrite (ds_tr _ _ _ _ _ _ _ _ D3), (ds_tr _ _ _ _ _ _ _ _ D2). }
  pose proof (Hkeep s3 Htr3) as Hr3.
  destruct (memset_step u s3 root T l (p_vaddr ph + p_filesz ph) (seg_hi ph)) as (s4 & R4 & D4); [apply D3| |lia|].
  { apply user_va_range; [apply D3| |lia|lia]. intros a Ha. apply Hr3. lia. }
  exists s2, s3, s4. split; [done|]. split; [done|]. split; [done|]. split.
  - apply D4.
  - by rewrite (ds_pages _ _ _ _ _ _ _ _ D4), (ds_pages _ _ _ _ _ _ _ _ D3), (ds_pages _ _ _ _ _ _ _ _ D2).
  - intros va Hva. by rewrite (ds_tr _ _ _ _ _ _ _ _ D4), Htr3.
  - intros va Hva. by rewrite (ds_pa _ _ _ _ _ _ _ _ D4), (ds_pa _ _ _ _ _ _ _ _ D3), (ds_pa _ _ _ _ _ _ _ _ D2).
  - intros va Hva. rewrite (ds_byte _ _ _ _ _ _ _ _ va (ds_ok _ _ _ _ _ _ _ _ D3) D4) by (intros; apply Hr3; lia).
    rewrite (ds_byte _ _ _ _ _ _ _ _ va (ds_ok _ _ _ _ _ _ _ _ D2) D3) by (intros; apply Hr2; lia).
    rewrite (ds_byte _ _ _ _ _ _ _ _ va Hu D2) by (intros; apply Hrange; lia). unfold seg_byte. repeat case_decide; done || lia.
  - intros a Ha. rewrite (ds_out _ _ _ _ _ _ _ _ D4), (ds_out _ _ _ _ _ _ _ _ D3), (ds_out _ _ _ _ _ _ _ _ D2); [done|..].
    + intros va Hva. apply Ha. lia.
    + intros va Hva. rewrite (ds_pa _ _ _ _ _ _ _ _ D2) by lia. apply Ha. lia.
    + intros va Hva. rewrite (ds_pa _ _ _ _ _ _ _ _ D3), (ds_pa _ _ _ _ _ _ _ _ D2) by lia. apply Ha. lia.
Qed.

(** The state of the loader after a segment. *)
Record loaded (start : Z) (ph : elf64_program_header) (u u' : uspace) (T T' : gmap Z (nat * Z)) (l l' : list Z) : Prop := {
  ld_pt : pagetable u' = pagetable u;
  ld_tf : trapframe_pa u' = trapframe_pa u;
  ld_ok : uok (um u') (pagetable u) T' l';
  ld_grown : grown (um u) (um u') T T' l l';
  ld_count : (length l <= length l' + 3 * seg_pages ph)%nat;
  ld_other : forall va, 0 <= va < MAXVA -> ~ seg_lo ph <= va < seg_hi ph ->
    translate (ram (um u')) (pagetable u) va = translate (ram (um u)) (pagetable u) va;
  ld_mapped : forall va, seg_lo ph <= va < seg_hi ph -> exists p, p ∈ l /\ 0 < p < 2 ^ 56 /\ p mod 4096 = 0 /\
    translate (ram (um u')) (pagetable u) va = Some (map_pte p (pte_flags_of (p_flags ph)));
  ld_byte : forall va, seg_lo ph <= va < seg_hi ph -> user_byte (ram (um u')) (pagetable u) va = seg_byte (ram (um u)) start ph va
}.

Lemma map_pte_user m root va p f :
  0 <= va < MAXVA -> 0 < p < 2 ^ 56 -> p mod 4096 = 0 -> translate m root va = Some (map_pte p (pte_flags_of f)) ->
  user_va m root va /\ user_pa m root va = p + va mod 4096.
Proof.
  intros Hva Hp Hal Htr. destruct (pte_flags_user f) as [Hf Hb]. destruct (map_pte_page p _ Hal Hp Hf) as (Hpa & _ & Hbit).
  rewrite Hb in Hbit. split; [by split; [|eexists]|]. by rewrite (user_pa_eq _ _ _ _ Hva Htr Hbit), Hpa.
Qed.

Lemma load_segment_spec u T l start size ph :
  uok (um u) (pagetable u) T l -> seg_ok size ph -> 0 <= start -> start + size < 2 ^ 64 ->
  (forall a, start <= a < start + size -> apart T l a) -> (3 * seg_pages ph < length l)%nat ->
  (forall va, seg_lo ph <= va < seg_hi ph -> translate (ram (um u)) (pagetable u) va = None) ->
  exists u' T' l', load_segment start size ph u = Ret true u' /\ loaded start ph u u' T T' l l'.
Proof.
  intros Hu Hok Hst Hsz Himg Hfree Hnone. pose proof (seg_geometry _ _ Hok) as (G1 & G2 & G3 & G4 & G5 & G6 & G7 & G8 & G9 & G10).
  destruct (so_file _ _ Hok), (so_size _ _ Hok). unfold load_segment.
  rewrite (u64_small (p_offset ph + p_filesz ph)), (u64_small (start + p_offset ph)), (u64_small (p_vaddr ph + p_filesz ph)),
    (u64_small (p_vaddr ph + p_memsz ph)) by lia.
  rewrite (proj2 (Z.ltb_ge _ _)) by lia. fold (seg_lo ph) (seg_hi ph). rewrite u64_small by lia.
  rewrite (proj2 (Z.leb_gt _ _)), (proj2 (Z.ltb_ge _ _)) by lia. unfold kbind at 1, kmodify.
  set (u0 := set_bounds _ _ u). destruct (mmap_spec u0 T l (seg_lo ph) (seg_pages ph) MAP_USER (pte_flags_of (p_flags ph)))
    as (r & s1 & infos & T1 & l1 & Hrun & Hu1 & Hres); [done|done|lia|lia|apply pte_flags_user|by rewrite <- G7|].
  replace (Z.of_nat (seg_pages ph) * 4096) with (seg_hi ph - seg_lo ph) in Hrun by lia.
  destruct Hres as [(-> & _ & Hg & Hc & ps & Hlen & Hm & _)|(_ & _ & Hc & _)]; [|lia].
  rewrite (kbind_ret _ _ _ _ _ Hrun). cbn [Z.ltb Z.compare]. unfold kbind at 1, kget. set (u1 := set_infos infos _).
  change (pagetable u1) with (pagetable u). change (pagetable u0) with (pagetable u) in *. change (um u0) with (um u) in *.
  assert (forall va, seg_lo ph <= va < seg_hi ph -> exists p, p ∈ l /\ 0 < p < 2 ^ 56 /\ p mod 4096 = 0 /\
    translate (ram s1) (pagetable u) va = Some (map_pte p (pte_flags_of (p_flags ph)))) as Hmap.
  { intros va Hva. destruct (lookup_lt_is_Some_2 ps (Z.to_nat ((va - seg_lo ph) / 4096))) as [p Hp]; [zlia|]. exists p.
    assert (p ∈ l) as Hpl by (apply (mr_pages _ _ _ _ _ _ _ Hm); by apply list_elem_of_lookup_2 in Hp).
    destruct (pages_inv_free_pages _ _ p (vm_pages _ _ _ _ (uo_vm _ _ _ _ Hu)) Hpl) as [[Hp1 _] Hp2].
    split_and!; [done|lia|lia|done|]. apply (mr_in _ _ _ _ _ _ _ Hm _ _ _ Hp). zlia. }
  assert (forall va, seg_lo ph <= va < seg_hi ph -> exists p, p ∈ l /\ user_va (ram s1) (pagetable u) va /\ p <= user_pa (ram s1) (pagetable u) va < p + 4096) as Hin.
  { intros va Hva. destruct (Hmap va Hva) as (p & Hpl & Hpr & Hpa & Htr). destruct (map_pte_user _ _ va _ _ ltac:(lia) Hpr Hpa Htr) as [Hv ->].
    exists p. split_and!; [done|done|zlia|zlia]. }
  destruct (fill_segment s1 (pagetable u) T1 l1 u1 size start ph) as (s2 & s3 & s4 & R2 & R3 & R4 & D); [done|done| | |].
  { intros a Ha. by destruct (Hin a Ha) as (p & _ & Hv & _). }
  { intros a va Ha Hva ->. destruct (Hin va Hva) as (p & Hpl & _ & Hp). destruct (Himg (user_pa (ram s1) (pagetable u) va)) as [_ Hx]; [lia|]. by apply (Hx p Hpl). }
  rewrite (kbind_ret _ _ _ 0 (set_um s2 u1)) by (unfold vm; cbn [um u1 set_um set_infos]; by rewrite R2). cbn [Z.ltb Z.compare].
  rewrite (kbind_ret _ _ _ _ _ R3). cbn [Z.ltb Z.compare]. rewrite (kbind_ret _ _ _ _ _ R4). cbn [Z.ltb Z.compare negb].
  exists (set_um s4 u1), T1, l1. split; [done|]. split; try done; cbn [um set_um].
  - apply D.
  - destruct Hg as [A1 A2 A3 A4 A5 A6]. pose proof (ds_pages _ _ _ _ _ _ _ _ D) as Hpg. split; try done; [by rewrite Hpg|by rewrite Hpg|].
    intros a Ha Hl. rewrite (ds_out _ _ _ _ _ _ _ _ D); [by apply A6|]. intros va Hva ->. destruct (Hin va ltac:(lia)) as (p & Hpl & _ & Hp). by apply (Hl p Hpl).
  - intros va Hva Hn. rewrite (ds_tr _ _ _ _ _ _ _ _ D) by done. apply (mr_out _ _ _ _ _ _ _ Hm); [done|]. rewrite Hlen. lia.
  - intros va Hva. rewrite (ds_tr _ _ _ _ _ _ _ _ D) by lia. by apply Hmap.
  - intros va Hva. rewrite (ds_in _ _ _ _ _ _ _ _ D) by lia. unfold seg_byte. case_decide; [|done]. apply (apart_same _ _ _ _ _ _ _ Hg), Himg. lia.
Qed.

(** ** All segments *)

(** The program headers of the file that are to be loaded. *)
Fixpoint headers_from (m : memory) (a : Z) (n : nat) : list elf64_program_header :=
  match n with
  | O => []
  | S n' => program_header_at m a :: headers_from m (a + sizeof_elf64_program_header) n'
  end.

Definition segments_from (m : memory) (a : Z) (n : nat) : list elf64_program_header :=
  filter (fun ph => p_type ph = PT_LOAD) (headers_from m a n).

Definition segments (m : memory) (start : Z) : list elf64_program_header :=
  segments_from m (start + e_phoff (header_at m start)) (Z.to_nat (e_phnum (header_at m start))).

Definition seg_disjoint (a b : elf64_program_header) : Prop := seg_hi a <= seg_lo b \/ seg_hi b <= seg_lo a.

Fixpoint total_pages (l : list elf64_program_header) : nat :=
  match l with
  | [] => O
  | ph :: l' => (seg_pages ph + total_pages l')%nat
  end.

(** Nothing is mapped where the segments belong. *)
Definition room_for (u : uspace) (segs : list elf64_program_header) : Prop :=
  forall ph va, ph ∈ segs -> seg_lo ph <= va < seg_hi ph -> translate (ram (um u)) (pagetable u) va = None.

Record all_loaded (m : memory) (start : Z) (segs : list elf64_program_header) (u u' : uspace) (T T' : gmap Z (nat * Z)) (l l' : list Z) : Prop := {
  al_pt : pagetable u' = pagetable u;
  al_tf : trapframe_pa u' = trapframe_pa u;
  al_ok : uok (um u') (pagetable u) T' l';
  al_grown : grown (um u) (um u') T T' l l';
  al_other : forall va, 0 <= va < MAXVA -> (forall ph, ph ∈ segs -> ~ seg_lo ph <= va < seg_hi ph) ->
    translate (ram (um u')) (pagetable u) va = translate (ram (um u)) (pagetable u) va;
  al_mapped : forall ph va, ph ∈ segs -> seg_lo ph <= va < seg_hi ph -> exists p, p ∈ l /\ 0 < p < 2 ^ 56 /\ p mod 4096 = 0 /\
    translate (ram (um u')) (pagetable u) va = Some (map_pte p (pte_flags_of (p_flags ph)));
  al_byte : forall ph va, ph ∈ segs -> seg_lo ph <= va < seg_hi ph -> user_byte (ram (um u')) (pagetable u) va = seg_byte m start ph va;
  al_keep : forall va, user_va (ram (um u)) (pagetable u) va ->
    user_byte (ram (um u')) (pagetable u) va = user_byte (ram (um u)) (pagetable u) va
}.

Lemma header_at_agree m m' a : mem_agree a (a + 64) m m' -> header_at m' a = header_at m a.
Proof. intros Hag. unfold header_at. f_equal; apply load_agree; intros b Hb; apply Hag; lia. Qed.

Lemma program_header_at_agree m m' a : mem_agree a (a + 56) m m' -> program_header_at m' a = program_header_at m a.
Proof. intros Hag. unfold program_header_at. f_equal; apply load_agree; intros b Hb; apply Hag; lia. Qed.

(** Memory that the user reached before keeps its bytes. *)
Lemma user_byte_kept s s' root T T' l l' va :
  uok s root T l -> grown s s' T T' l l' -> user_va (ram s) root va -> translate (ram s') root va = translate (ram s) root va ->
  user_byte (ram s') root va = user_byte (ram s) root va.
Proof.
  intros Hu Hg Hva Htr. pose proof (user_apart _ _ _ _ _ Hu Hva) as Ha. destruct Hva as (Hr & e & He & Hb).
  unfold user_byte. rewrite (user_pa_eq (ram s') root va e) by (done || congruence). rewrite <- (user_pa_eq (ram s) root va e) by done.
  by eapply apart_same.
Qed.

Lemma all_loaded_nil m start u T l : uok (um u) (pagetable u) T l -> all_loaded m start [] u u T T l l.
Proof. intros Hu. split; try done; [apply grown_refl|by intros ph va ?%elem_of_nil..]. Qed.

Lemma all_loaded_cons m start size ph segs u u1 u' T T1 T' l l1 l' :
  uok (um u) (pagetable u) T l -> seg_ok size ph -> mem_agree start (start + size) m (ram (um u)) ->
  room_for u (ph :: segs) -> Forall (seg_disjoint ph) segs -> Forall (seg_ok size) segs ->
  loaded start ph u u1 T T1 l l1 -> all_loaded m start segs u1 u' T1 T' l1 l' ->
  all_loaded m start (ph :: segs) u u' T T' l l'.
Proof.
  intros Hu Hok Hag Hroom Hdis Hoks [L1 L2 L3 L4 L5 L6 L7 L8] [A1 A2 A3 A4 A5 A6 A7 A8]. rewrite L1 in *. rewrite Forall_forall in Hdis.
  pose proof (seg_geometry _ _ Hok) as (G1 & G2 & G3 & G4 & G5 & G6 & G7 & G8 & G9 & G10).
  assert (forall va, seg_lo ph <= va < seg_hi ph -> forall ph', ph' ∈ segs -> ~ seg_lo ph' <= va < seg_hi ph') as Hd.
  { intros va Hva ph' Hin. destruct (Hdis _ Hin); lia. }
  assert (forall ph' va, ph' ∈ segs -> seg_lo ph' <= va < seg_hi ph' -> 0 <= va < MAXVA) as Hrange.
  { intros ph' va Hin Hva. rewrite Forall_forall in Hoks. pose proof (seg_geometry _ _ (Hoks _ Hin)). lia. }
  split; try done; try congruence; [by eapply grown_trans|..].
  - intros va Hva Hn. rewrite A5, L6; [done|done| |done|]; [apply Hn; by left|intros ph' Hin; apply Hn; by right].
  - intros ph' va [->|Hin]%elem_of_cons Hva; [rewrite A5 by (lia || by apply Hd); by apply L7|].
    destruct (A6 ph' va Hin Hva) as (p & Hp & Hrest). exists p. split; [by apply (gr_free _ _ _ _ _ _ L4)|done].
  - intros ph' va [->|Hin]%elem_of_cons Hva; [|by apply A7].
    destruct (L7 va Hva) as (p & _ & Hp & Hpa & Htr). destruct (map_pte_user _ _ va _ _ ltac:(lia) Hp Hpa Htr) as [Huv _].
    rewrite A8, L8 by done. unfold seg_byte. case_decide; [|done]. apply Hag. destruct (so_file _ _ Hok). lia.
  - intros va Huv. pose proof Huv as [Hr (e & He & Hb)].
    assert (translate (ram (um u1)) (pagetable u) va = translate (ram (um u)) (pagetable u) va) as Htr.
    { apply L6; [done|]. intros Hin. rewrite (Hroom ph) in He; [done|by left|done]. }
    rewrite A8 by (split; [done|exists e; by rewrite Htr]). by apply (user_byte_kept _ _ _ T T1 l l1).
Qed.

Lemma segments_from_S m a n :
  segments_from m a (S n) = (if decide (p_type (program_header_at m a) = PT_LOAD) then [program_header_at m a] else []) ++
    segments_from m (a + sizeof_elf64_program_header) n.
Proof. unfold segments_from. cbn [headers_from]. rewrite filter_cons. by case_decide. Qed.

Lemma load_segments_spec n m start size ph i u T l :
  let segs := segments_from m (ph + i * sizeof_elf64_program_header) n in
  uok (um u) (pagetable u) T l -> mem_agree start (start + size) m (ram (um u)) ->
  0 <= start -> start + size < 2 ^ 64 -> 64 <= size -> 0 <= i ->
  start <= ph -> ph + (i + Z.of_nat n) * sizeof_elf64_program_header <= start + size ->
  e_phnum (header_at m start) = i + Z.of_nat n -> (forall a, start <= a < start + size -> apart T l a) ->
  Forall (seg_ok size) segs -> ForallOrdPairs seg_disjoint segs -> room_for u segs -> (3 * total_pages segs < length l)%nat ->
  exists u' T' l', load_segments (S n) start size ph i u = Ret true u' /\ all_loaded m start segs u u' T T' l l'.
Proof.
  revert i u T l. induction n as [|n IH]; intros i u T l segs Hu Hag Hst Hsz H64 Hi Hph Hend Hnum Himg Hok Hdis Hroom Hfree.
  all: cbn [load_segments]; unfold kbind at 1, kget.
  all: rewrite (header_at_agree m) by (intros a Ha; apply Hag; lia); rewrite Hnum.
  { rewrite (proj2 (Z.ltb_ge _ _)) by lia. exists u, T, l. split; [done|]. by apply all_loaded_nil. }
  rewrite (proj2 (Z.ltb_lt _ _)) by lia. unfold sizeof_elf64_program_header in *.
  rewrite (program_header_at_agree m) by (intros a Ha; apply Hag; lia).
  subst segs. rewrite (segments_from_S m (ph + i * 56) n) in *. set (phi := program_header_at m (ph + i * 56)) in *.
  replace (ph + i * 56 + sizeof_elf64_program_header) with (ph + (i + 1) * 56) in * by (unfold sizeof_elf64_program_header; lia).
  destruct (Z.eqb_spec (p_type phi) PT_LOAD) as [Hld|Hld].
  2: { rewrite decide_False in * by done. apply IH; try done; lia. }
  rewrite decide_True in * by done. cbn [app] in *. apply Forall_cons in Hok as [Hok Hoks]. inversion_clear Hdis as [|? ? Hd Hds].
  cbn [total_pages] in Hfree.
  destruct (load_segment_spec u T l start size phi) as (u1 & T1 & l1 & Hrun & Hl); try done; [lia|intros va Hva; apply (Hroom phi); [by left|done]|].
  rewrite (kbind_ret _ _ _ _ _ Hrun).
  destruct (IH (i + 1) u1 T1 l1) as (u' & T' & l' & Hrun' & Hal).
  - rewrite (ld_pt _ _ _ _ _ _ _ _ Hl). apply Hl.
  - intros a Ha. rewrite (apart_same _ _ _ _ _ _ _ (ld_grown _ _ _ _ _ _ _ _ Hl)) by by apply Himg. by apply Hag.
  - done.
  - done.
  - done.
  - lia.
  - done.
  - lia.
  - lia.
  - intros a Ha. apply (apart_grown _ _ _ _ _ _ _ (ld_grown _ _ _ _ _ _ _ _ Hl)). by apply Himg.
  - done.
  - done.
  - intros ph' va Hin Hva. rewrite (ld_pt _ _ _ _ _ _ _ _ Hl). rewrite (ld_other _ _ _ _ _ _ _ _ Hl).
    + apply (Hroom ph'); [by right|done].
    + rewrite Forall_forall in Hoks. pose proof (seg_geometry _ _ (Hoks _ Hin)). lia.
    + rewrite Forall_forall in Hd. destruct (Hd _ Hin); lia.
  - pose proof (ld_count _ _ _ _ _ _ _ _ Hl). lia.
  - exists u', T', l'. split; [done|]. by eapply all_loaded_cons.
Qed.

(** ** The loader *)

(** A binary that is well-formed: the header passes the tests, the table of
    program headers is in the file, and the segments make sense and do not share a page. *)
Record elf_ok (m : memory) (start size : Z) : Prop := {
  eo_place : 0 <= start /\ start + size < 2 ^ 64 /\ 64 <= size;
  eo_header : header_ok (header_at m start) size = true;
  eo_table : e_phoff (header_at m start) + e_phnum (header_at m start) * sizeof_elf64_program_header <= size;
  eo_segs : Forall (seg_ok size) (segments m start);
  eo_disjoint : ForallOrdPairs seg_disjoint (segments m start)
}.

(** The binary and the entry of the trap frame that is written are not in the
    way of the loader. *)
Record elf_memory (u : uspace) (T : gmap Z (nat * Z)) (l : list Z) (start size : Z) : Prop := {
  em_image : forall a, start <= a < start + size -> apart T l a;
  em_frame : forall a, trapframe_pa u + TRAPFRAME_EPC <= a < trapframe_pa u + TRAPFRAME_EPC + 8 -> apart T l a;
  em_frame_user : forall a va, trapframe_pa u + TRAPFRAME_EPC <= a < trapframe_pa u + TRAPFRAME_EPC + 8 ->
    user_va (ram (um u)) (pagetable u) va -> user_pa (ram (um u)) (pagetable u) va <> a
}.

(** A store to memory that is neither a table, nor free, nor the user's. *)
Lemma private_store s root T l a v :
  uok s root T l -> (forall b, a <= b < a + 8 -> apart T l b) ->
  (forall b va, a <= b < a + 8 -> user_va (ram s) root va -> user_pa (ram s) root va <> b) ->
  let s' := set_ram (fun m => store64 m a v) s in
  uok s' root T l /\ (forall va, 0 <= va < MAXVA -> translate (ram s') root va = translate (ram s) root va) /\
  forall va, user_va (ram s) root va -> user_byte (ram s') root va = user_byte (ram s) root va.
Proof.
  intros Hu Hap Huser s'. assert (forall b, ~ a <= b < a + 8 -> rd8 (ram s') b = rd8 (ram s) b) as Hb.
  { intros b Hb. cbn [s' set_ram ram]. apply store_other. lia. }
  assert (tables_agree T (ram s) (ram s')) as Hag.
  { intros t Ht b Hr. apply Hb. intros Hin. destruct (proj1 (Hap b Hin) t Ht); lia. }
  assert (vm_ok s' root T l) as Hv.
  { apply vm_data_write; [apply Hu|done|]. intros p Hp. apply load_agree. intros b Hr. apply Hb. intros Hin. apply (proj2 (Hap b Hin) p Hp). lia. }
  destruct (uok_data s s' root T l Hu Hv Hag eq_refl) as [Hu' Htr]. split_and!; [done|done|]. intros va Hva. unfold user_byte.
  rewrite (user_pa_agree s root T l (ram s')) by (apply Hu || done || apply Hva). apply Hb. intros Hin. by apply (Huser _ va Hin Hva).
Qed.

Lemma user_va_same m m' root va : translate m' root va = translate m root va -> user_va m' root va -> user_va m root va.
Proof. intros Htr [Hr (e & He & Hb)]. split; [done|]. exists e. by rewrite <- Htr. Qed.

(** Memory that the user did not reach and that was not free is not reached now. *)
Lemma all_loaded_private m start segs u u' T T' l l' b :
  all_loaded m start segs u u' T T' l l' -> apart T l b ->
  (forall va, user_va (ram (um u)) (pagetable u) va -> user_pa (ram (um u)) (pagetable u) va <> b) ->
  forall va, user_va (ram (um u')) (pagetable u) va -> user_pa (ram (um u')) (pagetable u) va <> b.
Proof.
  intros [A1 A2 A3 A4 A5 A6 A7 A8] [_ Hbl] Hold va Hva Heq. pose proof Hva as [Hr _].
  destruct (decide (Exists (fun ph => seg_lo ph <= va < seg_hi ph) segs)) as [(ph & Hin & Hp)%Exists_exists|Hno].
  - destruct (A6 ph va Hin Hp) as (p & Hpl & Hp1 & Hp2 & Htr). destruct (map_pte_user _ _ va _ _ Hr Hp1 Hp2 Htr) as [_ Hpa].
    apply (Hbl p Hpl). zlia.
  - assert (translate (ram (um u')) (pagetable u) va = translate (ram (um u)) (pagetable u) va) as Htr.
    { apply A5; [done|]. intros ph Hin Hp. apply Hno, Exists_exists. by exists ph. }
    apply (Hold va); [by apply (user_va_same _ _ _ _ Htr)|]. rewrite <- Heq. unfold user_pa, user_page. by rewrite Htr.
Qed.

(** What the loader does, and that it leaves memory of the kernel private. *)
Lemma load_elf_spec u T l start size :
  let m := ram (um u) in let segs := segments m start in
  uok (um u) (pagetable u) T l -> elf_ok m start size -> elf_memory u T l start size -> room_for u segs ->
  (3 * total_pages segs < length l)%nat ->
  exists u' T' l', __load_elf start size u = Ret 0 u' /\ pagetable u' = pagetable u /\ uok (um u') (pagetable u') T' l' /\
    (forall ph va, ph ∈ segs -> seg_lo ph <= va < seg_hi ph ->
      (exists p, p ∈ l /\ translate (ram (um u')) (pagetable u') va = Some (map_pte p (pte_flags_of (p_flags ph)))) /\
      user_byte (ram (um u')) (pagetable u') va = seg_byte m start ph va) /\
    (forall va, 0 <= va < MAXVA -> (forall ph, ph ∈ segs -> ~ seg_lo ph <= va < seg_hi ph) ->
      translate (ram (um u')) (pagetable u') va = translate m (pagetable u) va) /\
    (forall va, user_va m (pagetable u) va -> user_byte (ram (um u')) (pagetable u') va = user_byte m (pagetable u) va) /\
    load64 (ram (um u')) (trapframe_pa u' + TRAPFRAME_EPC) = e_entry (header_at m start) /\
    (forall a, apart T l a -> apart T' l' a) /\
    (forall a, apart T l a -> (forall va, user_va m (pagetable u) va -> user_pa m (pagetable u) va <> a) ->
      forall va, user_va (ram (um u')) (pagetable u') va -> user_pa (ram (um u')) (pagetable u') va <> a) /\
    trapframe_pa u' = trapframe_pa u.
Proof.
  intros m segs Hu [(E1 & E2 & E3) E4 E5 E6 E7] [M1 M2 M3] Hroom Hfree. unfold sizeof_elf64_program_header in *.
  pose proof (load_range 2 m (start + 56)) as Hn. change (load 2 m (start + 56)) with (e_phnum (header_at m start)) in Hn.
  pose proof (load64_range m (start + 32)) as Ho. change (load64 m (start + 32)) with (e_phoff (header_at m start)) in Ho.
  pose proof (load64_range m (start + 24)) as He. change (load64 m (start + 24)) with (e_entry (header_at m start)) in He.
  destruct (load_segments_spec (Z.to_nat (e_phnum (header_at m start))) m start size (start + e_phoff (header_at m start)) 0 u T l)
    as (u1 & T1 & l1 & Hrun & Hal); rewrite ?Z.mul_0_l, ?Z.add_0_r; try done; try lia; [unfold sizeof_elf64_program_header; lia|].
  rewrite Z.mul_0_l, Z.add_0_r in *. fold (segments m start) in *. fold segs in Hal. pose proof Hal as [A1 A2 A3 A4 A5 A6 A7 A8].
  assert (header_at (ram (um u1)) start = header_at m start) as Hh.
  { apply header_at_agree. intros a Ha. apply (apart_same _ _ _ _ _ _ _ A4), M1. lia. }
  destruct (private_store (um u1) (pagetable u) T1 l1 (trapframe_pa u + TRAPFRAME_EPC) (e_entry (header_at m start))) as (P1 & P2 & P3); [done| | |].
  { intros b Hb. by apply (apart_grown _ _ _ _ _ _ _ A4), M2. }
  { intros b va Hb. apply (all_loaded_private m start segs u u1 T T1 l l1); [done|apply (M2 b Hb)|]. intros va' Hva'. by apply M3. }
  eexists _, T1, l1. split.
  { unfold __load_elf. rewrite (proj2 (Z.ltb_ge _ _)) by (unfold sizeof_elf64_header; lia). unfold kbind at 1, kget. fold m. rewrite E4. cbn [negb].
    rewrite (u64_small (start + _)) by lia. rewrite (kbind_ret _ _ _ _ _ Hrun). cbn [negb]. unfold kbind, kget, vm, kmodify. by rewrite Hh, A2. }
  cbn [set_um pagetable um trapframe_pa]. rewrite A1, A2. split_and!; [done|done|..].
  - intros ph va Hin Hva. pose proof (proj1 (Forall_forall _ _) E6 ph Hin) as Hg%seg_geometry.
    destruct (A6 ph va Hin Hva) as (p & Hpl & Hp1 & Hp2 & Htr). destruct (map_pte_user _ _ va _ _ ltac:(lia) Hp1 Hp2 Htr) as [Huv _].
    rewrite P2, P3 by (done || lia). split; [by exists p|by apply A7].
  - intros va Hva Hn'. rewrite P2 by done. by apply A5.
  - intros va Hva. rewrite P3; [by apply A8|]. pose proof Hva as (Hr & e & Htr & Hb). split; [done|]. exists e. split; [|done].
    rewrite A5; [done|done|]. intros ph Hin Hp. unfold m in *. rewrite (Hroom ph va Hin Hp) in Htr. done.
  - apply load64_store64_eq. lia.
  - intros a. apply (apart_grown _ _ _ _ _ _ _ A4).
  - intros a Ha Hno va Hva. pose proof (user_va_same _ _ _ _ (P2 va (proj1 Hva)) Hva) as Hva1.
    replace (user_pa _ _ va) with (user_pa (ram (um u1)) (pagetable u) va)
      by (unfold user_pa, user_page; cbn [set_ram ram]; by rewrite <- (P2 va (proj1 Hva))).
    by apply (all_loaded_private m start segs u u1 T T1 l l1).
  - done.
Qed.

(** C4. A well-formed binary is loaded: with more than three free pages for each
    page of its segments, and nothing mapped where they belong, [__load_elf] returns 0.
    Every loadable segment is then mapped page by page to pages that were free,
    with the permissions of its flags and for the user; its bytes are those of
    the file, and zero before and after them up to the page boundaries.  Everything
    that the user could reach before is as it was, the entry point is in the
    trap frame, and the address space is well-formed. *)
Theorem load_elf_correct u T l start size :
  let m := ram (um u) in let segs := segments m start in
  uok (um u) (pagetable u) T l -> elf_ok m start size -> elf_memory u T l start size -> room_for u segs ->
  (3 * total_pages segs < length l)%nat ->
  exists u' T' l', __load_elf start size u = Ret 0 u' /\ pagetable u' = pagetable u /\ uok (um u') (pagetable u') T' l' /\
    (forall ph va, ph ∈ segs -> seg_lo ph <= va < seg_hi ph ->
      (exists p, p ∈ l /\ translate (ram (um u')) (pagetable u') va = Some (map_pte p (pte_flags_of (p_flags ph)))) /\
      user_byte (ram (um u')) (pagetable u') va = seg_byte m start ph va) /\
    (forall va, 0 <= va < MAXVA -> (forall ph, ph ∈ segs -> ~ seg_lo ph <= va < seg_hi ph) ->
      translate (ram (um u')) (pagetable u') va = translate m (pagetable u) va) /\
    (forall va, user_va m (pagetable u) va -> user_byte (ram (um u')) (pagetable u') va = user_byte m (pagetable u) va) /\
    load64 (ram (um u')) (trapframe_pa u' + TRAPFRAME_EPC) = e_entry (header_at m start).
Proof.
  intros m segs Hu Hok Hmem Hroom Hfree.
  destruct (load_elf_spec u T l start size Hu Hok Hmem Hroom Hfree) as (u' & T' & l' & H1 & H2 & H3 & H4 & H5 & H6 & H7 & _).
  by exists u', T', l'.
Qed.

(** ** A small binary: two segments of one page each *)

Definition le_bytes (n : nat) (v : Z) : list Z := rd_bytes n (store n ∅ 0 v) 0.

Definition small_ph (flags offset vaddr filesz memsz : Z) : list Z :=
  le_bytes 4 PT_LOAD ++ le_bytes 4 flags ++ le_bytes 8 offset ++ le_bytes 8 vaddr ++ le_bytes 8 vaddr ++ le_bytes 8 filesz ++ le_bytes 8 memsz ++ le_bytes 8 4096.

Definition small_header (phnum entry : Z) : list Z :=
  le_bytes 4 ELF_MAGIC ++ [BIT64; LITTLE; EI_CURRENT; SYSTEM_V; ABI_CURRENT] ++ replicate 7 0 ++ le_bytes 2 ET_EXEC ++ le_bytes 2 RISCV ++ le_bytes 4 E_CURRENT ++
  le_bytes 8 entry ++ le_bytes 8 64 ++ le_bytes 8 0 ++ le_bytes 4 0 ++ le_bytes 2 64 ++ le_bytes 2 56 ++ le_bytes 2 phnum ++ le_bytes 2 64 ++ le_bytes 2 0 ++ le_bytes 2 0.

Definition small_elf : list Z :=
  small_header 2 0x1010 ++ small_ph (PF_R + PF_X) 176 0x1010 4 16 ++ small_ph (PF_R + PF_W) 180 0x3000 2 2 ++ [1; 2; 3; 4; 5; 6].

Definition small_space : uspace := blank_space small_elf.

Lemma blank_apart a : 0xa000 <= a -> apart blank_tables blank_free a.
Proof.
  intros Ha. split.
  - unfold blank_tables. intros t [x [<- _]%lookup_singleton_Some]. lia.
  - intros p Hp. assert (forallb (fun p => p + 4096 <=? 0xa000) blank_free = true) as Hall by by vm_compute.
    rewrite forallb_forall in Hall. apply list_elem_of_In, Hall in Hp. lia.
Qed.

Lemma small_segments : segments (ram (um small_space)) 0xb000 =
  [ProgramHeader PT_LOAD 5 176 0x1010 0x1010 4 16 4096; ProgramHeader PT_LOAD 6 180 0x3000 0x3000 2 2 4096].
Proof. by vm_compute. Qed.

Lemma small_elf_ok : elf_ok (ram (um small_space)) 0xb000 182.
Proof.
  split; [by vm_compute|by vm_compute|by vm_compute|rewrite small_segments..].
  - repeat constructor; by vm_compute.
  - constructor; [|by constructor; [|constructor]]. constructor; [|done]. by left.
Qed.

Lemma load_elf_correct_witness :
  exists u', __load_elf 0xb000 182 small_space = Ret 0 u' /\
    user_byte (ram (um u')) (pagetable u') 0x1012 = 3 /\ user_byte (ram (um u')) (pagetable u') 0x100f = 0.
Proof.
  destruct (load_elf_correct small_space blank_tables blank_free 0xb000 182) as (u' & T' & l' & Hrun & _ & _ & Hseg & _).
  - apply blank_uok.
  - apply small_elf_ok.
  - split; [intros a Ha; apply blank_apart; lia|intros a Ha; apply blank_apart; unfold small_space, blank_space, TRAPFRAME_EPC in Ha; cbn in Ha; lia|].
    intros a va _ [_ (e & He & _)]. pose proof (eq_trans (eq_sym (blank_translate small_elf va)) He). done.
  - intros ph va _ _. apply blank_translate.
  - rewrite small_segments. vm_compute. lia.
  - exists u'. split; [exact Hrun|]. rewrite small_segments in Hseg. split.
    + refine (eq_trans (proj2 (Hseg _ 0x1012 _ _)) _); [by left|by split; vm_compute|by vm_compute].
    + refine (eq_trans (proj2 (Hseg _ 0x100f _ _)) _); [by left|by split; vm_compute|by vm_compute].
Defined.

(** ** Binaries that are not well-formed *)

(** What does not have the right header is refused, and nothing changes. *)
Lemma load_elf_refuses u start size :
  size < sizeof_elf64_header \/ header_ok (header_at (ram (um u)) start) size = false -> __load_elf start size u = Ret (-1) u.
Proof.
  intros Hbad. unfold __load_elf. destruct (Z.ltb_spec size sizeof_elf64_header); [done|]. unfold kbind at 1, kget.
  destruct Hbad as [|Hbad]; [lia|]. by rewrite Hbad.
Qed.

(** Two segments with a page in common stop the kernel: the second mapping of
    the page is a remap. *)
Lemma overlapping_segments_panic :
  let image := small_header 2 0x1010 ++ small_ph (PF_R + PF_X) 176 0x1010 4 16 ++ small_ph (PF_R + PF_W) 180 0x1800 2 2 ++ [1; 2; 3; 4; 5; 6] in
  __load_elf 0xb000 182 (blank_space image) = Panic.
Proof. by vm_compute. Qed.

(** An offset close to 2^64 passes the test of the size, since the sum wraps
    around: the user gets the memory of the kernel in front of the binary. *)
Lemma offset_overflow_leaks :
  let image := [42; 43; 44; 45; 46; 47; 48; 49] ++ small_header 1 0x1000 ++ small_ph PF_R (2 ^ 64 - 8) 0x1000 8 8 in
  match __load_elf 0xb008 120 (blank_space image) with
  | Ret r u' => (r =? 0) && (user_byte (ram (um u')) (pagetable u') 0x1000 =? 42) && (user_byte (ram (um u')) (pagetable u') 0x1007 =? 49)
  | _ => false
  end = true.
Proof. vm_compute. reflexivity. Qed.
