(* ===== verification/UserLife.v ===== *)
(** * The life of an address space (src/os/proc/process.cc, src/os/mm/vmem.cc)

    [__free_pagetable] takes an address space down: it unmaps what is recorded
    in [mmap_infos] and gives the tables back.  The theorems say that
    [free_pagetable_pages] frees every table once, and that a
    process which was set up by [__init_pagetable], mapped memory and ran
    leaves the allocator with the pages that were free before, but for at most
    one for each request for memory that failed. *)
From S2P Require Import Prelude Memory CString Riscv PageAlloc Vmem PageTable UserCopy UserSpace.

(** ** The tree of tables *)

(** [x] is a table of the subtree of the tables with prefix [pre] at level [lv]. *)
Definition below (T : gmap Z (nat * Z)) (lv : nat) (pre x : Z) : Prop :=
  exists k q, T !! x = Some (k, q) /\ (k <= lv)%nat /\ q / 512 ^ Z.of_nat (lv - k) = pre.

Section tree.
Context {m : memory} {T : gmap Z (nat * Z)} {root : Z} (Hinv : pt_inv m T).
Context (Htop : forall t lv pre, T !! t = Some (lv, pre) -> t = root \/ lower_table lv pre).

Lemma parent_entry x k q :
  T !! x = Some (k, q) -> (k < 2)%nat -> exists t, T !! t = Some (S k, q / 512) /\
    Z.testbit (load64 m (t + 8 * (q mod 512))) 0 = true /\ PTE2PA (load64 m (t + 8 * (q mod 512))) = x.
Proof.
  intros Hx Hk. destruct (pt_parent _ _ Hinv _ _ _ Hx Hk) as (t & pre & i & Ht & Hi & Hb & Hpa). exists t.
  pose proof (pt_child _ _ Hinv _ _ _ _ Ht Hi Hb) as Hc. rewrite Hpa, Hx in Hc. injection Hc as ->.
  replace ((pre * 512 + i) / 512) with pre by zlia. replace ((pre * 512 + i) mod 512) with i by zlia. done.
Qed.

(** A level and a prefix name one table. *)
Lemma table_unique x y k q : T !! x = Some (k, q) -> T !! y = Some (k, q) -> x = y.
Proof.
  assert (forall d x y k q, (k + d = 2)%nat -> T !! x = Some (k, q) -> T !! y = Some (k, q) -> x = y) as Hd.
  { induction d as [|d IH]; intros x' y' k' q' Hk Hx Hy.
    - destruct (Htop _ _ _ Hx) as [->|[? _]]; [|lia]. destruct (Htop _ _ _ Hy) as [->|[? _]]; [done|lia].
    - destruct (parent_entry x' k' q' Hx) as (t & Ht & Hb & Hpa); [lia|]. destruct (parent_entry y' k' q' Hy) as (t' & Ht' & Hb' & Hpa'); [lia|].
      assert (t = t') as -> by (eapply (IH _ _ (S k')); [lia|done|done]). congruence. }
  intros Hx Hy. destruct (decide (k <= 2)%nat) as [Hk|Hk]; [apply (Hd (2 - k)%nat x y k q); [lia|done|done]|].
  destruct (Htop _ _ _ Hx) as [->|[? _]]; [|lia]. destruct (Htop _ _ _ Hy) as [->|[? _]]; [done|lia].
Qed.

(** What is below a table that is missing is missing. *)
Lemma below_top lv pre x : below T lv pre x -> (lv <= 2)%nat -> exists y, T !! y = Some (lv, pre).
Proof.
  intros (k & q & Hx & Hk & Hq) Hlv. remember (lv - k)%nat as d eqn:Hd. revert x k q Hx Hk Hd Hq.
  induction d as [|d IH]; intros x k q Hx Hk Hd Hq.
  - assert (k = lv) as -> by lia. change (512 ^ Z.of_nat 0) with 1 in Hq. rewrite Z.div_1_r in Hq. subst q. by exists x.
  - destruct (parent_entry x k q Hx) as (t & Ht & _ & _); [lia|]. apply (IH t (S k) (q / 512)); [done|lia|lia|].
    rewrite <- Hq, Z.div_div by lia. f_equal. rewrite Nat2Z.inj_succ, Z.pow_succ_r by lia. done.
Qed.

Lemma child_entry t y lv pre i :
  T !! t = Some (S lv, pre) -> T !! y = Some (lv, pre * 512 + i) -> (lv < 2)%nat -> 0 <= i < 512 ->
  Z.testbit (load64 m (t + 8 * i)) 0 = true /\ PTE2PA (load64 m (t + 8 * i)) = y.
Proof.
  intros Ht Hy Hlv Hi. destruct (parent_entry y lv _ Hy Hlv) as (t' & Ht' & Hb & Hpa).
  replace ((pre * 512 + i) / 512) with pre in Ht' by zlia. replace ((pre * 512 + i) mod 512) with i in * by zlia.
  by rewrite (table_unique t t' (S lv) pre Ht Ht').
Qed.

(** The subtree of a table. *)
Lemma below_0 t pre x : T !! t = Some (0%nat, pre) -> below T 0 pre x <-> x = t.
Proof.
  intros Ht. split.
  - intros (k & q & Hx & Hk & Hq). assert (k = 0%nat) as -> by lia. change (q / 1 = pre) in Hq. rewrite Z.div_1_r in Hq. subst q. by eapply table_unique.
  - intros ->. exists 0%nat, pre. split_and!; [done|lia|apply Z.div_1_r].
Qed.

Lemma below_S t lv pre x :
  T !! t = Some (S lv, pre) -> below T (S lv) pre x <-> x = t \/ exists j, 0 <= j < 512 /\ below T lv (pre * 512 + j) x.
Proof.
  intros Ht. split.
  - intros (k & q & Hx & Hk & Hq). destruct (decide (k = S lv)) as [->|Hne].
    + rewrite Nat.sub_diag in Hq. change (q / 1 = pre) in Hq. rewrite Z.div_1_r in Hq. subst q. left. by eapply table_unique.
    + right. exists (q / 512 ^ Z.of_nat (lv - k) mod 512). split; [zlia|]. exists k, q. split_and!; [done|lia|].
      replace (S lv - k)%nat with (S (lv - k)) in Hq by lia. rewrite Nat2Z.inj_succ, Z.pow_succ_r, Z.mul_comm in Hq by lia.
      rewrite <- Z.div_div in Hq by (try apply Z.pow_nonzero; lia). zlia.
  - intros [->|(j & Hj & k & q & Hx & Hk & Hq)].
    + exists (S lv), pre. split_and!; [done|lia|]. rewrite Nat.sub_diag. apply Z.div_1_r.
    + exists k, q. split_and!; [done|lia|]. replace (S lv - k)%nat with (S (lv - k)) by lia.
      rewrite Nat2Z.inj_succ, Z.pow_succ_r, Z.mul_comm by lia. rewrite <- Z.div_div by (try apply Z.pow_nonzero; lia). zlia.
Qed.

Lemma below_disjoint lv pre i j x : below T lv (pre * 512 + i) x -> below T lv (pre * 512 + j) x -> i = j.
Proof. intros (k & q & Hx & _ & Hq) (k' & q' & Hx' & _ & Hq'). rewrite Hx in Hx'. simplify_eq. lia. Qed.

(** A leaf table is reached from every table above it. *)
Lemma leaf_path lv t y va :
  0 <= va -> (lv <= 2)%nat -> T !! t = Some (0%nat, prefix 0 va) -> T !! y = Some (lv, prefix lv va) ->
  leaf_slot lv m y va = Some (t + 8 * PX 0 va).
Proof.
  intros Hva Hlv Ht. revert y. induction lv as [|lv IH]; intros y Hy; cbn [leaf_slot].
  { by rewrite (table_unique y t 0 (prefix 0 va)). }
  assert (below T lv (prefix lv va) t) as Hb.
  { exists 0%nat, (prefix 0 va). split_and!; [done|lia|]. unfold prefix. rewrite Nat.sub_0_r.
    rewrite Z.div_div by (try apply Z.pow_nonzero; lia). f_equal. change 512 with (2 ^ 9). rewrite <- Z.pow_mul_r, <- Z.pow_add_r by lia. f_equal. lia. }
  destruct (below_top lv _ t Hb ltac:(lia)) as [z Hz]. pose proof (PX_range (Z.of_nat (S lv)) va ltac:(lia)).
  destruct (child_entry y z lv (prefix (S lv) va) (PX (Z.of_nat (S lv)) va)) as [Hv Hpa]; [done|by rewrite <- prefix_step|lia|done|].
  rewrite Hv, Hpa. apply IH; [lia|done].
Qed.
End tree.

(** ** [free_pagetable_pages] *)

Lemma free_pagetable_pages_S d t :
  free_pagetable_pages (S d) t = if t =? 0 then kret tt else free_table_entries (free_pagetable_pages d) t 512 0 ;;; free_page t.
Proof. reflexivity. Qed.

(** A round at an entry that is not valid, and at one that points to a table. *)
Lemma free_table_entries_skip f t n i s :
  Z.testbit (load64 (ram s) (t + 8 * i)) 0 = false -> free_table_entries f t (S n) i s = free_table_entries f t n (i + 1) s.
Proof. intros Hb. cbn [free_table_entries]. unfold kbind at 1, kget, rd_pte. by rewrite pte_valid_bit, Hb. Qed.

Lemma free_table_entries_child f t n i s s1 :
  let e := load64 (ram s) (t + 8 * i) in
  Z.testbit e 0 = true -> pointer e = true -> f (PTE2PA e) s = Ret tt s1 ->
  free_table_entries f t (S n) i s = free_table_entries f t n (i + 1) (set_ram (fun m => store64 m (t + 8 * i) 0) s1).
Proof.
  intros e Hb Hp Hf. cbn [free_table_entries]. unfold kbind at 1, kget, rd_pte. fold e. fold (pointer e). rewrite pte_valid_bit, Hb, Hp.
  cbn [negb andb]. unfold kbind. by rewrite Hf.
Qed.

Lemma free_table_entries_none f t n i s :
  (forall j, i <= j < i + Z.of_nat n -> Z.testbit (load64 (ram s) (t + 8 * j)) 0 = false) -> free_table_entries f t n i s = Ret tt s.
Proof.
  revert i. induction n as [|n IH]; intros i Hall; [done|].
  rewrite free_table_entries_skip by (apply Hall; lia). apply IH. intros j Hj. apply Hall. lia.
Qed.

Section free_tree.
Context {m : memory} {T : gmap Z (nat * Z)} {root : Z} (Hinv : pt_inv m T).
Context (Htop : forall t lv pre, T !! t = Some (lv, pre) -> t = root \/ lower_table lv pre).
Context (Hleaf : forall t pre i, T !! t = Some (0%nat, pre) -> 0 <= i < 512 -> Z.testbit (load64 m (t + 8 * i)) 0 = false).

Notation intact := (intact m).

Lemma table_page x : is_Some (T !! x) -> x mod 4096 = 0 /\ 0 < x < 2 ^ 56.
Proof. intros [[k q] Hx]. by apply (pt_page _ _ Hinv _ _ _ Hx). Qed.

Lemma below_some lv pre x : below T lv pre x -> is_Some (T !! x).
Proof. intros (k & q & Hx & _). by exists (k, q). Qed.

(** A store to an entry of a table outside of [B]. *)
Lemma intact_write (B : Z -> Prop) s l t i v :
  (forall x, B x -> is_Some (T !! x) /\ x <> t) -> is_Some (T !! t) -> t ∉ l -> 0 <= i < 512 ->
  intact B s l -> intact B (set_ram (fun m => store64 m (t + 8 * i) v) s) l.
Proof.
  intros HB Ht Hl Hi [I1 I2 I3 I4]. pose proof (table_page t Ht). split.
  - apply pages_inv_client_write; [done|]. intros p Hp. assert (p <> t) by congruence.
    destruct (pages_inv_free_pages _ _ p I1 Hp) as [[Hal _] _]. unfold PGSIZE in Hal. apply load64_store64_ne. zlia.
  - intros x Hx a Ha. destruct (HB x Hx) as [HT Hne]. pose proof (table_page x HT). cbn [set_ram ram].
    rewrite store_other by zlia. by apply (I2 x Hx).
  - exact I3.
  - exact I4.
Qed.

(** The tables of the entries from [i] on. *)
Definition children (lv : nat) (pre i x : Z) : Prop := exists j, i <= j < 512 /\ below T lv (pre * 512 + j) x.

Lemma children_some lv pre i t x : T !! t = Some (S lv, pre) -> children lv pre i x -> is_Some (T !! x) /\ x <> t.
Proof. intros Ht (j & _ & k & q & Hx & Hk & _). split; [by exists (k, q)|]. intros ->. rewrite Hx in Ht. simplify_eq. lia. Qed.

Lemma free_children lv t pre (Hlv : (lv < 2)%nat) (Ht : T !! t = Some (S lv, pre))
  (IH : forall t' pre' s l, T !! t' = Some (lv, pre') -> intact (below T lv pre') s l ->
    exists s' l', free_pagetable_pages (S lv) t' s = Ret tt s' /\ freed (below T lv pre') s s' l l') n : forall i s l,
  Z.of_nat n + i = 512 -> 0 <= i -> intact (children lv pre i) s l -> mem_agree (t + 8 * i) (t + 4096) m (ram s) -> t ∉ l ->
  exists s' l', free_table_entries (free_pagetable_pages (S lv)) t n i s = Ret tt s' /\ pages_inv s' l' /\
    (forall x, x ∈ l' <-> x ∈ l \/ children lv pre i x) /\ same_bounds s s' /\
    forall a, (forall x, children lv pre i x -> ~ x <= a < x + 4096) -> ~ t <= a < t + 4096 -> rd8 (ram s') a = rd8 (ram s) a.
Proof.
  induction n as [|n IHn]; intros i s l Hn Hi Hin Hag Hl.
  { exists s, l. split_and!; try done; [apply Hin|]. intros x. split; [by left|]. intros [|(j & Hj & _)]; [done|lia]. }
  assert (load64 (ram s) (t + 8 * i) = load64 m (t + 8 * i)) as He by (apply load_agree; intros b Hb; apply Hag; lia).
  destruct (Z.testbit (load64 m (t + 8 * i)) 0) eqn:Hb.
  - pose proof (pt_child _ _ Hinv _ _ _ i Ht ltac:(lia) Hb) as Hy.
    destruct (IH _ _ s l Hy) as (s1 & l1 & Hrun1 & Hf1).
    { eapply intact_mono; [|exact Hin]. intros x Hx. exists i. split; [lia|done]. }
    assert (t ∉ l1) as Hl1.
    { intros [Hx|(k & q & Hx & Hk & _)]%(fr_list _ _ _ _ _ Hf1); [done|]. rewrite Hx in Ht. simplify_eq. lia. }
    assert (intact (children lv pre (i + 1)) s1 l1) as Hin1.
    { eapply (intact_freed m (below T lv (pre * 512 + i))); [by intros x Hx; apply table_page, (below_some lv (pre * 512 + i))| | |done].
      - intros x Hx (j & Hj & Hx'). pose proof (below_disjoint _ _ _ _ _ Hx Hx'). lia.
      - eapply intact_mono; [|exact Hin]. intros x (j & Hj & Hx). exists j. split; [lia|done]. }
    destruct (IHn (i + 1) (set_ram (fun m => store64 m (t + 8 * i) 0) s1) l1) as (s' & l' & Hrun & Hpg & Hlist & Hbd & Hsame); [lia|lia| | |done|].
    { apply intact_write; [by intros x; apply children_some|by rewrite Ht|done|lia|done]. }
    { intros a Ha. cbn [set_ram ram]. rewrite store_other by lia. rewrite (fr_same _ _ _ _ _ Hf1); [apply Hag; lia|].
      intros x Hx Hxa. pose proof (table_page x (below_some _ _ _ Hx)). pose proof (table_page t ltac:(by rewrite Ht)).
      assert (x = t) as -> by zlia. destruct Hx as (k & q & Hx & Hk & _). rewrite Hx in Ht. simplify_eq. lia. }
    exists s', l'. split_and!.
    + rewrite <- Hrun. apply free_table_entries_child; rewrite He; [done|by apply (pt_pointer _ _ Hinv _ _ _ _ Ht); [lia|]|done].
    + done.
    + intros x. rewrite Hlist, (fr_list _ _ _ _ _ Hf1). split.
      * intros [[Hx|Hx]|(j & Hj & Hx)]; [by left|right; exists i; split; [lia|done]|right; exists j; split; [lia|done]].
      * intros [Hx|(j & Hj & Hx)]; [by left; left|]. destruct (decide (j = i)) as [->|]; [by left; right|right; exists j; split; [lia|done]].
    + etrans; [apply Hf1|exact Hbd].
    + intros a Ha Hta. rewrite Hsame; [|intros x (j & Hj & Hx); apply Ha; exists j; split; [lia|done]|done]. cbn [set_ram ram].
      rewrite store_other by lia. apply (fr_same _ _ _ _ _ Hf1). intros x Hx. apply Ha. exists i. split; [lia|done].
  - rewrite free_table_entries_skip by by rewrite He.
    assert (forall x, children lv pre i x <-> children lv pre (i + 1) x) as Hsame.
    { intros x. split; intros (j & Hj & Hx); exists j; (split; [|done]); [|lia]. destruct (decide (j = i)) as [->|]; [|lia].
      destruct (below_top Hinv lv _ x Hx ltac:(lia)) as [y Hy]. destruct (child_entry Hinv Htop t y lv pre i Ht Hy Hlv ltac:(lia)) as [Hb' _]. congruence. }
    destruct (IHn (i + 1) s l) as (s' & l' & Hrun & Hpg & Hlist & Hbd & Hframe); [lia|lia| | |done|].
    { eapply intact_mono; [|exact Hin]. intros x Hx. by apply Hsame. }
    { intros a Ha. apply Hag. lia. }
    exists s', l'. split_and!; try done; [|by intros a Ha; apply Hframe; intros x Hx; apply Ha, Hsame]. intros x. by rewrite Hlist, Hsame.
Qed.

Lemma free_table_pages lv : forall t pre s l,
  (lv <= 2)%nat -> T !! t = Some (lv, pre) -> intact (below T lv pre) s l ->
  exists s' l', free_pagetable_pages (S lv) t s = Ret tt s' /\ freed (below T lv pre) s s' l l'.
Proof.
  induction lv as [|lv IH]; intros t pre s l Hlv Ht Hin.
  - rewrite free_pagetable_pages_S. pose proof (table_page t ltac:(by rewrite Ht)) as Htp. rewrite (proj2 (Z.eqb_neq _ _)) by lia.
    assert (below T 0 pre t) as Hbt by (by apply (below_0 Hinv Htop t)).
    rewrite (kbind_ret _ _ _ tt s).
    2: { apply free_table_entries_none. intros j Hj. rewrite (load_agree 8 m); [by apply (Hleaf t pre); [|lia]|].
      intros b Hb. apply (in_same _ _ _ _ Hin t Hbt). lia. }
    destruct (free_page_correct s l t) as (s' & Hrun & Hpg & Hst & Hen & Hmem); [apply Hin|by apply Hin|by apply Hin|].
    exists s', (t :: l). split; [done|]. split; [done| |done|].
    + intros x. rewrite elem_of_cons, (below_0 Hinv Htop t) by done. tauto.
    + intros a Ha. apply Hmem. specialize (Ha t Hbt). lia.
  - rewrite free_pagetable_pages_S. pose proof (table_page t ltac:(by rewrite Ht)) as Htp. rewrite (proj2 (Z.eqb_neq _ _)) by lia.
    assert (below T (S lv) pre t) as Hbt by (apply (below_S Hinv Htop t); [done|by left]).
    assert (forall x, children lv pre 0 x -> below T (S lv) pre x) as Hsub by (intros x Hx; apply (below_S Hinv Htop t); [done|by right]).
    destruct (free_children lv t pre ltac:(lia) Ht (fun t' pre' s l => IH t' pre' s l ltac:(lia)) 512 0 s l) as (s1 & l1 & Hrun1 & Hpg1 & Hl1 & Hbd1 & Hs1);
      [lia|lia|by eapply intact_mono| |by apply Hin|].
    { intros a Ha. apply (in_same _ _ _ _ Hin t Hbt). lia. }
    rewrite (kbind_ret _ _ _ _ _ Hrun1). destruct (free_page_correct s1 l1 t Hpg1) as (s' & Hrun & Hpg & Hst & Hen & Hmem).
    { destruct Hbd1. eapply page_ok_ext; [| |by apply (in_page _ _ _ _ Hin)]; done. }
    { intros [Hx|Hx]%Hl1; [by apply (in_used _ _ _ _ Hin t)|]. by destruct (children_some lv pre 0 t t Ht Hx). }
    exists s', (t :: l1). split; [done|]. split; [done| |by etrans; [exact Hbd1|]|].
    + intros x. rewrite elem_of_cons, Hl1, (below_S Hinv Htop t) by done. unfold children. tauto.
    + intros a Ha. rewrite Hmem by (specialize (Ha t Hbt); lia). apply Hs1; [by intros x Hx; apply Ha, Hsub|by apply Ha].
Qed.
End free_tree.

(** ** All tables of an address space *)

Lemma below_root s root T l x : vm_ok s root T l -> below T 2 0 x <-> is_Some (T !! x).
Proof.
  intros [V1 V2 V3 V4 V5]. split; [intros (k & q & Hx & _); by exists (k, q)|]. intros [[k q] Hx]. exists k, q. split; [done|].
  destruct (V5 x k q Hx) as [->|[Hk Hq]]; [rewrite V4 in Hx; by simplify_eq|]. split; [lia|]. apply Z.div_small.
  destruct k as [|[|k]]; [|..|lia].
  - change (2 ^ _) with 131072 in Hq. change (512 ^ _) with 262144. lia.
  - change (2 ^ _) with 256 in Hq. change (512 ^ _) with 512. lia.
Qed.

(** When no address is mapped the leaf tables are empty. *)
Lemma unmapped_leaf s root T l t pre i :
  vm_ok s root T l -> (forall va, 0 <= va < MAXVA -> translate (ram s) root va = None) ->
  T !! t = Some (0%nat, pre) -> 0 <= i < 512 -> Z.testbit (load64 (ram s) (t + 8 * i)) 0 = false.
Proof.
  intros Hok Hnone Ht Hi. destruct (vm_top _ _ _ _ Hok t _ _ Ht) as [->|[_ Hpre]]; [rewrite (vm_root _ _ _ _ Hok) in Ht; by simplify_eq|].
  change (2 ^ (17 - 9 * Z.of_nat 0)) with 131072 in Hpre. set (va := (pre * 512 + i) * 4096).
  assert (0 <= va < MAXVA) as Hva by (change MAXVA with 0x4000000000; lia).
  assert (prefix 0 va = pre) as Hp by (unfold prefix; change (2 ^ _) with 2097152; subst va; zlia).
  assert (PX 0 va = i) as Hpx by (rewrite PX_eq by lia; change (2 ^ _) with 4096; subst va; zlia).
  pose proof (leaf_path (vm_inv _ _ _ _ Hok) (vm_top _ _ _ _ Hok) 2 t root va ltac:(lia) ltac:(lia) ltac:(by rewrite Hp) ltac:(by eapply vm_root_prefix)) as Hs.
  pose proof (Hnone va Hva) as Hn. unfold translate, leaf_pte in Hn. rewrite Hs in Hn. cbn [mbind option_bind] in Hn. rewrite Hpx in Hn. by case_match.
Qed.

Lemma free_all_tables s root T l :
  vm_ok s root T l -> (forall va, 0 <= va < MAXVA -> translate (ram s) root va = None) -> (forall t, is_Some (T !! t) -> page_ok (pages s) t) ->
  exists s' l', free_pagetable_pages 3 root s = Ret tt s' /\ freed (fun x => is_Some (T !! x)) s s' l l'.
Proof.
  intros Hok Hnone Hpage. pose proof (below_root s root T l) as Hb.
  destruct (free_table_pages (vm_inv _ _ _ _ Hok) (vm_top _ _ _ _ Hok) (fun t pre i => unmapped_leaf s root T l t pre i Hok Hnone) 2 root 0 s l)
    as (s' & l' & Hrun & [F1 F2 F3 F4]); [lia|apply Hok| |].
  - split; [apply Hok|done| |].
    + intros x Hx. apply Hpage. by apply (Hb x Hok).
    + intros x Hx Hl. apply (Hb x Hok) in Hx. rewrite (vm_free _ _ _ _ Hok x Hl) in Hx. by destruct Hx.
  - exists s', l'. split; [done|]. split; [done| |done|].
    + intros x. by rewrite F2, (Hb x Hok).
    + intros a Ha. apply F4. intros x Hx. apply Ha. by apply (Hb x Hok).
Qed.

(** ** What an address space owns *)

Definition shared (info : mmap_info) : bool := negb (Z.land (mflags info) MAP_SHARED =? 0).

(** A mapping of [mmap_infos] with the entries of its pages. *)
Record mapped_as (s : machine) (root : Z) (info : mmap_info) (es : list Z) : Prop := {
  ma_align : start info mod 4096 = 0;
  ma_range : 0 <= start info /\ start info + size info <= MAXVA;
  ma_size : size info = Z.of_nat (length es) * 4096;
  ma_some : es <> [];
  ma_entry : forall i e, es !! i = Some e -> translate (ram s) root (start info + Z.of_nat i * 4096) = Some e /\ PTE_FLAGS e <> PTE_V
}.

(** The pages that belong to the space: those of the mappings that are not shared. *)
Definition owned_by (x : mmap_info * list Z) : list Z := if shared (fst x) then [] else PTE2PA <$> snd x.
Definition owned (L : list (mmap_info * list Z)) : list Z := concat (owned_by <$> L).

Definition apart_infos (a b : mmap_info * list Z) : Prop :=
  start (fst a) + size (fst a) <= start (fst b) \/ start (fst b) + size (fst b) <= start (fst a).

(** The mappings [L] are what an address space has; its pages and its tables
    are not free. *)
Record holds (s : machine) (root : Z) (T : gmap Z (nat * Z)) (l : list Z) (L : list (mmap_info * list Z)) : Prop := {
  ho_vm : vm_ok s root T l;
  ho_maps : forall x, x ∈ L -> mapped_as s root (fst x) (snd x);
  ho_apart : ForallOrdPairs apart_infos L;
  ho_only : forall va, 0 <= va < MAXVA -> is_Some (translate (ram s) root va) ->
    exists x, x ∈ L /\ start (fst x) <= va < start (fst x) + size (fst x);
  ho_nodup : NoDup (owned L);
  ho_page : forall p, p ∈ owned L -> page_ok (pages s) p /\ p ∉ l /\ T !! p = None;
  ho_tables : forall t, is_Some (T !! t) -> page_ok (pages s) t
}.

Lemma owned_cons x L : owned (x :: L) = owned_by x ++ owned L.
Proof. done. Qed.

Lemma uvmunmap_as_loop n root va do_free :
  va mod 4096 = 0 -> 0 <= va -> (0 < n)%nat -> va + Z.of_nat n * 4096 <= MAXVA ->
  uvmunmap n root va (Z.of_nat n * 4096) do_free = uvmunmap_loop n root va (va + (Z.of_nat n - 1) * 4096) do_free.
Proof.
  intros Hal Hva Hn Hmax. assert (MAXVA = 2 ^ 38) as HM by done. unfold uvmunmap, PGSIZE. rewrite Hal, Z.mod_mul by lia.
  cbn [Z.eqb negb orb]. rewrite u64_small, PGROUNDDOWN_eq by lia. f_equal. zlia.
Qed.

(** One mapping goes. *)
Lemma unmap_info s root T l x L :
  holds s root T l (x :: L) ->
  exists s' l', uvmunmap (Nat.max 1 (npages (size (fst x)))) root (start (fst x)) (size (fst x)) (Z.land (mflags (fst x)) MAP_SHARED =? 0) s = Ret tt s' /\
    holds s' root T l' L /\ (forall p, p ∈ l' <-> p ∈ l \/ p ∈ owned_by x) /\ same_bounds s s'.
Proof.
  intros [S1 S2 S3 S4 S5 S6 S7]. destruct x as [info es]. destruct (S2 (info, es) ltac:(by left)) as [M1 M2 M3 M4 M5].
  rewrite owned_cons in S5, S6. apply NoDup_app in S5 as (N1 & N2 & N3).
  cbn [fst snd] in *. set (df := Z.land (mflags info) MAP_SHARED =? 0).
  assert (owned_by (info, es) = if df then PTE2PA <$> es else []) as Hown by (unfold owned_by, shared; cbn [fst snd]; fold df; by destruct df).
  rewrite Hown in *.
  assert (0 < length es)%nat as Hlen by (destruct es; [done|cbn [length]; lia]). rewrite M3 in *. rewrite npages_exact, Nat.max_r, uvmunmap_as_loop by lia.
  destruct (uvmunmap_loop_correct es (start info) s root T l df) as (s' & Hrun & Hv & Htr);
    [apply S1|done|lia|done|lia|done| |].
  { intros ->. split; [done|]. intros e He. apply S6, elem_of_app. left. by apply list_elem_of_fmap_2. }
  pose proof (uvmunmap_bounds _ _ _ _ _ s tt s' Hrun) as [Hst Hen]. inversion_clear S3 as [|? ? Hd Hds]. rewrite Forall_forall in Hd.
  assert (forall p, p ∈ (if df then rev (PTE2PA <$> es) ++ l else l) <-> p ∈ l \/ p ∈ (if df then PTE2PA <$> es else [])) as Hl.
  { intros p. destruct df; [rewrite elem_of_app, <- Permutation_rev|rewrite elem_of_nil]; tauto. }
  eexists s', _. split; [exact Hrun|]. split; [|done]. split; try done.
  - intros y Hy. destruct (S2 y ltac:(by right)) as [Y1 Y2 Y3 Y4 Y5]. split; try done. intros i e He. destruct (Y5 i e He) as [Hte Hfl].
    split; [|done]. pose proof (lookup_lt_Some _ _ _ He). destruct (Hd y Hy) as [Ha|Ha]; cbn [fst] in Ha; rewrite Htr, decide_False by lia; done.
  - intros va Hva [e He]. rewrite Htr in He by done. case_decide as Hr; [done|]. destruct (S4 va Hva ltac:(by exists e)) as (y & [->|Hy]%elem_of_cons & Hin); [|by exists y].
    cbn [fst] in Hin. lia.
  - intros p Hp. destruct (S6 p) as (Hpo & Hnl & HT); [apply elem_of_app; by right|]. split_and!; [by eapply page_ok_ext| |done].
    rewrite Hl. intros [|Hin]; [done|]. by apply (N2 p Hin).
  - intros t Ht. eapply page_ok_ext; [exact Hst|exact Hen|by apply S7].
Qed.

Lemma unmap_all L : forall u T l,
  holds (um u) (pagetable u) T l L ->
  exists s' l', unmap_infos (fst <$> L) u = Ret tt (set_um s' u) /\ holds s' (pagetable u) T l' [] /\
    (forall p, p ∈ l' <-> p ∈ l \/ p ∈ owned L) /\ same_bounds (um u) s'.
Proof.
  induction L as [|x L IH]; intros u T l Hh.
  { exists (um u), l. split_and!; [by destruct u|done| |done]. intros p. rewrite elem_of_nil. tauto. }
  destruct (unmap_info _ _ _ _ _ _ Hh) as (s1 & l1 & Hrun1 & Hh1 & Hl1 & Hb1).
  destruct (IH (set_um s1 u) T l1 Hh1) as (s' & l' & Hrun & Hh' & Hl & Hb). exists s', l'. split_and!.
  - cbn [unmap_infos fmap list_fmap]. unfold kbind at 1, kget. unfold kbind at 1, vm. rewrite Hrun1. exact Hrun.
  - done.
  - intros p. rewrite Hl, Hl1, owned_cons, elem_of_app. tauto.
  - by etrans.
Qed.

(** Taking down an address space frees its pages and its tables. *)
Lemma free_pagetable_run u T l L :
  holds (um u) (pagetable u) T l L -> mmap_infos u = fst <$> L ->
  exists s' l', __free_pagetable u = Ret tt (set_pagetable 0 (set_infos [] (set_um s' u))) /\ pages_inv s' l' /\
    (forall p, p ∈ l' <-> p ∈ l \/ p ∈ owned L \/ is_Some (T !! p)).
Proof.
  intros Hh Hinfos. destruct (unmap_all L u T l Hh) as (s1 & l1 & Hrun1 & Hh1 & Hl1 & Hb1).
  destruct (free_all_tables s1 (pagetable u) T l1) as (s' & l' & Hrun & Hf); [apply Hh1| |apply Hh1|].
  { intros va Hva. destruct (translate (ram s1) (pagetable u) va) as [e|] eqn:He; [|done].
    destruct (ho_only _ _ _ _ _ Hh1 va Hva ltac:(by exists e)) as (x & Hx%elem_of_nil & _). done. }
  exists s', l'. split; [|split; [apply Hf|]].
  - unfold __free_pagetable. unfold kbind at 1, kget. rewrite Hinfos, (kbind_ret _ _ _ _ _ Hrun1). unfold kbind at 1, kmodify.
    pose proof (pt_page _ _ (vm_inv _ _ _ _ (ho_vm _ _ _ _ _ Hh)) _ _ _ (vm_root _ _ _ _ (ho_vm _ _ _ _ _ Hh))) as Hr.
    rewrite (proj2 (Z.eqb_neq _ _)) by lia. cbn [negb]. unfold kbind, vm. cbn [set_infos set_um um]. by rewrite Hrun.
  - intros p. rewrite (fr_list _ _ _ _ _ Hf), Hl1. tauto.
Qed.

(** ** Adding a mapping *)

Lemma ordpairs_snoc {A : Type} (R : A -> A -> Prop) l x : ForallOrdPairs R l -> Forall (fun y => R y x) l -> ForallOrdPairs R (l ++ [x]).
Proof.
  induction 1 as [|y l Hy Hl IH]; intros Hx; cbn [app]; [by repeat constructor|]. apply Forall_cons in Hx as [Hyx Hx].
  constructor; [|by apply IH]. apply Forall_app. by split; [|constructor].
Qed.

Lemma owned_snoc x L : owned (L ++ [x]) = owned L ++ owned_by x.
Proof. unfold owned. rewrite fmap_app, concat_app. cbn. by rewrite app_nil_r. Qed.

Lemma holds_map s s' root T T' l l' L info es :
  holds s root T l L -> vm_ok s' root T' l' -> grown s s' T T' l l' -> mapped_as s' root info es ->
  (forall va, start info <= va < start info + size info -> translate (ram s) root va = None) ->
  (forall va, 0 <= va < MAXVA -> ~ start info <= va < start info + size info -> translate (ram s') root va = translate (ram s) root va) ->
  NoDup (owned_by (info, es)) ->
  (forall p, p ∈ owned_by (info, es) -> page_ok (pages s') p /\ p ∉ l' /\ T' !! p = None /\ p ∉ owned L) ->
  holds s' root T' l' (L ++ [(info, es)]).
Proof.
  intros [H1 H2 H3 H4 H5 H6 H7] Hv Hg Hm Hnone Hsame Hnd Hnew. pose proof Hm as [M1 M2 M3 M4 M5].
  assert (forall y, y ∈ L -> apart_infos y (info, es)) as Hap.
  { intros y Hy. destruct (H2 y Hy) as [Y1 Y2 Y3 Y4 Y5]. unfold apart_infos. cbn [fst snd] in *.
    destruct (decide (start (fst y) + size (fst y) <= start info)) as [|Hn1]; [by left|].
    destruct (decide (start info + size info <= start (fst y))) as [|Hn2]; [by right|]. exfalso.
    set (va := Z.max (start info) (start (fst y))). set (i := Z.to_nat ((va - start (fst y)) / 4096)).
    assert (va = start (fst y) + Z.of_nat i * 4096) as Hva by (subst va i; zlia).
    assert (0 < length (snd y))%nat by (destruct (snd y); [done|cbn [length]; lia]). assert (0 < length es)%nat by (destruct es; [done|cbn [length]; lia]).
    destruct (lookup_lt_is_Some_2 (snd y) i) as [e He]; [subst va i; zlia|]. destruct (Y5 i e He) as [Hte _]. rewrite <- Hva in Hte.
    rewrite Hnone in Hte; [done|]. subst va. lia. }
  split; try done.
  - intros x [Hx|Hx%list_elem_of_singleton]%elem_of_app; [|by rewrite Hx]. destruct (H2 x Hx) as [Y1 Y2 Y3 Y4 Y5]. split; try done.
    intros i e He. destruct (Y5 i e He) as [Hte Hfl]. split; [|done]. pose proof (lookup_lt_Some _ _ _ He).
    rewrite Hsame; [done|lia|]. destruct (Hap x Hx) as [Ha|Ha]; cbn [fst] in Ha; lia.
  - apply ordpairs_snoc; [done|]. apply Forall_forall. exact Hap.
  - intros va Hva Hs. destruct (decide (start info <= va < start info + size info)) as [Hin|Hout].
    + exists (info, es). split; [apply elem_of_app; right; by left|done].
    + rewrite Hsame in Hs by done. destruct (H4 va Hva Hs) as (x & Hx & Hr). exists x. split; [apply elem_of_app; by left|done].
  - rewrite owned_snoc. apply NoDup_app. split_and!; [done| |done]. intros p Hp Hp'. by destruct (Hnew p Hp') as (_ & _ & _ & ?).
  - intros p. rewrite owned_snoc. intros [Hp|Hp]%elem_of_app; [|destruct (Hnew p Hp) as (? & ? & ? & _); done].
    destruct (H6 p Hp) as (Hpo & Hnl & HT). destruct (grown_fresh _ _ _ _ _ _ _ Hg Hnl HT). split_and!; try done.
    eapply page_ok_ext; [apply Hg|apply Hg|done].
  - intros t Ht. destruct Hg as [G1 G2 G3 G4 G5 G6]. eapply page_ok_ext; [exact G4|exact G5|]. destruct (G3 t Ht) as [Ht'|[Hin _]]; [by apply H7|].
    by destruct (pages_inv_free_pages _ _ t (vm_pages _ _ _ _ H1) Hin).
Qed.

(** The tables grew, what is mapped stays. *)
Lemma holds_undone s s' root T T' l l' L :
  holds s root T l L -> vm_ok s' root T' l' -> undone s s' T T' l l' ->
  (forall va, 0 <= va < MAXVA -> translate (ram s') root va = translate (ram s) root va) -> holds s' root T' l' L.
Proof.
  intros [H1 H2 H3 H4 H5 H6 H7] Hv [[B1 B2] U2 U3 U4 U5] Htr. split; try done.
  - intros x Hx. destruct (H2 x Hx) as [Y1 Y2 Y3 Y4 Y5]. split; try done. intros i e He. pose proof (lookup_lt_Some _ _ _ He).
    rewrite Htr by lia. by apply Y5.
  - intros va Hva. rewrite Htr by done. by apply H4.
  - intros p Hp. destruct (H6 p Hp) as (Q1 & Q2 & Q3). split_and!; [by eapply page_ok_ext|by intros ?%U3|].
    destruct (T' !! p) eqn:E; [|done]. destruct (U4 p) as [[x Hx]|]; [by eexists|congruence|done].
  - intros t Ht. eapply page_ok_ext; [exact B1|exact B2|]. destruct (U4 t Ht) as [|Hin]; [by apply H7|].
    by destruct (pages_inv_free_pages _ _ t (vm_pages _ _ _ _ H1) Hin).
Qed.

(** Every page that was free when the process came is free, a table, owned or among
    the lost ones [X], and the first three kinds were free then. *)
Definition accounted (l0 : list Z) (T : gmap Z (nat * Z)) (l : list Z) (L : list (mmap_info * list Z)) (X : list Z) : Prop :=
  (forall p, p ∈ l \/ p ∈ owned L \/ is_Some (T !! p) -> p ∈ l0) /\
  (forall p, p ∈ l0 -> p ∈ l \/ p ∈ owned L \/ is_Some (T !! p) \/ p ∈ X).

Lemma accounted_map l0 s s' T T' l l' L x X :
  accounted l0 T l L X -> grown s s' T T' l l' -> (forall p, p ∈ l -> p ∈ l' \/ is_Some (T' !! p) \/ p ∈ owned_by x) ->
  (forall p, p ∈ owned_by x -> p ∈ l0) -> accounted l0 T' l' (L ++ [x]) X.
Proof.
  intros [H1 H2] Hg Hus Hx. split; intros p; rewrite owned_snoc, elem_of_app.
  - intros [Hl|[[Ho|Ho]|Ht]]; [|by apply H1; tauto|by apply Hx|].
    + apply H1. left. by apply (gr_free _ _ _ _ _ _ Hg).
    + apply H1. destruct (gr_new _ _ _ _ _ _ Hg p Ht) as [|[? _]]; tauto.
  - intros [Hl|[Ho|[[y Hy]|HX]]]%H2; [|tauto| |tauto].
    + destruct (Hus p Hl) as [|[|]]; tauto.
    + right; right; left. exists y. eapply lookup_weaken; [done|apply Hg].
Qed.

Lemma accounted_undone l0 s s' T T' l l' L X :
  accounted l0 T l L X -> undone s s' T T' l l' -> exists X', (length X' <= length X + 1)%nat /\ accounted l0 T' l' L X'.
Proof.
  intros [H1 H2] [_ U2 U3 U4 (Y & HY & U5)]. exists (Y ++ X). split; [rewrite length_app; lia|]. split; intros p.
  - intros [Hl%U3|[Ho|Ht]]; [by apply H1; left|by apply H1; right; left|]. apply H1. destruct (U4 p Ht); tauto.
  - rewrite elem_of_app. intros [Hl|[Ho|[[y Hy]|HX]]]%H2; [|tauto| |tauto].
    + destruct (U5 p Hl) as [|[|]]; tauto.
    + right; right; left. exists y. by eapply lookup_weaken.
Qed.

(** At the end: nothing but the lost pages is missing. *)
Lemma accounted_end l0 T l L X l3 :
  accounted l0 T l L X -> NoDup l0 -> NoDup l3 -> (forall p, p ∈ l3 <-> p ∈ l \/ p ∈ owned L \/ is_Some (T !! p)) ->
  l3 ⊆+ l0 /\ (length l0 <= length l3 + length X)%nat.
Proof.
  intros [H1 H2] Hnd Hnd3 Hl3. split.
  - apply NoDup_submseteq; [done|]. intros p Hp%Hl3. by apply H1.
  - rewrite <- length_app. apply submseteq_length, NoDup_submseteq; [done|]. intros p Hp%H2. rewrite elem_of_app, Hl3. tauto.
Qed.

(** The state of a process: [l0] was free before it came, [X] is lost. *)
Record space_ok (l0 : list Z) (u : uspace) (T : gmap Z (nat * Z)) (l : list Z) (L : list (mmap_info * list Z)) (X : list Z) : Prop := {
  sp_uok : uok (um u) (pagetable u) T l;
  sp_holds : holds (um u) (pagetable u) T l L;
  sp_infos : mmap_infos u = fst <$> L;
  sp_accounted : accounted l0 T l L X
}.

Lemma not_shared flags : Z.land (Z.land flags (Z.lnot MAP_SHARED)) MAP_SHARED = 0.
Proof. by rewrite <- Z.land_assoc, (Z.land_comm (Z.lnot _)), Z.land_lnot_diag, Z.land_0_r. Qed.

Lemma mapped_pages perm (ps : list Z) :
  user_perm perm -> (forall p, p ∈ ps -> p mod 4096 = 0 /\ 0 < p < 2 ^ 56) -> PTE2PA <$> ((fun p => map_pte p perm) <$> ps) = ps.
Proof.
  intros [Hr _] Hps. rewrite <- list_fmap_compose. rewrite <- (list_fmap_id ps) at 2. apply list_fmap_ext. intros i p Hp.
  apply list_elem_of_lookup_2, Hps in Hp as [Hm Hp]. by destruct (map_pte_page p perm Hm Hp Hr).
Qed.

(** [__mmap] keeps the invariant, and loses a page at most when it fails. *)
Lemma space_mmap l0 u r u' T l L X va n flags perm :
  space_ok l0 u T l L X -> va mod 4096 = 0 -> 0 <= va -> (0 < n)%nat -> va + Z.of_nat n * 4096 <= MAXVA -> user_perm perm ->
  (forall va', va <= va' < va + Z.of_nat n * 4096 -> translate (ram (um u)) (pagetable u) va' = None) ->
  mmap va (Z.of_nat n * 4096) flags perm u = Ret r u' ->
  exists T' l' L' X', space_ok l0 u' T' l' L' X' /\ (length X' <= length X + if Z.eqb r 0 then 0 else 1)%nat.
Proof.
  intros [S1 S2 S3 S4] Hal Hva Hn Hmax Hperm Hnone Hrun0.
  destruct (mmap_spec u T l va n flags perm S1 Hal Hva Hmax Hperm Hnone) as (r' & s' & infos & T' & l' & Hrun & Hu' & Hres).
  rewrite Hrun0 in Hrun. injection Hrun as <- ->.
  destruct Hres as [(-> & -> & Hg & _ & ps & Hlen & [M1 M2 M3] & Hus)|(-> & -> & _ & Hun & Htr)].
  2:{ destruct (accounted_undone _ _ _ _ _ _ _ _ _ S4 Hun) as (X' & HX' & Hac). exists T', l', L, X'.
      split; [|done]. split; [done| |done|done]. apply (holds_undone (um u) s' _ T T' l l'); [done|apply Hu'|done|done]. }
  assert (forall p, p ∈ ps -> p mod 4096 = 0 /\ 0 < p < 2 ^ 56) as Hps.
  { intros p Hp%M1. by destruct (pages_inv_free_pages _ _ p (vm_pages _ _ _ _ (uo_vm _ _ _ _ S1)) Hp) as [[Hp1 _] Hp2]. }
  pose proof (mapped_pages perm ps Hperm Hps) as Hpg. pose proof Hperm as [Hpr Hpb].
  assert (forall i p, ps !! i = Some p -> 0 <= va + Z.of_nat i * 4096 < MAXVA /\ translate (ram s') (pagetable u) (va + Z.of_nat i * 4096) = Some (map_pte p perm)) as Hi.
  { intros i p Hip. pose proof (lookup_lt_Some _ _ _ Hip). split; [lia|]. apply (M2 i p); [done|lia]. }
  assert (forall p, p ∈ ps -> PTE2PA (map_pte p perm) = p /\ PTE_FLAGS (map_pte p perm) <> PTE_V /\ Z.testbit (map_pte p perm) 4 = true) as Hpte.
  { intros p Hp. destruct (Hps p Hp) as [Hpm Hpp]. destruct (map_pte_page p perm Hpm Hpp Hpr) as (-> & -> & ->). split_and!; [done|by apply user_perm_flags|done]. }
  set (info := MmapInfo va (Z.of_nat n * 4096) (Z.land flags (Z.lnot MAP_SHARED)) perm).
  set (es := (fun p => map_pte p perm) <$> ps) in *.
  assert (owned_by (info, es) = ps) as Hown by (unfold owned_by, shared; cbn [fst snd mflags info]; by rewrite not_shared, Hpg).
  exists T', l', (L ++ [(info, es)]), X. split; [|cbn; lia]. split; cbn [set_infos set_um um pagetable mmap_infos].
  - done.
  - apply (holds_map (um u) s' (pagetable u) T T' l l'); try done; cbn [start size info].
    + apply Hu'.
    + split; cbn [start size info]; [done|lia|unfold es; by rewrite length_fmap, Hlen|unfold es; by destruct ps; [cbn in Hlen; lia|]|].
      intros i e He. unfold es in He. rewrite list_lookup_fmap in He. destruct (ps !! i) as [p|] eqn:Hip; [|done]. injection He as <-.
      split; [by apply Hi|]. apply list_elem_of_lookup_2 in Hip. by apply Hpte.
    + intros va' Hr Hout. apply M3; [done|by rewrite Hlen].
    + rewrite Hown. apply NoDup_alt. intros i j p Hip Hjp. destruct (Hi i p Hip) as [Hir Hie]. destruct (Hi j p Hjp) as [Hjr Hje].
      destruct (Hpte p) as (_ & _ & Hb); [by apply list_elem_of_lookup_2 in Hip|].
      pose proof (uo_inj _ _ _ _ Hu' _ _ _ _ Hir Hjr Hie Hje Hb Hb eq_refl). zlia.
    + intros p. rewrite Hown. intros Hp. pose proof Hp as [i Hip]%list_elem_of_lookup_1. destruct (Hi i p Hip) as [Hir Hie]. destruct (Hpte p Hp) as (Hpa & _ & Hb).
      destruct (uo_page _ _ _ _ Hu' _ _ Hir Hie Hb) as (Q1 & Q2 & Q3). rewrite Hpa in *. split_and!; try done.
      intros Ho. destruct (ho_page _ _ _ _ _ S2 p Ho) as (_ & Hnl & _). by apply Hnl, M1.
  - by rewrite S3, fmap_app.
  - apply (accounted_map l0 (um u) s' T T' l l'); [done|done|by rewrite Hown|]. rewrite Hown. intros p Hp%M1. apply (proj1 S4). by left.
Qed.

(** Writes to memory that is neither a table nor free keep it. *)
Lemma space_write l0 u T l L X f :
  space_ok l0 u T l L X -> tables_agree T (ram (um u)) (f (ram (um u))) ->
  (forall p, p ∈ l -> load64 (f (ram (um u))) p = load64 (ram (um u)) p) ->
  space_ok l0 (set_um (set_ram f (um u)) u) T l L X.
Proof.
  intros [S1 S2 S3 S4] Hag Hfr. pose proof (vm_data_write _ _ _ _ f (uo_vm _ _ _ _ S1) Hag Hfr) as Hv.
  destruct (uok_data _ (set_ram f (um u)) _ _ _ S1 Hv Hag eq_refl) as [Hu Htr]. split; try done. cbn [set_um um pagetable].
  destruct S2 as [H1 H2 H3 H4 H5 H6 H7]. split; try done.
  - intros x Hx. destruct (H2 x Hx) as [Y1 Y2 Y3 Y4 Y5]. split; try done. intros i e He. pose proof (lookup_lt_Some _ _ _ He).
    rewrite Htr by lia. by apply Y5.
  - intros va Hva. rewrite Htr by done. by apply H4.
Qed.

(** The process writes to memory that it can reach. *)
Definition user_writes (m m' : memory) (root : Z) : Prop :=
  forall a, rd8 m' a <> rd8 m a -> exists va e, 0 <= va < MAXVA /\ translate m root va = Some e /\ Z.testbit e 4 = true /\
    PTE2PA e <= a < PTE2PA e + 4096.

Lemma space_user l0 u T l L X f :
  space_ok l0 u T l L X -> user_writes (ram (um u)) (f (ram (um u))) (pagetable u) -> space_ok l0 (set_um (set_ram f (um u)) u) T l L X.
Proof.
  intros Hs Hw. pose proof (sp_uok _ _ _ _ _ _ Hs) as Hu.
  assert (forall q a, q <= a < q + 4096 -> q mod 4096 = 0 -> q ∈ l \/ is_Some (T !! q) -> rd8 (f (ram (um u))) a = rd8 (ram (um u)) a) as Hkeep.
  { intros q a Ha Hq Hor. destruct (decide (rd8 (f (ram (um u))) a = rd8 (ram (um u)) a)) as [|Hne]; [done|].
    destruct (Hw a Hne) as (va & e & Hva & He & Hb & Hr). destruct (uo_page _ _ _ _ Hu va e Hva He Hb) as ([Hal _] & Hnl & HT). unfold PGSIZE in Hal.
    assert (q = PTE2PA e) as -> by zlia. destruct Hor as [|[x Hx]]; [done|congruence]. }
  apply space_write; [done|..].
  - intros t Ht a Ha. apply (Hkeep t); [lia| |by right]. destruct Ht as [[k q] Ht]. by apply (pt_page _ _ (vm_inv _ _ _ _ (uo_vm _ _ _ _ Hu)) _ _ _ Ht).
  - intros p Hp. apply load_agree. intros a Ha. destruct (pages_inv_free_pages _ _ p (vm_pages _ _ _ _ (uo_vm _ _ _ _ Hu)) Hp) as [[Hal _] _].
    apply (Hkeep p); [lia|done|by left].
Qed.

(** ** Setting up an address space *)

(** A page of zeros is an empty table. *)
Lemma empty_table s r l :
  pages_inv s (r :: l) -> exists s', create_empty_user_pagetable s = Ret r s' /\ vm_ok s' r {[r := (2%nat, 0)]} l /\ same_bounds s s' /\
    forall va, translate (ram s') r va = None.
Proof.
  intros Hpg. destruct (alloc_page_correct s (r :: l) Hpg) as (s1 & Hrun & Hpg1 & Hram & Hst & Hen).
  destruct (pages_inv_free_pages _ _ r Hpg) as [[Hal Hr] Hrng]; [by left|]. unfold PGSIZE in Hal.
  exists (set_ram (fun m => memset m r 0 (Z.to_nat PGSIZE)) s1).
  assert (forall i, 0 <= i < 512 -> load64 (memset (ram s1) r 0 (Z.to_nat PGSIZE)) (r + 8 * i) = 0) as Hz.
  { intros i Hi. apply (memset_zero_load _ _ _ 8); unfold PGSIZE; lia. }
  split; [|split; [|split]].
  - unfold create_empty_user_pagetable. rewrite (kbind_ret _ _ _ _ _ Hrun), (proj2 (Z.eqb_neq _ _)) by lia. reflexivity.
  - split.
    + split.
      * intros t lv pre [<- _]%lookup_singleton_Some. done.
      * intros t lv pre i [<- _]%lookup_singleton_Some Hi. cbn [set_ram ram]. by rewrite Hz.
      * intros t lv pre i [<- _]%lookup_singleton_Some Hi. cbn [set_ram ram]. by rewrite Hz.
      * intros t lv pre [_ [= <- <-]]%lookup_singleton_Some Hlt. lia.
    + apply pages_inv_client_write; [done|]. intros p Hp. destruct (pages_inv_free_pages _ _ p Hpg) as [[Hpal _] _]; [by right|]. unfold PGSIZE in Hpal.
      pose proof (pi_nodup _ _ Hpg) as [Hnin _]%NoDup_cons. assert (p <> r) by congruence. apply (memset_load _ _ _ _ 8). unfold PGSIZE. zlia.
    + intros p Hp. apply lookup_singleton_None. intros ->. by pose proof (pi_nodup _ _ Hpg) as [Hnin _]%NoDup_cons.
    + by apply lookup_singleton_Some.
    + intros t lv pre [<- _]%lookup_singleton_Some. by left.
  - split; [exact Hst|exact Hen].
  - intros va. unfold translate, leaf_pte. cbn [leaf_slot set_ram ram]. by rewrite Hz by (apply PX_range; lia).
Qed.

(** Zeroing a page that is neither a table nor free. *)
Lemma memset_page s root T l p :
  vm_ok s root T l -> p mod 4096 = 0 -> T !! p = None -> p ∉ l -> vm_ok (set_ram (fun m => memset m p 0 (Z.to_nat PGSIZE)) s) root T l /\
    tables_agree T (ram s) (memset (ram s) p 0 (Z.to_nat PGSIZE)).
Proof.
  intros Hv Hp HT Hl. assert (tables_agree T (ram s) (memset (ram s) p 0 (Z.to_nat PGSIZE))) as Hag.
  { intros t [[k q] Ht] a Ha. pose proof (pt_page _ _ (vm_inv _ _ _ _ Hv) _ _ _ Ht). assert (t <> p) by congruence. apply memset_other. unfold PGSIZE. zlia. }
  split; [|done]. apply vm_data_write; [done|done|]. intros q Hq. destruct (pages_inv_free_pages _ _ q (vm_pages _ _ _ _ Hv) Hq) as [[Hal _] _]. unfold PGSIZE in Hal.
  assert (q <> p) by congruence. apply (memset_load _ _ _ _ 8). unfold PGSIZE. zlia.
Qed.

(** [__mmap] of a page at a given address. *)
Lemma mmap_at_run u T l L va pa flags perm :
  uok (um u) (pagetable u) T l -> holds (um u) (pagetable u) T l L -> mmap_infos u = fst <$> L ->
  va mod 4096 = 0 -> 0 <= va -> va + 4096 <= MAXVA -> 0 <= perm < 1024 -> Z.lor perm 1 <> PTE_V -> pa mod 4096 = 0 -> 0 < pa < 2 ^ 56 ->
  translate (ram (um u)) (pagetable u) va = None -> (2 < length l)%nat ->
  (Z.testbit perm 4 = true -> Z.land flags MAP_SHARED = 0) ->
  (Z.land flags MAP_SHARED = 0 -> page_ok (pages (um u)) pa /\ pa ∉ l /\ T !! pa = None /\ pa ∉ owned L /\
    forall va' e', 0 <= va' < MAXVA -> translate (ram (um u)) (pagetable u) va' = Some e' -> Z.testbit e' 4 = true -> PTE2PA e' <> pa) ->
  exists s' T' l', let x := (MmapInfo va PGSIZE flags perm, [map_pte pa perm]) in
    mmap_at va pa PGSIZE flags perm u = Ret 0 (set_infos (fst <$> L ++ [x]) (set_um s' u)) /\
    uok s' (pagetable u) T' l' /\ holds s' (pagetable u) T' l' (L ++ [x]) /\ grown (um u) s' T T' l l' /\
    (length l <= length l' + 2)%nat /\ (forall q, q ∈ l -> q ∈ l' \/ is_Some (T' !! q)) /\
    (forall va', 0 <= va' < MAXVA -> translate (ram s') (pagetable u) va' =
       if decide (va' / 4096 = va / 4096) then Some (map_pte pa perm) else translate (ram (um u)) (pagetable u) va').
Proof.
  intros Hu Hh Hinf Hal Hva Hmax Hperm HpV Hpa Hpr Hnone Hfree Hus Hown.
  destruct (uvmmap_page 1 (um u) (pagetable u) T l va pa perm) as (r & s' & T' & l' & Hrun & Htg & Hlen & Hres); [apply Hu|done|done|done|lia|done|].
  destruct Hres as [(_ & -> & _)|(-> & Htr)]; [cbn [length] in Hlen; lia|]. pose proof (tables_grown_weaken _ _ _ _ _ _ Htg) as Hg.
  pose proof (vm_grown _ _ _ _ _ _ _ (uo_vm _ _ _ _ Hu) Htg) as Hv. destruct (map_pte_page pa perm Hpa Hpr ltac:(lia)) as (Hp1 & Hp2 & Hp3).
  assert (Z.land flags MAP_SHARED = 0 -> pa ∉ l' /\ T' !! pa = None) as Hfresh.
  { intros Hs. destruct (Hown Hs) as (_ & Q2 & Q3 & _). by eapply grown_fresh. }
  exists s', T', l'. split_and!; try done.
  - unfold mmap_at. unfold kbind at 1, kget. change (npages PGSIZE) with 1%nat. unfold kbind at 1, vm. rewrite Hrun. cbn [Z.ltb Z.compare].
    unfold kbind, kmodify, kret. cbn [mmap_infos set_um]. by rewrite Hinf, fmap_app.
  - apply (uok_entry (um u) s' _ T T' l l' (map_pte pa perm) va); try done; [lia|]. rewrite Hp1, Hp3. intros Hb.
    destruct (Hown (Hus Hb)) as (Q1 & _ & _ & _ & Q5). destruct (Hfresh (Hus Hb)). done.
  - apply (holds_map (um u) s' _ T T' l l'); try done.
    + split; cbn [start size length]; [done|unfold PGSIZE; lia|unfold PGSIZE; lia|done|]. intros i e [Hi <-]%list_lookup_singleton_Some. subst i.
      rewrite Z.mul_0_l, Z.add_0_r, Htr, decide_True by (done || lia). split; [done|]. by rewrite Hp2.
    + cbn [start size]. intros va' Hva'. unfold PGSIZE in Hva'. unfold translate. rewrite (leaf_pte_same_page 2 _ _ va' va) by zlia. exact Hnone.
    + cbn [start size]. intros va' Hr Hout. unfold PGSIZE in Hout. rewrite Htr, decide_False by zlia. done.
    + unfold owned_by. cbn [fst snd]. destruct (shared _); [constructor|]. apply NoDup_singleton.
    + intros p Hp. unfold owned_by, shared in Hp. cbn [fst snd mflags] in Hp. destruct (Z.land flags MAP_SHARED =? 0) eqn:E; cbn [negb] in Hp; [|by apply elem_of_nil in Hp].
      apply Z.eqb_eq in E. cbn in Hp. rewrite Hp1 in Hp. apply list_elem_of_singleton in Hp as ->. destruct (Hown E) as (Q1 & Q2 & Q3 & Q4 & Q5). destruct (Hfresh E).
      split_and!; try done. eapply page_ok_ext; [apply Hg|apply Hg|done].
  - apply Htg.
Qed.

Lemma vm_ret {A : Type} (op : K machine A) u a s : op (um u) = Ret a s -> vm op u = Ret a (set_um s u).
Proof. intros H. unfold vm. by rewrite H. Qed.

Lemma unmapped_uok s root T l : vm_ok s root T l -> (forall va, 0 <= va < MAXVA -> translate (ram s) root va = None) -> uok s root T l.
Proof. intros Hv Hn. split; [done| |]; intros va; intros; by rewrite Hn in *. Qed.

(** The root, the trap frame and the stack are taken and cleared. *)
Lemma init_pages s r tf st l :
  pages_inv s (r :: tf :: st :: l) -> exists s1 s2 s3,
    create_empty_user_pagetable s = Ret r s1 /\ alloc_page s1 = Ret tf s2 /\ alloc_page s2 = Ret st s3 /\
    let s5 := set_ram (fun m => memset m st 0 (Z.to_nat PGSIZE)) (set_ram (fun m => memset m tf 0 (Z.to_nat PGSIZE)) s3) in
    same_bounds s s5 /\ uok s5 r {[r := (2%nat, 0)]} l /\ forall va, 0 <= va < MAXVA -> translate (ram s5) r va = None.
Proof.
  intros Hpg. pose proof (pi_nodup _ _ Hpg) as Hnd.
  assert (forall p, p ∈ r :: tf :: st :: l -> p mod 4096 = 0) as Hal by (intros p Hp; by destruct (pages_inv_free_pages _ _ p Hpg Hp) as [[? _] _]).
  destruct (empty_table s r _ Hpg) as (s1 & Hrun1 & Hv1 & Hb1 & Hn1).
  destruct (uok_alloc s1 r _ tf _ (unmapped_uok _ _ _ _ Hv1 (fun va _ => Hn1 va))) as (s2 & Hrun2 & Hv2 & Hram2 & Hst2 & Hen2).
  destruct (uok_alloc s2 r {[r := (2%nat, 0)]} st l) as (s3 & Hrun3 & Hv3 & Hram3 & Hst3 & Hen3);
    [apply unmapped_uok; [done|]; intros va _; by rewrite Hram2|].
  exists s1, s2, s3. split; [done|]. split; [done|]. split; [done|]. intros s5.
  apply NoDup_cons in Hnd as [Hr [Htf [Hst Hnd]%NoDup_cons]%NoDup_cons]. rewrite !not_elem_of_cons in *.
  destruct (memset_page s3 r _ l tf Hv3) as [Hv4 Hag4]; [apply Hal; right; by left|apply lookup_singleton_None; naive_solver|naive_solver|].
  destruct (memset_page _ r _ l st Hv4) as [Hv5 Hag5]; [apply Hal; right; right; by left|apply lookup_singleton_None; naive_solver|naive_solver|].
  assert (forall va, 0 <= va < MAXVA -> translate (ram s5) r va = None) as Hn5.
  { intros va Hva. unfold translate. rewrite (leaf_pte_agree _ _ _ _ _ _ Hag5), (leaf_pte_agree _ _ _ _ _ _ Hag4);
      [|apply Hv3|lia|by eapply vm_root_prefix|apply Hv4|lia|by eapply vm_root_prefix]. rewrite Hram3, Hram2. apply Hn1. }
  split_and!; [|by apply unmapped_uok|done]. destruct Hb1 as [Hb1 Hb1']. split; cbn [s5 set_ram pages]; congruence.
Qed.

Definition tramp_map (tr : Z) : mmap_info * list Z :=
  (MmapInfo TRAMPOLINE PGSIZE MAP_SHARED (Z.lor PTE_R PTE_X), [map_pte tr (Z.lor PTE_R PTE_X)]).
Definition frame_map (tf : Z) : mmap_info * list Z :=
  (MmapInfo TRAPFRAME PGSIZE MAP_DEFAULT (Z.lor PTE_R PTE_W), [map_pte tf (Z.lor PTE_R PTE_W)]).
Definition stack_map (st : Z) : mmap_info * list Z :=
  (MmapInfo USER_STACK_TOP PGSIZE MAP_USER (Z.lor (Z.lor PTE_U PTE_R) PTE_W), [map_pte st (Z.lor (Z.lor PTE_U PTE_R) PTE_W)]).
Definition init_infos (tr tf st : Z) : list (mmap_info * list Z) := [tramp_map tr; frame_map tf; stack_map st].

Lemma entry_page p perm : p mod 4096 = 0 -> 0 < p < 2 ^ 56 -> 0 <= perm < 1024 -> PTE2PA (map_pte p perm) = p /\ Z.testbit (map_pte p perm) 4 = Z.testbit perm 4.
Proof. intros Hp Hr Hperm. by destruct (map_pte_page p perm Hp Hr Hperm) as (? & _ & ?). Qed.

(** The three mappings of a new process. *)
Lemma init_maps u l tr tf st :
  uok (um u) (pagetable u) {[pagetable u := (2%nat, 0)]} l -> (forall va, 0 <= va < MAXVA -> translate (ram (um u)) (pagetable u) va = None) ->
  mmap_infos u = [] -> (6 < length l)%nat -> page_ok (pages (um u)) (pagetable u) ->
  tr mod 4096 = 0 -> 0 < tr < 2 ^ 56 -> page_ok (pages (um u)) tf -> page_ok (pages (um u)) st -> 0 < tf < 2 ^ 56 -> 0 < st < 2 ^ 56 ->
  NoDup (pagetable u :: tf :: st :: l) ->
  exists u1 u2 s3 T3 l3,
    mmap_at TRAMPOLINE tr PGSIZE MAP_SHARED (Z.lor PTE_R PTE_X) u = Ret 0 u1 /\
    mmap_at TRAPFRAME tf PGSIZE MAP_DEFAULT (Z.lor PTE_R PTE_W) u1 = Ret 0 u2 /\
    mmap_at USER_STACK_TOP st USTACK_SIZE MAP_USER (Z.lor (Z.lor PTE_U PTE_R) PTE_W) u2 =
      Ret 0 (set_infos (fst <$> init_infos tr tf st) (set_um s3 u)) /\
    uok s3 (pagetable u) T3 l3 /\ holds s3 (pagetable u) T3 l3 (init_infos tr tf st) /\
    grown (um u) s3 {[pagetable u := (2%nat, 0)]} T3 l l3 /\ (forall q, q ∈ l -> q ∈ l3 \/ is_Some (T3 !! q)).
Proof.
  intros Hu Hn Hinf Hlen Hpr Htr Htr' Htf Hst Htf' Hst' Hnd. set (root := pagetable u) in *.
  apply NoDup_cons in Hnd as [Hr [Hftf [Hfst Hnd]%NoDup_cons]%NoDup_cons]. rewrite !not_elem_of_cons in *.
  assert (holds (um u) root {[root := (2%nat, 0)]} l []) as Hh.
  { split; [apply Hu|by intros x ?%elem_of_nil|constructor| |constructor|by intros x ?%elem_of_nil|].
    - intros va Hva [e He]. by rewrite Hn in He.
    - intros t [x [<- _]%lookup_singleton_Some]. done. }
  destruct (mmap_at_run u {[root := (2%nat, 0)]} l [] TRAMPOLINE tr MAP_SHARED (Z.lor PTE_R PTE_X)) as (s1 & T1 & l1 & R1 & U1 & H1 & G1 & C1 & V1 & A1);
    [exact Hu|exact Hh|exact Hinf|done|done|by vm_compute|by vm_compute|by vm_compute|exact Htr|exact Htr'|by apply Hn; vm_compute|lia|by vm_compute|intros Hc; by vm_compute in Hc|].
  destruct (mmap_at_run (set_infos (fst <$> [tramp_map tr]) (set_um s1 u)) T1 l1 [tramp_map tr] TRAPFRAME tf MAP_DEFAULT (Z.lor PTE_R PTE_W))
    as (s2 & T2 & l2 & R2 & U2 & H2 & G2 & C2 & V2 & A2);
    [exact U1|exact H1|done|done|done|by vm_compute|by vm_compute|by vm_compute|apply Htf|exact Htf'| |lia|by vm_compute| |].
  { cbn [um pagetable set_um set_infos]. fold root. rewrite A1 by by vm_compute. rewrite decide_False by by vm_compute. by apply Hn. }
  { intros _. destruct (grown_fresh _ _ _ _ _ _ tf G1) as [F1 F2]; [naive_solver|apply lookup_singleton_None; naive_solver|].
    split_and!; [eapply page_ok_ext; [apply G1|apply G1|done]|done|done|change (owned [tramp_map tr]) with (@nil Z); apply not_elem_of_nil|].
    intros va' e' Hva' He' Hb. cbn [um pagetable set_um set_infos] in He'. rewrite A1 in He' by done. case_decide; [|by rewrite Hn in He'].
    injection He' as <-. rewrite (proj2 (entry_page tr (Z.lor PTE_R PTE_X) Htr Htr' ltac:(by vm_compute))) in Hb. by vm_compute in Hb. }
  destruct (mmap_at_run (set_infos (fst <$> [tramp_map tr; frame_map tf]) (set_um s2 u)) T2 l2 [tramp_map tr; frame_map tf] USER_STACK_TOP st MAP_USER
    (Z.lor (Z.lor PTE_U PTE_R) PTE_W)) as (s3 & T3 & l3 & R3 & U3 & H3 & G3 & C3 & V3 & A3);
    [exact U2|exact H2|done|done|done|by vm_compute|by vm_compute|by vm_compute|apply Hst|exact Hst'| |lia|by vm_compute| |].
  { cbn [um pagetable set_um set_infos] in *. fold root in A1, A2 |- *. rewrite A2, decide_False, A1, decide_False by by vm_compute. by apply Hn. }
  { intros _. cbn [um pagetable set_um set_infos] in *. pose proof (grown_trans _ _ _ _ _ _ _ _ _ G1 G2) as G12.
    destruct (grown_fresh _ _ _ _ _ _ st G12) as [F1 F2]; [naive_solver|apply lookup_singleton_None; naive_solver|].
    split_and!; [eapply page_ok_ext; [apply G12|apply G12|done]|done|done| |].
    - change (owned [tramp_map tr; frame_map tf]) with [PTE2PA (map_pte tf (Z.lor PTE_R PTE_W))].
      rewrite (proj1 (entry_page tf (Z.lor PTE_R PTE_W) (proj1 Htf) Htf' ltac:(by vm_compute))). rewrite list_elem_of_singleton. naive_solver.
    - intros va' e' Hva' He' Hb. rewrite A2 in He' by done. case_decide.
      + injection He' as <-. rewrite (proj2 (entry_page tf (Z.lor PTE_R PTE_W) (proj1 Htf) Htf' ltac:(by vm_compute))) in Hb. by vm_compute in Hb.
      + rewrite A1 in He' by done. case_decide; [|by rewrite Hn in He'].
        injection He' as <-. rewrite (proj2 (entry_page tr (Z.lor PTE_R PTE_X) Htr Htr' ltac:(by vm_compute))) in Hb. by vm_compute in Hb. }
  cbn [um pagetable set_um set_infos] in *. eexists _, _, s3, T3, l3. split; [exact R1|]. split; [exact R2|]. split; [exact R3|]. split_and!; [exact U3|exact H3| |].
  - eapply grown_trans; [exact G1|]. by eapply grown_trans.
  - intros q Hq. destruct (V1 q Hq) as [Hq1|[x Hx]]; [|right; exists x; eapply lookup_weaken; [eapply lookup_weaken; [done|apply G2]|apply G3]].
    destruct (V2 q Hq1) as [Hq2|[x Hx]]; [by apply V3|]. right. exists x. eapply lookup_weaken; [done|apply G3].
Qed.

Lemma init_owned tr tf st :
  tf mod 4096 = 0 -> st mod 4096 = 0 -> 0 < tf < 2 ^ 56 -> 0 < st < 2 ^ 56 -> owned (init_infos tr tf st) = [tf; st].
Proof.
  intros Htf Hst Htf' Hst'. change (owned (init_infos tr tf st)) with
    [PTE2PA (map_pte tf (Z.lor PTE_R PTE_W)); PTE2PA (map_pte st (Z.lor (Z.lor PTE_U PTE_R) PTE_W))].
  rewrite (proj1 (entry_page tf (Z.lor PTE_R PTE_W) Htf Htf' ltac:(by vm_compute))).
  by rewrite (proj1 (entry_page st (Z.lor (Z.lor PTE_U PTE_R) PTE_W) Hst Hst' ltac:(by vm_compute))).
Qed.

(** With more than nine free pages [__init_pagetable] sets up a process. *)
Lemma init_spec tr u l0 :
  pages_inv (um u) l0 -> mmap_infos u = [] -> (9 < length l0)%nat -> tr mod 4096 = 0 -> 0 < tr < 2 ^ 56 ->
  exists u' T l L, __init_pagetable tr u = Ret 0 u' /\ space_ok l0 u' T l L [] /\ frame_map (trapframe_pa u') ∈ L /\
    page_ok (pages (um u')) (trapframe_pa u') /\ tramp_map tr ∈ L.
Proof.
  intros Hpg Hinf Hlen Htr Htr'. destruct l0 as [|r [|tf [|st l]]]; [cbn in Hlen; lia..|]. cbn [length] in Hlen.
  destruct (init_pages _ _ _ _ _ Hpg) as (s1 & s2 & s3 & R1 & R2 & R3 & Hb & Hu & Hn). cbv zeta in *.
  assert (forall p, p ∈ r :: tf :: st :: l -> page_ok (pages (um u)) p /\ 0 < p < 2 ^ 56) as Hok by (intros p; apply (pages_inv_free_pages _ _ p Hpg)).
  destruct (Hok r ltac:(by left)) as [Hr Hr']. destruct (Hok tf ltac:(right; by left)) as [Htf Htf']. destruct (Hok st ltac:(right; right; by left)) as [Hst Hst'].
  remember (set_ram (fun m => memset m st 0 (Z.to_nat PGSIZE)) (set_ram (fun m => memset m tf 0 (Z.to_nat PGSIZE)) s3)) as s5 eqn:Hs5.
  destruct Hb as [Hb1 Hb2].
  set (u5 := set_um s5 (set_trapframe tf (set_pagetable r u))).
  destruct (init_maps u5 l tr tf st Hu Hn Hinf) as (u1 & u2 & s6 & T & l6 & M1 & M2 & M3 & U6 & H6 & G6 & V6);
    [lia|by eapply page_ok_ext|done|done|by eapply page_ok_ext|by eapply page_ok_ext|done|done|apply Hpg|].
  pose proof (pi_nodup _ _ Hpg) as Hnd. apply NoDup_cons in Hnd as [Hnr [Hntf [Hnst Hnd]%NoDup_cons]%NoDup_cons]. rewrite !not_elem_of_cons in *.
  set (u6 := set_stack USER_STACK_BOTTOM (set_infos (fst <$> init_infos tr tf st) (set_um s6 u5))).
  pose proof (init_owned tr tf st (proj1 Htf) (proj1 Hst) Htf' Hst') as Hown.
  assert (space_ok (r :: tf :: st :: l) u6 T l6 (init_infos tr tf st) []) as Hsp.
  { split; [exact U6|exact H6|done|]. split; intros p; rewrite Hown, !elem_of_cons, ?elem_of_nil.
    2:{ intros [->|[->|[->|Hp]]]; [right; right; left; exists (2%nat, 0); eapply lookup_weaken; [by apply lookup_singleton_Some|apply G6]|tauto|tauto|].
      destruct (V6 p Hp); tauto. }
    - intros [Hp%(gr_free _ _ _ _ _ _ G6)|[[->|[->|[]]]|Ht]]; [tauto..|].
      destruct (gr_new _ _ _ _ _ _ G6 p Ht) as [[x [<- _]%lookup_singleton_Some]|[? _]]; tauto. }
  exists (set_um (set_ram (fun m => store64 m (tf + TRAPFRAME_SP) USER_STACK_BOTTOM) (um u6)) u6), T, l6, (init_infos tr tf st). split; [|split; [|split; [right; by left|split; [|by left]]]].
  - unfold __init_pagetable. rewrite (kbind_ret _ _ _ _ _ (vm_ret _ u _ _ R1)). unfold kbind at 1, kmodify.
    rewrite (kbind_ret _ _ _ tf (set_um s2 (set_pagetable r u))) by (unfold vm; cbn [um set_pagetable set_um]; by rewrite R2).
    unfold kbind at 1. rewrite (kbind_ret _ _ _ st (set_um s3 (set_trapframe tf (set_pagetable r u)))) by (unfold vm; cbn [um set_pagetable set_um set_trapframe]; by rewrite R3).
    unfold kbind at 1. change (kernel_assert (USTACK_SIZE =? PGSIZE)) with (@kret uspace unit tt). unfold kret at 1.
    rewrite !(proj2 (Z.eqb_neq _ _)) by lia. cbn [orb]. unfold kbind at 1, vm at 1. unfold kbind at 1, vm at 1.
    cbn [um set_um]. rewrite <- Hs5. change (set_um s5 _) with u5.
    rewrite (kbind_ret _ _ _ _ _ M1). cbn [Z.ltb Z.compare]. rewrite (kbind_ret _ _ _ _ _ M2). cbn [Z.ltb Z.compare].
    rewrite (kbind_ret _ _ _ _ _ M3). cbn [Z.ltb Z.compare]. reflexivity.
  - destruct (ho_page _ _ _ _ _ H6 tf) as (Q1 & Q2 & Q3); [rewrite Hown; by left|]. destruct Htf as [Hal _]. unfold PGSIZE in Hal.
    apply space_write; [exact Hsp|..]; cbn [um u6 set_stack set_infos set_um].
    + intros t [[k q] Ht] a Ha. pose proof (pt_page _ _ (vm_inv _ _ _ _ (uo_vm _ _ _ _ U6)) _ _ _ Ht). assert (t <> tf) by congruence.
      apply store_other. unfold TRAPFRAME_SP. zlia.
    + intros p Hp. destruct (pages_inv_free_pages _ _ p (vm_pages _ _ _ _ (uo_vm _ _ _ _ U6)) Hp) as [[Hpal _] _]. unfold PGSIZE in Hpal.
      assert (p <> tf) by congruence. apply load64_store64_ne. unfold TRAPFRAME_SP. zlia.
  - eapply page_ok_ext; [etransitivity; [apply (gr_start _ _ _ _ _ _ G6)|exact Hb1]|etransitivity; [apply (gr_end _ _ _ _ _ _ G6)|exact Hb2]|exact Htf].
Qed.

(** ** The life of a process *)

(** What a process does with its address space: it asks for memory, for a range of
    pages of its own that it has not mapped yet, or it writes to what it can
    reach.  The number says how many requests fail. *)
Inductive life_step : nat -> uspace -> uspace -> Prop :=
  | life_mmap va n flags perm u r u' :
      va mod 4096 = 0 -> 0 <= va -> (0 < n)%nat -> va + Z.of_nat n * 4096 <= MAXVA -> user_perm perm ->
      (forall va', va <= va' < va + Z.of_nat n * 4096 -> translate (ram (um u)) (pagetable u) va' = None) ->
      mmap va (Z.of_nat n * 4096) flags perm u = Ret r u' -> life_step (if r =? 0 then 0 else 1) u u'
  | life_write f u :
      user_writes (ram (um u)) (f (ram (um u))) (pagetable u) -> life_step 0 u (set_um (set_ram f (um u)) u).

Inductive life : nat -> uspace -> uspace -> Prop :=
  | life_nil u : life 0 u u
  | life_cons k n u u1 u2 : life_step k u u1 -> life n u1 u2 -> life (k + n) u u2.

Lemma life_ok l0 n u u' T l L X :
  life n u u' -> space_ok l0 u T l L X -> exists T' l' L' X', space_ok l0 u' T' l' L' X' /\ (length X' <= length X + n)%nat.
Proof.
  intros Hs. revert T l L X. induction Hs as [u|k n u u1 u2 Hs _ IH]; intros T l L X Hok; [exists T, l, L, X; split; [done|lia]|]. destruct Hs.
  - edestruct space_mmap as (T' & l' & L' & X' & Hok' & HX'); [exact Hok|done..|].
    destruct (IH T' l' L' X' Hok') as (T2 & l2 & L2 & X2 & Hok2 & HX2). exists T2, l2, L2, X2. split; [done|lia].
  - apply (IH T l L X). by apply space_user.
Qed.

(** C2. A process frees no page twice and leaks at most a page for each request for
    memory that fails: with more than nine free pages [__init_pagetable] succeeds;
    whatever aligned, non-empty ranges it has not mapped yet the process then asks
    [__mmap] for, with or without success, and whatever it writes where it can,
    [__free_pagetable] returns, and the pages that are free then are pages that
    were free before the process came, all of them when no request failed. *)
Theorem process_pages_returned tr u l0 :
  pages_inv (um u) l0 -> mmap_infos u = [] -> (9 < length l0)%nat -> tr mod 4096 = 0 -> 0 < tr < 2 ^ 56 ->
  exists u1, __init_pagetable tr u = Ret 0 u1 /\
    forall n u2, life n u1 u2 ->
      exists u3 l3, __free_pagetable u2 = Ret tt u3 /\ pages_inv (um u3) l3 /\ pagetable u3 = 0 /\ mmap_infos u3 = [] /\
        l3 ⊆+ l0 /\ (length l0 <= length l3 + n)%nat /\ (n = 0%nat -> l3 ≡ₚ l0).
Proof.
  intros Hpg Hinf Hlen Htr Htr'. destruct (init_spec tr u l0 Hpg Hinf Hlen Htr Htr') as (u1 & T & l & L & Hrun & Hok & _).
  exists u1. split; [done|]. intros n u2 Hlife. destruct (life_ok _ _ _ _ _ _ _ _ Hlife Hok) as (T' & l' & L' & X & [S1 S2 S3 S4] & HX).
  cbn [length] in HX. destruct (free_pagetable_run u2 T' l' L' S2 S3) as (s3 & l3 & Hfree & Hpg3 & Hl3).
  destruct (accounted_end l0 T' l' L' X l3 S4 (pi_nodup _ _ Hpg) (pi_nodup _ _ Hpg3) Hl3) as [Hsub Hle].
  eexists _, l3. split; [exact Hfree|]. split_and!; try done; [lia|]. intros ->. apply submseteq_length_Permutation; [done|lia].
Qed.

(** A mapping of size 0 is recorded, and taking the space down panics at it. *)
Lemma empty_mapping_panics :
  match mmap 0x5000 0 MAP_USER (Z.lor PTE_U PTE_R) (blank_space []) with
  | Ret r u => (r =? 0) && match __free_pagetable u with Panic => true | _ => false end
  | _ => false
  end = true.
Proof. vm_compute. reflexivity. Qed.

(** Twelve free pages, and no process yet. *)
Definition wide_free : list Z := (fun i => 0x1000 * (2 + i)) <$> seqZ 0 12.
Definition wide : machine :=
  Machine (foldr (fun p m => store64 m p (if p =? 0xd000 then 0 else p + 0x1000)) ∅ wide_free) (PageAllocator 0x2000 12 0x1000 0xe000).
Definition wide_space : uspace := USpace wide 0 0 0 [] 0 0.

Lemma wide_pages : pages_inv wide wide_free.
Proof.
  split; [by vm_compute|by vm_compute| | |by vm_compute].
  - by apply (bool_decide_unpack _); vm_compute.
  - apply Forall_forall. intros p (i & -> & Hi%elem_of_seqZ)%list_elem_of_fmap. unfold page_ok, PGSIZE. cbn [wide pages pa_start pa_end]. zlia.
Qed.

(** It maps two pages, then asks for more than there is, and goes. *)
Definition wide_started : uspace := match __init_pagetable 0x80201000 wide_space with Ret _ u => u | _ => wide_space end.
Definition wide_mapped : uspace := match mmap 0x10000 8192 MAP_USER (Z.lor PTE_U PTE_R) wide_started with Ret _ u => u | _ => wide_space end.
Definition wide_failed : uspace := match mmap 0x20000 32768 MAP_USER (Z.lor PTE_U PTE_R) wide_mapped with Ret _ u => u | _ => wide_space end.

(** Eight pages from [base] on are not mapped. *)
Lemma unmapped_pages m root base va :
  forallb (fun i => bool_decide (translate m root (base + 4096 * i) = None)) (seqZ 0 8) = true ->
  0 <= base -> base mod 4096 = 0 -> base <= va < base + 32768 -> translate m root va = None.
Proof.
  intros Hall H0 Hb Hva. rewrite forallb_forall in Hall. specialize (Hall ((va - base) / 4096)).
  rewrite bool_decide_eq_true in Hall. unfold translate. rewrite (leaf_pte_same_page 2 _ _ va (base + 4096 * ((va - base) / 4096))) by zlia.
  apply Hall, list_elem_of_In, elem_of_seqZ. zlia.
Qed.

Lemma wide_mmap : mmap 0x10000 (Z.of_nat 2 * 4096) MAP_USER (Z.lor PTE_U PTE_R) wide_started = Ret 0 wide_mapped.
Proof.
  destruct (ret_val_run (mmap 0x10000 (Z.of_nat 2 * 4096) MAP_USER (Z.lor PTE_U PTE_R) wide_started) 0) as [u Hrun]; [by vm_compute|].
  unfold wide_mapped. change 8192 with (Z.of_nat 2 * 4096). rewrite Hrun. reflexivity.
Qed.
Lemma wide_mmap_fails : mmap 0x20000 (Z.of_nat 8 * 4096) MAP_USER (Z.lor PTE_U PTE_R) wide_mapped = Ret (-1) wide_failed.
Proof.
  destruct (ret_val_run (mmap 0x20000 (Z.of_nat 8 * 4096) MAP_USER (Z.lor PTE_U PTE_R) wide_mapped) (-1)) as [u Hrun]; [by vm_compute|].
  unfold wide_failed. change 32768 with (Z.of_nat 8 * 4096). rewrite Hrun. reflexivity.
Qed.
Lemma wide_user_perm : user_perm (Z.lor PTE_U PTE_R).
Proof. by split; vm_compute. Qed.
Lemma wide_free_low : forallb (fun i => bool_decide (translate (ram (um wide_started)) (pagetable wide_started) (0x10000 + 4096 * i) = None)) (seqZ 0 8) = true.
Proof. vm_compute. reflexivity. Qed.
Lemma wide_free_high : forallb (fun i => bool_decide (translate (ram (um wide_mapped)) (pagetable wide_mapped) (0x20000 + 4096 * i) = None)) (seqZ 0 8) = true.
Proof. vm_compute. reflexivity. Qed.

Lemma wide_start u : __init_pagetable 0x80201000 wide_space = Ret 0 u -> u = wide_started.
Proof. unfold wide_started. intros Hrun. rewrite Hrun. reflexivity. Qed.

#[local] Opaque wide_started wide_mapped wide_failed.

Lemma wide_life : life 1 wide_started wide_failed.
Proof.
  apply (life_cons 0 1 _ wide_mapped); [|apply (life_cons 1 0 _ wide_failed); [|apply life_nil]].
  - refine (life_mmap 0x10000 2 MAP_USER (Z.lor PTE_U PTE_R) wide_started 0 wide_mapped eq_refl _ _ _ wide_user_perm _ wide_mmap); [lia|lia|by vm_compute|].
    intros va Hva. apply (unmapped_pages _ _ 0x10000); [exact wide_free_low|lia|reflexivity|lia].
  - refine (life_mmap 0x20000 8 MAP_USER (Z.lor PTE_U PTE_R) wide_mapped (-1) wide_failed eq_refl _ _ _ wide_user_perm _ wide_mmap_fails); [lia|lia|by vm_compute|].
    intros va Hva. apply (unmapped_pages _ _ 0x20000); [exact wide_free_high|lia|reflexivity|lia].
Qed.

Lemma process_pages_returned_witness :
  exists u3 l3, __init_pagetable 0x80201000 wide_space = Ret 0 wide_started /\ life 1 wide_started wide_failed /\
    __free_pagetable wide_failed = Ret tt u3 /\ pages_inv (um u3) l3 /\ l3 ⊆+ wide_free /\ (12 <= length l3 + 1)%nat.
Proof.
  destruct (process_pages_returned 0x80201000 wide_space wide_free) as (u1 & Hrun & Hlife).
  - apply wide_pages.
  - done.
  - by vm_compute; lia.
  - done.
  - by vm_compute.
  - assert (u1 = wide_started) as -> by exact (wide_start u1 Hrun).
    destruct (Hlife 1%nat wide_failed wide_life) as (u3 & l3 & H3 & H4 & _ & _ & H5 & H6 & _). exists u3, l3.
    split; [exact Hrun|]. split; [exact wide_life|]. split; [exact H3|]. split; [exact H4|]. split; [exact H5|exact H6].
Defined.
