(* ===== verification/RamDisk.v ===== *)
(** * The ram disk (src/os/drivers/ramdisk/ramdisk.cc, src/os/device/device.h)

    A ram disk keeps its blocks in pages of the kernel allocator.  A page of
    pointers leads to pages of pointers, and these to the pages with the data;
    pages are taken when a block is first touched.  The list of devices and
    its registration are here too.

    The theorems say that the disk is an array of bytes that are zero at first,
    whatever is read and written, and that its destructor gives back every
    page. *)
From S2P Require Import Prelude Memory CString Riscv PageAlloc.

(** ** Definitions *)

Record device_id_t := DeviceId { major : Z; minor : Z }.

#[export] Instance device_id_eq_dec : EqDecision device_id_t.
Proof. solve_decision. Defined.

Definition ramdisk_id : device_id_t := DeviceId 1 0.
Definition virtio_disk_id : device_id_t := DeviceId 2 0.

(** [device::devices] with the identifiers of the devices. *)
Record registry := Registry { devices : list Z; device_ids : gmap Z device_id_t }.

Definition register_device (this : Z) (id : device_id_t) (r : registry) : registry :=
  Registry (devices r ++ [this]) (<[this := id]> (device_ids r)).

Fixpoint erase_first (this : Z) (l : list Z) : list Z :=
  match l with
  | [] => []
  | d :: l' => if d =? this then l' else d :: erase_first this l'
  end.

Definition deregister_device (this : Z) (r : registry) : registry :=
  if existsb (Z.eqb this) (devices r) then Registry (erase_first this (devices r)) (device_ids r)
  else Registry (devices r) (<[this := DeviceId 0 0]> (device_ids r)).

(** [device::get]; 0 when there is none. *)
Definition get_device (id : device_id_t) (r : registry) : Z :=
  match List.find (fun d => bool_decide (device_ids r !! d = Some id)) (devices r) with
  | Some d => d
  | None => 0
  end.

Definition bdev_BLOCK_SIZE : Z := 1024.
Definition page_capacity : Z := PGSIZE / 8.

(** A ram disk at the address [dev_this], with the machine and the list of devices. *)
Record ramdisk := Ramdisk {
  rm : machine;
  dev_this : Z;
  page_index_index : Z;
  nblocks : Z;
  dev_reg : registry
}.

Definition set_rm (s : machine) (d : ramdisk) : ramdisk := Ramdisk s (dev_this d) (page_index_index d) (nblocks d) (dev_reg d).
Definition set_dev_reg (r : registry) (d : ramdisk) : ramdisk := Ramdisk (rm d) (dev_this d) (page_index_index d) (nblocks d) r.

(** An operation of the machine. *)
Definition rmach {A : Type} (op : K machine A) : K ramdisk A := fun d =>
  match op (rm d) with
  | Ret a s => Ret a (set_rm s d)
  | TaskFail s => TaskFail (set_rm s d)
  | Panic => Panic
  | OutOfFuel => OutOfFuel
  end.

(** The constructor. *)
Definition ramdisk_new (nb : Z) : K ramdisk unit :=
  p <- rmach alloc_page ;;
  kmodify (fun d => Ramdisk (rm d) (dev_this d) p nb (dev_reg d)) ;;;
  if p =? 0 then kret tt
  else rmach (kmodify (set_ram (fun m => memset m p 0 (Z.to_nat PGSIZE)))).

Definition ramdisk_capacity (d : ramdisk) : Z := nblocks d.

Definition ramdisk_open : K ramdisk Z :=
  d <- kget ;;
  if page_index_index d =? 0 then kret (-1)
  else
    kmodify (set_dev_reg (register_device (dev_this d) ramdisk_id (dev_reg d))) ;;;
    kret 0.

Definition ramdisk_close : K ramdisk unit := kmodify (fun d => set_dev_reg (deregister_device (dev_this d) (dev_reg d)) d).

(** The page that an entry of a page of pointers leads to; a new one of zeros
    when there is none yet. *)
Definition page_at (slot : Z) : K machine Z :=
  s <- kget ;;
  let p := load64 (ram s) slot in
  if p =? 0 then
    p <- alloc_page ;;
    if p =? 0 then kfail
    else
      kmodify (set_ram (fun m => store64 m slot p)) ;;;
      kmodify (set_ram (fun m => memset m p 0 (Z.to_nat PGSIZE))) ;;;
      kret p
  else kret p.

(** [ramdisk::walk]: the page of a block and the offset in it. *)
Definition ramdisk_walk (block_no : Z) : K ramdisk (Z * Z) :=
  d <- kget ;;
  if nblocks d <? block_no then kfail
  else
    let page_index := u64 (block_no * bdev_BLOCK_SIZE) / PGSIZE in
    let page_offset := u64 (block_no * bdev_BLOCK_SIZE) mod PGSIZE in
    let first_index := page_index / page_capacity in
    let second_index := page_index mod page_capacity in
    page_index_ptr <- rmach (page_at (page_index_index d + 8 * first_index)) ;;
    page_ptr <- rmach (page_at (page_index_ptr + 8 * second_index)) ;;
    kret (page_ptr, page_offset).

Definition is_ramdisk (d : ramdisk) : bool := bool_decide (device_ids (dev_reg d) !! dev_this d = Some ramdisk_id).

Definition ramdisk_read (block_no count buf : Z) : K ramdisk Z :=
  d <- kget ;;
  if negb (is_ramdisk d) then kfail
  else
    '(page_ptr, offset) <- ramdisk_walk block_no ;;
    rmach (kmodify (set_ram (fun m => memcpy m buf (page_ptr + offset) (Z.to_nat (u64 (count * bdev_BLOCK_SIZE)))))) ;;;
    kret 0.

Definition ramdisk_write (block_no count buf : Z) : K ramdisk Z :=
  d <- kget ;;
  if negb (is_ramdisk d) then kfail
  else
    '(page_ptr, offset) <- ramdisk_walk block_no ;;
    rmach (kmodify (set_ram (fun m => memcpy m (page_ptr + offset) buf (Z.to_nat (u64 (count * bdev_BLOCK_SIZE)))))) ;;;
    kret 0.

Definition ramdisk_flush : K ramdisk Z := kret 0.

(** The inner and the outer loop of the destructor, from an index on. *)
Fixpoint free_data_pages (n : nat) (page j : Z) : K machine unit :=
  match n with
  | O => kret tt
  | S n' =>
      s <- kget ;;
      let p := load64 (ram s) (page + 8 * j) in
      (if negb (p =? 0) then free_page p else kret tt) ;;;
      free_data_pages n' page (j + 1)
  end.

Fixpoint free_index_pages (n : nat) (root i : Z) : K machine unit :=
  match n with
  | O => kret tt
  | S n' =>
      s <- kget ;;
      let p := load64 (ram s) (root + 8 * i) in
      (if negb (p =? 0) then free_data_pages (Z.to_nat page_capacity) p 0 ;;; free_page p else kret tt) ;;;
      free_index_pages n' root (i + 1)
  end.

(** The destructor. *)
Definition ramdisk_destroy : K ramdisk unit :=
  d <- kget ;;
  rmach (free_index_pages (Z.to_nat page_capacity) (page_index_index d) 0 ;;; free_page (page_index_index d)).

(** ** The invariant *)

Inductive role := Root | Index (i : Z) | Data (k : Z).

(** [R] gives the pages of the disk and what they are for. *)
Record rd_inv (s : machine) (root : Z) (R : gmap Z role) (l : list Z) : Prop := {
  ri_pages : pages_inv s l;
  ri_role : forall p r, R !! p = Some r -> page_ok (pages s) p /\ p ∉ l;
  ri_root : R !! root = Some Root;
  ri_root_only : forall p, R !! p = Some Root -> p = root;
  ri_index : forall i, 0 <= i < 512 -> load64 (ram s) (root + 8 * i) = 0 \/ R !! load64 (ram s) (root + 8 * i) = Some (Index i);
  ri_index_at : forall p i, R !! p = Some (Index i) -> 0 <= i < 512 /\ load64 (ram s) (root + 8 * i) = p;
  ri_data : forall q i j, R !! q = Some (Index i) -> 0 <= j < 512 ->
    load64 (ram s) (q + 8 * j) = 0 \/ R !! load64 (ram s) (q + 8 * j) = Some (Data (i * 512 + j));
  ri_data_at : forall p k, R !! p = Some (Data k) ->
    exists q, R !! q = Some (Index (k / 512)) /\ load64 (ram s) (q + 8 * (k mod 512)) = p
}.

(** The page with number [k], 0 when it was never touched, and the bytes of the
    disk. *)
Definition page_of (m : memory) (root k : Z) : Z :=
  let q := load64 m (root + 8 * (k / 512)) in
  if q =? 0 then 0 else load64 m (q + 8 * (k mod 512)).

Definition disk_byte (m : memory) (root x : Z) : Z :=
  let p := page_of m root (x / 4096) in
  if p =? 0 then 0 else rd8 m (p + x mod 4096).

(** The bytes that the disk can address. *)
Definition disk_size : Z := 512 * 512 * 4096.

(** ** Adding a page *)

(** The memory after [page_at] hooked the page [p] into [slot]. *)
Definition hooked (m : memory) (slot p : Z) : memory := memset (store64 m slot p) p 0 (Z.to_nat PGSIZE).

Lemma hooked_other m slot p a : ~ p <= a < p + 4096 -> ~ slot <= a < slot + 8 -> rd8 (hooked m slot p) a = rd8 m a.
Proof. intros Hp Hs. unfold hooked. rewrite memset_other by (unfold PGSIZE; lia). apply store_other. lia. Qed.

Lemma hooked_new m slot p a : p <= a < p + 4096 -> rd8 (hooked m slot p) a = 0.
Proof. intros Hp. unfold hooked. rewrite memset_spec, decide_True by (unfold PGSIZE; lia). done. Qed.

Lemma hooked_new_entry m slot p j : 0 <= j < 512 -> load64 (hooked m slot p) (p + 8 * j) = 0.
Proof. intros Hj. unfold hooked. apply (memset_zero_load _ _ _ 8); unfold PGSIZE; lia. Qed.

Lemma hooked_slot m slot p : ~ p - 8 < slot < p + 4096 -> 0 <= p < 2 ^ 64 -> load64 (hooked m slot p) slot = p.
Proof. intros Hs Hp. unfold hooked. rewrite (memset_load _ _ _ _ 8) by (unfold PGSIZE; lia). by apply load64_store64_eq. Qed.

Lemma hooked_load m slot p a :
  a + 8 <= p \/ p + 4096 <= a -> a + 8 <= slot \/ slot + 8 <= a -> load64 (hooked m slot p) a = load64 m a.
Proof. intros Hp Hs. apply load_agree. intros b Hb. apply hooked_other; lia. Qed.

#[local] Opaque hooked.

(** Two entries of pages of the disk are the same or do not overlap. *)
Lemma entry_apart t t' i i' : t mod 4096 = 0 -> t' mod 4096 = 0 -> 0 <= i < 512 -> 0 <= i' < 512 -> (t, i) <> (t', i') ->
  t + 8 * i + 8 <= t' + 8 * i' \/ t' + 8 * i' + 8 <= t + 8 * i.
Proof.
  intros Ht Ht' Hi Hi' Hne. destruct (decide (t = t')) as [->|Hd].
  - assert (i <> i') by congruence. lia.
  - zlia.
Qed.

(** [page_at] on a slot that is in use, and on an empty slot. *)
Lemma page_at_present s slot : load64 (ram s) slot <> 0 -> page_at slot s = Ret (load64 (ram s) slot) s.
Proof. intros Hp. unfold page_at, kbind, kget. by rewrite (proj2 (Z.eqb_neq _ _)). Qed.

Lemma page_at_new s slot p l :
  pages_inv s (p :: l) -> load64 (ram s) slot = 0 ->
  exists s', page_at slot s = Ret p s' /\ ram s' = hooked (ram s) slot p /\ pa_start (pages s') = pa_start (pages s) /\
    pa_end (pages s') = pa_end (pages s) /\ ((forall q, q ∈ l -> q <> p -> q mod 4096 = 0 -> load64 (ram s') q = load64 (ram s) q) -> pages_inv s' l).
Proof.
  intros Hpg Hz. destruct (alloc_page_correct s (p :: l) Hpg) as (s1 & Hrun & Hpg1 & Hram & Hst & Hen).
  destruct (pages_inv_free_pages _ _ p Hpg) as [_ Hp]; [by left|].
  exists (set_ram (fun m => hooked m slot p) s1). unfold page_at. unfold kbind at 1, kget. rewrite Hz. cbn [Z.eqb].
  rewrite (kbind_ret _ _ _ _ _ Hrun), (proj2 (Z.eqb_neq _ _)) by lia. split; [with_strategy transparent [hooked] reflexivity|]. cbn [set_ram ram pages]. rewrite Hram.
  split; [done|]. split; [done|]. split; [done|]. intros Hag. apply pages_inv_client_write; [done|]. rewrite Hram. intros q Hq.
  pose proof (pi_nodup _ _ Hpg) as [Hnin _]%NoDup_cons. destruct (pages_inv_free_pages _ _ q Hpg) as [[Hal _] _]; [by right|].
  apply Hag; [done|congruence|done].
Qed.

Lemma page_at_full s slot : pages_inv s [] -> load64 (ram s) slot = 0 -> page_at slot s = TaskFail s.
Proof.
  intros Hpg Hz. pose proof (alloc_page_correct s [] Hpg) as Hrun. cbn in Hrun. unfold page_at. unfold kbind at 1, kget. rewrite Hz. cbn [Z.eqb].
  by rewrite (kbind_ret _ _ _ _ _ Hrun).
Qed.

Lemma page_of_role s root R l k :
  rd_inv s root R l -> 0 <= k < 512 * 512 -> page_of (ram s) root k = 0 \/ R !! page_of (ram s) root k = Some (Data k).
Proof.
  intros Hinv Hk. unfold page_of. destruct (ri_index _ _ _ _ Hinv (k / 512) ltac:(zlia)) as [Hz|He]; [rewrite Hz; by left|].
  destruct (Z.eqb_spec (load64 (ram s) (root + 8 * (k / 512))) 0) as [_|_]; [by left|].
  replace (Data k) with (Data (k / 512 * 512 + k mod 512)) by (f_equal; zlia). apply (ri_data _ _ _ _ Hinv _ _ _ He). zlia.
Qed.

(** ** A page is hooked into a page of pointers *)

Section hook.
Context {s s' : machine} {root : Z} {R : gmap Z role} {l : list Z} {p t i : Z} {rt : role}.
Context (Hinv : rd_inv s root R (p :: l)) (Ht : R !! t = Some rt) (Hi : 0 <= i < 512).
Context (Hempty : load64 (ram s) (t + 8 * i) = 0).
Context (Hram : ram s' = hooked (ram s) (t + 8 * i) p).
Context (Hst : pa_start (pages s') = pa_start (pages s)) (Hen : pa_end (pages s') = pa_end (pages s)).
Context (Hpg : (forall q, q ∈ l -> q <> p -> q mod 4096 = 0 -> load64 (ram s') q = load64 (ram s) q) -> pages_inv s' l).

Lemma role_page q r : R !! q = Some r -> q mod 4096 = 0 /\ 0 < q < 2 ^ 56 /\ q <> p.
Proof.
  intros Hq. destruct (ri_role _ _ _ _ Hinv q r Hq) as [[Hal Hr] Hl]. destruct (pi_bounds _ _ (ri_pages _ _ _ _ Hinv)).
  split; [exact Hal|]. split; [lia|]. intros ->. apply Hl. by left.
Qed.

Lemma new_page : p mod 4096 = 0 /\ 0 < p < 2 ^ 56 /\ R !! p = None /\ p ∉ l.
Proof.
  destruct (pages_inv_free_pages _ _ p (ri_pages _ _ _ _ Hinv)) as [[Hal _] Hr]; [by left|].
  pose proof (pi_nodup _ _ (ri_pages _ _ _ _ Hinv)) as [Hl _]%NoDup_cons. split; [exact Hal|]. split; [exact Hr|]. split; [|exact Hl].
  destruct (R !! p) as [r|] eqn:E; [|done]. destruct (ri_role _ _ _ _ Hinv p r E) as [_ []]. by left.
Qed.

Lemma hook_entry q r j : R !! q = Some r -> 0 <= j < 512 -> (q, j) <> (t, i) -> load64 (ram s') (q + 8 * j) = load64 (ram s) (q + 8 * j).
Proof.
  intros Hq Hj Hne. destruct (role_page q r Hq) as (Hqa & _ & Hqp). destruct (role_page t rt Ht) as (Hta & _ & _). destruct new_page as (Hpa & _).
  rewrite Hram. apply hooked_load; [zlia|by apply entry_apart].
Qed.

Lemma hook_slot : load64 (ram s') (t + 8 * i) = p.
Proof. destruct (role_page t rt Ht) as (Hta & _ & Htp). destruct new_page as (Hpa & Hr & _). rewrite Hram. apply hooked_slot; zlia. Qed.

Lemma hook_fresh j : 0 <= j < 512 -> load64 (ram s') (p + 8 * j) = 0.
Proof. intros Hj. rewrite Hram. by apply hooked_new_entry. Qed.

Lemma hook_byte q r a : R !! q = Some r -> q <> t -> q <= a < q + 4096 -> rd8 (ram s') a = rd8 (ram s) a.
Proof.
  intros Hq Hne Ha. destruct (role_page q r Hq) as (Hqa & _ & Hqp). destruct (role_page t rt Ht) as (Hta & _ & _). destruct new_page as (Hpa & _).
  rewrite Hram. apply hooked_other; zlia.
Qed.

Lemma hook_outside a : ~ p <= a < p + 4096 -> ~ t <= a < t + 4096 -> rd8 (ram s') a = rd8 (ram s) a.
Proof. intros Hp Ha. rewrite Hram. apply hooked_other; lia. Qed.

Lemma hook_pages : pages_inv s' l.
Proof.
  apply Hpg. intros q Hq Hne Hal. destruct (role_page t rt Ht) as (Hta & _ & _). destruct new_page as (Hpa & _).
  assert (q <> t). { intros ->. destruct (ri_role _ _ _ _ Hinv t rt Ht) as [_ []]. by right. }
  rewrite Hram. apply hooked_load; zlia.
Qed.

Lemma hook_role r q r' : <[p := r]> R !! q = Some r' -> page_ok (pages s') q /\ q ∉ l.
Proof.
  intros [[<- <-]|[Hne Hq]]%lookup_insert_Some.
  - destruct (pages_inv_free_pages _ _ p (ri_pages _ _ _ _ Hinv)) as [Hok _]; [by left|]. destruct new_page as (_ & _ & _ & Hl).
    split; [by eapply page_ok_ext|done].
  - destruct (ri_role _ _ _ _ Hinv q r' Hq) as [Hok Hl]. split; [by eapply page_ok_ext|]. intros Hin. apply Hl. by right.
Qed.

(** Entries of the new map: those of the old one, or the new page. *)
Lemma insert_keep r q r' : R !! q = Some r' -> <[p := r]> R !! q = Some r'.
Proof. intros Hq. destruct (role_page q r' Hq) as (_ & _ & Hne). by rewrite lookup_insert_ne by congruence. Qed.

Lemma insert_zero r e r' : (e = 0 \/ R !! e = Some r') -> e = 0 \/ <[p := r]> R !! e = Some r'.
Proof. intros [|He]; [by left|right]. by apply insert_keep. Qed.
End hook.

Lemma add_index s s' root R p l i :
  rd_inv s root R (p :: l) -> 0 <= i < 512 -> load64 (ram s) (root + 8 * i) = 0 ->
  ram s' = hooked (ram s) (root + 8 * i) p -> pa_start (pages s') = pa_start (pages s) -> pa_end (pages s') = pa_end (pages s) ->
  ((forall q, q ∈ l -> q <> p -> q mod 4096 = 0 -> load64 (ram s') q = load64 (ram s) q) -> pages_inv s' l) ->
  rd_inv s' root (<[p := Index i]> R) l /\ forall x, 0 <= x < disk_size -> disk_byte (ram s') root x = disk_byte (ram s) root x.
Proof.
  intros Hinv Hi Hz Hram Hst Hen Hpg. pose proof (ri_root _ _ _ _ Hinv) as Hr. destruct (new_page Hinv) as (_ & Hp0 & HpR & _).
  assert (forall q k j, R !! q = Some (Index k) -> 0 <= j < 512 -> load64 (ram s') (q + 8 * j) = load64 (ram s) (q + 8 * j)) as Hidx.
  { intros q k j Hq Hj. apply (hook_entry Hinv Hr Hi Hram q (Index k) j Hq Hj). intros [= -> ->]. congruence. }
  assert (forall j, 0 <= j < 512 -> j <> i -> load64 (ram s') (root + 8 * j) = load64 (ram s) (root + 8 * j)) as Hroot.
  { intros j Hj Hne. apply (hook_entry Hinv Hr Hi Hram root Root j Hr Hj). congruence. }
  split.
  - split.
    + apply (hook_pages Hinv Hr Hi Hram Hpg).
    + apply (hook_role Hinv Hst Hen).
    + by apply (insert_keep Hinv).
    + intros q [[_ [=]]|[_ Hq]]%lookup_insert_Some. by apply (ri_root_only _ _ _ _ Hinv).
    + intros j Hj. destruct (decide (j = i)) as [->|Hne].
      * rewrite (hook_slot Hinv Hr Hi Hram). right. by rewrite lookup_insert_eq.
      * rewrite Hroot by done. apply (insert_zero Hinv). by apply (ri_index _ _ _ _ Hinv).
    + intros q j [[<- [= <-]]|[_ Hq]]%lookup_insert_Some; [split; [done|by apply (hook_slot Hinv Hr Hi Hram)]|].
      destruct (ri_index_at _ _ _ _ Hinv q j Hq) as [Hj He]. split; [done|]. rewrite Hroot; [done|done|]. intros ->.
      rewrite Hz in He. destruct (role_page Hinv q _ Hq). lia.
    + intros q k j [[<- [= <-]]|[_ Hq]]%lookup_insert_Some Hj; [left; by apply (hook_fresh Hram)|].
      rewrite (Hidx q k j Hq Hj). apply (insert_zero Hinv). by apply (ri_data _ _ _ _ Hinv).
    + intros q k [[_ [=]]|[_ Hq]]%lookup_insert_Some. destruct (ri_data_at _ _ _ _ Hinv q k Hq) as (x & Hx & He). exists x.
      split; [by apply (insert_keep Hinv)|]. rewrite (Hidx x _ _ Hx) by zlia. done.
  - intros x Hx. unfold disk_size in Hx. assert (0 <= x / 4096 / 512 < 512) as Hj by zlia.
    assert (page_of (ram s') root (x / 4096) = page_of (ram s) root (x / 4096)) as Hpo.
    { unfold page_of. destruct (decide (x / 4096 / 512 = i)) as [->|Hne].
      - rewrite (hook_slot Hinv Hr Hi Hram), Hz, (hook_fresh Hram) by zlia. by destruct (p =? 0).
      - rewrite Hroot by done. destruct (ri_index _ _ _ _ Hinv _ Hj) as [->|He]; [done|]. by rewrite (Hidx _ _ _ He) by zlia. }
    unfold disk_byte. rewrite Hpo. destruct (page_of_role s root R _ (x / 4096) Hinv ltac:(zlia)) as [Hd|Hd]; [rewrite Hd; reflexivity|].
    case_match; [reflexivity|]. apply (hook_byte Hinv Hr Hi Hram _ _ _ Hd); [intros Heq; rewrite Heq in Hd; congruence|zlia].
Qed.

Lemma add_data s s' root R p l q i j :
  rd_inv s root R (p :: l) -> R !! q = Some (Index i) -> 0 <= j < 512 -> load64 (ram s) (q + 8 * j) = 0 ->
  ram s' = hooked (ram s) (q + 8 * j) p -> pa_start (pages s') = pa_start (pages s) -> pa_end (pages s') = pa_end (pages s) ->
  ((forall q, q ∈ l -> q <> p -> q mod 4096 = 0 -> load64 (ram s') q = load64 (ram s) q) -> pages_inv s' l) ->
  rd_inv s' root (<[p := Data (i * 512 + j)]> R) l /\ forall x, 0 <= x < disk_size -> disk_byte (ram s') root x = disk_byte (ram s) root x.
Proof.
  intros Hinv Hq Hj Hz Hram Hst Hen Hpg. pose proof (ri_root _ _ _ _ Hinv) as Hr. destruct (new_page Hinv) as (_ & Hp0 & HpR & _).
  destruct (ri_index_at _ _ _ _ Hinv q i Hq) as [Hi Hiq].
  assert (forall x, 0 <= x < 512 -> load64 (ram s') (root + 8 * x) = load64 (ram s) (root + 8 * x)) as Hroot.
  { intros x Hx. apply (hook_entry Hinv Hq Hj Hram root Root x Hr Hx). intros [= -> ->]. congruence. }
  assert (forall t k x, R !! t = Some (Index k) -> 0 <= x < 512 -> (t, x) <> (q, j) -> load64 (ram s') (t + 8 * x) = load64 (ram s) (t + 8 * x)) as Hidx.
  { intros t k x Ht Hx Hne. by apply (hook_entry Hinv Hq Hj Hram t (Index k) x Ht Hx). }
  split.
  - split.
    + apply (hook_pages Hinv Hq Hj Hram Hpg).
    + apply (hook_role Hinv Hst Hen).
    + by apply (insert_keep Hinv).
    + intros t [[_ [=]]|[_ Ht]]%lookup_insert_Some. by apply (ri_root_only _ _ _ _ Hinv).
    + intros x Hx. rewrite Hroot by done. apply (insert_zero Hinv). by apply (ri_index _ _ _ _ Hinv).
    + intros t x [[_ [=]]|[_ Ht]]%lookup_insert_Some. destruct (ri_index_at _ _ _ _ Hinv t x Ht) as [Hx He]. split; [exact Hx|]. rewrite Hroot by exact Hx. exact He.
    + intros t k x [[_ [=]]|[_ Ht]]%lookup_insert_Some Hx. destruct (decide ((t, x) = (q, j))) as [[= -> ->]|Hne].
      * assert (k = i) as -> by congruence. right. by rewrite (hook_slot Hinv Hq Hj Hram), lookup_insert_eq.
      * rewrite (Hidx t k x Ht Hx Hne). apply (insert_zero Hinv). by apply (ri_data _ _ _ _ Hinv).
    + intros t k [[<- [= <-]]|[_ Ht]]%lookup_insert_Some.
      * exists q. replace ((i * 512 + j) / 512) with i by zlia. replace ((i * 512 + j) mod 512) with j by zlia.
        split; [by apply (insert_keep Hinv)|apply (hook_slot Hinv Hq Hj Hram)].
      * destruct (ri_data_at _ _ _ _ Hinv t k Ht) as (x & Hx & He). exists x. split; [by apply (insert_keep Hinv)|].
        rewrite (Hidx x _ _ Hx); [done|zlia|]. intros [= -> Hkj]. rewrite Hkj, Hz in He. destruct (role_page Hinv t _ Ht). lia.
  - intros x Hx. unfold disk_size in Hx. assert (0 <= x / 4096 < 512 * 512) as Hk by zlia. unfold disk_byte.
    assert (page_of (ram s') root (x / 4096) = if decide (x / 4096 = i * 512 + j) then p else page_of (ram s) root (x / 4096)) as Hpo.
    { unfold page_of. rewrite Hroot by zlia. destruct (ri_index _ _ _ _ Hinv (x / 4096 / 512) ltac:(zlia)) as [Hzz|He].
      - rewrite Hzz. cbn [Z.eqb]. case_decide as Hd; [|reflexivity]. exfalso. rewrite Hd in Hzz. replace ((i * 512 + j) / 512) with i in Hzz by zlia.
        destruct (role_page Hinv q _ Hq). lia.
      - destruct (role_page Hinv _ _ He) as (_ & Hnz & _). rewrite (proj2 (Z.eqb_neq _ _)) by lia. case_decide as Hd.
        + rewrite Hd. replace ((i * 512 + j) / 512) with i by zlia. replace ((i * 512 + j) mod 512) with j by zlia. rewrite Hiq. apply (hook_slot Hinv Hq Hj Hram).
        + apply (Hidx _ _ _ He); [zlia|]. intros [= Hqq Hjj]. apply Hd. rewrite Hqq, Hq in He. injection He as He. zlia. }
    rewrite Hpo. case_decide as Hd.
    + rewrite (proj2 (Z.eqb_neq p 0)) by lia. rewrite Hram, hooked_new by zlia. unfold page_of.
      replace (x / 4096 / 512) with i by zlia. replace (x / 4096 mod 512) with j by zlia. rewrite Hiq, Hz. by destruct (q =? 0).
    + destruct (page_of_role s root R _ (x / 4096) Hinv Hk) as [Hp|Hp]; [rewrite Hp; reflexivity|].
      case_match; [reflexivity|]. apply (hook_byte Hinv Hq Hj Hram _ _ _ Hp); [intros Heq; rewrite Heq in Hp; congruence|zlia].
Qed.

(** ** Finding the page of a block *)

(** Pages of [l] became pages of the disk; the contents are the same. *)
Record rd_grow (s s' : machine) (root : Z) (R R' : gmap Z role) (l l' : list Z) (n : nat) : Prop := {
  rg_inv : rd_inv s' root R' l';
  rg_sub : R ⊆ R';
  rg_total : forall p, p ∈ l' \/ is_Some (R' !! p) <-> p ∈ l \/ is_Some (R !! p);
  rg_count : (length l <= length l' + n)%nat;
  rg_bytes : forall x, 0 <= x < disk_size -> disk_byte (ram s') root x = disk_byte (ram s) root x;
  rg_other : forall a, (forall p, p ∈ l \/ is_Some (R !! p) -> ~ p <= a < p + 4096) -> rd8 (ram s') a = rd8 (ram s) a
}.

Lemma rd_grow_refl s root R l n : rd_inv s root R l -> rd_grow s s root R R l l n.
Proof. intros Hinv. split; try done. lia. Qed.

Lemma rd_grow_trans s1 s2 s3 root R1 R2 R3 l1 l2 l3 n m :
  rd_grow s1 s2 root R1 R2 l1 l2 n -> rd_grow s2 s3 root R2 R3 l2 l3 m -> rd_grow s1 s3 root R1 R3 l1 l3 (n + m).
Proof.
  intros [A1 A2 A3 A4 A5 A6] [B1 B2 B3 B4 B5 B6]. split.
  - exact B1.
  - by etrans.
  - intros p. by rewrite B3, A3.
  - lia.
  - intros x Hx. by rewrite B5, A5.
  - intros a Ha. rewrite B6; [by apply A6|]. intros p Hp. apply Ha. by apply A3.
Qed.

(** One page is moved from the free list to the disk. *)
Lemma moved_total (R : gmap Z role) p r l q : (q ∈ l \/ is_Some (<[p := r]> R !! q)) <-> (q ∈ p :: l \/ is_Some (R !! q)).
Proof.
  rewrite elem_of_cons. destruct (decide (q = p)) as [->|Hne].
  - rewrite lookup_insert_eq. split; [tauto|]. intros _. right. by eexists.
  - rewrite lookup_insert_ne by congruence. tauto.
Qed.

Lemma index_page s root R l i :
  rd_inv s root R l -> 0 <= i < 512 ->
  (page_at (root + 8 * i) s = TaskFail s /\ l = []) \/
  (exists q s' R' l', page_at (root + 8 * i) s = Ret q s' /\ R' !! q = Some (Index i) /\ rd_grow s s' root R R' l l' 1).
Proof.
  intros Hinv Hi. destruct (ri_index _ _ _ _ Hinv i Hi) as [Hz|He].
  2: { right. exists (load64 (ram s) (root + 8 * i)), s, R, l. assert (load64 (ram s) (root + 8 * i) <> 0) as Hnz.
    { destruct (ri_role _ _ _ _ Hinv _ _ He) as [[_ Hr] _]. destruct (pi_bounds _ _ (ri_pages _ _ _ _ Hinv)). lia. }
    split; [by apply page_at_present|]. split; [exact He|by apply rd_grow_refl]. }
  destruct l as [|p l]; [left; split; [apply page_at_full; [apply Hinv|exact Hz]|reflexivity]|right].
  destruct (page_at_new s (root + 8 * i) p l (ri_pages _ _ _ _ Hinv) Hz) as (s' & Hrun & Hram & Hst & Hen & Hpg).
  destruct (add_index s s' root R p l i Hinv Hi Hz Hram Hst Hen Hpg) as [Hinv' Hb]. destruct (new_page Hinv) as (_ & _ & HpR & _).
  exists p, s', (<[p := Index i]> R), l. split; [exact Hrun|]. split; [by rewrite lookup_insert_eq|]. split.
  - exact Hinv'.
  - by apply insert_subseteq.
  - apply moved_total.
  - cbn [length]. lia.
  - exact Hb.
  - intros a Ha. apply (hook_outside (t := root) (i := i) (p := p) Hi Hram); apply Ha; [left; by left|right; eexists; apply Hinv].
Qed.

Lemma data_page s root R l q i j :
  rd_inv s root R l -> R !! q = Some (Index i) -> 0 <= j < 512 ->
  (page_at (q + 8 * j) s = TaskFail s /\ l = []) \/
  (exists p s' R' l', page_at (q + 8 * j) s = Ret p s' /\ R' !! p = Some (Data (i * 512 + j)) /\ rd_grow s s' root R R' l l' 1).
Proof.
  intros Hinv Hq Hj. destruct (ri_data _ _ _ _ Hinv q i j Hq Hj) as [Hz|He].
  2: { right. exists (load64 (ram s) (q + 8 * j)), s, R, l. assert (load64 (ram s) (q + 8 * j) <> 0) as Hnz.
    { destruct (ri_role _ _ _ _ Hinv _ _ He) as [[_ Hr] _]. destruct (pi_bounds _ _ (ri_pages _ _ _ _ Hinv)). lia. }
    split; [by apply page_at_present|]. split; [exact He|by apply rd_grow_refl]. }
  destruct l as [|p l]; [left; split; [apply page_at_full; [apply Hinv|exact Hz]|reflexivity]|right].
  destruct (page_at_new s (q + 8 * j) p l (ri_pages _ _ _ _ Hinv) Hz) as (s' & Hrun & Hram & Hst & Hen & Hpg).
  destruct (add_data s s' root R p l q i j Hinv Hq Hj Hz Hram Hst Hen Hpg) as [Hinv' Hb]. destruct (new_page Hinv) as (_ & _ & HpR & _).
  exists p, s', (<[p := Data (i * 512 + j)]> R), l. split; [exact Hrun|]. split; [by rewrite lookup_insert_eq|]. split.
  - exact Hinv'.
  - by apply insert_subseteq.
  - apply moved_total.
  - cbn [length]. lia.
  - exact Hb.
  - intros a Ha. apply (hook_outside (t := q) (i := j) (p := p) Hj Hram); apply Ha; [left; by left|right; by eexists].
Qed.

(** The page with number [k] is the one that the entries lead to. *)
Lemma page_of_data s root R l p k : rd_inv s root R l -> R !! p = Some (Data k) -> page_of (ram s) root k = p.
Proof.
  intros Hinv Hp. destruct (ri_data_at _ _ _ _ Hinv p k Hp) as (q & Hq & He). destruct (ri_index_at _ _ _ _ Hinv q _ Hq) as [_ Hroot].
  unfold page_of. rewrite Hroot. destruct (ri_role _ _ _ _ Hinv _ _ Hq) as [[_ Hr] _]. destruct (pi_bounds _ _ (ri_pages _ _ _ _ Hinv)).
  by rewrite (proj2 (Z.eqb_neq _ _)) by lia.
Qed.

(** [walk] finds the page, or fails when no page is free. *)
Lemma disk_walk_spec d R l b :
  rd_inv (rm d) (page_index_index d) R l -> 0 <= b <= nblocks d -> b < 2 ^ 20 ->
  exists s' R' l', rd_grow (rm d) s' (page_index_index d) R R' l l' 2 /\
    ((ramdisk_walk b d = TaskFail (set_rm s' d) /\ l' = []) \/
     (exists p, ramdisk_walk b d = Ret (p, b mod 4 * 1024) (set_rm s' d) /\ R' !! p = Some (Data (b / 4)))).
Proof.
  intros Hinv Hb Hlt. set (root := page_index_index d) in *.
  assert (ramdisk_walk b d = kbind (rmach (page_at (root + 8 * (b / 4 / 512)))) (fun q => kbind (rmach (page_at (q + 8 * (b / 4 mod 512))))
    (fun p => kret (p, b mod 4 * 1024))) d) as Hwalk.
  { unfold ramdisk_walk. unfold kbind at 1, kget. rewrite (proj2 (Z.ltb_ge _ _)) by lia. change page_capacity with 512. unfold bdev_BLOCK_SIZE, PGSIZE.
    rewrite u64_small by lia. replace (b * 1024 / 4096) with (b / 4) by zlia. by replace (b * 1024 mod 4096) with (b mod 4 * 1024) by zlia. }
  destruct (index_page (rm d) root R l (b / 4 / 512) Hinv ltac:(zlia)) as [[Hrun ->]|(q & s1 & R1 & l1 & Hrun & Hq & Hg1)].
  { exists (rm d), R, []. split; [by apply rd_grow_refl|]. left. split; [|reflexivity]. rewrite Hwalk. unfold kbind at 1, rmach. by rewrite Hrun. }
  destruct (data_page s1 root R1 l1 q (b / 4 / 512) (b / 4 mod 512) (rg_inv _ _ _ _ _ _ _ _ Hg1) Hq ltac:(zlia)) as [[Hrun2 ->]|(p & s2 & R2 & l2 & Hrun2 & Hp & Hg2)].
  { exists s1, R1, []. split; [eapply (rd_grow_trans _ _ _ _ _ _ _ _ _ _ 1 1); [exact Hg1|apply rd_grow_refl, Hg1]|]. left. split; [|reflexivity].
    rewrite Hwalk. unfold kbind, rmach. rewrite Hrun. cbn [rm set_rm]. by rewrite Hrun2. }
  exists s2, R2, l2. split; [by eapply (rd_grow_trans _ _ _ _ _ _ _ _ _ _ 1 1)|]. right. exists p.
  split; [rewrite Hwalk; unfold kbind, rmach; rewrite Hrun; cbn [rm set_rm]; by rewrite Hrun2|]. rewrite Hp. f_equal. f_equal. zlia.
Qed.

(** ** The destructor *)

Section destroy.
Context {s0 : machine} {root : Z} {R : gmap Z role} {l0 : list Z} (Hinv : rd_inv s0 root R l0).
Notation m0 := (ram s0).

Lemma role_aligned x r : R !! x = Some r -> x mod 4096 = 0 /\ x <> 0.
Proof.
  intros Hx. destruct (ri_role _ _ _ _ Hinv x r Hx) as [[Hal Hr] _]. destruct (pi_bounds _ _ (ri_pages _ _ _ _ Hinv)). split; [exact Hal|lia].
Qed.

(** The data pages of the index page [i] from [j] on. *)
Definition data_from (i j x : Z) : Prop := exists k, j <= k < 512 /\ R !! x = Some (Data (i * 512 + k)).

Lemma intact_load (B : Z -> Prop) s l x j :
  intact m0 B s l -> B x -> 0 <= j < 512 -> load64 (ram s) (x + 8 * j) = load64 m0 (x + 8 * j).
Proof. intros Hin Hx Hj. apply load_agree. intros b Hb. apply (in_same _ _ _ _ Hin x Hx). lia. Qed.

Lemma free_data_run q i : R !! q = Some (Index i) -> forall n j s l, Z.of_nat n + j = 512 -> 0 <= j ->
  intact m0 (fun x => x = q \/ data_from i j x) s l -> exists s' l', free_data_pages n q j s = Ret tt s' /\ freed (data_from i j) s s' l l'.
Proof.
  intros Hq. induction n as [|n IH]; intros j s l Hn Hj Hin.
  { exists s, l. split; [reflexivity|]. apply freed_none; [apply Hin|]. intros x (k & Hk & _). lia. }
  cbn [free_data_pages]. unfold kbind at 1, kget. rewrite (intact_load _ _ _ q j Hin) by (lia || by left).
  assert (forall x, data_from i j x <-> R !! x = Some (Data (i * 512 + j)) \/ data_from i (j + 1) x) as Hsplit.
  { intros x. split.
    - intros (k & Hk & Hx). destruct (decide (k = j)) as [->|]; [by left|right]. exists k. split; [lia|exact Hx].
    - intros [Hx|(k & Hk & Hx)]; [exists j|exists k]; (split; [lia|exact Hx]). }
  destruct (ri_data _ _ _ _ Hinv q i j Hq ltac:(lia)) as [Hz|He].
  - rewrite Hz. cbn [Z.eqb negb]. unfold kbind at 1, kret. assert (forall x, R !! x <> Some (Data (i * 512 + j))) as Hnone.
    { intros x Hx. destruct (ri_data_at _ _ _ _ Hinv x _ Hx) as (q' & Hq' & He). replace ((i * 512 + j) / 512) with i in Hq' by zlia.
      replace ((i * 512 + j) mod 512) with j in He by zlia. destruct (ri_index_at _ _ _ _ Hinv q i Hq) as [_ E1]. destruct (ri_index_at _ _ _ _ Hinv q' i Hq') as [_ E2].
      assert (q' = q) as -> by congruence. destruct (role_aligned x _ Hx) as [_ Hnz]. apply Hnz. rewrite <- He. exact Hz. }
    destruct (IH (j + 1) s l ltac:(lia) ltac:(lia)) as (s' & l' & Hrun & Hf).
    { eapply intact_mono; [|exact Hin]. intros x [->|Hx]; [by left|right]. apply Hsplit. by right. }
    exists s', l'. split; [exact Hrun|]. destruct Hf as [F1 F2 F3 F4]. split; [exact F1| |exact F3|].
    + intros x. rewrite F2, Hsplit. specialize (Hnone x). tauto.
    + intros a Ha. apply F4. intros x Hx. apply Ha, Hsplit. by right.
  - destruct (role_aligned _ _ He) as [Hal Hnz]. rewrite (proj2 (Z.eqb_neq _ _)) by exact Hnz. cbn [negb]. set (e := load64 m0 (q + 8 * j)) in *.
    destruct (free_one m0 _ s l e Hin) as (s1 & Hrun1 & Hf1); [right; apply Hsplit; by left|]. rewrite (kbind_ret _ _ _ _ _ Hrun1).
    destruct (IH (j + 1) s1 (e :: l) ltac:(lia) ltac:(lia)) as (s' & l' & Hrun & Hf).
    { eapply (intact_freed m0 (fun x => x = e)); [by intros x ->| | |exact Hf1].
      - intros x -> [Heq|(k & Hk & Hx)]; [rewrite <- Heq in Hq; congruence|]. rewrite He in Hx. injection Hx as Hx. lia.
      - eapply intact_mono; [|exact Hin]. intros x [->|Hx]; [by left|right]. apply Hsplit. by right. }
    exists s', l'. split; [exact Hrun|]. eapply freed_trans; [exact Hf1|exact Hf|]. intros x. rewrite Hsplit.
    assert (R !! x = Some (Data (i * 512 + j)) <-> x = e) as Hxe; [|tauto]. split; [|intros ->; exact He].
    intros Hx. rewrite <- (page_of_data _ _ _ _ _ _ Hinv Hx). symmetry. by rewrite <- (page_of_data _ _ _ _ _ _ Hinv He).
Qed.

(** The pages of the indices from [i] on. *)
Definition index_from (i x : Z) : Prop := exists k, i <= k < 512 /\ (R !! x = Some (Index k) \/ data_from k 0 x).

Lemma free_index_run : forall n i s l, Z.of_nat n + i = 512 -> 0 <= i ->
  intact m0 (fun x => x = root \/ index_from i x) s l -> exists s' l', free_index_pages n root i s = Ret tt s' /\ freed (index_from i) s s' l l'.
Proof.
  pose proof (ri_root _ _ _ _ Hinv) as Hroot. induction n as [|n IH]; intros i s l Hn Hi Hin.
  { exists s, l. split; [reflexivity|]. apply freed_none; [apply Hin|]. intros x (k & Hk & _). lia. }
  cbn [free_index_pages]. unfold kbind at 1, kget. rewrite (intact_load _ _ _ root i Hin) by (lia || by left).
  assert (forall x, index_from i x <-> (R !! x = Some (Index i) \/ data_from i 0 x) \/ index_from (i + 1) x) as Hsplit.
  { intros x. split.
    - intros (k & Hk & Hx). destruct (decide (k = i)) as [->|]; [by left|right]. exists k. split; [lia|exact Hx].
    - intros [Hx|(k & Hk & Hx)]; [exists i|exists k]; (split; [lia|exact Hx]). }
  destruct (ri_index _ _ _ _ Hinv i ltac:(lia)) as [Hz|He].
  - rewrite Hz. cbn [Z.eqb negb]. unfold kbind at 1, kret.
    assert (forall x, ~ (R !! x = Some (Index i) \/ data_from i 0 x)) as Hnone.
    { assert (forall x, R !! x <> Some (Index i)) as Hni.
      { intros x Hx. destruct (ri_index_at _ _ _ _ Hinv x i Hx) as [_ E]. destruct (role_aligned x _ Hx). congruence. }
      intros x [Hx|(k & Hk & Hx)]; [by apply (Hni x)|]. destruct (ri_data_at _ _ _ _ Hinv x _ Hx) as (q & Hq & _).
      replace ((i * 512 + k) / 512) with i in Hq by zlia. by apply (Hni q). }
    destruct (IH (i + 1) s l ltac:(lia) ltac:(lia)) as (s' & l' & Hrun & Hf).
    { eapply intact_mono; [|exact Hin]. intros x [->|Hx]; [by left|right]. apply Hsplit. by right. }
    exists s', l'. split; [exact Hrun|]. destruct Hf as [F1 F2 F3 F4]. split; [exact F1| |exact F3|].
    + intros x. rewrite F2, Hsplit. specialize (Hnone x). tauto.
    + intros a Ha. apply F4. intros x Hx. apply Ha, Hsplit. by right.
  - destruct (role_aligned _ _ He) as [Hal Hnz]. rewrite (proj2 (Z.eqb_neq _ _)) by exact Hnz. cbn [negb]. set (e := load64 m0 (root + 8 * i)) in *.
    assert (forall x, data_from i 0 x -> x mod 4096 = 0) as Hda by (intros x (k & _ & Hx); apply (role_aligned x _ Hx)).
    destruct (free_data_run e i He 512 0 s l ltac:(lia) ltac:(lia)) as (s1 & l1 & Hrun1 & Hf1).
    { eapply intact_mono; [|exact Hin]. intros x Hx. right. apply Hsplit. left. destruct Hx as [->|Hx]; [by left|by right]. }
    assert (intact m0 (fun x => x = root \/ x = e \/ index_from (i + 1) x) s1 l1) as Hin1.
    { eapply (intact_freed m0 (data_from i 0)); [exact Hda| | |exact Hf1].
      - intros x (k & Hk & Hx) [->|[->|(k' & Hk' & [Hx'|(k'' & Hk'' & Hx')])]]; try congruence. rewrite Hx in Hx'. injection Hx' as Hx'. lia.
      - eapply intact_mono; [|exact Hin]. intros x [->|[->|Hx]]; [by left|right; apply Hsplit; left; by left|right; apply Hsplit; by right]. }
    destruct (free_one m0 _ s1 l1 e Hin1) as (s2 & Hrun2 & Hf2); [right; by left|].
    destruct (IH (i + 1) s2 (e :: l1) ltac:(lia) ltac:(lia)) as (s' & l' & Hrun & Hf).
    { eapply (intact_freed m0 (fun x => x = e)); [by intros x ->| | |exact Hf2].
      - intros x -> [Heq|(k & Hk & [Hx|(k' & Hk' & Hx)])]; [rewrite <- Heq in Hroot; congruence| |congruence]. rewrite He in Hx. injection Hx as Hx. lia.
      - eapply intact_mono; [|exact Hin1]. intros x [->|Hx]; [by left|right; by right]. }
    exists s', l'. split.
    + unfold kbind at 1. unfold kbind at 1. change (Z.to_nat page_capacity) with 512%nat. rewrite Hrun1, Hrun2. exact Hrun.
    + eapply freed_trans; [exact Hf1|apply (freed_trans _ _ (fun x => x = e \/ index_from (i + 1) x) _ _ _ _ _ _ Hf2 Hf); intros x; reflexivity|]. intros x. rewrite Hsplit.
      assert (R !! x = Some (Index i) <-> x = e) as Hxe; [|tauto]. split; [|intros ->; exact He].
      intros Hx. destruct (ri_index_at _ _ _ _ Hinv x i Hx) as [_ E]. symmetry. exact E.
Qed.

Lemma all_roles x : is_Some (R !! x) <-> x = root \/ index_from 0 x.
Proof.
  split.
  - intros [[|k|k] Hx]; [left; by apply (ri_root_only _ _ _ _ Hinv)|right; exists k|right; exists (k / 512)].
    + split; [by apply (ri_index_at _ _ _ _ Hinv x)|by left].
    + destruct (ri_data_at _ _ _ _ Hinv x k Hx) as (q & Hq & _). split; [by apply (ri_index_at _ _ _ _ Hinv q)|right].
      exists (k mod 512). split; [zlia|]. rewrite Hx. f_equal. f_equal. zlia.
  - intros [->|(k & _ & [Hx|(j & _ & Hx)])]; eexists; [apply Hinv|exact Hx|exact Hx].
Qed.

Lemma destroy_run :
  exists s' l', (free_index_pages 512 root 0 ;;; free_page root) s0 = Ret tt s' /\ pages_inv s' l' /\ forall x, x ∈ l' <-> x ∈ l0 \/ is_Some (R !! x).
Proof.
  assert (intact m0 (fun x => x = root \/ index_from 0 x) s0 l0) as Hin.
  { split; [apply Hinv|by intros x _ a _|..]; intros x Hx; apply all_roles in Hx as [r Hx]; by apply (ri_role _ _ _ _ Hinv x r Hx). }
  destruct (free_index_run 512 0 s0 l0 ltac:(lia) ltac:(lia) Hin) as (s1 & l1 & Hrun1 & Hf1).
  assert (intact m0 (fun x => x = root) s1 l1) as Hin1.
  { eapply (intact_freed m0 (index_from 0)); [| | |exact Hf1].
    - intros x Hx. assert (is_Some (R !! x)) as [r Hr] by (apply all_roles; by right). apply (role_aligned x r Hr).
    - intros x (k & _ & [Hx|(j & _ & Hx)]) ->; pose proof (ri_root _ _ _ _ Hinv); congruence.
    - eapply intact_mono; [|exact Hin]. intros x ->. by left. }
  destruct (free_one m0 _ s1 l1 root Hin1 eq_refl) as (s2 & Hrun2 & Hf2). exists s2, (root :: l1). split; [|split; [apply Hf2|]].
  - unfold kbind. by rewrite Hrun1.
  - intros x. rewrite elem_of_cons, (fr_list _ _ _ _ _ Hf1), all_roles. tauto.
Qed.
End destroy.

(** ** Reading and writing blocks *)

(** The buffer of a transfer is not memory of the disk. *)
Definition buffer_apart (R : gmap Z role) (l : list Z) (buf : Z) : Prop :=
  forall a p, buf <= a < buf + 1024 -> p ∈ l \/ is_Some (R !! p) -> ~ p <= a < p + 4096.

(** Writes outside the disk and the free pages. *)
Lemma rd_write_other s root R l f :
  rd_inv s root R l -> (forall a p, p ∈ l \/ is_Some (R !! p) -> p <= a < p + 4096 -> rd8 (f (ram s)) a = rd8 (ram s) a) ->
  rd_inv (set_ram f s) root R l /\ forall x, 0 <= x < disk_size -> disk_byte (f (ram s)) root x = disk_byte (ram s) root x.
Proof.
  intros Hinv Hf.
  assert (forall p j, p ∈ l \/ is_Some (R !! p) -> 0 <= j < 512 -> load64 (f (ram s)) (p + 8 * j) = load64 (ram s) (p + 8 * j)) as Hload.
  { intros p j Hp Hj. apply load_agree. intros b Hb. apply (Hf b p Hp). lia. }
  assert (is_Some (R !! root)) as Hroot by (eexists; apply Hinv). split.
  - split; cbn [set_ram ram pages]; try apply Hinv.
    + apply pages_inv_client_write; [apply Hinv|]. intros p Hp. pose proof (Hload p 0 (or_introl Hp) ltac:(lia)) as H. by rewrite Z.mul_0_r, Z.add_0_r in H.
    + intros i Hi. rewrite Hload by (lia || by right). by apply (ri_index _ _ _ _ Hinv).
    + intros p i Hp. destruct (ri_index_at _ _ _ _ Hinv p i Hp) as [Hi He]. split; [exact Hi|]. rewrite Hload by (lia || by right). exact He.
    + intros q i j Hq Hj. rewrite Hload by (lia || (right; by eexists)). by apply (ri_data _ _ _ _ Hinv).
    + intros p k Hp. destruct (ri_data_at _ _ _ _ Hinv p k Hp) as (q & Hq & He). exists q. split; [exact Hq|]. rewrite Hload by (zlia || (right; by eexists)). exact He.
  - intros x Hx. unfold disk_size in Hx. assert (page_of (f (ram s)) root (x / 4096) = page_of (ram s) root (x / 4096)) as Hpo.
    { unfold page_of. rewrite Hload by (zlia || by right). destruct (ri_index _ _ _ _ Hinv (x / 4096 / 512) ltac:(zlia)) as [->|He]; [reflexivity|].
      by rewrite (Hload _ (x / 4096 mod 512)) by (zlia || (right; by eexists)). }
    unfold disk_byte. rewrite Hpo. destruct (page_of_role s root R l (x / 4096) Hinv ltac:(zlia)) as [Hd|Hd]; [rewrite Hd; reflexivity|].
    case_match; [reflexivity|]. apply (Hf _ (page_of (ram s) root (x / 4096))); [right; by eexists|zlia].
Qed.

(** Writes to bytes of a page with data. *)
Lemma rd_write_data s root R l f p k off n :
  rd_inv s root R l -> R !! p = Some (Data k) -> 0 <= off -> 0 <= n -> off + n <= 4096 ->
  (forall a, ~ p + off <= a < p + off + n -> rd8 (f (ram s)) a = rd8 (ram s) a) ->
  rd_inv (set_ram f s) root R l /\ forall x, 0 <= x < disk_size -> disk_byte (f (ram s)) root x =
    if decide (k * 4096 + off <= x < k * 4096 + off + n) then rd8 (f (ram s)) (p + (x - k * 4096)) else disk_byte (ram s) root x.
Proof.
  intros Hinv Hp Hoff Hn Hend Hf. destruct (role_aligned Hinv p _ Hp) as [Hpal Hpnz].
  assert (forall q r j, R !! q = Some r -> q <> p -> 0 <= j < 512 -> load64 (f (ram s)) (q + 8 * j) = load64 (ram s) (q + 8 * j)) as Hload.
  { intros q r j Hq Hne Hj. destruct (role_aligned Hinv q _ Hq). apply load_agree. intros b Hb. apply Hf. zlia. }
  assert (forall q i, R !! q = Some (Index i) -> q <> p) as Hqp by congruence. assert (root <> p) as Hrp by (pose proof (ri_root _ _ _ _ Hinv); congruence).
  pose proof (ri_root _ _ _ _ Hinv) as Hroot. split.
  - split; cbn [set_ram ram pages]; try apply Hinv.
    + apply pages_inv_client_write; [apply Hinv|]. intros q Hq. destruct (pages_inv_free_pages _ _ q (ri_pages _ _ _ _ Hinv) Hq) as [[Hal _] _]. unfold PGSIZE in Hal.
      destruct (ri_role _ _ _ _ Hinv p _ Hp) as [_ Hpl]. assert (q <> p) by congruence. apply load_agree. intros b Hb. apply Hf. zlia.
    + intros i Hi. rewrite (Hload root Root) by done. by apply (ri_index _ _ _ _ Hinv).
    + intros q i Hq. destruct (ri_index_at _ _ _ _ Hinv q i Hq) as [Hi He]. split; [exact Hi|]. by rewrite (Hload root Root) by done.
    + intros q i j Hq Hj. rewrite (Hload q (Index i)) by eauto. by apply (ri_data _ _ _ _ Hinv).
    + intros q i Hq. destruct (ri_data_at _ _ _ _ Hinv q i Hq) as (t & Ht & He). exists t. split; [exact Ht|]. rewrite (Hload t _ _ Ht) by (eauto || zlia). exact He.
  - intros x Hx. unfold disk_size in Hx. assert (page_of (f (ram s)) root (x / 4096) = page_of (ram s) root (x / 4096)) as Hpo.
    { unfold page_of. rewrite (Hload root Root) by (done || zlia). destruct (ri_index _ _ _ _ Hinv (x / 4096 / 512) ltac:(zlia)) as [->|He]; [reflexivity|].
      by rewrite (Hload _ _ _ He) by (eauto || zlia). }
    unfold disk_byte. rewrite Hpo. destruct (decide (x / 4096 = k)) as [Hk|Hk].
    + rewrite Hk, (page_of_data _ _ _ _ _ _ Hinv Hp), (proj2 (Z.eqb_neq _ _)) by exact Hpnz. replace (x - k * 4096) with (x mod 4096) by zlia.
      case_decide; [reflexivity|]. apply Hf. zlia.
    + rewrite decide_False by zlia. destruct (page_of_role s root R l (x / 4096) Hinv ltac:(zlia)) as [Hd|Hd]; [rewrite Hd; reflexivity|].
      case_match; [reflexivity|]. destruct (role_aligned Hinv _ _ Hd). assert (page_of (ram s) root (x / 4096) <> p) by congruence. apply Hf. zlia.
Qed.

Lemma disk_read_spec d R l b buf :
  rd_inv (rm d) (page_index_index d) R l -> is_ramdisk d = true -> 0 <= b <= nblocks d -> b < 2 ^ 20 -> (2 < length l)%nat -> buffer_apart R l buf ->
  exists s' R' l', ramdisk_read b 1 buf d = Ret 0 (set_rm s' d) /\ rd_inv s' (page_index_index d) R' l' /\
    (forall p, p ∈ l' \/ is_Some (R' !! p) <-> p ∈ l \/ is_Some (R !! p)) /\ (length l <= length l' + 2)%nat /\
    (forall x, 0 <= x < disk_size -> disk_byte (ram s') (page_index_index d) x = disk_byte (ram (rm d)) (page_index_index d) x) /\
    (forall j, 0 <= j < 1024 -> rd8 (ram s') (buf + j) = disk_byte (ram (rm d)) (page_index_index d) (b * 1024 + j)).
Proof.
  intros Hinv Hid Hb Hlt Hfree Hbuf. destruct (disk_walk_spec d R l b Hinv Hb Hlt) as (s1 & R1 & l1 & [G1 G2 G3 G4 G5 G6] & Hres).
  destruct Hres as [[_ ->]|(p & Hrun & Hp)]; [cbn [length] in G4; lia|]. set (root := page_index_index d) in *.
  set (f := fun m => memcpy m buf (p + b mod 4 * 1024) (Z.to_nat (u64 (1 * bdev_BLOCK_SIZE)))).
  assert (forall a q, q ∈ l1 \/ is_Some (R1 !! q) -> buf <= a < buf + 1024 -> ~ q <= a < q + 4096) as Hap.
  { intros a q Hq Ha. apply (Hbuf a q Ha). by apply G3. }
  assert (forall a, rd8 (f (ram s1)) a = if decide (buf <= a < buf + 1024) then rd8 (ram s1) (p + b mod 4 * 1024 + (a - buf)) else rd8 (ram s1) a) as Hf.
  { intros a. unfold f, memcpy. rewrite copy_up_spec; [|right].
    - change (Z.of_nat (Z.to_nat (u64 (1 * bdev_BLOCK_SIZE)))) with 1024. by rewrite !Z.add_0_r.
    - change (Z.of_nat (Z.to_nat (u64 (1 * bdev_BLOCK_SIZE)))) with 1024. pose proof (Hap buf p (or_intror (ex_intro _ _ Hp)) ltac:(lia)).
      pose proof (Hap (buf + 1023) p (or_intror (ex_intro _ _ Hp)) ltac:(lia)). destruct (decide (buf < p)); [|zlia].
      destruct (decide (p < buf + 1024)); [|zlia]. exfalso. apply (Hap p p (or_intror (ex_intro _ _ Hp)) ltac:(lia)). lia. }
  destruct (rd_write_other s1 root R1 l1 f G1) as [Hinv' Hbytes].
  { intros a q Hq Ha. rewrite Hf, decide_False; [reflexivity|]. intros Hin. by apply (Hap a q Hq Hin). }
  exists (set_ram f s1), R1, l1. split; [|split; [exact Hinv'|]].
  - unfold ramdisk_read. unfold kbind at 1, kget. rewrite Hid. cbn [negb]. rewrite (kbind_ret _ _ _ _ _ Hrun). reflexivity.
  - split; [exact G3|]. split; [exact G4|]. split; [intros x Hx; cbn [set_ram ram]; rewrite Hbytes, G5 by exact Hx; reflexivity|].
    intros j Hj. cbn [set_ram ram]. rewrite Hf, decide_True by lia. rewrite <- G5 by (unfold disk_size; lia). unfold disk_byte.
    replace ((b * 1024 + j) / 4096) with (b / 4) by zlia. rewrite (page_of_data _ _ _ _ _ _ G1 Hp).
    destruct (role_aligned G1 p _ Hp) as [_ Hnz]. rewrite (proj2 (Z.eqb_neq _ _)) by exact Hnz. f_equal. zlia.
Qed.

Lemma disk_write_spec d R l b buf :
  rd_inv (rm d) (page_index_index d) R l -> is_ramdisk d = true -> 0 <= b <= nblocks d -> b < 2 ^ 20 -> (2 < length l)%nat -> buffer_apart R l buf ->
  exists s' R' l', ramdisk_write b 1 buf d = Ret 0 (set_rm s' d) /\ rd_inv s' (page_index_index d) R' l' /\
    (forall p, p ∈ l' \/ is_Some (R' !! p) <-> p ∈ l \/ is_Some (R !! p)) /\ (length l <= length l' + 2)%nat /\
    (forall x, 0 <= x < disk_size -> disk_byte (ram s') (page_index_index d) x =
      if decide (b * 1024 <= x < b * 1024 + 1024) then rd8 (ram (rm d)) (buf + (x - b * 1024)) else disk_byte (ram (rm d)) (page_index_index d) x).
Proof.
  intros Hinv Hid Hb Hlt Hfree Hbuf. destruct (disk_walk_spec d R l b Hinv Hb Hlt) as (s1 & R1 & l1 & [G1 G2 G3 G4 G5 G6] & Hres).
  destruct Hres as [[_ ->]|(p & Hrun & Hp)]; [cbn [length] in G4; lia|]. set (root := page_index_index d) in *.
  set (f := fun m => memcpy m (p + b mod 4 * 1024) buf (Z.to_nat (u64 (1 * bdev_BLOCK_SIZE)))).
  assert (forall a q, q ∈ l1 \/ is_Some (R1 !! q) -> buf <= a < buf + 1024 -> ~ q <= a < q + 4096) as Hap.
  { intros a q Hq Ha. apply (Hbuf a q Ha). by apply G3. }
  assert (forall a, rd8 (f (ram s1)) a = if decide (p + b mod 4 * 1024 <= a < p + b mod 4 * 1024 + 1024) then rd8 (ram s1) (buf + (a - (p + b mod 4 * 1024)))
    else rd8 (ram s1) a) as Hf.
  { intros a. unfold f, memcpy. rewrite copy_up_spec; [|right].
    - change (Z.of_nat (Z.to_nat (u64 (1 * bdev_BLOCK_SIZE)))) with 1024. by rewrite !Z.add_0_r.
    - change (Z.of_nat (Z.to_nat (u64 (1 * bdev_BLOCK_SIZE)))) with 1024. pose proof (Hap buf p (or_intror (ex_intro _ _ Hp)) ltac:(lia)).
      destruct (decide (buf < p)); [|zlia]. destruct (decide (p < buf + 1024)); [|zlia]. exfalso. apply (Hap p p (or_intror (ex_intro _ _ Hp)) ltac:(lia)). lia. }
  destruct (rd_write_data s1 root R1 l1 f p (b / 4) (b mod 4 * 1024) 1024 G1 Hp) as [Hinv' Hbytes]; [zlia|lia|zlia| |].
  { intros a Ha. by rewrite Hf, decide_False. }
  exists (set_ram f s1), R1, l1. split; [|split; [exact Hinv'|]].
  - unfold ramdisk_write. unfold kbind at 1, kget. rewrite Hid. cbn [negb]. rewrite (kbind_ret _ _ _ _ _ Hrun). reflexivity.
  - split; [exact G3|]. split; [exact G4|]. intros x Hx. cbn [set_ram ram]. rewrite Hbytes by exact Hx.
    replace (b / 4 * 4096 + b mod 4 * 1024) with (b * 1024) by zlia. case_decide as Hin; [|by apply G5].
    rewrite Hf, decide_True by zlia. replace (p + (x - b / 4 * 4096) - (p + b mod 4 * 1024)) with (x - b * 1024) by zlia.
    apply G6. intros q Hq. apply (Hbuf _ q); [lia|exact Hq].
Qed.

(** ** The disk as an array of bytes *)

Inductive disk_op := ReadBlock (b : Z) | WriteBlock (b : Z) (bytes : list Z).

(** The array: what an operation returns, and the array after it. *)
Definition array_op (op : disk_op) (f : Z -> Z) : list Z * (Z -> Z) :=
  match op with
  | ReadBlock b => ((fun j => f (b * 1024 + j)) <$> seqZ 0 1024, f)
  | WriteBlock b bytes => ([], fun x => if decide (b * 1024 <= x < b * 1024 + 1024) then nthZ bytes (x - b * 1024) else f x)
  end.

Fixpoint array_ops (ops : list disk_op) (f : Z -> Z) : list (list Z) :=
  match ops with
  | [] => []
  | op :: ops' => let '(r, f') := array_op op f in r :: array_ops ops' f'
  end.

(** A client of the disk with a buffer at [buf]. *)
Definition client_op (buf : Z) (op : disk_op) : K ramdisk (list Z) :=
  match op with
  | ReadBlock b =>
      ramdisk_read b 1 buf ;;;
      d <- kget ;;
      kret (rd_bytes 1024 (ram (rm d)) buf)
  | WriteBlock b bytes =>
      rmach (kmodify (set_ram (fun m => wr_bytes m buf bytes))) ;;;
      ramdisk_write b 1 buf ;;;
      kret []
  end.

Fixpoint client_ops (buf : Z) (ops : list disk_op) : K ramdisk (list (list Z)) :=
  match ops with
  | [] => kret []
  | op :: ops' =>
      r <- client_op buf op ;;
      rs <- client_ops buf ops' ;;
      kret (r :: rs)
  end.

Definition op_ok (nb : Z) (op : disk_op) : Prop :=
  match op with
  | ReadBlock b => 0 <= b < nb
  | WriteBlock b bytes => 0 <= b < nb /\ length bytes = 1024%nat /\ Forall (fun x => 0 <= x < 256) bytes
  end.

Lemma rd_bytes_seqZ n m a : rd_bytes n m a = (fun j => rd8 m (a + j)) <$> seqZ 0 (Z.of_nat n).
Proof.
  apply list_eq. intros i. rewrite list_lookup_fmap. destruct (decide (i < n)%nat) as [Hi|Hi].
  - rewrite rd_bytes_lookup, lookup_seqZ_lt by lia. done.
  - rewrite lookup_seqZ_ge, lookup_ge_None_2 by (rewrite ?length_rd_bytes; lia). done.
Qed.

Lemma client_op_spec d R l buf op f :
  rd_inv (rm d) (page_index_index d) R l -> is_ramdisk d = true -> nblocks d <= 2 ^ 20 -> op_ok (nblocks d) op -> (2 < length l)%nat ->
  buffer_apart R l buf -> (forall x, 0 <= x < disk_size -> disk_byte (ram (rm d)) (page_index_index d) x = f x) ->
  exists s' R' l', client_op buf op d = Ret (fst (array_op op f)) (set_rm s' d) /\ rd_inv s' (page_index_index d) R' l' /\
    (forall p, p ∈ l' \/ is_Some (R' !! p) <-> p ∈ l \/ is_Some (R !! p)) /\ (length l <= length l' + 2)%nat /\
    (forall x, 0 <= x < disk_size -> disk_byte (ram s') (page_index_index d) x = snd (array_op op f) x).
Proof.
  intros Hinv Hid Hnb Hop Hfree Hbuf Hf. destruct op as [b|b bytes]; cbn [op_ok client_op array_op fst snd] in *.
  - destruct (disk_read_spec d R l b buf Hinv Hid ltac:(lia) ltac:(lia) Hfree Hbuf) as (s' & R' & l' & Hrun & Hinv' & Htot & Hc & Hb & Hr).
    exists s', R', l'. split; [|split; [exact Hinv'|]; split; [exact Htot|]; split; [exact Hc|]; intros x Hx; rewrite Hb by exact Hx; by apply Hf].
    rewrite (kbind_ret _ _ _ _ _ Hrun). unfold kbind, kget, kret. cbn [rm set_rm]. f_equal. rewrite rd_bytes_seqZ. apply list_fmap_ext. intros i j Hj.
    apply lookup_seqZ in Hj. rewrite Hr by lia. apply Hf. unfold disk_size. lia.
  - destruct Hop as (Hb & Hlen & Hbytes). set (g := fun m => wr_bytes m buf bytes).
    destruct (rd_write_other (rm d) (page_index_index d) R l g Hinv) as [Hinv1 Hsame].
    { intros a p Hp Ha. unfold g. apply wr_bytes_other. rewrite Hlen. destruct (decide (buf <= a < buf + 1024)) as [Hin|]; [|lia]. by destruct (Hbuf a p Hin Hp). }
    destruct (disk_write_spec (set_rm (set_ram g (rm d)) d) R l b buf) as (s' & R' & l' & Hrun & Hinv' & Htot & Hc & Hw); [exact Hinv1|exact Hid|cbn; lia|cbn; lia|exact Hfree|exact Hbuf|].
    cbn [set_rm rm page_index_index set_ram ram] in *. exists s', R', l'. split; [|split; [exact Hinv'|]; split; [exact Htot|]; split; [exact Hc|]].
    + unfold kbind at 1, rmach, kmodify. rewrite (kbind_ret _ _ _ _ _ Hrun). reflexivity.
    + intros x Hx. rewrite Hw by exact Hx. case_decide as Hin; [|rewrite Hsame by exact Hx; by apply Hf]. unfold g.
      destruct (lookup_lt_is_Some_2 bytes (Z.to_nat (x - b * 1024))) as [v Hv]; [lia|]. rewrite (nthZ_lookup _ _ _ Hv).
      rewrite (wr_bytes_inside _ _ _ _ v); [apply u8_small; by apply (Forall_lookup_1 _ _ _ _ Hbytes Hv)|lia|]. replace (buf + (x - b * 1024) - buf) with (x - b * 1024) by lia. exact Hv.
Qed.

Lemma client_ops_spec ops : forall d R l buf f,
  rd_inv (rm d) (page_index_index d) R l -> is_ramdisk d = true -> nblocks d <= 2 ^ 20 -> Forall (op_ok (nblocks d)) ops -> (2 * length ops < length l)%nat ->
  buffer_apart R l buf -> (forall x, 0 <= x < disk_size -> disk_byte (ram (rm d)) (page_index_index d) x = f x) ->
  exists s' R' l', client_ops buf ops d = Ret (array_ops ops f) (set_rm s' d) /\ rd_inv s' (page_index_index d) R' l' /\
    (forall p, p ∈ l' \/ is_Some (R' !! p) <-> p ∈ l \/ is_Some (R !! p)).
Proof.
  induction ops as [|op ops IH]; intros d R l buf f Hinv Hid Hnb Hops Hfree Hbuf Hf.
  { exists (rm d), R, l. split; [by destruct d|done]. }
  apply Forall_cons in Hops as [Hop Hops]. cbn [length] in Hfree.
  destruct (client_op_spec d R l buf op f Hinv Hid Hnb Hop ltac:(lia) Hbuf Hf) as (s1 & R1 & l1 & Hrun1 & Hinv1 & Htot1 & Hc1 & Hf1).
  destruct (IH (set_rm s1 d) R1 l1 buf (snd (array_op op f))) as (s' & R' & l' & Hrun & Hinv' & Htot); [exact Hinv1|exact Hid|exact Hnb|exact Hops|lia| |exact Hf1|].
  { intros a p Ha Hp. apply (Hbuf a p Ha). by apply Htot1. }
  exists s', R', l'. split; [|split; [exact Hinv'|]].
  - cbn [client_ops array_ops]. rewrite (kbind_ret _ _ _ _ _ Hrun1), (kbind_ret _ _ _ _ _ Hrun). by destruct (array_op op f).
  - intros p. by rewrite Htot, Htot1.
Qed.

(** A new disk is all zeros. *)
Lemma new_spec d r l nb :
  pages_inv (rm d) (r :: l) -> exists s', ramdisk_new nb d = Ret tt (Ramdisk s' (dev_this d) r nb (dev_reg d)) /\ rd_inv s' r {[r := Root]} l /\
    forall x, 0 <= x < disk_size -> disk_byte (ram s') r x = 0.
Proof.
  intros Hpg. destruct (alloc_page_correct _ _ Hpg) as (s1 & Hrun & Hpg1 & Hram & Hst & Hen).
  destruct (pages_inv_free_pages _ _ r Hpg) as [Hok Hr]; [by left|]. pose proof (pi_nodup _ _ Hpg) as [Hnin _]%NoDup_cons.
  exists (set_ram (fun m => memset m r 0 (Z.to_nat PGSIZE)) s1).
  assert (forall i, 0 <= i < 512 -> load64 (memset (ram s1) r 0 (Z.to_nat PGSIZE)) (r + 8 * i) = 0) as Hz.
  { intros i Hi. apply (memset_zero_load _ _ _ 8); unfold PGSIZE; lia. }
  split; [|split].
  - unfold ramdisk_new. unfold kbind at 1, rmach at 1. rewrite Hrun. unfold kbind at 1, kmodify at 1. rewrite (proj2 (Z.eqb_neq _ _)) by lia. reflexivity.
  - split; cbn [set_ram ram pages].
    + apply pages_inv_client_write; [exact Hpg1|]. intros p Hp. destruct (pages_inv_free_pages _ _ p Hpg) as [[Hpal _] _]; [by right|]. unfold PGSIZE in Hpal.
      assert (p <> r) by congruence. destruct Hok as [Hal _]. unfold PGSIZE in Hal. apply (memset_load _ _ _ _ 8). unfold PGSIZE. zlia.
    + intros p x [<- _]%lookup_singleton_Some. split; [by eapply page_ok_ext|exact Hnin].
    + by apply lookup_singleton_Some.
    + by intros p [<- _]%lookup_singleton_Some.
    + intros i Hi. left. by apply Hz.
    + by intros p i [_ [=]]%lookup_singleton_Some.
    + by intros q i j [_ [=]]%lookup_singleton_Some.
    + by intros p k [_ [=]]%lookup_singleton_Some.
  - intros x Hx. unfold disk_size in Hx. unfold disk_byte, page_of. cbn [set_ram ram]. rewrite Hz by zlia. reflexivity.
Qed.

Lemma destroy_rmach d s' :
  (free_index_pages 512 (page_index_index d) 0 ;;; free_page (page_index_index d)) (rm d) = Ret tt s' -> ramdisk_destroy d = Ret tt (set_rm s' d).
Proof. intros Hrun. unfold ramdisk_destroy, rmach. change (Z.to_nat page_capacity) with 512%nat. unfold kbind at 1, kget. by rewrite Hrun. Qed.

(** C26. The ram disk is an array of bytes.  A disk is made, opened, used by a
    client for any sequence of block reads and writes inside its capacity, closed
    and destroyed: with enough free pages every operation succeeds and returns what
    it would on an array of zeros, and afterwards the pages that are free are those
    that were free before. *)
Theorem ramdisk_refines d l0 nb buf ops :
  pages_inv (rm d) l0 -> nb <= 2 ^ 20 -> Forall (op_ok nb) ops -> (2 * length ops + 1 < length l0)%nat ->
  (forall a p, buf <= a < buf + 1024 -> p ∈ l0 -> ~ p <= a < p + 4096) ->
  exists d' l', (ramdisk_new nb ;;;
     _ <- ramdisk_open ;;
     rs <- client_ops buf ops ;;
     ramdisk_close ;;;
     ramdisk_destroy ;;;
     kret rs) d = Ret (array_ops ops (fun _ => 0)) d' /\ pages_inv (rm d') l' /\ l' ≡ₚ l0.
Proof.
  intros Hpg Hnb Hops Hlen Hbuf. destruct l0 as [|r l]; [cbn in Hlen; lia|]. cbn [length] in Hlen.
  destruct (new_spec d r l nb Hpg) as (s1 & Hrun1 & Hinv1 & Hz). rewrite (kbind_ret _ _ _ _ _ Hrun1).
  destruct (pages_inv_free_pages _ _ r Hpg) as [_ Hr]; [by left|].
  set (d1 := Ramdisk s1 (dev_this d) r nb (register_device (dev_this d) ramdisk_id (dev_reg d))).
  rewrite (kbind_ret _ _ _ 0 d1) by (unfold ramdisk_open; unfold kbind at 1, kget; cbn [page_index_index]; by rewrite (proj2 (Z.eqb_neq _ _)) by lia).
  destruct (client_ops_spec ops d1 {[r := Root]} l buf (fun _ => 0)) as (s2 & R2 & l2 & Hrun2 & Hinv2 & Htot);
    [exact Hinv1| |exact Hnb|exact Hops|lia| |exact Hz|].
  { unfold is_ramdisk. apply bool_decide_eq_true. cbn [d1 dev_reg register_device device_ids dev_this]. by rewrite lookup_insert_eq. }
  { intros a p Ha [Hp|[x [<- _]%lookup_singleton_Some]]; apply (Hbuf a _ Ha); [by right|by left]. }
  rewrite (kbind_ret _ _ _ _ _ Hrun2). unfold kbind at 1, ramdisk_close, kmodify.
  destruct (destroy_run Hinv2) as (s3 & l3 & Hrun3 & Hpg3 & Hl3). exists (set_rm s3 (set_dev_reg (deregister_device (dev_this d) (dev_reg d1)) (set_rm s2 d1))), l3.
  split; [|split; [exact Hpg3|]].
  - rewrite (kbind_ret _ _ _ _ _ (destroy_rmach (set_dev_reg (deregister_device (dev_this d) (dev_reg d1)) (set_rm s2 d1)) s3 Hrun3)). reflexivity.
  - apply NoDup_Permutation; [apply Hpg3|apply Hpg|]. intros x. rewrite Hl3, Htot, elem_of_cons. split.
    + intros [Hx|[y [<- _]%lookup_singleton_Some]]; tauto.
    + intros [->|Hx]; [right; eexists; by apply lookup_singleton_Some|by left].
Qed.

(** Twelve free pages and a buffer behind them. *)
Definition disk_free : list Z := (fun i => 0x1000 * (2 + i)) <$> seqZ 0 12.
Definition disk_machine : machine :=
  Machine (foldr (fun p m => store64 m p (if p =? 0xd000 then 0 else p + 0x1000)) ∅ disk_free) (PageAllocator 0x2000 12 0x1000 0xe000).
Definition raw_disk : ramdisk := Ramdisk disk_machine 0xf000 0 0 (Registry [] ∅).
Definition sample_ops : list disk_op := [WriteBlock 5 (replicate 1024%nat 7); ReadBlock 5; ReadBlock 4; ReadBlock 4098].

Lemma disk_machine_pages : pages_inv disk_machine disk_free.
Proof.
  split; [by vm_compute|by vm_compute| | |by vm_compute].
  - by apply (bool_decide_unpack _); vm_compute.
  - apply Forall_forall. intros p (i & -> & Hi%elem_of_seqZ)%list_elem_of_fmap. unfold page_ok, PGSIZE. cbn [disk_machine pages pa_start pa_end]. zlia.
Qed.

Lemma ramdisk_refines_witness :
  exists d' l', (ramdisk_new 5000 ;;;
     _ <- ramdisk_open ;;
     rs <- client_ops 0x10000 sample_ops ;;
     ramdisk_close ;;;
     ramdisk_destroy ;;;
     kret rs) raw_disk = Ret [[]; replicate 1024%nat 7; replicate 1024%nat 0; replicate 1024%nat 0] d' /\ pages_inv (rm d') l' /\ l' ≡ₚ disk_free.
Proof.
  assert ([[]; replicate 1024%nat 7; replicate 1024%nat 0; replicate 1024%nat 0] = array_ops sample_ops (fun _ => 0)) as -> by (vm_compute; reflexivity).
  apply (ramdisk_refines raw_disk disk_free 5000 0x10000 sample_ops).
  - exact disk_machine_pages.
  - lia.
  - apply Forall_cons. split; [split; [lia|]; split; [reflexivity|apply Forall_replicate; lia]|]. repeat constructor; cbn; lia.
  - vm_compute. lia.
  - intros a p Ha (i & -> & Hi%elem_of_seqZ)%list_elem_of_fmap. lia.
Defined.

(** ** What the disk accepts *)

(** The number of a block is compared with [>]: block [nblocks], the first behind
    the disk, is read and written like any other. *)
Lemma read_past_end d R l buf :
  rd_inv (rm d) (page_index_index d) R l -> is_ramdisk d = true -> 0 <= nblocks d < 2 ^ 20 -> (2 < length l)%nat -> buffer_apart R l buf ->
  exists s', ramdisk_read (ramdisk_capacity d) 1 buf d = Ret 0 (set_rm s' d).
Proof.
  intros Hinv Hid Hnb Hfree Hbuf. unfold ramdisk_capacity.
  destruct (disk_read_spec d R l (nblocks d) buf Hinv Hid ltac:(lia) ltac:(lia) Hfree Hbuf) as (s' & _ & _ & Hrun & _). by exists s'.
Qed.

Lemma deregister_listed this r : this ∈ devices r -> device_ids (deregister_device this r) = device_ids r.
Proof.
  intros Hin. unfold deregister_device. replace (existsb (Z.eqb this) (devices r)) with true; [done|].
  symmetry. apply existsb_exists. exists this. split; [by apply list_elem_of_In|apply Z.eqb_refl].
Qed.

(** A device that is closed is no longer in the list, but it keeps its identifier:
    the test at the start of read and write lets them through. *)
Lemma close_keeps_id d s1 : ramdisk_open d = Ret 0 s1 -> exists s2, ramdisk_close s1 = Ret tt s2 /\ is_ramdisk s2 = true.
Proof.
  unfold ramdisk_open, kbind, kget, kmodify, kret. case_match; [done|]. intros [= <-]. eexists. split; [reflexivity|].
  unfold is_ramdisk. apply bool_decide_eq_true. cbn [dev_reg set_dev_reg register_device dev_this devices device_ids].
  rewrite deregister_listed by (cbn [register_device devices]; apply elem_of_app; right; by left). apply lookup_insert_eq.
Qed.

(** [device::get] finds what was registered, while nothing else with the identifier
    is in the list. *)
Lemma register_get this id r :
  (forall d, d ∈ devices r -> d <> this /\ device_ids r !! d <> Some id) -> get_device id (register_device this id r) = this.
Proof.
  intros Hno. unfold get_device, register_device. cbn [devices device_ids].
  induction (devices r) as [|d ds IH]; cbn [app List.find].
  - rewrite lookup_insert_eq, bool_decide_true by done. reflexivity.
  - destruct (Hno d) as [Hd Hid]; [by left|]. rewrite lookup_insert_ne, bool_decide_false by congruence. apply IH. intros e He. apply Hno. by right.
Qed.

(** After a failed constructor [open] refuses the disk, but the destructor reads
    its page of pointers at address 0. *)
Lemma failed_disk d nb : pages_inv (rm d) [] ->
  exists d1, ramdisk_new nb d = Ret tt d1 /\ page_index_index d1 = 0 /\ ramdisk_open d1 = Ret (-1) d1.
Proof.
  intros Hpg. pose proof (alloc_page_correct (rm d) [] Hpg) as Hrun. cbn in Hrun. unfold ramdisk_new, rmach. unfold kbind at 1. rewrite Hrun.
  eexists. split; [reflexivity|]. split; reflexivity.
Qed.
