(* ===== verification/Cpu.v ===== *)
(** * Control registers, interrupt masking, timer and interrupt controller
    (src/os/arch/riscv.h, cpu.h, cpu.cc, timer.h)

    [csrs] has the supervisor registers that the kernel uses; each accessor of
    riscv.h is one operation on them.  [timecmp] is what the firmware keeps for
    sbi's set_timer.  The platform interrupt controller is known by what a claim
    returns and by what was completed.

    The theorems are about the masking of interrupts: [cpu_ref], which keeps a
    task on its core, leaves the interrupt flag as it found it and masks
    interrupts in its scope; [timer_irq_on] never answers yes. *)
From S2P Require Import Prelude Memory Riscv.

(** ** Definitions *)

Definition SSTATUS_SPP : Z := Z.shiftl 1 8.
Definition SSTATUS_SPIE : Z := Z.shiftl 1 5.
Definition SSTATUS_SIE : Z := Z.shiftl 1 1.
Definition SIE_SEIE : Z := Z.shiftl 1 9.
Definition SIE_STIE : Z := Z.shiftl 1 5.
Definition SIE_SSIE : Z := Z.shiftl 1 1.

Record csrs := Csrs {
  sstatus : Z; sie : Z; stvec : Z; sepc : Z; scause : Z; stval : Z; satp : Z; sscratch : Z;
  time : Z;
  timecmp : Z
}.

Definition r_sstatus : K csrs Z := c <- kget ;; kret (sstatus c).
Definition w_sstatus (x : Z) : K csrs unit :=
  kmodify (fun c => Csrs x (sie c) (stvec c) (sepc c) (scause c) (stval c) (satp c) (sscratch c) (time c) (timecmp c)).
Definition r_sie : K csrs Z := c <- kget ;; kret (sie c).
Definition w_sie (x : Z) : K csrs unit :=
  kmodify (fun c => Csrs (sstatus c) x (stvec c) (sepc c) (scause c) (stval c) (satp c) (sscratch c) (time c) (timecmp c)).
Definition r_stvec : K csrs Z := c <- kget ;; kret (stvec c).
Definition w_stvec (x : Z) : K csrs unit :=
  kmodify (fun c => Csrs (sstatus c) (sie c) x (sepc c) (scause c) (stval c) (satp c) (sscratch c) (time c) (timecmp c)).
Definition r_sepc : K csrs Z := c <- kget ;; kret (sepc c).
Definition w_sepc (x : Z) : K csrs unit :=
  kmodify (fun c => Csrs (sstatus c) (sie c) (stvec c) x (scause c) (stval c) (satp c) (sscratch c) (time c) (timecmp c)).
Definition r_scause : K csrs Z := c <- kget ;; kret (scause c).
Definition r_stval : K csrs Z := c <- kget ;; kret (stval c).
Definition r_satp : K csrs Z := c <- kget ;; kret (satp c).
Definition w_satp (x : Z) : K csrs unit :=
  kmodify (fun c => Csrs (sstatus c) (sie c) (stvec c) (sepc c) (scause c) (stval c) x (sscratch c) (time c) (timecmp c)).
Definition w_sscratch (x : Z) : K csrs unit :=
  kmodify (fun c => Csrs (sstatus c) (sie c) (stvec c) (sepc c) (scause c) (stval c) (satp c) x (time c) (timecmp c)).
Definition r_time : K csrs Z := c <- kget ;; kret (time c).

(** Read and clear, set, clear bits of [sstatus]. *)
Definition rc_sstatus (val : Z) : K csrs Z :=
  old <- r_sstatus ;;
  w_sstatus (Z.land old (Z.lnot val)) ;;;
  kret old.
Definition s_sstatus (val : Z) : K csrs unit := old <- r_sstatus ;; w_sstatus (Z.lor old val).
Definition c_sstatus (val : Z) : K csrs unit := old <- r_sstatus ;; w_sstatus (Z.land old (Z.lnot val)).

(** *** Interrupt masking, class cpu *)

Definition local_irq_on : K csrs bool := x <- r_sstatus ;; kret (HAS_BIT x SSTATUS_SIE).
Definition local_irq_enable : K csrs unit := s_sstatus SSTATUS_SIE.
Definition local_irq_disable : K csrs unit := c_sstatus SSTATUS_SIE.

(** The old value passes through an int. *)
Definition local_irq_save : K csrs bool :=
  old <- rc_sstatus SSTATUS_SIE ;;
  kret (HAS_BIT (s32 old) SSTATUS_SIE).
Definition local_irq_restore (old : bool) : K csrs unit := if old then s_sstatus SSTATUS_SIE else kret tt.

Definition __timer_irq_on : K csrs bool :=
  on <- local_irq_on ;;
  if on then x <- r_sie ;; kret (HAS_BIT x SIE_STIE) else kret false.

(** [old] is an int made from the bool of [local_irq_save], and is tested against
    the mask of the register. *)
Definition timer_irq_on : K csrs bool :=
  saved <- local_irq_save ;;
  let old := Z.b2z saved in
  ret <- (if HAS_BIT old SSTATUS_SIE then x <- r_sie ;; kret (HAS_BIT x SIE_STIE) else kret false) ;;
  local_irq_restore (negb (old =? 0)) ;;;
  kret ret.

(** *** [cpu_ref]: the cpu, 0 for null, and the old interrupt state *)

Record cpu_ref := CpuRef { ref_cpu : option Z; ref_old : Z }.

(** [cpu::my_cpu]; [tp] is the number of the core. *)
Definition my_cpu (tp : Z) : K csrs cpu_ref :=
  old <- local_irq_save ;;
  kret (CpuRef (Some (s32 tp)) (Z.b2z old)).
Definition null_ref : cpu_ref := CpuRef None 0.
Definition ref_destroy (r : cpu_ref) : K csrs unit :=
  match ref_cpu r with
  | Some _ => local_irq_restore (negb (ref_old r =? 0))
  | None => kret tt
  end.

(** The move constructor and the move assignment give the new value of the
    target and of the source. *)
Definition ref_move (rhs : cpu_ref) : cpu_ref * cpu_ref := (CpuRef (ref_cpu rhs) (ref_old rhs), CpuRef None 0).
Definition ref_move_assign (this rhs : cpu_ref) : K csrs (cpu_ref * cpu_ref) :=
  match ref_cpu this with
  | Some _ => local_irq_restore (negb (ref_old this =? 0))
  | None => kret tt
  end ;;;
  kret (CpuRef (ref_cpu rhs) (ref_old rhs), CpuRef None 0).

(** *** Timer *)

Definition TIME_SLICE_PER_SEC : Z := 100.
Definition MSEC_PER_SEC : Z := 1000.
Definition USEC_PER_SEC : Z := 1000000.
Definition TICK_FREQ : Z := 12500000.
Definition TICK_TO_MS (tick : Z) : Z := tick / (TICK_FREQ / MSEC_PER_SEC).
Definition TICK_TO_US (tick : Z) : Z := tick / (TICK_FREQ / USEC_PER_SEC).
Definition MS_TO_TICK (ms : Z) : Z := u64 (ms * (TICK_FREQ / MSEC_PER_SEC)).
Definition SECOND_TO_TICK (sec : Z) : Z := u64 (sec * TICK_FREQ).
Definition CYCLE_FREQ : Z := 3000000000.
Definition CYCLE_TO_MS (cycle : Z) : Z := cycle / (CYCLE_FREQ / MSEC_PER_SEC).
Definition CYCLE_TO_US (cycle : Z) : Z := cycle / (CYCLE_FREQ / USEC_PER_SEC).
Definition MS_TO_CYCLE (ms : Z) : Z := u64 (ms * (CYCLE_FREQ / MSEC_PER_SEC)).
Definition SECOND_TO_CYCLE (sec : Z) : Z := u64 (sec * CYCLE_FREQ).

Definition set_timer (stime : Z) : K csrs unit :=
  kmodify (fun c => Csrs (sstatus c) (sie c) (stvec c) (sepc c) (scause c) (stval c) (satp c) (sscratch c) (time c) stime).
Definition set_next_timer : K csrs unit :=
  let timebase := TICK_FREQ / TIME_SLICE_PER_SEC in
  t <- r_time ;;
  set_timer (u64 (t + timebase)).
Definition start_timer_interrupt : K csrs unit :=
  x <- r_sie ;; w_sie (Z.lor x SIE_STIE) ;;; set_next_timer.
Definition stop_timer_interrupt : K csrs unit := x <- r_sie ;; w_sie (Z.land x (Z.lnot SIE_STIE)).
Definition get_time_ms : K csrs Z := t <- r_time ;; kret (t / (TICK_FREQ / MSEC_PER_SEC)).
Definition get_time_us : K csrs Z := t <- r_time ;; kret (u64 (t * USEC_PER_SEC) / TICK_FREQ).

(** *** Interrupt controller *)

(** Its registers, what the next claims return, and what was completed. *)
Record plic := Plic { plic_regs : gmap Z Z; claims : list Z; completed : list Z }.

Definition plic_write (a v : Z) : K plic unit := kmodify (fun p => Plic (<[a := v]> (plic_regs p)) (claims p) (completed p)).
Definition plic_init : K plic unit := plic_write (PLIC + VIRTIO0_IRQ * 4) 1.
Definition plic_init_hart (core_id : Z) : K plic unit :=
  plic_write (PLIC_SENABLE core_id) (Z.shiftl 1 VIRTIO0_IRQ) ;;;
  plic_write (PLIC_SPRIORITY core_id) 0.
Definition plic_claim : K plic Z := fun p =>
  match claims p with
  | [] => Ret 0 p
  | irq :: rest => Ret (s32 irq) (Plic (plic_regs p) rest (completed p))
  end.
Definition plic_complete (irq : Z) : K plic unit := kmodify (fun p => Plic (plic_regs p) (claims p) (completed p ++ [irq])).

(** *** Load samples *)

Definition SAMPLE_SLOT_COUNT : Z := 8.
Record samples := Samples { sample_duration : list Z; busy_time : list Z; next_slot : Z }.
Definition sample (all busy : Z) (s : samples) : samples :=
  Samples (updZ (sample_duration s) (next_slot s) all) (updZ (busy_time s) (next_slot s) busy) ((next_slot s + 1) mod SAMPLE_SLOT_COUNT).

(** ** Masking *)

Definition irq_on (c : csrs) : bool := Z.testbit (sstatus c) 1.
Definition set_sstatus (x : Z) (c : csrs) : csrs :=
  Csrs x (sie c) (stvec c) (sepc c) (scause c) (stval c) (satp c) (sscratch c) (time c) (timecmp c).

Lemma has_bit x i : 0 <= i -> HAS_BIT x (Z.shiftl 1 i) = Z.testbit x i.
Proof. intros Hi. unfold HAS_BIT. rewrite Z.shiftl_1_l, land_pow2_testbit by done. apply negb_involutive. Qed.

Lemma has_sie x : HAS_BIT x SSTATUS_SIE = Z.testbit x 1.
Proof. by apply has_bit. Qed.

Lemma s32_bit x i : 0 <= i < 31 -> Z.testbit (s32 x) i = Z.testbit x i.
Proof.
  intros Hi. unfold s32.
  assert (forall y, Z.testbit y i = Z.odd (y / 2 ^ i)) as Hbit by (intros y; rewrite Z.testbit_odd, Z.shiftr_div_pow2 by lia; done).
  rewrite !Hbit. assert (2 ^ 31 = 2 ^ (30 - i) * 2 * 2 ^ i) as E31 by (rewrite <- Z.mul_assoc, <- (Z.pow_succ_r 2 i), <- Z.pow_add_r by lia; f_equal; lia).
  set (q := (x + 2 ^ 31) / 2 ^ 32). replace ((x + 2 ^ 31) mod 2 ^ 32 - 2 ^ 31) with (x + (- q * 2 ^ (30 - i) * 2) * 2 * 2 ^ i)
    by (unfold q; pose proof (Z.div_mod (x + 2 ^ 31) (2 ^ 32)); change (2 ^ 32) with (2 * 2 ^ 31) in *; rewrite E31 in *; lia).
  rewrite Z.div_add by lia. rewrite Z.odd_add, Z.odd_mul. by rewrite andb_false_r, xorb_false_r.
Qed.

Lemma save_run c : local_irq_save c = Ret (irq_on c) (set_sstatus (Z.land (sstatus c) (Z.lnot SSTATUS_SIE)) c).
Proof. unfold local_irq_save, rc_sstatus, r_sstatus, w_sstatus, kbind, kget, kret, kmodify. by rewrite has_sie, s32_bit. Qed.

Lemma restore_run old c : local_irq_restore old c = Ret tt (if old then set_sstatus (Z.lor (sstatus c) SSTATUS_SIE) c else c).
Proof. by destruct old. Qed.

Lemma cleared_off x : Z.testbit (Z.land x (Z.lnot SSTATUS_SIE)) 1 = false.
Proof. rewrite Z.land_spec. apply andb_false_r. Qed.

Lemma masked_off c : irq_on (set_sstatus (Z.land (sstatus c) (Z.lnot SSTATUS_SIE)) c) = false.
Proof. apply cleared_off. Qed.

(** Saving and restoring leaves the register as it was. *)
Lemma save_restore x : (if Z.testbit x 1 then Z.lor (Z.land x (Z.lnot SSTATUS_SIE)) SSTATUS_SIE else Z.land x (Z.lnot SSTATUS_SIE)) = x.
Proof.
  destruct (Z.testbit x 1) eqn:E; apply Z.bits_inj'; intros i Hi; rewrite ?Z.lor_spec, Z.land_spec, Z.lnot_spec by done.
  - change SSTATUS_SIE with (2 ^ 1). rewrite testbit_pow2 by lia. case_bool_decide as Hd; [subst; by rewrite E|]. cbn. by rewrite andb_true_r, orb_false_r.
  - change SSTATUS_SIE with (2 ^ 1). rewrite testbit_pow2 by lia. case_bool_decide as Hd; [subst; by rewrite E|]. cbn. by rewrite andb_true_r.
Qed.

Lemma set_sstatus_same c : set_sstatus (sstatus c) c = c.
Proof. by destruct c. Qed.

Lemma restored c (masked := set_sstatus (Z.land (sstatus c) (Z.lnot SSTATUS_SIE)) c) :
  (if negb (Z.b2z (irq_on c) =? 0) then set_sstatus (Z.lor (sstatus masked) SSTATUS_SIE) masked else masked) = c.
Proof.
  transitivity (set_sstatus (sstatus c) c); [|apply set_sstatus_same]. pose proof (save_restore (sstatus c)) as Hsr. unfold masked, irq_on.
  destruct (Z.testbit (sstatus c) 1); unfold set_sstatus; cbn; by rewrite Hsr.
Qed.

(** ** Scopes of [cpu_ref] *)

(** A function that looks at the interrupt flag, and takes a reference to its cpu
    for a part of its body, as often and as deep as it likes. *)
Inductive code := Observe | Then (a b : code) | WithCpu (body : code).

Fixpoint run_code (tp : Z) (p : code) : K csrs (list bool) :=
  match p with
  | Observe => on <- local_irq_on ;; kret [on]
  | Then a b => la <- run_code tp a ;; lb <- run_code tp b ;; kret (la ++ lb)
  | WithCpu body =>
      r <- my_cpu tp ;;
      l <- run_code tp body ;;
      ref_destroy r ;;;
      kret l
  end.

(** What is seen: the flag of the caller outside the references, interrupts off
    inside. *)
Fixpoint seen_flags (on : bool) (p : code) : list bool :=
  match p with
  | Observe => [on]
  | Then a b => seen_flags on a ++ seen_flags on b
  | WithCpu body => seen_flags false body
  end.

Lemma run_code_spec tp p : forall c, run_code tp p c = Ret (seen_flags (irq_on c) p) c.
Proof.
  induction p as [|a IHa b IHb|body IH]; intros c; cbn [run_code seen_flags].
  - unfold local_irq_on, r_sstatus, kbind, kget, kret. by rewrite has_sie.
  - rewrite (kbind_ret _ _ _ _ _ (IHa c)), (kbind_ret _ _ _ _ _ (IHb c)). done.
  - rewrite (kbind_ret _ _ _ (CpuRef (Some (s32 tp)) (Z.b2z (irq_on c))) (set_sstatus (Z.land (sstatus c) (Z.lnot SSTATUS_SIE)) c))
      by (unfold my_cpu; by rewrite (kbind_ret _ _ _ _ _ (save_run c))).
    rewrite (kbind_ret _ _ _ _ _ (IH _)), masked_off.
    unfold ref_destroy. cbn [ref_cpu ref_old]. unfold kbind. rewrite restore_run. unfold kret. by rewrite restored.
Qed.

(** References to the cpu nest.  Whatever a function does with them, it finds
    interrupts off wherever it holds one, and when it is done the flag, and the
    whole register, is what it was at the start. *)
Theorem cpu_ref_scopes tp p c : run_code tp p c = Ret (seen_flags (irq_on c) p) c.
Proof. apply run_code_spec. Qed.

(** ** Where the masking goes wrong *)

(** The int that [timer_irq_on] tests is 0 or 1, the mask is 2: it always answers
    no, and the assertion in [user_process::run] that uses it never fails. *)
Lemma timer_irq_on_never c : timer_irq_on c = Ret false c.
Proof.
  unfold timer_irq_on. rewrite (kbind_ret _ _ _ _ _ (save_run c)). cbv zeta.
  replace (HAS_BIT (Z.b2z (irq_on c)) SSTATUS_SIE) with false by by destruct (irq_on c).
  unfold kbind, kret at 1. rewrite restore_run. unfold kret. by rewrite restored.
Qed.

(** Interrupts are on, and a reference is replaced by a new one: the assignment
    restores the state of the old reference after the new one was made, so that
    interrupts are on while the cpu is held. *)
Lemma move_assign_unmasks tp c : irq_on c = true ->
  exists r c', (a <- my_cpu tp ;; b <- my_cpu tp ;; ref_move_assign a b) c = Ret (r, null_ref) c' /\ is_Some (ref_cpu r) /\ irq_on c' = true.
Proof.
  intros Hon. unfold my_cpu. unfold kbind at 1 2. rewrite save_run, Hon. unfold kret at 1. unfold kbind at 1 2. rewrite save_run. unfold kret at 1.
  unfold ref_move_assign. cbn [ref_cpu ref_old Z.b2z Z.eqb negb]. unfold kbind, local_irq_restore, s_sstatus, r_sstatus, w_sstatus, kbind, kget, kmodify, kret.
  eexists _, _. split; [reflexivity|]. split; [by eexists|]. unfold irq_on. cbn [sstatus set_sstatus]. rewrite Z.lor_spec. apply orb_true_r.
Qed.

(** ** Time *)

Lemma ms_tick_ms ms : 0 <= ms < 2 ^ 64 / 12500 -> TICK_TO_MS (MS_TO_TICK ms) = ms.
Proof.
  intros Hms. unfold TICK_TO_MS, MS_TO_TICK. change (TICK_FREQ / MSEC_PER_SEC) with 12500. rewrite u64_small by zlia. by apply Z.div_mul.
Qed.

(** [get_time_us] multiplies first: after about 17 days the product overflows and
    the time starts again at 0. *)
Lemma time_us_wraps c : time c = 2 ^ 64 / 1000000 + 1 -> exists us, get_time_us c = Ret us c /\ us = 0.
Proof. intros Ht. unfold get_time_us, r_time, kbind, kget, kret. rewrite Ht. eexists. split; [reflexivity|by vm_compute]. Qed.

(** Every slot of the samples is one of the array. *)
Lemma sample_slot all busy s : 0 <= next_slot s < SAMPLE_SLOT_COUNT -> 0 <= next_slot (sample all busy s) < SAMPLE_SLOT_COUNT /\
  (length (sample_duration s) = 8%nat -> nthZ (sample_duration (sample all busy s)) (next_slot s) = all).
Proof. intros Hs. unfold SAMPLE_SLOT_COUNT in *. cbn [sample next_slot sample_duration]. split; [apply Z.mod_pos_bound; lia|]. intros Hl. apply nthZ_updZ_eq. lia. Qed.
