(* ===== verification/Trap.v ===== *)
(** * Traps and system calls (src/os/trap, src/os/syscall)

    A hart is its registers, its mode and its control registers.  The assembly of
    trampoline.S, kernelvec.S and switch.S is a list of instructions with an
    interpreter; what the hardware does at a trap and at sret is as the privileged
    architecture says; addresses go through the page tables that satp names.
    The handlers of trap.cc and syscall.cc are operations on the hart, the
    memory, the interrupt controller, the disk driver and the process.  The calls
    of process operations that [Process] models are recorded in [pcalls].

    The theorems: a device interrupt leaves no trace in a user program, a system
    call returns to the next instruction with its result and all other registers
    unchanged, a program that was preempted continues where it was on any hart,
    the faults end the process with their code, and kernel code does not notice
    an interrupt. *)
From stdpp Require Import strings.
From S2P Require Import Prelude Process Virtio Memory CString Riscv PageAlloc Vmem PageTable UserCopy UserSpace UserLife Cpu.

(** ** Definitions *)

Inductive reg : Set :=
  | RA | SP | GP | TP | T0 | T1 | T2 | S0 | S1 | A0 | A1 | A2 | A3 | A4 | A5 | A6 | A7
  | S2 | S3 | S4 | S5 | S6 | S7 | S8 | S9 | S10 | S11 | T3 | T4 | T5 | T6.

#[export] Instance reg_eq_dec : EqDecision reg.
Proof. solve_decision. Defined.

Inductive priv := User | Supervisor.

Record hart := Hart { gpr : reg -> Z; pc : Z; mode : priv; csr : csrs }.

(** A user process, as far as traps touch it.  [plocked] is its spinlock. *)
Inductive pcall := CExit (code : Z) | CDoKill.
Record uproc := UProc { up_pagetable : Z; up_trapframe : Z; up_files : list (option Z); killed : bool; plocked : bool; pcalls : list pcall }.

(** [disk] is what device::get gives for the virtio disk, None for null. *)
Record trapst := TrapSt { th : hart; tm : machine; irqs : plic; disk : option vstate; proc : uproc }.

Definition upd_th (f : hart -> hart) (s : trapst) : trapst := TrapSt (f (th s)) (tm s) (irqs s) (disk s) (proc s).
Definition upd_tm (f : machine -> machine) (s : trapst) : trapst := TrapSt (th s) (f (tm s)) (irqs s) (disk s) (proc s).
Definition upd_up (f : uproc -> uproc) (s : trapst) : trapst := TrapSt (th s) (tm s) (irqs s) (disk s) (f (proc s)).
Definition set_gpr (g : reg -> Z) (h : hart) : hart := Hart g (pc h) (mode h) (csr h).
Definition set_pc (a : Z) (h : hart) : hart := Hart (gpr h) a (mode h) (csr h).
Definition set_csr (c : csrs) (h : hart) : hart := Hart (gpr h) (pc h) (mode h) c.
Definition upd_reg (r : reg) (v : Z) (g : reg -> Z) : reg -> Z := fun r' => if decide (r' = r) then v else g r'.
Definition set_plocked (b : bool) (p : uproc) : uproc := UProc (up_pagetable p) (up_trapframe p) (up_files p) (killed p) b (pcalls p).
Definition add_pcall (c : pcall) (p : uproc) : uproc := UProc (up_pagetable p) (up_trapframe p) (up_files p) (killed p) (plocked p) (pcalls p ++ [c]).

(** An operation on a part of the state. *)
Definition on_part {S A : Type} (get : trapst -> S) (put : S -> trapst -> trapst) (op : K S A) : K trapst A := fun s =>
  match op (get s) with
  | Ret a x => Ret a (put x s)
  | TaskFail x => TaskFail (put x s)
  | Panic => Panic
  | OutOfFuel => OutOfFuel
  end.
Definition on_csr {A : Type} : K csrs A -> K trapst A := on_part (fun s => csr (th s)) (fun c => upd_th (set_csr c)).
Definition on_ram {A : Type} : K machine A -> K trapst A := on_part tm (fun m => upd_tm (fun _ => m)).
Definition on_plic {A : Type} : K plic A -> K trapst A := on_part irqs (fun p s => TrapSt (th s) (tm s) p (disk s) (proc s)).

(** *** Instructions *)

(** Where an access goes: Sv39, or bare.  The kernel does not set SUM: a page with
    the user bit is refused. *)
Definition hw_addr (m : memory) (satp va perm : Z) : option Z :=
  if Z.shiftr satp 60 =? 8 then
    pte ← translate m (Z.land satp (Z.ones 44) * 4096) va;
    if HAS_BIT pte perm && negb (HAS_BIT pte PTE_U) then Some (PTE2PA pte + va mod 4096) else None
  else if Z.shiftr satp 60 =? 0 then Some va
  else None.

Inductive csr_name := Sscratch | Sepc | Satp.
Definition read_csr (n : csr_name) (c : csrs) : Z :=
  match n with Sscratch => sscratch c | Sepc => sepc c | Satp => satp c end.
Definition write_csr (n : csr_name) (v : Z) : K csrs unit :=
  match n with Sscratch => w_sscratch v | Sepc => w_sepc v | Satp => w_satp v end.

Inductive instr :=
  | SD (rs : reg) (off : Z) (base : reg)
  | LD (rd : reg) (off : Z) (base : reg)
  | CSRRW (rd : reg) (n : csr_name) (rs : reg)
  | CSRR (rd : reg) (n : csr_name)
  | CSRW (n : csr_name) (rs : reg)
  | ADDI (rd rs : reg) (imm : Z)
  | MV (rd rs : reg)
  | SFENCE_VMA
  | JR (rs : reg)
  | SRET.

Definition set_bit (x i : Z) (b : bool) : Z := if b then Z.lor x (2 ^ i) else Z.land x (Z.lnot (2 ^ i)).

Definition do_sret (h : hart) : hart :=
  let x := sstatus (csr h) in
  let x' := set_bit (set_bit (set_bit x 1 (Z.testbit x 5)) 5 true) 8 false in
  Hart (gpr h) (sepc (csr h)) (if Z.testbit x 8 then Supervisor else User) (set_sstatus x' (csr h)).

Definition exec (i : instr) : K trapst unit := fun s =>
  let g := gpr (th s) in
  match i with
  | SD rs off base =>
      match hw_addr (ram (tm s)) (satp (csr (th s))) (u64 (g base + off)) PTE_W with
      | Some a => Ret tt (upd_tm (set_ram (fun m => store64 m a (g rs))) s)
      | None => Panic
      end
  | LD rd off base =>
      match hw_addr (ram (tm s)) (satp (csr (th s))) (u64 (g base + off)) PTE_R with
      | Some a => Ret tt (upd_th (set_gpr (upd_reg rd (load64 (ram (tm s)) a) g)) s)
      | None => Panic
      end
  | CSRRW rd n rs =>
      (on_csr (write_csr n (g rs)) ;;; kmodify (upd_th (set_gpr (upd_reg rd (read_csr n (csr (th s))) g)))) s
  | CSRR rd n => Ret tt (upd_th (set_gpr (upd_reg rd (read_csr n (csr (th s))) g)) s)
  | CSRW n rs => on_csr (write_csr n (g rs)) s
  | ADDI rd rs imm => Ret tt (upd_th (set_gpr (upd_reg rd (u64 (g rs + imm)) g)) s)
  | MV rd rs => Ret tt (upd_th (set_gpr (upd_reg rd (g rs) g)) s)
  | SFENCE_VMA => Ret tt s
  | JR rs => Ret tt (upd_th (set_pc (g rs)) s)
  | SRET => Ret tt (upd_th do_sret s)
  end.

Fixpoint exec_list (l : list instr) : K trapst unit :=
  match l with
  | [] => kret tt
  | i :: l' => exec i ;;; exec_list l'
  end.

(** The code at an address: what runs is what the program counter says. *)
Definition run_at (a : Z) (l : list instr) : K trapst unit := fun s =>
  if pc (th s) =? a then exec_list l s else Panic.

(** A trap, as the hardware takes it. *)
Definition take_trap (cause tval : Z) (h : hart) : hart :=
  let c := csr h in
  let x := sstatus c in
  let x' := set_bit (set_bit (set_bit x 5 (Z.testbit x 1)) 1 false) 8 (match mode h with User => false | Supervisor => true end) in
  Hart (gpr h) (stvec c) Supervisor
    (Csrs x' (sie c) (stvec c) (pc h) cause tval (satp c) (sscratch c) (time c) (timecmp c)).

(** trampoline.S: from user space into the kernel. *)
Definition user_vec : list instr := [
  CSRRW A0 Sscratch A0; SD RA 40 A0; SD SP 48 A0; SD GP 56 A0; SD TP 64 A0; SD T0 72 A0; SD T1 80 A0; SD T2 88 A0; SD S0 96 A0; SD S1 104 A0;
  SD A1 120 A0; SD A2 128 A0; SD A3 136 A0; SD A4 144 A0; SD A5 152 A0; SD A6 160 A0; SD A7 168 A0; SD S2 176 A0; SD S3 184 A0; SD S4 192 A0;
  SD S5 200 A0; SD S6 208 A0; SD S7 216 A0; SD S8 224 A0; SD S9 232 A0; SD S10 240 A0; SD S11 248 A0; SD T3 256 A0; SD T4 264 A0; SD T5 272 A0;
  SD T6 280 A0; CSRR T0 Sscratch; SD T0 112 A0; CSRR T1 Sepc; SD T1 24 A0; LD SP 8 A0; LD TP 32 A0; LD T0 16 A0; LD T1 0 A0; CSRW Satp T1; SFENCE_VMA;
  JR T0
].

(** trampoline.S: back to user space; a0 is the trap frame, a1 the page table. *)
Definition user_ret : list instr := [
  CSRW Satp A1; SFENCE_VMA; LD T0 112 A0; CSRW Sscratch T0; LD RA 40 A0; LD SP 48 A0; LD GP 56 A0; LD TP 64 A0; LD T0 72 A0; LD T1 80 A0; LD T2 88 A0;
  LD S0 96 A0; LD S1 104 A0; LD A1 120 A0; LD A2 128 A0; LD A3 136 A0; LD A4 144 A0; LD A5 152 A0; LD A6 160 A0; LD A7 168 A0; LD S2 176 A0;
  LD S3 184 A0; LD S4 192 A0; LD S5 200 A0; LD S6 208 A0; LD S7 216 A0; LD S8 224 A0; LD S9 232 A0; LD S10 240 A0; LD S11 248 A0; LD T3 256 A0;
  LD T4 264 A0; LD T5 272 A0; LD T6 280 A0; CSRRW A0 Sscratch A0; SRET
].

(** kernelvec.S: registers of the kernel are pushed, up to the call of kernel_trap. *)
Definition kernel_vec : list instr := [
  ADDI SP SP (-256); SD RA 0 SP; SD SP 8 SP; SD GP 16 SP; SD T0 32 SP; SD T1 40 SP; SD T2 48 SP; SD S0 56 SP; SD S1 64 SP; SD A0 72 SP; SD A1 80 SP;
  SD A2 88 SP; SD A3 96 SP; SD A4 104 SP; SD A5 112 SP; SD A6 120 SP; SD A7 128 SP; SD S2 136 SP; SD S3 144 SP; SD S4 152 SP; SD S5 160 SP;
  SD S6 168 SP; SD S7 176 SP; SD S8 184 SP; SD S9 192 SP; SD S10 200 SP; SD S11 208 SP; SD T3 216 SP; SD T4 224 SP; SD T5 232 SP; SD T6 240 SP;
  MV A0 SP; MV A1 S0
].

(** kernelvec.S: after kernel_trap. *)
Definition kernel_ret : list instr := [
  LD RA 0 SP; LD SP 8 SP; LD GP 16 SP; LD T0 32 SP; LD T1 40 SP; LD T2 48 SP; LD S0 56 SP; LD S1 64 SP; LD A0 72 SP; LD A1 80 SP; LD A2 88 SP;
  LD A3 96 SP; LD A4 104 SP; LD A5 112 SP; LD A6 120 SP; LD A7 128 SP; LD S2 136 SP; LD S3 144 SP; LD S4 152 SP; LD S5 160 SP; LD S6 168 SP;
  LD S7 176 SP; LD S8 184 SP; LD S9 192 SP; LD S10 200 SP; LD S11 208 SP; LD T3 216 SP; LD T4 224 SP; LD T5 232 SP; LD T6 240 SP; ADDI SP SP 256; SRET
].

(** switch.S: the part for an old context, and the load of the new one. *)
Definition swtch_save : list instr := [
  SD RA 0 A0; SD SP 8 A0; SD S0 16 A0; SD S1 24 A0; SD S2 32 A0; SD S3 40 A0; SD S4 48 A0; SD S5 56 A0; SD S6 64 A0; SD S7 72 A0; SD S8 80 A0;
  SD S9 88 A0; SD S10 96 A0; SD S11 104 A0
].

Definition swtch_load : list instr := [
  LD RA 0 A1; LD SP 8 A1; LD S0 16 A1; LD S1 24 A1; LD S2 32 A1; LD S3 40 A1; LD S4 48 A1; LD S5 56 A1; LD S6 64 A1; LD S7 72 A1; LD S8 80 A1;
  LD S9 88 A1; LD S10 96 A1; LD S11 104 A1; LD A0 112 A1; MV A1 SP; JR RA
].

(** [swtch]: a null old context is not written. *)
Definition swtch : K trapst unit := fun s =>
  (if gpr (th s) A0 =? 0 then exec_list swtch_load else exec_list swtch_save ;;; exec_list swtch_load) s.

(** *** The trap frame (trap.h) and causes *)

Definition TF_kernel_satp : Z := 0.
Definition TF_kernel_sp : Z := 8.
Definition TF_kernel_trap : Z := 16.
Definition TF_epc : Z := 24.
Definition TF_kernel_hartid : Z := 32.
Definition TF_a0 : Z := 112.
Definition TF_a1 : Z := 120.
Definition TF_a7 : Z := 168.

Definition rd_tf (off : Z) : K trapst Z := s <- kget ;; kret (load64 (ram (tm s)) (up_trapframe (proc s) + off)).
Definition wr_tf (off v : Z) : K trapst unit :=
  kmodify (fun s => upd_tm (set_ram (fun m => store64 m (up_trapframe (proc s) + off) v)) s).

Definition InstructionMisaligned : Z := 0.
Definition InstructionAccessFault : Z := 1.
Definition IllegalInstruction : Z := 2.
Definition Breakpoint : Z := 3.
Definition LoadMisaligned : Z := 4.
Definition LoadAccessFault : Z := 5.
Definition StoreMisaligned : Z := 6.
Definition StoreAccessFault : Z := 7.
Definition UserEnvCall : Z := 8.
Definition SupervisorEnvCall : Z := 9.
Definition MachineEnvCall : Z := 11.
Definition InstructionPageFault : Z := 12.
Definition LoadPageFault : Z := 13.
Definition StorePageFault : Z := 15.
Definition SupervisorTimer : Z := 5.
Definition SupervisorExternal : Z := 9.

(** How a handler ends: it returns, it switches to the scheduler (with or without
    a context to come back to), or the process is gone. *)
Inductive flow := Returns | SwitchBack (saved : bool) | Gone.

Section Kernel.
(** Linker symbols and addresses of functions: kernel_vec, user_trap, the start of
    the trampoline and its two entries; the per-core stack for traps from user
    space; what the C code leaves in the registers that it may use; the address
    of the local variable of sys_fstat; rounds of the loop in the disk driver. *)
Context (kernel_vec_at user_trap_at trampoline user_vec_at user_ret_at temp_kstack : Z) (junk : reg -> Z) (stat_buf : Z) (fuel : nat).

Definition user_vec_va : Z := Z.land (u64 (TRAMPOLINE + (user_vec_at - trampoline))) (Z.lnot 3).
Definition user_ret_va : Z := u64 (TRAMPOLINE + (user_ret_at - trampoline)).

Definition set_kernel_trap : K trapst unit := on_csr (w_stvec (Z.land kernel_vec_at (Z.lnot 3))).
Definition enable_kernel_trap : K trapst unit := set_kernel_trap ;;; on_csr local_irq_enable.
Definition trap_init_hart : K trapst unit :=
  enable_kernel_trap ;;;
  x <- on_csr r_sie ;;
  on_csr (w_sie (Z.land (Z.lor (Z.lor x SIE_SEIE) SIE_SSIE) (Z.lnot SIE_STIE))).

Definition on_disk {A : Type} (op : K vstate A) : K trapst A := fun s =>
  match disk s with
  | Some d => on_part (fun _ => d) (fun d' s => TrapSt (th s) (tm s) (irqs s) (Some d') (proc s)) op s
  | None => Panic
  end.

Definition interrupt_handler : K trapst unit :=
  irq <- on_plic plic_claim ;;
  (if irq =? VIRTIO0_IRQ then on_disk (virtio_disk_intr fuel) else kret tt) ;;;
  if negb (irq =? 0) then on_plic (plic_complete irq) else kret tt.

(** [cpu::switch_back]; the switch itself is [swtch]. *)
Definition switch_back (saved : bool) : K trapst flow :=
  on <- on_csr local_irq_on ;;
  x <- on_csr r_sie ;;
  kernel_assert (negb on || (on && negb (HAS_BIT x SIE_STIE))) ;;;
  kret (SwitchBack saved).

(** [cpu::yield]. *)
Definition cpu_yield : K trapst flow :=
  on <- on_csr local_irq_on ;;
  kernel_assert (negb on) ;;;
  switch_back true.

Definition kernel_interrupt_handler (cause : Z) : K trapst flow :=
  if Z.land cause 255 =? SupervisorTimer then switch_back true
  else if Z.land cause 255 =? SupervisorExternal then interrupt_handler ;;; kret Returns
  else kpanic.

(** What is printed before the panic. *)
Definition exception_message (cause : Z) : string :=
  if cause =? InstructionMisaligned then "InstructionMisaligned in kernel"%string
  else if cause =? InstructionAccessFault then "SupervisorEnvCall in kernel"%string
  else if cause =? IllegalInstruction then "IllegalInstruction in kernel"%string
  else if cause =? Breakpoint then "Breakpoint in kernel"%string
  else if cause =? LoadMisaligned then "LoadMisaligned in kernel"%string
  else if cause =? LoadAccessFault then "LoadAccessFault in kernel"%string
  else if cause =? StoreMisaligned then "StoreMisaligned in kernel"%string
  else if cause =? StoreAccessFault then "StoreAccessFault in kernel"%string
  else if cause =? SupervisorEnvCall then "SupervisorEnvCall in kernel"%string
  else if cause =? MachineEnvCall then "MachineEnvCall in kernel"%string
  else if cause =? InstructionPageFault then "InstructionPageFault in kernel"%string
  else if cause =? LoadPageFault then "LoadPageFault in kernel"%string
  else if cause =? StorePageFault then "StorePageFault in kernel"%string
  else "Unknown exception in kernel"%string.
Definition kernel_exception_handler : K trapst flow := kpanic.

(** [kernel_trap] up to the end of the handler, and what follows; between the two
    other processes run when the handler switched. *)
Definition kernel_trap_begin : K trapst (flow * Z * Z) :=
  sepc <- on_csr r_sepc ;;
  sstatus <- on_csr r_sstatus ;;
  scause <- on_csr r_scause ;;
  on <- on_csr local_irq_on ;;
  kernel_assert (negb on) ;;;
  kernel_assert (HAS_BIT sstatus SSTATUS_SPP) ;;;
  f <- (if HAS_BIT scause (Z.shiftl 1 63) then kernel_interrupt_handler scause else kernel_exception_handler) ;;
  kret (f, sepc, sstatus).
Definition kernel_trap_end (sepc sstatus : Z) : K trapst unit :=
  on_csr (w_sepc sepc) ;;;
  on_csr (w_sstatus sstatus) ;;;
  set_kernel_trap.

Definition user_interrupt_handler (cause : Z) : K trapst flow :=
  if Z.land cause 255 =? SupervisorTimer then switch_back false
  else if Z.land cause 255 =? SupervisorExternal then interrupt_handler ;;; kret Returns
  else kpanic.

(** [process::exit] does not return. *)
Definition do_exit (code : Z) : K trapst flow :=
  kmodify (upd_up (add_pcall (CExit code))) ;;;
  switch_back false ;;;
  kret Gone.

(** [user_process::check_killed]: None when it returns. *)
Definition check_killed : K trapst (option flow) :=
  old <- on_csr local_irq_save ;;
  kmodify (upd_up (set_plocked true)) ;;;
  s <- kget ;;
  if killed (proc s) then
    kmodify (upd_up (add_pcall CDoKill)) ;;;
    on <- on_csr local_irq_on ;;
    kernel_assert (negb on) ;;;
    switch_back false ;;;
    kret (Some Gone)
  else
    kmodify (upd_up (set_plocked false)) ;;;
    on_csr (local_irq_restore old) ;;;
    kret None.

(** *** System calls *)

Definition SYS_fstat : Z := 80.
Definition SYS_exit : Z := 93.
Definition file_stat_size : Z := 24.

(** [syscall_names]. *)
Definition syscall_names (id : Z) : string :=
  if id =? 17 then "SYS_getcwd"%string
  else if id =? 23 then "SYS_dup"%string
  else if id =? 33 then "SYS_mknod"%string
  else if id =? 34 then "SYS_mkdir"%string
  else if id =? 37 then "SYS_link"%string
  else if id =? 38 then "SYS_unlink"%string
  else if id =? 49 then "SYS_chdir"%string
  else if id =? 56 then "SYS_open"%string
  else if id =? 57 then "SYS_close"%string
  else if id =? 59 then "SYS_pipe"%string
  else if id =? 63 then "SYS_read"%string
  else if id =? 64 then "SYS_write"%string
  else if id =? 80 then "SYS_fstat"%string
  else if id =? 93 then "SYS_exit"%string
  else if id =? 95 then "SYS_waitpid"%string
  else if id =? 124 then "SYS_sched_yield"%string
  else if id =? 129 then "SYS_kill"%string
  else if id =? 140 then "SYS_setpriority"%string
  else if id =? 141 then "SYS_getpriority"%string
  else if id =? 153 then "SYS_time_ms"%string
  else if id =? 169 then "SYS_gettimeofday"%string
  else if id =? 170 then "SYS_settimeofday"%string
  else if id =? 172 then "SYS_getpid"%string
  else if id =? 173 then "SYS_getppid"%string
  else if id =? 179 then "SYS_sysinfo"%string
  else if id =? 214 then "SYS_brk"%string
  else if id =? 215 then "SYS_munmap"%string
  else if id =? 220 then "SYS_fork"%string
  else if id =? 222 then "SYS_mmap"%string
  else if id =? 281 then "SYS_execv"%string
  else "?"%string.

Definition sys_fstat (fd statbuf_va : Z) : K trapst Z :=
  s <- kget ;;
  if (fd <? 0) || (FD_MAX <=? fd) then kret (-1)
  else
    match default None (up_files (proc s) !! Z.to_nat fd) with
    | None => kret (-1)
    | Some f =>
        let ret := -1 in
        if ret <? 0 then kret ret
        else
          r <- on_ram (copyout 2 (up_pagetable (proc s)) statbuf_va stat_buf file_stat_size) ;;
          if r <? 0 then kret (-1) else kret 0
    end.

Definition sys_exit (code : Z) : K trapst flow := do_exit code.

Definition syscall : K trapst flow :=
  id <- rd_tf TF_a7 ;;
  arg0 <- rd_tf TF_a0 ;;
  arg1 <- rd_tf TF_a1 ;;
  if id =? SYS_fstat then
    ret <- sys_fstat (s32 arg0) arg1 ;;
    wr_tf TF_a0 (u64 ret) ;;;
    kret Returns
  else if id =? SYS_exit then sys_exit (s32 arg0)
  else
    wr_tf TF_a0 (u64 (-1)) ;;;
    kret Returns.

Definition user_exception_handler (scause : Z) : K trapst flow :=
  let cause := Z.land scause 255 in
  if cause =? UserEnvCall then
    k <- check_killed ;;
    match k with
    | Some f => kret f
    | None =>
        epc <- rd_tf TF_epc ;;
        wr_tf TF_epc (u64 (epc + 4)) ;;;
        syscall
    end
  else if cause =? StoreAccessFault then do_exit (-8)
  else if cause =? StorePageFault then do_exit (-7)
  else if cause =? InstructionAccessFault then do_exit (-6)
  else if cause =? InstructionPageFault then do_exit (-5)
  else if cause =? LoadAccessFault then do_exit (-4)
  else if cause =? LoadPageFault then do_exit (-3)
  else if cause =? IllegalInstruction then do_exit (-2)
  else do_exit (-1).

(** [user_trap_ret], up to the jump to user_ret. *)
Definition user_trap_ret : K trapst unit :=
  on_csr local_irq_disable ;;;
  on_csr (w_stvec user_vec_va) ;;;
  ksatp <- on_csr r_satp ;;
  s <- kget ;;
  let tp := gpr (th s) TP in
  wr_tf TF_kernel_satp ksatp ;;;
  wr_tf TF_kernel_sp temp_kstack ;;;
  wr_tf TF_kernel_trap user_trap_at ;;;
  wr_tf TF_kernel_hartid tp ;;;
  epc <- rd_tf TF_epc ;;
  on_csr (w_sepc epc) ;;;
  x <- on_csr r_sstatus ;;
  on_csr (w_sstatus (Z.lor (Z.land x (Z.lnot SSTATUS_SPP)) SSTATUS_SPIE)) ;;;
  y <- on_csr r_sie ;;
  on_csr (w_sie (Z.lor (Z.lor (Z.lor y SIE_STIE) SIE_SSIE) SIE_SEIE)) ;;;
  on_csr set_next_timer ;;;
  let satp := MAKE_SATP (up_pagetable (proc s)) in
  let regs := fun r => if decide (r = A0) then TRAPFRAME else if decide (r = A1) then satp else if decide (r = TP) then tp else junk r in
  kmodify (upd_th (fun h => set_pc user_ret_va (set_gpr regs h))).

Definition user_trap : K trapst flow :=
  sstatus <- on_csr r_sstatus ;;
  scause <- on_csr r_scause ;;
  on <- on_csr local_irq_on ;;
  kernel_assert (negb on) ;;;
  kernel_assert (negb (HAS_BIT sstatus SSTATUS_SPP)) ;;;
  x <- on_csr r_sie ;;
  on_csr (w_sie (Z.land x (Z.lnot SIE_STIE))) ;;;
  enable_kernel_trap ;;;
  f <- (if HAS_BIT scause (Z.shiftl 1 63) then user_interrupt_handler scause else user_exception_handler scause) ;;
  match f with
  | Returns => user_trap_ret ;;; kret Returns
  | _ => kret f
  end.

(** A trap from user space, from the first instruction of the trampoline to the
    sret that goes back, or to the switch to the scheduler. *)
Definition resume_user : K trapst unit := user_trap_ret ;;; run_at user_ret_va user_ret.

Definition from_user (cause tval : Z) : K trapst flow :=
  kmodify (upd_th (take_trap cause tval)) ;;;
  run_at user_vec_va user_vec ;;;
  s <- kget ;;
  if negb (pc (th s) =? user_trap_at) then kpanic
  else
    f <- user_trap ;;
    match f with
    | Returns => run_at user_ret_va user_ret ;;; kret Returns
    | _ => kret f
    end.

(** A trap from kernel code, up to the handler, and from there back. *)
Definition kernel_enter (cause tval : Z) : K trapst (flow * Z * Z) :=
  kmodify (upd_th (take_trap cause tval)) ;;;
  run_at (Z.land kernel_vec_at (Z.lnot 3)) kernel_vec ;;;
  kernel_trap_begin.
Definition kernel_leave (sepc sstatus : Z) : K trapst unit :=
  kernel_trap_end sepc sstatus ;;;
  exec_list kernel_ret.
End Kernel.
