(* ===== verification/TrapProof.v ===== *)
(** * Proofs about traps

    First the assembly: what a run of stores or loads relative to a register does,
    for any region of memory that the page tables map.  Then the trip from user
    space into the kernel and back, and the traps of the kernel itself. *)
From S2P Require Import Prelude VirtioInv VirtioDisk Process Virtio Memory CString Riscv PageAlloc Vmem PageTable UserCopy UserSpace UserLife Cpu Trap.

(** ** Runs of stores and loads *)

(** What the stores of [tbl] make of memory, and the loads of the registers. *)
Fixpoint saved (pa : Z) (g : reg -> Z) (tbl : list (reg * Z)) (m : memory) : memory :=
  match tbl with
  | [] => m
  | (r, o) :: tbl' => saved pa g tbl' (store64 m (pa + o) (g r))
  end.
Fixpoint loaded (pa : Z) (m : memory) (tbl : list (reg * Z)) (g : reg -> Z) : reg -> Z :=
  match tbl with
  | [] => g
  | (r, o) :: tbl' => loaded pa m tbl' (upd_reg r (load64 m (pa + o)) g)
  end.

(** Slots of eight bytes inside [len] bytes that do not overlap. *)
Definition slots_ok (len : Z) (os : list Z) : Prop :=
  Forall (fun o => 0 <= o /\ o + 8 <= len) os /\ ForallOrdPairs (fun o o' => o + 8 <= o' \/ o' + 8 <= o) os.

#[export] Instance slots_ok_dec len os : Decision (slots_ok len os).
Proof.
  unfold slots_ok. apply and_dec; [apply _|]. induction os as [|o os IH]; [left; constructor|].
  destruct IH as [IH|IH]; [|right; intros H; by inversion H].
  destruct (decide (Forall (fun o' => o + 8 <= o' \/ o' + 8 <= o) os)); [left; by constructor|right; intros H; by inversion H].
Defined.

Lemma saved_other pa g tbl : forall m b, Forall (fun o => b < pa + o \/ pa + o + 8 <= b) (snd <$> tbl) -> rd8 (saved pa g tbl m) b = rd8 m b.
Proof.
  induction tbl as [|[r o] tbl IH]; intros m b H; [done|]. cbn [saved]. rewrite fmap_cons in H. apply Forall_cons in H as [Ho H].
  rewrite IH by done. apply store_other. exact Ho.
Qed.

Lemma saved_apart pa g tbl m a : Forall (fun o => a + 8 <= pa + o \/ pa + o + 8 <= a) (snd <$> tbl) -> load64 (saved pa g tbl m) a = load64 m a.
Proof. intros H. apply load_agree. intros b Hb. apply saved_other. eapply Forall_impl; [exact H|]. cbn. lia. Qed.

Lemma saved_load len pa g tbl : slots_ok len (snd <$> tbl) -> (forall r, 0 <= g r < 2 ^ 64) ->
  forall m r o, (r, o) ∈ tbl -> load64 (saved pa g tbl m) (pa + o) = g r.
Proof.
  intros [_ Hp] Hg. induction tbl as [|[r' o'] tbl IH]; intros m r o Hin; [by apply elem_of_nil in Hin|].
  rewrite fmap_cons in Hp. inversion Hp as [|x xs Hx Hxs]; subst. cbn [saved]. apply elem_of_cons in Hin as [[= -> ->]|Hin]; [|by apply IH].
  rewrite saved_apart; [apply load64_store64_eq, Hg|]. eapply Forall_impl; [exact Hx|]. cbn. lia.
Qed.

Lemma saved_outside len pa g tbl m b : slots_ok len (snd <$> tbl) -> ~ pa <= b < pa + len -> rd8 (saved pa g tbl m) b = rd8 m b.
Proof. intros [H _] Hb. apply saved_other. eapply Forall_impl; [exact H|]. cbn. lia. Qed.

Lemma loaded_other pa m tbl r : forall g, r ∉ (fst <$> tbl) -> loaded pa m tbl g r = g r.
Proof.
  induction tbl as [|[r' o] tbl IH]; intros g Hr; [done|]. cbn [loaded]. rewrite fmap_cons, not_elem_of_cons in Hr. destruct Hr as [Hne Hr].
  rewrite IH by done. unfold upd_reg. by rewrite decide_False.
Qed.

Lemma loaded_in pa m tbl : NoDup (fst <$> tbl) -> forall g r o, (r, o) ∈ tbl -> loaded pa m tbl g r = load64 m (pa + o).
Proof.
  induction tbl as [|[r' o'] tbl IH]; intros Hnd g r o Hin; [by apply elem_of_nil in Hin|]. rewrite fmap_cons in Hnd. apply NoDup_cons in Hnd as [Hn Hnd].
  cbn [loaded]. apply elem_of_cons in Hin as [[= -> ->]|Hin]; [|by apply IH]. rewrite loaded_other by done. unfold upd_reg. by rewrite decide_True.
Qed.

Definition store_of (base : reg) (x : reg * Z) : instr := SD (fst x) (snd x) base.
Definition load_of (base : reg) (x : reg * Z) : instr := LD (fst x) (snd x) base.

Lemma exec_list_app l l' s s' : exec_list l s = Ret tt s' -> exec_list (l ++ l') s = exec_list l' s'.
Proof.
  revert s. induction l as [|i l IH]; intros s; cbn [app exec_list]; [by intros [= ->]|]. unfold kbind.
  destruct (exec i s) as [[] s1|s1| |]; try done. apply IH.
Qed.

(** A region of [len] bytes at [va] that is mapped to [pa] by the tables of [sat],
    whatever is stored in it. *)
Definition region (m : memory) (sat va pa len : Z) : Prop :=
  forall m', (forall a, ~ pa <= a < pa + len -> rd8 m' a = rd8 m a) ->
    forall o perm, 0 <= o -> o + 8 <= len -> perm = PTE_R \/ perm = PTE_W -> hw_addr m' sat (u64 (va + o)) perm = Some (pa + o).

Lemma region_agree m m' sat va pa len : region m sat va pa len -> (forall a, ~ pa <= a < pa + len -> rd8 m' a = rd8 m a) -> region m' sat va pa len.
Proof. intros Hr Hag m2 Hm2. apply Hr. intros a Ha. by rewrite Hm2, Hag. Qed.

Section runs.
Context {base : reg} {va pa len : Z}.

Lemma stores_run tbl : forall s, region (ram (tm s)) (satp (csr (th s))) va pa len -> gpr (th s) base = va -> Forall (fun o => 0 <= o /\ o + 8 <= len) (snd <$> tbl) ->
  exec_list (store_of base <$> tbl) s = Ret tt (upd_tm (set_ram (saved pa (gpr (th s)) tbl)) s).
Proof.
  induction tbl as [|[r o] tbl IH]; intros s Hr Hb Hs; [by destruct s as [h [m p] i d u]|].
  rewrite !fmap_cons in *. apply Forall_cons in Hs as [[Ho1 Ho2] Hs]. cbn [snd] in *. cbn [exec_list store_of fst snd]. unfold kbind, exec at 1. cbv zeta. cbn [store_of load_of fst snd].
  rewrite Hb, (Hr (ram (tm s))) by (done || by right). rewrite IH; [reflexivity| |exact Hb|exact Hs].
  eapply region_agree; [exact Hr|]. intros a Ha. apply store_other. lia.
Qed.

Lemma loads_run tbl : forall s, region (ram (tm s)) (satp (csr (th s))) va pa len -> gpr (th s) base = va -> Forall (fun o => 0 <= o /\ o + 8 <= len) (snd <$> tbl) ->
  (forall o, (base, o) ∈ tbl -> load64 (ram (tm s)) (pa + o) = va) ->
  exec_list (load_of base <$> tbl) s = Ret tt (upd_th (set_gpr (loaded pa (ram (tm s)) tbl (gpr (th s)))) s).
Proof.
  induction tbl as [|[r o] tbl IH]; intros s Hr Hb Hs Hself; [by destruct s as [[] m i d u]|].
  rewrite !fmap_cons in *. apply Forall_cons in Hs as [[Ho1 Ho2] Hs]. cbn [snd] in *. cbn [exec_list load_of fst snd]. unfold kbind, exec at 1. cbv zeta. cbn [store_of load_of fst snd].
  rewrite Hb, (Hr (ram (tm s))) by (done || by left). rewrite IH; [reflexivity|exact Hr| |exact Hs|intros o' Ho'; apply Hself; by right].
  cbn [upd_th th set_gpr gpr]. unfold upd_reg. case_decide; [subst; apply Hself; by left|exact Hb].
Qed.
End runs.

(** ** The trap frame *)

Definition frame_off (r : reg) : Z :=
  match r with
  | RA => 40 | SP => 48 | GP => 56 | TP => 64 | T0 => 72 | T1 => 80 | T2 => 88 | S0 => 96 | S1 => 104
  | A0 => 112 | A1 => 120 | A2 => 128 | A3 => 136 | A4 => 144 | A5 => 152 | A6 => 160 | A7 => 168
  | S2 => 176 | S3 => 184 | S4 => 192 | S5 => 200 | S6 => 208 | S7 => 216 | S8 => 224 | S9 => 232 | S10 => 240 | S11 => 248
  | T3 => 256 | T4 => 264 | T5 => 272 | T6 => 280
  end.

(** The registers that the trampoline moves in its long runs: all but a0. *)
Definition user_regs : list reg :=
  [RA; SP; GP; TP; T0; T1; T2; S0; S1; A1; A2; A3; A4; A5; A6; A7; S2; S3; S4; S5; S6; S7; S8; S9; S10; S11; T3; T4; T5; T6].
Definition user_tbl : list (reg * Z) := (fun r => (r, frame_off r)) <$> user_regs.

Lemma user_regs_all r : r <> A0 -> r ∈ user_regs.
Proof. intros Hr. apply (bool_decide_unpack _). by destruct r. Qed.

Lemma user_tbl_in r : r <> A0 -> (r, frame_off r) ∈ user_tbl.
Proof. intros Hr. apply list_elem_of_fmap. exists r. split; [done|by apply user_regs_all]. Qed.

Lemma user_tbl_slots : slots_ok 4096 (snd <$> user_tbl).
Proof. apply (bool_decide_unpack _). by vm_compute. Qed.

Lemma user_tbl_regs : NoDup (fst <$> user_tbl) /\ A0 ∉ (fst <$> user_tbl).
Proof. split; apply (bool_decide_unpack _); by vm_compute. Qed.

(** The page [tf] is mapped at TRAPFRAME for the kernel, and is not a page of the
    tables. *)
Record frame_at (m : memory) (root tf : Z) : Prop := {
  fa_root : root mod 4096 = 0 /\ 0 < root < 2 ^ 56;
  fa_page : tf mod 4096 = 0 /\ 0 < tf < 2 ^ 56;
  fa_tables : exists T, pt_inv m T /\ T !! root = Some (2%nat, 0) /\ T !! tf = None;
  fa_pte : translate m root TRAPFRAME = Some (map_pte tf (Z.lor PTE_R PTE_W))
}.

Lemma frame_at_agree m m' root tf : frame_at m root tf -> (forall a, ~ tf <= a < tf + 4096 -> rd8 m' a = rd8 m a) -> frame_at m' root tf.
Proof.
  intros [Hr Hp (T & Hinv & Hroot & Htf) He] Hag.
  assert (tables_agree T m m') as Hta.
  { intros t [[lv pre] Ht] a Ha. destruct (pt_page _ _ Hinv _ _ _ Ht). assert (t <> tf) by congruence. apply Hag. zlia. }
  split; [exact Hr|exact Hp|exists T; split; [by eapply pt_inv_agree|done]|].
  rewrite <- He. unfold translate. apply (leaf_pte_agree T); [exact Hta|exact Hinv|by vm_compute|]. by rewrite prefix_root by (by vm_compute).
Qed.

Lemma make_satp_mode root : 0 < root < 2 ^ 56 -> Z.shiftr (MAKE_SATP root) 60 = 8.
Proof.
  intros Hr. unfold MAKE_SATP. rewrite Z.shiftr_lor. change (Z.shiftr SATP_SV39 60) with 8. rewrite Z.shiftr_shiftr by lia.
  rewrite (Z.shiftr_div_pow2 root) by lia. rewrite Z.div_small by lia. done.
Qed.

Lemma make_satp_root root : root mod 4096 = 0 -> 0 < root < 2 ^ 56 -> Z.land (MAKE_SATP root) (Z.ones 44) * 4096 = root.
Proof.
  intros Hal Hr. unfold MAKE_SATP. rewrite Z.land_lor_distr_l. change (Z.land SATP_SV39 (Z.ones 44)) with 0. rewrite Z.lor_0_l.
  rewrite Z.land_ones, Z.shiftr_div_pow2 by lia. rewrite Z.mod_small by zlia. zlia.
Qed.

(** An entry of the kernel's own lets the hart do what its flags say. *)
Lemma kernel_pte_bits p other perm : p mod 4096 = 0 -> 0 < p < 2 ^ 56 -> other = PTE_W \/ other = PTE_X -> perm = PTE_R \/ perm = other ->
  HAS_BIT (map_pte p (Z.lor PTE_R other)) perm && negb (HAS_BIT (map_pte p (Z.lor PTE_R other)) PTE_U) = true.
Proof.
  intros Hal Hr Ho Hp. assert (0 <= Z.lor PTE_R other < 1024) as Hf by by destruct Ho as [-> | ->].
  assert (forall i, 0 <= i < 10 -> Z.testbit (map_pte p (Z.lor PTE_R other)) i = Z.testbit (Z.lor (Z.lor PTE_R other) 1) i) as Hbit.
  { intros i Hi. transitivity (Z.testbit (PTE_FLAGS (map_pte p (Z.lor PTE_R other))) i).
    - unfold PTE_FLAGS. change 1023 with (Z.ones 10). rewrite Z.land_spec, Z.ones_spec_low by lia. by rewrite andb_true_r.
    - by rewrite (proj1 (proj2 (map_pte_page p (Z.lor PTE_R other) Hal Hr Hf))). }
  remember (map_pte p (Z.lor PTE_R other)) as e. apply andb_true_iff.
  split; [|change PTE_U with (Z.shiftl 1 4); rewrite has_bit by lia; rewrite Hbit by lia; by destruct Ho as [-> | ->]].
  assert (exists i, 0 <= i < 10 /\ perm = Z.shiftl 1 i /\ Z.testbit (Z.lor (Z.lor PTE_R other) 1) i = true) as (i & Hi & -> & Hb).
  { destruct Hp as [-> | ->]; [exists 1; by destruct Ho as [-> | ->]|destruct Ho as [-> | ->]; [exists 2|exists 3]; by split_and!]. }
  rewrite has_bit by lia. by rewrite Hbit.
Qed.

Lemma frame_region m root tf : frame_at m root tf -> region m (MAKE_SATP root) TRAPFRAME tf 4096.
Proof.
  intros Hf m' Hag o perm Ho Hlen Hperm. destruct (frame_at_agree m m' root tf Hf Hag) as [[Hral Hr] [Hal Hp] _ He].
  unfold hw_addr. rewrite make_satp_mode, make_satp_root by done. cbn [Z.eqb Pos.eqb].
  rewrite u64_small by (change TRAPFRAME with (67108862 * 4096); lia).
  unfold translate in *. rewrite (leaf_pte_same_page 2 m' root (TRAPFRAME + o) TRAPFRAME), He by (change TRAPFRAME with (67108862 * 4096); zlia).
  cbn [mbind option_bind]. rewrite kernel_pte_bits by (done || by left). rewrite (proj1 (map_pte_page tf (Z.lor PTE_R PTE_W) Hal Hp ltac:(by vm_compute))).
  f_equal. change TRAPFRAME with (67108862 * 4096). zlia.
Qed.

(** ** Into the kernel *)

Lemma exec_cons i l s s1 : exec i s = Ret tt s1 -> exec_list (i :: l) s = exec_list l s1.
Proof. intros H. cbn [exec_list]. unfold kbind. by rewrite H. Qed.

(** The steps on a state that is written out. *)
Section steps.
Context {base : reg} {va pa len : Z} {g : reg -> Z} {p : Z} {md : priv} {c : csrs} {m : memory} {pg : page_allocator} {ir : plic} {dk : option vstate} {u : uproc}.
Local Notation st g p c m := (TrapSt (Hart g p md c) (Machine m pg) ir dk u).

Lemma exec_SD r o : region m (satp c) va pa len -> g base = va -> 0 <= o -> o + 8 <= len ->
  exec (SD r o base) (st g p c m) = Ret tt (st g p c (store64 m (pa + o) (g r))).
Proof. intros Hr Hb Ho Hl. unfold exec. cbn [th gpr tm ram csr]. by rewrite Hb, (Hr m) by (done || by right). Qed.

Lemma exec_LD r o : region m (satp c) va pa len -> g base = va -> 0 <= o -> o + 8 <= len ->
  exec (LD r o base) (st g p c m) = Ret tt (st (upd_reg r (load64 m (pa + o)) g) p c m).
Proof. intros Hr Hb Ho Hl. unfold exec. cbn [th gpr tm ram csr]. by rewrite Hb, (Hr m) by (done || by left). Qed.

Lemma exec_stores tbl : region m (satp c) va pa len -> g base = va -> Forall (fun o => 0 <= o /\ o + 8 <= len) (snd <$> tbl) ->
  exec_list (store_of base <$> tbl) (st g p c m) = Ret tt (st g p c (saved pa g tbl m)).
Proof. intros Hr Hb Hs. by rewrite (stores_run (va := va) (pa := pa) (len := len)). Qed.

Lemma exec_loads tbl : region m (satp c) va pa len -> g base = va -> Forall (fun o => 0 <= o /\ o + 8 <= len) (snd <$> tbl) ->
  (forall o, (base, o) ∈ tbl -> load64 m (pa + o) = va) ->
  exec_list (load_of base <$> tbl) (st g p c m) = Ret tt (st (loaded pa m tbl g) p c m).
Proof. intros Hr Hb Hs Hself. by rewrite (loads_run (va := va) (pa := pa) (len := len)). Qed.

Lemma exec_satp r : exec (CSRW Satp r) (st g p c m) =
  Ret tt (st g p (Csrs (sstatus c) (sie c) (stvec c) (sepc c) (scause c) (stval c) (g r) (sscratch c) (time c) (timecmp c)) m).
Proof. reflexivity. Qed.
Lemma exec_scratch r : exec (CSRW Sscratch r) (st g p c m) =
  Ret tt (st g p (Csrs (sstatus c) (sie c) (stvec c) (sepc c) (scause c) (stval c) (satp c) (g r) (time c) (timecmp c)) m).
Proof. reflexivity. Qed.
Lemma exec_swap : exec (CSRRW A0 Sscratch A0) (st g p c m) =
  Ret tt (st (upd_reg A0 (sscratch c) g) p (Csrs (sstatus c) (sie c) (stvec c) (sepc c) (scause c) (stval c) (satp c) (g A0) (time c) (timecmp c)) m).
Proof. reflexivity. Qed.
Lemma exec_csrr r n : exec (CSRR r n) (st g p c m) = Ret tt (st (upd_reg r (read_csr n c) g) p c m).
Proof. reflexivity. Qed.
Lemma exec_addi rd rs imm : exec (ADDI rd rs imm) (st g p c m) = Ret tt (st (upd_reg rd (u64 (g rs + imm)) g) p c m).
Proof. reflexivity. Qed.
Lemma exec_mv rd rs : exec (MV rd rs) (st g p c m) = Ret tt (st (upd_reg rd (g rs) g) p c m).
Proof. reflexivity. Qed.
Lemma exec_fence : exec SFENCE_VMA (st g p c m) = Ret tt (st g p c m).
Proof. reflexivity. Qed.
Lemma exec_jr r : exec (JR r) (st g p c m) = Ret tt (st g (g r) c m).
Proof. reflexivity. Qed.
End steps.

Lemma user_vec_split : user_vec = CSRRW A0 Sscratch A0 :: (store_of A0 <$> user_tbl) ++
  [CSRR T0 Sscratch; SD T0 112 A0; CSRR T1 Sepc; SD T1 24 A0; LD SP 8 A0; LD TP 32 A0; LD T0 16 A0; LD T1 0 A0; CSRW Satp T1; SFENCE_VMA; JR T0].
Proof. reflexivity. Qed.

(** The frame [tf] of [m'] holds the registers [g] and the program counter [a];
    nothing else changed but the slots of the frame. *)
Record frame_holds (m m' : memory) (tf : Z) (g : reg -> Z) (a : Z) : Prop := {
  fh_regs : forall r, load64 m' (tf + frame_off r) = g r;
  fh_epc : load64 m' (tf + 24) = a;
  fh_kernel : forall o, o ∈ [0; 8; 16; 32] -> load64 m' (tf + o) = load64 m (tf + o);
  fh_other : forall b, ~ tf <= b < tf + 4096 -> rd8 m' b = rd8 m b
}.

Lemma frame_off_range r : 40 <= frame_off r <= 280.
Proof. destruct r; cbn; lia. Qed.
Lemma frame_off_apart r r' : r <> r' -> frame_off r + 8 <= frame_off r' \/ frame_off r' + 8 <= frame_off r.
Proof. destruct r, r'; cbn; (done || lia). Qed.

(** What the stores of user_vec leave. *)
Lemma user_saved m tf g a x : 0 <= a < 2 ^ 64 -> (forall r, 0 <= g r < 2 ^ 64) -> 0 <= x < 2 ^ 64 ->
  frame_holds m (store64 (store64 (saved tf (upd_reg A0 x g) user_tbl m) (tf + 112) (g A0)) (tf + 24) a) tf g a.
Proof.
  intros Ha Hg Hx. assert (forall r, 0 <= upd_reg A0 x g r < 2 ^ 64) as Hg'. { intros r. unfold upd_reg. case_decide; [done|apply Hg]. }
  split.
  - intros r. pose proof (frame_off_range r). rewrite load64_store64_ne by lia. destruct (decide (r = A0)) as [->|Hr].
    + apply load64_store64_eq, Hg.
    + pose proof (frame_off_apart r A0 Hr) as Hap. cbn [frame_off] in Hap. rewrite load64_store64_ne by lia.
      rewrite (saved_load 4096 tf _ _ user_tbl_slots Hg' m r (frame_off r) (user_tbl_in r Hr)). unfold upd_reg. by rewrite decide_False.
  - by apply load64_store64_eq.
  - intros o Ho. rewrite !elem_of_cons, elem_of_nil in Ho. rewrite !load64_store64_ne by lia. apply saved_apart.
    unfold user_tbl. apply Forall_forall. intros o' (y & -> & (r' & -> & _)%list_elem_of_fmap)%list_elem_of_fmap. pose proof (frame_off_range r'). cbn. lia.
  - intros b Hb. rewrite !store_other by lia. apply (saved_outside 4096); [apply user_tbl_slots|exact Hb].
Qed.

#[local] Opaque Memory.load Memory.store saved loaded hw_addr.

Section user.
Context {kernel_vec_at user_trap_at trampoline user_vec_at user_ret_at temp_kstack : Z} {junk : reg -> Z} {stat_buf : Z} {fuel : nat}.
Context (Htrap : 0 <= user_trap_at < 2 ^ 64).

Local Notation vec := (user_vec_va trampoline user_vec_at).
Local Notation ret_va := (user_ret_va trampoline user_ret_at).
Local Notation frame s := (up_trapframe (proc s)).
Local Notation root s := (up_pagetable (proc s)).

Lemma user_vec_va_eq : 0 < trampoline -> trampoline <= user_vec_at < trampoline + 4096 -> trampoline mod 4096 = 0 -> user_vec_at mod 4 = 0 ->
  vec = TRAMPOLINE + (user_vec_at - trampoline).
Proof.
  intros Hp Hr Hal H4. unfold user_vec_va. change TRAMPOLINE with (67108863 * 4096). rewrite u64_small by lia.
  rewrite <- Z.ldiff_land. apply Z.bits_inj'. intros i Hi. rewrite Z.ldiff_spec. change 3 with (Z.ones 2).
  destruct (decide (i < 2)); [|by rewrite Z.ones_spec_high, andb_true_r by lia].
  rewrite Z.ones_spec_low by lia. rewrite andb_false_r.
  replace (67108863 * 4096 + (user_vec_at - trampoline)) with ((67108863 * 1024 + (user_vec_at - trampoline) / 4) * 2 ^ 2) by zlia. symmetry. by apply Z.mul_pow2_bits_low.
Qed.

(** A user program runs: the next trap finds the trampoline and the frame. *)
Record user_ready (s : trapst) : Prop := {
  ur_mode : mode (th s) = User;
  ur_vec : stvec (csr (th s)) = vec;
  ur_scratch : sscratch (csr (th s)) = TRAPFRAME;
  ur_satp : satp (csr (th s)) = MAKE_SATP (root s);
  ur_frame : frame_at (ram (tm s)) (root s) (frame s);
  ur_trap : load64 (ram (tm s)) (frame s + TF_kernel_trap) = user_trap_at;
  ur_regs : forall r, 0 <= gpr (th s) r < 2 ^ 64;
  ur_pc : 0 <= pc (th s) < 2 ^ 64
}.

(** After user_vec: the frame holds the program, the hart is at user_trap. *)
Record in_kernel (s s' : trapst) (cause tval : Z) : Prop := {
  ik_frame : frame_holds (ram (tm s)) (ram (tm s')) (frame s) (gpr (th s)) (pc (th s));
  ik_pages : pages (tm s') = pages (tm s);
  ik_irqs : irqs s' = irqs s;
  ik_disk : disk s' = disk s;
  ik_proc : proc s' = proc s;
  ik_pc : pc (th s') = user_trap_at;
  ik_tp : gpr (th s') TP = load64 (ram (tm s)) (frame s + TF_kernel_hartid);
  ik_csr : csr (th s') = Csrs (sstatus (csr (th (upd_th (take_trap cause tval) s)))) (sie (csr (th s))) vec (pc (th s)) cause tval
    (load64 (ram (tm s)) (frame s + TF_kernel_satp)) (gpr (th s) A0) (time (csr (th s))) (timecmp (csr (th s)))
}.

Lemma user_vec_run s cause tval : user_ready s ->
  exists s', run_at vec user_vec (upd_th (take_trap cause tval) s) = Ret tt s' /\ in_kernel s s' cause tval.
Proof.
  intros [Hmode Hvec Hscr Hsat Hfr Htr Hreg Hpc]. unfold run_at. cbn [upd_th th take_trap pc]. rewrite Hvec, Z.eqb_refl, user_vec_split.
  destruct s as [[g a md c] [m pg] ir dk u]. unfold upd_th, take_trap. cbn [th tm irqs disk proc gpr pc mode csr ram] in *. subst md.
  set (tf := up_trapframe u) in *. set (rt := up_pagetable u) in *.
  rewrite (exec_cons _ _ _ _ exec_swap). cbn [sscratch sstatus sie stvec sepc scause stval satp time timecmp]. rewrite Hscr, Hsat, Hvec.
  set (g1 := upd_reg A0 TRAPFRAME g). set (ss := set_bit _ 8 false).
  erewrite exec_list_app; [|apply (exec_stores (va := TRAPFRAME) (pa := tf) (len := 4096)); [by apply frame_region|reflexivity|apply user_tbl_slots]].
  assert (forall b, ~ tf <= b < tf + 4096 -> rd8 (saved tf g1 user_tbl m) b = rd8 m b) as Hm1
    by (intros b Hb; apply (saved_outside 4096); [apply user_tbl_slots|exact Hb]).
  pose proof (user_saved m tf g a TRAPFRAME Hpc Hreg ltac:(by vm_compute)) as Hh. fold g1 in Hh.
  set (m1 := saved tf g1 user_tbl m) in *.
  assert (forall m', (forall b, ~ tf <= b < tf + 4096 -> rd8 m' b = rd8 m b) -> region m' (MAKE_SATP rt) TRAPFRAME tf 4096) as HR
    by (intros m' Hm'; apply frame_region; by eapply frame_at_agree).
  rewrite (exec_cons _ _ _ _ (exec_csrr _ _)). cbn [read_csr sscratch].
  erewrite exec_cons; [|apply (exec_SD (va := TRAPFRAME) (pa := tf) (len := 4096)); [apply HR, Hm1|reflexivity|lia..]].
  change (upd_reg T0 (g A0) g1 T0) with (g A0). set (m2 := store64 m1 (tf + 112) (g A0)) in *.
  assert (forall b, ~ tf <= b < tf + 4096 -> rd8 m2 b = rd8 m b) as Hm2 by (intros b Hb; unfold m2; rewrite store_other by lia; by apply Hm1).
  rewrite (exec_cons _ _ _ _ (exec_csrr _ _)). cbn [read_csr sepc].
  erewrite exec_cons; [|apply (exec_SD (va := TRAPFRAME) (pa := tf) (len := 4096)); [apply HR, Hm2|reflexivity|lia..]].
  change (upd_reg T1 a _ T1) with a. set (m3 := store64 m2 (tf + 24) a) in *. pose proof (HR m3 (fh_other _ _ _ _ _ Hh)) as HR3.
  do 4 (erewrite exec_cons; [|apply (exec_LD (va := TRAPFRAME) (pa := tf) (len := 4096)); [exact HR3|reflexivity|lia..]]).
  rewrite (exec_cons _ _ _ _ (exec_satp _)), (exec_cons _ _ _ _ exec_fence), (exec_cons _ _ _ _ (exec_jr _)).
  pose proof (fh_kernel _ _ _ _ _ Hh) as Hk.
  rewrite (Hk 0), (Hk 8), (Hk 16), (Hk 32) by (apply (bool_decide_unpack _); reflexivity).
  eexists. split; [reflexivity|]. split; cbn [tm ram pages irqs disk proc th pc gpr csr]; try reflexivity; [exact Hh|exact Htr].
Qed.

(** ** Back to user space *)

Definition kernel_part (m : memory) (tf ksatp tp : Z) : memory :=
  store64 (store64 (store64 (store64 m (tf + 0) ksatp) (tf + 8) temp_kstack) (tf + 16) user_trap_at) (tf + 32) tp.

Lemma kernel_part_other m tf ksatp tp b : ~ tf <= b < tf + 40 -> rd8 (kernel_part m tf ksatp tp) b = rd8 m b.
Proof. intros Hb. unfold kernel_part. by rewrite !store_other by lia. Qed.

Lemma kernel_part_load m tf ksatp tp o : o = 24 \/ 40 <= o -> load64 (kernel_part m tf ksatp tp) (tf + o) = load64 m (tf + o).
Proof. intros Ho. unfold kernel_part. by rewrite !load64_store64_ne by lia. Qed.

Lemma kernel_part_trap m tf ksatp tp : load64 (kernel_part m tf ksatp tp) (tf + 16) = user_trap_at.
Proof. unfold kernel_part. rewrite load64_store64_ne by lia. by apply load64_store64_eq. Qed.

Definition ret_regs (rt tp : Z) : reg -> Z :=
  fun r => if decide (r = A0) then TRAPFRAME else if decide (r = A1) then MAKE_SATP rt else if decide (r = TP) then tp else junk r.

Lemma user_trap_ret_run g p md c m pg ir dk u :
  user_trap_ret user_trap_at trampoline user_vec_at user_ret_at temp_kstack junk (TrapSt (Hart g p md c) (Machine m pg) ir dk u) =
  let m' := kernel_part m (up_trapframe u) (satp c) (g TP) in
  Ret tt (TrapSt (Hart (ret_regs (up_pagetable u) (g TP)) ret_va md
    (Csrs (Z.lor (Z.land (Z.land (sstatus c) (Z.lnot SSTATUS_SIE)) (Z.lnot SSTATUS_SPP)) SSTATUS_SPIE)
      (Z.lor (Z.lor (Z.lor (sie c) SIE_STIE) SIE_SSIE) SIE_SEIE) vec (load64 m' (up_trapframe u + 24)) (scause c) (stval c) (satp c) (sscratch c) (time c)
      (u64 (time c + TICK_FREQ / TIME_SLICE_PER_SEC)))) (Machine m' pg) ir dk u).
Proof. reflexivity. Qed.

Lemma user_ret_split : user_ret = CSRW Satp A1 :: SFENCE_VMA :: LD T0 112 A0 :: CSRW Sscratch T0 :: (load_of A0 <$> user_tbl) ++ [CSRRW A0 Sscratch A0; SRET].
Proof. reflexivity. Qed.

Lemma exec_sret g p md c m pg ir dk u : exec SRET (TrapSt (Hart g p md c) (Machine m pg) ir dk u) =
  Ret tt (TrapSt (do_sret (Hart g p md c)) (Machine m pg) ir dk u).
Proof. reflexivity. Qed.

(** The state after the sret. *)
Record resumed (s s' : trapst) : Prop := {
  re_ready : user_ready s';
  re_regs : forall r, gpr (th s') r = load64 (ram (tm s)) (frame s + frame_off r);
  re_pc : pc (th s') = load64 (ram (tm s)) (frame s + TF_epc);
  re_other : forall b, ~ frame s <= b < frame s + 40 -> rd8 (ram (tm s')) b = rd8 (ram (tm s)) b;
  re_pages : pages (tm s') = pages (tm s);
  re_irqs : irqs s' = irqs s;
  re_disk : disk s' = disk s;
  re_proc : proc s' = proc s;
  re_timer : timecmp (csr (th s')) = u64 (time (csr (th s)) + TICK_FREQ / TIME_SLICE_PER_SEC) /\ Z.testbit (sie (csr (th s'))) 5 = true
}.

Lemma ret_spp x : Z.testbit (Z.lor (Z.land (Z.land x (Z.lnot SSTATUS_SIE)) (Z.lnot SSTATUS_SPP)) SSTATUS_SPIE) 8 = false.
Proof. rewrite Z.lor_spec, !Z.land_spec. change (Z.testbit (Z.lnot SSTATUS_SPP) 8) with false. by rewrite andb_false_r. Qed.

Lemma resume_run s : frame_at (ram (tm s)) (root s) (frame s) ->
  exists s', resume_user user_trap_at trampoline user_vec_at user_ret_at temp_kstack junk s = Ret tt s' /\ resumed s s'.
Proof.
  destruct s as [[g p md c] [m pg] ir dk u]. cbn [proc tm ram]. intros Hfr. unfold resume_user. rewrite (kbind_ret _ _ _ _ _ (user_trap_ret_run _ _ _ _ _ _ _ _ _)).
  set (tf := up_trapframe u) in *. set (rt := up_pagetable u) in *. set (m' := kernel_part m tf (satp c) (g TP)).
  assert (forall b, ~ tf <= b < tf + 40 -> rd8 m' b = rd8 m b) as Hm by (intros b Hb; by apply kernel_part_other).
  assert (frame_at m' rt tf) as Hfr' by (eapply frame_at_agree; [exact Hfr|]; intros b Hb; apply Hm; lia).
  pose proof (frame_region _ _ _ Hfr') as HR.
  assert (forall o, o = 24 \/ 40 <= o -> load64 m' (tf + o) = load64 m (tf + o)) as Hl by (intros o Ho; by apply kernel_part_load).
  pose proof (kernel_part_trap m tf (satp c) (g TP)) as Hkt. fold m' in Hkt. unfold run_at. cbn [th pc]. rewrite Z.eqb_refl, user_ret_split.
  rewrite (exec_cons _ _ _ _ (exec_satp _)), (exec_cons _ _ _ _ exec_fence). cbn [sstatus sie stvec sepc scause stval satp sscratch time timecmp].
  change (ret_regs rt (g TP) A1) with (MAKE_SATP rt).
  erewrite exec_cons; [|apply (exec_LD (va := TRAPFRAME) (pa := tf) (len := 4096)); [exact HR|reflexivity|lia..]].
  rewrite (exec_cons _ _ _ _ (exec_scratch _)). cbn [sstatus sie stvec sepc scause stval satp sscratch time timecmp].
  set (g1 := upd_reg T0 _ _). destruct user_tbl_regs as [Hnd Ha0].
  erewrite exec_list_app; [|apply (exec_loads (va := TRAPFRAME) (pa := tf) (len := 4096)); [exact HR|reflexivity|apply user_tbl_slots|]].
  2: { intros o Ho. destruct Ha0. apply list_elem_of_fmap. by exists (A0, o). }
  rewrite (exec_cons _ _ _ _ exec_swap). cbn [sstatus sie stvec sepc scause stval satp sscratch time timecmp].
  rewrite (loaded_other tf m' user_tbl A0 g1 Ha0). change (g1 A0) with TRAPFRAME. change (g1 T0) with (load64 m' (tf + 112)).
  rewrite (exec_cons _ _ _ _ (exec_sret _ _ _ _ _ _ _ _ _)). rewrite (Hl 112), (Hl 24) by lia.
  set (g2 := upd_reg A0 _ _). assert (forall r, g2 r = load64 m (tf + frame_off r)) as Hg2.
  { intros r. unfold g2, upd_reg. case_decide as Hr; [by subst|]. rewrite (loaded_in tf m' user_tbl Hnd g1 r (frame_off r) (user_tbl_in r Hr)).
    apply Hl. right. apply frame_off_range. }
  eexists. split; [reflexivity|]. split; cbn [th tm ram pages proc irqs disk gpr pc mode csr do_sret set_sstatus sstatus sie stvec sepc satp sscratch time timecmp]; try reflexivity.
  - split; cbn [th tm ram pages proc irqs disk gpr pc mode csr do_sret set_sstatus sstatus sie stvec sepc satp sscratch time timecmp]; try reflexivity.
    + by rewrite ret_spp.
    + exact Hfr'.
    + exact Hkt.
    + intros r. rewrite Hg2. apply load64_range.
    + apply load64_range.
  - exact Hg2.
  - exact Hm.
  - split; [reflexivity|]. rewrite !Z.lor_spec. change (Z.testbit SIE_STIE 5) with true. by rewrite orb_true_r.
Qed.

(** ** The handlers *)

Local Notation trap_from := (from_user kernel_vec_at user_trap_at trampoline user_vec_at user_ret_at temp_kstack junk stat_buf fuel).
Local Notation utrap := (user_trap kernel_vec_at user_trap_at trampoline user_vec_at user_ret_at temp_kstack junk stat_buf fuel).
Local Notation resume := (resume_user user_trap_at trampoline user_vec_at user_ret_at temp_kstack junk).

(** [user_trap] after its assertions: interrupts on, the timer off, traps go to
    the kernel. *)
Definition handler_csr (c : csrs) : csrs :=
  Csrs (Z.lor (sstatus c) SSTATUS_SIE) (Z.land (sie c) (Z.lnot SIE_STIE)) (Z.land kernel_vec_at (Z.lnot 3)) (sepc c) (scause c) (stval c) (satp c) (sscratch c)
    (time c) (timecmp c).
Definition in_handler (s : trapst) : trapst := upd_th (fun h => set_csr (handler_csr (csr h)) h) s.

Lemma user_trap_run s : Z.testbit (sstatus (csr (th s))) 1 = false -> Z.testbit (sstatus (csr (th s))) 8 = false ->
  utrap s = kbind (if Z.testbit (scause (csr (th s))) 63 then user_interrupt_handler fuel (scause (csr (th s)))
    else user_exception_handler stat_buf (scause (csr (th s))))
    (fun f => match f with Returns => user_trap_ret user_trap_at trampoline user_vec_at user_ret_at temp_kstack junk ;;; kret Returns | _ => kret f end) (in_handler s).
Proof.
  intros Hon Hspp. unfold user_trap. unfold kbind at 1, on_csr at 1, on_part at 1, r_sstatus, kbind at 1, kget, kret at 1.
  unfold kbind at 1, on_csr at 1, on_part at 1, r_scause, kbind at 1, kget, kret at 1.
  unfold kbind at 1, on_csr at 1, on_part at 1, local_irq_on, kbind at 1, r_sstatus, kbind at 1, kget, kret at 1 2.
  cbn [upd_th th set_csr csr]. rewrite has_sie, Hon. unfold kernel_assert at 1. cbn [negb]. unfold kbind at 1, kret at 1.
  change SSTATUS_SPP with (Z.shiftl 1 8). rewrite (has_bit _ 8), Hspp by lia. unfold kernel_assert at 1. cbn [negb]. unfold kbind at 1, kret at 1.
  rewrite (has_bit _ 63) by lia. destruct s as [[g p md c] m ir dk u]. reflexivity.
Qed.

Lemma trap_bits x b : Z.testbit (set_bit (set_bit (set_bit x 5 b) 1 false) 8 false) 1 = false /\ Z.testbit (set_bit (set_bit (set_bit x 5 b) 1 false) 8 false) 8 = false.
Proof.
  unfold set_bit. split; rewrite Z.land_spec; [rewrite Z.land_spec; change (Z.testbit (Z.lnot (2 ^ 1)) 1) with false; by rewrite andb_false_r|].
  change (Z.testbit (Z.lnot (2 ^ 8)) 8) with false. by rewrite andb_false_r.
Qed.

(** A trap from user space comes to the handler. *)
Lemma trap_to_handler s cause tval : user_ready s -> exists s1, in_kernel s s1 cause tval /\
  trap_from cause tval s = kbind (if Z.testbit cause 63 then user_interrupt_handler fuel cause else user_exception_handler stat_buf cause)
    (fun f => match f with Returns => resume ;;; kret Returns | _ => kret f end) (in_handler s1).
Proof.
  intros Hrdy. destruct (user_vec_run s cause tval Hrdy) as (s1 & Hrun & Hik). exists s1. split; [exact Hik|].
  unfold from_user. unfold kbind at 1, kmodify. rewrite (kbind_ret _ _ _ _ _ Hrun). unfold kbind at 1, kget. rewrite (ik_pc _ _ _ _ Hik), Z.eqb_refl. cbn [negb].
  unfold kbind at 1. pose proof (ik_csr _ _ _ _ Hik) as Hc. unfold upd_th, take_trap in Hc. cbn [th csr sstatus] in Hc. rewrite (ur_mode _ Hrdy) in Hc.
  destruct (trap_bits (sstatus (csr (th s))) (Z.testbit (sstatus (csr (th s))) 1)) as [Hb1 Hb8].
  rewrite user_trap_run by (rewrite Hc; done). rewrite Hc. cbn [scause].
  generalize (if Z.testbit cause 63 then user_interrupt_handler fuel cause else user_exception_handler stat_buf cause). intros h.
  unfold kbind. destruct (h (in_handler s1)) as [f s2|s2| |]; [|reflexivity..]. destruct f; [|reflexivity..]. unfold resume_user, kbind, kret.
  destruct (user_trap_ret user_trap_at trampoline user_vec_at user_ret_at temp_kstack junk s2) as [[] s3|s3| |]; reflexivity.
Qed.

(** The next interrupt was claimed and completed. *)
Definition serviced (p p' : plic) : Prop :=
  p' = Plic (plic_regs p) (tail (claims p)) (completed p ++ match claims p with irq :: _ => if s32 irq =? 0 then [] else [s32 irq] | [] => [] end).

(** The interrupt that is claimed next is the one of the disk. *)
Definition disk_claims (p : plic) : bool := match claims p with irq :: _ => s32 irq =? VIRTIO0_IRQ | [] => false end.

(** If the disk interrupts, its driver was opened and is in service. *)
Definition disk_ready (s : trapst) : Prop := disk_claims (irqs s) = true -> exists y, disk s = Some (vs y) /\ in_service y.

(** Then all requests that the device has finished are reported to their tasks, and
    the driver stays in service; another interrupt leaves it alone. *)
Definition disk_reported (s s' : trapst) : Prop :=
  if disk_claims (irqs s) then
    exists y d', disk s = Some (vs y) /\ disk s' = Some d' /\ virtio_disk_intr fuel (vs y) = Ret tt d' /\
      in_service (settle (Sys d' (tasks y))) /\ seen (drv d') = used_idx (rng d')
  else disk s' = disk s.

Lemma disk_reported_ext s s' t t' : irqs t = irqs s -> disk t = disk s -> disk t' = disk s' -> disk_reported s s' -> disk_reported t t'.
Proof. unfold disk_reported. by intros -> -> ->. Qed.

Lemma interrupt_run s : (9 <= fuel)%nat -> disk_ready s ->
  exists s', interrupt_handler fuel s = Ret tt s' /\ th s' = th s /\ tm s' = tm s /\ proc s' = proc s /\ serviced (irqs s) (irqs s') /\ disk_reported s s'.
Proof.
  intros Hfuel Hd. destruct s as [h m [rg cl co] dk u]. unfold disk_ready, disk_claims in Hd. cbn [irqs claims disk] in Hd. unfold interrupt_handler, serviced, disk_reported, disk_claims. cbn [irqs claims plic_regs completed disk].
  unfold kbind at 1, on_plic at 1, on_part at 1. cbn [irqs]. unfold plic_claim. cbn [claims plic_regs completed].
  destruct cl as [|irq rest]; [eexists; rewrite app_nil_r; split_and!; reflexivity|]. cbn [th tm disk proc tail].
  destruct (s32 irq =? VIRTIO0_IRQ) eqn:E.
  - apply Z.eqb_eq in E. destruct (Hd eq_refl) as (y & -> & Hy). destruct (in_service_intr y fuel Hy Hfuel) as (d' & Hrun & Hy' & Hseen).
    rewrite (kbind_ret _ _ _ tt (TrapSt h m (Plic rg rest co) (Some d') u)).
    + rewrite E. eexists. split; [reflexivity|]. split_and!; [reflexivity..|]. exists y, d'. split_and!; [reflexivity|reflexivity|exact Hrun|exact Hy'|exact Hseen].
    + unfold on_disk. cbn [disk]. unfold on_part. by rewrite Hrun.
  - unfold kbind at 1, kret at 1. destruct (s32 irq =? 0); cbn [negb]; eexists; rewrite ?app_nil_r; split_and!; reflexivity.
Qed.

Definition EXTERNAL_INTERRUPT : Z := 2 ^ 63 + 9.
Definition TIMER_INTERRUPT : Z := 2 ^ 63 + 5.

Lemma in_kernel_frame s s1 cause tval : user_ready s -> in_kernel s s1 cause tval -> frame_at (ram (tm s1)) (root s) (frame s).
Proof. intros Hr Hik. eapply frame_at_agree; [apply Hr|]. apply (ik_frame _ _ _ _ Hik). Qed.

(** What the program sees of a trap: its registers, program counter, and memory
    outside of the frame. *)
Record same_program (s s' : trapst) : Prop := {
  sp_ready : user_ready s';
  sp_regs : forall r, gpr (th s') r = gpr (th s) r;
  sp_pc : pc (th s') = pc (th s);
  sp_memory : forall b, ~ frame s <= b < frame s + 4096 -> rd8 (ram (tm s')) b = rd8 (ram (tm s)) b;
  sp_proc : proc s' = proc s
}.

Lemma external_run s tval : (9 <= fuel)%nat -> user_ready s -> disk_ready s ->
  exists s', trap_from EXTERNAL_INTERRUPT tval s = Ret Returns s' /\ same_program s s' /\ serviced (irqs s) (irqs s') /\ disk_reported s s'.
Proof.
  intros Hfuel Hr Hd. destruct (trap_to_handler s EXTERNAL_INTERRUPT tval Hr) as (s1 & Hik & ->). change (Z.testbit EXTERNAL_INTERRUPT 63) with true. cbn match.
  destruct (interrupt_run (in_handler s1) Hfuel) as (s2 & Hrun & Hth & Htm & Hpr & Hsv & Hrep).
  { unfold disk_ready. cbn [in_handler upd_th irqs disk]. rewrite (ik_irqs _ _ _ _ Hik), (ik_disk _ _ _ _ Hik). exact Hd. }
  cbn [in_handler upd_th irqs tm proc] in *. destruct Hik as [Hfh _ Hirq Hdk Hproc _ _ _]. rewrite Hproc in Hpr. rewrite Hirq in Hsv.
  destruct (resume_run s2) as (s3 & Hrun3 & [R1 R2 R3 R4 _ R6 R7 R8 _]).
  { rewrite Htm, Hpr. eapply frame_at_agree; [apply Hr|apply Hfh]. }
  rewrite Hpr, Htm in *. exists s3. split; [|split; [|split]].
  - rewrite (kbind_ret _ _ _ Returns s2); [by rewrite (kbind_ret _ _ _ _ _ Hrun3)|]. unfold user_interrupt_handler.
    change (Z.land EXTERNAL_INTERRUPT 255) with 9. cbn [Z.eqb SupervisorTimer SupervisorExternal Pos.eqb]. by rewrite (kbind_ret _ _ _ _ _ Hrun).
  - split; [exact R1| | | |by rewrite R8].
    + intros r. rewrite R2. apply (fh_regs _ _ _ _ _ Hfh).
    + rewrite R3. apply (fh_epc _ _ _ _ _ Hfh).
    + intros b Hb. rewrite R4 by lia. by apply (fh_other _ _ _ _ _ Hfh).
  - by rewrite R6.
  - eapply disk_reported_ext; [| |exact R7|exact Hrep]; [by rewrite <- Hirq|by rewrite <- Hdk].
Qed.

(** ** The timer *)

Lemma switch_run s saved : irq_on (csr (th s)) = false \/ Z.testbit (sie (csr (th s))) 5 = false -> switch_back saved s = Ret (SwitchBack saved) s.
Proof.
  intros Hst. destruct s as [[g p md c] m ir dk u]. cbn [th csr] in Hst. unfold switch_back.
  rewrite (kbind_ret _ _ _ (HAS_BIT (sstatus c) SSTATUS_SIE) (TrapSt (Hart g p md c) m ir dk u)) by reflexivity.
  rewrite (kbind_ret _ _ _ (sie c) (TrapSt (Hart g p md c) m ir dk u)) by reflexivity.
  change SIE_STIE with (Z.shiftl 1 5). rewrite (has_bit _ 5), has_sie by lia. fold (irq_on c). destruct (irq_on c); [destruct Hst as [?| ->]; done|done].
Qed.

Lemma handler_stie s : Z.testbit (sie (csr (th (in_handler s)))) 5 = false.
Proof. cbn [in_handler upd_th th set_csr csr handler_csr sie]. rewrite Z.land_spec. apply andb_false_r. Qed.

(** The frame of a process has not been touched but for the part that the kernel
    fills in. *)
Definition frame_kept (tf : Z) (m m' : memory) : Prop := mem_agree (tf + 24) (tf + 32) m m' /\ mem_agree (tf + 40) (tf + 288) m m'.

Lemma timer_run s tval : user_ready s ->
  exists s1, trap_from TIMER_INTERRUPT tval s = Ret (SwitchBack false) s1 /\ proc s1 = proc s /\
    frame_holds (ram (tm s)) (ram (tm s1)) (frame s) (gpr (th s)) (pc (th s)).
Proof.
  intros Hr. destruct (trap_to_handler s TIMER_INTERRUPT tval Hr) as (s1 & Hik & ->). change (Z.testbit TIMER_INTERRUPT 63) with true. cbn match.
  exists (in_handler s1). split; [|split; [apply Hik|apply Hik]]. unfold user_interrupt_handler. change (Z.land TIMER_INTERRUPT 255) with 5. cbn [Z.eqb SupervisorTimer Pos.eqb].
  by rewrite (kbind_ret _ _ _ _ _ (switch_run _ _ (or_intror (handler_stie s1)))).
Qed.

Lemma frame_kept_load tf m m' o : frame_kept tf m m' -> o = 24 \/ 40 <= o <= 280 -> load64 m' (tf + o) = load64 m (tf + o).
Proof. intros [H1 H2] Ho. apply load_agree. intros b Hb. destruct Ho as [->|Ho]; [apply H1; lia|apply H2; lia]. Qed.

Lemma preempted_run s tval : user_ready s ->
  exists s1, trap_from TIMER_INTERRUPT tval s = Ret (SwitchBack false) s1 /\
    forall s2, proc s2 = proc s1 -> frame_at (ram (tm s2)) (root s) (frame s) -> frame_kept (frame s) (ram (tm s1)) (ram (tm s2)) ->
      exists s3, resume s2 = Ret tt s3 /\ user_ready s3 /\ (forall r, gpr (th s3) r = gpr (th s) r) /\ pc (th s3) = pc (th s).
Proof.
  intros Hr. destruct (timer_run s tval Hr) as (s1 & Hrun & Hp & Hfh). exists s1. split; [exact Hrun|]. intros s2 Hp2 Hfr Hk. rewrite Hp in Hp2.
  destruct (resume_run s2) as (s3 & Hrun3 & [R1 R2 R3 _ _ _ _ _ _]); [by rewrite Hp2|]. rewrite Hp2 in *. exists s3. split; [exact Hrun3|]. split; [exact R1|]. split.
  - intros r. rewrite R2, (frame_kept_load _ _ _ _ Hk) by (right; apply frame_off_range). apply (fh_regs _ _ _ _ _ Hfh).
  - unfold TF_epc in R3. rewrite R3, (frame_kept_load _ _ _ _ Hk) by by left. apply (fh_epc _ _ _ _ _ Hfh).
Qed.

(** ** System calls *)

Lemma fstat_run fd va s : sys_fstat stat_buf fd va s = Ret (-1) s.
Proof. unfold sys_fstat, kbind, kget. case_match; [reflexivity|]. by case_match. Qed.

Lemma not_killed_run g p md c m ir dk u : killed u = false ->
  check_killed (TrapSt (Hart g p md c) m ir dk u) = Ret None (TrapSt (Hart g p md c) m ir dk (set_plocked false u)).
Proof.
  intros Hk. unfold check_killed. rewrite (kbind_ret _ _ _ (irq_on c) (TrapSt (Hart g p md (set_sstatus (Z.land (sstatus c) (Z.lnot SSTATUS_SIE)) c)) m ir dk u)).
  2: { unfold on_csr, on_part. cbn [th csr]. by rewrite Cpu.save_run. }
  unfold kbind at 1, kmodify, kbind at 1, kget. cbn [upd_up proc set_plocked killed]. rewrite Hk. unfold kbind at 1. unfold kbind, on_csr, on_part. cbn [upd_up th tm irqs disk proc csr].
  rewrite restore_run. unfold kret. f_equal.
  pose proof (restored c) as Hres. cbv zeta in Hres.
  unfold upd_th, upd_up, set_csr. cbn [th tm irqs disk proc gpr pc mode csr]. destruct (irq_on c); cbn [Z.b2z Z.eqb negb] in Hres; by rewrite Hres.
Qed.

Definition set_ram_at (m : memory) (s : trapst) : trapst := upd_tm (set_ram (fun _ => m)) s.

(** The handler of an environment call, up to the number. *)
Lemma ecall_run s a : killed (proc s) = false -> load64 (ram (tm s)) (frame s + 24) = a ->
  user_exception_handler stat_buf UserEnvCall s = syscall stat_buf (set_ram_at (store64 (ram (tm s)) (frame s + 24) (u64 (a + 4))) (upd_up (set_plocked false) s)).
Proof.
  destruct s as [[g p md c] [m pg] ir dk u]. cbn [proc tm ram]. intros Hk Ha. unfold user_exception_handler. change (Z.land UserEnvCall 255) with 8. cbn [Z.eqb UserEnvCall Pos.eqb].
  rewrite (kbind_ret _ _ _ _ _ (not_killed_run g p md c (Machine m pg) ir dk u Hk)). unfold kbind at 1, rd_tf, kbind at 1, kget, kret at 1.
  cbn [tm ram proc set_plocked up_trapframe]. unfold TF_epc. rewrite Ha. reflexivity.
Qed.

(** Any number but that of exit: the result is -1. *)
Lemma syscall_run s : load64 (ram (tm s)) (frame s + 168) <> SYS_exit ->
  syscall stat_buf s = Ret Returns (set_ram_at (store64 (ram (tm s)) (frame s + 112) (u64 (-1))) s).
Proof.
  destruct s as [h [m pg] ir dk u]. cbn [proc tm ram]. intros Hid. unfold syscall.
  do 3 (unfold kbind at 1, rd_tf at 1, kbind at 1, kget, kret at 1). cbn [tm ram proc]. unfold TF_a7.
  destruct (load64 m (up_trapframe u + 168) =? SYS_fstat); [by rewrite (kbind_ret _ _ _ _ _ (fstat_run _ _ _))|].
  destruct (Z.eqb_spec (load64 m (up_trapframe u + 168)) SYS_exit) as [He|_]; [by destruct Hid|reflexivity].
Qed.

Lemma call_returns_run s tval : user_ready s -> killed (proc s) = false -> gpr (th s) A7 <> SYS_exit ->
  exists s', trap_from UserEnvCall tval s = Ret Returns s' /\ user_ready s' /\ pc (th s') = u64 (pc (th s) + 4) /\
    (forall r, gpr (th s') r = if decide (r = A0) then 2 ^ 64 - 1 else gpr (th s) r) /\
    (forall b, ~ frame s <= b < frame s + 4096 -> rd8 (ram (tm s')) b = rd8 (ram (tm s)) b) /\ proc s' = set_plocked false (proc s).
Proof.
  intros Hr Hk Hid. destruct (trap_to_handler s UserEnvCall tval Hr) as (s1 & Hik & ->). change (Z.testbit UserEnvCall 63) with false. cbn match.
  destruct Hik as [[F1 F2 _ F4] _ _ _ Hproc _ _ _]. set (s2 := in_handler s1). assert (proc s2 = proc s) as Hp2 by exact Hproc. assert (tm s2 = tm s1) as Ht2 by reflexivity.
  set (m1 := ram (tm s1)) in *. set (tf := frame s) in *. set (m2 := store64 m1 (tf + 24) (u64 (pc (th s) + 4))). set (m3 := store64 m2 (tf + 112) (u64 (-1))).
  set (s3 := set_ram_at m3 (upd_up (set_plocked false) s2)).
  assert (user_exception_handler stat_buf UserEnvCall s2 = Ret Returns s3) as Hrun.
  { rewrite (ecall_run s2 (pc (th s))) by (rewrite Hp2; done). rewrite Hp2, Ht2. fold tf m1 m2. rewrite syscall_run.
    - cbn [set_ram_at upd_up upd_tm tm set_ram ram proc set_plocked up_trapframe]. rewrite Hp2. reflexivity.
    - cbn [set_ram_at upd_up upd_tm tm set_ram ram proc set_plocked up_trapframe]. rewrite Hp2. fold tf. unfold m2. rewrite load64_store64_ne by lia.
      pose proof (F1 A7) as HA7. cbn [frame_off] in HA7. rewrite HA7. exact Hid. }
  rewrite (kbind_ret _ _ _ _ _ Hrun). assert (proc s3 = set_plocked false (proc s)) as Hp3 by (unfold s3; cbn [set_ram_at upd_up upd_tm proc]; by rewrite Hp2).
  assert (forall b, ~ tf <= b < tf + 4096 -> rd8 m3 b = rd8 (ram (tm s)) b) as Hm3.
  { intros b Hb. unfold m3, m2. rewrite !store_other by lia. by apply F4. }
  destruct (resume_run s3) as (s' & Hrun' & [R1 R2 R3 R4 _ _ _ R8 _]).
  { rewrite Hp3. eapply frame_at_agree; [apply Hr|exact Hm3]. }
  rewrite Hp3 in R2, R3, R4. cbn [set_plocked up_trapframe] in R2, R3, R4. change (ram (tm s3)) with m3 in *. fold tf in R2, R3, R4.
  rewrite (kbind_ret _ _ _ _ _ Hrun'). exists s'. split; [reflexivity|]. split; [exact R1|]. split; [|split; [|split; [|by rewrite R8]]].
  - rewrite R3. unfold m3, m2, TF_epc. rewrite load64_store64_ne by lia. apply load64_store64_eq, u64_range.
  - intros r. rewrite R2. unfold m3, m2. case_decide as Hr0; [subst r; by apply load64_store64_eq|].
    pose proof (frame_off_range r). pose proof (frame_off_apart r A0 Hr0) as Hap. cbn [frame_off] in Hap. rewrite !load64_store64_ne by lia. apply F1.
  - intros b Hb. rewrite R4 by lia. by apply Hm3.
Qed.

(** ** The end of a process *)

Lemma exit_run code s : Z.testbit (sie (csr (th s))) 5 = false -> do_exit code s = Ret Gone (upd_up (add_pcall (CExit code)) s).
Proof. intros Hst. unfold do_exit. unfold kbind at 1, kmodify. unfold kbind. by rewrite switch_run by by right. Qed.

(** The codes of the faults. *)
Definition fault_codes : list (Z * Z) := [(7, -8); (15, -7); (1, -6); (12, -5); (5, -4); (13, -3); (2, -2)].
Definition fault_code (cause : Z) : Z := match List.find (fun x => fst x =? cause) fault_codes with Some (_, code) => code | None => -1 end.

Lemma fault_handler cause s : 0 <= cause < 256 -> cause <> UserEnvCall -> Z.testbit (sie (csr (th s))) 5 = false ->
  user_exception_handler stat_buf cause s = Ret Gone (upd_up (add_pcall (CExit (fault_code cause))) s).
Proof.
  intros Hc Hne Hst. unfold user_exception_handler. change 255 with (Z.ones 8). rewrite Z.land_ones, Z.mod_small by lia. rewrite (proj2 (Z.eqb_neq _ _) Hne).
  unfold fault_code, fault_codes, StoreAccessFault, StorePageFault, InstructionAccessFault, InstructionPageFault, LoadAccessFault, LoadPageFault, IllegalInstruction.
  cbn [List.find fst]. rewrite !(Z.eqb_sym cause). repeat (case_match; [by apply exit_run|]). by apply exit_run.
Qed.

Lemma small_exception cause : 0 <= cause < 256 -> Z.testbit cause 63 = false.
Proof. intros Hc. rewrite <- (Z.mod_small cause (2 ^ 8)) by lia. by apply Z.mod_pow2_bits_high. Qed.

Lemma fault_run s cause tval : user_ready s -> 0 <= cause < 256 -> cause <> UserEnvCall ->
  exists s', trap_from cause tval s = Ret Gone s' /\ proc s' = add_pcall (CExit (fault_code cause)) (proc s) /\
    (forall b, ~ frame s <= b < frame s + 4096 -> rd8 (ram (tm s')) b = rd8 (ram (tm s)) b) /\ irqs s' = irqs s /\ disk s' = disk s.
Proof.
  intros Hr Hc Hne. destruct (trap_to_handler s cause tval Hr) as (s1 & Hik & ->). rewrite small_exception by done. cbn match.
  rewrite (kbind_ret _ _ _ _ _ (fault_handler cause _ Hc Hne (handler_stie s1))). eexists. split; [reflexivity|]. destruct Hik as [Hfh _ Hirq Hdk Hproc _ _ _].
  cbn [upd_up proc in_handler upd_th irqs disk tm]. rewrite Hproc. split; [done|]. split; [apply Hfh|done].
Qed.

Lemma exit_call_run s tval : user_ready s -> killed (proc s) = false -> gpr (th s) A7 = SYS_exit ->
  exists s', trap_from UserEnvCall tval s = Ret Gone s' /\ proc s' = add_pcall (CExit (s32 (gpr (th s) A0))) (set_plocked false (proc s)).
Proof.
  intros Hr Hk Hid. destruct (trap_to_handler s UserEnvCall tval Hr) as (s1 & Hik & ->). change (Z.testbit UserEnvCall 63) with false. cbn match.
  destruct Hik as [[F1 F2 _ _] _ _ _ Hproc _ _ _]. pose proof (F1 A7) as HA7. pose proof (F1 A0) as HA0. cbn [frame_off] in HA7, HA0.
  assert (proc (in_handler s1) = proc s) as Hp2 by exact Hproc.
  set (s3 := set_ram_at (store64 (ram (tm s1)) (frame s + 24) (u64 (pc (th s) + 4))) (upd_up (set_plocked false) (in_handler s1))).
  assert (user_exception_handler stat_buf UserEnvCall (in_handler s1) = syscall stat_buf s3) as Hrun.
  { rewrite (ecall_run (in_handler s1) (pc (th s))) by (rewrite Hp2; done). by rewrite Hp2. }
  assert (proc s3 = set_plocked false (proc s)) as Hp3 by (unfold s3; cbn [set_ram_at upd_up upd_tm proc]; by rewrite Hp2).
  unfold kbind at 1. rewrite Hrun. unfold syscall. do 3 (unfold kbind at 1, rd_tf at 1, kbind at 1, kget, kret at 1). rewrite Hp3. cbn [set_plocked up_trapframe].
  change (ram (tm s3)) with (store64 (ram (tm s1)) (frame s + 24) (u64 (pc (th s) + 4))). unfold TF_a7, TF_a0. rewrite !load64_store64_ne by lia. rewrite HA7, HA0, Hid.
  cbn [Z.eqb SYS_exit SYS_fstat Pos.eqb]. unfold sys_exit. rewrite exit_run by exact (handler_stie s1). eexists. split; [reflexivity|]. cbn [upd_up proc]. by rewrite Hp3.
Qed.

(** A process that was killed and makes a system call: [check_killed] switches to
    the scheduler with the lock of the process held.  What runs next on this core
    for the process is the end of [user_process::run], which takes the same lock:
    the core panics. *)
Lemma killed_call_keeps_lock s tval : user_ready s -> killed (proc s) = true ->
  exists s', trap_from UserEnvCall tval s = Ret Gone s' /\ plocked (proc s') = true /\ pcalls (proc s') = pcalls (proc s) ++ [CDoKill].
Proof.
  intros Hr Hk. destruct (trap_to_handler s UserEnvCall tval Hr) as (s1 & Hik & ->). change (Z.testbit UserEnvCall 63) with false. cbn match.
  pose proof (ik_proc _ _ _ _ Hik) as Hproc. pose proof (handler_stie s1) as Hst. destruct (in_handler s1) as [[g p md c] m ir dk u] eqn:E.
  assert (u = proc s) as -> by (rewrite <- Hproc; by change (proc s1) with (proc (in_handler s1)); rewrite E).
  unfold user_exception_handler. change (Z.land UserEnvCall 255) with 8. cbn [Z.eqb UserEnvCall Pos.eqb].
  set (c1 := set_sstatus (Z.land (sstatus c) (Z.lnot SSTATUS_SIE)) c). set (u1 := add_pcall CDoKill (set_plocked true (proc s))).
  assert (check_killed (TrapSt (Hart g p md c) m ir dk (proc s)) = Ret (Some Gone) (TrapSt (Hart g p md c1) m ir dk u1)) as Hrun.
  { unfold check_killed. rewrite (kbind_ret _ _ _ (irq_on c) (TrapSt (Hart g p md c1) m ir dk (proc s))) by (unfold on_csr, on_part; cbn [th csr]; by rewrite Cpu.save_run).
    unfold kbind at 1, kmodify, kbind at 1, kget. cbn [upd_up proc set_plocked killed]. rewrite Hk. unfold kbind at 1.
    rewrite (kbind_ret _ _ _ false (TrapSt (Hart g p md c1) m ir dk u1)).
    2: { unfold on_csr, on_part, local_irq_on, r_sstatus, kbind, kget, kret. cbn [upd_up th csr]. unfold c1 at 1. cbn [sstatus set_sstatus]. by rewrite has_sie, cleared_off. }
    unfold kbind at 1, kernel_assert. cbn [negb]. unfold kret at 1. unfold kbind. by rewrite switch_run by by right. }
  unfold kbind at 1. rewrite (kbind_ret _ _ _ _ _ Hrun). eexists. split; [reflexivity|]. done.
Qed.

(** ** Traps of the kernel *)

Definition stack_off (r : reg) : Z :=
  match r with
  | RA => 0 | SP => 8 | GP => 16 | TP => 24 | T0 => 32 | T1 => 40 | T2 => 48 | S0 => 56 | S1 => 64
  | A0 => 72 | A1 => 80 | A2 => 88 | A3 => 96 | A4 => 104 | A5 => 112 | A6 => 120 | A7 => 128
  | S2 => 136 | S3 => 144 | S4 => 152 | S5 => 160 | S6 => 168 | S7 => 176 | S8 => 184 | S9 => 192 | S10 => 200 | S11 => 208
  | T3 => 216 | T4 => 224 | T5 => 232 | T6 => 240
  end.
Definition kernel_regs : list reg :=
  [RA; SP; GP; T0; T1; T2; S0; S1; A0; A1; A2; A3; A4; A5; A6; A7; S2; S3; S4; S5; S6; S7; S8; S9; S10; S11; T3; T4; T5; T6].
Definition kernel_tbl : list (reg * Z) := (fun r => (r, stack_off r)) <$> kernel_regs.

Lemma kernel_vec_split : kernel_vec = ADDI SP SP (-256) :: (store_of SP <$> kernel_tbl) ++ [MV A0 SP; MV A1 S0].
Proof. reflexivity. Qed.
Lemma kernel_ret_split : kernel_ret = (load_of SP <$> kernel_tbl) ++ [ADDI SP SP 256; SRET].
Proof. reflexivity. Qed.

Lemma kernel_tbl_in r : r <> TP -> (r, stack_off r) ∈ kernel_tbl.
Proof. intros Hr. apply (bool_decide_unpack _). by destruct r. Qed.
Lemma kernel_tbl_slots : slots_ok 256 (snd <$> kernel_tbl).
Proof. apply (bool_decide_unpack _). by vm_compute. Qed.
Lemma kernel_tbl_regs : NoDup (fst <$> kernel_tbl) /\ TP ∉ (fst <$> kernel_tbl).
Proof. split; apply (bool_decide_unpack _); by vm_compute. Qed.

Local Notation kenter := (kernel_enter kernel_vec_at fuel).
Local Notation kleave := (kernel_leave kernel_vec_at).

(** Kernel code runs with [lo] = sp - 256 and the memory from there to sp mapped
    one to one. *)
Record kernel_ready (s : trapst) (lo : Z) : Prop := {
  kr_mode : mode (th s) = Supervisor;
  kr_vec : stvec (csr (th s)) = Z.land kernel_vec_at (Z.lnot 3);
  kr_sp : gpr (th s) SP = lo + 256 /\ 0 <= lo /\ lo + 256 < 2 ^ 64;
  kr_regs : forall r, 0 <= gpr (th s) r < 2 ^ 64;
  kr_stack : region (ram (tm s)) (satp (csr (th s))) lo lo 256
}.

(** What the hardware makes of [sstatus]. *)
Definition trap_status (x : Z) : Z := set_bit (set_bit (set_bit x 5 (Z.testbit x 1)) 1 false) 8 true.

Lemma trap_status_bits x : Z.testbit (trap_status x) 1 = false /\ Z.testbit (trap_status x) 8 = true /\ Z.testbit (trap_status x) 5 = Z.testbit x 1.
Proof.
  change (trap_status x) with (Z.lor (Z.land (set_bit x 5 (Z.testbit x 1)) (Z.lnot (2 ^ 1))) (2 ^ 8)). split; [|split].
  - rewrite Z.lor_spec, Z.land_spec. change (Z.testbit (Z.lnot (2 ^ 1)) 1) with false. by rewrite andb_false_r.
  - rewrite Z.lor_spec. apply orb_true_r.
  - rewrite Z.lor_spec, Z.land_spec. change (Z.testbit (Z.lnot (2 ^ 1)) 5) with true. change (Z.testbit (2 ^ 8) 5) with false. rewrite orb_false_r, andb_true_r.
    unfold set_bit. destruct (Z.testbit x 1); [rewrite Z.lor_spec; apply orb_true_r|rewrite Z.land_spec; apply andb_false_r].
Qed.

(** The registers are on the stack. *)
Lemma kernel_vec_run s lo cause tval : kernel_ready s lo ->
  exists s1, run_at (Z.land kernel_vec_at (Z.lnot 3)) kernel_vec (upd_th (take_trap cause tval) s) = Ret tt s1 /\
    (forall r, r <> TP -> r <> SP -> load64 (ram (tm s1)) (lo + stack_off r) = gpr (th s) r) /\ load64 (ram (tm s1)) (lo + 8) = lo /\
    (forall b, ~ lo <= b < lo + 256 -> rd8 (ram (tm s1)) b = rd8 (ram (tm s)) b) /\
    csr (th s1) = csr (take_trap cause tval (th s)) /\ gpr (th s1) SP = lo /\ irqs s1 = irqs s /\ disk s1 = disk s /\ proc s1 = proc s.
Proof.
  intros [Hmode Hvec (Hsp & Hlo & Hhi) Hreg Hst]. unfold run_at. cbn [upd_th th take_trap pc]. rewrite Hvec, Z.eqb_refl, kernel_vec_split.
  destruct s as [[g a md c] [m pg] ir dk u]. unfold upd_th, take_trap. cbn [th tm irqs disk proc gpr pc mode csr ram] in *. subst md. set (c1 := Csrs _ _ _ _ _ _ _ _ _ _).
  rewrite (exec_cons _ _ _ _ (exec_addi _ _ _)). rewrite Hsp. replace (u64 (lo + 256 + -256)) with lo by (rewrite u64_small by lia; lia).
  set (g1 := upd_reg SP lo g). assert (forall r, 0 <= g1 r < 2 ^ 64) as Hg1 by (intros r; unfold g1, upd_reg; case_decide; [lia|apply Hreg]).
  erewrite exec_list_app; [|apply (exec_stores (va := lo) (pa := lo) (len := 256)); [exact Hst|reflexivity|apply kernel_tbl_slots]].
  rewrite (exec_cons _ _ _ _ (exec_mv _ _)), (exec_cons _ _ _ _ (exec_mv _ _)). eexists. split; [reflexivity|]. cbn [th tm ram csr gpr irqs disk proc].
  assert (forall r, r <> TP -> load64 (saved lo g1 kernel_tbl m) (lo + stack_off r) = g1 r) as Hl
    by (intros r Hr; apply (saved_load 256 lo g1 kernel_tbl kernel_tbl_slots Hg1), kernel_tbl_in, Hr).
  split_and!; try reflexivity.
  - intros r Hr Hr'. rewrite Hl by done. unfold g1, upd_reg. by rewrite decide_False.
  - by apply (Hl SP).
  - intros b Hb. apply (saved_outside 256); [apply kernel_tbl_slots|exact Hb].
Qed.

Lemma kernel_begin_run s : Z.testbit (sstatus (csr (th s))) 1 = false -> Z.testbit (sstatus (csr (th s))) 8 = true -> Z.testbit (scause (csr (th s))) 63 = true ->
  kernel_trap_begin fuel s = kbind (kernel_interrupt_handler fuel (scause (csr (th s)))) (fun f => kret (f, sepc (csr (th s)), sstatus (csr (th s)))) s.
Proof.
  intros Hon Hspp Hc. destruct s as [[g p md c] m ir dk u]. cbn [th csr] in *. unfold kernel_trap_begin.
  do 3 (rewrite kbind_assoc || (unfold kbind at 1, on_csr at 1, on_part at 1, r_sepc, r_sstatus, r_scause, kbind at 1, kget, kret at 1; cbn [upd_th th set_csr csr gpr pc mode tm irqs disk proc])).
  unfold kbind at 1, on_csr at 1, on_part at 1, local_irq_on, r_sstatus, kbind at 1 2, kget, kret at 1 2. cbn [upd_th th set_csr csr gpr pc mode tm irqs disk proc].
  rewrite has_sie, Hon. unfold kernel_assert at 1. cbn [negb]. unfold kbind at 1, kret at 1.
  change SSTATUS_SPP with (Z.shiftl 1 8). rewrite (has_bit _ 8), Hspp by lia. unfold kernel_assert at 1. unfold kbind at 1, kret at 1.
  rewrite (has_bit _ 63), Hc by lia. reflexivity.
Qed.

Lemma kernel_leave_run s2 sepc0 x lo : gpr (th s2) SP = lo -> 0 <= lo -> lo + 256 < 2 ^ 64 -> Z.testbit x 8 = true ->
  region (ram (tm s2)) (satp (csr (th s2))) lo lo 256 -> load64 (ram (tm s2)) (lo + 8) = lo ->
  exists s3, kleave sepc0 x s2 = Ret tt s3 /\ pc (th s3) = sepc0 /\ mode (th s3) = Supervisor /\ irq_on (csr (th s3)) = Z.testbit x 5 /\
    stvec (csr (th s3)) = Z.land kernel_vec_at (Z.lnot 3) /\ gpr (th s3) SP = lo + 256 /\ gpr (th s3) TP = gpr (th s2) TP /\
    (forall r, r <> TP -> r <> SP -> gpr (th s3) r = load64 (ram (tm s2)) (lo + stack_off r)) /\ tm s3 = tm s2 /\ proc s3 = proc s2.
Proof.
  intros Hsp Hlo Hhi Hx Hst Hself. destruct s2 as [[g p md c] [m pg] ir dk u]. cbn [th tm gpr csr ram] in *. unfold kernel_leave. set (c1 := Csrs x (sie c) (Z.land kernel_vec_at (Z.lnot 3))
    sepc0 (scause c) (stval c) (satp c) (sscratch c) (time c) (timecmp c)).
  rewrite (kbind_ret _ _ _ tt (TrapSt (Hart g p md c1) (Machine m pg) ir dk u)) by reflexivity. rewrite kernel_ret_split. destruct kernel_tbl_regs as [Hnd Htp].
  assert (forall r, r <> TP -> loaded lo m kernel_tbl g r = load64 m (lo + stack_off r)) as Hl
    by (intros r Hr; apply (loaded_in lo m kernel_tbl Hnd), kernel_tbl_in, Hr).
  erewrite exec_list_app; [|apply (exec_loads (va := lo) (pa := lo) (len := 256)); [exact Hst|exact Hsp|apply kernel_tbl_slots|]].
  2: { intros o Ho. assert (o = 8) as ->; [|exact Hself]. unfold kernel_tbl in Ho. apply list_elem_of_fmap in Ho as (r & [= <- ->] & _). reflexivity. }
  rewrite (exec_cons _ _ _ _ (exec_addi _ _ _)), (exec_cons _ _ _ _ (exec_sret _ _ _ _ _ _ _ _ _)). rewrite (Hl SP) by done. change (stack_off SP) with 8. rewrite Hself.
  eexists. split; [reflexivity|]. unfold do_sret. cbn [th csr gpr pc mode c1 sstatus sepc set_sstatus stvec tm proc]. rewrite Hx. split_and!; try reflexivity.
  - unfold irq_on. cbn [sstatus set_sstatus]. unfold set_bit at 1. rewrite Z.land_spec. change (Z.testbit (Z.lnot (2 ^ 8)) 1) with true. rewrite andb_true_r.
    unfold set_bit at 1. rewrite Z.lor_spec. change (Z.testbit (2 ^ 5) 1) with false. rewrite orb_false_r. unfold set_bit.
    destruct (Z.testbit x 5); [rewrite Z.lor_spec; apply orb_true_r|rewrite Z.land_spec; apply andb_false_r].
  - unfold upd_reg. rewrite decide_True by done. rewrite u64_small; lia.
  - intros r Hr Hr'. unfold upd_reg. rewrite decide_False by done. by apply Hl.
Qed.

(** What an interrupt leaves of the kernel code that it hit, when the code runs
    again in the state [s3]; [s2] is the state at the end of the handler. *)
Record same_kernel (s s2 s3 : trapst) : Prop := {
  sk_pc : pc (th s3) = pc (th s);
  sk_mode : mode (th s3) = Supervisor;
  sk_irq : irq_on (csr (th s3)) = irq_on (csr (th s));
  sk_vec : stvec (csr (th s3)) = stvec (csr (th s));
  sk_regs : forall r, r <> TP -> gpr (th s3) r = gpr (th s) r;
  sk_tp : gpr (th s3) TP = gpr (th s2) TP;
  sk_memory : tm s3 = tm s2
}.

Lemma kernel_interrupt_run s lo cause tval : kernel_ready s lo -> cause = TIMER_INTERRUPT \/ (cause = EXTERNAL_INTERRUPT /\ (9 <= fuel)%nat /\ disk_ready s) ->
  exists f x s1, kenter cause tval s = Ret (f, pc (th s), x) s1 /\ f = (if decide (cause = TIMER_INTERRUPT) then SwitchBack true else Returns) /\
    gpr (th s1) SP = lo /\ satp (csr (th s1)) = satp (csr (th s)) /\ (cause = EXTERNAL_INTERRUPT -> serviced (irqs s) (irqs s1) /\ disk_reported s s1) /\
    (forall b, ~ lo <= b < lo + 256 -> rd8 (ram (tm s1)) b = rd8 (ram (tm s)) b) /\
    forall s2, gpr (th s2) SP = lo -> region (ram (tm s2)) (satp (csr (th s2))) lo lo 256 -> mem_agree lo (lo + 256) (ram (tm s1)) (ram (tm s2)) ->
      exists s3, kleave (pc (th s)) x s2 = Ret tt s3 /\ same_kernel s s2 s3.
Proof.
  intros Hr Hcause. destruct (kernel_vec_run s lo cause tval Hr) as (s1 & Hrun & Hl & Hl8 & Hout & Hcsr & Hsp & Hirq & Hdk & Hpr).
  destruct Hr as [Hmode Hvec (Hsp0 & Hlo & Hhi) Hreg _].
  set (x := trap_status (sstatus (csr (th s)))). destruct (trap_status_bits (sstatus (csr (th s)))) as (B1 & B8 & B5). fold x in B1, B8, B5.
  assert (sstatus (csr (th s1)) = x /\ sepc (csr (th s1)) = pc (th s) /\ scause (csr (th s1)) = cause) as (E1 & E2 & E3)
    by (rewrite Hcsr; unfold take_trap; rewrite Hmode; done).
  assert (Z.testbit cause 63 = true) as E63 by (destruct Hcause as [->|[-> _]]; reflexivity).
  assert (exists f s1', kernel_interrupt_handler fuel cause s1 = Ret f s1' /\ tm s1' = tm s1 /\ f = (if decide (cause = TIMER_INTERRUPT) then SwitchBack true else Returns) /\
      th s1' = th s1 /\ (cause = EXTERNAL_INTERRUPT -> serviced (irqs s) (irqs s1') /\ disk_reported s s1'))
    as (f & s1' & Hh & Htm & Hf & Hth & Hserved).
  { unfold kernel_interrupt_handler. destruct Hcause as [->|(-> & Hfuel & Hd)].
    - exists (SwitchBack true), s1. split; [|split; [done|split; [done|split; [done|discriminate]]]]. change (Z.land TIMER_INTERRUPT 255) with 5. apply switch_run. left. unfold irq_on. by rewrite E1.
    - destruct (interrupt_run s1 Hfuel) as (s1' & Hi & Hth & Htm & _ & Hsv & Hrep); [unfold disk_ready; by rewrite Hirq, Hdk|].
      exists Returns, s1'. split; [|split; [exact Htm|split; [done|split; [exact Hth|intros _; split; [by rewrite <- Hirq|by eapply disk_reported_ext; [| | |exact Hrep]]]]]]. change (Z.land EXTERNAL_INTERRUPT 255) with 9. cbn [Z.eqb SupervisorTimer SupervisorExternal Pos.eqb]. by rewrite (kbind_ret _ _ _ _ _ Hi). }
  exists f, x, s1'. split; [|split; [exact Hf|split; [by rewrite Hth|split; [by rewrite Hth, Hcsr|split; [exact Hserved|split; [by rewrite Htm|]]]]]].
  { unfold kernel_enter. unfold kbind at 1, kmodify. rewrite (kbind_ret _ _ _ _ _ Hrun). rewrite kernel_begin_run by (rewrite ?E1, ?E3; done).
    rewrite E1, E2, E3. by rewrite (kbind_ret _ _ _ _ _ Hh). }
  intros s2 Hs2 Hreg2 Hag. rewrite Htm in Hag.
  assert (forall o, 0 <= o <= 248 -> load64 (ram (tm s2)) (lo + o) = load64 (ram (tm s1)) (lo + o)) as Hld
    by (intros o Ho; apply load_agree; intros b Hb; apply Hag; lia).
  destruct (kernel_leave_run s2 (pc (th s)) x lo Hs2 Hlo Hhi B8 Hreg2) as (s3 & Hrun3 & L1 & L2 & L3 & L4 & L5 & L6 & L7 & L8 & _); [by rewrite Hld by lia|].
  exists s3. split; [exact Hrun3|]. split; [exact L1|exact L2|by rewrite L3, B5|by rewrite L4, Hvec| |exact L6|exact L8].
  intros r Hr. destruct (decide (r = SP)) as [->|Hr']; [by rewrite L5|]. rewrite L7 by done. rewrite Hld by (destruct r; cbn; lia). by apply Hl.
Qed.

(** ** Claims *)

(** C3. A device interrupt leaves no trace in the user program that it hit.  The
    trampoline, user_trap and user_trap_ret run through, the interrupt is claimed
    and completed, and the program goes on at the same instruction with the same
    registers, in an address space whose memory is untouched outside of the trap
    frame; the next trap will find everything in place.  The disk is among the
    devices: if its driver is in service, in any state that its tasks, the device
    and earlier interrupts lead to, nine rounds are enough for its handler to
    report every finished request. *)
Theorem user_interrupt_transparent s tval : (9 <= fuel)%nat -> user_ready s -> disk_ready s ->
  exists s', trap_from EXTERNAL_INTERRUPT tval s = Ret Returns s' /\ same_program s s' /\ serviced (irqs s) (irqs s') /\ disk_reported s s'.
Proof. apply external_run. Qed.


(** C5. A program that the timer interrupts is switched out with its state in the
    trap frame.  Whatever runs then, as long as the frame and its mapping are
    kept, user_trap_ret on any hart brings back the program with its registers and
    program counter. *)
Theorem preempted_program_resumes s tval : user_ready s ->
  exists s1, trap_from TIMER_INTERRUPT tval s = Ret (SwitchBack false) s1 /\
    forall s2, proc s2 = proc s1 -> frame_at (ram (tm s2)) (root s) (frame s) -> frame_kept (frame s) (ram (tm s1)) (ram (tm s2)) ->
      exists s3, resume s2 = Ret tt s3 /\ user_ready s3 /\ (forall r, gpr (th s3) r = gpr (th s) r) /\ pc (th s3) = pc (th s).
Proof. apply preempted_run. Qed.

(** C37. Every exception of a user program but the system call ends the process: exit
    is called once with the code of the fault (-8 for a store access fault, -7 for
    a store page fault, and so on to -2; -1 for all others), memory outside of the
    frame, the disk driver and the interrupt controller are untouched. *)
Theorem user_faults_exit s cause tval : user_ready s -> 0 <= cause < 256 -> cause <> UserEnvCall ->
  exists s', trap_from cause tval s = Ret Gone s' /\ proc s' = add_pcall (CExit (fault_code cause)) (proc s) /\
    (forall b, ~ frame s <= b < frame s + 4096 -> rd8 (ram (tm s')) b = rd8 (ram (tm s)) b) /\ irqs s' = irqs s /\ disk s' = disk s.
Proof. apply fault_run. Qed.

(** C21. Kernel code does not notice an interrupt.  The handler runs on the stack of
    the code, below its stack pointer; a timer interrupt switches to the scheduler.
    When the handler is resumed, on any hart and with any control registers, the
    code goes on at the same instruction with the same registers (but for tp, which
    names the hart) and the same interrupt flag, provided that the handler's stack
    frame, 256 bytes below the stack pointer of the code in memory that is mapped
    one to one, was kept meanwhile.  A device interrupt is claimed and completed as
    in user mode, the one of the disk included. *)
Theorem kernel_interrupt_transparent s lo cause tval : kernel_ready s lo -> cause = TIMER_INTERRUPT \/ (cause = EXTERNAL_INTERRUPT /\ (9 <= fuel)%nat /\ disk_ready s) ->
  exists f x s1, kenter cause tval s = Ret (f, pc (th s), x) s1 /\ f = (if decide (cause = TIMER_INTERRUPT) then SwitchBack true else Returns) /\
    gpr (th s1) SP = lo /\ satp (csr (th s1)) = satp (csr (th s)) /\ (cause = EXTERNAL_INTERRUPT -> serviced (irqs s) (irqs s1) /\ disk_reported s s1) /\
    (forall b, ~ lo <= b < lo + 256 -> rd8 (ram (tm s1)) b = rd8 (ram (tm s)) b) /\
    forall s2, gpr (th s2) SP = lo -> region (ram (tm s2)) (satp (csr (th s2))) lo lo 256 -> mem_agree lo (lo + 256) (ram (tm s1)) (ram (tm s2)) ->
      exists s3, kleave (pc (th s)) x s2 = Ret tt s3 /\ same_kernel s s2 s3.
Proof. apply kernel_interrupt_run. Qed.
End user.

(** ** The context switch *)

Definition ctx_off (r : reg) : Z :=
  match r with
  | RA => 0 | SP => 8 | S0 => 16 | S1 => 24 | S2 => 32 | S3 => 40 | S4 => 48 | S5 => 56 | S6 => 64 | S7 => 72 | S8 => 80 | S9 => 88 | S10 => 96 | S11 => 104
  | _ => 112
  end.
Definition ctx_regs : list reg := [RA; SP; S0; S1; S2; S3; S4; S5; S6; S7; S8; S9; S10; S11].
Definition ctx_tbl : list (reg * Z) := (fun r => (r, ctx_off r)) <$> ctx_regs.

Lemma swtch_split : swtch_save = store_of A0 <$> ctx_tbl /\ swtch_load = (load_of A1 <$> ctx_tbl) ++ [LD A0 112 A1; MV A1 SP; JR RA].
Proof. split; reflexivity. Qed.

Lemma ctx_tbl_slots : slots_ok 120 (snd <$> ctx_tbl).
Proof. apply (bool_decide_unpack _). by vm_compute. Qed.
Lemma ctx_tbl_regs : NoDup (fst <$> ctx_tbl) /\ A1 ∉ (fst <$> ctx_tbl).
Proof. split; apply (bool_decide_unpack _); by vm_compute. Qed.
Lemma ctx_regs_args : A0 ∉ ctx_regs /\ A1 ∉ ctx_regs.
Proof. split; apply (bool_decide_unpack _); by vm_compute. Qed.
Lemma ctx_tbl_in r : r ∈ ctx_regs -> (r, ctx_off r) ∈ ctx_tbl.
Proof. intros Hr. apply list_elem_of_fmap. by exists r. Qed.
Lemma ctx_off_range r : 0 <= ctx_off r <= 112.
Proof. destruct r; cbn; lia. Qed.

(** A context at [a], in memory that is mapped one to one. *)
Definition context_at (s : trapst) (a : Z) : Prop := region (ram (tm s)) (satp (csr (th s))) a a 120.

Lemma swtch_load_run s new : gpr (th s) A1 = new -> context_at s new ->
  exists s', exec_list swtch_load s = Ret tt s' /\ tm s' = tm s /\ pc (th s') = load64 (ram (tm s)) new /\
    (forall r, r ∈ ctx_regs -> gpr (th s') r = load64 (ram (tm s)) (new + ctx_off r)) /\
    gpr (th s') A0 = load64 (ram (tm s)) (new + 112) /\ gpr (th s') A1 = load64 (ram (tm s)) (new + 8).
Proof.
  destruct s as [[g p md c] [m pg] ir dk u]. unfold context_at. cbn [th tm gpr csr ram]. intros Hnew Hctx. rewrite (proj2 swtch_split). destruct ctx_tbl_regs as [Hnd Ha1].
  erewrite exec_list_app; [|apply (exec_loads (va := new) (pa := new) (len := 120)); [exact Hctx|exact Hnew|apply ctx_tbl_slots|]].
  2: { intros o Ho. destruct Ha1. apply list_elem_of_fmap. by exists (A1, o). }
  assert (forall r, r ∈ ctx_regs -> loaded new m ctx_tbl g r = load64 m (new + ctx_off r)) as Hl by (intros r Hr; by apply (loaded_in new m ctx_tbl Hnd), ctx_tbl_in).
  assert (loaded new m ctx_tbl g A1 = new) as Hl1 by (rewrite loaded_other by done; exact Hnew).
  set (g1 := loaded new m ctx_tbl g) in *.
  erewrite exec_cons; [|apply (exec_LD (va := new) (pa := new) (len := 120)); [exact Hctx|exact Hl1|lia..]].
  rewrite (exec_cons _ _ _ _ (exec_mv _ _)), (exec_cons _ _ _ _ (exec_jr _)). eexists. split; [reflexivity|]. cbn [th tm pc gpr].
  assert (forall r v w, r ∈ ctx_regs -> upd_reg A1 v (upd_reg A0 w g1) r = load64 m (new + ctx_off r)) as Hf.
  { intros r v w Hr. unfold upd_reg. destruct ctx_regs_args. rewrite !decide_False; [by apply Hl|congruence..]. }
  split; [done|]. split; [rewrite Hf by (apply (bool_decide_unpack _); done); cbn [ctx_off]; by rewrite Z.add_0_r|].
  split; [intros r Hr; by apply Hf|]. split; [reflexivity|]. change (g1 SP = load64 m (new + ctx_off SP)). apply Hl, (bool_decide_unpack _). done.
Qed.

Lemma swtch_save_run s old : gpr (th s) A0 = old -> old <> 0 -> context_at s old -> (forall r, 0 <= gpr (th s) r < 2 ^ 64) ->
  exists s', exec_list swtch_save s = Ret tt s' /\ th s' = th s /\ (forall r, r ∈ ctx_regs -> load64 (ram (tm s')) (old + ctx_off r) = gpr (th s) r) /\
    (forall b, ~ old <= b < old + 120 -> rd8 (ram (tm s')) b = rd8 (ram (tm s)) b).
Proof.
  destruct s as [[g p md c] [m pg] ir dk u]. unfold context_at. cbn [th tm gpr csr ram]. intros Hold Hnz Hctx Hg. rewrite (proj1 swtch_split).
  rewrite (exec_stores (va := old) (pa := old) (len := 120)); [|exact Hctx|exact Hold|apply ctx_tbl_slots]. eexists. split; [reflexivity|]. split; [done|]. split.
  - intros r Hr. by apply (saved_load 120 old g ctx_tbl ctx_tbl_slots Hg), ctx_tbl_in.
  - intros b Hb. apply (saved_outside 120); [apply ctx_tbl_slots|exact Hb].
Qed.

(** [swtch] is called with an old context, or null, and a new one: the contexts are
    apart and mapped. *)
Record can_switch (s : trapst) (old new : Z) : Prop := {
  cs_old : gpr (th s) A0 = old;
  cs_new : gpr (th s) A1 = new;
  cs_regs : old <> 0 -> forall r, 0 <= gpr (th s) r < 2 ^ 64;
  cs_at : old <> 0 -> context_at s old;
  cs_apart : old <> 0 -> old + 120 <= new \/ new + 120 <= old;
  cs_into : forall m, (forall b, ~ old <= b < old + 120 -> rd8 m b = rd8 (ram (tm s)) b) -> region m (satp (csr (th s))) new new 120
}.

Lemma swtch_run s old new : can_switch s old new ->
  exists s', swtch s = Ret tt s' /\ pc (th s') = load64 (ram (tm s)) new /\ (forall r, r ∈ ctx_regs -> gpr (th s') r = load64 (ram (tm s)) (new + ctx_off r)) /\
    (old <> 0 -> forall r, r ∈ ctx_regs -> load64 (ram (tm s')) (old + ctx_off r) = gpr (th s) r) /\
    (forall b, ~ old <= b < old + 120 -> rd8 (ram (tm s')) b = rd8 (ram (tm s)) b) /\
    gpr (th s') A0 = load64 (ram (tm s)) (new + 112) /\ gpr (th s') A1 = load64 (ram (tm s)) (new + 8).
Proof.
  intros [Hold Hnew Hg Hat Hap Hinto]. unfold swtch. rewrite Hold. destruct (Z.eqb_spec old 0) as [->|Hnz].
  - destruct (swtch_load_run s new Hnew) as (s' & Hrun & Htm & Hpc & Hl & Hl0 & Hl1); [by apply Hinto|]. exists s'. rewrite Htm. split_and!; done.
  - destruct (swtch_save_run s old Hold Hnz (Hat Hnz) (Hg Hnz)) as (s1 & Hrun1 & Hth & Hl1 & Hout).
    destruct (swtch_load_run s1 new) as (s' & Hrun & Htm & Hpc & Hl & Hl0 & Hl1'); [by rewrite Hth|unfold context_at; rewrite Hth; by apply Hinto|].
    assert (forall o, 0 <= o <= 112 -> load64 (ram (tm s1)) (new + o) = load64 (ram (tm s)) (new + o)) as Hld
      by (intros o Ho; apply load_agree; intros b Hb; apply Hout; specialize (Hap Hnz); lia).
    exists s'. rewrite (kbind_ret _ _ _ _ _ Hrun1), Htm. split; [exact Hrun|]. split; [by rewrite Hpc, <- (Z.add_0_r new), Hld by lia|].
    split_and!; [|done|done|by rewrite Hl0, Hld by lia|by rewrite Hl1', Hld by lia]. intros r Hr. rewrite Hl by done. apply Hld, ctx_off_range.
Qed.

(** A context switch comes back.  [swtch] saves the return address, the stack
    pointer and s0 to s11 in the old context and goes on in the new one; a later
    [swtch] to the old context, on any hart and from any other context, returns to
    the caller of the first with these registers, if the context was kept. *)
Theorem swtch_comes_back s1 ctx new : can_switch s1 ctx new -> ctx <> 0 ->
  exists s1', swtch s1 = Ret tt s1' /\ (forall b, ~ ctx <= b < ctx + 120 -> rd8 (ram (tm s1')) b = rd8 (ram (tm s1)) b) /\
    forall s2 old, can_switch s2 old ctx -> mem_agree ctx (ctx + 112) (ram (tm s1')) (ram (tm s2)) ->
      exists s3, swtch s2 = Ret tt s3 /\ pc (th s3) = gpr (th s1) RA /\ forall r, r ∈ ctx_regs -> gpr (th s3) r = gpr (th s1) r.
Proof.
  intros Hs1 Hnz. destruct (swtch_run s1 ctx new Hs1) as (s1' & Hrun & _ & _ & Hl & Hout & _). exists s1'. split; [exact Hrun|]. split; [exact Hout|].
  intros s2 old Hs2 Hag. destruct (swtch_run s2 old ctx Hs2) as (s3 & Hrun3 & Hpc & Hregs & _).
  assert (forall r, r ∈ ctx_regs -> load64 (ram (tm s2)) (ctx + ctx_off r) = gpr (th s1) r) as Hsame.
  { intros r Hr. rewrite <- Hl by done. apply load_agree. intros b Hb. apply Hag. assert (ctx_off r <= 104) by (destruct r; (cbn; lia) || by apply (bool_decide_pack _) in Hr).
    pose proof (ctx_off_range r). lia. }
  exists s3. split; [exact Hrun3|]. split; [|intros r Hr; by rewrite Hregs, Hsame].
  rewrite Hpc. rewrite <- (Hsame RA) by (apply (bool_decide_unpack _); done). cbn [ctx_off]. by rewrite Z.add_0_r.
Qed.
