(* ===== verification/TrapStart.v ===== *)
(** * The start of a user program, and examples of traps

    The page table of [__init_pagetable] is what the trampoline needs: a process
    that was set up can be entered, and from then on its traps find the trap frame.
    A concrete process and its traps are the witnesses of the theorems of
    [TrapProof]. *)
From S2P Require Import Prelude VirtioInv VirtioDisk Process Virtio Memory CString Riscv PageAlloc Vmem PageTable UserCopy UserSpace UserLife Cpu Trap TrapProof.

(** The pages of a process: the tables keep their place, and the trap frame is none
    of them. *)
Section space.
Context {l0 : list Z} {u : uspace} {T : gmap Z (nat * Z)} {l : list Z} {L : list (mmap_info * list Z)} {X : list Z}.
Context (Hok : space_ok l0 u T l L X) (Hin : frame_map (trapframe_pa u) ∈ L) (Hp : page_ok (pages (um u)) (trapframe_pa u)).

Lemma space_range : (pagetable u mod 4096 = 0 /\ 0 < pagetable u < 2 ^ 56) /\ trapframe_pa u mod 4096 = 0 /\ 0 < trapframe_pa u < 2 ^ 56.
Proof.
  destruct Hok as [Hu Hh _ _]. destruct Hp as [Hal Hr]. destruct (ho_tables _ _ _ _ _ Hh (pagetable u)) as [Hral Hrr]; [eexists; apply (vm_root _ _ _ _ (uo_vm _ _ _ _ Hu))|].
  pose proof (vm_pages _ _ _ _ (uo_vm _ _ _ _ Hu)) as Hpg. destruct (pi_bounds _ _ Hpg) as [Hb1 Hb2]. unfold PGSIZE in *. split_and!; (done || lia).
Qed.

Lemma space_frame_page : T !! trapframe_pa u = None.
Proof.
  destruct space_range as (_ & Hal & Hr). pose proof (entry_page (trapframe_pa u) (Z.lor PTE_R PTE_W) Hal Hr ltac:(by vm_compute)) as [Hpa _].
  apply (ho_page _ _ _ _ _ (sp_holds _ _ _ _ _ _ Hok)). unfold owned. apply list_elem_of_In, in_concat. exists [trapframe_pa u]. split; [|by left].
  apply list_elem_of_In, list_elem_of_fmap. exists (frame_map (trapframe_pa u)). split; [|exact Hin].
  change (owned_by (frame_map (trapframe_pa u))) with [PTE2PA (map_pte (trapframe_pa u) (Z.lor PTE_R PTE_W))]. by rewrite Hpa.
Qed.

Lemma space_frame : frame_at (ram (um u)) (pagetable u) (trapframe_pa u).
Proof.
  destruct space_range as [Hroot Htf]. split; [done|done| |].
  - pose proof (uo_vm _ _ _ _ (sp_uok _ _ _ _ _ _ Hok)) as Hvm. exists T. split; [apply (vm_inv _ _ _ _ Hvm)|]. split; [apply (vm_root _ _ _ _ Hvm)|exact space_frame_page].
  - destruct (ma_entry _ _ _ _ (ho_maps _ _ _ _ _ (sp_holds _ _ _ _ _ _ Hok) _ Hin) 0%nat (map_pte (trapframe_pa u) (Z.lor PTE_R PTE_W)) eq_refl) as [He _].
    by rewrite Z.add_0_r in He.
Qed.

(** An instruction fetch from the page at TRAMPOLINE reaches the page [tr]. *)
Lemma space_trampoline tr m a : tramp_map tr ∈ L -> tr mod 4096 = 0 -> 0 < tr < 2 ^ 56 ->
  (forall b, ~ trapframe_pa u <= b < trapframe_pa u + 40 -> rd8 m b = rd8 (ram (um u)) b) -> tr <= a < tr + 4096 ->
  hw_addr m (MAKE_SATP (pagetable u)) (TRAMPOLINE + (a - tr)) PTE_X = Some a.
Proof.
  intros Htr Hal Hr Hag Ha. destruct space_range as ((Hral & Hrr) & Htal & _). pose proof (uo_vm _ _ _ _ (sp_uok _ _ _ _ _ _ Hok)) as Hvm.
  destruct (ma_entry _ _ _ _ (ho_maps _ _ _ _ _ (sp_holds _ _ _ _ _ _ Hok) _ Htr) 0%nat (map_pte tr (Z.lor PTE_R PTE_X)) eq_refl) as [He _].
  change (translate (ram (um u)) (pagetable u) TRAMPOLINE = Some (map_pte tr (Z.lor PTE_R PTE_X))) in He.
  assert (tables_agree T (ram (um u)) m) as Hta.
  { intros t [[lv pre] Ht] b Hb. destruct (pt_page _ _ (vm_inv _ _ _ _ Hvm) _ _ _ Ht). assert (t <> trapframe_pa u) by (pose proof space_frame_page; congruence). apply Hag. zlia. }
  unfold hw_addr. rewrite make_satp_mode, make_satp_root by done. cbn [Z.eqb Pos.eqb]. unfold translate in *.
  rewrite (leaf_pte_same_page 2 m (pagetable u) (TRAMPOLINE + (a - tr)) TRAMPOLINE) by (change TRAMPOLINE with (67108863 * 4096); zlia).
  rewrite (leaf_pte_agree T (ram (um u)) m) by (done || apply (vm_inv _ _ _ _ Hvm) || (rewrite prefix_root by (by vm_compute); apply (vm_root _ _ _ _ Hvm))).
  rewrite He. cbn [mbind option_bind]. rewrite kernel_pte_bits by (done || by right). rewrite (proj1 (map_pte_page tr (Z.lor PTE_R PTE_X) Hal Hr ltac:(by vm_compute))).
  f_equal. change TRAMPOLINE with (67108863 * 4096). zlia.
Qed.
End space.

(** C38. A process that was set up can be entered.  With more than nine free pages
    [__init_pagetable] succeeds, and user_trap_ret on any hart, with any control
    registers, goes through the trampoline into user mode, with the page table of
    the process, the timer running and everything in place for the next trap: under
    that page table an instruction fetch from any address of the page at TRAMPOLINE
    reaches the page of the kernel that holds the trampoline, so that both the rest
    of user_ret and the handler in stvec are the code they should be. *)
Theorem process_starts user_trap_at trampoline user_vec_at user_ret_at temp_kstack junk u l0 :
  0 <= user_trap_at < 2 ^ 64 -> pages_inv (um u) l0 -> mmap_infos u = [] -> (9 < length l0)%nat -> trampoline mod 4096 = 0 -> 0 < trampoline < 2 ^ 56 ->
  trampoline <= user_vec_at < trampoline + 4096 -> user_vec_at mod 4 = 0 ->
  exists u', __init_pagetable trampoline u = Ret 0 u' /\
    forall s, tm s = um u' -> up_pagetable (proc s) = pagetable u' -> up_trapframe (proc s) = trapframe_pa u' ->
      exists s', resume_user user_trap_at trampoline user_vec_at user_ret_at temp_kstack junk s = Ret tt s' /\
        @user_ready user_trap_at trampoline user_vec_at s' /\ satp (csr (th s')) = MAKE_SATP (pagetable u') /\
        timecmp (csr (th s')) = u64 (time (csr (th s)) + TICK_FREQ / TIME_SLICE_PER_SEC) /\
        (forall a, trampoline <= a < trampoline + 4096 -> hw_addr (ram (tm s')) (satp (csr (th s'))) (TRAMPOLINE + (a - trampoline)) PTE_X = Some a) /\
        hw_addr (ram (tm s')) (satp (csr (th s'))) (stvec (csr (th s'))) PTE_X = Some user_vec_at.
Proof.
  intros Htrap Hpg Hinf Hlen Htr Htr' Hvec Hvec4. destruct (init_spec trampoline u l0 Hpg Hinf Hlen Htr Htr') as (u' & T & l & L & Hrun & Hok & Hin & Hp & Htramp).
  exists u'. split; [exact Hrun|]. intros s Htm Hpt Htf.
  destruct (resume_run (trampoline := trampoline) (user_vec_at := user_vec_at) (user_ret_at := user_ret_at) (temp_kstack := temp_kstack) (junk := junk) Htrap s)
    as (s' & Hrun' & [R1 _ _ R4 _ _ _ R8 [R9 _]]); [rewrite Htm, Hpt, Htf; by eapply space_frame|].
  assert (satp (csr (th s')) = MAKE_SATP (pagetable u')) as Hsat by by rewrite (ur_satp _ R1), R8, Hpt.
  rewrite Htm, Htf in R4. assert (forall a, trampoline <= a < trampoline + 4096 ->
    hw_addr (ram (tm s')) (satp (csr (th s'))) (TRAMPOLINE + (a - trampoline)) PTE_X = Some a) as Hfetch
    by (intros a Ha; rewrite Hsat; by apply (space_trampoline Hok Hin Hp)).
  exists s'. split; [exact Hrun'|]. split; [exact R1|]. split; [exact Hsat|]. split; [exact R9|]. split; [exact Hfetch|].
  rewrite (ur_vec _ R1), user_vec_va_eq by (done || lia). by apply Hfetch.
Qed.

(** ** A process *)

Section example.
Local Notation UT := 0x80200100.
Local Notation TR := 0x80201000.
Local Notation UV := 0x80201000.
Local Notation UR := 0x80201090.
Local Notation KV := 0x80200204.
Local Notation KS := 0x80300000.
Local Notation junk := (fun _ : reg => 0).

(** The disk has read a block for task 1, which sleeps until the interrupt. *)
Definition after (l : label) (y : sys) : sys := match run_label (fun _ => false) l y with Ret _ y' => y' | _ => y end.
Definition disk_finished : sys := after (LComplete 0) (after LTake (after (LTry 1) one_request)).

Lemma disk_finished_steps : rtc (sys_step (fun _ => false)) (Sys qemu_opened ∅) disk_finished.
Proof.
  apply (rtc_r _ (after LTake (after (LTry 1) one_request))); [apply (rtc_r _ (after (LTry 1) one_request)); [apply (rtc_r _ one_request); [exact one_request_reachable|]|]|].
  - apply (sys_step_label _ _ (LTry 1)); [split; [reflexivity|exists (Request 0 3 77); reflexivity]|vm_compute; reflexivity].
  - apply (sys_step_label _ _ LTake); [vm_compute; discriminate|vm_compute; reflexivity].
  - apply (sys_step_label _ _ (LComplete 0)); [|vm_compute; reflexivity].
    assert (taken (dev (vs (after LTake (after (LTry 1) one_request)))) = [0]) as Ht by (vm_compute; reflexivity). cbn [enabled]. rewrite Ht. by left.
Qed.

Lemma disk_finished_service : in_service disk_finished.
Proof.
  exists (fun _ => false), qemu_regs, 8192, (fun k => k), zero_buf, qemu_opened.
  split; [reflexivity|]. split; [reflexivity|]. split; [exact zero_buf_length|]. split; [reflexivity|exact disk_finished_steps].
Qed.

Lemma disk_finished_waiting : seen (drv (vs disk_finished)) = 0 /\ used_idx (rng (vs disk_finished)) = 1.
Proof. split; vm_compute; reflexivity. Qed.

#[local] Opaque disk_finished.

Definition demo_space : uspace := match __init_pagetable TR wide_space with Ret _ u => u | _ => wide_space end.
Definition demo_csrs : csrs := Csrs 0 0 0 0 0 0 0 0 1000 0.
Definition demo_state : trapst :=
  TrapSt (Hart (fun _ => 0) 0 Supervisor demo_csrs) (um demo_space) (Plic ∅ [1; 10] []) (Some (vs disk_finished))
    (UProc (pagetable demo_space) (trapframe_pa demo_space) [] false false []).
Definition demo_user : trapst := match resume_user UT TR UV UR KS junk demo_state with Ret _ s => s | _ => demo_state end.

Lemma demo_frame : frame_at (ram (um demo_space)) (pagetable demo_space) (trapframe_pa demo_space).
Proof.
  destruct (init_spec TR wide_space wide_free wide_pages) as (u' & T & l & L & Hrun & Hok & Hin & Hp & _); [reflexivity|by vm_compute; lia|reflexivity|lia|].
  unfold demo_space. rewrite Hrun. by eapply space_frame.
Qed.

Lemma demo_runs : exists s', resume_user UT TR UV UR KS junk demo_state = Ret tt s' /\ demo_user = s' /\
  resumed (user_trap_at := UT) (trampoline := TR) (user_vec_at := UV) demo_state s'.
Proof.
  destruct (resume_run (user_trap_at := UT) (trampoline := TR) (user_vec_at := UV) (user_ret_at := UR) (temp_kstack := KS) (junk := junk) ltac:(lia) demo_state demo_frame)
    as (s' & Hrun & Hres). exists s'. split; [exact Hrun|]. split; [unfold demo_user; by rewrite Hrun|exact Hres].
Qed.

Lemma demo_user_ready : user_ready (user_trap_at := UT) (trampoline := TR) (user_vec_at := UV) demo_user.
Proof. destruct demo_runs as (s' & _ & -> & Hres). apply Hres. Qed.

Lemma demo_same : irqs demo_user = irqs demo_state /\ proc demo_user = proc demo_state.
Proof. destruct demo_runs as (s' & _ & -> & Hres). split; [exact (re_irqs _ _ Hres)|exact (re_proc _ _ Hres)]. Qed.

Lemma demo_irqs : irqs demo_user = Plic ∅ [1; 10] [].
Proof. rewrite (proj1 demo_same). reflexivity. Qed.

Lemma demo_disk : disk demo_user = Some (vs disk_finished).
Proof. destruct demo_runs as (s' & _ & -> & Hres). exact (re_disk _ _ Hres). Qed.

Lemma process_starts_witness :
  exists u', __init_pagetable TR wide_space = Ret 0 u' /\
    forall s, tm s = um u' -> up_pagetable (proc s) = pagetable u' -> up_trapframe (proc s) = trapframe_pa u' ->
      exists s', resume_user UT TR UV UR KS junk s = Ret tt s' /\ satp (csr (th s')) = MAKE_SATP (pagetable u') /\
        hw_addr (ram (tm s')) (satp (csr (th s'))) (TRAMPOLINE + 0x90) PTE_X = Some UR.
Proof.
  destruct (process_starts UT TR UV UR KS junk wide_space wide_free) as (u' & Hrun & Hs);
    [lia|exact wide_pages|reflexivity|by vm_compute; lia|reflexivity|lia|lia|reflexivity|]. exists u'. split; [exact Hrun|]. intros s H1 H2 H3.
  destruct (Hs s H1 H2 H3) as (s' & H4 & _ & H5 & _ & H6 & _). exists s'. split; [exact H4|]. split; [exact H5|]. apply (H6 UR). lia.
Defined.

Lemma demo_disk_ready : disk_ready demo_user.
Proof. intros _. exists disk_finished. split; [exact demo_disk|exact disk_finished_service]. Qed.

Lemma demo_reported s' : serviced (irqs demo_user) (irqs s') -> disk_reported (fuel := 9) demo_user s' ->
  irqs s' = Plic ∅ [10] [1] /\ exists d', disk s' = Some d' /\ seen (drv d') = used_idx (rng d').
Proof.
  unfold serviced, disk_reported. rewrite demo_irqs. intros -> H. split; [reflexivity|]. change (disk_claims (Plic ∅ [1; 10] [])) with true in H.
  destruct H as (y & d' & _ & H1 & _ & _ & H2). exists d'. split; [exact H1|exact H2].
Qed.

(** The interrupt is the disk's: it is claimed and completed, and the finished
    request, at position 0 of the ring, is reported. *)
Lemma user_interrupt_transparent_witness :
  exists s' d', from_user KV UT TR UV UR KS junk 0 9 EXTERNAL_INTERRUPT 0 demo_user = Ret Returns s' /\ same_program (user_trap_at := UT) (trampoline := TR) (user_vec_at := UV) demo_user s' /\
    irqs s' = Plic ∅ [10] [1] /\ seen (drv (vs disk_finished)) = 0 /\ used_idx (rng (vs disk_finished)) = 1 /\
    disk s' = Some d' /\ seen (drv d') = used_idx (rng d').
Proof.
  destruct (user_interrupt_transparent (kernel_vec_at := KV) (user_trap_at := UT) (trampoline := TR) (user_vec_at := UV) (user_ret_at := UR) (temp_kstack := KS) (junk := junk)
    (stat_buf := 0) (fuel := 9) ltac:(lia) demo_user 0 ltac:(lia) demo_user_ready demo_disk_ready) as (s' & H1 & H2 & H3 & H4).
  destruct (demo_reported s' H3 H4) as (H5 & d' & H6 & H7). exists s', d'. split; [exact H1|]. split; [exact H2|]. split; [exact H5|].
  split; [exact (proj1 disk_finished_waiting)|]. split; [exact (proj2 disk_finished_waiting)|]. split; [exact H6|exact H7].
Defined.


Lemma preempted_program_resumes_witness :
  exists s1 s3, from_user KV UT TR UV UR KS junk 0 1 TIMER_INTERRUPT 0 demo_user = Ret (SwitchBack false) s1 /\
    resume_user UT TR UV UR KS junk s1 = Ret tt s3 /\ pc (th s3) = pc (th demo_user).
Proof.
  destruct (preempted_program_resumes (kernel_vec_at := KV) (user_trap_at := UT) (trampoline := TR) (user_vec_at := UV) (user_ret_at := UR) (temp_kstack := KS) (junk := junk)
    (stat_buf := 0) (fuel := 1) ltac:(lia) demo_user 0 demo_user_ready) as (s1 & H1 & H2).
  destruct (timer_run (kernel_vec_at := KV) (user_trap_at := UT) (trampoline := TR) (user_vec_at := UV) (user_ret_at := UR) (temp_kstack := KS) (junk := junk)
    (stat_buf := 0) (fuel := 1) demo_user 0 demo_user_ready) as (s1' & H1' & _ & Hfh). rewrite H1 in H1'. injection H1' as <-.
  destruct (H2 s1 eq_refl) as (s3 & H3 & _ & _ & H4).
  - eapply frame_at_agree; [apply demo_user_ready|apply Hfh].
  - split; intros a _; reflexivity.
  - exists s1, s3. split; [exact H1|]. split; [exact H3|exact H4].
Defined.

Lemma user_faults_exit_witness :
  exists s', from_user KV UT TR UV UR KS junk 0 1 LoadPageFault 0 demo_user = Ret Gone s' /\ pcalls (proc s') = [CExit (-3)].
Proof.
  destruct (user_faults_exit (kernel_vec_at := KV) (user_trap_at := UT) (trampoline := TR) (user_vec_at := UV) (user_ret_at := UR) (temp_kstack := KS) (junk := junk)
    (stat_buf := 0) (fuel := 1) demo_user LoadPageFault 0 demo_user_ready) as (s' & H1 & H2 & _).
  - unfold LoadPageFault. lia.
  - discriminate.
  - exists s'. split; [exact H1|]. rewrite H2, (proj2 demo_same). reflexivity.
Defined.

(** Before paging is on, memory is mapped one to one. *)
Lemma bare_region m a len : 0 <= a -> a + len < 2 ^ 64 -> region m 0 a a len.
Proof. intros Ha Hl m' _ o perm Ho Ho' _. unfold hw_addr. change (Z.shiftr 0 60) with 0. cbn [Z.eqb]. rewrite u64_small by lia. done. Qed.

Definition demo_kernel : trapst :=
  TrapSt (Hart (fun _ => 0x1000) 0x80210000 Supervisor (Csrs 2 0x222 (Z.land KV (Z.lnot 3)) 0 0 0 0 0 0 0)) (Machine ∅ (PageAllocator 0 0 1 1)) (Plic ∅ [1] []) (Some (vs disk_finished)) (UProc 0 0 [] false false []).

Lemma demo_kernel_ready : kernel_ready (kernel_vec_at := KV) demo_kernel 0xf00.
Proof. split; [reflexivity|reflexivity|cbn; lia|cbn; lia|apply bare_region; lia]. Qed.

(** The timer, and the disk. *)
Lemma kernel_interrupt_transparent_witness :
  (exists x s1 s3, kernel_enter KV 9 TIMER_INTERRUPT 0 demo_kernel = Ret (SwitchBack true, 0x80210000, x) s1 /\
    kernel_leave KV 0x80210000 x s1 = Ret tt s3 /\ pc (th s3) = 0x80210000 /\ irq_on (csr (th s3)) = true /\ gpr (th s3) SP = 0x1000) /\
  (exists x s1 s3 d', kernel_enter KV 9 EXTERNAL_INTERRUPT 0 demo_kernel = Ret (Returns, 0x80210000, x) s1 /\
    irqs s1 = Plic ∅ [] [1] /\ disk s1 = Some d' /\ seen (drv d') = used_idx (rng d') /\
    kernel_leave KV 0x80210000 x s1 = Ret tt s3 /\ pc (th s3) = 0x80210000 /\ irq_on (csr (th s3)) = true /\ gpr (th s3) SP = 0x1000).
Proof.
  split.
  - destruct (kernel_interrupt_transparent (kernel_vec_at := KV) (fuel := 9) demo_kernel 0xf00 TIMER_INTERRUPT 0 demo_kernel_ready) as (f & x & s1 & H1 & -> & Hsp & Hsat & _ & _ & H2); [by left|].
    destruct (H2 s1 Hsp) as (s3 & H3 & H4); [rewrite Hsat; apply bare_region; lia|intros a _; reflexivity|].
    exists x, s1, s3. split; [exact H1|]. split; [exact H3|]. split; [exact (sk_pc _ _ _ H4)|]. split; [exact (sk_irq _ _ _ H4)|]. rewrite (sk_regs _ _ _ H4) by discriminate. reflexivity.
  - destruct (kernel_interrupt_transparent (kernel_vec_at := KV) (fuel := 9) demo_kernel 0xf00 EXTERNAL_INTERRUPT 0 demo_kernel_ready) as (f & x & s1 & H1 & -> & Hsp & Hsat & H5 & _ & H2).
    { right. split; [reflexivity|]. split; [lia|]. intros _. exists disk_finished. split; [reflexivity|exact disk_finished_service]. }
    destruct (H5 eq_refl) as [H6 (y & d' & _ & H7 & _ & _ & H8)].
    destruct (H2 s1 Hsp) as (s3 & H3 & H4); [rewrite Hsat; apply bare_region; lia|intros a _; reflexivity|].
    exists x, s1, s3, d'. split; [exact H1|]. split; [exact H6|]. split; [exact H7|]. split; [exact H8|].
    split; [exact H3|]. split; [exact (sk_pc _ _ _ H4)|]. split; [exact (sk_irq _ _ _ H4)|]. rewrite (sk_regs _ _ _ H4) by discriminate. reflexivity.
Defined.

Definition demo_thread (sp old new : Z) : trapst :=
  TrapSt (Hart (upd_reg A0 old (upd_reg A1 new (fun _ => sp))) 0 Supervisor (Csrs 0 0 0 0 0 0 0 0 0 0)) (Machine ∅ (PageAllocator 0 0 1 1)) (Plic ∅ [] []) None (UProc 0 0 [] false false []).

Lemma demo_can_switch sp old new : 0 <= sp < 2 ^ 64 -> 0 < old -> old + 120 <= new -> new + 120 < 2 ^ 64 -> can_switch (demo_thread sp old new) old new.
Proof.
  intros Hsp Hold Hap Hnew. split; [reflexivity|reflexivity| |intros _; apply bare_region; lia|lia|intros m _; apply bare_region; lia].
  intros _ r. cbn [demo_thread th gpr]. unfold upd_reg. repeat case_decide; lia.
Qed.

Lemma swtch_comes_back_witness :
  exists s1' s3, swtch (demo_thread 0x7000 0x100 0x200) = Ret tt s1' /\
    swtch (upd_th (set_gpr (upd_reg A1 0x100 (upd_reg A0 0 (gpr (th s1'))))) s1') = Ret tt s3 /\ gpr (th s3) SP = 0x7000 /\ pc (th s3) = 0x7000.
Proof.
  destruct (swtch_comes_back (demo_thread 0x7000 0x100 0x200) 0x100 0x200) as (s1' & H1 & _ & H2); [apply demo_can_switch; lia|lia|].
  assert (satp (csr (th s1')) = 0) as Hsat.
  { assert (match swtch (demo_thread 0x7000 0x100 0x200) with Ret _ s => satp (csr (th s)) = 0 | _ => True end) as Hc by (vm_compute; reflexivity).
    rewrite H1 in Hc. exact Hc. }
  destruct (H2 (upd_th (set_gpr (upd_reg A1 0x100 (upd_reg A0 0 (gpr (th s1'))))) s1') 0) as (s3 & H3 & H4 & H5).
  - split; [reflexivity|reflexivity|intros Hz; destruct (Hz eq_refl)..|intros m _; cbn [upd_th th set_gpr csr]; rewrite Hsat; apply bare_region; lia].
  - intros a _. reflexivity.
  - exists s1', s3. split; [exact H1|]. split; [exact H3|]. split; [apply (H5 SP), (bool_decide_unpack _); reflexivity|exact H4].
Defined.
End example.
