(* ===== verification/Printf.v ===== *)
(** * Formatted output (src/os/utils/printf.cc, fprint.cc, fprintf.cc, fprintf.h)

    Characters are bytes.  A string constant is its bytes with the final 0; to read
    behind it is an error.  The console is the bytes that were put out, a file the
    list of the buffers that were given to its write.  The buffers on the stack
    have their size, and to write behind them is an error.

    The theorems say that a number that is printed can be read back, in a buffer
    that is large enough, that both printers agree, and that [__vprintf] puts out
    its format piece by piece. *)
From S2P Require Import Prelude.

(** ** Definitions *)

Definition digits : list Z := [48; 49; 50; 51; 52; 53; 54; 55; 56; 57; 97; 98; 99; 100; 101; 102].
Definition MINUS : Z := 45.
Definition PERCENT : Z := 37.

Definition console := K (list Z).
Definition putchar (c : Z) : console unit := kmodify (fun out => out ++ [c]).

(** The loop that fills the buffer of [cap] bytes from the low digit on. *)
Fixpoint digit_loop {S : Type} (fuel : nat) (cap x base : Z) (buf : list Z) : K S (list Z) :=
  match fuel with
  | O => kfuel
  | S fuel' =>
      if cap <=? Z.of_nat (length buf) then kpanic
      else
        let buf' := buf ++ [nthZ digits (x mod base)] in
        let x' := x / base in
        if x' =? 0 then kret buf' else digit_loop fuel' cap x' base buf'
  end.

Definition push_sign {S : Type} (cap : Z) (neg : bool) (buf : list Z) : K S (list Z) :=
  if neg then if cap <=? Z.of_nat (length buf) then kpanic else kret (buf ++ [MINUS])
  else kret buf.

(** The loop that prints it from the end. *)
Fixpoint put_back (i : nat) (buf : list Z) : console unit :=
  match i with
  | O => kret tt
  | S i' => putchar (nthZ buf (Z.of_nat i')) ;;; put_back i' buf
  end.

Definition printint (xx base sign : Z) : console unit :=
  let neg := negb (sign =? 0) && (xx <? 0) in
  let x := if neg then u32 (- xx) else u32 xx in
  buf <- digit_loop 32 16 x base [] ;;
  buf <- push_sign 16 neg buf ;;
  put_back (length buf) buf.

Definition printint64 (xx base sign : Z) : console unit :=
  let neg := negb (sign =? 0) && (xx <? 0) in
  let x := if neg then u64 (- xx) else u64 xx in
  buf <- digit_loop 64 32 x base [] ;;
  buf <- push_sign 32 neg buf ;;
  put_back (length buf) buf.

Fixpoint ptr_loop (n : nat) (x : Z) : list Z :=
  match n with
  | O => []
  | S n' => nthZ digits (Z.shiftr x 60) :: ptr_loop n' (u64 (Z.shiftl x 4))
  end.

Fixpoint put_all (s : list Z) : console unit :=
  match s with
  | [] => kret tt
  | c :: s' => putchar c ;;; put_all s'
  end.

Definition printptr (x : Z) : console unit := putchar 48 ;;; putchar 120 ;;; put_all (ptr_loop 16 x).

(** An argument: an integer, a pointer, or a string (None is null). *)
Inductive arg := AInt (x : Z) | APtr (x : Z) | AStr (s : option (list Z)).

Definition null_str : list Z := [40; 110; 117; 108; 108; 41].

(** [__vprintf] from the index [i]; an argument of another type than the format
    wants is an error, and so is a missing one. *)
Fixpoint vprintf_loop (fuel : nat) (fmt : list Z) (i : nat) (ap : list arg) : console unit :=
  match fuel with
  | O => kfuel
  | S fuel' =>
      match fmt !! i with
      | None => kpanic
      | Some c =>
          if c =? 0 then kret tt
          else if negb (c =? PERCENT) then putchar c ;;; vprintf_loop fuel' fmt (S i) ap
          else
            match fmt !! S i with
            | None => kpanic
            | Some c =>
                let next ap := vprintf_loop fuel' fmt (S (S i)) ap in
                if c =? 0 then kret tt
                else if c =? 100 then match ap with AInt x :: ap' => printint (s32 x) 10 1 ;;; next ap' | _ => kpanic end
                else if c =? 108 then match ap with AInt x :: ap' => printint64 (s64 x) 10 1 ;;; next ap' | _ => kpanic end
                else if c =? 120 then match ap with AInt x :: ap' => printint (s32 x) 16 1 ;;; next ap' | _ => kpanic end
                else if c =? 112 then match ap with APtr x :: ap' => printptr x ;;; next ap' | _ => kpanic end
                else if c =? 115 then match ap with AStr s :: ap' => put_all (default null_str s) ;;; next ap' | _ => kpanic end
                else if c =? PERCENT then putchar PERCENT ;;; next ap
                else putchar PERCENT ;;; putchar c ;;; next ap
            end
      end
  end.
Definition __vprintf (fmt : list Z) (ap : list arg) : console Z := vprintf_loop (S (length fmt)) fmt 0 ap ;;; kret 0.
Definition __printf (fmt : list Z) (ap : list arg) : console Z := __vprintf fmt ap ;;; kret 0.

(** *** Files *)

Definition fwrite (buf : list Z) : K (list (list Z)) unit := kmodify (fun ws => ws ++ [buf]).

(** The loop that fills the buffer from its end. *)
Fixpoint digit_loop_down {S : Type} (fuel : nat) (x base : Z) (buf : list Z) : K S (list Z) :=
  match fuel with
  | O => kfuel
  | S fuel' =>
      if 32 <=? Z.of_nat (length buf) then kpanic
      else
        let buf' := nthZ digits (x mod base) :: buf in
        let x' := x / base in
        if x' =? 0 then kret buf' else digit_loop_down fuel' x' base buf'
  end.

Definition __fprint_int64 (xx base sign : Z) : K (list (list Z)) unit :=
  let neg := negb (sign =? 0) && (xx <? 0) in
  let x := if neg then u64 (- xx) else u64 xx in
  buf <- digit_loop_down 64 x base [] ;;
  buf <- (if neg then if 32 <=? Z.of_nat (length buf) then kpanic else kret (MINUS :: buf) else kret buf) ;;
  fwrite buf.

(** The three overloads of [__fprint]. *)
Definition __fprint (x : arg) (format : Z) : K (list (list Z)) unit :=
  match x with
  | AInt xx =>
      if format =? 100 then __fprint_int64 (s64 xx) 10 1
      else if format =? 120 then __fprint_int64 (s64 xx) 16 0
      else kfail
  | APtr p => if negb (format =? 112) then kfail else fwrite ([48; 120] ++ ptr_loop 16 p)
  | AStr s => if negb (format =? 115) then kfail else fwrite (default null_str s)
  end.

(** [__fprintf] without arguments. *)
Fixpoint fprintf_end (fuel : nat) (fmt : list Z) (i : nat) : K (list (list Z)) unit :=
  match fuel with
  | O => kfuel
  | S fuel' =>
      match fmt !! i with
      | None => kpanic
      | Some c =>
          if c =? 0 then fwrite (take (S i) fmt)
          else if negb (c =? PERCENT) then fprintf_end fuel' fmt (S i)
          else
            match fmt !! S i with
            | None => kpanic
            | Some c =>
                if c =? PERCENT then fwrite (take (S i) fmt) ;;; fprintf_end fuel' (drop (S (S i)) fmt) 0
                else fprintf_end fuel' fmt (S (S i))
            end
      end
  end.

(** [__fprintf] with arguments: one element is formatted, the rest is for the next
    call. *)
Inductive found := FEnd (i : nat) | FSpec (i : nat) (c : Z).
Fixpoint find_spec (fuel : nat) (fmt : list Z) (i : nat) : K (list (list Z)) found :=
  match fuel with
  | O => kfuel
  | S fuel' =>
      match fmt !! i with
      | None => kpanic
      | Some c =>
          if c =? 0 then kret (FEnd (S i))
          else if negb (c =? PERCENT) then find_spec fuel' fmt (S i)
          else match fmt !! S i with None => kpanic | Some c => kret (FSpec (S (S i)) c) end
      end
  end.
Fixpoint __fprintf (fmt : list Z) (args : list arg) : K (list (list Z)) unit :=
  match args with
  | [] => fprintf_end (S (length fmt)) fmt 0
  | x :: args' =>
      r <- find_spec (S (length fmt)) fmt 0 ;;
      match r with
      | FEnd i => fwrite (take i fmt)
      | FSpec i c =>
          (if (2 <? i)%nat then fwrite (take (i - 2) fmt) else kret tt) ;;;
          (if bool_decide (c ∈ [100; 108; 120; 112; 115]) then __fprint x c
           else if c =? PERCENT then fwrite [PERCENT]
           else fwrite (take 2 (drop (i - 2) fmt))) ;;;
          __fprintf (drop i fmt) args'
      end
  end.

(** ** Numbers *)

(** Reading a number, as a reference. *)
Definition digit_val (c : Z) : Z := if (48 <=? c) && (c <=? 57) then c - 48 else c - 87.
Definition read_digits (base : Z) (s : list Z) : Z := fold_left (fun a c => a * base + digit_val c) s 0.
Definition read_number (base : Z) (s : list Z) : Z :=
  match s with
  | c :: s' => if c =? MINUS then - read_digits base s' else read_digits base s
  | [] => 0
  end.

Definition is_digit (base c : Z) : Prop := c <> MINUS /\ 0 <= digit_val c < base.

Lemma digit_of d base : 0 <= d < base -> base <= 16 -> digit_val (nthZ digits d) = d /\ is_digit base (nthZ digits d).
Proof.
  intros Hd Hb. assert (forall k, (k < 16)%nat -> digit_val (nthZ digits (Z.of_nat k)) = Z.of_nat k /\ nthZ digits (Z.of_nat k) <> MINUS) as Hall.
  { intros k Hk. do 16 (destruct k as [|k]; [by vm_compute|]). lia. }
  destruct (Hall (Z.to_nat d)) as [H1 H2]; [lia|]. rewrite Z2Nat.id in H1, H2 by lia. unfold is_digit. rewrite H1. done.
Qed.

(** The value of a buffer with the low digit first. *)
Fixpoint low_first (base : Z) (ds : list Z) : Z :=
  match ds with
  | [] => 0
  | d :: ds' => digit_val d + base * low_first base ds'
  end.

Lemma read_rev base ds : read_digits base (rev ds) = low_first base ds.
Proof.
  unfold read_digits. induction ds as [|d ds IH]; [done|]. cbn [rev low_first]. rewrite fold_left_app, IH. cbn [fold_left]. lia.
Qed.

Lemma digit_loop_run {S : Type} n : forall fuel cap x base buf (s : S), 2 <= base <= 16 -> 0 <= x < base ^ Z.of_nat n -> (0 < n <= fuel)%nat -> Z.of_nat (length buf + n) <= cap ->
  exists ds, digit_loop fuel cap x base buf s = Ret (buf ++ ds) s /\ low_first base ds = x /\ Forall (is_digit base) ds /\ (0 < length ds <= n)%nat.
Proof.
  induction n as [|n IH]; intros fuel cap x base buf s Hb Hx Hf Hcap; [lia|]. destruct fuel as [|fuel]; [lia|]. cbn [digit_loop].
  rewrite (proj2 (Z.leb_gt _ _)) by lia. set (c := nthZ digits (x mod base)). destruct (digit_of (x mod base) base) as [Hv Hd]; [apply Z.mod_pos_bound; lia|lia|]. fold c in Hv, Hd.
  pose proof (Z.div_mod x base ltac:(lia)) as Hdm. destruct (Z.eqb_spec (x / base) 0) as [Hz|Hz].
  - exists [c]. split; [done|]. cbn [low_first]. rewrite Hv. split; [lia|]. split; [by constructor|]. cbn; lia.
  - rewrite Nat2Z.inj_succ, Z.pow_succ_r in Hx by lia. assert (0 <= x / base < base ^ Z.of_nat n) as Hx'.
    { split; [apply Z.div_pos; lia|apply Z.div_lt_upper_bound; lia]. }
    assert (n <> 0%nat) by (intros ->; change (base ^ Z.of_nat 0) with 1 in Hx'; lia).
    destruct (IH fuel cap (x / base) base (buf ++ [c]) s Hb Hx') as (ds & Hrun & Hval & Hds & Hlen); [lia|rewrite length_app; cbn; lia|].
    exists (c :: ds). rewrite Hrun. rewrite <- app_assoc. split; [done|]. cbn [low_first length]. rewrite Hv, Hval. split; [lia|]. split; [by constructor|lia].
Qed.

Lemma put_back_run i : forall buf out, (i <= length buf)%nat -> put_back i buf out = Ret tt (out ++ rev (take i buf)).
Proof.
  induction i as [|i IH]; intros buf out Hi; [by rewrite app_nil_r|]. cbn [put_back]. unfold kbind, putchar, kmodify. rewrite IH by lia.
  destruct (lookup_lt_is_Some_2 buf i ltac:(lia)) as [c Hc]. rewrite (take_S_r _ _ _ Hc), rev_app_distr. rewrite (nthZ_lookup _ _ c) by (by rewrite Nat2Z.id). by rewrite <- app_assoc.
Qed.

(** What both integer printers do, for a magnitude of at most [n] digits. *)
Lemma print_number n fuel cap x base neg out : 2 <= base <= 16 -> 0 <= x < base ^ Z.of_nat n -> (0 < n <= fuel)%nat -> Z.of_nat n + 1 <= cap ->
  exists b, (buf <- digit_loop fuel cap x base [] ;; buf <- push_sign cap neg buf ;; put_back (length buf) buf) out = Ret tt (out ++ b) /\
    read_number base b = (if neg then - x else x) /\ (length b <= n + 1)%nat.
Proof.
  intros Hb Hx Hf Hcap. destruct (digit_loop_run n fuel cap x base [] out Hb Hx Hf) as (ds & Hrun & Hval & Hds & Hlen); [cbn; lia|]. cbn [app] in Hrun.
  rewrite (kbind_ret _ _ _ _ _ Hrun). unfold push_sign. rewrite (proj2 (Z.leb_gt _ _)) by lia.
  assert (forall ds' : list Z, put_back (length ds') ds' out = Ret tt (out ++ rev ds')) as Hput by (intros ds'; by rewrite put_back_run, firstn_all by lia).
  destruct neg; unfold kbind, kret; rewrite Hput; eexists; (split; [reflexivity|]).
  - rewrite rev_app_distr. cbn [rev app read_number]. rewrite Z.eqb_refl, read_rev, Hval. split; [done|]. cbn [length]. rewrite length_rev. lia.
  - split; [|rewrite length_rev; lia]. destruct (rev ds) as [|c t] eqn:E; [apply (f_equal length) in E; rewrite length_rev in E; cbn in E; lia|]. cbn [read_number].
    assert (is_digit base c) as [Hc _] by (apply (proj1 (Forall_forall (is_digit base) ds) Hds); apply list_elem_of_In, in_rev; rewrite E; by left).
    rewrite (proj2 (Z.eqb_neq _ _)) by done. by rewrite <- E, read_rev, Hval.
Qed.

Lemma u32_magnitude xx : - 2 ^ 31 <= xx < 2 ^ 31 -> 0 <= (if xx <? 0 then u32 (- xx) else u32 xx) < 2 ^ 32 /\
  (if xx <? 0 then - (if xx <? 0 then u32 (- xx) else u32 xx) else (if xx <? 0 then u32 (- xx) else u32 xx)) = xx.
Proof. intros Hx. destruct (Z.ltb_spec xx 0); rewrite u32_small by lia; lia. Qed.

Lemma u64_magnitude xx : - 2 ^ 63 <= xx < 2 ^ 63 -> 0 <= (if xx <? 0 then u64 (- xx) else u64 xx) < 2 ^ 64 /\
  (if xx <? 0 then - (if xx <? 0 then u64 (- xx) else u64 xx) else (if xx <? 0 then u64 (- xx) else u64 xx)) = xx.
Proof. intros Hx. destruct (Z.ltb_spec xx 0); rewrite u64_small by lia; lia. Qed.

Lemma printint_run xx base out : - 2 ^ 31 <= xx < 2 ^ 31 -> base = 10 \/ base = 16 ->
  exists b, printint xx base 1 out = Ret tt (out ++ b) /\ read_number base b = xx /\ (length b <= 11)%nat.
Proof.
  intros Hx Hb. destruct (u32_magnitude xx Hx) as [Hr He]. unfold printint. cbn [Z.eqb negb andb].
  destruct (print_number 10 32 16 (if xx <? 0 then u32 (- xx) else u32 xx) base (xx <? 0) out) as (b & Hrun & Hv & Hl);
    [lia|destruct Hb as [-> | ->]; [change (10 ^ Z.of_nat 10) with 10000000000|change (16 ^ Z.of_nat 10) with (2 ^ 40)]; lia|lia|lia|].
  exists b. split; [exact Hrun|]. split; [by rewrite Hv|lia].
Qed.

Lemma printint64_run xx out : - 2 ^ 63 <= xx < 2 ^ 63 ->
  exists b, printint64 xx 10 1 out = Ret tt (out ++ b) /\ read_number 10 b = xx /\ (length b <= 21)%nat.
Proof.
  intros Hx. destruct (u64_magnitude xx Hx) as [Hr He]. unfold printint64. cbn [Z.eqb negb andb].
  destruct (print_number 20 64 32 (if xx <? 0 then u64 (- xx) else u64 xx) 10 (xx <? 0) out) as (b & Hrun & Hv & Hl);
    [lia|change (10 ^ Z.of_nat 20) with 100000000000000000000; lia|lia|lia|].
  exists b. split; [exact Hrun|]. split; [by rewrite Hv|lia].
Qed.

(** The digits of a pointer. *)
Lemma ptr_loop_value n : forall x, 0 <= x < 2 ^ 64 -> (n <= 16)%nat -> read_digits 16 (ptr_loop n x) = x / 2 ^ (64 - 4 * Z.of_nat n) /\ length (ptr_loop n x) = n.
Proof.
  assert (forall l a, fold_left (fun a c => a * 16 + digit_val c) l a = a * 16 ^ Z.of_nat (length l) + read_digits 16 l) as Hacc.
  { unfold read_digits. induction l as [|c l IH]; intros a; cbn [fold_left length]; [cbn; lia|]. rewrite IH, (IH (0 * 16 + digit_val c)), Nat2Z.inj_succ, Z.pow_succ_r by lia. lia. }
  induction n as [|n IH]; intros x Hx Hn; cbn [ptr_loop].
  { split; [|done]. cbn. rewrite Z.div_small; lia. }
  destruct (IH (u64 (Z.shiftl x 4)) (u64_range _)) as [Hv Hl]; [lia|]. split; [|cbn; lia]. unfold read_digits. cbn [fold_left]. rewrite Hacc, Hl, Hv.
  rewrite Z.shiftr_div_pow2, Z.shiftl_mul_pow2 by lia. destruct (digit_of (x / 2 ^ 60) 16) as [Hd _]; [split; [apply Z.div_pos; lia|apply Z.div_lt_upper_bound; lia]|lia|].
  rewrite Hd. unfold u64. replace (64 - 4 * Z.of_nat (S n)) with (60 - 4 * Z.of_nat n) by lia.
  set (k := 60 - 4 * Z.of_nat n). replace (64 - 4 * Z.of_nat n) with (k + 4) by lia.
  assert (0 <= k) by lia. replace (x * 2 ^ 4 mod 2 ^ 64) with ((x mod 2 ^ 60) * 2 ^ 4) by (change (2 ^ 64) with (2 ^ 60 * 2 ^ 4); by rewrite Z.mul_mod_distr_r).
  rewrite Z.pow_add_r, Z.div_mul_cancel_r by lia. change 16 with (2 ^ 4). rewrite <- Z.pow_mul_r by lia.
  assert (2 ^ 60 = 2 ^ (4 * Z.of_nat n) * 2 ^ k) as E60 by (rewrite <- Z.pow_add_r by lia; f_equal; lia).
  pose proof (Z.div_mod x (2 ^ 60) ltac:(lia)) as Hdm. rewrite Hdm at 3. rewrite E60 at 3.
  replace (2 ^ (4 * Z.of_nat n) * 2 ^ k * (x / 2 ^ 60) + x mod 2 ^ 60) with (x mod 2 ^ 60 + (x / 2 ^ 60 * 2 ^ (4 * Z.of_nat n)) * 2 ^ k) by lia.
  rewrite Z.div_add by lia. lia.
Qed.

(** ** Both printers *)

Lemma digit_loop_down_run {S S' : Type} fuel : forall x base buf (s : S) (s' : S') b,
  digit_loop fuel 32 x base buf s = Ret b s -> digit_loop_down fuel x base (rev buf) s' = Ret (rev b) s'.
Proof.
  induction fuel as [|fuel IH]; intros x base buf s s' b; cbn [digit_loop digit_loop_down]; [done|]. rewrite length_rev. case_match; [done|].
  replace (nthZ digits (x mod base) :: rev buf) with (rev (buf ++ [nthZ digits (x mod base)])) by by rewrite rev_app_distr.
  case_match; [intros [= <-]; done|]. apply IH.
Qed.

Lemma fprint_int64_run xx out ws b : - 2 ^ 63 <= xx < 2 ^ 63 -> printint64 xx 10 1 out = Ret tt (out ++ b) -> __fprint_int64 xx 10 1 ws = Ret tt (ws ++ [b]).
Proof.
  intros Hx Hrun. destruct (u64_magnitude xx Hx) as [Hr _]. unfold printint64, __fprint_int64 in *. cbn [Z.eqb negb andb] in *. set (x := if xx <? 0 then u64 (- xx) else u64 xx) in *.
  destruct (digit_loop_run 20 64 32 x 10 [] out) as (ds & Hd & _ & _ & Hlen); [lia|change (10 ^ Z.of_nat 20) with 100000000000000000000; lia|lia|cbn; lia|].
  cbn [app] in Hd. rewrite (kbind_ret _ _ _ _ _ Hd) in Hrun. rewrite (kbind_ret _ _ _ _ _ (digit_loop_down_run 64 x 10 [] out ws ds Hd)). rewrite length_rev.
  unfold push_sign in Hrun. rewrite (proj2 (Z.leb_gt _ _)) in Hrun by lia. rewrite (proj2 (Z.leb_gt _ _)) by lia.
  destruct (xx <? 0); unfold kbind, kret in *; rewrite put_back_run, firstn_all in Hrun by lia; injection Hrun as Hrun%app_inv_head; subst b; [by rewrite rev_app_distr|done].
Qed.

(** C39. A number that is printed can be read back.  For every 64-bit number the
    console printer and the file printer put out the same bytes, at most 21 of the
    32 that their buffers have, and these are its decimal notation. *)
Theorem print_read_roundtrip xx out ws : - 2 ^ 63 <= xx < 2 ^ 63 ->
  exists b, printint64 xx 10 1 out = Ret tt (out ++ b) /\ __fprint_int64 xx 10 1 ws = Ret tt (ws ++ [b]) /\ read_number 10 b = xx /\ (length b <= 21)%nat.
Proof.
  intros Hx. destruct (printint64_run xx out Hx) as (b & Hrun & Hv & Hl). exists b. split; [exact Hrun|]. split; [by eapply fprint_int64_run|done].
Qed.

Lemma print_read_roundtrip_witness :
  exists b, printint64 (-9223372036854775808) 10 1 [] = Ret tt b /\ __fprint_int64 (-9223372036854775808) 10 1 [] = Ret tt [b] /\ read_number 10 b = -9223372036854775808.
Proof.
  destruct (print_read_roundtrip (-9223372036854775808) [] []) as (b & H1 & H2 & H3 & _); [lia|]. exists b. split; [exact H1|]. split; [exact H2|exact H3].
Defined.

(** ** Formats *)

(** A format in pieces: text, %d, %l, %x, %p, %s and %%. *)
Inductive piece := Text (s : list Z) | Dec (x : Z) | Long (x : Z) | Hex (x : Z) | Ptr (x : Z) | Str (s : option (list Z)) | Percent.

Definition fmt_of (p : piece) : list Z :=
  match p with
  | Text s => s
  | Dec _ => [PERCENT; 100] | Long _ => [PERCENT; 108] | Hex _ => [PERCENT; 120]
  | Ptr _ => [PERCENT; 112] | Str _ => [PERCENT; 115] | Percent => [PERCENT; PERCENT]
  end.
Definition args_of (p : piece) : list arg :=
  match p with
  | Dec x | Long x | Hex x => [AInt x]
  | Ptr x => [APtr x]
  | Str s => [AStr s]
  | _ => []
  end.
Definition piece_ok (p : piece) : Prop :=
  match p with
  | Text s => Forall (fun c => 0 < c < 256 /\ c <> PERCENT) s
  | Ptr x => 0 <= x < 2 ^ 64
  | _ => True
  end.

(** The bytes that a piece stands for. *)
Definition renders (p : piece) (b : list Z) : Prop :=
  match p with
  | Text s => b = s
  | Dec x => read_number 10 b = s32 x
  | Long x => read_number 10 b = s64 x
  | Hex x => read_number 16 b = s32 x
  | Ptr x => exists d, b = 48 :: 120 :: d /\ length d = 16%nat /\ read_digits 16 d = x
  | Str s => b = default null_str s
  | Percent => b = [PERCENT]
  end.

Lemma put_all_run s : forall out, put_all s out = Ret tt (out ++ s).
Proof. induction s as [|c s IH]; intros out; cbn [put_all]; [by rewrite app_nil_r|]. unfold kbind, putchar, kmodify. rewrite IH. by rewrite <- app_assoc. Qed.

Lemma text_run s : forall fuel pre rest ap out, Forall (fun c => 0 < c < 256 /\ c <> PERCENT) s ->
  vprintf_loop (length s + fuel) (pre ++ s ++ rest) (length pre) ap out = vprintf_loop fuel ((pre ++ s) ++ rest) (length (pre ++ s)) ap (out ++ s).
Proof.
  induction s as [|c s IH]; intros fuel pre rest ap out Hs; [by rewrite !app_nil_r|]. apply Forall_cons in Hs as [[Hc1 Hc2] Hs]. cbn [length Nat.add vprintf_loop app].
  rewrite list_lookup_middle by done. rewrite (proj2 (Z.eqb_neq c 0)), (proj2 (Z.eqb_neq _ _) Hc2) by lia. cbn [negb]. unfold kbind, putchar, kmodify.
  replace (pre ++ c :: s ++ rest) with ((pre ++ [c]) ++ s ++ rest) by by rewrite <- app_assoc. replace (S (length pre)) with (length (pre ++ [c])) by (rewrite length_app; cbn; lia).
  rewrite IH by done. by rewrite <- !app_assoc.
Qed.

Lemma spec_lookup (pre : list Z) c rest : (pre ++ PERCENT :: c :: rest) !! length pre = Some PERCENT /\ (pre ++ PERCENT :: c :: rest) !! S (length pre) = Some c.
Proof. split; [by apply list_lookup_middle|]. rewrite lookup_app_r by lia. by replace (S (length pre) - length pre)%nat with 1%nat by lia. Qed.

Lemma s32_range x : - 2 ^ 31 <= s32 x < 2 ^ 31.
Proof. ulia. Qed.
Lemma s64_range x : - 2 ^ 63 <= s64 x < 2 ^ 63.
Proof. ulia. Qed.

(** A piece that starts with a percent sign. *)
Lemma spec_run p fuel pre rest ap out : piece_ok p -> (forall s, p <> Text s) ->
  exists b, renders p b /\ vprintf_loop (S fuel) (pre ++ fmt_of p ++ rest) (length pre) (args_of p ++ ap) out =
    vprintf_loop fuel ((pre ++ fmt_of p) ++ rest) (length (pre ++ fmt_of p)) ap (out ++ b).
Proof.
  intros Hok Hne. assert (exists c, fmt_of p = [PERCENT; c]) as [c Hc] by (destruct p as [s| | | | | |]; [by destruct (Hne s)|by eexists..]).
  rewrite Hc. cbn [app]. rewrite <- (app_assoc pre). cbn [app]. replace (length (pre ++ [PERCENT; c])) with (S (S (length pre))) by (rewrite length_app; cbn; lia).
  cbn [vprintf_loop]. destruct (spec_lookup pre c rest) as [-> ->]. change (PERCENT =? 0) with false. rewrite Z.eqb_refl. cbn [negb].
  destruct p as [s|x|x|x|x|s|]; [by destruct (Hne s)|..]; injection Hc as <-; cbn [Z.eqb Pos.eqb PERCENT args_of app].
  - destruct (printint_run (s32 x) 10 out (s32_range x) (or_introl eq_refl)) as (b & Hrun & Hv & _). exists b. split; [exact Hv|]. by rewrite (kbind_ret _ _ _ _ _ Hrun).
  - destruct (printint64_run (s64 x) out (s64_range x)) as (b & Hrun & Hv & _). exists b. split; [exact Hv|]. by rewrite (kbind_ret _ _ _ _ _ Hrun).
  - destruct (printint_run (s32 x) 16 out (s32_range x) (or_intror eq_refl)) as (b & Hrun & Hv & _). exists b. split; [exact Hv|]. by rewrite (kbind_ret _ _ _ _ _ Hrun).
  - destruct (ptr_loop_value 16 x Hok) as [Hv Hl]; [lia|]. exists (48 :: 120 :: ptr_loop 16 x). split.
    + exists (ptr_loop 16 x). split; [done|]. split; [exact Hl|]. rewrite Hv. change (64 - 4 * Z.of_nat 16) with 0. apply Z.div_1_r.
    + rewrite (kbind_ret _ _ _ tt (out ++ 48 :: 120 :: ptr_loop 16 x)); [done|]. unfold printptr, kbind, putchar, kmodify. rewrite put_all_run. by rewrite <- !app_assoc.
  - exists (default null_str s). split; [done|]. by rewrite (kbind_ret _ _ _ _ _ (put_all_run _ _)).
  - exists [PERCENT]. split; reflexivity.
Qed.

Lemma pieces_run ps : forall fuel pre out, Forall piece_ok ps -> (length (concat (fmt_of <$> ps)) < fuel)%nat ->
  exists bs, Forall2 renders ps bs /\ vprintf_loop fuel (pre ++ concat (fmt_of <$> ps) ++ [0]) (length pre) (concat (args_of <$> ps)) out = Ret tt (out ++ concat bs).
Proof.
  induction ps as [|p ps IH]; intros fuel pre out Hok Hf.
  - exists []. split; [constructor|]. destruct fuel as [|fuel]; [cbn in Hf; lia|]. cbn [fmap list_fmap concat app vprintf_loop]. rewrite list_lookup_middle by done.
    cbn [Z.eqb]. by rewrite app_nil_r.
  - rewrite !fmap_cons in *. cbn [concat] in *. rewrite length_app in Hf. apply Forall_cons in Hok as [Hp Hok]. rewrite <- !(app_assoc (fmt_of p)).
    assert ((exists s, p = Text s) \/ forall s, p <> Text s) as [[s ->]|Hne] by (destruct p; (by left; eexists) || by right).
    + cbn [fmt_of args_of app] in *. destruct (IH (fuel - length s)%nat (pre ++ s) (out ++ s) Hok ltac:(lia)) as (bs & Hbs & Hrun). exists (s :: bs). split; [by constructor|].
      replace fuel with (length s + (fuel - length s))%nat at 1 by lia. rewrite text_run by done. rewrite Hrun. cbn [concat]. by rewrite <- app_assoc.
    + assert (length (fmt_of p) = 2%nat) as Hl by (destruct p as [s| | | | | |]; [by destruct (Hne s)|done..]). destruct fuel as [|fuel]; [lia|].
      destruct (spec_run p fuel pre (concat (fmt_of <$> ps) ++ [0]) (concat (args_of <$> ps)) out Hp Hne) as (b & Hb & Hrun).
      destruct (IH fuel (pre ++ fmt_of p) (out ++ b) Hok ltac:(lia)) as (bs & Hbs & Hrun'). exists (b :: bs). split; [by constructor|].
      rewrite Hrun, Hrun'. cbn [concat]. by rewrite <- app_assoc.
Qed.

(** A format made of pieces. *)
Lemma vprintf_pieces ps out : Forall piece_ok ps ->
  exists bs, Forall2 renders ps bs /\ __vprintf (concat (fmt_of <$> ps) ++ [0]) (concat (args_of <$> ps)) out = Ret 0 (out ++ concat bs).
Proof.
  intros Hok. destruct (pieces_run ps (S (length (concat (fmt_of <$> ps) ++ [0]))) [] out Hok) as (bs & Hbs & Hrun); [rewrite length_app; lia|].
  exists bs. split; [exact Hbs|]. unfold __vprintf. cbn [app length] in Hrun. by rewrite (kbind_ret _ _ _ _ _ Hrun).
Qed.

(** C40. [__vprintf] puts out its format piece by piece.  For a format made of text and
    the specifiers, with the arguments that they want, the output is the text as it
    is, numbers in a notation that reads back as the argument, 16 digits for a
    pointer, the bytes of a string; the buffers on the stack are never exceeded and
    nothing behind the format is read. *)
Theorem vprintf_correct ps out : Forall piece_ok ps ->
  exists bs, Forall2 renders ps bs /\ __vprintf (concat (fmt_of <$> ps) ++ [0]) (concat (args_of <$> ps)) out = Ret 0 (out ++ concat bs).
Proof. apply vprintf_pieces. Qed.

Lemma vprintf_correct_witness :
  exists bs, Forall2 renders [Text [65; 61]; Dec (-42); Percent; Ptr 0xbeef; Str None] bs /\
    __vprintf [65; 61; 37; 100; 37; 37; 37; 112; 37; 115; 0] [AInt (-42); APtr 0xbeef; AStr None] [] = Ret 0 (concat bs).
Proof.
  destruct (vprintf_correct [Text [65; 61]; Dec (-42); Percent; Ptr 0xbeef; Str None] []) as (bs & H1 & H2).
  - repeat constructor; unfold PERCENT; lia.
  - exists bs. split; [exact H1|exact H2].
Defined.

(** ** Where the printers differ *)

(** %x of the console is signed, that of a file is not: -1 is "-1" or 16 f. *)
Lemma hex_signs : __vprintf [37; 120; 0] [AInt (-1)] [] = Ret 0 [45; 49] /\ __fprintf [37; 120; 0] [AInt (-1)] [] = Ret tt [replicate 16 102; [0]].
Proof. split; by vm_compute. Qed.

(** %l is known to the console only: for a file the task fails. *)
Lemma long_fails : __vprintf [37; 108; 0] [AInt 7] [] = Ret 0 [55] /\ __fprintf [37; 108; 0] [AInt 7] [] = TaskFail [].
Proof. split; by vm_compute. Qed.

(** The final 0 of a format goes into the file. *)
Lemma terminator_written s ws : Forall (fun c => c <> 0 /\ c <> PERCENT) s -> __fprintf (s ++ [0]) [] ws = Ret tt (ws ++ [s ++ [0]]).
Proof.
  intros Hs. cbn [__fprintf]. assert (forall k fuel, (length s - k < fuel)%nat -> (k <= length s)%nat -> fprintf_end fuel (s ++ [0]) k ws = Ret tt (ws ++ [s ++ [0]])) as Hrun.
  { intros k fuel. revert k. induction fuel as [|fuel IH]; intros k Hf Hk; [lia|]. cbn [fprintf_end]. destruct (decide (k = length s)) as [->|Hne].
    - rewrite list_lookup_middle by done. cbn [Z.eqb]. unfold fwrite, kmodify. by rewrite firstn_all2 by (rewrite length_app; cbn; lia).
    - destruct (lookup_lt_is_Some_2 s k ltac:(lia)) as [c Hc]. rewrite (lookup_app_l_Some _ _ _ _ Hc). destruct (Forall_lookup_1 _ _ _ _ Hs Hc) as [H0 H1].
      rewrite (proj2 (Z.eqb_neq _ _) H0), (proj2 (Z.eqb_neq _ _) H1). cbn [negb]. apply IH; lia. }
  apply Hrun; rewrite ?length_app; cbn; lia.
Qed.

(** %% of a file uses up an argument, which the next specifier then lacks. *)
Lemma percent_eats_argument :
  __vprintf [37; 37; 37; 100; 0] [AInt 5] [] = Ret 0 [37; 53] /\ __fprintf [37; 37; 37; 100; 0] [AInt 5] [] = Ret tt [[37]; [37; 100; 0]].
Proof. split; by vm_compute. Qed.

(** A percent sign at the end: the console stops, the file printer reads behind the
    format. *)
Lemma percent_at_end : __vprintf [65; 37; 0] [] [] = Ret 0 [65] /\ __fprintf [65; 37; 0] [] [] = Panic /\ __fprintf [65; 37; 0] [AInt 1] [] = Panic.
Proof. split_and!; by vm_compute. Qed.
