(* ===== verification/OpenFile.v ===== *)
(** * Open files (src/os/fs/file.h, utils/buffer.h, drivers/console.h)

    A file has an inode, an offset and the flag of its lock.  What it needs of an
    inode is the interface [InodeOps] with the promises of [InodeSpec]; the inode
    of the nfs file system keeps them.  The mutex of the inode ([get] and [put] of
    referenceable_buffer) is a flag of the state: a task that takes it twice waits
    for itself, which is an error here.

    The theorem says that a file is a stream: reads, writes, seeks and tells give
    what they would on an array of bytes with a position. *)
From S2P Require Import Prelude NfsBlock NfsInode NfsRep NfsData NfsFile NfsMeta NfsTable NfsDir.

(** ** Inodes *)

Class InodeOps (S : Type) := {
  ino_load : K S unit;
  ino_read : Z -> Z -> K S (Z * list Z);
  ino_write : list Z -> Z -> K S Z;
  ino_size : K S Z
}.

(** What an inode promises: [ino_ok s z f] says that the inode is in order, its
    size is [z] and it holds the bytes [f].  A failed write has written a prefix. *)
Class InodeSpec (S : Type) {O : InodeOps S} := {
  ino_ok : S -> Z -> (Z -> Z) -> Prop;
  ino_size_range s z f : ino_ok s z f -> 0 <= z < 2 ^ 32;
  ino_load_spec s z f : ino_ok s z f -> ino_load s = Ret tt s;
  ino_size_spec s z f : ino_ok s z f -> ino_size s = Ret z s;
  ino_read_spec s z f off size : ino_ok s z f -> 0 <= off -> 0 <= size -> off + size < 2 ^ 32 ->
    kspec (ino_read off size s) (fun r s' => r = (size, slice f off (Z.to_nat size)) /\ ino_ok s' z f) (fun s' => ino_ok s' z f);
  ino_write_spec s z f off bs : ino_ok s z f -> bytes bs -> 0 <= off -> off + Z.of_nat (length bs) < 2 ^ 32 ->
    kspec (ino_write bs off s)
      (fun r s' => r = Z.of_nat (length bs) /\ ino_ok s' (Z.max z (off + Z.of_nat (length bs))) (overwrite f off bs))
      (fun s' => exists c, ino_ok s' z (overwrite f off (take c bs)))
}.

(** ** Files *)

Inductive whence_t := SET | CUR | END.

(** A file with the state [ino] of its inode; [held] is the mutex of the inode. *)
Record simple_file (S : Type) := SimpleFile { ino : S; held : bool; has_inode : bool; offset : Z; opened : bool; in_rw : bool }.
Arguments SimpleFile {S}.
Arguments ino {S}. Arguments held {S}. Arguments has_inode {S}. Arguments offset {S}. Arguments opened {S}. Arguments in_rw {S}.

Section file.
Context {S : Type} {O : InodeOps S}.
Local Notation F := (K (simple_file S)).

Definition set_ino (x : S) (f : simple_file S) : simple_file S := SimpleFile x (held f) (has_inode f) (offset f) (opened f) (in_rw f).
Definition set_held (b : bool) (f : simple_file S) : simple_file S := SimpleFile (ino f) b (has_inode f) (offset f) (opened f) (in_rw f).
Definition set_offset (o : Z) (f : simple_file S) : simple_file S := SimpleFile (ino f) (held f) (has_inode f) o (opened f) (in_rw f).
Definition set_in_rw (b : bool) (f : simple_file S) : simple_file S := SimpleFile (ino f) (held f) (has_inode f) (offset f) (opened f) b.

(** An operation of the inode; a null inode is an error. *)
Definition on_ino {A : Type} (op : K S A) : F A := fun f =>
  if has_inode f then
    match op (ino f) with
    | Ret a x => Ret a (set_ino x f)
    | TaskFail x => TaskFail (set_ino x f)
    | Panic => Panic
    | OutOfFuel => OutOfFuel
    end
  else Panic.

(** [referenceable_buffer::get] and [put]. *)
Definition inode_get : F unit := fun f => if held f then Panic else (kmodify (set_held true) ;;; on_ino ino_load) f.
Definition inode_put : F unit := fun f => if has_inode f then Ret tt (set_held false f) else Panic.

(** [__file_rw_lock], for the file itself. *)
Definition __rw_lock : F unit := f <- kget ;; if negb (in_rw f) then inode_get else kret tt.
Definition __rw_unlock : F unit := f <- kget ;; if negb (in_rw f) then inode_put else kret tt.

(** [file_rw_lock], for users that do several operations. *)
Definition lock_off : F unit := kmodify (set_in_rw true).
Definition lock_on : F unit := kmodify (set_in_rw false).
Definition file_lock : F unit := __rw_lock ;;; kmodify (set_in_rw true).
Definition file_unlock : F unit := kmodify (set_in_rw false) ;;; __rw_unlock.

(** The constructor, the destructor, [open] and [close]. *)
Definition new_simple_file (i : S) : simple_file S := SimpleFile i false true 0 false false.
Definition destroy_simple_file : F unit := f <- kget ;; if opened f then kpanic else kret tt.
Definition file_open : F Z :=
  kmodify (fun f => SimpleFile (ino f) (held f) (has_inode f) 0 true (in_rw f)) ;;; kret 0.
Definition file_close : F Z :=
  kmodify (fun f => SimpleFile (ino f) (held f) false (offset f) false (in_rw f)) ;;; kret 0.

(** Only a positive result moves the offset. *)
Definition move_offset (ret : Z) : F unit := if 0 <? ret then kmodify (fun f => set_offset (u64 (offset f + ret)) f) else kret tt.

Definition file_read (size : Z) : F (Z * list Z) :=
  __rw_lock ;;;
  f <- kget ;;
  '(ret, buf) <- on_ino (ino_read (offset f) size) ;;
  __rw_unlock ;;;
  move_offset ret ;;;
  kret (ret, buf).

Definition file_write (buf : list Z) : F Z :=
  __rw_lock ;;;
  f <- kget ;;
  ret <- on_ino (ino_write buf (offset f)) ;;
  __rw_unlock ;;;
  move_offset ret ;;;
  kret ret.

Definition file_llseek (off : Z) (whence : whence_t) : F Z :=
  match whence with
  | SET => kmodify (set_offset (u64 off))
  | CUR => kmodify (fun f => set_offset (u64 (offset f + off)) f)
  | END => size <- on_ino ino_size ;; kmodify (set_offset (u64 (size + off)))
  end ;;;
  f <- kget ;;
  kret (s64 (offset f)).

Definition file_tell : F Z := f <- kget ;; kret (s64 (offset f)).

(** [fprintf_nolock] and [fprintf] around a body; [fprintf] makes the task of the
    lock and drops it, so that nothing of [lock] runs. *)
Definition fprintf_nolock {A : Type} (body : F A) : F unit := lock_off ;;; body ;;; lock_on.
Definition fprintf {A : Type} (body : F A) : F unit := body ;;; file_unlock.
End file.

(** ** The console (drivers/console.h)

    Its inode is one of the base class: [__load] answers with an error that [load]
    does not look at, [read] and [write] are not permitted, there is no metadata.
    The file reads and writes the serial line itself. *)
Record console_state := ConsoleState { input : list Z; output : list Z }.

Definition console_getchar : K console_state Z := fun c =>
  match input c with
  | [] => Ret (-1) c
  | x :: rest => Ret x (ConsoleState rest (output c))
  end.
Fixpoint console_read (n : nat) : K console_state (list Z) :=
  match n with
  | O => kret []
  | S n' => c <- console_getchar ;; cs <- console_read n' ;; kret (u8 c :: cs)
  end.
Fixpoint console_write (buf : list Z) : K console_state unit :=
  match buf with
  | [] => kret tt
  | c :: buf' => kmodify (fun s => ConsoleState (input s) (output s ++ [c])) ;;; console_write buf'
  end.
#[export] Instance base_inode : InodeOps console_state := {
  ino_load := kret tt;
  ino_read _ _ := kret (- EPERM, []);
  ino_write _ _ := kret (- EPERM);
  ino_size := kpanic
}.
Definition console_file_read (size : Z) : K (simple_file console_state) (Z * list Z) :=
  __rw_lock ;;; cs <- on_ino (console_read (Z.to_nat size)) ;; __rw_unlock ;;; kret (size, cs).
Definition console_file_write (buf : list Z) : K (simple_file console_state) Z :=
  __rw_lock ;;; on_ino (console_write buf) ;;; __rw_unlock ;;; kret (Z.of_nat (length buf)).

(** ** Streams *)

Inductive op_t := Read (size : Z) | Write (buf : list Z) | Seek (off : Z) (whence : whence_t) | Tell.
Record stream := Stream { s_size : Z; s_byte : Z -> Z; s_pos : Z }.

(** What an operation answers: a number and, for a read, the bytes. *)
Definition answer : Type := Z * list Z.

Definition run_op {S : Type} {O : InodeOps S} (o : op_t) : K (simple_file S) answer :=
  match o with
  | Read size => file_read size
  | Write buf => r <- file_write buf ;; kret (r, [])
  | Seek off whence => r <- file_llseek off whence ;; kret (r, [])
  | Tell => r <- file_tell ;; kret (r, [])
  end.
Fixpoint run_ops {S : Type} {O : InodeOps S} (os : list op_t) : K (simple_file S) (list answer) :=
  match os with
  | [] => kret []
  | o :: os' => a <- run_op o ;; rest <- run_ops os' ;; kret (a :: rest)
  end.

Definition seek_to (st : stream) (off : Z) (whence : whence_t) : Z :=
  match whence with SET => off | CUR => s_pos st + off | END => s_size st + off end.

(** The operations of an array of bytes with a position. *)
Definition stream_op (o : op_t) (st : stream) : answer * stream :=
  let '(Stream z f pos) := st in
  match o with
  | Read size => (size, slice f pos (Z.to_nat size), Stream z f (pos + size))
  | Write buf =>
      let pos' := pos + Z.of_nat (length buf) in
      (Z.of_nat (length buf), [], Stream (Z.max z pos') (overwrite f pos buf) pos')
  | Seek off whence => (seek_to st off whence, [], Stream z f (seek_to st off whence))
  | Tell => (pos, [], st)
  end.
Fixpoint stream_ops (os : list op_t) (st : stream) : list answer * stream :=
  match os with
  | [] => ([], st)
  | o :: os' => let '(a, st') := stream_op o st in let '(rest, st'') := stream_ops os' st' in (a :: rest, st'')
  end.

(** Operations that stay below the 2^32 bytes of a file. *)
Definition legal (o : op_t) (st : stream) : Prop :=
  match o with
  | Read size => 0 <= size /\ s_pos st + size < 2 ^ 32
  | Write buf => bytes buf /\ s_pos st + Z.of_nat (length buf) < 2 ^ 32
  | Seek off whence => - 2 ^ 63 <= off < 2 ^ 63 /\ 0 <= seek_to st off whence < 2 ^ 32
  | Tell => True
  end.
Fixpoint all_legal (os : list op_t) (st : stream) : Prop :=
  match os with [] => True | o :: os' => legal o st /\ all_legal os' (stream_op o st).2 end.

Section streams.
Context {S : Type} {O : InodeOps S} {Spec : InodeSpec S}.

(** The file shows the stream: its inode is in order, and its mutex is free unless
    the user of the file holds the lock. *)
Record shows (F : simple_file S) (st : stream) : Prop := {
  sh_ino : ino_ok (ino F) (s_size st) (s_byte st);
  sh_has : has_inode F = true;
  sh_free : in_rw F = false -> held F = false;
  sh_pos : offset F = s_pos st;
  sh_range : 0 <= s_pos st < 2 ^ 32
}.

(** A file of which the operation [o] has failed: the position is the one before,
    a write has written a prefix, and the mutex has not been given back. *)
Definition stopped_in (o : op_t) (st : stream) (F : simple_file S) : Prop :=
  (in_rw F = false -> held F = true) /\ offset F = s_pos st /\
  exists c, ino_ok (ino F) (s_size st)
    (match o with Write buf => overwrite (s_byte st) (s_pos st) (take c buf) | _ => s_byte st end).

Lemma rw_lock_run F st :
  shows F st -> exists h, __rw_lock F = Ret tt (set_held h F) /\ (in_rw F = false -> h = true).
Proof.
  intros [Hok Hi Hfree _ _]. unfold __rw_lock, kbind at 1, kget. destruct (in_rw F) eqn:E; cbn [negb].
  - exists (held F). split; [by destruct F|done].
  - exists true. split; [|done]. unfold inode_get. rewrite (Hfree eq_refl). unfold kbind, kmodify, on_ino, set_held.
    cbn. rewrite Hi, (ino_load_spec _ _ _ Hok). by destruct F; cbn in *; subst.
Qed.

Lemma rw_unlock_run (F : simple_file S) : has_inode F = true ->
  exists h, __rw_unlock F = Ret tt (set_held h F) /\ (in_rw F = false -> h = false).
Proof.
  intros Hi. unfold __rw_unlock, kbind, kget. destruct (in_rw F) eqn:E; cbn [negb].
  - exists (held F). split; [by destruct F|done].
  - exists false. split; [|done]. unfold inode_put. by rewrite Hi.
Qed.

(** An operation of the inode between lock and unlock. *)
Lemma locked_spec {A B : Type} F st (op : Z -> K S A) (g k : A -> K (simple_file S) B) (mid : A -> S -> Prop) post (fail : S -> Prop) :
  shows F st -> kspec (op (s_pos st) (ino F)) mid fail -> (forall a, g a = (__rw_unlock ;;; k a)) ->
  (forall a x h, mid a x -> (in_rw F = false -> h = false) -> kspec (k a (set_held h (set_ino x F))) post
    (fun F' => exists x, fail x /\ exists h, (in_rw F = false -> h = true) /\ F' = set_held h (set_ino x F))) ->
  kspec ((__rw_lock ;;; f <- kget ;; a <- on_ino (op (offset f)) ;; g a) F) post
    (fun F' => exists x, fail x /\ exists h, (in_rw F = false -> h = true) /\ F' = set_held h (set_ino x F)).
Proof.
  intros Hsh Hop Hg Hk. destruct (rw_lock_run F st Hsh) as (h & E & Hh). destruct Hsh as [Hok Hi Hfree Hpos Hr].
  rewrite (kbind_ret _ _ _ _ _ E). unfold kbind at 1, kget. unfold kbind at 1, on_ino. cbn [set_held has_inode ino offset].
  rewrite Hi, Hpos. destruct (op (s_pos st) (ino F)) as [a x|x| |]; cbn in Hop; try done.
  - destruct (rw_unlock_run (set_ino x (set_held h F))) as (h' & E' & Hh'); [done|].
    rewrite Hg, (kbind_ret _ _ _ _ _ E'). cbn in Hh'. by apply (Hk a x h').
  - cbn. exists x. split; [done|]. by exists h.
Qed.

Lemma move_offset_run r (F : simple_file S) : 0 <= r -> 0 <= offset F -> offset F + r < 2 ^ 64 ->
  move_offset r F = Ret tt (set_offset (offset F + r) F).
Proof.
  intros Hr Ho Hs. unfold move_offset. destruct (0 <? r) eqn:E; [apply Z.ltb_lt in E|apply Z.ltb_ge in E].
  - unfold kmodify. by rewrite u64_small by lia.
  - assert (r = 0) as -> by lia. rewrite Z.add_0_r. by destruct F.
Qed.

Lemma read_op_spec F st size : shows F st -> legal (Read size) st ->
  kspec (run_op (Read size) F) (fun a F' => a = (stream_op (Read size) st).1 /\ shows F' (stream_op (Read size) st).2)
    (stopped_in (Read size) st).
Proof.
  intros Hsh [Hs1 Hs2]. pose proof Hsh as [Hok Hi Hfree Hpos Hr]. cbn [run_op]. unfold file_read. eapply kspec_mono.
  - apply (locked_spec F st (fun off => ino_read off size) _ (fun a => move_offset a.1 ;;; kret a)
      _ (fun a F' => a = (stream_op (Read size) st).1 /\ shows F' (stream_op (Read size) st).2) _ Hsh
      (ino_read_spec _ _ _ _ _ Hok (proj1 Hr) Hs1 Hs2)); [by intros [??]|].
    intros a x h [-> Hx] Hh. cbn [fst]. erewrite kbind_ret by (apply move_offset_run; cbn; lia). cbn.
    split; [by destruct st|]. destruct st as [z f pos]. split; cbn in *; try done; lia.
  - done.
  - intros F' (x & Hx & h & Hh & ->). split_and!; [done|done|]. by exists 0%nat.
Qed.

Lemma write_op_spec F st buf : shows F st -> legal (Write buf) st ->
  kspec (run_op (Write buf) F) (fun a F' => a = (stream_op (Write buf) st).1 /\ shows F' (stream_op (Write buf) st).2)
    (stopped_in (Write buf) st).
Proof.
  intros Hsh [Hs1 Hs2]. pose proof Hsh as [Hok Hi Hfree Hpos Hr]. cbn [run_op]. eapply kspec_bind.
  - unfold file_write. eapply kspec_mono.
    + apply (locked_spec F st (ino_write buf) _ (fun a => move_offset a ;;; kret a)
        _ (fun a F' => a = Z.of_nat (length buf) /\ shows F' (stream_op (Write buf) st).2) _ Hsh
        (ino_write_spec _ _ _ _ _ Hok Hs1 (proj1 Hr) Hs2)); [done|].
      intros a x h [-> Hx] Hh. erewrite kbind_ret by (apply move_offset_run; cbn; lia). cbn.
      split; [done|]. destruct st as [z f pos]. split; cbn in *; try done; lia.
    + by intros a F' H; apply H.
    + intros F' (x & [c Hx] & h & Hh & ->). split_and!; [done|done|]. by exists c.
  - intros a F' [-> Hsh']. cbn. by destruct st.
Qed.

Lemma seek_op_spec F st off whence : shows F st -> legal (Seek off whence) st ->
  exists F', run_op (Seek off whence) F = Ret (stream_op (Seek off whence) st).1 F' /\
    shows F' (stream_op (Seek off whence) st).2.
Proof.
  intros [Hok Hi Hfree Hpos Hr] [Ho Hs]. destruct st as [z f pos]. cbn in Hok, Hpos, Hr.
  exists (set_offset (seek_to (Stream z f pos) off whence) F). split.
  - assert (u64 (seek_to (Stream z f pos) off whence) = seek_to (Stream z f pos) off whence) as Hu
      by (apply u64_small; lia).
    assert (s64 (seek_to (Stream z f pos) off whence) = seek_to (Stream z f pos) off whence) as Hv
      by (unfold s64; rewrite Z.mod_small; lia).
    cbn [run_op stream_op]. unfold file_llseek, kbind, kmodify, kget, kret, on_ino.
    destruct whence; cbn [seek_to s_pos s_size] in *; rewrite ?Hpos, ?Hi, ?(ino_size_spec _ _ _ Hok), Hu; cbn; rewrite Hv; try done.
  - by split.
Qed.

Lemma tell_op_spec F st : shows F st -> run_op Tell F = Ret (stream_op Tell st).1 F.
Proof.
  intros [Hok Hi Hfree Hpos Hr]. destruct st as [z f pos]. cbn in *. unfold file_tell, kbind, kget, kret.
  rewrite Hpos. do 2 f_equal. unfold s64. rewrite Z.mod_small; lia.
Qed.

(** One operation. *)
Lemma file_op_spec o F st : shows F st -> legal o st ->
  kspec (run_op o F) (fun a F' => a = (stream_op o st).1 /\ shows F' (stream_op o st).2) (stopped_in o st).
Proof.
  intros Hsh Hl. destruct o as [size|buf|off whence|].
  - by apply read_op_spec.
  - by apply write_op_spec.
  - destruct (seek_op_spec F st off whence Hsh Hl) as (F' & -> & Hsh'). done.
  - rewrite (tell_op_spec F st Hsh). by destruct st.
Qed.

(** Operations one after the other; a failure is the failure of one of them, in
    the stream that the ones before have made. *)
Lemma run_ops_spec os F st : shows F st -> all_legal os st ->
  kspec (run_ops os F) (fun r F' => r = (stream_ops os st).1 /\ shows F' (stream_ops os st).2)
    (fun F' => exists os1 o os2, os = os1 ++ o :: os2 /\ stopped_in o (stream_ops os1 st).2 F').
Proof.
  revert F st. induction os as [|o os IH]; intros F st Hsh Hl; [done|]. destruct Hl as [Hl Hls]. cbn [run_ops].
  eapply kspec_seq; [by apply file_op_spec|..].
  - intros F' Hst. by exists [], o, os.
  - intros a F' [-> Hsh']. cbn [stream_ops]. destruct (stream_op o st) as [a st'] eqn:E. cbn in *.
    eapply kspec_seq; [by apply IH|..].
    + intros F'' (os1 & o' & os2 & -> & Hst). exists (o :: os1), o', os2. split; [done|]. cbn. rewrite E.
      by destruct (stream_ops os1 st').
    + intros r F'' [-> Hsh'']. cbn. by destruct (stream_ops os st').
Qed.
End streams.

(** ** The inode of the nfs file system *)

#[export] Instance nfs_inode (n : Z) : InodeOps fs := {
  ino_load := inode_load n;
  ino_read := inode_read n;
  ino_write := inode_write n;
  ino_size := i <- the_inode n ;; kret (i_size i)
}.

(** A loaded inode of [s] with the bytes [f]. *)
Definition nfs_file (n : Z) (s : fs) (z : Z) (f : Z -> Z) : Prop :=
  exists i l, file_ok s n i l /\ i_valid i = true /\ i_size i = z /\ 0 <= z < 2 ^ 32 /\
    forall pos, 0 <= pos -> file_byte s i l pos = f pos.

Lemma nfs_load_run n s z f : nfs_file n s z f -> inode_load n s = Ret tt s.
Proof.
  intros (i & l & Hok & Hv & _). unfold inode_load, kbind, the_inode. by rewrite (fo_inode _ _ _ _ Hok), Hv.
Qed.

Lemma becomes_nfs_file n s i l s' z f g :
  file_becomes s n i l s' g -> i_valid i = true -> i_size i = z -> 0 <= z < 2 ^ 32 ->
  (forall pos, 0 <= pos -> g pos = f pos) -> nfs_file n s' z f.
Proof.
  intros (i' & l' & Hok' & Hf' & Hm & _) Hv Hz Hr Hg. exists i', l'. unfold meta in Hm.
  split_and!; [done|congruence|congruence|lia|lia|]. intros pos Hpos. by rewrite Hf', Hg.
Qed.

#[export] Program Instance nfs_inode_spec (n : Z) : InodeSpec fs (O := nfs_inode n) := {
  ino_ok := nfs_file n
}.
Next Obligation. by intros n s z f (i & l & _ & _ & _ & Hz & _). Qed.
Next Obligation. intros n s z f H. by apply (nfs_load_run n s z f). Qed.
Next Obligation.
  intros n s z f (i & l & Hok & _ & Hz & _). cbn. unfold kbind, the_inode, kret. by rewrite (fo_inode _ _ _ _ Hok), Hz.
Qed.
Next Obligation.
  intros n s z f off size H Ho Hs Hr. cbn. unfold inode_read. rewrite (kbind_ret _ _ _ _ _ (nfs_load_run _ _ _ _ H)).
  destruct H as (i & l & Hok & Hv & Hz & Hzr & Hf). eapply kspec_mono; [apply (file_read_spec s n i l off size Hok); lia|..].
  - intros r s' [-> Hb]. split; [|by apply (becomes_nfs_file n s i l s' z f _ Hb)].
    f_equal. apply slice_ext. intros pos Hpos. apply Hf. lia.
  - intros s' [Hb _]. by apply (becomes_nfs_file n s i l s' z f _ Hb).
Qed.
Next Obligation.
  intros n s z f off bs H Hbs Ho Hr. cbn. unfold inode_write. rewrite (kbind_ret _ _ _ _ _ (nfs_load_run _ _ _ _ H)).
  destruct H as (i & l & Hok & Hv & Hz & Hzr & Hf). eapply kspec_mono; [apply (write_loaded_spec s n i l bs off Hok Hbs); lia|..].
  - intros r s' (-> & i' & l' & Hok' & Hf' & Hv' & _ & _ & Hz' & _). split; [done|]. exists i', l'.
    rewrite u64_small, u32_small, Hz in Hz' by lia.
    split_and!; [done|congruence|destruct (_ <? _) eqn:E; lia|lia|lia|].
    intros pos Hpos. rewrite Hf' by done. apply overwrite_ext. by apply Hf.
  - intros s' [(c & Hb & _) _]. exists c. eapply (becomes_nfs_file n s i l s' z _ _ Hb); [done..|]. intros pos Hpos. apply overwrite_ext. by apply Hf.
Qed.

(** ** The claims *)

(** C27. An open file is a stream.  Whatever reads, writes, seeks and tells are done
    on it one after the other, as long as the positions stay below the 2^32 bytes
    of a file they answer what an array of bytes with a size and a position
    answers, the file shows the array that results, and the mutex of the inode is
    free again after each.  When the disk is full the task fails in one of the
    operations; the ones before have had their effect, a failed write has written
    a prefix, the position has not moved, and the mutex is still held. *)
Theorem file_is_stream n os (F : simple_file fs) st :
  shows (O := nfs_inode n) F st -> all_legal os st ->
  kspec (run_ops (O := nfs_inode n) os F)
    (fun r F' => r = (stream_ops os st).1 /\ shows (O := nfs_inode n) F' (stream_ops os st).2)
    (fun F' => exists os1 o os2, os = os1 ++ o :: os2 /\ stopped_in (O := nfs_inode n) o (stream_ops os1 st).2 F').
Proof. apply run_ops_spec. Qed.

(** A file on the empty inode 5 of the small disk, just opened. *)
Definition demo_file : simple_file fs := SimpleFile demo_fs false true 0 true false.
Definition demo_stream : stream := Stream 0 (file_byte demo_fs empty_inode []) 0.
Definition demo_ops : list op_t := [Write [104; 105]; Seek 0 SET; Read 2; Tell; Seek (-1) END].

Lemma demo_file_opened : file_open (new_simple_file demo_fs) = Ret 0 demo_file.
Proof. reflexivity. Qed.

Lemma demo_file_shows : shows (O := nfs_inode 5) demo_file demo_stream.
Proof.
  split; cbn; try done. exists empty_inode, []. split_and!; [exact demo_empty_ok|done|done|lia|lia|done].
Qed.

Lemma demo_answers : (stream_ops demo_ops demo_stream).1 = [(2, []); (0, []); (2, [104; 105]); (2, []); (1, [])].
Proof. vm_compute. reflexivity. Qed.

Lemma file_is_stream_witness :
  kspec (run_ops (O := nfs_inode 5) demo_ops demo_file)
    (fun r F' => r = [(2, []); (0, []); (2, [104; 105]); (2, []); (1, [])] /\
       shows (O := nfs_inode 5) F' (stream_ops demo_ops demo_stream).2)
    (fun F' => exists os1 o os2, demo_ops = os1 ++ o :: os2 /\
       stopped_in (O := nfs_inode 5) o (stream_ops os1 demo_stream).2 F').
Proof.
  rewrite <- demo_answers. apply (file_is_stream 5 demo_ops demo_file demo_stream); [exact demo_file_shows|].
  cbn. split_and!; first [exact hello_bytes | lia | done].
Defined.

(** ** Where files do less than they seem to *)

(** After a failed operation the mutex has no owner that would give it back: the
    next operation on the inode waits for ever. *)
Lemma failed_file_stuck {S : Type} `{InodeSpec S} o st (F : simple_file S) size :
  stopped_in o st F -> in_rw F = false -> file_read size F = Panic.
Proof.
  intros (Hh & _) Hrw. unfold file_read, __rw_lock, kbind, kget. rewrite Hrw. cbn [negb].
  unfold inode_get. by rewrite (Hh Hrw).
Qed.

(** [fprintf] does not take the lock that it gives back: the lock of whoever holds
    the inode is gone after it. *)
Lemma fprintf_drops_lock {S : Type} {O : InodeOps S} (F : simple_file S) :
  has_inode F = true -> fprintf (kret tt) F = Ret tt (set_held false (set_in_rw false F)).
Proof.
  intros Hi. unfold fprintf, file_unlock, __rw_unlock, kbind, kmodify, kget, kret, inode_put. cbn. by rewrite Hi.
Qed.

(** A position before the start is taken, as one near 2^64. *)
Lemma seek_before_start {S : Type} {O : InodeOps S} (F : simple_file S) :
  file_llseek (-1) SET F = Ret (-1) (set_offset (2 ^ 64 - 1) F).
Proof. reflexivity. Qed.

(** A closed file has no inode. *)
Lemma closed_file_read {S : Type} {O : InodeOps S} (F : simple_file S) size :
  (file_close ;;; file_read size) F = Panic.
Proof.
  unfold file_close, file_read, __rw_lock, kbind, kmodify, kget, kret. cbn. destruct (in_rw F); cbn; [done|].
  unfold inode_get. cbn. by destruct (held F).
Qed.

(** ** The console *)

Lemma console_write_run buf c :
  console_write buf c = Ret tt (ConsoleState (input c) (output c ++ buf)).
Proof.
  revert c. induction buf as [|x buf IH]; intros c; cbn; [rewrite app_nil_r; by destruct c|].
  unfold kbind, kmodify. rewrite IH. cbn. by rewrite <- app_assoc.
Qed.

(** A read takes what has been typed; for what has not it stores the byte 255. *)
Lemma console_read_run n c : bytes (input c) ->
  console_read n c = Ret (take n (input c ++ replicate n 255)) (ConsoleState (drop n (input c)) (output c)).
Proof.
  revert c. induction n as [|n IH]; intros [inp out] Hb; cbn; [done|].
  unfold kbind, console_getchar, kret. cbn. destruct inp as [|x inp].
  - rewrite (IH (ConsoleState [] out)) by constructor. cbn. by rewrite drop_nil.
  - apply Forall_cons in Hb as [Hx Hb]. rewrite (IH (ConsoleState inp out)) by done. cbn. f_equal. f_equal.
    + apply u8_small. lia.
    + change (255 :: replicate n 255) with (replicate (S n) 255). rewrite replicate_S_end, app_assoc, (take_app_le _ [255]); [done|].
      rewrite length_app, length_replicate. lia.
Qed.

(** The file of the console writes the whole buffer and gives the lock back. *)
Lemma console_file_write_run buf c :
  console_file_write buf (SimpleFile c false true 0 false false) =
  Ret (Z.of_nat (length buf)) (SimpleFile (ConsoleState (input c) (output c ++ buf)) false true 0 false false).
Proof.
  unfold console_file_write, kbind, on_ino, __rw_lock, kget, inode_get, kmodify. cbn. by rewrite console_write_run.
Qed.
