(* ===== verification/ProcStart.v ===== *)
(** * How processes begin (src/os/proc/process.cc)

    The constructor of [kernel_process] makes a stack with a copy of the argument
    and a context; the first [swtch] to the context calls the function of the
    process.  [test_load_elf] loads a binary into a user process, puts the
    arguments of [main] on its stack and opens the console as its first three
    files.  The theorems follow both up to the first instruction. *)
From S2P Require Import Prelude Process Virtio Memory CString Riscv PageAlloc Vmem PageTable UserCopy UserSpace Elf Cpu Trap TrapProof TrapStart.

(** ** Kernel processes *)

Definition sizeof_context : Z := 120.

(** The constructor: [ctx] is the address of [_context], [caller] that of
    [__kernel_function_caller]; the results are [stack_bottom_va] and [_state]. *)
Definition kernel_process_init (caller func arg arg_size ctx : Z) : K machine (Z * pstate) :=
  stack_pa <- alloc_page ;;
  if stack_pa =? 0 then kret (0, INIT)
  else
    let stack_bottom_va := u64 (stack_pa + PGSIZE) in
    let stack_top_va := if arg =? 0 then stack_bottom_va else u64 (stack_bottom_va - arg_size) in
    (if arg =? 0 then kret tt
     else kmodify (set_ram (fun m => memcpy m stack_top_va arg (Z.to_nat arg_size)))) ;;;
    kmodify (set_ram (fun m => memset m ctx 0 (Z.to_nat sizeof_context))) ;;;
    kmodify (set_ram (fun m => store64 m (ctx + ctx_off RA) caller)) ;;;
    kmodify (set_ram (fun m => store64 m (ctx + ctx_off SP) stack_top_va)) ;;;
    kmodify (set_ram (fun m => store64 m (ctx + 112) func)) ;;;
    kret (stack_bottom_va, WAKEN_UP).

(** [kernel_process] object and argument lie outside the free pages. *)
Definition off_pages (l : list Z) (a len : Z) : Prop := forall p, p ∈ l -> a + len <= p \/ p + 4096 <= a.

(** The memory that the constructor leaves behind. *)
Definition started_ram (m : memory) (caller func arg arg_size ctx p : Z) : memory :=
  let top := p + 4096 - arg_size in
  store64 (store64 (store64 (memset (memcpy m top arg (Z.to_nat arg_size)) ctx 0 120) (ctx + 0) caller) (ctx + 8) top) (ctx + 112) func.

Section kernel.
Context (s : machine) (p : Z) (l : list Z) (caller func arg arg_size ctx : Z).
Context (Hpg : pages_inv s (p :: l)).
Context (Hcall : 0 <= caller < 2 ^ 64) (Hfunc : 0 <= func < 2 ^ 64) (Harg : 0 < arg) (Hsize : 0 <= arg_size <= 4096).
Context (Hoffc : off_pages (p :: l) ctx 120) (Hoffa : off_pages (p :: l) arg arg_size).

Local Notation m' := (started_ram (ram s) caller func arg arg_size ctx p).

Lemma stack_page : p mod 4096 = 0 /\ 0 < p < 2 ^ 56.
Proof. destruct (pages_inv_free_pages _ _ p Hpg) as [[Hal _] Hr]; [by left|]. done. Qed.

Lemma started_ctx : load64 m' ctx = caller /\ load64 m' (ctx + 8) = p + 4096 - arg_size /\ load64 m' (ctx + 112) = func.
Proof.
  pose proof stack_page. unfold started_ram. cbv zeta. split_and!.
  - rewrite !load64_store64_ne by lia. rewrite Z.add_0_r. by apply load64_store64_eq.
  - rewrite load64_store64_ne by lia. apply load64_store64_eq. lia.
  - by apply load64_store64_eq.
Qed.

(** Outside the new stack and the context nothing changes. *)
Lemma started_other a : ~ ctx <= a < ctx + 120 -> ~ p + 4096 - arg_size <= a < p + 4096 -> rd8 m' a = rd8 (ram s) a.
Proof.
  intros Hc Hs. unfold started_ram. cbv zeta. rewrite !(store_other 8), memset_other by lia.
  unfold memcpy. rewrite copy_up_spec by (destruct (Hoffa p ltac:(by left)); lia). rewrite decide_False by lia. done.
Qed.

Lemma started_arg : rd_bytes (Z.to_nat arg_size) m' (p + 4096 - arg_size) = rd_bytes (Z.to_nat arg_size) (ram s) arg.
Proof.
  destruct (Hoffa p ltac:(by left)), (Hoffc p ltac:(by left));
  (rewrite <- (memcpy_disjoint (ram s) (p + 4096 - arg_size) arg) by lia; apply rd_bytes_agree; intros a Ha;
   unfold started_ram; cbv zeta; by rewrite !(store_other 8), memset_other by lia).
Qed.

Lemma kernel_process_init_run :
  exists s', kernel_process_init caller func arg arg_size ctx s = Ret (p + 4096, WAKEN_UP) s' /\
    ram s' = m' /\ pages_inv s' l.
Proof.
  pose proof stack_page as [Hal Hr]. destruct (alloc_page_correct s (p :: l) Hpg) as (s1 & Hrun & Hpg1 & Hram & _).
  exists (set_ram (fun _ => m') s1). split_and!.
  - unfold kernel_process_init. rewrite (kbind_ret _ _ _ _ _ Hrun), (proj2 (Z.eqb_neq p 0)), (proj2 (Z.eqb_neq arg 0)) by lia.
    unfold PGSIZE. rewrite !u64_small by (rewrite ?u64_small by lia; lia). unfold kbind, kmodify, kret, set_ram. cbn. by rewrite Hram.
  - done.
  - destruct Hpg1 as [P1 P2 P3 P4 P5]. split; try done. cbn. rewrite <- Hram in *. eapply free_list_agree; [|exact P2]. intros q Hq.
    apply load_agree. intros a Ha. rewrite Hram. apply started_other.
    + destruct (Hoffc q ltac:(by right)); lia.
    + pose proof (pi_nodup _ _ Hpg) as [Hn _]%NoDup_cons. destruct (pages_inv_free_pages _ _ q Hpg) as [[Hqal _] _]; [by right|].
      unfold PGSIZE in *. assert (q <> p) by congruence. zlia.
Qed.
End kernel.

(** C24. A kernel process begins with its function.  The constructor takes one page
    for the stack and leaves the other free pages alone; whatever hart first
    switches to the context arrives at the caller of the function, with the
    function as its first argument and, as its second, the address of a copy of
    the argument of the process, which is also the top of the new stack. *)
Theorem kernel_process_starts s p l caller func arg arg_size ctx :
  pages_inv s (p :: l) -> 0 <= caller < 2 ^ 64 -> 0 <= func < 2 ^ 64 -> 0 < arg -> 0 <= arg_size <= 4096 ->
  off_pages (p :: l) ctx 120 -> off_pages (p :: l) arg arg_size ->
  exists s', kernel_process_init caller func arg arg_size ctx s = Ret (p + 4096, WAKEN_UP) s' /\ pages_inv s' l /\
    forall t old, tm t = s' -> can_switch t old ctx -> off_pages [p] old 120 ->
      exists t', swtch t = Ret tt t' /\ pc (th t') = caller /\ gpr (th t') A0 = func /\ gpr (th t') A1 = gpr (th t') SP /\
        gpr (th t') SP = p + 4096 - arg_size /\
        rd_bytes (Z.to_nat arg_size) (ram (tm t')) (gpr (th t') A1) = rd_bytes (Z.to_nat arg_size) (ram s) arg.
Proof.
  intros Hpg Hcall Hfunc Harg Hsize Hoffc Hoffa.
  destruct (kernel_process_init_run s p l caller func arg arg_size ctx) as (s' & Hrun & Hram & Hpg'); [done..|].
  destruct (started_ctx s p l caller func arg arg_size ctx) as (Hra & Hsp & Ha0); [done..|].
  pose proof (started_arg s p l caller func arg arg_size ctx Hsize Hoffc Hoffa) as Hbytes.
  exists s'. split; [exact Hrun|]. split; [exact Hpg'|]. intros t old Ht Hcan Hold. specialize (Hold p ltac:(by left)).
  destruct (swtch_run t old ctx Hcan) as (t' & Hsw & Hpc & Hregs & _ & Hother & HA0 & HA1). rewrite Ht, Hram in *.
  assert (gpr (th t') SP = p + 4096 - arg_size) as HSP by (rewrite Hregs by (apply (bool_decide_unpack _); done); exact Hsp).
  exists t'. split; [exact Hsw|]. split_and!; [congruence|congruence|congruence|exact HSP|].
  rewrite HA1, Hsp, <- Hbytes. apply rd_bytes_agree. intros a Ha. apply Hother. lia.
Qed.

(** A process whose argument is the 8 bytes at 0x200, with its context at 0x100. *)
Definition wide_tail : list Z := (fun i => 0x1000 * (3 + i)) <$> seqZ 0 11.
Definition demo_kernel_machine : machine :=
  match kernel_process_init 0x80200500 0x80200600 0x200 8 0x100 UserLife.wide with Ret _ s => s | _ => UserLife.wide end.
Definition demo_switcher : trapst :=
  TrapSt (Hart (upd_reg A0 0x300 (upd_reg A1 0x100 (fun _ => 0))) 0 Supervisor (Csrs 0 0 0 0 0 0 0 0 0 0)) demo_kernel_machine
    (Plic ∅ [] []) None (UProc 0 0 [] false false []).

Lemma wide_off a len : a + len <= 0x2000 -> off_pages (0x2000 :: wide_tail) a len.
Proof.
  intros Ha q [->|(i & -> & Hi%elem_of_seqZ)%list_elem_of_fmap]%elem_of_cons; left; lia.
Qed.

Lemma kernel_process_starts_witness :
  exists t', swtch demo_switcher = Ret tt t' /\ pc (th t') = 0x80200500 /\ gpr (th t') A0 = 0x80200600 /\ gpr (th t') A1 = 0x2ff8.
Proof.
  destruct (kernel_process_starts UserLife.wide 0x2000 wide_tail 0x80200500 0x80200600 0x200 8 0x100) as (s' & Hrun & _ & Hsw);
    [exact UserLife.wide_pages|lia..|apply wide_off; lia|apply wide_off; lia|].
  destruct (Hsw demo_switcher 0x300) as (t' & H1 & H2 & H3 & H4 & H5 & _).
  - unfold demo_switcher, demo_kernel_machine. cbn [tm]. by rewrite Hrun.
  - split; [reflexivity|reflexivity| |intros _; apply bare_region; lia|lia|intros m _; apply bare_region; lia].
    intros _ r. cbn [demo_switcher th gpr]. unfold upd_reg. repeat case_decide; lia.
  - intros q ->%list_elem_of_singleton. left. lia.
  - exists t'. split; [exact H1|]. split; [exact H2|]. split; [exact H3|]. rewrite H4, H5. reflexivity.
Defined.

(** ** User processes *)

(** A user process: its address space and what the scheduler knows of it. *)
Definition uprocess : Type := uspace * process.
Definition on_space {A : Type} (op : K uspace A) : K uprocess A := fun s =>
  match op (fst s) with
  | Ret a u => Ret a (u, snd s)
  | TaskFail u => TaskFail (u, snd s)
  | Panic => Panic
  | OutOfFuel => OutOfFuel
  end.
Definition on_process (f : process -> process) : K uprocess unit := kmodify (fun s => (fst s, f (snd s))).

(** The string of the program's name with its final 0. *)
Definition hello_world : list Z := [104; 101; 108; 108; 111; 95; 119; 111; 114; 108; 100; 0].

(** A local variable with the bytes [bs] at [at_], copied to the stack of the user at [sp]. *)
Definition push_bytes (at_ : Z) (bs : list Z) (sp : Z) : K uprocess Z :=
  on_space (
    vm (kmodify (set_ram (fun m => wr_bytes m at_ bs))) ;;;
    u <- kget ;;
    vm (copyout (copy_fuel (Z.of_nat (length bs))) (pagetable u) sp at_ (Z.of_nat (length bs)))).

(** [test_load_elf] after the loader: the arguments of [main] go on the stack.  The
    local variables are at [name_at], [argv0_at] and [argc_at]. *)
Definition start_rest (name_at argv0_at argc_at bottom : Z) : K uprocess Z :=
  let sp := u64 (bottom - Z.of_nat (length hello_world)) in
  ret <- push_bytes name_at hello_world sp ;;
  if ret <? 0 then kret ret
  else
    let argv0 := sp in
    let sp := u64 (sp - 8) in
    ret <- push_bytes argv0_at (le_bytes 8 argv0) sp ;;
    if ret <? 0 then kret ret
    else
      let sp := u64 (sp - 8) in
      ret <- push_bytes argc_at (le_bytes 8 1) sp ;;
      if ret <? 0 then kret ret
      else
        on_space (u <- kget ;; vm (kmodify (set_ram (fun m => store64 m (trapframe_pa u + TRAPFRAME_SP) sp)))) ;;;
        on_process (set_state WAKEN_UP) ;;;
        kret 0.

(** [test_load_elf], under the lock of the process; [console] is the address of the
    console file.  The function it sets to be run next is user_trap_ret. *)
Definition test_load_elf (console name_at argv0_at argc_at start size : Z) : K uprocess Z :=
  ret <- on_space (__load_elf start size) ;;
  if ret <? 0 then kret ret
  else
    on_process (fun e => set_files (<[2%nat := Some console]> (<[1%nat := Some console]> (<[0%nat := Some console]> (files e)))) e) ;;;
    s <- kget ;;
    start_rest name_at argv0_at argc_at (stack_bottom_va (fst s)).

(** The loader keeps the stack. *)
Definition same_stack (u u' : uspace) : Prop := stack_bottom_va u' = stack_bottom_va u.

#[export] Instance same_stack_refl : Reflexive same_stack.
Proof. done. Qed.
#[export] Instance same_stack_trans : Transitive same_stack.
Proof. intros u1 u2 u3. unfold same_stack. congruence. Qed.

Lemma vm_stack {A : Type} (op : K machine A) : krel same_stack (vm op).
Proof. intros u a u'. unfold vm. destruct (op (um u)); try done. by intros [= <- <-]. Qed.
Lemma kget_stack : krel same_stack kget.
Proof. by intros u a u' [= <- <-]. Qed.
Lemma infos_stack f : krel same_stack (kmodify (fun u => set_infos (f u) u)).
Proof. by intros u a u' [= <- <-]. Qed.
Lemma bounds_stack f g : krel same_stack (kmodify (fun u => set_bounds (f u) (g u) u)).
Proof. by intros u a u' [= <- <-]. Qed.
#[local] Hint Resolve vm_stack kget_stack infos_stack bounds_stack : krel.

Lemma mmap_loop_stack fuel va va_end flags : krel same_stack (mmap_loop fuel va va_end flags).
Proof. revert va. induction fuel as [|fuel IH]; intros va; cbn [mmap_loop]; krel. Qed.
#[local] Hint Resolve mmap_loop_stack : krel.

Lemma mmap_stack va size flags perm : krel same_stack (mmap va size flags perm).
Proof. unfold mmap. krel. Qed.
#[local] Hint Resolve mmap_stack : krel.

Lemma load_segment_stack start size ph : krel same_stack (load_segment start size ph).
Proof. unfold load_segment. krel. Qed.
#[local] Hint Resolve load_segment_stack : krel.

Lemma load_segments_stack fuel start size ph i : krel same_stack (load_segments fuel start size ph i).
Proof. revert i. induction fuel as [|fuel IH]; intros i; cbn [load_segments]; krel. Qed.
#[local] Hint Resolve load_segments_stack : krel.

Lemma load_elf_stack start size : krel same_stack (__load_elf start size).
Proof. unfold __load_elf. krel. Qed.

(** ** Writes to the memory of the user and of the kernel *)

(** Memory of the kernel: no table, not free, and out of reach of the user. *)
Definition kernel_only (s : machine) (root : Z) (T : gmap Z (nat * Z)) (l : list Z) (a : Z) : Prop :=
  apart T l a /\ forall va, user_va (ram s) root va -> user_pa (ram s) root va <> a.

(** From [s] to [s'] the user's bytes change to those of [W], the kernel's only in [P]. *)
Record ustep (root : Z) (T : gmap Z (nat * Z)) (l : list Z) (W : Z -> option Z) (P : Z -> Prop) (s s' : machine) : Prop := {
  us_ok : uok s' root T l;
  us_tr : forall va, 0 <= va < MAXVA -> translate (ram s') root va = translate (ram s) root va;
  us_byte : forall va, user_va (ram s) root va -> user_byte (ram s') root va = default (user_byte (ram s) root va) (W va);
  us_kernel : forall a, kernel_only s root T l a -> ~ P a -> rd8 (ram s') a = rd8 (ram s) a
}.

Lemma user_va_iff m m' root va :
  (forall va, 0 <= va < MAXVA -> translate m' root va = translate m root va) -> user_va m' root va <-> user_va m root va.
Proof. intros Htr. split; intros [Hr Hu]; split; try done; [by rewrite <- Htr|by rewrite Htr]. Qed.

Lemma user_pa_same m m' root va :
  (forall va, 0 <= va < MAXVA -> translate m' root va = translate m root va) -> user_va m root va ->
  user_pa m' root va = user_pa m root va.
Proof. intros Htr [Hr _]. unfold user_pa, user_page. by rewrite Htr. Qed.

Section usteps.
Context {root : Z} {T : gmap Z (nat * Z)} {l : list Z}.

Lemma ustep_kernel_only W P s s' a : ustep root T l W P s s' -> kernel_only s' root T l a <-> kernel_only s root T l a.
Proof.
  intros [_ Htr _ _]. split; intros [Ha Hu]; (split; [done|]); intros va Hva.
  - rewrite <- (user_pa_same (ram s) (ram s')) by done. by apply Hu, (user_va_iff (ram s) (ram s')).
  - apply (user_va_iff (ram s)) in Hva; [|done]. rewrite (user_pa_same (ram s)) by done. by apply Hu.
Qed.

Lemma ustep_trans W1 P1 W2 P2 s1 s2 s3 :
  ustep root T l W1 P1 s1 s2 -> ustep root T l W2 P2 s2 s3 ->
  ustep root T l (fun va => match W2 va with Some x => Some x | None => W1 va end) (fun a => P1 a \/ P2 a) s1 s3.
Proof.
  intros H1 H2. pose proof (fun a => ustep_kernel_only _ _ _ _ a H1) as Hk. destruct H1 as [A1 A2 A3 A4], H2 as [B1 B2 B3 B4].
  split; [done|by intros va Hva; rewrite B2, A2|..].
  - intros va Hva. rewrite B3 by by apply (user_va_iff (ram s1)). rewrite A3 by done. by destruct (W2 va).
  - intros a Ha HP. rewrite B4, A4; [done|done|tauto|by apply Hk|tauto].
Qed.

(** A write to memory of the kernel. *)
Lemma ustep_private s f (P : Z -> Prop) :
  uok s root T l -> (forall a, P a -> kernel_only s root T l a) -> (forall a, ~ P a -> rd8 (f (ram s)) a = rd8 (ram s) a) ->
  ustep root T l (fun _ => None) P s (set_ram f s).
Proof.
  intros Hu HP Hf.
  assert (tables_agree T (ram s) (f (ram s))) as Hag.
  { intros t Ht b Hr. apply Hf. intros Hin. destruct (proj1 (proj1 (HP b Hin)) t Ht); lia. }
  assert (vm_ok (set_ram f s) root T l) as Hv.
  { apply vm_data_write; [apply Hu|done|]. intros p Hp. apply load_agree. intros b Hr. apply Hf. intros Hin. apply (proj2 (proj1 (HP b Hin)) p Hp). lia. }
  destruct (uok_data s (set_ram f s) root T l Hu Hv Hag eq_refl) as [Hu' Htr]. split; [done|done| |].
  - intros va Hva. unfold user_byte. rewrite (user_pa_same (ram s)) by done. apply Hf. intros Hin. by apply (proj2 (HP _ Hin) va).
  - intros a _ Ha. by apply Hf.
Qed.

(** A copy to the user. *)
Lemma ustep_data s s' va len f :
  uok s root T l -> (forall a, va <= a < va + len -> user_va (ram s) root a) -> data_step s s' root T l va len f ->
  ustep root T l (fun a => if decide (va <= a < va + len) then Some (f a) else None) (fun _ => False) s s'.
Proof.
  intros Hu Hr Hd. split; [apply Hd|apply Hd|..].
  - intros a Ha. rewrite (ds_byte s s' root T l va len f a) by done. by case_decide.
  - intros a [_ Ha] _. apply (ds_out _ _ _ _ _ _ _ _ Hd). intros va' Hva' ->. by apply (Ha va'); [apply Hr|].
Qed.
End usteps.

Lemma ustep_ext root T l W W' (P P' : Z -> Prop) s s' :
  ustep root T l W P s s' -> (forall va, W va = W' va) -> (forall a, P a -> P' a) -> ustep root T l W' P' s s'.
Proof.
  intros [A1 A2 A3 A4] HW HP. split; [done|done|by intros va Hva; rewrite <- HW; apply A3|]. intros a Ha Hn. apply A4; auto.
Qed.

(** The bytes [bs] at [lo]. *)
Definition window (lo : Z) (bs : list Z) (a : Z) : option Z := if decide (lo <= a) then bs !! Z.to_nat (a - lo) else None.

Lemma window_in lo bs a : is_Some (window lo bs a) <-> lo <= a < lo + Z.of_nat (length bs).
Proof. unfold window. case_decide; rewrite ?lookup_lt_is_Some; [lia|]. split; [by intros []|lia]. Qed.

Lemma push_bytes_spec u e T l at_ bs sp :
  uok (um u) (pagetable u) T l -> Forall (fun b => 0 <= b < 256) bs ->
  (forall a, at_ <= a < at_ + Z.of_nat (length bs) -> kernel_only (um u) (pagetable u) T l a) ->
  (forall a, sp <= a < sp + Z.of_nat (length bs) -> user_va (ram (um u)) (pagetable u) a) -> 0 <= sp -> sp + Z.of_nat (length bs) <= MAXVA ->
  exists s', push_bytes at_ bs sp (u, e) = Ret 0 (set_um s' u, e) /\
    ustep (pagetable u) T l (window sp bs) (fun a => at_ <= a < at_ + Z.of_nat (length bs)) (um u) s'.
Proof.
  intros Hu Hbs Hk Hr Hsp Hmax.
  assert (ustep (pagetable u) T l (fun _ => None) (fun a => at_ <= a < at_ + Z.of_nat (length bs)) (um u)
    (set_ram (fun m => wr_bytes m at_ bs) (um u))) as Hs1.
  { apply ustep_private; [done|done|]. intros a Ha. apply wr_bytes_other. lia. }
  pose proof (us_tr _ _ _ _ _ _ _ Hs1) as Htr. set (s1 := set_ram (fun m => wr_bytes m at_ bs) (um u)) in *.
  assert (forall a, sp <= a < sp + Z.of_nat (length bs) -> user_va (ram s1) (pagetable u) a) as Hr1.
  { intros a Ha. apply (user_va_iff (ram (um u))); auto. }
  destruct (copyout_step s1 (pagetable u) T l sp at_ (Z.of_nat (length bs))) as (s2 & Hrun & Hd);
    [apply Hs1|apply user_va_range; [apply Hs1|done..]|lia| |].
  { intros k Hk' Hin. apply (proj2 (proj2 (ustep_kernel_only _ _ _ _ _ Hs1) (Hk _ Hin)) (sp + k)); [apply Hr1; lia|done]. }
  exists s2. split.
  - unfold push_bytes, on_space, vm, kbind, kmodify, kget. cbn [fst snd um set_um pagetable]. fold s1. by rewrite Hrun.
  - eapply ustep_ext; [eapply ustep_trans; [exact Hs1|apply (ustep_data s1 s2 sp _ _ (us_ok _ _ _ _ _ _ _ Hs1) Hr1 Hd)]| |by intros a [|[]]].
    intros va. cbv beta. case_decide as Hin; [|by destruct (window sp bs va) eqn:E; [destruct Hin; apply window_in; eexists|]].
    destruct (proj2 (window_in sp bs va) Hin) as [x Hx]. rewrite Hx. f_equal. unfold window in Hx. rewrite decide_True in Hx by lia.
    cbn [s1 set_ram ram]. rewrite (wr_bytes_inside _ _ _ _ x); [|lia|by replace (at_ + (va - sp) - at_) with (va - sp) by lia].
    apply u8_small. apply (proj1 (Forall_lookup _ _) Hbs _ _ Hx).
Qed.

Lemma window_app lo b1 b2 a :
  window lo (b1 ++ b2) a = match window lo b1 a with Some x => Some x | None => window (lo + Z.of_nat (length b1)) b2 a end.
Proof.
  unfold window. destruct (decide (lo <= a)); [|by rewrite decide_False by lia].
  destruct (b1 !! Z.to_nat (a - lo)) as [x|] eqn:E; [by apply lookup_app_l_Some|]. apply lookup_ge_None in E.
  rewrite lookup_app_r, decide_True by lia. f_equal. lia.
Qed.

Lemma le_bytes_ok n v : Forall (fun b => 0 <= b < 256) (le_bytes n v) /\ length (le_bytes n v) = n.
Proof. unfold le_bytes. split; [apply rd_bytes_range|apply length_rd_bytes]. Qed.

(** What [main] finds on its stack: the number of arguments, the address of the
    name, and the name. *)
Definition main_stack (bottom : Z) : list Z := le_bytes 8 1 ++ le_bytes 8 (bottom - 12) ++ hello_world.

Lemma length_main_stack bottom : length (main_stack bottom) = 28%nat.
Proof. unfold main_stack. by rewrite !length_app, !(proj2 (le_bytes_ok _ _)). Qed.

(** The local variables of [test_load_elf] and the stack pointer of the trap frame. *)
Definition start_writes (u : uspace) (name_at argv0_at argc_at a : Z) : Prop :=
  name_at <= a < name_at + 12 \/ argv0_at <= a < argv0_at + 8 \/ argc_at <= a < argc_at + 8 \/
  trapframe_pa u + TRAPFRAME_SP <= a < trapframe_pa u + TRAPFRAME_SP + 8.

Section args.
Context (u : uspace) (e : process) (T : gmap Z (nat * Z)) (l : list Z) (name_at argv0_at argc_at bottom : Z).
Context (Hu : uok (um u) (pagetable u) T l) (Hb : 28 <= bottom <= MAXVA).
Context (Hk : forall a, start_writes u name_at argv0_at argc_at a -> kernel_only (um u) (pagetable u) T l a).
Context (Hr : forall a, bottom - 28 <= a < bottom -> user_va (ram (um u)) (pagetable u) a).

(** A push when the machine has come to [s]. *)
Lemma push_on s W P at_ bs sp :
  ustep (pagetable u) T l W P (um u) s -> Forall (fun b => 0 <= b < 256) bs ->
  (forall a, at_ <= a < at_ + Z.of_nat (length bs) -> start_writes u name_at argv0_at argc_at a) ->
  bottom - 28 <= sp -> sp + Z.of_nat (length bs) <= bottom ->
  exists s', push_bytes at_ bs sp (set_um s u, e) = Ret 0 (set_um s' u, e) /\
    ustep (pagetable u) T l (fun va => match window sp bs va with Some x => Some x | None => W va end)
      (fun a => P a \/ at_ <= a < at_ + Z.of_nat (length bs)) (um u) s'.
Proof.
  intros Hs Hbs Hat H1 H2. destruct (push_bytes_spec (set_um s u) e T l at_ bs sp) as (s' & Hrun & Hst).
  - apply Hs.
  - done.
  - intros a Ha. apply (ustep_kernel_only _ _ _ _ _ Hs), Hk, Hat, Ha.
  - intros a Ha. apply (user_va_iff (ram (um u))); [apply Hs|apply Hr; lia].
  - lia.
  - lia.
  - exists s'. split; [exact Hrun|]. by apply (ustep_trans _ _ _ _ _ _ _ Hs).
Qed.

Lemma start_rest_run :
  exists s', start_rest name_at argv0_at argc_at bottom (u, e) = Ret 0 (set_um s' u, set_state WAKEN_UP e) /\
    ustep (pagetable u) T l (window (bottom - 28) (main_stack bottom)) (start_writes u name_at argv0_at argc_at) (um u) s' /\
    load64 (ram s') (trapframe_pa u + TRAPFRAME_SP) = bottom - 28.
Proof.
  assert (MAXVA < 2 ^ 64) as Hmax by done.
  assert (ustep (pagetable u) T l (fun _ => None) (fun _ => False) (um u) (um u)) as H0 by by split.
  assert (Forall (fun b => 0 <= b < 256) hello_world) as Hn by (repeat constructor; lia).
  destruct (le_bytes_ok 8 (bottom - 12)) as [Ha Hal], (le_bytes_ok 8 1) as [Hc Hcl].
  destruct (push_on _ _ _ name_at hello_world (bottom - 12) H0 Hn) as (s1 & R1 & H1); [cbn; unfold start_writes; lia|lia|cbn; lia|].
  destruct (push_on _ _ _ argv0_at (le_bytes 8 (bottom - 12)) (bottom - 20) H1 Ha) as (s2 & R2 & H2); rewrite ?Hal; [unfold start_writes; lia|lia|lia|].
  destruct (push_on _ _ _ argc_at (le_bytes 8 1) (bottom - 28) H2 Hc) as (s3 & R3 & H3); rewrite ?Hcl; [unfold start_writes; lia|lia|lia|].
  rewrite ?Hal, ?Hcl in *.
  exists (set_ram (fun m => store64 m (trapframe_pa u + TRAPFRAME_SP) (bottom - 28)) s3). split_and!.
  - unfold start_rest. change (Z.of_nat (length hello_world)) with 12. rewrite !(u64_small (bottom - 12)) by lia.
    rewrite (kbind_ret _ _ _ 0 (set_um s1 u, e)) by (destruct u; exact R1). cbn [Z.ltb Z.compare].
    replace (bottom - 12 - 8) with (bottom - 20) by lia. rewrite !(u64_small (bottom - 20)) by lia. rewrite (kbind_ret _ _ _ _ _ R2). cbn [Z.ltb Z.compare].
    replace (bottom - 20 - 8) with (bottom - 28) by lia. rewrite !(u64_small (bottom - 28)) by lia. by rewrite (kbind_ret _ _ _ _ _ R3).
  - eapply ustep_ext; [eapply ustep_trans; [exact H3|]|..].
    + apply (ustep_private s3 _ (fun a => trapframe_pa u + TRAPFRAME_SP <= a < trapframe_pa u + TRAPFRAME_SP + 8)); [apply H3|..].
      * intros a Ha'. apply (ustep_kernel_only _ _ _ _ _ H3), Hk. unfold start_writes. lia.
      * intros a Ha'. apply (store_other 8). lia.
    + intros va. cbv beta iota. unfold main_stack. rewrite !window_app, Hcl, Hal.
      replace (bottom - 28 + Z.of_nat 8) with (bottom - 20) by lia. replace (bottom - 20 + Z.of_nat 8) with (bottom - 12) by lia.
      destruct (window (bottom - 28) (le_bytes 8 1) va); [done|]. destruct (window (bottom - 20) _ va); [done|]. by destruct (window (bottom - 12) hello_world va).
    + unfold start_writes. cbn. lia.
  - apply load64_store64_eq. lia.
Qed.
End args.

(** The memory that [test_load_elf] needs: the loader's, the local variables in
    memory of the kernel, not on the trap frame, and a stack for the user. *)
Record start_memory (u : uspace) (T : gmap Z (nat * Z)) (l : list Z) (name_at argv0_at argc_at start size : Z) : Prop := {
  sm_elf : elf_memory u T l start size;
  sm_private : forall a, start_writes u name_at argv0_at argc_at a -> kernel_only (um u) (pagetable u) T l a;
  sm_epc : forall a, start_writes u name_at argv0_at argc_at a -> ~ trapframe_pa u + TRAPFRAME_EPC <= a < trapframe_pa u + TRAPFRAME_EPC + 8;
  sm_bottom : 28 <= stack_bottom_va u <= MAXVA;
  sm_stack : forall a, stack_bottom_va u - 28 <= a < stack_bottom_va u -> user_va (ram (um u)) (pagetable u) a
}.

(** C23. A user process is made ready to run.  When a well-formed binary is loaded
    into it, [test_load_elf] returns 0 and the process is woken up with the console
    as its files 0, 1 and 2.  Its segments are in memory as the headers say, its
    stack holds the number of arguments, the address of the name and the name, in
    the place that the stack pointer of the trap frame names, the program counter
    of the trap frame is the entry point, and what else the user could reach is as
    it was. *)
Theorem test_load_elf_correct u e T l console name_at argv0_at argc_at start size :
  let m := ram (um u) in let segs := segments m start in let bottom := stack_bottom_va u in
  uok (um u) (pagetable u) T l -> elf_ok m start size -> start_memory u T l name_at argv0_at argc_at start size ->
  room_for u segs -> (3 * total_pages segs < length l)%nat ->
  exists u' T' l', test_load_elf console name_at argv0_at argc_at start size (u, e) =
      Ret 0 (u', set_state WAKEN_UP (set_files (<[2%nat := Some console]> (<[1%nat := Some console]> (<[0%nat := Some console]> (files e)))) e)) /\
    uok (um u') (pagetable u') T' l' /\
    (forall ph va, ph ∈ segs -> seg_lo ph <= va < seg_hi ph -> user_byte (ram (um u')) (pagetable u') va = seg_byte m start ph va) /\
    (forall va, user_va m (pagetable u) va -> user_byte (ram (um u')) (pagetable u') va =
      default (user_byte m (pagetable u) va) (window (bottom - 28) (main_stack bottom) va)) /\
    load64 (ram (um u')) (trapframe_pa u' + TRAPFRAME_SP) = bottom - 28 /\
    load64 (ram (um u')) (trapframe_pa u' + TRAPFRAME_EPC) = e_entry (header_at m start).
Proof.
  intros m segs bottom Hu Helf [M1 M2 M3 M4 M5] Hroom Hfree.
  destruct (load_elf_spec u T l start size Hu Helf M1 Hroom Hfree) as (u1 & T1 & l1 & Hrun & Hpt & Hu1 & Hseg & Htr & Hkeep & Hepc & Hap & Hpriv & Htf).
  pose proof (load_elf_stack start size u 0 u1 Hrun) as Hsb. unfold same_stack in Hsb.
  assert (forall va, user_va m (pagetable u) va -> forall ph, ph ∈ segs -> ~ seg_lo ph <= va < seg_hi ph) as Hout.
  { intros va (_ & x & Hx & _) ph Hin Hva. unfold m in Hx. by rewrite (Hroom ph va Hin Hva) in Hx. }
  assert (forall va, user_va m (pagetable u) va -> user_va (ram (um u1)) (pagetable u1) va) as Huva.
  { intros va Hva. pose proof Hva as (Hra & x & Hx & Hbit). split; [done|]. exists x. split; [|done]. rewrite Htr; [done|done|by apply Hout]. }
  assert (forall a, kernel_only (um u) (pagetable u) T l a -> kernel_only (um u1) (pagetable u1) T1 l1 a) as Hko.
  { intros a [Ha Hno]. split; [by apply Hap|by apply Hpriv]. }
  destruct (start_rest_run u1 (set_files (<[2%nat := Some console]> (<[1%nat := Some console]> (<[0%nat := Some console]> (files e)))) e) T1 l1
    name_at argv0_at argc_at bottom Hu1 M4) as (s' & Hrest & Hst & Hsp).
  { intros a Ha. apply Hko, M2. unfold start_writes in *. by rewrite Htf in Ha. }
  { intros a Ha. by apply Huva, M5. }
  exists (set_um s' u1), T1, l1. split_and!.
  - unfold test_load_elf. rewrite (kbind_ret _ _ _ 0 (u1, e)) by (unfold on_space; cbn [fst snd]; by rewrite Hrun). cbn [Z.ltb Z.compare].
    unfold kbind, on_process, kmodify, kget. cbn [fst snd]. rewrite Hsb. exact Hrest.
  - apply Hst.
  - intros ph va Hin Hva. destruct (Hseg ph va Hin Hva) as [(p & Hp & Hpte) Hby]. cbn [set_um um pagetable].
    pose proof (proj1 (Forall_forall _ _) (eo_segs _ _ _ Helf) ph Hin) as Hg%seg_geometry.
    destruct (pages_inv_free_pages _ _ p (vm_pages _ _ _ _ (uo_vm _ _ _ _ Hu)) Hp) as [[Hal _] Hpr].
    destruct (map_pte_user _ _ va _ _ ltac:(lia) Hpr Hal Hpte) as [Huv _].
    rewrite (us_byte _ _ _ _ _ _ _ Hst va Huv). destruct (window (bottom - 28) (main_stack bottom) va) eqn:E; [|exact Hby].
    destruct (Hout va) with ph; [|done|done]. apply M5. assert (is_Some (window (bottom - 28) (main_stack bottom) va)) as Hw%window_in by by eexists.
    rewrite length_main_stack in Hw. unfold bottom in Hw. lia.
  - intros va Hva. cbn [set_um um pagetable]. rewrite (us_byte _ _ _ _ _ _ _ Hst) by by apply Huva. by rewrite Hkeep.
  - exact Hsp.
  - cbn [set_um um trapframe_pa]. etransitivity; [|exact Hepc]. apply load_agree. intros a Ha. rewrite Htf in Ha. apply (us_kernel _ _ _ _ _ _ _ Hst).
    + apply Hko. split; [apply (em_frame _ _ _ _ _ M1); lia|]. intros va Hva. apply (em_frame_user _ _ _ _ _ M1 a va); [lia|done].
    + intros Hw. apply (M3 a); [|lia]. unfold start_writes in *. by rewrite Htf in Hw.
Qed.

(** ** A binary of one segment, and a process with a stack *)

Definition tiny_elf : list Z := small_header 1 0x1010 ++ small_ph (PF_R + PF_X) 120 0x1010 4 16 ++ [1; 2; 3; 4].
Definition stack_perm : Z := Z.lor (Z.lor PTE_U PTE_R) PTE_W.
Definition stack_space : uspace :=
  match mmap USER_STACK_TOP (Z.of_nat 1 * 4096) MAP_USER stack_perm (blank_space tiny_elf) with Ret _ u => u | _ => blank_space tiny_elf end.
Definition demo_process : process := Process UserProcess ALLOCATED 0 None [] [] 0 1 0 (replicate 16 None) true.

Lemma stack_space_ok :
  exists T l, uok (um stack_space) (pagetable stack_space) T l /\ (3 < length l)%nat /\
    (forall a, 0xa000 <= a -> kernel_only (um stack_space) (pagetable stack_space) T l a) /\
    (forall va, USER_STACK_TOP <= va < USER_STACK_BOTTOM -> user_va (ram (um stack_space)) (pagetable stack_space) va) /\
    (forall va, 0 <= va < USER_STACK_TOP -> translate (ram (um stack_space)) (pagetable stack_space) va = None).
Proof.
  assert (user_perm stack_perm) as Hperm by by split; vm_compute.
  assert (USER_STACK_TOP + 4096 = USER_STACK_BOTTOM /\ 0 <= USER_STACK_TOP /\ USER_STACK_BOTTOM <= MAXVA) as (HB & H0 & HM) by by vm_compute.
  destruct (mmap_spec (blank_space tiny_elf) blank_tables blank_free USER_STACK_TOP 1 MAP_USER stack_perm)
    as (r & s' & infos & T & l & Hrun & Hu & Hres); [apply blank_uok|done|done|done|done|by intros va' _; apply blank_translate|].
  destruct Hres as [(-> & -> & Hg & Hlen & ps & Hps & Hm & _)|(_ & _ & Hlen & _)]; [|vm_compute in Hlen; lia].
  unfold stack_space. rewrite Hrun. cbn [set_infos set_um um pagetable]. change (pagetable (blank_space tiny_elf)) with 0x1000 in *.
  destruct ps as [|p [|]]; [done| |done]. pose proof (mr_pages _ _ _ _ _ _ _ Hm p ltac:(by left)) as Hp.
  destruct (pages_inv_free_pages _ _ p (vm_pages _ _ _ _ (uo_vm _ _ _ _ (blank_uok tiny_elf))) Hp) as [[Hal _] Hpr].
  destruct (map_pte_page p stack_perm Hal Hpr (proj1 Hperm)) as (Hpa & _ & Hbit).
  assert (forall va, USER_STACK_TOP <= va < USER_STACK_BOTTOM -> translate (ram s') 0x1000 va = Some (map_pte p stack_perm)) as Hin
    by (intros va Hva; apply (mr_in _ _ _ _ _ _ _ Hm 0%nat p va eq_refl); lia).
  assert (forall va, 0 <= va < MAXVA -> ~ USER_STACK_TOP <= va < USER_STACK_BOTTOM -> translate (ram s') 0x1000 va = None) as Hout.
  { intros va Hva Hn. rewrite (mr_out _ _ _ _ _ _ _ Hm va Hva); [apply blank_translate|]. cbn. lia. }
  exists T, l. split_and!.
  - exact Hu.
  - cbn in Hlen. lia.
  - intros a Ha. split; [apply (apart_grown _ _ _ _ _ _ _ Hg), blank_apart; lia|]. intros va [Hva (x & Hx & Hb)].
    destruct (decide (USER_STACK_TOP <= va < USER_STACK_BOTTOM)) as [Hs|Hs]; [|by rewrite Hout in Hx].
    rewrite (user_pa_eq _ _ _ x) by done. rewrite (Hin va Hs) in Hx. injection Hx as <-. rewrite Hpa.
    pose proof (proj2 (blank_apart 0xa000 ltac:(lia)) p Hp). assert (p < 0xa000); [|zlia].
    assert (forallb (fun p => p <? 0xa000) blank_free = true) as Hall by by vm_compute. rewrite forallb_forall in Hall. apply list_elem_of_In, Hall in Hp. lia.
  - intros va Hva. split; [lia|]. exists (map_pte p stack_perm). split; [by apply Hin|]. rewrite Hbit. apply Hperm.
  - intros va Hva. apply Hout; lia.
Qed.

Lemma tiny_segments : segments (ram (um stack_space)) 0xb000 = [ProgramHeader PT_LOAD 5 120 0x1010 0x1010 4 16 4096].
Proof. by vm_compute. Qed.

Lemma tiny_elf_ok : elf_ok (ram (um stack_space)) 0xb000 124.
Proof.
  split; [by vm_compute|by vm_compute|by vm_compute|rewrite tiny_segments..].
  - repeat constructor; by vm_compute.
  - by repeat constructor.
Qed.

Lemma stack_space_values : trapframe_pa stack_space = 0xa000 /\ stack_bottom_va stack_space = USER_STACK_BOTTOM.
Proof. by split; vm_compute. Qed.

Lemma stack_bounds : 28 <= USER_STACK_BOTTOM <= MAXVA /\ USER_STACK_TOP + 4096 = USER_STACK_BOTTOM /\ 0x3000 <= USER_STACK_TOP.
Proof. by vm_compute. Qed.

Lemma test_load_elf_correct_witness :
  exists s', test_load_elf 0x80400000 0xc000 0xc010 0xc018 0xb000 124 (stack_space, demo_process) = Ret 0 s' /\ _state (snd s') = WAKEN_UP.
Proof.
  destruct stack_space_ok as (T & l & Hu & Hlen & Hk & Hs & Hn). destruct stack_space_values as [Htf Hsb]. destruct stack_bounds as (HB1 & HB2 & HB3).
  destruct (test_load_elf_correct stack_space demo_process T l 0x80400000 0xc000 0xc010 0xc018 0xb000 124) as (u' & T' & l' & Hrun & _).
  - exact Hu.
  - exact tiny_elf_ok.
  - split.
    + split; [intros a Ha; apply Hk; lia|intros a Ha; apply Hk; rewrite Htf in Ha; unfold TRAPFRAME_EPC in Ha; lia|].
      intros a va Ha Hva. rewrite Htf in Ha. unfold TRAPFRAME_EPC in Ha. apply (proj2 (Hk a ltac:(lia))), Hva.
    + intros a Ha. unfold start_writes in Ha. rewrite Htf in Ha. unfold TRAPFRAME_SP in Ha. apply Hk. lia.
    + intros a Ha. unfold start_writes in Ha. rewrite Htf in *. unfold TRAPFRAME_SP, TRAPFRAME_EPC in *. lia.
    + rewrite Hsb. exact HB1.
    + intros a Ha. rewrite Hsb in Ha. apply Hs. lia.
  - intros ph va Hin Hva. rewrite tiny_segments in Hin. apply list_elem_of_singleton in Hin as ->. apply Hn. assert (0x1000 <= va < 0x2000) by exact Hva. lia.
  - rewrite tiny_segments. replace (total_pages _) with 1%nat by (vm_compute; reflexivity). lia.
  - exists (u', set_state WAKEN_UP (set_files (<[2%nat := Some 0x80400000]> (<[1%nat := Some 0x80400000]> (<[0%nat := Some 0x80400000]> (files demo_process)))) demo_process)).
    split; [exact Hrun|reflexivity].
Defined.

(** The stack pointer that [main] gets is not a multiple of 16, as the calling
    convention wants it to be; it is not even one of 8. *)
Lemma main_stack_misaligned bottom : bottom mod 4096 = 0 -> (bottom - 28) mod 8 = 4.
Proof. intros Hb. zlia. Qed.
