(* ===== verification/Log.v ===== *)
(** * The loggers (src/os/utils/log.h, log.cc)

    The console logger prints a line between a prefix and a reset of the colour,
    under a lock that its user may already hold.  The file logger keeps the last
    64 trace points of every core in a ring.  The theorems say that a line comes
    out whole and the lock is as before, and that the ring holds the last 64 trace
    points, the newest first. *)
From S2P Require Import Prelude Memory NfsBlock NfsInode Printf.

Inductive log_level := TRACE | DEBUG | INFO | WARN | ERROR.

(** The values of the colours of the levels, and the names of the levels. *)
Definition log_level_color (v : log_level) : Z :=
  match v with TRACE => 37 | DEBUG => 92 | INFO => 94 | WARN => 93 | ERROR => 91 end.
Definition log_level_str (v : log_level) : list Z :=
  match v with
  | TRACE => [84; 82; 65; 67; 69] | DEBUG => [68; 69; 66; 85; 71] | INFO => [32; 73; 78; 70; 79]
  | WARN => [32; 87; 65; 82; 78] | ERROR => [69; 82; 82; 79; 82]
  end.

(** ** The console logger *)

(** The output and whether this core holds the lock. *)
Record console_log := ConsoleLog { con_out : list Z; con_held : bool }.

Definition on_out {A : Type} (op : console A) : K console_log A := fun s =>
  match op (con_out s) with
  | Ret a out => Ret a (ConsoleLog out (con_held s))
  | TaskFail out => TaskFail (ConsoleLog out (con_held s))
  | Panic => Panic
  | OutOfFuel => OutOfFuel
  end.

(** The spinlock panics when it is taken twice or given back by another. *)
Definition con_lock : K console_log unit := s <- kget ;; if con_held s then kpanic else kput (ConsoleLog (con_out s) true).
Definition con_unlock : K console_log unit := s <- kget ;; if con_held s then kput (ConsoleLog (con_out s) false) else kpanic.

(** "\033[%dm[%d] [%s] [C] [%d] " and "\033[0m". *)
Definition line_prefix : list Z := [27; 91; 37; 100; 109; 91; 37; 100; 93; 32; 91; 37; 115; 93; 32; 91; 67; 93; 32; 91; 37; 100; 93; 32; 0].
Definition line_reset : list Z := [27; 91; 48; 109; 0].

(** [us] is the time in microseconds and [core] the number of the core. *)
Definition console_vprintf (with_lock : bool) (us core : Z) (level : log_level) (color : Z) (fmt : list Z) (args : list arg) : K console_log Z :=
  s <- kget ;;
  let hold := con_held s in
  (if with_lock && negb hold then con_lock else kret tt) ;;;
  r1 <- on_out (__printf line_prefix [AInt color; AInt us; AStr (Some (log_level_str level)); AInt core]) ;;
  r2 <- on_out (__vprintf fmt args) ;;
  r3 <- on_out (__printf line_reset []) ;;
  (if with_lock && negb hold then con_unlock else kret tt) ;;;
  kret (Z.lor (Z.lor (Z.lor 0 r1) r2) r3).

Definition printf_level (with_lock : bool) (us core : Z) (level : log_level) (fmt : list Z) (args : list arg) : K console_log Z :=
  console_vprintf with_lock us core level (log_level_color level) fmt args.
Definition printf_info (with_lock : bool) (us core : Z) (fmt : list Z) (args : list arg) : K console_log Z :=
  console_vprintf with_lock us core INFO (log_level_color INFO) fmt args.
Definition raw_printf (fmt : list Z) (args : list arg) : K console_log Z :=
  con_lock ;;; ret <- on_out (__vprintf fmt args) ;; con_unlock ;;; kret ret.
Definition putc (c : Z) : K console_log unit := con_lock ;;; on_out (putchar c) ;;; con_unlock.

(** ** The file logger *)

Definition MAX_TRACE_CNT : Z := 64.
Definition NCPU : nat := 4.

Record file_logger := FileLogger { trace_pool : list (list Z); trace_last : list Z; log_file : list (list Z); file_locked : bool }.

Definition new_file_logger : file_logger :=
  FileLogger (replicate NCPU (replicate (Z.to_nat MAX_TRACE_CNT) (-1))) (replicate NCPU 0) [] false.

(** The ring of a core; [cpu_id] is the number of the core. *)
Definition ring (s : file_logger) (cpu_id : nat) : list Z := default [] (trace_pool s !! cpu_id).
Definition last_of (s : file_logger) (cpu_id : nat) : Z := default 0 (trace_last s !! cpu_id).

(** Both run under [trace_lock]. *)
Definition push_trace (cpu_id : nat) (id : Z) : K file_logger unit := fun s =>
  if decide (cpu_id < NCPU)%nat then
    let last := s32 (last_of s cpu_id + 1) mod MAX_TRACE_CNT in
    Ret tt (FileLogger (<[cpu_id := updZ (ring s cpu_id) last (s64 id)]> (trace_pool s)) (<[cpu_id := last]> (trace_last s))
      (log_file s) (file_locked s))
  else Panic.
Definition get_last_trace (cpu_id : nat) : K file_logger Z := fun s =>
  if decide (cpu_id < NCPU)%nat then Ret (nthZ (ring s cpu_id) (last_of s cpu_id)) s else Panic.

Definition on_log (op : K (list (list Z)) unit) : K file_logger unit := fun s =>
  match op (log_file s) with
  | Ret a ws => Ret a (FileLogger (trace_pool s) (trace_last s) ws (file_locked s))
  | TaskFail ws => TaskFail (FileLogger (trace_pool s) (trace_last s) ws (file_locked s))
  | Panic => Panic
  | OutOfFuel => OutOfFuel
  end.
Definition set_file_locked (b : bool) (s : file_logger) : file_logger := FileLogger (trace_pool s) (trace_last s) (log_file s) b.

(** The order in which [print_trace] goes through a ring from [last] on. *)
Definition step_back (last : Z) : Z := let last := last - 1 in if last <? 0 then MAX_TRACE_CNT - 1 else last.
Fixpoint trace_loop (print : Z -> K file_logger unit) (n : nat) (r : list Z) (last : Z) : K file_logger unit :=
  match n with
  | O => kret tt
  | S n' => print (nthZ r last) ;;; trace_loop print n' r (step_back last)
  end.

(** "traceback: ", "%p " and a line feed. *)
Definition print_trace (cpu_id : nat) : K file_logger unit :=
  s <- kget ;;
  kmodify (set_file_locked true) ;;;
  on_log (__fprintf [116; 114; 97; 99; 101; 98; 97; 99; 107; 58; 32; 0] []) ;;;
  trace_loop (fun x => on_log (__fprintf [37; 112; 32; 0] [AInt x])) (Z.to_nat MAX_TRACE_CNT) (ring s cpu_id) (last_of s cpu_id) ;;;
  on_log (__fprintf [10; 0] []) ;;;
  kmodify (set_file_locked false).

(** [file_logger::printf]; the lock is that of the file.  The prefix is
    "\033[%dm[%d] [%s] [F] ". *)
Definition file_printf (with_lock : bool) (us : Z) (level : log_level) (color : Z) (fmt : list Z) (args : list arg) : K file_logger unit :=
  (if with_lock then kmodify (set_file_locked true) else kret tt) ;;;
  on_log (__fprintf [27; 91; 37; 100; 109; 91; 37; 100; 93; 32; 91; 37; 115; 93; 32; 91; 70; 93; 32; 0]
    [AInt color; AInt us; AStr (Some (log_level_str level))]) ;;;
  on_log (__fprintf fmt args) ;;;
  on_log (__fprintf line_reset []) ;;;
  (if with_lock then kmodify (set_file_locked false) else kret tt).

(** ** A line of the console *)

Definition prefix_pieces (us core color : Z) (level : log_level) : list piece :=
  [Text [27; 91]; Dec color; Text [109; 91]; Dec us; Text [93; 32; 91]; Str (Some (log_level_str level)); Text [93; 32; 91; 67; 93; 32; 91]; Dec core; Text [93; 32]].

Lemma prefix_ok us core color level : Forall piece_ok (prefix_pieces us core color level).
Proof. repeat constructor; unfold PERCENT; lia. Qed.

Lemma prefix_run us core color level out :
  exists bs, Forall2 renders (prefix_pieces us core color level) bs /\
    __printf line_prefix [AInt color; AInt us; AStr (Some (log_level_str level)); AInt core] out = Ret 0 (out ++ concat bs).
Proof.
  destruct (vprintf_pieces (prefix_pieces us core color level) out (prefix_ok us core color level)) as (bs & Hbs & Hrun). exists bs. split; [exact Hbs|].
  unfold __printf. change line_prefix with (concat (fmt_of <$> prefix_pieces us core color level) ++ [0]).
  change [AInt color; AInt us; AStr (Some (log_level_str level)); AInt core] with (concat (args_of <$> prefix_pieces us core color level)).
  by rewrite (kbind_ret _ _ _ _ _ Hrun).
Qed.

Lemma reset_run out : __printf line_reset [] out = Ret 0 (out ++ [27; 91; 48; 109]).
Proof. unfold __printf, __vprintf, kbind, kret. cbn -[app]. unfold kbind, putchar, kmodify. cbn -[app]. by rewrite <- !app_assoc. Qed.

(** A line of the console comes out in one piece: the prefix with the colour, the
    time, the level and the core, the text, and the reset of the colour; the lock
    is held afterwards exactly if it was before. *)
Theorem console_line with_lock us core level color ps s : Forall piece_ok ps ->
  exists pre bs, Forall2 renders (prefix_pieces us core color level) pre /\ Forall2 renders ps bs /\
    console_vprintf with_lock us core level color (concat (fmt_of <$> ps) ++ [0]) (concat (args_of <$> ps)) s =
      Ret 0 (ConsoleLog (con_out s ++ concat pre ++ concat bs ++ [27; 91; 48; 109]) (con_held s)).
Proof.
  intros Hok. destruct s as [out held]. destruct (prefix_run us core color level out) as (pre & Hpre & Hr1).
  destruct (vprintf_pieces ps (out ++ concat pre) Hok) as (bs & Hbs & Hr2). exists pre, bs. split; [exact Hpre|]. split; [exact Hbs|].
  assert (forall {A : Type} (op : console A) o a o' h, op o = Ret a o' -> on_out op (ConsoleLog o h) = Ret a (ConsoleLog o' h)) as Hon
    by (intros A op o a o' h Hop; unfold on_out; cbn [con_out con_held]; by rewrite Hop).
  unfold console_vprintf. unfold kbind at 1, kget. cbn [con_out con_held].
  set (h := if with_lock then true else held).
  rewrite (kbind_ret _ _ _ tt (ConsoleLog out h)) by by destruct with_lock, held.
  rewrite (kbind_ret _ _ _ _ _ (Hon _ _ _ _ _ h Hr1)), (kbind_ret _ _ _ _ _ (Hon _ _ _ _ _ h Hr2)), (kbind_ret _ _ _ _ _ (Hon _ _ _ _ _ h (reset_run _))).
  rewrite (kbind_ret _ _ _ tt (ConsoleLog (((out ++ concat pre) ++ concat bs) ++ [27; 91; 48; 109]) held)) by by destruct with_lock, held.
  by rewrite <- !app_assoc.
Qed.

(** ** The ring of trace points *)

Fixpoint push_all (cpu_id : nat) (ids : list Z) : K file_logger unit :=
  match ids with
  | [] => kret tt
  | id :: ids' => push_trace cpu_id id ;;; push_all cpu_id ids'
  end.

(** What [trace_loop] prints. *)
Fixpoint visited (n : nat) (r : list Z) (last : Z) : list Z :=
  match n with
  | O => []
  | S n' => nthZ r last :: visited n' r (step_back last)
  end.
Definition visited_on (s : file_logger) (cpu_id : nat) : list Z := visited 64 (ring s cpu_id) (last_of s cpu_id).

Lemma step_back_mod last : 0 <= last < 64 -> step_back last = (last - 1) mod 64 /\ 0 <= step_back last < 64.
Proof. intros Hl. unfold step_back, MAX_TRACE_CNT. destruct (Z.ltb_spec (last - 1) 0); zlia. Qed.

Lemma visited_lookup n r : forall last k, 0 <= last < 64 -> (k < n)%nat -> visited n r last !! k = Some (nthZ r ((last - Z.of_nat k) mod 64)).
Proof.
  induction n as [|n IH]; intros last k Hl Hk; [lia|]. cbn [visited]. destruct k as [|k]; cbn [lookup list_lookup].
  - rewrite Z.sub_0_r, Z.mod_small by lia. done.
  - destruct (step_back_mod last Hl) as [Hs Hr]. change (visited n r (step_back last) !! k = Some (nthZ r ((last - Z.of_nat (S k)) mod 64))).
    rewrite IH by lia. do 2 f_equal. rewrite Hs. zlia.
Qed.

Lemma length_visited n r last : length (visited n r last) = n.
Proof. revert last. induction n; intros; cbn; by f_equal. Qed.

(** A push puts a trace point in front. *)
Lemma visited_push r last x : 0 <= last < 64 -> length r = 64%nat ->
  visited 64 (updZ r ((last + 1) mod 64) x) ((last + 1) mod 64) = x :: take 63 (visited 64 r last).
Proof.
  intros Hl Hr. apply list_eq. intros k. assert (0 <= (last + 1) mod 64 < 64) as Hm by zlia.
  destruct (decide (k < 64)%nat) as [Hk|Hk].
  2: { rewrite !lookup_ge_None_2; [done| |]; rewrite ?length_visited; [|lia]. cbn [length]. rewrite length_take, length_visited. lia. }
  rewrite visited_lookup by lia. destruct k as [|k].
  - rewrite Z.sub_0_r, (Z.mod_small ((last + 1) mod 64)) by lia. cbn [lookup list_lookup]. f_equal. apply nthZ_updZ_eq. lia.
  - cbn [lookup list_lookup]. change (Some (nthZ (updZ r ((last + 1) mod 64) x) (((last + 1) mod 64 - Z.of_nat (S k)) mod 64)) = take 63 (visited 64 r last) !! k).
    rewrite lookup_take_lt, visited_lookup by lia. f_equal. rewrite nthZ_updZ_ne by zlia. f_equal. zlia.
Qed.

(** The ring of a core that exists is in order. *)
Definition ring_ok (s : file_logger) (cpu_id : nat) : Prop :=
  (cpu_id < length (trace_pool s))%nat /\ (cpu_id < length (trace_last s))%nat /\ length (ring s cpu_id) = 64%nat /\ 0 <= last_of s cpu_id < 64.

Lemma push_trace_run s cpu_id id : (cpu_id < NCPU)%nat -> ring_ok s cpu_id ->
  exists s', push_trace cpu_id id s = Ret tt s' /\ ring_ok s' cpu_id /\ visited_on s' cpu_id = s64 id :: take 63 (visited_on s cpu_id).
Proof.
  intros Hc (H1 & H2 & H3 & H4). unfold push_trace. rewrite decide_True by done.
  assert (s32 (last_of s cpu_id + 1) mod MAX_TRACE_CNT = (last_of s cpu_id + 1) mod 64) as Hl.
  { assert (s32 (last_of s cpu_id + 1) = last_of s cpu_id + 1) as -> by (unfold s32; rewrite Z.mod_small; lia). done. }
  eexists. split; [reflexivity|]. rewrite Hl. unfold ring_ok, visited_on, ring, last_of in *. cbn [trace_pool trace_last].
  rewrite !length_insert, !list_lookup_insert_eq by done. unfold default; cbn [from_option]; unfold Datatypes.id. split.
  - split_and!; [done|done|by rewrite length_updZ|zlia|zlia].
  - by apply visited_push.
Qed.

Lemma push_all_run ids : forall s cpu_id l, (cpu_id < NCPU)%nat -> ring_ok s cpu_id ->
  (64 <= length l)%nat -> visited_on s cpu_id = take 64 l ->
  exists s', push_all cpu_id ids s = Ret tt s' /\ visited_on s' cpu_id = take 64 (rev (s64 <$> ids) ++ l).
Proof.
  induction ids as [|id ids IH]; intros s cpu_id l Hc Hok Hlen Hv; [by exists s|].
  destruct (push_trace_run s cpu_id id Hc Hok) as (s1 & Hrun & Hok1 & Hv1).
  destruct (IH s1 cpu_id (s64 id :: l) Hc Hok1) as (s2 & Hrun2 & Hv2); [cbn; lia| |].
  { rewrite Hv1, Hv, take_take. done. }
  exists s2. split; [cbn [push_all]; by rewrite (kbind_ret _ _ _ _ _ Hrun)|]. rewrite Hv2, fmap_cons. cbn [rev]. by rewrite <- app_assoc.
Qed.

(** The file logger remembers the last 64 trace points of a core: going back from
    the last one, as [print_trace] does, gives them the newest first, and -1 for
    what has not happened yet. *)
Theorem trace_newest_first cpu_id ids : (cpu_id < NCPU)%nat ->
  exists s, push_all cpu_id ids new_file_logger = Ret tt s /\ visited_on s cpu_id = take 64 (rev (s64 <$> ids) ++ replicate 64 (-1)).
Proof.
  intros Hc. apply push_all_run; [done| |by vm_compute; lia|].
  - unfold NCPU in Hc. do 4 (destruct cpu_id as [|cpu_id]; [by vm_compute|]). lia.
  - unfold NCPU in Hc. do 4 (destruct cpu_id as [|cpu_id]; [by vm_compute|]). lia.
Qed.

(** [print_trace] never gets that far: %p with an integer is refused, the task
    fails, and the lock of the log file stays taken. *)
Lemma print_trace_fails cpu_id s : exists s', print_trace cpu_id s = TaskFail s' /\ file_locked s' = true.
Proof. destruct s as [pool last ws lk]. eexists. split; [reflexivity|]. reflexivity. Qed.
